(* ===== verification/_CoqProject ===== *)
-Q . S2P
Prelude.v
StateM.v
Ring.v
Slots.v
CText.v
EventQueue.v
EventQueueSafety.v
Identity.v
Settings.v
Crypto.v
SampleCrypto.v
Frame.v
Session.v
SessionRatchet.v
SessionRecv.v
SessionPair.v
SessionHandshake.v
SessionRing.v
SessionResend.v
SessionRekey.v
SessionSafety.v
Chess.v
ChessRules.v
ChessMoves.v
ChessInvariant.v
ChessOutcome.v
ChessGame.v
ChessPair.v
Sidecar.v
OfflineQueue.v
ChatEngine.v
ChatPolicy.v
SessionStore.v
SessionStoreProofs.v
History.v
Resume.v
Xfer.v
Avatar.v
Transfer.v
TransferSafety.v
TransferFlow.v
TransferDownload.v
TransferSend.v
AvatarPolicy.v
Savedata.v
Startup.v
StartupSafety.v
Transcript.v
TranscriptLog.v
TunnelPorts.v
Linked.v
Events.v
UiState.v
UiContacts.v
UiCommands.v
UiGroups.v
UiChess.v
UiTunnel.v
UiLoop.v
UiSafety.v
UiQuiet.v
UiTyping.v
UiPolicy.v
UiMirror.v
Groups.v
GroupSync.v
GroupPolicy.v
Profiles.v
ProfilesSafety.v
TunnelLink.v
TunnelConn.v
Tunnel.v
TunnelStream.v
TunnelSignal.v
TunnelSafety.v
TunnelLoops.v
TunnelPolicy.v
UiShare.v
