(* ===== verification/Prelude.v ===== *)
(** * TkTox: a verification library

    TkTox is a Tox client.  Under its user interface it adds to toxcore an
    end-to-end encryption layer of its own, an offline message queue, chess
    between friends, port tunnels, and encrypted files beside the profile.  This
    library models that logic from the C sources under [src/] and proves what
    makes it correct, or how it fails.

    ** Parts, files and sources

    - Shared: [Prelude] (bytes, machine integers, big-endian fields, the
      [outcome] of a parser over raw memory, record update), [StateM] (a state
      monad with Hoare triples and invariants), [Ring] (circular buffers as
      lists), [Slots] (fixed tables searched for an entry or a free slot),
      [CText] (decimal [printf]/[sscanf], C strings).
    - Cryptographic layer: [Crypto] models the wrappers of [crypto/aead.c],
      [crypto/kdf.c] and [crypto/kem.c] over a class [Prims] of primitives
      (libsodium, SNTRUP761) with documented laws [PrimLaws]; [SampleCrypto] is a
      concrete instance, so that every theorem under the laws has a witness.
      [Frame] is [crypto/frame.c].
    - E2EE session ([session.c], [session.h]): [Session] has the record [TTSession]
      and every operation, randomness threaded through.  Theorems:
      [SessionRatchet] (helpers), [SessionRecv] (the receive window),
      [SessionPair] and [SessionHandshake] (two parties), [SessionRing] and
      [SessionResend] (reliable delivery), [SessionRekey], [SessionSafety] (the
      invariant of every reachable state).
    - Chess ([chess.c], the chess part of [tox_thread.c]): [Chess] is the engine,
      [ChessGame] the packet handler and commands of one friend; [ChessRules] is a
      declarative statement of the movement rules; [ChessMoves],
      [ChessInvariant], [ChessOutcome] and [ChessPair] hold the theorems.
    - Files beside the profile: [Sidecar] has the reading, decrypting and
      writing steps that four C files share; [OfflineQueue]
      ([offline_queue.c]), [History] ([history.c]), [Resume] ([resume.c]),
      [SessionStore] with [SessionStoreProofs] ([session_store.c]).
      toxencryptsave is the class [PassKey] with its laws.  [Settings] is the
      plain-text settings file of [tox_thread.c].
    - Chat ([tox_thread.c]): [ChatEngine] runs one friend's session, offline
      queue and encryption policy in a state monad: the receive hook
      [cb_friend_message], the connection callback, the send and enforce
      commands, the queue flush.  [ChatPolicy] holds its theorems.
    - File transfers and avatars (the transfer part of [tox_thread.c]): [Xfer] is
      the transfer table and the environment (class [XferEnv]: answers of toxcore,
      of the disk and of the GIF decoder by call number; files by path; what is
      done is recorded in a trace), [Avatar] the avatars sent and received,
      [Transfer] the three toxcore file callbacks, the commands, the pauses and
      the resumption at a reconnect.  Theorems: [TransferSafety] (the invariant),
      [TransferFlow] (one download followed among others), [TransferDownload],
      [TransferSend], [AvatarPolicy].
    - Tunnels ([tunnel.c], [tunnel.h], their callbacks in [tox_thread.c]):
      [TunnelPorts] has the port lists; [TunnelLink] the custom packets, the
      tunnel's own E2EE sessions and the environment (class [TunnelEnv]: answers
      of toxcore and of the sockets by call number; what is done is recorded in
      a trace); [TunnelConn] one forwarded connection; [Tunnel] the tunnel list
      with its signals, allowlist, forwarding and poll.  Theorems:
      [TunnelStream] (two ends of a stream), [TunnelSignal] (invitations),
      [TunnelSafety] (the invariant), [TunnelLoops] (termination),
      [TunnelPolicy] (who may use a tunnel).
    - The client around them ([tox_thread.c]): [EventQueue] has the events and the
      two queues between the tox thread and the UI, as steps of threads that lock
      and wait ([EventQueueSafety]: delivery, wake-ups, mutual blocking);
      [Identity] the Tox IDs and keys that travel as text; [Savedata] the profile
      file and the DHT section that Tor mode removes; [Startup] what
      [tox_thread_main] does before its loop and after it, with the environment
      and the files as arguments and toxcore and the key derivation as the
      classes [ToxCore] and [KeyDerivation] ([StartupSafety]).
    - The profile manager ([ui/profiles.c]): [Profiles] has the list and the
      commands of the dialogs over a directory as a map, [ProfilesSafety] their
      theorems.
    - The interface ([ui/ui_tk.c]): [Transcript] has the transcript string of a
      chat, the lines the history widget shows of it, the emoticons and the
      history file, with the theorems in [TranscriptLog].  [Linked] are the
      linked lists of contacts, groups and members, [Events] the event and
      command types of the two queues.  [UiState] is the state [Ui] with the
      roster and the selection; [UiContacts] and [UiCommands] are the events and
      commands about contacts, [UiGroups] those about groups, [UiChess] the chess
      window and [UiTunnel] the tunnel panel and its dialogs; [UiLoop] puts them
      together as [handle_event], the user's actions, and runs of both.
      Theorems: [UiSafety] (the invariant), [UiQuiet] (which part of the state
      only its own events and actions change), [UiTyping] (the typing indicator),
      [UiPolicy] (sending and friend requests, both clients), [UiMirror] (the
      chess window and the tox thread's game, as a step relation), [UiShare] (the
      panel, and a share from the dialog of one user to the other's).
    - Groups in the tox thread ([tox_thread.c]): [Groups] has the callbacks, the
      commands, the invitation table, the SYNC burst and the restoring, over
      toxcore as the class [ToxGroups].  [GroupSync] and [GroupPolicy] put it
      together with the interface.
    Calls go downwards only: [Tunnel] uses [TunnelConn], which uses [TunnelLink],
    which uses [Session]; [ChatEngine] uses [Session], [OfflineQueue] and
    [Sidecar]; [Session] uses [Frame], which uses [Crypto]; [SessionStore] stores
    the [TTSession] record.

    ** Conventions

    A C function on a struct is a function from record to record; [int] results
    with a buffer are the type [ret] (bytes or a status).  A parser over raw
    memory returns an [outcome]: [Ok], the code's own failure [Fail], or [Oob], a
    read outside the buffer.  Unsigned integers are [Z] with explicit [u8],
    [u16], [u32] wrap-around.  A fixed array with a live prefix is the list of
    its live part; rings whose slots are reused keep all their slots.  Time and
    randomness are arguments, what toxcore answers is an oracle.

    ** What the theorems show

    - Messages: two parties that complete the handshake agree on all keys, and
      every text sent by either side in any interleaving arrives unchanged
      ([SessionHandshake]); the receive window refines an abstract one and
      delivers no number twice ([SessionRecv]); no array of a session overflows,
      whatever is received ([SessionSafety]); frames round-trip ([Frame]).
    - Policy: with encryption required no plaintext leaves or reaches the user
      ([ChatPolicy]).
    - Storage: queue, resume index, transcripts, sessions and settings are their
      abstract data types, and what was saved is what is loaded, with the
      exceptions the theorems name ([OfflineQueue], [Resume], [History],
      [SessionStoreProofs], [Settings]).
    - Chess: validator and generator agree with the rules, reachable positions
      are well formed, results follow the rules, and the two boards of a game
      never disagree.
    - Transfers: a download ends with the bytes that were sent and only then, a
      requested file arrives, table and offsets keep their bounds, and an avatar
      is shown only when its hash is the one that was announced.
    - Tunnels: a forwarded stream arrives whole and in order and its window
      accounts for every frame; an accepted share opens one matching tunnel at
      each end; no packet is read past its end; every array and buffer keeps its
      bound in every reachable state; the loops end.
    - Starting and stopping: a proxy is never bypassed, a profile that exists is
      never replaced by a fresh one on a wrong passphrase, a restart restores what
      was saved, Tor mode drops exactly the DHT section ([StartupSafety],
      [Savedata]).
    - Events: the queues are bounded FIFOs under any interleaving and lose no
      wake-up ([EventQueueSafety]); keys come through the UI unchanged ([Identity]).
    - Interface: contacts, members and the request row are unique, texts fit
      their arrays and the selection exists, whatever comes ([UiSafety]); a
      friend was last told that we type exactly if the interface holds so
      ([UiTyping]); a transcript is a bounded log ([TranscriptLog]); what is
      typed is what both clients show ([UiPolicy]); the board on the screen is
      the tox thread's but for the one move under way ([UiMirror]); the tunnel
      panel lists what the interface was told, and the ports typed in the share
      dialog are the ones the friend opens ([UiShare]).
    - Groups: a SYNC makes the picture of a group what toxcore knows
      ([GroupSync]); the dialogs of making, joining and accepting reach toxcore
      as filled in; where a role is shown wrongly, a group listed twice, and an
      invitation accepted that was never shown ([GroupPolicy]).
    - Profiles: the list is exact, rename and delete touch exactly a profile's
      files ([ProfilesSafety]).
    - Defects: several theorems state behaviour the code does not intend (lost
      queue entries, forgotten enforcement, endless resend, lost key publication,
      king capture, a read past a packet, an allowlist that TCP connections
      bypass, a denied friend who keeps receiving, a failed transfer answered
      with our avatar, an interrupted avatar that is refused for good).  Their doc comments say so.

    ** Fuel

    [len buf] rounds bound the entry loops of the file readers, since every entry
    takes at least one byte; [TT_SESSION_PENDING_MAX + 1] rounds bound the flush of
    stashed texts, which holds at most that many; [SessionResend] proves when
    34 rounds are enough for the drain of control frames and when no number is.
    [FLUSH_FUEL] (17) rounds flush and drain a tunnel connection, whose window is
    16 frames, and 65 rounds accept on a port, whose table has 64 slots:
    [TunnelLoops] proves that more rounds change nothing.  253 rounds try the
    loopback octets 2 to 254.  The peer loop of a SYNC ends at the first number
    without a name, so more rounds than named peers are enough ([GroupSync]);
    the loops over a text take its length.

    ** Not modelled

    The widgets of the Tk interface, its avatars, call buttons and input history,
    the headless test harness, audio and video, platform shims and logging: input
    and output around the parts above.
    libsodium, SNTRUP761, toxcore and toxencryptsave are not part of the
    program: they are the classes and oracles above.  File operations and memory
    allocation are taken to succeed.  In the tunnels, socket creation, binding
    and name resolution are oracles, a local socket takes what is written whole,
    and an access to the session array with a friend number outside it (a
    finding of the manifest) reads a cleared session.  Of the interface, a
    widget's content is an argument of the command that reads it, a window is
    what it shows, and which local ports are free is an argument. *)
From stdpp Require Export base list numbers option strings.
From Stdlib Require Export ZArith Lia.
#[global] Open Scope Z_scope.

(** ** Record update

    [r <| f := v |>] is [r] with the field [f] replaced by [v].  A record type
    opts in with one [EtaRecord] instance that rebuilds it from its fields. *)

Class EtaRecord (R : Type) := eta_record : R -> R.
Class SetField {R A : Type} (f : R -> A) := set_field : (A -> A) -> R -> R.

Ltac build_setter :=
  lazymatch goal with
  | |- @SetField ?R ?A ?f =>
      let e := eval hnf in (@eta_record R _) in
      let upd := fresh "upd" in
      let r := fresh "r" in
      unfold SetField; intros upd r;
      let body := eval cbv beta in (e r) in
      let pat := eval pattern (f r) in body in
      lazymatch pat with
      | ?g _ => let res := eval cbv beta in (g (upd (f r))) in exact res
      end
  end.

#[export] Hint Extern 0 (SetField _) => build_setter : typeclass_instances.

Notation "r '<|' f ':=' v '|>'" := (set_field (f:=f) (fun _ => v) r)
  (at level 1, left associativity, format "r '<|' f  ':='  v '|>'").

(** ** Bytes and machine integers

    A byte is a [Z] in [0, 256); a buffer is a [list Z].  Unsigned C integers
    are kept in [Z] and wrapped explicitly at their width. *)

Abbreviation bytes := (list Z).

Definition is_byte (b : Z) : Prop := 0 <= b < 256.
Definition all_bytes (l : bytes) : Prop := Forall is_byte l.

Definition u8 (z : Z) : Z := z mod 2 ^ 8.
Definition u16 (z : Z) : Z := z mod 2 ^ 16.
Definition u32 (z : Z) : Z := z mod 2 ^ 32.
Definition u64 (z : Z) : Z := z mod 2 ^ 64.

Definition is_u16 (z : Z) : Prop := 0 <= z < 2 ^ 16.
Definition is_u32 (z : Z) : Prop := 0 <= z < 2 ^ 32.

(** ** Buffers indexed by [Z] *)

Definition len {A} (l : list A) : Z := Z.of_nat (length l).
Definition ztake {A} (n : Z) (l : list A) : list A := take (Z.to_nat n) l.
Definition zdrop {A} (n : Z) (l : list A) : list A := drop (Z.to_nat n) l.
(** [zsub off n l]: the [n] bytes of [l] at offset [off]. *)
Definition zsub {A} (off n : Z) (l : list A) : list A := ztake n (zdrop off l).
Definition zat (l : bytes) (i : Z) : Z := default 0 (l !! Z.to_nat i).
Definition zrep {A} (n : Z) (x : A) : list A := replicate (Z.to_nat n) x.
(** [memcpy (arr, src, len src)]: overwrite a prefix of a fixed-size array. *)
Definition overwrite {A} (src arr : list A) : list A := src ++ zdrop (len src) arr.

(** [TT_MAX_FRIENDS] of [tox_thread.h]: the size of every per-friend table. *)
Definition TT_MAX_FRIENDS : Z := 256.
Definition UINT32_MAX : Z := 4294967295.

(** ** Big-endian integers, written as the source writes them *)

Definition be16 (v : Z) : bytes := [u8 (Z.shiftr v 8); u8 v].
Definition be32 (v : Z) : bytes :=
  [u8 (Z.shiftr v 24); u8 (Z.shiftr v 16); u8 (Z.shiftr v 8); u8 v].
Definition rd16 (a b : Z) : Z := Z.lor (Z.shiftl a 8) b.
Definition rd32 (a b c d : Z) : Z :=
  Z.lor (Z.lor (Z.lor (Z.shiftl a 24) (Z.shiftl b 16)) (Z.shiftl c 8)) d.

Definition bytes_eqb (a b : bytes) : bool := bool_decide (a = b).

(** ** Fallible steps of a parser over raw memory

    [Ok a] continues, [Fail] is the code's own rejection ([return -1], a
    [break]), and [Oob] is a read outside the buffer: undefined behaviour in C.
    A parser is memory safe when it never returns [Oob]. *)
Inductive outcome (A : Type) : Type :=
| Ok (a : A)
| Fail
| Oob.
Arguments Ok {A} a.
Arguments Fail {A}.
Arguments Oob {A}.

#[export] Instance outcome_ret : MRet outcome := @Ok.
#[export] Instance outcome_bind : MBind outcome := fun A B k m =>
  match m with Ok a => k a | Fail => Fail | Oob => Oob end.

Definition guard_ok (b : bool) : outcome unit := if b then Ok tt else Fail.

(** ** Tactics *)

(** Split every boolean comparison of hypotheses and goal into its
    arithmetic meaning, then leave the rest to [lia]. *)
Ltac bool_to_prop :=
  repeat match goal with
  | H : _ && _ = true |- _ => apply andb_true_iff in H; destruct H
  | H : _ || _ = false |- _ => apply orb_false_iff in H; destruct H
  | H : negb _ = true |- _ => apply negb_true_iff in H
  | H : negb _ = false |- _ => apply negb_false_iff in H
  | H : (_ <? _) = true |- _ => apply Z.ltb_lt in H
  | H : (_ <? _) = false |- _ => apply Z.ltb_ge in H
  | H : (_ <=? _) = true |- _ => apply Z.leb_le in H
  | H : (_ <=? _) = false |- _ => apply Z.leb_gt in H
  | H : (_ =? _) = true |- _ => apply Z.eqb_eq in H
  | H : (_ =? _) = false |- _ => apply Z.eqb_neq in H
  end.

(** Split syntactic conjunctions only (unlike [split_and!], never through a
    definition). *)
Ltac split_conj := repeat match goal with |- _ /\ _ => split end.

(** Case analysis on the scrutinee of the first [if]/[match] of the goal. *)
Ltac case_goal :=
  match goal with
  | |- context [match ?x with _ => _ end] => destruct x eqn:?
  end.
(** The same in a hypothesis. *)
Ltac case_hyp H :=
  match type of H with
  | context [match ?x with _ => _ end] => destruct x eqn:?
  end.
(** Prove that an [if] takes the branch its arithmetic guard selects. *)
Ltac zif_true :=
  match goal with |- context [if ?b then _ else _] =>
    replace b with true by (symmetry; lia) end.
Ltac zif_false :=
  match goal with |- context [if ?b then _ else _] =>
    replace b with false by (symmetry; lia) end.

Create HintDb bytes.
Create Rewrite HintDb bytes.

(** ** Lemmas: lengths *)
Section lengths.
Context {A : Type}.
Implicit Types l : list A.

Lemma len_nonneg l : 0 <= len l.
Proof. unfold len; lia. Qed.
Lemma len_nil : len (@nil A) = 0.
Proof. done. Qed.
Lemma len_cons x l : len (x :: l) = 1 + len l.
Proof. unfold len; cbn [length]; lia. Qed.
Lemma len_app l k : len (l ++ k) = len l + len k.
Proof. unfold len; rewrite length_app; lia. Qed.
Lemma len_zrep n (x : A) : 0 <= n -> len (zrep n x) = n.
Proof. unfold len, zrep; rewrite length_replicate; lia. Qed.
Lemma len_ztake n l : 0 <= n <= len l -> len (ztake n l) = n.
Proof. unfold len, ztake; rewrite length_take; lia. Qed.
Lemma len_ztake_le n l : len (ztake n l) <= len l.
Proof. unfold len, ztake; rewrite length_take; lia. Qed.
Lemma len_zdrop n l : 0 <= n <= len l -> len (zdrop n l) = len l - n.
Proof. unfold len, zdrop; rewrite length_drop; lia. Qed.
Lemma len_zsub off n l :
  0 <= off -> 0 <= n -> off + n <= len l -> len (zsub off n l) = n.
Proof. intros. unfold zsub. rewrite len_ztake; rewrite ?len_zdrop; lia. Qed.
Lemma len_0_nil l : len l = 0 -> l = [].
Proof. destruct l; [done|]. rewrite len_cons. pose proof (len_nonneg l). lia. Qed.
Lemma len_fmap {B} (f : A -> B) l : len (f <$> l) = len l.
Proof. unfold len; by rewrite length_fmap. Qed.

Lemma ztake_all n l : len l <= n -> ztake n l = l.
Proof. intros. unfold ztake. apply take_ge. unfold len in *; lia. Qed.
Lemma zdrop_all n l : len l <= n -> zdrop n l = [].
Proof. intros. unfold zdrop. apply drop_ge. unfold len in *; lia. Qed.
Lemma ztake_zdrop n l : ztake n l ++ zdrop n l = l.
Proof. apply take_drop. Qed.
Lemma ztake_app n l k : n = len l -> ztake n (l ++ k) = l.
Proof. intros ->. unfold ztake, len. rewrite Nat2Z.id. by rewrite take_app_length. Qed.
Lemma zdrop_app n l k : n = len l -> zdrop n (l ++ k) = k.
Proof. intros ->. unfold zdrop, len. rewrite Nat2Z.id. by rewrite drop_app_length. Qed.
Lemma zdrop_0 l : zdrop 0 l = l.
Proof. done. Qed.
Lemma ztake_0 l : ztake 0 l = [].
Proof. done. Qed.
Lemma zdrop_zdrop n m l : 0 <= n -> 0 <= m -> zdrop n (zdrop m l) = zdrop (m + n) l.
Proof. intros. unfold zdrop. rewrite drop_drop. f_equal; lia. Qed.
Lemma zdrop_app_le n l k : 0 <= n <= len l -> zdrop n (l ++ k) = zdrop n l ++ k.
Proof. intros. unfold zdrop. apply drop_app_le. unfold len in *; lia. Qed.
Lemma ztake_app_le n l k : 0 <= n <= len l -> ztake n (l ++ k) = ztake n l.
Proof. intros. unfold ztake. apply take_app_le. unfold len in *; lia. Qed.
Lemma zsub_app off n l k : off = len l -> n = len k -> zsub off n (l ++ k) = k.
Proof. intros -> ->. unfold zsub. rewrite zdrop_app by done. apply ztake_all. lia. Qed.
Lemma len_overwrite (src arr : list A) : len src <= len arr -> len (overwrite src arr) = len arr.
Proof. intros H. unfold overwrite. pose proof (len_nonneg src). rewrite len_app, len_zdrop; lia. Qed.
Lemma ztake_overwrite (src arr : list A) : ztake (len src) (overwrite src arr) = src.
Proof. unfold overwrite. by rewrite ztake_app. Qed.
End lengths.

#[export] Hint Rewrite @len_nil @len_cons @len_app @len_fmap : bytes.
#[export] Hint Resolve len_nonneg : bytes.

(** Normalise lengths and close with linear arithmetic. *)
Ltac len_lia :=
  autorewrite with bytes in *;
  repeat match goal with
  | l : list _ |- _ =>
      lazymatch goal with
      | H : 0 <= len l |- _ => fail
      | _ => pose proof (len_nonneg l)
      end
  end; lia.

(** ** Lemmas: wrap-around *)

Lemma u8_small z : is_byte z -> u8 z = z.
Proof. intros. unfold u8. apply Z.mod_small. unfold is_byte in *; lia. Qed.
Lemma u16_small z : 0 <= z < 65536 -> u16 z = z.
Proof. intros. unfold u16. apply Z.mod_small. lia. Qed.
Lemma u32_small z : 0 <= z < 4294967296 -> u32 z = z.
Proof. intros. unfold u32. apply Z.mod_small. lia. Qed.
Lemma u8_byte z : is_byte (u8 z).
Proof. unfold u8, is_byte. apply (Z.mod_pos_bound z (2 ^ 8)). lia. Qed.
#[export] Hint Resolve u8_byte : bytes.

Lemma all_bytes_app a b : all_bytes (a ++ b) <-> all_bytes a /\ all_bytes b.
Proof. apply Forall_app. Qed.
Lemma all_bytes_ztake n l : all_bytes l -> all_bytes (ztake n l).
Proof. apply Forall_take. Qed.
Lemma all_bytes_zdrop n l : all_bytes l -> all_bytes (zdrop n l).
Proof. apply Forall_drop. Qed.
Lemma zat_byte l i : all_bytes l -> is_byte (zat l i).
Proof.
  intros H. unfold zat. destruct (l !! Z.to_nat i) eqn:E; cbn.
  - eapply Forall_lookup_1 in H; eauto.
  - unfold is_byte; lia.
Qed.
#[export] Hint Resolve all_bytes_ztake all_bytes_zdrop zat_byte : bytes.

(** Two disjoint bit fields: [or] is addition. *)
Lemma lor_shiftl_add a b k :
  0 <= k -> 0 <= b < 2 ^ k -> Z.lor (Z.shiftl a k) b = a * 2 ^ k + b.
Proof.
  intros Hk Hb. rewrite Z.shiftl_mul_pow2 by done.
  rewrite Z.add_nocarry_lor; [done|].
  apply Z.bits_inj'. intros n Hn. rewrite Z.land_spec, Z.bits_0.
  destruct (Z.ltb_spec n k).
  - by rewrite Z.mul_pow2_bits_low.
  - replace (Z.testbit b n) with false; [apply andb_false_r|].
    symmetry. destruct (Z.eq_dec b 0) as [->|]; [apply Z.bits_0|].
    apply Z.bits_above_log2; [lia|]. apply Z.log2_lt_pow2; [lia|].
    apply Z.lt_le_trans with (2 ^ k); [lia|]. by apply Z.pow_le_mono_r.
Qed.

Lemma rd16_val a b : is_byte b -> rd16 a b = a * 256 + b.
Proof. intros. unfold rd16. rewrite lor_shiftl_add; unfold is_byte in *; lia. Qed.

Lemma rd32_val a b c d :
  is_byte b -> is_byte c -> is_byte d ->
  rd32 a b c d = ((a * 256 + b) * 256 + c) * 256 + d.
Proof.
  unfold is_byte, rd32. intros Hb Hc Hd.
  rewrite <- !Z.lor_assoc.
  rewrite (lor_shiftl_add c d 8) by lia.
  rewrite (lor_shiftl_add b (c * 2 ^ 8 + d) 16) by lia.
  rewrite (lor_shiftl_add a _ 24) by lia. lia.
Qed.

Lemma rd16_be16 v : is_u16 v -> rd16 (u8 (Z.shiftr v 8)) (u8 v) = v.
Proof.
  intros H. unfold is_u16 in H. rewrite rd16_val by auto with bytes.
  unfold u8. rewrite Z.shiftr_div_pow2 by lia.
  change (2 ^ 8) with 256 in *. change (2 ^ 16) with 65536 in *.
  pose proof (Z.div_mod v 256). rewrite (Z.mod_small (v / 256)).
  - lia.
  - split; [apply Z.div_pos; lia | apply Z.div_lt_upper_bound; lia].
Qed.

Lemma be_digits v :
  0 <= v < 2 ^ 32 ->
  ((v / 16777216 mod 256 * 256 + v / 65536 mod 256) * 256 + v / 256 mod 256) * 256
    + v mod 256 = v.
Proof.
  intros H. change (2 ^ 32) with 4294967296 in H.
  Z.to_euclidean_division_equations. lia.
Qed.

Lemma rd32_be32 v :
  is_u32 v ->
  rd32 (u8 (Z.shiftr v 24)) (u8 (Z.shiftr v 16)) (u8 (Z.shiftr v 8)) (u8 v) = v.
Proof.
  intros H. rewrite rd32_val by auto with bytes.
  unfold u8. rewrite !Z.shiftr_div_pow2 by lia. by apply be_digits.
Qed.

Lemma rd16_u16 a b : is_byte a -> is_byte b -> is_u16 (rd16 a b).
Proof. intros. rewrite rd16_val by done. unfold is_byte, is_u16 in *. lia. Qed.
Lemma rd32_u32 a b c d :
  is_byte a -> is_byte b -> is_byte c -> is_byte d -> is_u32 (rd32 a b c d).
Proof. intros. rewrite rd32_val by done. unfold is_byte, is_u32 in *. lia. Qed.

(** The converse: re-encoding a decoded integer gives the bytes back. *)
Lemma be16_rd16 a b : is_byte a -> is_byte b -> be16 (rd16 a b) = [a; b].
Proof.
  unfold is_byte. intros. unfold be16, u8. rewrite rd16_val by done.
  rewrite !Z.shiftr_div_pow2 by lia. change (2 ^ 8) with 256.
  repeat f_equal; Z.to_euclidean_division_equations; lia.
Qed.
Lemma be32_rd32 a b c d :
  is_byte a -> is_byte b -> is_byte c -> is_byte d ->
  be32 (rd32 a b c d) = [a; b; c; d].
Proof.
  unfold is_byte. intros. unfold be32, u8. rewrite rd32_val by done.
  rewrite !Z.shiftr_div_pow2 by lia.
  change (2 ^ 8) with 256. change (2 ^ 16) with 65536. change (2 ^ 24) with 16777216.
  repeat f_equal; Z.to_euclidean_division_equations; lia.
Qed.

Lemma len_be16 v : len (be16 v) = 2.
Proof. done. Qed.
Lemma len_be32 v : len (be32 v) = 4.
Proof. done. Qed.
#[export] Hint Rewrite len_be16 len_be32 : bytes.

Lemma be16_bytes v : all_bytes (be16 v).
Proof. repeat constructor; apply u8_byte. Qed.
Lemma be32_bytes v : all_bytes (be32 v).
Proof. repeat constructor; apply u8_byte. Qed.
#[export] Hint Resolve be16_bytes be32_bytes : bytes.

Lemma bytes_eqb_eq a b : bytes_eqb a b = true <-> a = b.
Proof. apply bool_decide_eq_true. Qed.
Lemma bytes_eqb_refl a : bytes_eqb a a = true.
Proof. by apply bytes_eqb_eq. Qed.
