(* ===== verification/StateM.v ===== *)
(** * StateM: a small state monad

    Engine code threads one record through many calls.  [M S A] is such a
    computation; [let* x := m in k] is its bind.  [triple] is a Hoare triple
    over it, with the rules the engine proofs use. *)
From S2P Require Import Prelude.

Definition M (S A : Type) : Type := S -> A * S.

Section state.
Context {S : Type}.

Definition pure {A} (a : A) : M S A := fun s => (a, s).
Definition bind {A B} (m : M S A) (k : A -> M S B) : M S B := fun s => let '(a, s) := m s in k a s.
Definition get {A} (f : S -> A) : M S A := fun s => (f s, s).
Definition skip : M S unit := pure tt.
Definition modify (f : S -> S) : M S unit := fun s => (tt, f s).
Definition when (b : bool) (m : M S unit) : M S unit := if b then m else skip.

#[export] Instance M_ret : MRet (M S) := @pure.
#[export] Instance M_bind : MBind (M S) := fun A B k m => bind m k.

(** Run an action over every element of a list, in order. *)
Fixpoint map_m {A B} (f : A -> M S B) (l : list A) : M S (list B) :=
  match l with
  | [] => pure []
  | a :: l => bind (f a) (fun b => bind (map_m f l) (fun bs => pure (b :: bs)))
  end.

(** The same for the effects only. *)
Definition do_each {A B} (f : A -> M S B) (l : list A) : M S unit := bind (map_m f l) (fun _ => pure tt).

(** [P] before, [Q] of the result after. *)
Definition triple {A} (P : S -> Prop) (m : M S A) (Q : A -> S -> Prop) : Prop :=
  forall s, P s -> Q (m s).1 (m s).2.

Lemma triple_pure {A} (P : S -> Prop) (Q : A -> S -> Prop) a : (forall s, P s -> Q a s) -> triple P (pure a) Q.
Proof. intros H s Hs. by apply H. Qed.
Lemma triple_get {A} P (f : S -> A) Q : (forall s, P s -> Q (f s) s) -> triple P (get f) Q.
Proof. intros H s Hs. by apply H. Qed.
Lemma triple_modify P (f : S -> S) Q : (forall s, P s -> Q tt (f s)) -> triple P (modify f) Q.
Proof. intros H s Hs. by apply H. Qed.
Lemma triple_bind {A B} P (m : M S A) (R : A -> S -> Prop) (k : A -> M S B) Q :
  triple P m R -> (forall a, triple (R a) (k a) Q) -> triple P (bind m k) Q.
Proof.
  intros Hm Hk s Hs. unfold bind. specialize (Hm s Hs). destruct (m s) as [a s'].
  by apply Hk.
Qed.
Lemma triple_weaken {A} (P P' : S -> Prop) (m : M S A) (Q Q' : A -> S -> Prop) :
  triple P' m Q' -> (forall s, P s -> P' s) -> (forall a s, Q' a s -> Q a s) -> triple P m Q.
Proof. intros H HP HQ s Hs. by apply HQ, H, HP. Qed.
Lemma triple_when P b (m : M S unit) Q :
  (b = true -> triple P m Q) -> (b = false -> forall s, P s -> Q tt s) -> triple P (when b m) Q.
Proof. intros Ht Hf. destruct b; [by apply Ht|]. intros s Hs. by apply Hf. Qed.

(** An invariant of every element is kept by a map that keeps it. *)
Lemma triple_map_m {A B} (P : S -> Prop) (I : A -> Prop) (J : B -> Prop) (f : A -> M S B) l :
  (forall a, I a -> triple P (f a) (fun b s => J b /\ P s)) -> Forall I l ->
  triple P (map_m f l) (fun bs s => Forall J bs /\ length bs = length l /\ P s).
Proof.
  intros Hf. induction 1 as [|a l Ha _ IH]; cbn [map_m]; [by apply triple_pure|].
  eapply triple_bind; [by apply Hf|]. intros b s [Hb Hs]. revert s Hs. change (triple P (bind (map_m f l)
    (fun bs => pure (b :: bs))) (fun bs s => Forall J bs /\ length bs = length (a :: l) /\ P s)).
  eapply triple_bind; [exact IH|]. intros bs. apply triple_pure. intros s (H1 & H2 & H3).
  split; [by constructor|]. cbn. by rewrite H2.
Qed.

(** ** Invariants *)

(** [m] keeps the invariant [I] of the state and returns a result in [J]. *)
Definition keeps (I : S -> Prop) {A} (J : A -> Prop) (m : M S A) : Prop :=
  triple I m (fun a s => J a /\ I s).

Lemma keeps_pure I {A} (J : A -> Prop) a : J a -> keeps I J (pure a).
Proof. intros H. by apply triple_pure. Qed.
Lemma keeps_bind I {A B} (J : A -> Prop) (K : B -> Prop) (m : M S A) (k : A -> M S B) :
  keeps I J m -> (forall a, J a -> keeps I K (k a)) -> keeps I K (bind m k).
Proof. intros Hm Hk s Hs. unfold bind. destruct (Hm s Hs) as [Ha Hs']. destruct (m s) as [a s']. by apply Hk. Qed.
(** Sequence, the first result unused. *)
Lemma keeps_seq I {A B} (K : B -> Prop) (m : M S A) (k : A -> M S B) :
  keeps I (fun _ => True) m -> (forall a, keeps I K (k a)) -> keeps I K (bind m k).
Proof. intros Hm Hk. apply (keeps_bind I (fun _ => True)); [done|]. intros a _. apply Hk. Qed.
Lemma keeps_get I {A} (J : A -> Prop) (f : S -> A) : (forall s, I s -> J (f s)) -> keeps I J (get f).
Proof. intros H s Hs. split; [by apply H|done]. Qed.
Lemma keeps_modify (I : S -> Prop) (f : S -> S) : (forall s, I s -> I (f s)) -> keeps I (fun _ => True) (modify f).
Proof. intros H s Hs. split; [done|by apply H]. Qed.
Lemma keeps_when I b (m : M S unit) : keeps I (fun _ => True) m -> keeps I (fun _ => True) (when b m).
Proof. intros H. destruct b; [done|by apply keeps_pure]. Qed.
Lemma keeps_impl I {A} (J K : A -> Prop) (m : M S A) : keeps I J m -> (forall a, J a -> K a) -> keeps I K m.
Proof. intros Hm H s Hs. destruct (Hm s Hs). split; [by apply H|done]. Qed.
Lemma keeps_map_m (I : S -> Prop) {A B} (J : A -> Prop) (K : B -> Prop) (f : A -> M S B) l :
  (forall a, J a -> keeps I K (f a)) -> Forall J l ->
  keeps I (fun bs => Forall K bs /\ length bs = length l) (map_m f l).
Proof. intros Hf Hl s Hs. by destruct (triple_map_m I J K f l Hf Hl s Hs) as (? & ? & ?). Qed.
(** An action over slot numbers. *)
Lemma keeps_each (I : S -> Prop) {A B} (f : A -> M S B) l :
  (forall a, keeps I (fun _ => True) (f a)) -> keeps I (fun _ => True) (do_each f l).
Proof.
  intros Hf. apply keeps_seq; [|by intros; apply keeps_pure].
  eapply keeps_impl; [apply (keeps_map_m I (fun _ => True) (fun _ => True))|done]; [by intros|by apply Forall_true].
Qed.
(** Any computation, when nothing is asked of the state. *)
Lemma keeps_any {A} (m : M S A) : keeps (fun _ => True) (fun _ => True) m.
Proof. by intros s _. Qed.

(** The same when the result does not matter; [m ;; k] runs [m] for its
    effects. *)
Definition kept (I : S -> Prop) {A} (m : M S A) : Prop := forall s, I s -> I (m s).2.

Lemma kept_ret I {A} (a : A) : kept I (mret a).
Proof. by intros s. Qed.
Lemma kept_bind I {A B} (m : M S A) (k : A -> M S B) : kept I m -> (forall a, kept I (k a)) -> kept I (bind m k).
Proof. intros Hm Hk s Hs. unfold bind. specialize (Hm s Hs). destruct (m s) as [a s']. by apply Hk. Qed.
Lemma kept_seq I {A B} (m : M S A) (k : M S B) : kept I m -> kept I k -> kept I (m ;; k).
Proof. intros Hm Hk. by apply (kept_bind I m (fun _ => k)). Qed.
Lemma kept_get (I : S -> Prop) {A B} (f : S -> A) (k : A -> M S B) :
  (forall s, I s -> I (k (f s) s).2) -> kept I (bind (get f) k).
Proof. intros Hk s Hs. by apply Hk. Qed.
Lemma kept_modify (I : S -> Prop) f : (forall s, I s -> I (f s)) -> kept I (modify f).
Proof. by intros Hf s Hs; apply Hf. Qed.
Lemma kept_skip I : kept I skip.
Proof. by intros s. Qed.
Lemma kept_when I b m : kept I m -> kept I (when b m).
Proof. intros Hm. destruct b; [done|apply kept_skip]. Qed.
End state.

Create HintDb keeps discriminated.
#[export] Hint Resolve keeps_pure keeps_any keeps_when kept_ret kept_bind kept_seq kept_skip kept_when : keeps.


Notation "'let*' x ':=' m 'in' k" := (bind m (fun x => k))
  (at level 10, x name, k at level 200).
Notation "'do*' m 'in' k" := (bind m (fun _ => k))
  (at level 10, m at level 200, k at level 200).

(** Go through a program to its leaves. *)
Ltac keep_step :=
  match goal with
  | |- kept _ (match ?x with _ => _ end) => destruct x
  | |- kept _ (bind _ _) => apply kept_bind; [|intros ?]
  | |- kept _ (mbind _ _) => apply kept_seq
  | |- kept _ (when _ _) => apply kept_when
  | |- kept _ skip => apply kept_skip
  | |- kept _ (mret _) => apply kept_ret
  | |- kept _ (get _) => by intros ?
  end.
