(* ===== verification/Ring.v ===== *)
(** * Ring: a circular buffer seen as the list of its live entries

    Several components keep a fixed array of [N] slots, the index of the oldest
    entry and a count.  [ring_view] reads the live entries oldest first; the
    lemmas say what writing behind the newest entry and forgetting the oldest
    one do to it. *)
From S2P Require Import Prelude.

(** The last [n] elements. *)
Definition lastn {A} (n : nat) (l : list A) : list A := drop (length l - n) l.

Lemma lastn_length {A} n (l : list A) : (length (lastn n l) <= n)%nat.
Proof. unfold lastn. rewrite length_drop. lia. Qed.

Lemma lastn_sublist {A} n (l : list A) : sublist (lastn n l) l.
Proof. apply sublist_drop. Qed.

Lemma lastn_all {A} n (l : list A) : (length l <= n)%nat -> lastn n l = l.
Proof. intros. unfold lastn. by replace (length l - n)%nat with 0%nat by lia. Qed.

Lemma lastn_app_r {A} n (l k : list A) :
  (n <= length k)%nat -> lastn n (l ++ k) = lastn n k.
Proof.
  intros. unfold lastn. rewrite length_app, drop_app, (drop_ge l) by lia.
  cbn [app]. f_equal. lia.
Qed.

(** Cutting early or late makes no difference. *)
Lemma lastn_app_lastn {A} n (l k : list A) : lastn n (lastn n l ++ k) = lastn n (l ++ k).
Proof.
  destruct (decide (length l <= n)%nat); [by rewrite (lastn_all n l)|].
  rewrite <- (take_drop (length l - n) l) at 2. fold (lastn n l).
  rewrite <- app_assoc, (lastn_app_r n (take _ _)); [done|].
  unfold lastn. rewrite length_app, length_drop. lia.
Qed.

Lemma fmap_lastn {A B} (f : A -> B) n l : f <$> lastn n l = lastn n (f <$> l).
Proof. unfold lastn. by rewrite fmap_drop, length_fmap. Qed.

Section ring.
Context {A : Type} (d : A) (N : nat).
Implicit Types (m : list A) (head count i j : nat).

(** Slot number of the [i]-th live entry, and the entry. *)
Definition ring_idx head i : nat := ((head + i) mod N)%nat.
Definition ring_at m head i : A := default d (m !! ring_idx head i).
Definition ring_view m head count : list A := ring_at m head <$> seq 0 count.

Definition ring_wf m head count : Prop :=
  length m = N /\ (head < N)%nat /\ (count <= N)%nat.

Lemma ring_idx_lt head i : (head < N)%nat -> (ring_idx head i < N)%nat.
Proof. intros. unfold ring_idx. apply Nat.mod_upper_bound. lia. Qed.

Lemma ring_idx_inj head i j :
  (head < N)%nat -> (i < N)%nat -> (j < N)%nat -> ring_idx head i = ring_idx head j -> i = j.
Proof.
  intros Hh Hi Hj. unfold ring_idx.
  assert (Hm : forall k, (k < N)%nat -> ((head + k) mod N =
    if decide (head + k < N) then head + k else head + k - N)%nat).
  { intros k Hk. destruct (decide _); [by apply Nat.mod_small|].
    rewrite <- (Nat.mod_small (head + k - N) N) by lia.
    replace (head + k)%nat with ((head + k - N) + 1 * N)%nat at 1 by lia.
    apply Nat.Div0.mod_add. }
  rewrite !Hm by done. repeat destruct (decide _); lia.
Qed.

Lemma ring_at_insert m head i j x :
  length m = N -> (head < N)%nat -> (i < N)%nat -> (j < N)%nat ->
  ring_at (<[ring_idx head i := x]> m) head j = if decide (i = j) then x else ring_at m head j.
Proof.
  intros Hl Hh Hi Hj. unfold ring_at. destruct (decide (i = j)) as [->|Hne].
  - rewrite list_lookup_insert_eq; [done|]. rewrite Hl. by apply ring_idx_lt.
  - rewrite list_lookup_insert_ne; [done|]. intros H. by apply ring_idx_inj in H.
Qed.

Lemma ring_view_length m head count : length (ring_view m head count) = count.
Proof. unfold ring_view. by rewrite length_fmap, length_seq. Qed.

Lemma ring_view_lookup m head count i :
  (i < count)%nat -> ring_view m head count !! i = Some (ring_at m head i).
Proof. intros. unfold ring_view. rewrite list_lookup_fmap, lookup_seq_lt by done. done. Qed.

(** Two rings with the same live entries have the same view. *)
Lemma ring_view_ext m m' head count :
  (forall i, (i < count)%nat -> ring_at m head i = ring_at m' head i) ->
  ring_view m head count = ring_view m' head count.
Proof.
  intros H. apply list_eq. intros i. destruct (decide (i < count)%nat).
  - rewrite !ring_view_lookup by done. by rewrite H.
  - rewrite !lookup_ge_None_2; rewrite ?ring_view_length; (done || lia).
Qed.

Lemma ring_view_S m head count :
  ring_view m head (S count) = ring_view m head count ++ [ring_at m head count].
Proof. unfold ring_view. by rewrite seq_S, fmap_app. Qed.

(** Writing the slot behind the newest entry appends. *)
Lemma ring_view_push m head count x :
  ring_wf m head count -> (count < N)%nat ->
  ring_view (<[ring_idx head count := x]> m) head (S count) = ring_view m head count ++ [x].
Proof.
  intros (Hl & Hh & _) Hc. rewrite ring_view_S. f_equal.
  - apply ring_view_ext. intros i Hi. rewrite ring_at_insert by lia.
    by rewrite decide_False by lia.
  - f_equal. rewrite ring_at_insert by lia. by rewrite decide_True.
Qed.

(** Forgetting the oldest entry, whatever is then written into its slot. *)
Lemma ring_view_pop m head count x :
  ring_wf m head (S count) ->
  ring_view (<[ring_idx head 0 := x]> m) ((head + 1) mod N) count
    = drop 1 (ring_view m head (S count)).
Proof.
  intros (Hl & Hh & Hc). apply list_eq. intros i. rewrite lookup_drop.
  destruct (decide (i < count)%nat).
  - rewrite !ring_view_lookup by lia. f_equal.
    assert (Hidx : ring_idx ((head + 1) mod N) i = ring_idx head (1 + i)).
    { unfold ring_idx. rewrite Nat.Div0.add_mod_idemp_l. f_equal. lia. }
    transitivity (ring_at (<[ring_idx head 0 := x]> m) head (1 + i)).
    + unfold ring_at. by rewrite Hidx.
    + rewrite ring_at_insert by lia. by rewrite decide_False by lia.
  - rewrite !lookup_ge_None_2; rewrite ?ring_view_length; (done || lia).
Qed.

(** The same when the slot is left alone. *)
Lemma ring_view_drop m head count :
  ring_wf m head (S count) -> ring_view m ((head + 1) mod N) count = drop 1 (ring_view m head (S count)).
Proof.
  intros Hw. rewrite <- (ring_view_pop m head count (ring_at m head 0) Hw).
  f_equal. symmetry. apply list_insert_id. destruct Hw as (Hl & Hh & _). unfold ring_at.
  destruct (m !! ring_idx head 0) eqn:El; [done|].
  apply lookup_ge_None in El. pose proof (ring_idx_lt head 0 Hh). lia.
Qed.
Lemma ring_wf_drop m head count : ring_wf m head (S count) -> ring_wf m ((head + 1) mod N) count.
Proof. intros (Hl & Hh & Hc). split; [done|]. split; [apply Nat.mod_upper_bound|]; lia. Qed.
Lemma ring_wf_push m head count x :
  ring_wf m head count -> (count < N)%nat -> ring_wf (<[ring_idx head count := x]> m) head (S count).
Proof. intros (Hl & Hh & Hc) Hn. split; [by rewrite length_insert|lia]. Qed.
Lemma ring_at_0 m head : (head < N)%nat -> ring_at m head 0 = default d (m !! head).
Proof. intros. unfold ring_at, ring_idx. by rewrite Nat.add_0_r, Nat.mod_small. Qed.

Lemma ring_view_head m head count :
  ring_view m head (S count) = ring_at m head 0 :: drop 1 (ring_view m head (S count)).
Proof. done. Qed.
End ring.
