(* ===== verification/Slots.v ===== *)
(** * Slots: fixed tables of slots

    Tunnels and file transfers live in arrays whose entries carry a used flag.
    Such an array is a list of options; a lookup scans it from the start, an
    allocation takes the first free entry. *)
From S2P Require Import Prelude.

Section slots.
Context {A : Type}.
Implicit Types (l : list (option A)) (p : A -> bool).

(** The first used slot that [p] selects. *)
Fixpoint find_slot p (i : nat) l : option (nat * A) :=
  match l with
  | [] => None
  | Some a :: l => if p a then Some (i, a) else find_slot p (S i) l
  | None :: l => find_slot p (S i) l
  end.
(** The first free slot. *)
Fixpoint free_slot (i : nat) l : option nat :=
  match l with
  | [] => None
  | None :: _ => Some i
  | Some _ :: l => free_slot (S i) l
  end.

Lemma free_slot_spec l : forall k i, free_slot k l = Some i ->
  (k <= i < k + length l)%nat /\ l !! (i - k)%nat = Some None.
Proof.
  induction l as [|[a|] l IH]; intros k i H; cbn in H; [done| |].
  - apply IH in H as [H1 H2]. cbn [length]. split; [lia|].
    by replace (i - k)%nat with (S (i - S k)) by lia.
  - injection H as <-. cbn [length]. split; [lia|]. by rewrite Nat.sub_diag.
Qed.

Lemma find_slot_insert p a l : forall k i,
  find_slot p k l = None -> (i < length l)%nat -> p a = true ->
  find_slot p k (<[i := Some a]> l) = Some ((k + i)%nat, a).
Proof.
  induction l as [|o l IH]; intros k i Hn Hi Hp; cbn in Hi; [lia|].
  destruct i as [|i].
  { cbn. by rewrite Hp, Nat.add_0_r. }
  cbn [list_insert insert find_slot]. cbn in Hn. replace (k + S i)%nat with (S k + i)%nat by lia.
  destruct o as [b|].
  - destruct (p b); [done|]. by apply IH; [|lia|].
  - by apply IH; [|lia|].
Qed.

Lemma find_slot_spec p l : forall k i a, find_slot p k l = Some (i, a) ->
  (k <= i)%nat /\ l !! (i - k)%nat = Some (Some a) /\ p a = true.
Proof.
  induction l as [|[b|] l IH]; intros k i a H; cbn in H; [done| |].
  - destruct (p b) eqn:E; [injection H as <- <-; by rewrite Nat.sub_diag|].
    apply IH in H as (H1 & H2 & H3). split; [lia|]. by replace (i - k)%nat with (S (i - S k)) by lia.
  - apply IH in H as (H1 & H2 & H3). split; [lia|]. by replace (i - k)%nat with (S (i - S k)) by lia.
Qed.
Lemma find_slot_none p l : forall k i a, find_slot p k l = None -> l !! i = Some (Some a) -> p a = false.
Proof.
  induction l as [|[b|] l IH]; intros k i a H Hi; cbn in H; [done| |].
  - destruct (p b) eqn:E; [done|]. destruct i as [|i]; [by injection Hi as <-|]. by eapply IH.
  - destruct i as [|i]; [done|]. by eapply IH.
Qed.
(** A slot that alone is selected is found. *)
Lemma find_slot_unique p l i a : l !! i = Some (Some a) -> p a = true ->
  (forall j b, j <> i -> l !! j = Some (Some b) -> p b = false) -> find_slot p 0 l = Some (i, a).
Proof.
  intros Hi Ha Hother. destruct (find_slot p 0 l) as [[j b]|] eqn:Hf.
  - apply find_slot_spec in Hf as (_ & Hj & Hb). rewrite Nat.sub_0_r in Hj. destruct (decide (j = i)) as [->|Hji].
    + rewrite Hi in Hj. by injection Hj as ->.
    + by rewrite (Hother j b Hji Hj) in Hb.
  - by rewrite (find_slot_none p l 0 i a Hf Hi) in Ha.
Qed.
(** The slot found does not change when it is stored back still selected. *)
Lemma find_slot_update p a b l : forall k i, find_slot p k l = Some ((k + i)%nat, a) -> p b = true ->
  find_slot p k (<[i := Some b]> l) = Some ((k + i)%nat, b).
Proof.
  induction l as [|o l IH]; intros k i H Hb; [done|]. destruct i as [|i].
  - cbn [list_insert insert find_slot]. by rewrite Hb, Nat.add_0_r.
  - cbn [list_insert insert find_slot]. cbn [find_slot] in H. replace (k + S i)%nat with (S k + i)%nat in * by lia.
    destruct o as [c|]; [|by apply IH]. destruct (p c); [injection H as ? _; lia|by apply IH].
Qed.
End slots.
