(* ===== verification/CText.v ===== *)
(** * CText: the C library's text functions the program uses

    Decimal output ([fprintf] with [%u], [%zu], [%llu]), decimal input
    ([sscanf] with the same conversions and [%n]), and C strings inside
    buffers.  [sscanf] is given the bytes from its argument to the end of the
    allocation; needing a byte past them is [Oob]. *)
From S2P Require Import Prelude.

(** ** ASCII *)

Definition ascii_bytes (s : string) : bytes :=
  (fun c => Z.of_N (Ascii.N_of_ascii c)) <$> String.list_ascii_of_string s.

Arguments ascii_bytes _%_string.

Definition isspace (c : Z) : bool := (c =? 32) || ((9 <=? c) && (c <=? 13)).
Definition isdigit (c : Z) : bool := (48 <=? c) && (c <=? 57).

(** ** Decimal output *)

Fixpoint dec_go (fuel : nat) (n : Z) (acc : bytes) : bytes :=
  match fuel with
  | O => acc
  | S fuel =>
      let acc := (48 + n mod 10) :: acc in
      if n <? 10 then acc else dec_go fuel (n / 10) acc
  end.

(** 20 digits hold every 64-bit value. *)
Definition dec (n : Z) : bytes := dec_go 20 n [].

(** ** Decimal input *)

Fixpoint skip_space (l : bytes) : outcome bytes :=
  match l with
  | [] => Oob
  | c :: t => if isspace c then skip_space t else Ok l
  end.

Fixpoint scan_digits (l : bytes) (acc : Z) : outcome (Z * bytes) :=
  match l with
  | [] => Oob
  | c :: t => if isdigit c then scan_digits t (acc * 10 + (c - 48)) else Ok (acc, l)
  end.

(** The sign and digits of one unsigned conversion: [strtoul] saturates at
    2^64 - 1 and a minus sign negates in unsigned arithmetic. *)
Definition scan_number (neg : bool) (l : bytes) : outcome (Z * bytes) :=
  match l with
  | [] => Oob
  | c :: _ =>
      if isdigit c then
        '(v, rest) ← scan_digits l 0;
        let v := Z.min v (2 ^ 64 - 1) in
        Ok (if neg then u64 (- v) else v, rest)
      else Fail
  end.

(** [%u] ([w = 32]), [%zu] and [%llu] ([w = 64]); [Fail] is a matching failure. *)
Definition scan_uint (w : Z) (l : bytes) : outcome (Z * bytes) :=
  l ← skip_space l;
  '(v, rest) ← match l with
    | c :: t => if c =? 45 then scan_number true t
                else if c =? 43 then scan_number false t
                else scan_number false l
    | [] => Oob
    end;
  Ok (v mod 2 ^ w, rest).

(** [sscanf (buf, "%A %B%n", &a, &b, &n) == 2]: the two values and [n]. *)
Definition sscanf2n (wa wb : Z) (l : bytes) : outcome (Z * Z * Z) :=
  '(a, l1) ← scan_uint wa l;
  l2 ← skip_space l1;
  '(b, l3) ← scan_uint wb l2;
  Ok (a, b, len l - len l3).

(** The digits at the head of [l], and [atoi]: glibc's [strtol] saturates at
    64 bits, the result is cut to an [int]. *)
Fixpoint take_digits (l : bytes) (acc : Z) : Z :=
  match l with
  | [] => acc
  | c :: t => if isdigit c then take_digits t (acc * 10 + (c - 48)) else acc
  end.
Fixpoint drop_space (l : bytes) : bytes :=
  match l with
  | [] => []
  | c :: t => if isspace c then drop_space t else l
  end.
Definition i32 (z : Z) : Z := (z + 2 ^ 31) mod 2 ^ 32 - 2 ^ 31.
Definition strtol10 (l : bytes) : Z :=
  match drop_space l with
  | c :: t =>
      if c =? 45 then Z.max (- take_digits t 0) (- 2 ^ 63)
      else Z.min (take_digits (if c =? 43 then t else c :: t) 0) (2 ^ 63 - 1)
  | [] => 0
  end.
Definition atoi (l : bytes) : Z := i32 (strtol10 l).

(** The tokens [strtok_r] finds in a string with the single delimiter [d]. *)
Fixpoint split_on (d : Z) (l : bytes) : list bytes :=
  match l with
  | [] => [[]]
  | c :: t =>
      if c =? d then [] :: split_on d t
      else match split_on d t with
           | tok :: toks => (c :: tok) :: toks
           | [] => [[c]]
           end
  end.
Definition strtok (d : Z) (l : bytes) : list bytes :=
  filter (fun tok => tok <> []) (split_on d l).

(** [strchr]: the text before the first [c] and the text behind it. *)
Fixpoint strchr (c : Z) (l : bytes) : option (bytes * bytes) :=
  match l with
  | [] => None
  | x :: t =>
      if x =? c then Some ([], t)
      else match strchr c t with
           | Some (a, b) => Some (x :: a, b)
           | None => None
           end
  end.

(** ** Comparing *)

(** [strcmp]: only the sign of the result counts. *)
Fixpoint strcmp (a b : bytes) : Z :=
  match a, b with
  | [], [] => 0
  | [], _ => -1
  | _, [] => 1
  | x :: a, y :: b => if x =? y then strcmp a b else x - y
  end.

Fixpoint is_prefix (p l : bytes) : bool :=
  match p, l with
  | [], _ => true
  | x :: p, y :: l => (x =? y) && is_prefix p l
  | _ :: _, [] => false
  end.
(** [strstr (l, p) != NULL] *)
Fixpoint strstr (p l : bytes) : bool :=
  is_prefix p l || match l with [] => false | _ :: l => strstr p l end.

(** ** C strings in buffers *)

(** The bytes before the first NUL, as [strlen] and [%s] see them. *)
Fixpoint cstr (l : bytes) : bytes :=
  match l with
  | [] => []
  | c :: t => if c =? 0 then [] else c :: cstr t
  end.

(** [snprintf (dst, cap, "%s", s)]: the text stored, without its NUL. *)
Definition snprintf_s (cap : Z) (s : bytes) : bytes := ztake (cap - 1) (cstr s).

(** ** Lemmas *)

Lemma dec_go_app fuel n acc : dec_go fuel n acc = dec_go fuel n [] ++ acc.
Proof.
  revert n acc. induction fuel as [|fuel IH]; intros n acc; [done|]. cbn.
  destruct (n <? 10); [done|]. rewrite IH, (IH _ [_]). by rewrite <- app_assoc.
Qed.

Lemma isdigit_dec_digit n : isdigit (48 + n mod 10) = true.
Proof. unfold isdigit. pose proof (Z.mod_pos_bound n 10). lia. Qed.

Lemma dec_go_digits fuel n : Forall (fun c => isdigit c = true) (dec_go fuel n []).
Proof.
  revert n. induction fuel as [|fuel IH]; intros n; cbn; [constructor|].
  destruct (n <? 10); [repeat constructor; apply isdigit_dec_digit|].
  rewrite dec_go_app. apply Forall_app. split; [done|].
  repeat constructor. apply isdigit_dec_digit.
Qed.

Lemma dec_digits n : Forall (fun c => isdigit c = true) (dec n).
Proof. apply dec_go_digits. Qed.

Lemma dec_nonempty n : exists c t, dec n = c :: t /\ isdigit c = true.
Proof.
  pose proof (dec_digits n) as H. destruct (dec n) as [|c t] eqn:E.
  - exfalso. revert E. unfold dec. generalize 19%nat. intros k. cbn [dec_go].
    destruct (n <? 10); [done|]. rewrite dec_go_app. by intros [_ ?]%app_eq_nil.
  - inversion H; eauto.
Qed.

Lemma scan_digits_app ds v c rest :
  Forall (fun c => isdigit c = true) ds -> isdigit c = false ->
  scan_digits (ds ++ c :: rest) v =
    Ok (fold_left (fun a d => a * 10 + (d - 48)) ds v, c :: rest).
Proof.
  intros Hds Hc. revert v. induction Hds as [|d ds Hd _ IH]; intros v; cbn.
  - by rewrite Hc.
  - by rewrite Hd, IH.
Qed.

Lemma dec_go_value fuel n :
  0 <= n < 10 ^ Z.of_nat fuel ->
  fold_left (fun a d => a * 10 + (d - 48)) (dec_go fuel n []) 0 = n.
Proof.
  revert n. induction fuel as [|fuel IH]; intros n Hn.
  - cbn. change (10 ^ Z.of_nat 0) with 1 in Hn. lia.
  - cbn [dec_go]. pose proof (Z.mod_pos_bound n 10 ltac:(lia)).
    destruct (Z.ltb_spec n 10).
    + cbn [fold_left]. rewrite Z.mod_small; lia.
    + rewrite dec_go_app, fold_left_app, IH; cbn [fold_left].
      * pose proof (Z.div_mod n 10). lia.
      * rewrite Nat2Z.inj_succ, Z.pow_succ_r in Hn by lia.
        split; [apply Z.div_pos; lia|apply Z.div_lt_upper_bound; lia].
Qed.

Lemma isdigit_not_space c : isdigit c = true -> isspace c = false.
Proof. unfold isdigit, isspace. intros. bool_to_prop. lia. Qed.

Lemma skip_space_stop c l : isspace c = false -> skip_space (c :: l) = Ok (c :: l).
Proof. intros H. cbn. by rewrite H. Qed.

(** Reading back what was printed. *)
Lemma scan_uint_dec w n c rest :
  0 <= w <= 64 -> 0 <= n < 2 ^ w -> isdigit c = false ->
  scan_uint w (dec n ++ c :: rest) = Ok (n, c :: rest).
Proof.
  intros Hw Hn Hc. unfold scan_uint.
  destruct (dec_nonempty n) as (d & t & E & Hd).
  pose proof (isdigit_not_space _ Hd) as Hs.
  rewrite E. cbn [app]. rewrite skip_space_stop by done. cbn [mbind outcome_bind].
  unfold isdigit in Hd. bool_to_prop.
  rewrite (proj2 (Z.eqb_neq d 45)), (proj2 (Z.eqb_neq d 43)) by lia.
  unfold scan_number. replace (isdigit d) with true by (unfold isdigit; lia).
  assert (n < 2 ^ 64) by (pose proof (Z.pow_le_mono_r 2 w 64); lia).
  change (d :: t ++ c :: rest) with ((d :: t) ++ c :: rest). rewrite <- E.
  rewrite scan_digits_app by (auto using dec_digits). cbn [mbind outcome_bind].
  unfold dec. rewrite dec_go_value by (change (10 ^ Z.of_nat 20) with 100000000000000000000; lia).
  change (2 ^ 64) with 18446744073709551616 in *.
  rewrite Z.min_l by lia. by rewrite Z.mod_small.
Qed.

Lemma scan_uint_dec' w n l :
  0 <= w <= 64 -> 0 <= n < 2 ^ w ->
  (exists c rest, l = c :: rest /\ isdigit c = false) ->
  scan_uint w (dec n ++ l) = Ok (n, l).
Proof. intros ?? (c & rest & -> & ?). by apply scan_uint_dec. Qed.

(** The header line ["<a> <b>" ++ "\n"] every sidecar file uses. *)
Definition print2 (a b : Z) : bytes := dec a ++ [32] ++ dec b ++ [10].

Lemma sscanf2n_print2 wa wb a b rest :
  0 <= wa <= 64 -> 0 <= wb <= 64 -> 0 <= a < 2 ^ wa -> 0 <= b < 2 ^ wb ->
  sscanf2n wa wb (print2 a b ++ rest) = Ok (a, b, len (print2 a b) - 1).
Proof.
  intros. unfold sscanf2n, print2. rewrite <- !app_assoc. cbn [app].
  rewrite scan_uint_dec by done. cbn [mbind outcome_bind].
  destruct (dec_nonempty b) as (d & t & E & Hd).
  pose proof (isdigit_not_space _ Hd) as Hs.
  rewrite E at 1. cbn [app].
  replace (skip_space (32 :: d :: t ++ 10 :: rest)) with (Ok (d :: t ++ 10 :: rest))
    by (cbn; by rewrite Hs).
  cbn [mbind outcome_bind].
  change (d :: t ++ 10 :: rest) with ((d :: t) ++ 10 :: rest). rewrite <- E.
  rewrite scan_uint_dec by done. cbn. do 2 f_equal.
  autorewrite with bytes. lia.
Qed.

Lemma cstr_no_nul l : ~ In 0 l -> cstr l = l.
Proof.
  induction l as [|c l IH]; cbn; [done|]. intros Hn.
  destruct (Z.eqb_spec c 0); [naive_solver|]. rewrite IH; naive_solver.
Qed.

Lemma cstr_len l : len (cstr l) <= len l.
Proof.
  induction l as [|c l IH]; cbn; [done|].
  destruct (c =? 0); autorewrite with bytes; pose proof (len_nonneg l); lia.
Qed.

Lemma cstr_in l : ~ In 0 (cstr l).
Proof.
  induction l as [|c l IH]; cbn; [auto|].
  destruct (Z.eqb_spec c 0); cbn; [auto|]. intros [?|?]; [lia|auto].
Qed.

Lemma len_dec_pos n : 0 < len (dec n).
Proof. destruct (dec_nonempty n) as (c & t & -> & _). autorewrite with bytes. pose proof (len_nonneg t). lia. Qed.

(** ** Cursors: a buffer seen from the offset of a known prefix *)

Lemma zdrop_pre {A} (pre l : list A) k : 0 <= k -> zdrop (len pre + k) (pre ++ l) = zdrop k l.
Proof.
  intros Hk. pose proof (len_nonneg pre). rewrite <- (zdrop_zdrop k (len pre)) by lia.
  by rewrite zdrop_app.
Qed.
Lemma zsub_pre {A} (pre x l : list A) n : n = len x -> zsub (len pre) n (pre ++ x ++ l) = x.
Proof. intros Hn. unfold zsub. rewrite zdrop_app by done. by apply ztake_app. Qed.
Lemma zat_pre pre c l i : i = len pre -> zat (pre ++ c :: l) i = c.
Proof.
  intros ->. unfold zat, len. rewrite Nat2Z.id, lookup_app_r, Nat.sub_diag by lia. done.
Qed.

Lemma print2_snoc a b : print2 a b = (dec a ++ [32] ++ dec b) ++ [10].
Proof. unfold print2. by rewrite <- !app_assoc. Qed.
Lemma len_print2 a b : 4 <= len (print2 a b).
Proof.
  unfold print2. pose proof (len_dec_pos a). pose proof (len_dec_pos b).
  rewrite !len_app. change (len [32]) with 1. change (len [10]) with 1. lia.
Qed.

(** The header line at the cursor is read, and a newline ends it. *)
Lemma header_at wa wb a b pre rest :
  0 <= wa <= 64 -> 0 <= wb <= 64 -> 0 <= a < 2 ^ wa -> 0 <= b < 2 ^ wb ->
  let buf := pre ++ print2 a b ++ rest in
  let n := len (print2 a b) - 1 in
  sscanf2n wa wb (zdrop (len pre) buf) = Ok (a, b, n) /\ zat buf (len pre + n) = 10.
Proof.
  intros Hwa Hwb Ha Hb buf n. split.
  - unfold buf. rewrite zdrop_app by done. by apply sscanf2n_print2.
  - unfold buf, n. rewrite print2_snoc. set (h := dec a ++ _).
    rewrite <- app_assoc, app_assoc. cbn [app]. apply zat_pre. rewrite !len_app.
    change (len [10]) with 1. lia.
Qed.

(** ** Decimal text read back *)

Lemma take_digits_app ds rest v :
  Forall (fun c => isdigit c = true) ds -> (forall c t, rest = c :: t -> isdigit c = false) ->
  take_digits (ds ++ rest) v = fold_left (fun a d => a * 10 + (d - 48)) ds v.
Proof.
  intros Hds Hr. revert v. induction Hds as [|d ds Hd _ IH]; intros v; cbn.
  - destruct rest as [|c t]; [done|]. cbn. by rewrite (Hr c t eq_refl).
  - by rewrite Hd, IH.
Qed.

Lemma atoi_dec n : 0 <= n < 2 ^ 31 -> atoi (dec n) = n.
Proof.
  intros Hn. unfold atoi, strtol10. destruct (dec_nonempty n) as (c & t & E & Hc).
  pose proof (dec_digits n) as Hd. rewrite E in Hd |- *. cbn [drop_space].
  rewrite (isdigit_not_space c Hc). pose proof Hc as Hc'. unfold isdigit in Hc'. bool_to_prop.
  replace (c =? 45) with false by lia. replace (c =? 43) with false by lia.
  rewrite <- (app_nil_r (c :: t)), take_digits_app by done. rewrite <- E.
  unfold dec. rewrite dec_go_value by (change (10 ^ Z.of_nat 20) with 100000000000000000000; lia).
  rewrite Z.min_l by lia. unfold i32. rewrite Z.mod_small; lia.
Qed.

Lemma dec_no_char n c : isdigit c = false -> ~ In c (dec n).
Proof.
  intros Hc Hin. pose proof (dec_digits n) as H. rewrite Forall_forall in H.
  apply list_elem_of_In in Hin. rewrite (H c Hin) in Hc. done.
Qed.

Lemma strchr_none c l : ~ In c l -> strchr c l = None.
Proof.
  induction l as [|x l IH]; cbn; [done|]. intros H. destruct (Z.eqb_spec x c); [naive_solver|].
  rewrite IH by naive_solver. done.
Qed.
Lemma strchr_app c a b : ~ In c a -> strchr c (a ++ c :: b) = Some (a, b).
Proof.
  induction a as [|x a IH]; cbn; [by rewrite Z.eqb_refl|]. intros H.
  destruct (Z.eqb_spec x c); [naive_solver|]. rewrite IH by naive_solver. done.
Qed.

Lemma dec_go_length fuel : forall n k,
  (0 < k)%nat -> 0 <= n < 10 ^ Z.of_nat k -> (length (dec_go fuel n []) <= k)%nat.
Proof.
  induction fuel as [|fuel IH]; intros n k Hk Hn; cbn [dec_go]; [cbn; lia|].
  destruct (Z.ltb_spec n 10); [cbn; lia|].
  destruct k as [|[|k]]; [lia|change (10 ^ Z.of_nat 1) with 10 in Hn; lia|].
  rewrite dec_go_app, length_app. cbn [length].
  assert (length (dec_go fuel (n / 10) []) <= S k)%nat; [|lia]. apply IH; [lia|].
  rewrite Nat2Z.inj_succ, Z.pow_succ_r in Hn by lia.
  split; [apply Z.div_pos; lia|apply Z.div_lt_upper_bound; lia].
Qed.
Lemma len_dec n : 0 <= n < 10 ^ 20 -> len (dec n) <= 20.
Proof. intros Hn. pose proof (dec_go_length 20 n 20 ltac:(lia)) as H. unfold len, dec. specialize (H Hn). lia. Qed.
(** The digits of a number, with something else behind them. *)
Lemma take_digits_dec n rest :
  0 <= n < 10 ^ 20 -> (forall c t, rest = c :: t -> isdigit c = false) -> take_digits (dec n ++ rest) 0 = n.
Proof.
  intros Hn Hr. rewrite take_digits_app by (done || apply dec_digits). unfold dec.
  by apply dec_go_value.
Qed.
