(* ===== verification/EventQueue.v ===== *)
(** * EventQueue: the two queues between the tox thread and the UI ([tox_thread.c])

    [TTQueue] is a ring of 256 event pointers under a mutex, with one condition
    variable for both directions.  What a call does between taking and
    releasing the lock (or waiting) is one step; the threads that call and wait
    are explicit, so that blocking and wake-ups can be reasoned about. *)
From S2P Require Import Prelude Ring CText.

Definition TT_QUEUE_CAP : nat := 256.

(** ** Events *)

Section event.
Context {T : Type}.

(** [TTEvent]; [ev_str] is the text without its NUL, [None] the NULL pointer. *)
Record TTEvent := mkEvent {
  ev_type : T; friend_number : Z; ev_str : option bytes; str_len : Z; ival : Z; ival2 : Z }.

Definition tt_event_new (ty : T) : TTEvent := mkEvent ty 0 None 0 0 0.

(** The event [push_simple] and [group_push] queue: [s] is a pointer and a length. *)
Definition simple_event (ty : T) (fn : Z) (s : option bytes) (iv iv2 : Z) : TTEvent :=
  match s with
  | Some (c :: t) => mkEvent ty fn (Some (c :: t)) (len (c :: t)) iv iv2
  | _ => mkEvent ty fn None 0 iv iv2
  end.
Definition push_simple (ty : T) (fn : Z) (s : option bytes) (iv : Z) : TTEvent := simple_event ty fn s iv 0.

(** The event [tt_queue_post2] queues: [str] is a C string. *)
Definition tt_queue_post2 (ty : T) (fn : Z) (str : option bytes) (iv iv2 : Z) : TTEvent :=
  match str with
  | Some b => mkEvent ty fn (Some (cstr b)) (len (cstr b)) iv iv2
  | None => mkEvent ty fn None 0 iv iv2
  end.
Definition tt_queue_post (ty : T) (fn : Z) (str : option bytes) (iv : Z) : TTEvent := tt_queue_post2 ty fn str iv 0.
End event.
Arguments TTEvent : clear implicits.

(** ** The ring *)

Section queue.
Context {A : Type}.

(** [items] are pointers, [None] is NULL. *)
Record TTQueue := mkQueue { items : list (option A); q_head : nat; q_count : nat }.

Definition tt_queue_init : TTQueue := mkQueue (replicate TT_QUEUE_CAP None) 0 0.

(** The body of [tt_queue_push] under the lock; [None]: full, it waits. *)
Definition queue_put (ev : A) (q : TTQueue) : option TTQueue :=
  if (q_count q =? TT_QUEUE_CAP)%nat then None
  else Some (mkQueue (<[((q_head q + q_count q) mod TT_QUEUE_CAP)%nat := Some ev]> (items q)) (q_head q) (S (q_count q))).
(** The body of [tt_queue_pop]; [None]: empty, it waits. *)
Definition queue_take (q : TTQueue) : option (option A * TTQueue) :=
  match q_count q with
  | O => None
  | S n => Some (default None (items q !! q_head q),
                 mkQueue (items q) ((q_head q + 1) mod TT_QUEUE_CAP)%nat n)
  end.

Definition queue_wf (q : TTQueue) : Prop := ring_wf TT_QUEUE_CAP (items q) (q_head q) (q_count q).
(** What is queued, oldest first. *)
Definition queued (q : TTQueue) : list (option A) := ring_view None TT_QUEUE_CAP (items q) (q_head q) (q_count q).

Lemma queue_wf_init : queue_wf tt_queue_init.
Proof. split; [apply length_replicate|cbn; unfold TT_QUEUE_CAP; lia]. Qed.

Lemma queue_put_spec ev q q' : queue_wf q -> queue_put ev q = Some q' ->
  queue_wf q' /\ queued q' = queued q ++ [Some ev] /\ q_count q' = S (q_count q).
Proof.
  intros Hq. pose proof Hq as (_ & _ & Hc). unfold queue_put. case_match eqn:E; [done|]. intros [= <-].
  apply Nat.eqb_neq in E. split_conj; [| |done].
  - apply (ring_wf_push TT_QUEUE_CAP); [done|lia].
  - apply (ring_view_push None TT_QUEUE_CAP); [done|lia].
Qed.

Lemma queue_take_spec q e q' : queue_wf q -> queue_take q = Some (e, q') ->
  queue_wf q' /\ queued q = e :: queued q' /\ q_count q = S (q_count q').
Proof.
  unfold queue_wf, queued, queue_take. destruct (q_count q) as [|n]; [done|].
  intros Hq H. apply (inj Some), pair_eq in H as [<- <-]. cbn [items q_head q_count]. split_conj; [exact (ring_wf_drop TT_QUEUE_CAP _ _ _ Hq)| |done].
  rewrite ring_view_drop, ring_view_head, ring_at_0 by (apply Hq || done). done.
Qed.

Lemma queue_put_full ev q : queue_put ev q = None <-> q_count q = TT_QUEUE_CAP.
Proof. unfold queue_put. case_match eqn:E; [apply Nat.eqb_eq in E|apply Nat.eqb_neq in E]; naive_solver. Qed.
Lemma queue_take_empty q : queue_take q = None <-> q_count q = 0%nat.
Proof. unfold queue_take. destruct (q_count q); naive_solver. Qed.

(** ** Threads

    [Ready c]: in the call [c], about to take the lock (just called, or woken);
    [Wait c]: in [pthread_cond_wait]; [Expired]: its timed wait ran out. *)
Inductive qcall := CPush (ev : A) | CPop | CPopTimed.
Inductive pc := Idle | Ready (c : qcall) | Wait (c : qcall) | Expired.

Record qsys := mkQsys { queue : TTQueue; threads : list pc }.

(** What a step shows: an event taken in, handed out, or a pop that gave up. *)
Inductive qlabel := LTau | LPush (tid : nat) (ev : A) | LPop (tid : nat) (e : option A) | LNull (tid : nat).

(** [pthread_cond_signal]: wakes one waiting thread if there is one. *)
Inductive cond_signal : list pc -> list pc -> Prop :=
| signal_none ts : (forall tid c, ts !! tid <> Some (Wait c)) -> cond_signal ts ts
| signal_one ts tid c : ts !! tid = Some (Wait c) -> cond_signal ts (<[tid := Ready c]> ts).

Definition is_pop (c : qcall) : bool := match c with CPush _ => false | _ => true end.

(** [may tid c]: thread [tid] makes calls like [c]. *)
Inductive qstep (may : nat -> qcall -> Prop) : qsys -> qlabel -> qsys -> Prop :=
| step_call q ts tid c : ts !! tid = Some Idle -> may tid c ->
    qstep may (mkQsys q ts) LTau (mkQsys q (<[tid := Ready c]> ts))
| step_push q ts tid ev q' ts' : ts !! tid = Some (Ready (CPush ev)) -> queue_put ev q = Some q' ->
    cond_signal (<[tid := Idle]> ts) ts' -> qstep may (mkQsys q ts) (LPush tid ev) (mkQsys q' ts')
| step_full q ts tid ev : ts !! tid = Some (Ready (CPush ev)) -> queue_put ev q = None ->
    qstep may (mkQsys q ts) LTau (mkQsys q (<[tid := Wait (CPush ev)]> ts))
| step_pop q ts tid c e q' ts' : ts !! tid = Some (Ready c) \/ ts !! tid = Some Expired /\ c = CPopTimed ->
    is_pop c = true -> queue_take q = Some (e, q') ->
    cond_signal (<[tid := Idle]> ts) ts' -> qstep may (mkQsys q ts) (LPop tid e) (mkQsys q' ts')
| step_empty q ts tid c : ts !! tid = Some (Ready c) -> is_pop c = true -> queue_take q = None ->
    qstep may (mkQsys q ts) LTau (mkQsys q (<[tid := Wait c]> ts))
| step_null q ts tid : ts !! tid = Some Expired -> queue_take q = None ->
    qstep may (mkQsys q ts) (LNull tid) (mkQsys q (<[tid := Idle]> ts))
| step_timeout q ts tid : ts !! tid = Some (Wait CPopTimed) ->
    qstep may (mkQsys q ts) LTau (mkQsys q (<[tid := Expired]> ts))
| step_spurious q ts tid c : ts !! tid = Some (Wait c) ->
    qstep may (mkQsys q ts) LTau (mkQsys q (<[tid := Ready c]> ts)).

Inductive qsteps (may : nat -> qcall -> Prop) : qsys -> list qlabel -> qsys -> Prop :=
| qsteps_nil s : qsteps may s [] s
| qsteps_snoc s tr s' l s'' : qsteps may s tr s' -> qstep may s' l s'' -> qsteps may s (tr ++ [l]) s''.

Definition qsys_init (n : nat) : qsys := mkQsys tt_queue_init (replicate n Idle).

Definition taken_in (l : qlabel) : option (option A) := match l with LPush _ ev => Some (Some ev) | _ => None end.
Definition handed_out (l : qlabel) : option (option A) := match l with LPop _ e => Some e | _ => None end.
End queue.
Arguments TTQueue : clear implicits.
Arguments qcall : clear implicits.
Arguments pc : clear implicits.
Arguments qsys : clear implicits.
Arguments qlabel : clear implicits.
