(* ===== verification/EventQueueSafety.v ===== *)
(** * EventQueueSafety: delivery, wake-ups and mutual blocking

    Events come out in the order they went in, each once.  With one producer
    and at most as many consumers as the ring has slots no wake-up is lost,
    although both sides wait on one condition variable.  The two queues
    together can block for ever. *)
From stdpp Require Import relations.
From S2P Require Import Prelude Ring CText EventQueue.

(** ** Counting threads *)

Section count.
Context {B : Type} (f : B -> bool).

Definition count_if (l : list B) : nat := length (filter (fun x => f x = true) l).

Lemma count_if_app l k : count_if (l ++ k) = (count_if l + count_if k)%nat.
Proof. unfold count_if. by rewrite filter_app, length_app. Qed.
Lemma count_if_cons x l : count_if (x :: l) = ((if f x then 1 else 0) + count_if l)%nat.
Proof. unfold count_if. rewrite filter_cons. destruct (f x); by case_decide. Qed.
Lemma count_if_insert l i a b : l !! i = Some a ->
  (count_if (<[i := b]> l) + (if f a then 1 else 0) = count_if l + (if f b then 1 else 0))%nat.
Proof.
  intros H. rewrite insert_take_drop by (by eapply lookup_lt_Some).
  rewrite <- (take_drop_middle l i a H) at 3. rewrite !count_if_app, !count_if_cons. lia.
Qed.
Lemma count_if_pos l i a : l !! i = Some a -> f a = true -> (0 < count_if l)%nat.
Proof. intros H Ha. pose proof (count_if_insert l i a a H) as E. rewrite <- (take_drop_middle l i a H), count_if_app, count_if_cons, Ha. lia. Qed.
Lemma count_if_ex l : (0 < count_if l)%nat -> exists i a, l !! i = Some a /\ f a = true.
Proof.
  induction l as [|x l IH]; [cbn; lia|]. rewrite count_if_cons. destruct (f x) eqn:E; [by exists 0%nat, x|].
  intros H. destruct (IH H) as (i & a & Hi & Ha). by exists (S i), a.
Qed.
End count.

Section threads.
Context {A : Type}.
Implicit Types (s : qsys A) (q : TTQueue A) (ts : list (pc A)) (tr : list (qlabel A)).

(** ** Delivery *)

Definition delivery tr s : Prop :=
  queue_wf (queue s) /\ omap taken_in tr = omap handed_out tr ++ queued (queue s).

Lemma delivery_step may tr s l s' : delivery tr s -> qstep may s l s' -> delivery (tr ++ [l]) s'.
Proof.
  intros [Hq Hd] H. unfold delivery. rewrite !omap_app. destruct H; cbn in *; rewrite ?app_nil_r; try done.
  - destruct (queue_put_spec _ _ _ Hq H0) as (Hq' & -> & _). split; [done|]. by rewrite Hd, <- app_assoc.
  - destruct (queue_take_spec _ _ _ Hq H1) as (Hq' & E & _). split; [done|]. rewrite Hd, E, <- app_assoc. done.
Qed.

Lemma delivery_steps may n tr s : qsteps may (qsys_init n) tr s -> delivery tr s.
Proof.
  intros H. remember (qsys_init n) as s0 eqn:E0. induction H as [s|s tr s' l s'' H IH Hs]; subst.
  - split; [apply queue_wf_init|done].
  - eapply delivery_step; [by apply IH|done].
Qed.

(** C23: Whatever threads push and pop in whatever interleaving, with timeouts and
    spurious wake-ups, the events handed out are exactly a prefix of the events
    taken in, in order and each once; the rest is queued, at most 256. *)
Theorem events_delivered_in_order may n tr s :
  qsteps may (qsys_init n) tr s ->
  exists rest, omap taken_in tr = omap handed_out tr ++ rest /\ (length rest <= TT_QUEUE_CAP)%nat.
Proof.
  intros H. destruct (delivery_steps _ _ _ _ H) as [(_ & _ & Hc) Hd].
  exists (queued (queue s)). split; [done|]. unfold queued. by rewrite ring_view_length.
Qed.

(** ** Wake-ups *)

(** Thread 0 pushes, every other thread pops. *)
Definition one_producer (tid : nat) (c : qcall A) : Prop := is_pop c = negb (tid =? 0)%nat.

Definition waits_pop (p : pc A) : bool := match p with Wait c => is_pop c | _ => false end.
Definition woken_pop (p : pc A) : bool := match p with Ready c => is_pop c | _ => false end.
Definition waits_push (p : pc A) : bool := match p with Wait c => negb (is_pop c) | _ => false end.
(** Each thread is in a call of its own kind. *)
Definition role_ok (tid : nat) (p : pc A) : Prop :=
  match p with Idle => True | Ready c | Wait c => one_producer tid c | Expired => tid <> 0%nat end.

(** How replacing one thread's state moves the three counts. *)
Definition moved ts ts' (a b : pc A) : Prop :=
  (count_if waits_pop ts' + Nat.b2n (waits_pop a) = count_if waits_pop ts + Nat.b2n (waits_pop b))%nat /\
  (count_if woken_pop ts' + Nat.b2n (woken_pop a) = count_if woken_pop ts + Nat.b2n (woken_pop b))%nat /\
  (count_if waits_push ts' + Nat.b2n (waits_push a) = count_if waits_push ts + Nat.b2n (waits_push b))%nat.
Lemma moved_insert ts tid a b : ts !! tid = Some a -> moved ts (<[tid := b]> ts) a b.
Proof. intros H. unfold moved. split_conj; by apply count_if_insert. Qed.

Definition roles n ts : Prop := length ts = S n /\ forall tid p, ts !! tid = Some p -> role_ok tid p.
Lemma roles_insert n ts tid b : roles n ts -> role_ok tid b -> roles n (<[tid := b]> ts).
Proof.
  intros [Hl Hr] Hb. split; [by rewrite length_insert|]. intros i p.
  rewrite list_lookup_insert_Some. intros [(-> & -> & _)|[_ H]]; [done|by apply Hr].
Qed.

(** At most [n] threads pop. *)
Lemma pops_bounded n ts : roles n ts -> (count_if waits_pop ts + count_if woken_pop ts <= n)%nat.
Proof.
  intros [Hl Hr]. destruct ts as [|p ts]; [done|]. injection Hl as <-.
  assert (H0 : waits_pop p = false /\ woken_pop p = false).
  { specialize (Hr 0%nat p eq_refl). unfold role_ok, one_producer in Hr. destruct p; cbn in *; by rewrite ?Hr. }
  destruct H0 as [H1 H2]. rewrite !count_if_cons, H1, H2. clear. cbn.
  induction ts as [|p ts IH]; [done|]. rewrite !count_if_cons. cbn [length].
  destruct p as [|c|c|]; cbn; try lia; destruct (is_pop c); lia.
Qed.

(** Only thread 0 pushes. *)
Lemma pushes_bounded n ts : roles n ts -> (count_if waits_push ts <= 1)%nat.
Proof.
  intros [Hl Hr]. destruct ts as [|p ts]; [done|]. rewrite count_if_cons.
  assert (count_if waits_push ts = 0%nat).
  { apply Nat.le_0_r, Nat.nlt_ge. intros (i & a & Hi & Ha)%count_if_ex. specialize (Hr (S i) a Hi).
    destruct a as [|c|c|]; try done. unfold role_ok, one_producer in Hr. cbn in Hr, Ha. by rewrite Hr in Ha. }
  destruct (waits_push p); lia.
Qed.

(** What [pthread_cond_signal] does to the counts. *)
Lemma signal_counts n ts ts' : roles n ts -> cond_signal ts ts' ->
  roles n ts' /\
  ((ts' = ts /\ count_if waits_pop ts = 0 /\ count_if waits_push ts = 0)%nat \/
   (S (count_if waits_pop ts') = count_if waits_pop ts /\ count_if woken_pop ts' = S (count_if woken_pop ts) /\
    count_if waits_push ts' = count_if waits_push ts)%nat \/
   (count_if waits_pop ts' = count_if waits_pop ts /\ count_if woken_pop ts' = count_if woken_pop ts /\
    S (count_if waits_push ts') = count_if waits_push ts)%nat).
Proof.
  intros Hr Hs. destruct Hs as [ts Hn|ts tid c Hc].
  - split; [done|]. left. split; [done|].
    split; apply Nat.le_0_r, Nat.nlt_ge; intros (i & p & Hi & Hp)%count_if_ex; destruct p as [|c|c|]; try done; by eapply Hn.
  - pose proof (proj2 Hr tid _ Hc) as Hro. split; [by apply roles_insert|]. right.
    destruct (moved_insert ts tid _ (Ready c) Hc) as (H1 & H2 & H3). cbn in *.
    destruct (is_pop c); cbn in *; [left|right]; lia.
Qed.

(** An event that is queued while a consumer waits has a woken consumer to take
    it, and the producer waits only at a full queue. *)
Definition wake_ok q ts : Prop :=
  ((0 < count_if waits_pop ts)%nat -> (q_count q <= count_if woken_pop ts)%nat) /\
  ((0 < count_if waits_push ts)%nat -> q_count q = TT_QUEUE_CAP).
Definition wake_inv (n : nat) s : Prop := queue_wf (queue s) /\ roles n (threads s) /\ wake_ok (queue s) (threads s).

Lemma role_of n ts tid p : roles n ts -> ts !! tid = Some p -> role_ok tid p.
Proof. intros [_ H]. apply H. Qed.

Lemma wake_step n s l s' : (n <= TT_QUEUE_CAP)%nat -> wake_inv n s -> qstep one_producer s l s' -> wake_inv n s'.
Proof.
  intros Hn (Hq & Hr & Hw1 & Hw2) H. pose proof Hq as (_ & _ & Hcap).
  destruct H as [q ts tid c Hc Hmay|q ts tid ev q' ts' Hc Hput Hsig|q ts tid ev Hc Hput|q ts tid c e q' ts' Hc Hp Htake Hsig
    |q ts tid c Hc Hp Htake|q ts tid Hc Htake|q ts tid Hc|q ts tid c Hc]; cbn [queue threads] in *.
  - split; [done|]. split; [by apply roles_insert|].
    destruct (moved_insert ts tid _ (Ready c) Hc) as (H1 & H2 & H3). cbn in *. split; cbn [queue threads]; lia.
  - destruct (queue_put_spec _ _ _ Hq Hput) as (Hq' & _ & Hn'). split; [done|].
    pose proof (role_of _ _ _ _ Hr Hc) as Hro. cbn in Hro.
    destruct (moved_insert ts tid _ Idle Hc) as (H1 & H2 & H3). cbn in H1, H2, H3.
    assert (Hfull : q_count q <> TT_QUEUE_CAP) by (intros E; apply (queue_put_full ev) in E; congruence).
    apply (signal_counts n) in Hsig as [Hr' Hs]; [|by apply roles_insert]. split; [done|].
    destruct Hs as [(-> & Hs1 & Hs2)|[Hs|Hs]]; split; cbn [queue threads]; lia.
  - apply queue_put_full in Hput. split; [done|].
    split; [apply roles_insert; [done|exact (role_of _ _ _ _ Hr Hc)]|].
    destruct (moved_insert ts tid _ (Wait (CPush ev)) Hc) as (H1 & H2 & H3). cbn in *. split; cbn [queue threads]; lia.
  - destruct (queue_take_spec _ _ _ Hq Htake) as (Hq' & _ & Hn'). split; [done|].
    pose proof (pops_bounded n ts Hr) as Hb. pose proof (pushes_bounded n ts Hr) as Hb'.
    assert (exists a, ts !! tid = Some a /\ waits_pop a = false /\ waits_push a = false) as (a & Ha & Ha1 & Ha2).
    { destruct Hc as [Hc|[Hc _]]; by eexists. }
    destruct (moved_insert ts tid a Idle Ha) as (H1 & H2 & H3). rewrite Ha1 in H1. rewrite Ha2 in H3. cbn in H1, H2, H3.
    assert (Nat.b2n (woken_pop a) <= 1)%nat by (destruct (woken_pop a); cbn; lia).
    apply (signal_counts n) in Hsig as [Hr' Hs]; [|by apply roles_insert]. split; [done|].
    destruct Hs as [(-> & Hs1 & Hs2)|[Hs|Hs]]; split; cbn [queue threads]; lia.
  - apply queue_take_empty in Htake. split; [done|].
    split; [apply roles_insert; [done|exact (role_of _ _ _ _ Hr Hc)]|].
    destruct (moved_insert ts tid _ (Wait c) Hc) as (H1 & H2 & H3). cbn in *. rewrite Hp in *. cbn in *. split; cbn [queue threads]; lia.
  - split; [done|]. split; [by apply roles_insert|].
    destruct (moved_insert ts tid _ Idle Hc) as (H1 & H2 & H3). cbn in *. split; cbn [queue threads]; lia.
  - split; [done|]. split.
    { apply roles_insert; [done|]. pose proof (role_of _ _ _ _ Hr Hc) as Hro. cbn in *. unfold one_producer in Hro. cbn in Hro.
      intros ->. done. }
    destruct (moved_insert ts tid _ Expired Hc) as (H1 & H2 & H3). cbn in *. split; cbn [queue threads]; lia.
  - split; [done|]. split; [apply roles_insert; [done|exact (role_of _ _ _ _ Hr Hc)]|].
    destruct (moved_insert ts tid _ (Ready c) Hc) as (H1 & H2 & H3). cbn in *. destruct (is_pop c); cbn in *; split; cbn [queue threads]; lia.
Qed.

Lemma count_if_replicate (f : pc A -> bool) n : f Idle = false -> count_if f (replicate n Idle) = 0%nat.
Proof. intros H. induction n as [|n IH]; [done|]. cbn [replicate]. by rewrite count_if_cons, H, IH. Qed.
Lemma wake_init n : wake_inv n (qsys_init (S n)).
Proof.
  split; [apply queue_wf_init|]. split.
  - split; [apply length_replicate|]. intros i p H. cbn [qsys_init threads] in H. by apply lookup_replicate in H as [-> _].
  - split; cbn [qsys_init threads]; rewrite count_if_replicate by done; lia.
Qed.

(** C24: One producer and at most 256 consumers never lose a wake-up: a consumer
    sleeps beside a queued event only if as many consumers as there are events
    have already been woken, and the producer sleeps only at a full queue. *)
Theorem no_lost_wakeup n tr s tid c :
  (n <= TT_QUEUE_CAP)%nat -> qsteps one_producer (qsys_init (S n)) tr s ->
  threads s !! tid = Some (Wait c) ->
  if is_pop c then (q_count (queue s) <= count_if woken_pop (threads s))%nat
  else q_count (queue s) = TT_QUEUE_CAP.
Proof.
  intros Hn H Ht. remember (qsys_init (S n)) as s0 eqn:E0.
  assert (Hw : wake_inv n s).
  { clear Ht. induction H as [s|s tr s' l s'' H IH Hs]; subst; [apply wake_init|].
    eapply wake_step; [done|by apply IH|done]. }
  destruct Hw as (_ & _ & H1 & H2).
  destruct (is_pop c) eqn:E; [apply H1|apply H2]; apply (count_if_pos _ _ tid _ Ht); cbn; by rewrite E.
Qed.
End threads.

(** ** Mutual blocking

    The tox thread pushes [b_left] events without looking at its commands
    ([emit_initial_group_list], one [tox_iterate]); for each event the UI thread
    takes it posts one command ([TT_EV_GROUP_JOINED] posts [TT_CMD_GROUP_SYNC]). *)
Section burst.
Context {A C : Type} (ev : A) (cmd : C).

Record burst := mkBurst { b_left : nat; b_out : TTQueue A; b_posting : bool; b_in : TTQueue C }.

Inductive burst_step : burst -> burst -> Prop :=
| burst_push n o o' p i : queue_put ev o = Some o' -> burst_step (mkBurst (S n) o p i) (mkBurst n o' p i)
| burst_pop n o e o' i : queue_take o = Some (e, o') -> burst_step (mkBurst n o false i) (mkBurst n o' true i)
| burst_post n o i i' : queue_put cmd i = Some i' -> burst_step (mkBurst n o true i) (mkBurst n o false i').

Definition burst_start (k : nat) : burst := mkBurst k tt_queue_init false tt_queue_init.
(** Both threads wait, or have nothing left to do. *)
Definition blocked (s : burst) : Prop := forall s', ~ burst_step s s'.

(** The UI first: one step, if any thread can take one. *)
Definition burst_next (s : burst) : option burst :=
  let '(mkBurst n o p i) := s in
  match (if p then (fun i' => mkBurst n o false i') <$> queue_put cmd i
         else (fun r => mkBurst n r.2 true i) <$> queue_take o), n with
  | Some s', _ => Some s'
  | None, S n => (fun o' => mkBurst n o' p i) <$> queue_put ev o
  | None, O => None
  end.
Fixpoint burst_run (fuel : nat) (s : burst) : nat * burst :=
  match fuel, burst_next s with
  | S fuel, Some s' => let '(n, r) := burst_run fuel s' in (S n, r)
  | _, _ => (0%nat, s)
  end.
Lemma burst_next_step s s' : burst_next s = Some s' -> burst_step s s'.
Proof.
  destruct s as [n o p i]. cbn -[queue_put queue_take]. destruct p.
  - destruct (queue_put cmd i) eqn:E; cbn; [intros [= <-]; by constructor|].
    destruct n; [done|]. destruct (queue_put ev o) eqn:E'; [|done]. intros [= <-]. by constructor.
  - destruct (queue_take o) as [[e o']|] eqn:E; cbn; [intros [= <-]; by econstructor|].
    destruct n; [done|]. destruct (queue_put ev o) eqn:E'; [|done]. intros [= <-]. by constructor.
Qed.
Lemma burst_next_none s : burst_next s = None -> blocked s.
Proof.
  intros H s' Hs. destruct Hs as [n o o' p i E|n o e o' i E|n o i i' E]; cbn -[queue_put queue_take] in H.
  - destruct p; [destruct (queue_put cmd i)|destruct (queue_take o) as [[? ?]|]]; try done; by rewrite E in H.
  - by rewrite E in H.
  - by rewrite E in H.
Qed.
Lemma burst_run_steps fuel s : nsteps burst_step (burst_run fuel s).1 s (burst_run fuel s).2.
Proof.
  revert s. induction fuel as [|fuel IH]; intros s; cbn; [constructor|].
  destruct (burst_next s) as [s'|] eqn:E; [|constructor]. specialize (IH s').
  destruct (burst_run fuel s') as [m r]. econstructor; [by apply burst_next_step|done].
Qed.

(** Every event is still to come, queued, being answered, or answered. *)
Definition burst_inv (k : nat) (s : burst) : Prop :=
  queue_wf (b_out s) /\ queue_wf (b_in s) /\
  (b_left s + q_count (b_out s) + Nat.b2n (b_posting s) + q_count (b_in s) = k)%nat.
Definition burst_work (s : burst) : nat := (3 * b_left s + 2 * q_count (b_out s) + Nat.b2n (b_posting s))%nat.

Lemma burst_inv_step k s s' : burst_inv k s -> burst_step s s' -> burst_inv k s' /\ (burst_work s' < burst_work s)%nat.
Proof.
  intros (Ho & Hi & Hk) H. destruct H as [n o o' p i H|n o e o' i H|n o i i' H]; unfold burst_inv, burst_work; cbn in *.
  - apply queue_put_spec in H as (? & _ & ?); [|done]. split_conj; (done || lia).
  - apply queue_take_spec in H as (? & _ & ?); [|done]. split_conj; (done || lia).
  - apply queue_put_spec in H as (? & _ & ?); [|done]. split_conj; (done || lia).
Qed.

Lemma burst_inv_steps k n s s' : burst_inv k s -> nsteps burst_step n s s' ->
  burst_inv k s' /\ (n + burst_work s' <= burst_work s)%nat.
Proof.
  intros Hs H. revert Hs. induction H as [s|n s s1 s2 H1 _ IH]; intros Hs; [split; [done|lia]|].
  destruct (burst_inv_step _ _ _ Hs H1) as [Hs1 Hw]. destruct (IH Hs1). split; [done|lia].
Qed.

Lemma blocked_spec s : blocked s ->
  (0 < b_left s -> q_count (b_out s) = TT_QUEUE_CAP)%nat /\
  (if b_posting s then q_count (b_in s) = TT_QUEUE_CAP else q_count (b_out s) = 0%nat).
Proof.
  destruct s as [n o p i]. cbn. intros H. split.
  - intros Hn. apply (queue_put_full ev). destruct (queue_put ev o) eqn:E; [|done]. destruct n as [|n]; [lia|].
    exfalso. eapply H. by constructor.
  - destruct p; [apply (queue_put_full cmd)|apply queue_take_empty].
    + destruct (queue_put cmd i) eqn:E; [|done]. exfalso. eapply H. by constructor.
    + destruct (queue_take o) as [[e o']|] eqn:E; [|done]. exfalso. eapply H. by econstructor.
Qed.

(** C25: When the tox thread emits [k] events in one go and the UI answers each with
    a command, every schedule stops within [3 k] steps.  Up to 513 events all
    are answered; from 514 on it always stops with both queues full, each
    thread waiting for the other to take something, and [k - 513] events never
    emitted: the application hangs. *)
Theorem burst_blocks k n s :
  nsteps burst_step n (burst_start k) s -> (n <= 3 * k)%nat /\
  (blocked s -> b_left s = (k - (2 * TT_QUEUE_CAP + 1))%nat /\
    ((0 < b_left s)%nat -> q_count (b_out s) = TT_QUEUE_CAP /\ q_count (b_in s) = TT_QUEUE_CAP /\ b_posting s = true)).
Proof.
  intros H. eapply (burst_inv_steps k) in H as [(Ho & Hi & Hk) Hn]; cycle 1.
  { split; [|split]; [apply queue_wf_init..|cbn; lia]. }
  split; [unfold burst_work in *; cbn in *; lia|]. intros Hb. apply blocked_spec in Hb as [H1 H2].
  destruct Ho as (_ & _ & Ho), Hi as (_ & _ & Hi). assert (0 < TT_QUEUE_CAP)%nat by (unfold TT_QUEUE_CAP; lia).
  destruct (b_posting s); cbn [Nat.b2n] in *; (split; [lia|]); intros Hl; [split; [lia|]; split; [lia|done]|lia].
Qed.
End burst.

(** ** Examples *)

(** Threads 1 and 2 wait, thread 0 pushes, thread 1 is woken and takes. *)
Definition sample_may (tid : nat) (c : qcall Z) : Prop := True.

Lemma events_delivered_in_order_witness :
  qsteps sample_may (qsys_init 1) [LTau; LPush 0 7]
    (mkQsys (mkQueue (<[0%nat := Some 7]> (replicate TT_QUEUE_CAP None)) 0 1) [Idle]) /\
  exists rest, omap taken_in [LTau; LPush 0 7] = omap handed_out [LTau; LPush 0 7] ++ rest /\
    (length rest <= TT_QUEUE_CAP)%nat.
Proof.
  assert (H : qsteps sample_may (qsys_init 1) [LTau; LPush 0 7]
    (mkQsys (mkQueue (<[0%nat := Some 7]> (replicate TT_QUEUE_CAP None)) 0 1) [Idle])).
  { eapply (qsteps_snoc _ _ [LTau]); [eapply (qsteps_snoc _ _ []); [constructor|]|].
    - by apply (step_call _ _ _ 0 (CPush 7)).
    - eapply (step_push _ _ _ 0 7); [done|reflexivity|]. apply signal_none. intros [|[|tid]] c; done. }
  split; [exact H|]. exact (events_delivered_in_order sample_may 1 _ _ H).
Defined.

Lemma no_lost_wakeup_witness :
  let s := mkQsys (@tt_queue_init Z) [Idle; Wait CPop] in
  qsteps one_producer (qsys_init 2) [LTau; LTau] s /\
  (q_count (queue s) <= count_if woken_pop (threads s))%nat.
Proof.
  intros s.
  assert (H : qsteps one_producer (qsys_init 2) [LTau; LTau] s).
  { eapply (qsteps_snoc _ _ [LTau]); [eapply (qsteps_snoc _ _ []); [constructor|]|].
    - by apply (step_call _ _ _ 1 CPop).
    - by apply (step_empty one_producer tt_queue_init [Idle; Ready CPop] 1 CPop). }
  split; [exact H|]. refine (no_lost_wakeup 1 _ s 1 CPop _ H eq_refl). unfold TT_QUEUE_CAP. lia.
Defined.

Lemma burst_blocks_witness :
  let r := burst_run 0 0 2000 (burst_start 514) in
  nsteps (burst_step 0 0) r.1 (burst_start 514) r.2 /\ b_left r.2 = 1%nat.
Proof.
  intros r. assert (H : nsteps (burst_step 0 0) r.1 (burst_start 514) r.2) by apply burst_run_steps.
  split; [exact H|]. apply (proj2 (burst_blocks 0 0 514 _ _ H)). apply burst_next_none. vm_compute. reflexivity.
Defined.
