(* ===== verification/Identity.v ===== *)
(** * Identity: Tox IDs, public keys and friend requests ([tox_thread.c])

    Keys travel between the engine and the UI as hexadecimal text.  A command's
    text is the memory from its pointer to the end of its allocation: the
    characters, one NUL, nothing behind it; reading further is [Oob]. *)
From S2P Require Import Prelude CText EventQueue.

Definition TOX_PUBLIC_KEY_SIZE : Z := 32.
Definition TOX_ADDRESS_SIZE : Z := 38.
Definition TOX_MAX_FRIEND_REQUEST_LENGTH : Z := 921.

(** The block [tt_queue_post] allocates for a text. *)
Definition text_block (s : bytes) : bytes := s ++ [0].

(** ** Hexadecimal output *)

(** [digits[n]], and [%02x] of each byte. *)
Definition hex_digit (n : Z) : Z := if n <? 10 then 48 + n else 87 + n.
Definition hex_byte (b : Z) : bytes := [hex_digit (Z.shiftr b 4); hex_digit (Z.land b 15)].
Definition hex (l : bytes) : bytes := concat (hex_byte <$> l).

Inductive identity_event := TT_EV_TOXID | TT_EV_FRIEND_REQUEST | TT_EV_FRIEND_PUBKEY.

Definition publish_toxid (addr : bytes) : TTEvent identity_event :=
  mkEvent TT_EV_TOXID 0 (Some (hex addr)) (len (hex addr)) 0 0.

(** Two events of the same type: the key, then the message if there is one. *)
Definition cb_friend_request (public_key message : bytes) : list (TTEvent identity_event) :=
  push_simple TT_EV_FRIEND_REQUEST 0 (Some (hex public_key)) 0 ::
  match message with
  | [] => []
  | _ => [push_simple TT_EV_FRIEND_REQUEST 0 (Some message) 0]
  end.

(** ** Hexadecimal input *)

Definition xvalue (c : Z) : option Z :=
  if isdigit c then Some (c - 48)
  else if (97 <=? c) && (c <=? 102) then Some (c - 87)
  else if (65 <=? c) && (c <=? 70) then Some (c - 55)
  else None.
Definition isxdigit (c : Z) : bool := bool_decide (is_Some (xvalue c)).

(** Up to [n] hexadecimal digits: their number and value. *)
Fixpoint xdigits (n : nat) (l : bytes) (k acc : Z) : Z * Z :=
  match n, l with
  | S n, c :: t => match xvalue c with Some v => xdigits n t (k + 1) (acc * 16 + v) | None => (k, acc) end
  | _, _ => (k, acc)
  end.

Section hex_input.
(** Whether the C library reads a lone [0x] as zero (glibc) or rejects it. *)
Context (lone_0x : bool).

(** [sscanf (l, "%2hhx", &b) == 1]: white space first, then at most two
    characters with an optional sign. *)
Definition scan_hhx (l : bytes) : outcome Z :=
  l ← skip_space l;
  let '(neg, w, l) := match l with
    | c :: t => if c =? 45 then (true, 1%nat, t) else if c =? 43 then (false, 1%nat, t) else (false, 2%nat, l)
    | [] => (false, 2%nat, [])
    end in
  let '(k, v) := xdigits w l 0 0 in
  if k =? 0 then Fail else
  if (k =? 1) && (w =? 2)%nat && (zat l 0 =? 48) && ((zat l 1 =? 120) || (zat l 1 =? 88)) && negb lone_0x then Fail
  else Ok (u8 (if neg then - v else v)).

(** The loop [for (j = 0; j < n; j++) sscanf (s + j * 2, ...)]. *)
Fixpoint scan_key (n : nat) (l : bytes) : outcome bytes :=
  match n with
  | O => Ok []
  | S n => b ← scan_hhx l; r ← scan_key n (drop 2 l); Ok (b :: r)
  end.

(** The number of leading hexadecimal digits, at most [n]; reading past the
    block is [Oob]. *)
Fixpoint xrun (n : nat) (l : bytes) : outcome nat :=
  match n with
  | O => Ok 0%nat
  | S n => match l with
           | [] => Oob
           | c :: t => if isxdigit c then k ← xrun n t; Ok (S k) else Ok 0%nat
           end
  end.

Definition TOXID_HEX : nat := Z.to_nat (TOX_ADDRESS_SIZE * 2).

(** [p] as the memory from it on; [Fail] is the NULL result. *)
Fixpoint extract_loop (fuel : nat) (p : bytes) : outcome bytes :=
  match fuel with
  | O => Oob
  | S fuel =>
      match p !! (TOXID_HEX - 1)%nat with
      | None => Oob
      | Some c =>
          if c =? 0 then Fail else
          j ← xrun TOXID_HEX p;
          if (j =? TOXID_HEX)%nat then Ok p else extract_loop fuel (drop (Nat.max 1 j) p)
      end
  end.
Definition extract_toxid_hex (s : bytes) : outcome bytes := extract_loop (length s) s.

(** ** Commands *)

(** What a command does: the toxcore call, then [save_profile]. *)
Inductive friend_action :=
| FriendAdd (addr message : bytes)
| FriendAddNorequest (pk : bytes).

Definition DEFAULT_REQUEST : bytes := ascii_bytes "adding you on TkTox".

Definition request_message (rest : bytes) : bytes :=
  match strchr 10 (cstr rest) with
  | Some (_, m) => ztake (TOX_MAX_FRIEND_REQUEST_LENGTH - 1) m
  | None => DEFAULT_REQUEST
  end.

Definition handle_cmd_add (s : option bytes) : outcome friend_action :=
  match s with
  | None => Fail
  | Some s =>
      p ← extract_toxid_hex s;
      addr ← scan_key (Z.to_nat TOX_ADDRESS_SIZE) p;
      Ok (FriendAdd addr (request_message (drop TOXID_HEX p)))
  end.

Definition handle_cmd_accept (s : option bytes) : outcome friend_action :=
  match s with
  | None => Fail
  | Some s =>
      if negb (len (cstr s) =? TOX_PUBLIC_KEY_SIZE * 2) then Fail else
      pk ← scan_key (Z.to_nat TOX_PUBLIC_KEY_SIZE) s;
      Ok (FriendAddNorequest pk)
  end.
End hex_input.

(** ** Hexadecimal round trips *)

Lemma xvalue_digit n : 0 <= n < 16 -> xvalue (hex_digit n) = Some n.
Proof.
  intros H. unfold xvalue, hex_digit, isdigit. destruct (Z.ltb_spec n 10).
  - replace ((48 <=? 48 + n) && (48 + n <=? 57)) with true by lia. f_equal. lia.
  - replace ((48 <=? 87 + n) && (87 + n <=? 57)) with false by lia.
    replace ((97 <=? 87 + n) && (87 + n <=? 102)) with true by lia. f_equal. lia.
Qed.
Lemma nibbles b : is_byte b -> 0 <= Z.shiftr b 4 < 16 /\ 0 <= Z.land b 15 < 16 /\ Z.shiftr b 4 * 16 + Z.land b 15 = b.
Proof.
  unfold is_byte. intros H. change 15 with (Z.ones 4). rewrite Z.land_ones, Z.shiftr_div_pow2 by lia.
  change (2 ^ 4) with 16. pose proof (Z.div_mod b 16). pose proof (Z.mod_pos_bound b 16). lia.
Qed.
Lemma isxdigit_hex_digit n : 0 <= n < 16 -> isxdigit (hex_digit n) = true.
Proof. intros H. unfold isxdigit. by rewrite xvalue_digit. Qed.
Lemma isxdigit_range c : isxdigit c = true -> 48 <= c <= 102.
Proof.
  unfold isxdigit. rewrite bool_decide_eq_true. unfold xvalue, isdigit.
  repeat case_match; intros [? [=]]; lia.
Qed.

Lemma hex_length l : length (hex l) = (2 * length l)%nat.
Proof. induction l as [|b l IH]; [done|]. cbn [hex concat fmap list_fmap]. fold (hex l). cbn. rewrite IH. lia. Qed.
Lemma hex_xdigits l : all_bytes l -> Forall (fun c => isxdigit c = true) (hex l).
Proof.
  induction 1 as [|b l Hb _ IH]; [constructor|]. destruct (nibbles b Hb) as (? & ? & _).
  constructor; [by apply isxdigit_hex_digit|]. constructor; [by apply isxdigit_hex_digit|]. exact IH.
Qed.

Lemma scan_hhx_hex lone b rest : is_byte b -> scan_hhx lone (hex_byte b ++ rest) = Ok b.
Proof.
  intros Hb. destruct (nibbles b Hb) as (H1 & H2 & H3). unfold hex_byte.
  pose proof (isxdigit_range _ (isxdigit_hex_digit _ H1)). pose proof (isxdigit_range _ (isxdigit_hex_digit _ H2)).
  unfold scan_hhx. cbn [app skip_space]. unfold isspace.
  replace ((hex_digit (Z.shiftr b 4) =? 32) || ((9 <=? hex_digit (Z.shiftr b 4)) && (hex_digit (Z.shiftr b 4) <=? 13)))
    with false by lia. cbn [mbind outcome_bind].
  replace (hex_digit (Z.shiftr b 4) =? 45) with false by lia. replace (hex_digit (Z.shiftr b 4) =? 43) with false by lia.
  cbn [xdigits]. rewrite !xvalue_digit by done. cbn [Z.eqb Z.add Pos.add Pos.succ Pos.eqb andb]. cbv iota.
  f_equal. rewrite u8_small; [lia|]. unfold is_byte in *. lia.
Qed.
Lemma scan_key_hex lone l rest : all_bytes l -> scan_key lone (length l) (hex l ++ rest) = Ok l.
Proof.
  induction 1 as [|b l Hb _ IH]; [done|]. cbn [length scan_key hex concat fmap list_fmap]. fold (hex l).
  rewrite <- app_assoc, (scan_hhx_hex lone b) by done. cbn [mbind outcome_bind].
  change (drop 2 (hex_byte b ++ hex l ++ rest)) with (hex l ++ rest). by rewrite IH.
Qed.

(** ** The first Tox ID of a text *)

Definition xchar (c : Z) : Prop := isxdigit c = true.
(** [p] begins with 76 hexadecimal digits. *)
Definition starts_id (p : bytes) : Prop := (TOXID_HEX <= length p)%nat /\ Forall xchar (take TOXID_HEX p).

Lemma xrun_all n p : (n <= length p)%nat -> Forall xchar (take n p) -> xrun n p = Ok n.
Proof.
  revert p. induction n as [|n IH]; intros [|c p] Hl H; cbn in *; try lia; [done|done|].
  apply Forall_cons in H as [Hc H]. unfold xchar in Hc. rewrite Hc, IH by (lia || done). done.
Qed.
Lemma xrun_spec n p : (n <= length p)%nat -> exists k, xrun n p = Ok k /\ (k <= n)%nat /\ Forall xchar (take k p) /\
  ((k < n)%nat -> exists c, p !! k = Some c /\ ~ xchar c).
Proof.
  revert p. induction n as [|n IH]; intros [|c p] Hl; cbn in Hl; try lia.
  1,2: exists 0%nat; split_conj; [done|done|constructor|lia].
  cbn [xrun]. destruct (isxdigit c) eqn:E.
  - destruct (IH p ltac:(lia)) as (k & -> & Hk & Hf & Hn). exists (S k). split_conj; [done|lia|by constructor|].
    intros ?. cbn. apply Hn. lia.
  - exists 0%nat. split_conj; [done|lia|constructor|]. intros _. exists c. split; [done|]. unfold xchar. congruence.
Qed.

Lemma starts_id_lookup p i c : starts_id p -> (i < TOXID_HEX)%nat -> p !! i = Some c -> xchar c.
Proof. intros [_ H] Hi Hc. eapply Forall_lookup_1; [exact H|]. by rewrite lookup_take_lt. Qed.

(** A character that is no digit keeps every ID from starting shortly before it. *)
Lemma no_id_before p i j c : p !! j = Some c -> ~ xchar c -> (i <= j < i + TOXID_HEX)%nat -> ~ starts_id (drop i p).
Proof.
  intros Hc Hx Hij H. apply Hx, (starts_id_lookup (drop i p) (j - i)); [done|lia|].
  rewrite lookup_drop. by replace (i + (j - i))%nat with j by lia.
Qed.

(** The loop finds the first occurrence without reading past the text. *)
Lemma extract_first i : forall fuel p, (i < fuel)%nat ->
  (forall i', (i' < i)%nat -> ~ starts_id (drop i' p)) -> starts_id (drop i p) -> Forall (fun c => c <> 0) (take i p) ->
  extract_loop fuel p = Ok (drop i p).
Proof.
  induction i as [i IH] using lt_wf_ind. intros [|fuel] p Hf Hn Hi Hz; [lia|].
  pose proof Hi as [Hl Hx]. rewrite length_drop in Hl. assert (0 < TOXID_HEX)%nat by (unfold TOXID_HEX; vm_compute; lia).
  cbn [extract_loop]. destruct (lookup_lt_is_Some_2 p (TOXID_HEX - 1)) as [c Hc]; [lia|]. rewrite Hc.
  assert (c <> 0).
  { destruct (decide (TOXID_HEX - 1 < i)%nat).
    - eapply (Forall_lookup_1 _ _ _ _ Hz). by rewrite lookup_take_lt.
    - assert (xchar c) as ?%isxdigit_range; [|lia]. apply (starts_id_lookup (drop i p) (TOXID_HEX - 1 - i)); [done|lia|].
      rewrite lookup_drop. by replace (i + (TOXID_HEX - 1 - i))%nat with (TOXID_HEX - 1)%nat by lia. }
  replace (c =? 0) with false by lia.
  destruct (xrun_spec TOXID_HEX p) as (j & -> & Hj & Hjf & Hjn); [lia|]. cbn [mbind outcome_bind].
  destruct (Nat.eqb_spec j TOXID_HEX) as [->|Hne].
  - destruct i as [|i]; [by rewrite drop_0|]. exfalso. apply (Hn 0%nat); [lia|]. rewrite drop_0. split; [lia|done].
  - destruct Hjn as (d & Hd & Hdx); [lia|].
    assert (j < i)%nat.
    { apply Nat.nle_gt. intros Hij. apply Hdx. apply (starts_id_lookup (drop i p) (j - i)); [done|lia|].
      rewrite lookup_drop. by replace (i + (j - i))%nat with j by lia. }
    assert (E : drop i p = drop (i - Nat.max 1 j) (drop (Nat.max 1 j) p)) by (rewrite drop_drop; f_equal; lia).
    rewrite E. apply IH; [lia|lia| | |].
    + intros i' Hi'. rewrite drop_drop. apply Hn. lia.
    + by rewrite <- E.
    + rewrite take_drop_commute. replace (Nat.max 1 j + (i - Nat.max 1 j))%nat with i by lia. by apply Forall_drop.
Qed.

(** ** Commands and events fit together *)

Lemma text_block_nonzero t : ~ In 0 t -> cstr (text_block t) = t.
Proof.
  unfold text_block. induction t as [|c t IH]; intros H; [done|]. cbn. destruct (Z.eqb_spec c 0); [naive_solver|].
  f_equal. apply IH. naive_solver.
Qed.

Lemma add_first_id lone t pre addr rest :
  t = pre ++ hex addr ++ rest -> ~ In 0 t -> len addr = TOX_ADDRESS_SIZE -> all_bytes addr ->
  (forall i, (i < length pre)%nat -> ~ starts_id (drop i (text_block t))) ->
  handle_cmd_add lone (Some (text_block t)) = Ok (FriendAdd addr (request_message (text_block rest))).
Proof.
  intros -> Hz Hl Hb Hn. unfold handle_cmd_add, extract_toxid_hex.
  assert (Ha : length addr = Z.to_nat TOX_ADDRESS_SIZE) by (unfold len, TOX_ADDRESS_SIZE in *; lia).
  assert (Hx : length (hex addr) = TOXID_HEX) by (rewrite hex_length, Ha; done).
  assert (E : drop (length pre) (text_block (pre ++ hex addr ++ rest)) = hex addr ++ text_block rest)
    by (unfold text_block; by rewrite <- !app_assoc, drop_app_length).
  rewrite (extract_first (length pre)); [| |done| |]; cycle 1.
  - unfold text_block. rewrite !length_app. cbn. lia.
  - rewrite E. split; [rewrite length_app; lia|]. rewrite <- Hx, take_app_length. by apply hex_xdigits.
  - unfold text_block. rewrite <- !app_assoc, take_app_length. apply Forall_forall. intros x Hx' ->. apply Hz.
    apply list_elem_of_In in Hx'. rewrite in_app_iff. by left.
  - rewrite E. cbn [mbind outcome_bind]. rewrite <- Ha, scan_key_hex by done. cbn [mbind outcome_bind].
    by rewrite <- Hx, drop_app_length.
Qed.

Lemma hex_nonzero l : all_bytes l -> ~ In 0 (hex l).
Proof.
  intros H Hin. apply hex_xdigits in H. rewrite Forall_forall in H. apply list_elem_of_In in Hin.
  apply H in Hin. apply isxdigit_range in Hin. lia.
Qed.

(** C26: Keys survive the way through the user interface: our published Tox ID,
    pasted by a friend anywhere in a text that holds no earlier ID, makes the
    friend's client add exactly our address, with the text after the next line
    break as message; and accepting a friend request adds exactly the
    requester's key.  Nothing is read past the text. *)
Theorem keys_survive_the_ui lone addr pk message pre rest :
  len addr = TOX_ADDRESS_SIZE -> all_bytes addr -> len pk = TOX_PUBLIC_KEY_SIZE -> all_bytes pk ->
  let pasted := pre ++ default [] (ev_str (publish_toxid addr)) ++ rest in
  ~ In 0 pasted -> (forall i, (i < length pre)%nat -> ~ starts_id (drop i (text_block pasted))) ->
  handle_cmd_add lone (Some (text_block pasted)) = Ok (FriendAdd addr (request_message (text_block rest))) /\
  exists ev evs, cb_friend_request pk message = ev :: evs /\
    handle_cmd_accept lone (text_block <$> ev_str ev) = Ok (FriendAddNorequest pk).
Proof.
  intros Hl Hb Hlp Hbp pasted Hz Hn. split; [by apply (add_first_id lone pasted pre)|].
  eexists _, _. split; [done|].
  assert (Hp : length pk = Z.to_nat TOX_PUBLIC_KEY_SIZE) by (unfold len, TOX_PUBLIC_KEY_SIZE in *; lia).
  assert (E : ev_str (push_simple TT_EV_FRIEND_REQUEST 0 (Some (hex pk)) 0) = Some (hex pk)) by (by destruct pk).
  rewrite E. cbn [fmap option_fmap option_map]. unfold handle_cmd_accept.
  rewrite text_block_nonzero by (by apply hex_nonzero).
  replace (negb (len (hex pk) =? TOX_PUBLIC_KEY_SIZE * 2)) with false
    by (unfold len; rewrite hex_length, Hp; done).
  unfold text_block. by rewrite <- Hp, scan_key_hex.
Qed.

(** Adding a friend with a text shorter than 75 characters reads memory
    behind the text: the loop of [extract_toxid_hex] looks at character 75
    before it knows that the text is that long. *)
Theorem short_toxid_overreads lone t :
  len t < TOX_ADDRESS_SIZE * 2 - 1 -> handle_cmd_add lone (Some (text_block t)) = Oob.
Proof.
  intros Hl. unfold handle_cmd_add, extract_toxid_hex.
  assert (E : (length (text_block t) <= 75)%nat).
  { unfold text_block, len, TOX_ADDRESS_SIZE in *. rewrite length_app. cbn. lia. }
  assert (E1 : (0 < length (text_block t))%nat) by (unfold text_block; rewrite length_app; cbn; lia).
  destruct (length (text_block t)) as [|n] eqn:En; [lia|].
  cbn [extract_loop]. change (TOXID_HEX - 1)%nat with 75%nat. rewrite lookup_ge_None_2 by lia. done.
Qed.

(** A text of spaces is accepted as a public key: [sscanf] skips them. *)
Lemma accept_takes_spaces lone :
  handle_cmd_accept lone (Some (text_block (zrep 63 32 ++ [53]))) = Ok (FriendAddNorequest (zrep 32 5)).
Proof. destruct lone; vm_compute; reflexivity. Qed.

(** ** Examples *)

Definition sample_addr : bytes := seqZ 200 38.
Definition sample_pk : bytes := seqZ 1 32.

Lemma keys_survive_the_ui_witness :
  let pasted := ascii_bytes "ToxID: " ++ default [] (ev_str (publish_toxid sample_addr)) ++ 10 :: ascii_bytes "hi" in
  handle_cmd_add true (Some (text_block pasted)) =
    Ok (FriendAdd sample_addr (request_message (text_block (10 :: ascii_bytes "hi")))) /\
  exists ev evs, cb_friend_request sample_pk (ascii_bytes "hello") = ev :: evs /\
    handle_cmd_accept true (text_block <$> ev_str ev) = Ok (FriendAddNorequest sample_pk).
Proof.
  apply (keys_survive_the_ui true sample_addr sample_pk (ascii_bytes "hello") (ascii_bytes "ToxID: ") (10 :: ascii_bytes "hi")).
  - reflexivity.
  - apply Forall_forall. intros x Hx%elem_of_seqZ. unfold is_byte. lia.
  - reflexivity.
  - apply Forall_forall. intros x Hx%elem_of_seqZ. unfold is_byte. lia.
  - vm_compute. intuition discriminate.
  - intros i Hi. apply (no_id_before _ i 6 32); [reflexivity|done|]. change TOXID_HEX with 76%nat. cbn in Hi. lia.
Defined.

Lemma short_toxid_overreads_witness : handle_cmd_add true (Some (text_block (ascii_bytes "hello"))) = Oob.
Proof. apply (short_toxid_overreads true (ascii_bytes "hello")). reflexivity. Defined.
