(* ===== verification/Settings.v ===== *)
(** * Settings: the settings sidecar ([tox_thread.c])

    [<profile>.tt] is a text file of at most one line per group: the proxy, the
    history switch, the friends whose messages must be encrypted.  Each store
    function rewrites its own line and copies the others.  A file is its bytes,
    a missing file is [None]; file operations succeed. *)
From S2P Require Import Prelude CText.

Record TTSettings := mkSettings { proxy_set : bool; proxy_host : bytes; proxy_port : Z; history : bool }.
#[export] Instance eta_settings : EtaRecord TTSettings := fun s =>
  mkSettings (proxy_set s) (proxy_host s) (proxy_port s) (history s).

(** ** Reading lines *)

(** [fgets (line, cap, fp)] with [n = cap - 1]: the line and the rest. *)
Fixpoint fgets (n : nat) (l : bytes) : bytes * bytes :=
  match n, l with
  | S n, c :: t => if c =? 10 then ([c], t) else let '(a, b) := fgets n t in (c :: a, b)
  | _, _ => ([], l)
  end.
(** The loop [while (fgets (line, cap, fp))]: every round takes a byte. *)
Fixpoint fgets_loop (fuel cap : nat) (l : bytes) : list bytes :=
  match fuel, l with
  | S fuel, _ :: _ => let '(a, b) := fgets (cap - 1) l in a :: fgets_loop fuel cap b
  | _, _ => []
  end.
Definition file_lines (cap : nat) (l : bytes) : list bytes := fgets_loop (length l) cap l.

(** [strncmp (line, p, strlen (p)) == 0] *)
Definition starts (p line : bytes) : bool := bytes_eqb (ztake (len p) (cstr line)) p.

(** [%ns]: a word of at most [n] bytes, and the rest. *)
Fixpoint scan_word (n : nat) (l : bytes) : bytes * bytes :=
  match n, l with
  | S n, c :: t => if isspace c then ([], l) else let '(a, b) := scan_word n t in (c :: a, b)
  | _, _ => ([], l)
  end.
(** [%ld] *)
Definition scan_long (l : bytes) : option Z :=
  let l := drop_space l in
  let digits := match l with
                | c :: t => if (c =? 45) || (c =? 43) then t else l
                | [] => l
                end in
  match digits with
  | c :: _ => if isdigit c then Some (strtol10 l) else None
  | [] => None
  end.

Definition W_PROXY : bytes := ascii_bytes "proxy".
Definition W_NOPROXY : bytes := ascii_bytes "noproxy".
Definition W_HISTORY : bytes := ascii_bytes "history".
Definition W_E2EE : bytes := ascii_bytes "e2ee".
Definition W_ON : bytes := ascii_bytes "on".
Definition W_OFF : bytes := ascii_bytes "off".

(** [sscanf (line, "proxy %63s %ld", host, &port) == 2] *)
Definition scan_proxy (line : bytes) : option (bytes * Z) :=
  if negb (starts W_PROXY line) then None else
  let '(host, rest) := scan_word 63 (drop_space (zdrop 5 (cstr line))) in
  if len host =? 0 then None else
  match scan_long rest with Some port => Some (host, port) | None => None end.
(** [sscanf (line, "history %15s", v) == 1] *)
Definition scan_history (line : bytes) : option bytes :=
  let v := (scan_word 15 (drop_space (zdrop 7 (cstr line)))).1 in
  if len v =? 0 then None else Some v.

Definition no_settings : TTSettings := mkSettings false [] 0 false.

Definition load_line (s : TTSettings) (line : bytes) : TTSettings :=
  match scan_proxy line with
  | Some (host, port) => s <| proxy_set := true |> <| proxy_host := host |> <| proxy_port := port |>
  | None =>
      if starts W_HISTORY line then
        match scan_history line with
        | Some v => s <| history := bytes_eqb v W_ON |>
        | None => s
        end
      else s
  end.
Definition tt_settings_load (file : option bytes) : TTSettings :=
  match file with
  | None => no_settings
  | Some b => fold_left load_line (file_lines 128 b) no_settings
  end.

(** ** Enforced friends *)

Definition is_blank (c : Z) : bool := (c =? 32) || (c =? 9).
Fixpoint drop_blank (l : bytes) : bytes :=
  match l with c :: t => if is_blank c then drop_blank t else l | [] => [] end.
Fixpoint drop_digits (l : bytes) : bytes :=
  match l with c :: t => if isdigit c then drop_digits t else l | [] => [] end.

Fixpoint parse_friends (fuel : nat) (p : bytes) (required : list bool) : list bool :=
  match fuel with
  | O => required
  | S fuel =>
      match drop_blank p with
      | c :: t =>
          if isdigit c then
            let fn := Z.min (take_digits (c :: t) 0) (2 ^ 63 - 1) in
            parse_friends fuel (drop_digits (c :: t))
              (if fn <? TT_MAX_FRIENDS then <[Z.to_nat fn := true]> required else required)
          else required
      | [] => required
      end
  end.

Definition none_required : list bool := replicate (Z.to_nat TT_MAX_FRIENDS) false.

(** Only the first [e2ee] line counts. *)
Fixpoint load_e2ee_lines (ls : list bytes) : list bool :=
  match ls with
  | [] => none_required
  | line :: ls =>
      if starts W_E2EE line
      then parse_friends (S (length line)) (zdrop 4 (cstr line)) none_required
      else load_e2ee_lines ls
  end.
Definition tt_settings_load_e2ee (file : option bytes) : list bool :=
  match file with None => none_required | Some b => load_e2ee_lines (file_lines 512 b) end.

(** ** Storing *)

Definition show_long (z : Z) : bytes := if z <? 0 then 45 :: dec (- z) else dec z.

(** The lines of the old file that [keep] selects, as [fputs] writes them. *)
Definition copy_lines (cap : nat) (keep : bytes -> bool) (old : option bytes) : bytes :=
  match old with
  | None => []
  | Some b => concat (cstr <$> filter (fun line => keep line = true) (file_lines cap b))
  end.

Definition tt_settings_store_proxy (host : bytes) (port : Z) (old : option bytes) : bytes :=
  (if 0 <? len (cstr host) then W_PROXY ++ [32] ++ cstr host ++ [32] ++ show_long port ++ [10]
   else W_NOPROXY ++ [10]) ++
  copy_lines 512 (fun line => starts W_HISTORY line || starts W_E2EE line) old.

Definition tt_settings_store_history (on : bool) (old : option bytes) : bytes :=
  copy_lines 512 (fun line => starts W_PROXY line || starts W_NOPROXY line || starts W_E2EE line) old ++
  W_HISTORY ++ [32] ++ (if on then W_ON else W_OFF) ++ [10].

(** The friend numbers set, in order. *)
Definition friends_set (required : list bool) : list Z :=
  filter (fun fn => required !! Z.to_nat fn = Some true) (seqZ 0 TT_MAX_FRIENDS).
Definition e2ee_line (fns : list Z) : bytes :=
  match fns with
  | [] => []
  | _ => W_E2EE ++ concat ((fun fn => 32 :: dec fn) <$> fns) ++ [10]
  end.
Definition tt_settings_store_e2ee (required : list bool) (old : option bytes) : bytes :=
  copy_lines 128 (fun line => starts W_PROXY line || starts W_NOPROXY line || starts W_HISTORY line) old ++
  e2ee_line (friends_set required).

(** ** Lines of a file *)

(** A line as [fputs] leaves it: one newline, at the end. *)
Definition line_text (t : bytes) : Prop := exists b, t = b ++ [10] /\ ~ In 10 b.

Lemma fgets_split n : forall l, l = (fgets n l).1 ++ (fgets n l).2.
Proof.
  induction n as [|n IH]; intros [|c l]; try done. cbn. destruct (c =? 10); [done|].
  specialize (IH l). destruct (fgets n l) as [a b]. cbn in *. by rewrite IH at 1.
Qed.
Lemma fgets_progress n c l : (0 < n)%nat -> (length (fgets n (c :: l)).2 < length (c :: l))%nat.
Proof.
  intros Hn. destruct n as [|n]; [lia|]. cbn. destruct (c =? 10); [cbn; lia|].
  pose proof (fgets_split n l) as H. destruct (fgets n l) as [a b]. cbn in *. rewrite H, length_app. lia.
Qed.
Lemma fgets_line n b rest : ~ In 10 b -> (length b < n)%nat -> fgets n (b ++ 10 :: rest) = (b ++ [10], rest).
Proof.
  revert n. induction b as [|c b IH]; intros [|n] Hb Hn; cbn in *; try lia; [done|].
  destruct (Z.eqb_spec c 10); [naive_solver|]. by rewrite IH by (naive_solver || lia).
Qed.

Lemma fgets_loop_fuel cap : (1 < cap)%nat -> forall n k l,
  (length l <= n)%nat -> (length l <= k)%nat -> fgets_loop n cap l = fgets_loop k cap l.
Proof.
  intros Hcap. induction n as [|n IH]; intros [|k] [|c l] Hn Hk; cbn in Hn, Hk; try lia; try done.
  cbn [fgets_loop]. pose proof (fgets_progress (cap - 1) c l ltac:(lia)) as H.
  destruct (fgets (cap - 1) (c :: l)) as [a b]. cbn in H. f_equal. apply IH; lia.
Qed.

Lemma file_lines_unfold cap c l : (1 < cap)%nat ->
  file_lines cap (c :: l) = (fgets (cap - 1) (c :: l)).1 :: file_lines cap (fgets (cap - 1) (c :: l)).2.
Proof.
  intros Hcap. unfold file_lines. cbn [length fgets_loop]. pose proof (fgets_progress (cap - 1) c l ltac:(lia)) as H.
  destruct (fgets (cap - 1) (c :: l)) as [a b]. cbn [fst snd length] in *. f_equal. apply fgets_loop_fuel; [done|lia|lia].
Qed.

(** The pieces of a long line do not run into the next one. *)
Lemma fgets_long n b rest : ~ In 10 b -> (n <= length b)%nat ->
  fgets n (b ++ 10 :: rest) = (take n b, drop n b ++ 10 :: rest).
Proof.
  revert n. induction b as [|c b IH]; intros [|n] Hb Hn; cbn in *; try lia; [done|done|].
  destruct (Z.eqb_spec c 10); [naive_solver|]. by rewrite IH by (naive_solver || lia).
Qed.
Lemma file_lines_app cap t rest : (1 < cap)%nat -> line_text t ->
  file_lines cap (t ++ rest) = file_lines cap t ++ file_lines cap rest.
Proof.
  intros Hcap (b & -> & Hb). rewrite <- app_assoc. cbn [app]. remember (length b) as k eqn:Hk.
  revert b Hk Hb. induction k as [k IH] using lt_wf_ind. intros b Hk Hb.
  destruct (decide (length b < cap - 1)%nat) as [Hs|Hl].
  - assert (Hne : forall r, exists c l, b ++ 10 :: r = c :: l) by (intros r; destruct b; by eexists _, _).
    destruct (Hne rest) as (c & l & E). destruct (Hne []) as (c' & l' & E').
    rewrite E, file_lines_unfold, <- E, fgets_line by (done || lia).
    rewrite E', file_lines_unfold, <- E', fgets_line by (done || lia). done.
  - destruct b as [|c b]; [cbn in Hl; lia|].
    assert (Hd : forall r, file_lines cap ((c :: b) ++ 10 :: r) =
      take (cap - 1) (c :: b) :: file_lines cap (drop (cap - 1) (c :: b) ++ 10 :: r)).
    { intros r. cbn [app]. rewrite file_lines_unfold by done. change (c :: b ++ 10 :: r) with ((c :: b) ++ 10 :: r).
      by rewrite fgets_long by (done || lia). }
    rewrite !Hd. cbn [app]. f_equal. eapply IH; [|reflexivity|].
    + rewrite length_drop. cbn [length] in *. lia.
    + intros Hin. apply Hb. rewrite <- (take_drop (cap - 1) (c :: b)). apply in_or_app. by right.
Qed.
Lemma file_lines_concat cap ts : (1 < cap)%nat -> Forall line_text ts ->
  file_lines cap (concat ts) = concat (file_lines cap <$> ts).
Proof.
  intros Hcap. induction 1 as [|t ts Ht _ IH]; [done|]. cbn [concat fmap list_fmap]. by rewrite file_lines_app, IH.
Qed.
(** A line that fits the buffer is read whole. *)
Lemma file_lines_one cap t : line_text t -> (length t < cap)%nat -> file_lines cap t = [t].
Proof.
  intros (b & -> & Hb) Hl. rewrite length_app in Hl. cbn in Hl.
  assert (Hne : exists c l, b ++ [10] = c :: l) by (destruct b; by eexists _, _). destruct Hne as (c & l & E).
  rewrite E, file_lines_unfold, <- E, fgets_line by (done || lia). done.
Qed.
(** Every piece consists of bytes of the line. *)
Lemma file_lines_pieces cap t : (1 < cap)%nat -> Forall (fun piece => piece <> [] /\ forall x, In x piece -> In x t) (file_lines cap t).
Proof.
  intros Hcap. remember (length t) as k eqn:Hk. revert t Hk. induction k as [k IH] using lt_wf_ind. intros [|c l] ->; [constructor|].
  rewrite file_lines_unfold by done. pose proof (fgets_progress (cap - 1) c l ltac:(lia)) as Hp.
  pose proof (fgets_split (cap - 1) (c :: l)) as Hs. constructor.
  - split.
    + destruct cap as [|[|n]]; [lia|lia|]. cbn. destruct (c =? 10); [done|]. by destruct (fgets n l).
    + intros x Hx. rewrite Hs. apply in_or_app. by left.
  - eapply Forall_impl; [eapply IH; [exact Hp|reflexivity]|]. intros piece [H1 H2]. split; [done|].
    intros x Hx. rewrite Hs. apply in_or_app. right. by apply H2.
Qed.

(** ** The lines the store functions write *)

Inductive sline := LProxy (host : bytes) (port : Z) | LNoproxy | LHistory (on : bool) | LE2ee (fns : list Z).
Inductive group := GProxy | GHistory | GE2ee.
#[export] Instance group_eq_dec : EqDecision group.
Proof. solve_decision. Defined.

Definition group_of (l : sline) : group :=
  match l with LProxy _ _ | LNoproxy => GProxy | LHistory _ => GHistory | LE2ee _ => GE2ee end.
Definition text_of (l : sline) : bytes :=
  match l with
  | LProxy host port => W_PROXY ++ [32] ++ host ++ [32] ++ show_long port ++ [10]
  | LNoproxy => W_NOPROXY ++ [10]
  | LHistory on => W_HISTORY ++ [32] ++ (if on then W_ON else W_OFF) ++ [10]
  | LE2ee fns => e2ee_line fns
  end.

(** A host that [%63s] reads back. *)
Definition host_ok (h : bytes) : Prop := 0 < len h <= 63 /\ Forall (fun c => isspace c = false /\ c <> 0) h.
Definition line_ok (l : sline) : Prop :=
  match l with
  | LProxy h p => host_ok h /\ 0 <= p < 2 ^ 63
  | LE2ee fns => fns <> [] /\ Forall (fun fn => 0 <= fn < TT_MAX_FRIENDS) fns /\ len (e2ee_line fns) <= 511
  | _ => True
  end.

Lemma show_long_pos p : 0 <= p -> show_long p = dec p.
Proof. intros H. unfold show_long. by replace (p <? 0) with false by lia. Qed.

Lemma host_no_char c h : host_ok h -> isspace c = true \/ c = 0 -> ~ In c h.
Proof.
  intros [_ Hh] Hc Hin. rewrite Forall_forall in Hh. apply list_elem_of_In in Hin. destruct (Hh c Hin) as [H1 H2].
  destruct Hc as [Hc| ->]; [congruence|done].
Qed.

Definition e2ee_chars : list Z := [101; 50; 32; 10].
Lemma e2ee_line_chars fns x : In x (e2ee_line fns) -> In x e2ee_chars \/ isdigit x = true.
Proof.
  destruct fns as [|f fns]; [done|]. unfold e2ee_line. rewrite !in_app_iff.
  intros [H|[H|H]].
  - left. cbn in H |- *. tauto.
  - apply in_concat in H as (b & Hb & Hx). apply list_elem_of_In, list_elem_of_fmap in Hb as (fn & -> & _).
    destruct Hx as [<-|Hx]; [left; cbn; tauto|]. right. pose proof (dec_digits fn) as Hd. rewrite Forall_forall in Hd.
    apply Hd. by apply list_elem_of_In.
  - left. cbn in H |- *. tauto.
Qed.

Lemma text_body l : line_ok l -> exists b, text_of l = b ++ [10] /\ ~ In 10 b /\ ~ In 0 b.
Proof.
  intros Hl. destruct l as [h p| |on|fns].
  - exists (W_PROXY ++ [32] ++ h ++ [32] ++ show_long p). cbn [text_of]. rewrite <- !app_assoc. split; [done|].
    destruct Hl as [Hh Hp]. rewrite show_long_pos by lia. rewrite !in_app_iff.
    assert (H10 : ~ In 10 h) by (apply host_no_char; [done|by left]).
    assert (H0 : ~ In 0 h) by (apply host_no_char; [done|by right]).
    pose proof (dec_no_char p 10 eq_refl). pose proof (dec_no_char p 0 eq_refl).
    split; intros [Hi|[Hi|[Hi|[Hi|Hi]]]]; try done; cbn in Hi; intuition lia.
  - exists W_NOPROXY. split; [done|]. split; cbn; intuition lia.
  - exists (W_HISTORY ++ [32] ++ (if on then W_ON else W_OFF)). split; [by destruct on|]. split; destruct on; cbn; intuition lia.
  - destruct Hl as (Hne & _ & _). destruct fns as [|f fns]; [done|]. exists (W_E2EE ++ concat ((fun fn => 32 :: dec fn) <$> f :: fns)).
    split; [unfold text_of, e2ee_line; by rewrite <- app_assoc|].
    assert (H : forall c, isdigit c = false -> c <> 32 -> ~ In c W_E2EE -> ~ In c (W_E2EE ++ concat ((fun fn => 32 :: dec fn) <$> f :: fns))).
    { intros c Hd H32 Hw. rewrite in_app_iff. intros [H|H]; [done|].
      apply in_concat in H as (b & Hb & Hx). apply list_elem_of_In, list_elem_of_fmap in Hb as (fn & -> & _).
      destruct Hx as [Hx|Hx]; [congruence|]. by apply (dec_no_char fn c Hd). }
    split; apply H; try done; cbn; intuition lia.
Qed.
Lemma text_line l : line_ok l -> line_text (text_of l).
Proof. intros Hl. destruct (text_body l Hl) as (b & E & H & _). by exists b. Qed.
Lemma text_cstr l : line_ok l -> cstr (text_of l) = text_of l.
Proof.
  intros Hl. destruct (text_body l Hl) as (b & E & _ & H). apply cstr_no_nul. rewrite E, in_app_iff.
  intros [?|[?|[]]]; [done|lia].
Qed.
(** All lines but the [e2ee] line fit 127 bytes. *)
Lemma text_short l : line_ok l -> group_of l <> GE2ee -> (length (text_of l) < 128)%nat.
Proof.
  intros Hl Hg. destruct l as [h p| |on|fns]; [|cbn; lia|destruct on; cbn; lia|done].
  destruct Hl as [[Hh _] Hp]. cbn [text_of]. rewrite show_long_pos by lia. rewrite !length_app.
  pose proof (len_dec p ltac:(lia)). unfold len in *. cbn [length W_PROXY]. change (length W_PROXY) with 5%nat. lia.
Qed.
Lemma text_fits l : line_ok l -> (length (text_of l) < 512)%nat.
Proof.
  intros Hl. destruct (decide (group_of l = GE2ee)) as [Hg|Hg]; [|pose proof (text_short l Hl Hg); lia].
  destruct l; try done. destruct Hl as (_ & _ & Hl). unfold len in Hl. cbn [text_of]. lia.
Qed.

(** ** What a line starts with *)

Lemma starts_app w rest : ~ In 0 w -> starts w (w ++ rest) = true.
Proof.
  intros Hw. unfold starts. assert (E : exists r, cstr (w ++ rest) = w ++ r).
  { induction w as [|c w IH]; [by eexists|]. cbn. destruct (Z.eqb_spec c 0) as [->|]; [cbn in Hw; tauto|].
    destruct IH as [r ->]; [cbn in Hw; tauto|]. by exists r. }
  destruct E as [r ->]. rewrite ztake_app by done. apply bytes_eqb_refl.
Qed.
(** A different first byte is enough. *)
Lemma starts_head w c line :
  match w with x :: _ => negb (x =? c) | [] => false end = true -> starts w (c :: line) = false.
Proof.
  intros Hw. unfold starts. destruct w as [|x w]; [done|]. apply negb_true_iff, Z.eqb_neq in Hw.
  apply Bool.not_true_iff_false. rewrite bytes_eqb_eq. cbn [cstr]. intros H.
  destruct (c =? 0); [unfold ztake in H; by rewrite take_nil in H|]. rewrite len_cons in H. unfold ztake in H.
  replace (Z.to_nat (1 + len w)) with (S (Z.to_nat (len w))) in H by (pose proof (len_nonneg w); lia).
  cbn in H. congruence.
Qed.

(** ** What the loads make of a line *)

Definition apply_sline (s : TTSettings) (l : sline) : TTSettings :=
  match l with
  | LProxy h p => s <| proxy_set := true |> <| proxy_host := h |> <| proxy_port := p |>
  | LHistory on => s <| history := on |>
  | _ => s
  end.

Lemma scan_word_app n w c rest :
  Forall (fun x => isspace x = false) w -> isspace c = true -> (length w <= n)%nat ->
  scan_word n (w ++ c :: rest) = (w, c :: rest).
Proof.
  intros Hw Hc Hn. revert n Hn. induction Hw as [|x w Hx _ IH]; intros n Hn; cbn [app length] in *.
  - destruct n; [done|]. cbn [scan_word]. by rewrite Hc.
  - destruct n as [|n]; [lia|]. cbn [scan_word]. rewrite Hx, IH by lia. done.
Qed.

Lemma load_line_text l s : line_ok l -> group_of l <> GE2ee -> load_line s (text_of l) = apply_sline s l.
Proof.
  intros Hl Hg. unfold load_line. destruct l as [h p| |on|fns]; [|done|by destruct on|done].
  pose proof Hl as [[Hlen Hh] Hp].
  unfold scan_proxy. cbn [text_of]. rewrite starts_app by (cbn; intuition lia). cbn [negb].
  change (W_PROXY ++ _) with (text_of (LProxy h p)). rewrite text_cstr by done. cbn [text_of].
  rewrite zdrop_app by done. cbn [app drop_space]. change (isspace 32) with true. cbn iota.
  assert (Hns : Forall (fun x => isspace x = false) h) by (eapply Forall_impl; [exact Hh|]; by intros ? []).
  assert (Hd : drop_space (h ++ 32 :: show_long p ++ [10]) = h ++ 32 :: show_long p ++ [10]).
  { destruct Hns as [|x h Hx _]; [change (len []) with 0 in Hlen; lia|]. cbn. by rewrite Hx. }
  rewrite Hd. assert (Hw : scan_word 63 (h ++ 32 :: show_long p ++ [10]) = (h, 32 :: show_long p ++ [10])).
  { apply scan_word_app; [done|done|unfold len in Hlen; lia]. }
  rewrite Hw. replace (len h =? 0) with false by lia. rewrite show_long_pos by lia.
  unfold scan_long. cbn [drop_space]. change (isspace 32) with true. cbn iota.
  destruct (dec_nonempty p) as (c & t & E & Hc). pose proof (isdigit_not_space c Hc) as Hsp.
  assert (Hd2 : drop_space (dec p ++ [10]) = dec p ++ [10]) by (rewrite E; cbn; by rewrite Hsp).
  rewrite Hd2. unfold strtol10. rewrite Hd2.
  pose proof Hc as Hc'. unfold isdigit in Hc'. bool_to_prop.
  assert (Ht : take_digits (dec p ++ [10]) 0 = p) by (apply take_digits_dec; [lia|by intros ? ? [= <- _]]).
  rewrite E in *. cbn [app] in *. replace ((c =? 45) || (c =? 43)) with false by lia. rewrite Hc.
  replace (c =? 45) with false by lia. replace (c =? 43) with false by lia. rewrite Ht, Z.min_l by lia. done.
Qed.

(** A piece of the [e2ee] line is nothing to the other loads and copies. *)
Definition foreign (piece : bytes) : Prop :=
  starts W_PROXY piece = false /\ starts W_NOPROXY piece = false /\ starts W_HISTORY piece = false.
Lemma e2ee_piece_foreign piece fns : piece <> [] -> (forall x, In x piece -> In x (e2ee_line fns)) -> foreign piece.
Proof.
  intros Hne Hx. destruct piece as [|c piece]; [done|]. specialize (Hx c (or_introl eq_refl)).
  apply e2ee_line_chars in Hx.
  assert (Hc : c <> 112 /\ c <> 110 /\ c <> 104).
  { destruct Hx as [Hx|Hx]; [cbn in Hx; lia|]. unfold isdigit in Hx. bool_to_prop. lia. }
  unfold foreign. split_conj; apply starts_head; apply negb_true_iff, Z.eqb_neq; cbn; lia.
Qed.
Lemma load_line_foreign s piece : foreign piece -> load_line s piece = s.
Proof. intros (H1 & _ & H3). unfold load_line, scan_proxy. by rewrite H1, H3. Qed.

Lemma fold_foreign ps s : Forall foreign ps -> fold_left load_line ps s = s.
Proof. intros H. revert s. induction H as [|p ps Hp _ IH]; intros s; cbn; [done|]. by rewrite load_line_foreign. Qed.

Lemma e2ee_pieces_foreign cap l : (1 < cap)%nat -> group_of l = GE2ee -> Forall foreign (file_lines cap (text_of l)).
Proof.
  intros Hcap Hg. destruct l as [| | |fns]; try done. eapply Forall_impl; [by apply file_lines_pieces|].
  intros piece [H1 H2]. by eapply e2ee_piece_foreign.
Qed.

Lemma lines_of cap ls : (1 < cap)%nat -> Forall line_ok ls ->
  file_lines cap (concat (text_of <$> ls)) = concat ((fun l => file_lines cap (text_of l)) <$> ls).
Proof.
  intros Hcap Hls. rewrite file_lines_concat; [|done|].
  - by rewrite <- list_fmap_compose.
  - apply Forall_fmap. eapply Forall_impl; [exact Hls|]. apply text_line.
Qed.

Lemma load_spec ls : Forall line_ok ls ->
  tt_settings_load (Some (concat (text_of <$> ls))) = fold_left apply_sline ls no_settings.
Proof.
  intros Hls. cbn [tt_settings_load]. rewrite lines_of by (done || lia). generalize no_settings.
  induction Hls as [|l ls Hl _ IH]; intros s; [done|]. cbn [fmap list_fmap concat fold_left]. rewrite fold_left_app, IH.
  f_equal. destruct (decide (group_of l = GE2ee)) as [Hg|Hg].
  - rewrite fold_foreign by (apply e2ee_pieces_foreign; [lia|done]). by destruct l.
  - rewrite file_lines_one; [|by apply text_line|by apply text_short]. cbn. by apply load_line_text.
Qed.

(** ** What is copied *)

Definition keeps_groups (gs : list group) (l : sline) : Prop := group_of l ∈ gs.
#[export] Instance keeps_groups_dec gs l : Decision (keeps_groups gs l).
Proof. unfold keeps_groups. apply _. Defined.

Lemma other_group g l : group_of l <> g -> ~ keeps_groups [g] l.
Proof. intros H Hin. by apply list_elem_of_singleton in Hin. Qed.

Lemma copy_spec cap keep gs ls :
  (128 <= cap)%nat -> Forall line_ok ls ->
  (forall l, line_ok l -> (length (text_of l) < cap)%nat -> keep (text_of l) = bool_decide (keeps_groups gs l)) ->
  ((512 <= cap)%nat \/ (GE2ee ∉ gs) /\ forall piece, foreign piece -> keep piece = false) ->
  copy_lines cap keep (Some (concat (text_of <$> ls))) = concat (text_of <$> filter (keeps_groups gs) ls).
Proof.
  intros Hcap Hls Hkeep Hlong. cbn [copy_lines]. rewrite lines_of by (done || lia).
  induction Hls as [|l ls Hl _ IH]; [done|]. cbn [fmap list_fmap concat]. rewrite filter_app, fmap_app, concat_app, IH.
  destruct (decide (length (text_of l) < cap)%nat) as [Hs|Hs].
  - rewrite file_lines_one by (by apply text_line || done).
    rewrite filter_cons. rewrite (filter_cons (keeps_groups gs)). specialize (Hkeep l Hl Hs). rewrite Hkeep.
    destruct (decide (keeps_groups gs l)) as [Hg|Hg].
    + rewrite bool_decide_true by done. destruct (decide (true = true)); [|done]. cbn. by rewrite text_cstr, app_nil_r.
    + rewrite bool_decide_false by done. by destruct (decide (false = true)).
  - pose proof (text_fits l Hl). destruct Hlong as [?|[Hn Hf]]; [lia|].
    assert (Hg : group_of l = GE2ee).
    { destruct (decide (group_of l = GE2ee)) as [|Hne]; [done|]. pose proof (text_short l Hl Hne). lia. }
    rewrite (filter_cons_False (keeps_groups gs)) by (unfold keeps_groups; congruence).
    replace (filter _ (file_lines cap (text_of l))) with (@nil bytes); [done|]. symmetry.
    pose proof (e2ee_pieces_foreign cap l ltac:(lia) Hg) as Hp. induction Hp as [|p ps Hp _ IHp]; [done|].
    rewrite filter_cons_False; [done|]. by rewrite Hf.
Qed.

(** ** The enforced friends *)

Definition set_all (fns : list Z) (r : list bool) : list bool :=
  fold_left (fun r fn => <[Z.to_nat fn := true]> r) fns r.

Lemma parse_friends_line fns : forall fuel r,
  Forall (fun fn => 0 <= fn < TT_MAX_FRIENDS) fns -> (length fns < fuel)%nat ->
  parse_friends fuel (concat ((fun fn => 32 :: dec fn) <$> fns) ++ [10]) r = set_all fns r.
Proof.
  induction fns as [|fn fns IH]; intros [|fuel] r Hf Hn; cbn in Hn; try lia; [done|].
  apply Forall_cons in Hf as [Hfn Hf]. cbn [fmap list_fmap concat parse_friends]. rewrite <- app_assoc. cbn [app drop_blank].
  change (is_blank 32) with true. cbn iota. set (rest := concat _ ++ [10]).
  assert (Hr : forall c t, rest = c :: t -> isdigit c = false).
  { subst rest. destruct fns; cbn; by intros c t [= <- _]. }
  destruct (dec_nonempty fn) as (c & t & E & Hc).
  assert (Hb : drop_blank (dec fn ++ rest) = dec fn ++ rest).
  { rewrite E. cbn. unfold isdigit in Hc. bool_to_prop. unfold is_blank.
    by replace ((c =? 32) || (c =? 9)) with false by lia. }
  rewrite Hb. assert (Ht : take_digits (dec fn ++ rest) 0 = fn) by (apply take_digits_dec; [unfold TT_MAX_FRIENDS in *; lia|done]).
  assert (Hd : drop_digits (dec fn ++ rest) = rest).
  { pose proof (dec_digits fn) as Hds. clear -Hds Hr. induction Hds as [|d ds Hd _ IH]; cbn [app drop_digits]; [|by rewrite Hd].
    destruct rest as [|c t]; [done|]. cbn. by rewrite (Hr c t eq_refl). }
  rewrite E in Ht, Hd |- *. cbn [app] in *. rewrite Hc, Ht, Hd. unfold TT_MAX_FRIENDS in *.
  rewrite Z.min_l by lia. replace (fn <? 256) with true by lia. cbn [set_all fold_left]. apply IH; [done|lia].
Qed.

Lemma set_all_length fns r : length (set_all fns r) = length r.
Proof. revert r. induction fns as [|fn fns IH]; intros r; [done|]. cbn. rewrite IH. apply length_insert. Qed.
Lemma set_all_lookup fns : forall r i, (i < length r)%nat -> Forall (fun fn => 0 <= fn) fns ->
  set_all fns r !! i = if decide (Z.of_nat i ∈ fns) then Some true else r !! i.
Proof.
  induction fns as [|fn fns IH]; intros r i Hi Hf; [done|]. apply Forall_cons in Hf as [Hfn Hf].
  cbn [set_all fold_left]. change (fold_left _ fns ?x) with (set_all fns x). rewrite IH by (by rewrite ?length_insert).
  destruct (decide (Z.of_nat i ∈ fns)) as [H|H].
  - by rewrite decide_True by (by apply list_elem_of_further).
  - destruct (decide (Z.of_nat i = fn)) as [<-|Hne].
    + rewrite Nat2Z.id, list_lookup_insert_eq by done. by rewrite decide_True by apply list_elem_of_here.
    + rewrite list_lookup_insert_ne by lia. rewrite decide_False; [done|]. rewrite elem_of_cons. tauto.
Qed.
(** Writing the numbers of a table and setting them again gives the table. *)
Lemma set_all_friends r : length r = Z.to_nat TT_MAX_FRIENDS -> set_all (friends_set r) none_required = r.
Proof.
  intros Hr. assert (Hn : Forall (fun fn => 0 <= fn) (friends_set r)).
  { apply Forall_forall. intros fn Hfn. apply list_elem_of_filter in Hfn as [_ Hfn]. apply elem_of_seqZ in Hfn. lia. }
  apply list_eq. intros i. destruct (decide (i < Z.to_nat TT_MAX_FRIENDS)%nat) as [Hi|Hi]; cycle 1.
  { rewrite !lookup_ge_None_2; [done| |]; rewrite ?set_all_length; unfold none_required; rewrite ?length_replicate; lia. }
  rewrite set_all_lookup by (done || unfold none_required; by rewrite length_replicate).
  destruct (lookup_lt_is_Some_2 r i) as [b Hb]; [lia|]. rewrite Hb. unfold friends_set.
  destruct (decide _) as [Hin|Hin].
  - apply list_elem_of_filter in Hin as [Hin _]. rewrite Nat2Z.id in Hin. congruence.
  - unfold none_required. rewrite lookup_replicate_2 by lia. destruct b; [|done]. destruct Hin.
    apply list_elem_of_filter. rewrite Nat2Z.id. split; [done|]. apply elem_of_seqZ. unfold TT_MAX_FRIENDS in *. lia.
Qed.

Definition e2ee_of (ls : list sline) : list bool :=
  match filter (keeps_groups [GE2ee]) ls with
  | LE2ee fns :: _ => set_all fns none_required
  | _ => none_required
  end.

Lemma e2ee_line_starts fns : fns <> [] -> starts W_E2EE (e2ee_line fns) = true.
Proof. destruct fns; [done|]. intros _. apply starts_app. cbn. intuition lia. Qed.
Lemma other_line_starts l : line_ok l -> group_of l <> GE2ee -> starts W_E2EE (text_of l) = false.
Proof. intros Hl Hg. destruct l; try done; by apply starts_head. Qed.

Lemma load_e2ee_spec ls : Forall line_ok ls ->
  tt_settings_load_e2ee (Some (concat (text_of <$> ls))) = e2ee_of ls.
Proof.
  intros Hls. cbn [tt_settings_load_e2ee]. rewrite lines_of by (done || lia). unfold e2ee_of.
  induction Hls as [|l ls Hl _ IH]; [done|]. cbn [fmap list_fmap concat].
  rewrite file_lines_one; [|by apply text_line|by apply text_fits]. cbn [app load_e2ee_lines].
  destruct (decide (group_of l = GE2ee)) as [Hg|Hg].
  - rewrite filter_cons_True by (unfold keeps_groups; rewrite Hg; apply list_elem_of_here).
    destruct l as [| | |fns]; try done. pose proof Hl as (Hne & Hf & _). rewrite text_cstr by done. cbn [text_of].
    rewrite e2ee_line_starts by done. destruct fns as [|f fns]; [done|]. unfold e2ee_line at 2.
    rewrite zdrop_app by done. apply parse_friends_line; [done|].
    unfold e2ee_line. rewrite !length_app. change (length W_E2EE) with 4%nat.
    assert (H : forall l, (length l <= length (concat ((fun fn => 32%Z :: dec fn) <$> l)))%nat).
    { clear. induction l as [|x l IH]; [done|]. cbn [fmap list_fmap concat length]. rewrite length_app. cbn [length]. lia. }
    specialize (H (f :: fns)). lia.
  - rewrite filter_cons_False by by apply other_group.
    by rewrite other_line_starts.
Qed.

(** ** What the store functions write *)

Lemma starts_proxy l : line_ok l -> starts W_PROXY (text_of l) || starts W_NOPROXY (text_of l) = bool_decide (group_of l = GProxy).
Proof.
  intros Hl. destruct l as [h p| |on|fns]; cbn [text_of group_of].
  - rewrite starts_app by (cbn; intuition lia). done.
  - done.
  - by destruct on.
  - destruct Hl as (Hne & _). destruct fns as [|f fns]; [done|]. cbn. by rewrite !starts_head.
Qed.
Lemma starts_history l : line_ok l -> starts W_HISTORY (text_of l) = bool_decide (group_of l = GHistory).
Proof.
  intros Hl. destruct l as [h p| |on|fns]; cbn [text_of group_of].
  - by apply starts_head.
  - done.
  - by destruct on.
  - destruct Hl as (Hne & _). destruct fns as [|f fns]; [done|]. by apply starts_head.
Qed.
Lemma starts_e2ee l : line_ok l -> starts W_E2EE (text_of l) = bool_decide (group_of l = GE2ee).
Proof.
  intros Hl. destruct (decide (group_of l = GE2ee)) as [Hg|Hg].
  - rewrite bool_decide_true by done. destruct l; try done. apply e2ee_line_starts. by destruct Hl.
  - rewrite bool_decide_false by done. by apply other_line_starts.
Qed.

Lemma store_proxy_spec h p ls : Forall line_ok ls -> h = [] \/ host_ok h ->
  tt_settings_store_proxy h p (Some (concat (text_of <$> ls))) =
  concat (text_of <$> (if decide (h = []) then LNoproxy else LProxy h p) :: filter (keeps_groups [GHistory; GE2ee]) ls).
Proof.
  intros Hls Hh. unfold tt_settings_store_proxy.
  rewrite (copy_spec _ _ [GHistory; GE2ee]); [|lia|done| |by left; lia].
  - cbn [fmap list_fmap concat]. f_equal. destruct (decide (h = [])) as [->|Hne]; [done|]. destruct Hh as [?|Hh]; [done|].
    rewrite cstr_no_nul by (apply host_no_char; [done|by right]). destruct Hh as [Hlen _].
    by replace (0 <? len h) with true by lia.
  - intros l Hl _. rewrite starts_history, starts_e2ee by done. by destruct l.
Qed.
Lemma store_history_spec on ls : Forall line_ok ls ->
  tt_settings_store_history on (Some (concat (text_of <$> ls))) =
  concat (text_of <$> filter (keeps_groups [GProxy; GE2ee]) ls ++ [LHistory on]).
Proof.
  intros Hls. unfold tt_settings_store_history.
  rewrite (copy_spec _ _ [GProxy; GE2ee]); [|lia|done| |by left; lia].
  - rewrite fmap_app, concat_app. cbn [fmap list_fmap concat]. by rewrite app_nil_r.
  - intros l Hl _. rewrite starts_proxy, starts_e2ee by done. by destruct l.
Qed.
Definition e2ee_lines (r : list bool) : list sline := match friends_set r with [] => [] | fns => [LE2ee fns] end.
Lemma store_e2ee_spec r ls : Forall line_ok ls ->
  tt_settings_store_e2ee r (Some (concat (text_of <$> ls))) =
  concat (text_of <$> filter (keeps_groups [GProxy; GHistory]) ls ++ e2ee_lines r).
Proof.
  intros Hls. unfold tt_settings_store_e2ee.
  rewrite (copy_spec _ _ [GProxy; GHistory]); [|lia|done| |].
  - rewrite fmap_app, concat_app. f_equal. unfold e2ee_lines. destruct (friends_set r); [done|].
    cbn [fmap list_fmap concat]. by rewrite app_nil_r.
  - intros l Hl _. rewrite starts_proxy, starts_history by done. by destruct l.
  - right. split; [intros Hin; apply list_elem_of_In in Hin; cbn in Hin; intuition congruence|]. intros piece (H1 & H2 & H3). by rewrite H1, H2, H3.
Qed.

(** ** The three groups are independent *)

Definition proxy_after (ls : list sline) (pr : option (bytes * Z)) : option (bytes * Z) :=
  fold_left (fun pr l => match l with LProxy h p => Some (h, p) | _ => pr end) ls pr.
Definition history_after (ls : list sline) (b : bool) : bool :=
  fold_left (fun b l => match l with LHistory on => on | _ => b end) ls b.
Definition settings_with (pr : option (bytes * Z)) (b : bool) : TTSettings :=
  match pr with Some (h, p) => mkSettings true h p b | None => mkSettings false [] 0 b end.

Lemma settings_parts ls pr b :
  fold_left apply_sline ls (settings_with pr b) = settings_with (proxy_after ls pr) (history_after ls b).
Proof.
  revert pr b. induction ls as [|l ls IH]; intros pr b; [done|]. cbn [fold_left].
  replace (apply_sline (settings_with pr b) l) with
    (settings_with (match l with LProxy h p => Some (h, p) | _ => pr end) (match l with LHistory on => on | _ => b end))
    by (destruct l, pr as [[h p]|]; done).
  apply IH.
Qed.

Lemma proxy_after_filter gs ls pr :
  proxy_after (filter (keeps_groups gs) ls) pr = if decide (GProxy ∈ gs) then proxy_after ls pr else pr.
Proof.
  revert pr. induction ls as [|l ls IH]; intros pr; [by destruct (decide _)|]. rewrite filter_cons.
  destruct (decide (keeps_groups gs l)) as [H|H]; unfold keeps_groups in H.
  - cbn [proxy_after fold_left]. change (fold_left _ (filter _ ls) ?x) with (proxy_after (filter (keeps_groups gs) ls) x).
    rewrite IH. destruct (decide (GProxy ∈ gs)); [done|]. by destruct l.
  - rewrite IH. destruct (decide (GProxy ∈ gs)); [|done]. by destruct l.
Qed.
Lemma history_after_filter gs ls b :
  history_after (filter (keeps_groups gs) ls) b = if decide (GHistory ∈ gs) then history_after ls b else b.
Proof.
  revert b. induction ls as [|l ls IH]; intros b; [by destruct (decide _)|]. rewrite filter_cons.
  destruct (decide (keeps_groups gs l)) as [H|H]; unfold keeps_groups in H.
  - cbn [history_after fold_left]. change (fold_left _ (filter _ ls) ?x) with (history_after (filter (keeps_groups gs) ls) x).
    rewrite IH. destruct (decide (GHistory ∈ gs)); [done|]. by destruct l.
  - rewrite IH. destruct (decide (GHistory ∈ gs)); [|done]. by destruct l.
Qed.
Lemma filter_e2ee gs ls :
  filter (keeps_groups [GE2ee]) (filter (keeps_groups gs) ls) =
  if decide (GE2ee ∈ gs) then filter (keeps_groups [GE2ee]) ls else [].
Proof.
  rewrite list_filter_filter. destruct (decide (GE2ee ∈ gs)) as [H|H].
  - apply list_filter_iff. intros l. unfold keeps_groups. rewrite list_elem_of_singleton. intuition congruence.
  - induction ls as [|l ls IH]; [done|]. rewrite filter_cons_False; [exact IH|].
    unfold keeps_groups. rewrite list_elem_of_singleton. intuition congruence.
Qed.

(** ** The file as a record of three settings *)

Inductive setting := SetProxy (host : bytes) (port : Z) | SetHistory (on : bool) | SetE2ee (required : list bool).

Definition store (f : option bytes) (s : setting) : option bytes :=
  Some (match s with
        | SetProxy h p => tt_settings_store_proxy h p f
        | SetHistory on => tt_settings_store_history on f
        | SetE2ee r => tt_settings_store_e2ee r f
        end).
(** What storing means. *)
Definition update (st : TTSettings * list bool) (s : setting) : TTSettings * list bool :=
  match s with
  | SetProxy h p => (settings_with (if decide (h = []) then None else Some (h, p)) (history st.1), st.2)
  | SetHistory on => (st.1 <| history := on |>, st.2)
  | SetE2ee r => (st.1, r)
  end.
Definition setting_ok (s : setting) : Prop :=
  match s with
  | SetProxy h p => h = [] \/ (host_ok h /\ 0 <= p < 2 ^ 63)
  | SetHistory _ => True
  | SetE2ee r => length r = Z.to_nat TT_MAX_FRIENDS /\ len (e2ee_line (friends_set r)) <= 511
  end.

(** The lines of a file after a store. *)
Definition store_lines (ls : list sline) (s : setting) : list sline :=
  match s with
  | SetProxy h p => (if decide (h = []) then LNoproxy else LProxy h p) :: filter (keeps_groups [GHistory; GE2ee]) ls
  | SetHistory on => filter (keeps_groups [GProxy; GE2ee]) ls ++ [LHistory on]
  | SetE2ee r => filter (keeps_groups [GProxy; GHistory]) ls ++ e2ee_lines r
  end.

Lemma filter_ok gs ls : Forall line_ok ls -> Forall line_ok (filter (keeps_groups gs) ls).
Proof. intros H. apply Forall_forall. intros l Hl. apply list_elem_of_filter in Hl as [_ Hl]. rewrite Forall_forall in H. by apply H. Qed.

Lemma store_lines_ok ls s : Forall line_ok ls -> setting_ok s -> Forall line_ok (store_lines ls s).
Proof.
  intros Hls Hs. destruct s as [h p|on|r]; cbn [store_lines].
  - constructor; [|by apply filter_ok]. destruct (decide (h = [])); [done|]. by destruct Hs.
  - apply Forall_app. split; [by apply filter_ok|]. by repeat constructor.
  - apply Forall_app. split; [by apply filter_ok|]. unfold e2ee_lines. destruct Hs as [Hr Hl].
    destruct (friends_set r) as [|f fns] eqn:E; [done|]. constructor; [|done]. split; [done|]. split; [|done].
    rewrite <- E. apply Forall_forall. intros fn Hfn. apply list_elem_of_filter in Hfn as [_ Hfn]. apply elem_of_seqZ in Hfn. lia.
Qed.
Lemma store_text ls s : Forall line_ok ls -> setting_ok s ->
  store (Some (concat (text_of <$> ls))) s = Some (concat (text_of <$> store_lines ls s)).
Proof.
  intros Hls Hs. destruct s as [h p|on|r]; unfold store; cbn [store_lines]; f_equal.
  - apply store_proxy_spec; [done|]. destruct Hs as [?|[? _]]; [by left|by right].
  - by apply store_history_spec.
  - by apply store_e2ee_spec.
Qed.

(** The three loads on a list of lines. *)
Definition values (ls : list sline) : TTSettings * list bool :=
  (settings_with (proxy_after ls None) (history_after ls false), e2ee_of ls).

Lemma e2ee_of_app_lines ls r : length r = Z.to_nat TT_MAX_FRIENDS ->
  e2ee_of (filter (keeps_groups [GProxy; GHistory]) ls ++ e2ee_lines r) = r.
Proof.
  intros Hr. unfold e2ee_of. rewrite filter_app, filter_e2ee.
  rewrite decide_False by (intros Hin; apply list_elem_of_In in Hin; cbn in Hin; intuition congruence). cbn [app].
  pose proof (set_all_friends r Hr) as H. unfold e2ee_lines. destruct (friends_set r) as [|f fns]; [done|].
  rewrite filter_cons_True by apply list_elem_of_here. exact H.
Qed.
Lemma values_store ls s : setting_ok s -> values (store_lines ls s) = update (values ls) s.
Proof.
  assert (Hin : forall (g : group) gs, In g gs -> g ∈ gs) by (intros; by apply list_elem_of_In).
  assert (Hnot : forall (g : group) gs, ~ In g gs -> g ∉ gs) by (intros g gs H Hg; apply H; by apply list_elem_of_In).
  intros Hs. unfold values. destruct s as [h p|on|r]; cbn [store_lines update fst snd].
  - f_equal.
    + replace (history (settings_with _ _)) with (history_after ls false) by by destruct (proxy_after ls None) as [[]|].
      f_equal.
      * destruct (decide (h = [])); cbn [proxy_after fold_left]; [change (fold_left _ ?l ?x) with (proxy_after l x)|change (fold_left _ ?l ?x) with (proxy_after l x)];
          rewrite proxy_after_filter, decide_False by (apply Hnot; cbn; intuition congruence); done.
      * transitivity (history_after (filter (keeps_groups [GHistory; GE2ee]) ls) false); [by destruct (decide _)|].
        rewrite history_after_filter. by rewrite decide_True by (apply Hin; cbn; tauto).
    + unfold e2ee_of. rewrite filter_cons_False by (apply other_group; by destruct (decide _)).
      rewrite filter_e2ee. by rewrite decide_True by (apply Hin; cbn; tauto).
  - f_equal.
    + unfold proxy_after, history_after. rewrite !fold_left_app. cbn [fold_left].
      change (fold_left _ (filter ?q ls) None) with (proxy_after (filter q ls) None).
      rewrite proxy_after_filter, decide_True by (apply Hin; cbn; tauto).
      unfold proxy_after. by destruct (fold_left _ ls None) as [[]|].
    + unfold e2ee_of. rewrite filter_app, filter_e2ee. rewrite decide_True by (apply Hin; cbn; tauto).
      rewrite (filter_cons_False _ (LHistory on)) by by apply other_group. by rewrite app_nil_r.
  - destruct Hs as [Hr _]. f_equal; [|by apply e2ee_of_app_lines].
    assert (He : forall pr b, proxy_after (e2ee_lines r) pr = pr /\ history_after (e2ee_lines r) b = b)
      by (intros; unfold e2ee_lines; by destruct (friends_set r)).
    unfold proxy_after, history_after. rewrite !fold_left_app.
    change (fold_left _ (filter ?q ls) None) with (proxy_after (filter q ls) None).
    change (fold_left _ (filter ?q ls) false) with (history_after (filter q ls) false).
    change (fold_left _ (e2ee_lines r) ?x) with (proxy_after (e2ee_lines r) x) at 1.
    rewrite (proj1 (He _ false)), proxy_after_filter, decide_True by (apply Hin; cbn; tauto). f_equal.
    change (fold_left _ (e2ee_lines r) ?x) with (history_after (e2ee_lines r) x).
    rewrite (proj2 (He None _)), history_after_filter. by rewrite decide_True by (apply Hin; cbn; tauto).
Qed.



(** A large set of enforced friends is forgotten.  With all 256 friends
    enforced the line is 919 bytes long; the load reads 511 of them, so that
    after a restart encryption is required from friends 0 to 153 only.  Storing
    the history switch afterwards cuts the line and glues the switch to it, so
    that this setting is lost as well. *)
Theorem enforced_set_truncated :
  let f := tt_settings_store_e2ee (replicate 256 true) None in
  let g := tt_settings_store_history true (Some f) in
  tt_settings_load_e2ee (Some f) = replicate 154 true ++ replicate 102 false /\
  history (tt_settings_load (Some g)) = false.
Proof. split; vm_compute; reflexivity. Qed.
