(* ===== verification/Crypto.v ===== *)
(** * Crypto: the primitives layer ([src/crypto/aead.c], [kdf.c], [kem.c])

    libsodium and the SNTRUP761 implementation are third-party code: they are
    the operations of the class [Prims], and what the layer relies on of their
    documented behaviour is the class [PrimLaws].  Everything of [src/crypto]
    itself is a definition over them. *)
From S2P Require Import Prelude.

(** ** Sizes ([src/crypto/crypto.h]) *)

Definition TT_KEY32 : Z := 32.
Definition TT_KEM_PK : Z := 1158.
Definition TT_KEM_SK : Z := 1763.
Definition TT_KEM_CT : Z := 1039.
Definition TT_MAC16 : Z := 16.
Definition TT_NONCE12 : Z := 12.
Definition TT_NONCE24 : Z := 24.
Definition TT_IKM128 : Z := 128.

Inductive TTCipher := TT_AEAD_XCHACHA | TT_AEAD_AESGCM.

#[export] Instance TTCipher_eq_dec : EqDecision TTCipher.
Proof. solve_decision. Defined.

(** ** Third-party operations

    The random number generator is explicit state.  [scalarmult] returns
    [None] where [crypto_scalarmult] returns -1 (an all-zero shared secret);
    the decryptors return [None] where libsodium reports an authentication
    failure.  [generichash n key msg] is [crypto_generichash] with an
    [n]-byte output; its streaming form hashes the concatenation of the
    updates. *)
Class Prims := {
  Rng : Type;
  randombytes : Z -> Rng -> bytes * Rng;
  scalarmult_base : bytes -> bytes;
  scalarmult : bytes -> bytes -> option bytes;
  generichash : Z -> bytes -> bytes -> bytes;
  aes256gcm_is_available : bool;
  aes256gcm_encrypt : bytes -> bytes -> bytes -> bytes -> bytes;
  aes256gcm_decrypt : bytes -> bytes -> bytes -> bytes -> option bytes;
  xchacha_encrypt : bytes -> bytes -> bytes -> bytes -> bytes;
  xchacha_decrypt : bytes -> bytes -> bytes -> bytes -> option bytes;
  sntrup761_keypair : Rng -> (bytes * bytes) * Rng;
  sntrup761_enc : bytes -> Rng -> (bytes * bytes) * Rng;
  sntrup761_dec : bytes -> bytes -> bytes;
}.

(** Documented behaviour: fixed output sizes, decryption inverts encryption
    and accepts nothing but an encryption of what it returns, Diffie-Hellman
    legs agree and fail for no public key made from a secret key (only for
    low-order points), and SNTRUP761 decapsulates what was encapsulated. *)
Class PrimLaws (P : Prims) : Prop := {
  randombytes_len n r : 0 <= n -> len (randombytes n r).1 = n;
  randombytes_bytes n r : all_bytes (randombytes n r).1;
  scalarmult_base_len sk : len (scalarmult_base sk) = TT_KEY32;
  scalarmult_len sk pk k : scalarmult sk pk = Some k -> len k = TT_KEY32;
  scalarmult_comm a b :
    scalarmult a (scalarmult_base b) = scalarmult b (scalarmult_base a);
  scalarmult_honest a b : is_Some (scalarmult a (scalarmult_base b));
  generichash_len n key msg : 0 <= n <= 64 -> len (generichash n key msg) = n;
  generichash_bytes n key msg : all_bytes (generichash n key msg);
  aes256gcm_encrypt_len key nonce ad pt :
    len (aes256gcm_encrypt key nonce ad pt) = len pt + TT_MAC16;
  aes256gcm_decrypt_iff key nonce ad ct pt :
    aes256gcm_decrypt key nonce ad ct = Some pt <->
    ct = aes256gcm_encrypt key nonce ad pt;
  xchacha_encrypt_len key nonce ad pt :
    len (xchacha_encrypt key nonce ad pt) = len pt + TT_MAC16;
  xchacha_decrypt_iff key nonce ad ct pt :
    xchacha_decrypt key nonce ad ct = Some pt <->
    ct = xchacha_encrypt key nonce ad pt;
  sntrup761_keypair_len r pk sk r' :
    sntrup761_keypair r = ((pk, sk), r') -> len pk = TT_KEM_PK /\ len sk = TT_KEM_SK;
  sntrup761_enc_len pk r ct ss r' :
    sntrup761_enc pk r = ((ct, ss), r') -> len ct = TT_KEM_CT /\ len ss = TT_KEY32;
  sntrup761_correct r pk sk r1 r2 ct ss r3 :
    sntrup761_keypair r = ((pk, sk), r1) ->
    sntrup761_enc pk r2 = ((ct, ss), r3) ->
    sntrup761_dec ct sk = ss;
}.

Section crypto.
Context {P : Prims}.

(** ** AEAD ([src/crypto/aead.c]) *)

Definition tt_aead_gcm_available : bool := aes256gcm_is_available.

Definition tt_aead_pick : TTCipher :=
  if tt_aead_gcm_available then TT_AEAD_AESGCM else TT_AEAD_XCHACHA.

Definition tt_aead_nonce_len (c : TTCipher) : Z :=
  match c with TT_AEAD_AESGCM => TT_NONCE12 | TT_AEAD_XCHACHA => TT_NONCE24 end.

(** [None] is the C return value -1. GCM consumes the first 12 bytes of the
    nonce buffer, XChaCha the first 24. *)
Definition tt_aead_seal (c : TTCipher) (key nonce ad pt : bytes) : option bytes :=
  match c with
  | TT_AEAD_AESGCM =>
      if negb tt_aead_gcm_available then None else
      let ct := aes256gcm_encrypt key (ztake TT_NONCE12 nonce) ad pt in
      if len ct =? len pt + TT_MAC16 then Some ct else None
  | TT_AEAD_XCHACHA =>
      let ct := xchacha_encrypt key (ztake TT_NONCE24 nonce) ad pt in
      if len ct =? len pt + TT_MAC16 then Some ct else None
  end.

Definition tt_aead_open (c : TTCipher) (key nonce ad ct : bytes) : option bytes :=
  if len ct <? TT_MAC16 then None else
  match c with
  | TT_AEAD_AESGCM =>
      if negb tt_aead_gcm_available then None else
      aes256gcm_decrypt key (ztake TT_NONCE12 nonce) ad ct
  | TT_AEAD_XCHACHA => xchacha_decrypt key (ztake TT_NONCE24 nonce) ad ct
  end.

(** ** X25519 and key derivation ([src/crypto/kdf.c]) *)

Definition tt_dh_keygen (r : Rng) : (bytes * bytes) * Rng :=
  let '(sk, r) := randombytes TT_KEY32 r in
  ((scalarmult_base sk, sk), r).

Definition tt_dh_shared (sk pk : bytes) : option bytes := scalarmult sk pk.

(** The domain keys, as ASCII codes. *)
Definition kdf_root_salt : bytes :=  (* "TTZ1-root-extract", zero padded to 32 *)
  [84; 84; 90; 49; 45; 114; 111; 111; 116; 45; 101; 120; 116; 114; 97; 99; 116]
    ++ zrep 15 0.
Definition kdf_rs_ctx : bytes := [84; 84; 90; 49; 45; 114; 115; 0]. (* "TTZ1-rs" *)
Definition kdf_ch_ctx : bytes := [84; 84; 90; 49; 45; 99; 104; 0].  (* "TTZ1-ch" *)
Definition kdf_mk_ctx : bytes := [84; 84; 90; 49; 45; 109; 107; 0]. (* "TTZ1-mk" *)

Definition tt_kdf_root (ikm ctx : bytes) : bytes :=
  generichash TT_KEY32 kdf_root_salt (ikm ++ ctx).

(** [(new_root, chain)] *)
Definition tt_kdf_root_step (root dh kem : bytes) : bytes * bytes :=
  let ikm := ztake TT_KEY32 root ++ ztake TT_KEY32 dh ++ ztake TT_KEY32 kem in
  let out := generichash 64 kdf_rs_ctx ikm in
  (zsub 0 TT_KEY32 out, zsub TT_KEY32 TT_KEY32 out).

(** [(new_chain, msg_key)] *)
Definition tt_kdf_chain_step (chain : bytes) : bytes * bytes :=
  let out := generichash 64 kdf_ch_ctx chain in
  (zsub TT_KEY32 TT_KEY32 out, zsub 0 TT_KEY32 out).

(** [(enc_key, nonce)] *)
Definition tt_kdf_msg_material (msg_key : bytes) : bytes * bytes :=
  let out := generichash (TT_KEY32 + TT_NONCE24) kdf_mk_ctx msg_key in
  (zsub 0 TT_KEY32 out, zsub TT_KEY32 TT_NONCE24 out).

(** ** SNTRUP761 glue ([src/crypto/kem.c]) *)

Definition tt_kem_keygen (r : Rng) : (bytes * bytes) * Rng := sntrup761_keypair r.

Definition tt_kem_enc (pk : bytes) (r : Rng) : (bytes * bytes) * Rng :=
  let '((ct, ss_full), r) := sntrup761_enc pk r in
  ((ct, ztake TT_KEY32 ss_full), r).

Definition tt_kem_dec (ct sk : bytes) : bytes := ztake TT_KEY32 (sntrup761_dec ct sk).
End crypto.

Create HintDb crypto.

Section crypto_laws.
Context {P : Prims} {L : PrimLaws P}.

Lemma tt_aead_seal_len c key nonce ad pt ct :
  tt_aead_seal c key nonce ad pt = Some ct -> len ct = len pt + TT_MAC16.
Proof. destruct c; cbn; repeat case_goal; intros; simplify_eq; bool_to_prop; done. Qed.

(** A cipher the CPU can run never fails to seal. *)
Lemma tt_aead_seal_some c key nonce ad pt :
  (c = TT_AEAD_AESGCM -> tt_aead_gcm_available = true) ->
  is_Some (tt_aead_seal c key nonce ad pt).
Proof.
  intros H. destruct c; cbn.
  - rewrite xchacha_encrypt_len, Z.eqb_refl. eauto.
  - rewrite (H eq_refl). cbn. rewrite aes256gcm_encrypt_len, Z.eqb_refl. eauto.
Qed.

(** Sealing and opening are mutually inverse: opening accepts exactly the
    outputs of sealing under the same key, nonce and associated data. *)
Lemma tt_aead_open_iff c key nonce ad ct pt :
  tt_aead_open c key nonce ad ct = Some pt <->
  tt_aead_seal c key nonce ad pt = Some ct.
Proof.
  unfold tt_aead_open.
  destruct c; cbn.
  - rewrite xchacha_encrypt_len, Z.eqb_refl.
    destruct (Z.ltb_spec (len ct) TT_MAC16) as [Hs|Hs].
    + split; [done|]. intros [= <-]. rewrite xchacha_encrypt_len in Hs.
      pose proof (len_nonneg pt). lia.
    + rewrite xchacha_decrypt_iff. split; [intros -> | intros [= <-]]; done.
  - destruct tt_aead_gcm_available; cbn; [|by destruct (_ <? _)].
    rewrite aes256gcm_encrypt_len, Z.eqb_refl.
    destruct (Z.ltb_spec (len ct) TT_MAC16) as [Hs|Hs].
    + split; [done|]. intros [= <-]. rewrite aes256gcm_encrypt_len in Hs.
      pose proof (len_nonneg pt). lia.
    + rewrite aes256gcm_decrypt_iff. split; [intros -> | intros [= <-]]; done.
Qed.

Lemma tt_dh_shared_comm a b :
  tt_dh_shared a (scalarmult_base b) = tt_dh_shared b (scalarmult_base a).
Proof. apply scalarmult_comm. Qed.

Lemma tt_dh_shared_len sk pk k : tt_dh_shared sk pk = Some k -> len k = TT_KEY32.
Proof. apply scalarmult_len. Qed.

Lemma tt_dh_keygen_spec r pk sk r' :
  tt_dh_keygen r = ((pk, sk), r') ->
  pk = scalarmult_base sk /\ len pk = TT_KEY32 /\ len sk = TT_KEY32.
Proof.
  unfold tt_dh_keygen. destruct (randombytes TT_KEY32 r) as [sk0 r0] eqn:E.
  intros [= <- <- <-]. split; [done|]. rewrite scalarmult_base_len. split; [done|].
  pose proof (randombytes_len TT_KEY32 r ltac:(done)) as Hl. by rewrite E in Hl.
Qed.

Lemma tt_kem_keygen_len r pk sk r' :
  tt_kem_keygen r = ((pk, sk), r') -> len pk = TT_KEM_PK /\ len sk = TT_KEM_SK.
Proof. apply sntrup761_keypair_len. Qed.

Lemma tt_kem_enc_len pk r ct ss r' :
  tt_kem_enc pk r = ((ct, ss), r') -> len ct = TT_KEM_CT /\ len ss = TT_KEY32.
Proof.
  unfold tt_kem_enc. destruct (sntrup761_enc pk r) as [[c s] r0] eqn:E.
  intros [= <- <- <-]. destruct (sntrup761_enc_len _ _ _ _ _ E) as [-> Hs].
  split; [done|]. by rewrite ztake_all by lia.
Qed.

Lemma tt_kem_correct r pk sk r1 r2 ct ss r3 :
  tt_kem_keygen r = ((pk, sk), r1) ->
  tt_kem_enc pk r2 = ((ct, ss), r3) ->
  tt_kem_dec ct sk = ss.
Proof.
  unfold tt_kem_keygen, tt_kem_enc, tt_kem_dec. intros H1.
  destruct (sntrup761_enc pk r2) as [[c s] r0] eqn:E. intros [= <- <- <-].
  by rewrite (sntrup761_correct _ _ _ _ _ _ _ _ H1 E).
Qed.

Lemma tt_kdf_root_len ikm ctx : len (tt_kdf_root ikm ctx) = TT_KEY32.
Proof. apply generichash_len. unfold TT_KEY32; lia. Qed.
Lemma tt_kdf_root_bytes ikm ctx : all_bytes (tt_kdf_root ikm ctx).
Proof. apply generichash_bytes. Qed.

Lemma tt_kdf_root_step_len root dh kem :
  len (tt_kdf_root_step root dh kem).1 = TT_KEY32 /\
  len (tt_kdf_root_step root dh kem).2 = TT_KEY32.
Proof.
  cbn -[zsub generichash]. rewrite !len_zsub; rewrite ?generichash_len;
    unfold TT_KEY32; auto; lia.
Qed.

Lemma tt_kdf_chain_step_len chain :
  len (tt_kdf_chain_step chain).1 = TT_KEY32 /\
  len (tt_kdf_chain_step chain).2 = TT_KEY32.
Proof.
  cbn -[zsub generichash]. rewrite !len_zsub; rewrite ?generichash_len;
    unfold TT_KEY32; auto; lia.
Qed.

Lemma tt_kdf_msg_material_len mk :
  len (tt_kdf_msg_material mk).1 = TT_KEY32 /\
  len (tt_kdf_msg_material mk).2 = TT_NONCE24.
Proof.
  unfold tt_kdf_msg_material. cbn [fst snd].
  rewrite !len_zsub; rewrite ?generichash_len; unfold TT_KEY32, TT_NONCE24; auto; lia.
Qed.

Lemma tt_kdf_msg_material_bytes mk : all_bytes (tt_kdf_msg_material mk).2.
Proof. apply all_bytes_ztake, all_bytes_zdrop, generichash_bytes. Qed.
End crypto_laws.

#[export] Hint Resolve tt_kdf_root_len tt_kdf_root_bytes tt_dh_shared_len
  tt_kdf_msg_material_bytes : crypto.
