(* ===== verification/SampleCrypto.v ===== *)
(** * SampleCrypto: a concrete instance of the primitives

    No cryptography: an executable instance of [Prims] that satisfies every
    law of [PrimLaws].  It shows that the laws are consistent and lets the
    witnesses run the model on concrete inputs. *)
From S2P Require Import Prelude Crypto.

Definition mix (seed : Z) (l : bytes) : Z :=
  fold_left (fun h b => (h * 257 + b + 1) mod 2305843009213693951) l seed.

Definition spread (n h : Z) : bytes :=
  (fun i => u8 (h / 2 ^ (i mod 53) + 37 * i)) <$> seqZ 0 n.

Definition sample_hash (n : Z) (key msg : bytes) : bytes :=
  spread n (mix (mix 7 key) msg).

Definition xor_bytes (a b : bytes) : bytes := zip_with Z.lxor a b.

Definition to32 (l : bytes) : bytes := ztake 32 (l ++ zrep 32 0).

(** Public keys are marked by a first byte 1; the zero key is low-order. *)
Definition sample_base (sk : bytes) : bytes := 1 :: ztake 31 (to32 sk).

Definition sample_dh (sk pk : bytes) : option bytes :=
  if bytes_eqb (to32 pk) (zrep 32 0) then None
  else Some (xor_bytes (sample_base sk) (to32 pk)).

Definition sample_seal (key nonce ad pt : bytes) : bytes :=
  pt ++ sample_hash TT_MAC16 key (nonce ++ ad ++ pt).

Definition sample_open (key nonce ad ct : bytes) : option bytes :=
  let pt := ztake (len ct - TT_MAC16) ct in
  if bytes_eqb ct (sample_seal key nonce ad pt) then Some pt else None.

Definition sample_random (n : Z) (r : Z) : bytes * Z := (spread n (mix 11 [r]), r + 1).

(** Lamport-style toy KEM: the public key is a prefix of the secret key. *)
Definition sample_keypair (r : Z) : (bytes * bytes) * Z :=
  let '(sk, r) := sample_random TT_KEM_SK r in
  ((ztake TT_KEM_PK sk, sk), r).
Definition kem_secret (pk ct : bytes) : bytes :=
  sample_hash TT_KEY32 (ztake 64 pk) (ztake 64 ct).
Definition sample_enc (pk : bytes) (r : Z) : (bytes * bytes) * Z :=
  let '(ct, r) := sample_random TT_KEM_CT r in
  ((ct, kem_secret pk ct), r).
Definition sample_dec (ct sk : bytes) : bytes := kem_secret sk ct.

#[export] Instance sample_prims : Prims := {|
  Rng := Z;
  randombytes := sample_random;
  scalarmult_base := sample_base;
  scalarmult := sample_dh;
  generichash := sample_hash;
  aes256gcm_is_available := true;
  aes256gcm_encrypt := sample_seal;
  aes256gcm_decrypt := sample_open;
  xchacha_encrypt := sample_seal;
  xchacha_decrypt := sample_open;
  sntrup761_keypair := sample_keypair;
  sntrup761_enc := sample_enc;
  sntrup761_dec := sample_dec;
|}.

Lemma len_spread n h : 0 <= n -> len (spread n h) = n.
Proof. intros. unfold spread. rewrite len_fmap. unfold len. rewrite length_seqZ. lia. Qed.

Lemma spread_bytes n h : all_bytes (spread n h).
Proof. apply Forall_fmap, Forall_true. intros. apply u8_byte. Qed.

Lemma len_to32 l : len (to32 l) = 32.
Proof.
  unfold to32. apply len_ztake. rewrite len_app, len_zrep by lia.
  pose proof (len_nonneg l). lia.
Qed.

Lemma to32_to32 l : to32 (to32 l) = to32 l.
Proof.
  unfold to32 at 1. rewrite ztake_app; [done|]. by rewrite len_to32.
Qed.

Lemma len_sample_seal key nonce ad pt :
  len (sample_seal key nonce ad pt) = len pt + TT_MAC16.
Proof. unfold sample_seal, sample_hash. rewrite len_app, len_spread; done. Qed.

Lemma sample_open_iff key nonce ad ct pt :
  sample_open key nonce ad ct = Some pt <-> ct = sample_seal key nonce ad pt.
Proof.
  unfold sample_open. split.
  - destruct (bytes_eqb _ _) eqn:E; [|done]. apply bytes_eqb_eq in E. by intros [= <-].
  - intros ->. rewrite len_sample_seal.
    replace (len pt + TT_MAC16 - TT_MAC16) with (len pt) by lia.
    unfold sample_seal at 1 3 4. rewrite ztake_app by done.
    fold (sample_seal key nonce ad pt). by rewrite bytes_eqb_refl.
Qed.

Lemma xor_bytes_comm a b : xor_bytes a b = xor_bytes b a.
Proof.
  unfold xor_bytes. revert b. induction a as [|x a IH]; intros [|y b]; try done.
  cbn. by rewrite Z.lxor_comm, IH.
Qed.

Lemma len_sample_base sk : len (sample_base sk) = 32.
Proof. unfold sample_base. rewrite len_cons, len_ztake; rewrite ?len_to32; lia. Qed.

Lemma to32_base sk : to32 (sample_base sk) = sample_base sk.
Proof. unfold to32. rewrite ztake_app; [done|]. by rewrite len_sample_base. Qed.

Lemma sample_dh_base a b :
  sample_dh a (sample_base b) = Some (xor_bytes (sample_base a) (sample_base b)).
Proof.
  unfold sample_dh. rewrite to32_base.
  destruct (bytes_eqb _ _) eqn:E; [|done]. by apply bytes_eqb_eq in E.
Qed.

Lemma len_xor_bytes a b : len a = len b -> len (xor_bytes a b) = len a.
Proof.
  intros H. unfold len, xor_bytes in *. rewrite length_zip_with_l_eq; lia.
Qed.

#[export] Instance sample_laws : PrimLaws sample_prims.
Proof.
  constructor; cbn -[sample_base].
  - intros. by apply len_spread.
  - intros. apply spread_bytes.
  - intros. apply len_sample_base.
  - intros sk pk k. unfold sample_dh. destruct (bytes_eqb _ _); [done|].
    intros H. apply Some_inj in H as <-.
    rewrite len_xor_bytes; by rewrite len_sample_base, ?len_to32.
  - intros a b. rewrite !sample_dh_base. by rewrite xor_bytes_comm.
  - intros a b. rewrite sample_dh_base. by eexists.
  - intros. apply len_spread. lia.
  - intros. apply spread_bytes.
  - apply len_sample_seal.
  - apply sample_open_iff.
  - apply len_sample_seal.
  - apply sample_open_iff.
  - unfold sample_keypair, sample_random. intros r pk sk r' [= <- <- <-].
    split; [|by apply len_spread]. apply len_ztake. rewrite len_spread; unfold TT_KEM_PK, TT_KEM_SK; lia.
  - unfold sample_enc, sample_random. intros pk r ct ss r' [= <- <- <-].
    unfold kem_secret, sample_hash. split; by apply len_spread.
  - unfold sample_keypair, sample_enc, sample_random, sample_dec.
    intros r pk sk r1 r2 ct ss r3 [= <- <- <-] [= <- <- <-].
    unfold kem_secret, ztake, TT_KEM_PK. by rewrite take_take.
Qed.
