(* ===== verification/Frame.v ===== *)
(** * Frame: the wire-frame codec ([src/crypto/frame.c])

    One frame is one Tox message:
    [magic "TTZ1" | ver | type | flags | seq BE32 | nonce | hdr_len BE16 | hdr |
     ciphertext and tag].  A frame type is kept as its byte, because
    [tt_frame_peek] stores any byte there. NULL-pointer guards of the C code
    have no counterpart: buffers are values. *)
From S2P Require Import Prelude Crypto SampleCrypto.

(** ** Constants ([src/crypto/crypto.h]) *)

Definition TT_FRAME_VER : Z := 1.
Definition TT_FRAME_MAX : Z := 1372.
Definition TT_FRAME_HEAD_MAX : Z := 37.
Definition TT_HDR_INIT : Z := 1254.
Definition TT_HDR_REPLY : Z := 1135.
Definition TT_HDR_DATA_KEMPUB : Z := 1190.
Definition TT_HDR_DATA_REKEY : Z := 1071.
Definition TT_HDR_DATA_DH_OFF : Z := TT_KEM_CT.
Definition TT_FRAME_DATA_MAX : Z := TT_FRAME_MAX - TT_FRAME_HEAD_MAX - TT_MAC16.

Definition TT_FRAME_FLAG_GCM : Z := 1.
Definition TT_FRAME_FLAG_KEM : Z := 2.
Definition TT_FRAME_FLAG_AES_HW : Z := 4.
Definition TT_FRAME_FLAG_PK : Z := 8.

(** [TTFrameType] *)
Definition TT_FRAME_INIT : Z := 0.
Definition TT_FRAME_REPLY : Z := 1.
Definition TT_FRAME_DATA : Z := 2.
Definition TT_FRAME_ACK : Z := 3.
Definition TT_FRAME_RESEND : Z := 4.

(** [TTFrameDesc]; [nonce] and [hdr] are the bytes the C pointers reach. *)
Record TTFrameDesc := mkDesc {
  d_type : Z; d_flags : Z; d_seq : Z; d_nonce : bytes; d_hdr : bytes; d_pt_len : Z
}.

Definition d_hdr_len (d : TTFrameDesc) : Z := len (d_hdr d).

Definition frame_magic : bytes := [84; 84; 90; 49].

Definition flag_set (flags mask : Z) : bool := negb (Z.land flags mask =? 0).

Definition frame_cipher (flags : Z) : TTCipher :=
  if flag_set flags TT_FRAME_FLAG_GCM then TT_AEAD_AESGCM else TT_AEAD_XCHACHA.

Definition frame_nonce_len (flags : Z) : Z :=
  if flag_set flags TT_FRAME_FLAG_GCM then TT_NONCE12 else TT_NONCE24.

(** [None] is -1. *)
Definition expected_hdr_len (type flags : Z) : option Z :=
  if (type =? TT_FRAME_INIT) || (type =? TT_FRAME_REPLY) then
    if negb (flag_set flags TT_FRAME_FLAG_KEM) then None
    else Some (if type =? TT_FRAME_INIT then TT_HDR_INIT else TT_HDR_REPLY)
  else if type =? TT_FRAME_DATA then
    if flag_set flags TT_FRAME_FLAG_KEM then
      if negb (flag_set flags TT_FRAME_FLAG_PK) then None else Some TT_HDR_DATA_REKEY
    else if flag_set flags TT_FRAME_FLAG_PK then Some TT_HDR_DATA_KEMPUB
    else Some 0
  else if (type =? TT_FRAME_ACK) || (type =? TT_FRAME_RESEND) then
    if flag_set flags (Z.lor TT_FRAME_FLAG_KEM TT_FRAME_FLAG_PK) then None else Some 0
  else None.

(** The bytes before the header: magic, version, type, flags, seq. *)
Definition frame_head (type flags seq : Z) : bytes :=
  frame_magic ++ [u8 TT_FRAME_VER; u8 type; flags] ++ be32 seq.

Section frame.
Context {P : Prims}.

Definition tt_frame_encode (cap type seq flags : Z) (key nonce hdr pt : bytes)
    : option bytes :=
  if flag_set flags 240 then None else
  match expected_hdr_len (u8 type) flags with
  | None => None
  | Some want =>
    if negb (len hdr =? want) then None else
    if TT_FRAME_MAX <? len pt then None else
    let nonce_len := frame_nonce_len flags in
    let head := 11 + nonce_len + 2 in
    let total := head + len hdr + len pt + TT_MAC16 in
    if (TT_FRAME_MAX <? total) || (cap <? total) then None else
    let ad := frame_head type flags seq ++ ztake nonce_len nonce
              ++ be16 (len hdr) ++ hdr in
    match tt_aead_seal (frame_cipher flags) key nonce ad pt with
    | None => None
    | Some ct => if negb (len ct =? len pt + TT_MAC16) then None else Some (ad ++ ct)
    end
  end.

Definition tt_frame_peek (in_ : bytes) : option TTFrameDesc :=
  let in_len := len in_ in
  if TT_FRAME_MAX <? in_len then None else
  if in_len <? 11 + TT_NONCE12 + 2 + TT_MAC16 then None else
  if negb (bytes_eqb (ztake 4 in_) frame_magic) then None else
  if negb (zat in_ 4 =? TT_FRAME_VER) then None else
  let type := zat in_ 5 in
  let flags := zat in_ 6 in
  if flag_set flags 240 then None else
  let nonce_len := frame_nonce_len flags in
  if in_len <? 11 + nonce_len + 2 then None else
  let hdr_len := rd16 (zat in_ (11 + nonce_len)) (zat in_ (11 + nonce_len + 1)) in
  if in_len <? 11 + nonce_len + 2 + hdr_len + TT_MAC16 then None else
  Some {| d_type := type; d_flags := flags;
          d_seq := rd32 (zat in_ 7) (zat in_ 8) (zat in_ 9) (zat in_ 10);
          d_nonce := zsub 11 nonce_len in_;
          d_hdr := zsub (11 + nonce_len + 2) hdr_len in_;
          d_pt_len := in_len - (11 + nonce_len + 2 + hdr_len) - TT_MAC16 |}.

(** On success the descriptor and the plaintext.  On failure the C code
    leaves the descriptor untouched and zeroes the plaintext buffer. *)
Definition tt_frame_decode (in_ key : bytes) (pt_cap : Z)
    : option (TTFrameDesc * bytes) :=
  let in_len := len in_ in
  if TT_FRAME_MAX <? in_len then None else
  if in_len <? 11 + TT_NONCE12 + 2 + TT_MAC16 then None else
  if negb (bytes_eqb (ztake 4 in_) frame_magic) then None else
  if negb (zat in_ 4 =? TT_FRAME_VER) then None else
  let type := zat in_ 5 in
  let flags := zat in_ 6 in
  if flag_set flags 240 then None else
  let seq := rd32 (zat in_ 7) (zat in_ 8) (zat in_ 9) (zat in_ 10) in
  let nonce_len := frame_nonce_len flags in
  let nonce := zsub 11 nonce_len in_ in
  let off := 11 + nonce_len in
  if in_len <? off + 2 then None else
  let hdr_len := rd16 (zat in_ off) (zat in_ (off + 1)) in
  let off := off + 2 in
  match expected_hdr_len type flags with
  | None => None
  | Some want =>
    if negb (hdr_len =? want) then None else
    if in_len <? off + hdr_len + TT_MAC16 then None else
    let hdr := zsub off hdr_len in_ in
    let off := off + hdr_len in
    let ct_len := in_len - off in
    let pt_len := ct_len - TT_MAC16 in
    if pt_cap <? pt_len then None else
    match tt_aead_open (frame_cipher flags) key nonce (ztake off in_) (zdrop off in_) with
    | None => None
    | Some pt =>
        Some ({| d_type := type; d_flags := flags; d_seq := seq; d_nonce := nonce;
                 d_hdr := hdr; d_pt_len := pt_len |}, pt)
    end
  end.
End frame.

(** ** Helper lemmas *)

Lemma frame_nonce_len_cases flags :
  frame_nonce_len flags = TT_NONCE12 \/ frame_nonce_len flags = TT_NONCE24.
Proof. unfold frame_nonce_len. case_goal; auto. Qed.

Lemma frame_nonce_len_bounds flags : 12 <= frame_nonce_len flags <= 24.
Proof. destruct (frame_nonce_len_cases flags) as [-> | ->]; done. Qed.

Lemma expected_hdr_len_range type flags want :
  expected_hdr_len type flags = Some want -> 0 <= want < 65536.
Proof.
  unfold expected_hdr_len, TT_HDR_INIT, TT_HDR_REPLY, TT_HDR_DATA_REKEY,
    TT_HDR_DATA_KEMPUB.
  repeat case_goal; intros; simplify_eq; lia.
Qed.

Lemma expected_hdr_len_type type flags want :
  expected_hdr_len type flags = Some want -> 0 <= type <= 4.
Proof.
  unfold expected_hdr_len, TT_FRAME_INIT, TT_FRAME_REPLY, TT_FRAME_DATA,
    TT_FRAME_ACK, TT_FRAME_RESEND.
  repeat case_goal; intros; simplify_eq;
    repeat match goal with H : _ || _ = true |- _ =>
      apply orb_true_iff in H as [H|H] end; bool_to_prop; lia.
Qed.

Lemma len_frame_head type flags seq : len (frame_head type flags seq) = 11.
Proof. done. Qed.
#[export] Hint Rewrite len_frame_head : bytes.

(** A well-formed head in front of anything: what the fixed-offset reads see. *)
Section head_reads.
Variables (type flags seq : Z) (rest : bytes).
Let f := frame_head type flags seq ++ rest.

Lemma head_magic : ztake 4 f = frame_magic.
Proof. done. Qed.
Lemma head_ver : zat f 4 = TT_FRAME_VER.
Proof. done. Qed.
Lemma head_type : zat f 5 = u8 type.
Proof. done. Qed.
Lemma head_flags : zat f 6 = flags.
Proof. done. Qed.
Lemma head_seq : is_u32 seq -> rd32 (zat f 7) (zat f 8) (zat f 9) (zat f 10) = seq.
Proof. intros. by apply rd32_be32. Qed.
End head_reads.

Lemma zat_app_r (a b : bytes) i : len a <= i -> zat (a ++ b) i = zat b (i - len a).
Proof.
  intros. unfold zat. rewrite lookup_app_r by (unfold len in *; lia).
  do 2 f_equal. unfold len in *. lia.
Qed.

Lemma zat_app_l (a b : bytes) i : 0 <= i < len a -> zat (a ++ b) i = zat a i.
Proof. intros. unfold zat. rewrite lookup_app_l; [done|unfold len in *; lia]. Qed.

(** Reassembling a buffer from its parts. *)
Lemma zat_zdrop_cons (l : bytes) i :
  0 <= i < len l -> zdrop i l = zat l i :: zdrop (i + 1) l.
Proof.
  intros. unfold zdrop, zat.
  destruct (lookup_lt_is_Some_2 l (Z.to_nat i)) as [x E]; [unfold len in *; lia|].
  rewrite (drop_S _ x) by done. rewrite E. cbn. do 2 f_equal. lia.
Qed.

Lemma ztake_split (l : bytes) i j :
  0 <= i -> 0 <= j -> i + j <= len l -> ztake (i + j) l = ztake i l ++ zsub i j l.
Proof.
  intros. unfold zsub, ztake, zdrop.
  rewrite Z2Nat.inj_add by lia.
  rewrite <- (take_drop (Z.to_nat i) l) at 1.
  rewrite take_app_ge by (rewrite length_take; lia).
  f_equal. f_equal. rewrite length_take. unfold len in *. lia.
Qed.

Section frame_facts.
Context {P : Prims}.

(** What a successful encode produced. *)
Lemma tt_frame_encode_inv cap type seq flags key nonce hdr pt out :
  tt_frame_encode cap type seq flags key nonce hdr pt = Some out ->
  flag_set flags 240 = false /\
  expected_hdr_len (u8 type) flags = Some (len hdr) /\
  11 + frame_nonce_len flags + 2 + len hdr + len pt + TT_MAC16 <= TT_FRAME_MAX /\
  11 + frame_nonce_len flags + 2 + len hdr + len pt + TT_MAC16 <= cap /\
  exists ct, len ct = len pt + TT_MAC16 /\
    let ad := frame_head type flags seq ++ ztake (frame_nonce_len flags) nonce
              ++ be16 (len hdr) ++ hdr in
    tt_aead_seal (frame_cipher flags) key nonce ad pt = Some ct /\ out = ad ++ ct.
Proof.
  unfold tt_frame_encode. intros H.
  repeat case_hyp H; simplify_eq; bool_to_prop.
  match goal with H : _ || _ = false |- _ => apply orb_false_iff in H as [??] | _ => idtac end.
  bool_to_prop. split_and!; try done; try lia.
  - congruence.
  - eexists; split_and!; eauto.
Qed.

Lemma tt_frame_encode_len cap type seq flags key nonce hdr pt out :
  TT_NONCE24 <= len nonce ->
  tt_frame_encode cap type seq flags key nonce hdr pt = Some out ->
  len out = 11 + frame_nonce_len flags + 2 + len hdr + len pt + TT_MAC16.
Proof.
  intros Hn H.
  apply tt_frame_encode_inv in H as (_ & _ & _ & _ & ct & Hct & _ & ->).
  pose proof (frame_nonce_len_bounds flags). unfold TT_NONCE24 in *.
  autorewrite with bytes. rewrite len_ztake by lia. lia.
Qed.
End frame_facts.

(** ** The layout of a frame, both ways *)

Definition frame_bytes (type flags seq : Z) (nonce hdr ct : bytes) : bytes :=
  frame_head type flags seq ++ nonce ++ be16 (len hdr) ++ hdr ++ ct.

Section layout.
Context {P : Prims}.
Variables (type flags seq : Z) (nonce hdr ct : bytes).
Hypothesis Htype : is_byte type.
Hypothesis Hseq : is_u32 seq.
Hypothesis Hflags : flag_set flags 240 = false.
Hypothesis Hnonce : len nonce = frame_nonce_len flags.
Hypothesis Hhdr : is_u16 (len hdr).
Hypothesis Hct : TT_MAC16 <= len ct.
Let f := frame_bytes type flags seq nonce hdr ct.
Let nl := frame_nonce_len flags.
Hypothesis Hmax : 11 + nl + 2 + len hdr + len ct <= TT_FRAME_MAX.

Lemma layout_len : len f = 11 + nl + 2 + len hdr + len ct.
Proof using Hnonce. subst f nl. unfold frame_bytes. autorewrite with bytes. lia. Qed.

Lemma layout_nonce : zsub 11 nl f = nonce.
Proof using Hnonce.
  subst f nl. unfold frame_bytes, zsub. rewrite zdrop_app by done.
  by rewrite ztake_app by done.
Qed.

Lemma layout_hdr_len : rd16 (zat f (11 + nl)) (zat f (11 + nl + 1)) = len hdr.
Proof using Hnonce Hhdr.
  subst f nl. unfold frame_bytes. pose proof (frame_nonce_len_bounds flags).
  rewrite !(zat_app_r (frame_head _ _ _)) by (autorewrite with bytes; lia).
  rewrite !(zat_app_r nonce) by (autorewrite with bytes; lia).
  autorewrite with bytes.
  replace (11 + frame_nonce_len flags - 11 - len nonce) with 0 by lia.
  replace (11 + frame_nonce_len flags + 1 - 11 - len nonce) with 1 by lia.
  by apply rd16_be16.
Qed.

Lemma layout_body : zdrop (11 + nl + 2) f = hdr ++ ct.
Proof using Hnonce.
  subst f nl. unfold frame_bytes. rewrite !app_assoc. rewrite <- (app_assoc _ hdr).
  apply zdrop_app. autorewrite with bytes. lia.
Qed.

Lemma layout_ad : ztake (11 + nl + 2 + len hdr) f
  = frame_head type flags seq ++ nonce ++ be16 (len hdr) ++ hdr.
Proof using Hnonce.
  subst f nl. unfold frame_bytes. rewrite !app_assoc. rewrite ztake_app; [done|].
  autorewrite with bytes. lia.
Qed.

Lemma layout_ct : zdrop (11 + nl + 2 + len hdr) f = ct.
Proof using Hnonce.
  subst f nl. unfold frame_bytes. rewrite !app_assoc. rewrite zdrop_app; [done|].
  autorewrite with bytes. lia.
Qed.

Lemma layout_peek :
  tt_frame_peek f = Some {| d_type := type; d_flags := flags; d_seq := seq;
    d_nonce := nonce; d_hdr := hdr; d_pt_len := len ct - TT_MAC16 |}.
Proof using All.
  pose proof (frame_nonce_len_bounds flags). pose proof (len_nonneg hdr).
  unfold tt_frame_peek. rewrite layout_len. unfold TT_FRAME_MAX, TT_MAC16, TT_NONCE12 in *.
  rewrite (proj2 (Z.ltb_ge _ _)) by (subst nl; lia).
  rewrite (proj2 (Z.ltb_ge _ _)) by (subst nl; lia).
  replace (ztake 4 f) with frame_magic by done. rewrite bytes_eqb_refl. cbn [negb].
  replace (zat f 4) with TT_FRAME_VER by done. rewrite Z.eqb_refl. cbn [negb].
  replace (zat f 6) with flags by done. rewrite Hflags.
  replace (zat f 5) with type by (symmetry; by apply u8_small).
  fold nl. rewrite layout_hdr_len.
  rewrite (proj2 (Z.ltb_ge _ _)) by lia.
  rewrite (proj2 (Z.ltb_ge _ _)) by lia.
  rewrite layout_nonce. unfold zsub. rewrite layout_body, ztake_app by done.
  do 2 f_equal; [by apply rd32_be32|lia].
Qed.

Lemma layout_decode key pt_cap :
  expected_hdr_len type flags = Some (len hdr) ->
  len ct - TT_MAC16 <= pt_cap ->
  tt_frame_decode f key pt_cap =
    match tt_aead_open (frame_cipher flags) key nonce
            (frame_head type flags seq ++ nonce ++ be16 (len hdr) ++ hdr) ct with
    | None => None
    | Some pt => Some ({| d_type := type; d_flags := flags; d_seq := seq;
        d_nonce := nonce; d_hdr := hdr; d_pt_len := len ct - TT_MAC16 |}, pt)
    end.
Proof using All.
  intros Hexp Hcap.
  pose proof (frame_nonce_len_bounds flags). pose proof (len_nonneg hdr).
  unfold tt_frame_decode. rewrite layout_len. unfold TT_FRAME_MAX, TT_MAC16, TT_NONCE12 in *.
  rewrite (proj2 (Z.ltb_ge _ _)) by (subst nl; lia).
  rewrite (proj2 (Z.ltb_ge _ _)) by (subst nl; lia).
  replace (ztake 4 f) with frame_magic by done. rewrite bytes_eqb_refl. cbn [negb].
  replace (zat f 4) with TT_FRAME_VER by done. rewrite Z.eqb_refl. cbn [negb].
  replace (zat f 6) with flags by done. rewrite Hflags.
  replace (zat f 5) with type by (symmetry; by apply u8_small).
  fold nl. rewrite (proj2 (Z.ltb_ge _ _)) by lia.
  rewrite layout_hdr_len, Hexp, Z.eqb_refl. cbn [negb].
  rewrite (proj2 (Z.ltb_ge _ _)) by lia.
  rewrite (proj2 (Z.ltb_ge _ _)) by lia.
  rewrite layout_nonce, layout_ad, layout_ct.
  unfold zsub. rewrite layout_body, ztake_app by done.
  replace (rd32 (zat f 7) (zat f 8) (zat f 9) (zat f 10)) with seq
    by (symmetry; by apply rd32_be32).
  case_goal; [|done]. do 3 f_equal. lia.
Qed.
End layout.

(** Whatever bytes [tt_frame_peek] accepts have the layout it describes. *)
Lemma head_of_bytes (l : bytes) :
  all_bytes l -> 11 <= len l -> ztake 4 l = frame_magic -> zat l 4 = TT_FRAME_VER ->
  ztake 11 l = frame_head (zat l 5) (zat l 6) (rd32 (zat l 7) (zat l 8) (zat l 9) (zat l 10)).
Proof.
  intros Hb Hl Hm Hv.
  replace 11 with (4 + 7) by lia. rewrite ztake_split by lia. rewrite Hm.
  unfold frame_head. rewrite be32_rd32 by auto with bytes. rewrite (u8_small (zat l 5)) by auto with bytes.
  f_equal. unfold zsub.
  do 7 (rewrite zat_zdrop_cons by lia). rewrite Hv. done.
Qed.

Section peek_inv.
Context {P : Prims}.

Lemma tt_frame_peek_inv (in_ : bytes) d :
  all_bytes in_ -> tt_frame_peek in_ = Some d ->
  is_byte (d_type d) /\ is_byte (d_flags d) /\ is_u32 (d_seq d) /\
  flag_set (d_flags d) 240 = false /\ len (d_nonce d) = frame_nonce_len (d_flags d) /\
  is_u16 (len (d_hdr d)) /\
  exists ct, in_ = frame_bytes (d_type d) (d_flags d) (d_seq d) (d_nonce d) (d_hdr d) ct /\
    len ct = d_pt_len d + TT_MAC16 /\ 0 <= d_pt_len d /\ len in_ <= TT_FRAME_MAX.
Proof.
  intros Hb. unfold tt_frame_peek.
  pose proof (frame_nonce_len_bounds (zat in_ 6)) as Hnl.
  unfold TT_FRAME_MAX, TT_MAC16, TT_NONCE12.
  set (nl := frame_nonce_len (zat in_ 6)) in *.
  set (hl := rd16 (zat in_ (11 + nl)) (zat in_ (11 + nl + 1))).
  assert (is_u16 hl) as Hhl by (apply rd16_u16; auto with bytes).
  destruct (Z.ltb_spec 1372 (len in_)); [done|].
  destruct (Z.ltb_spec (len in_) (11 + 12 + 2 + 16)); [done|].
  destruct (bytes_eqb (ztake 4 in_) frame_magic) eqn:Hm; [|done].
  destruct (zat in_ 4 =? TT_FRAME_VER) eqn:Hv; [|done]. cbn [negb].
  destruct (flag_set (zat in_ 6) 240) eqn:Hf; [done|].
  destruct (Z.ltb_spec (len in_) (11 + nl + 2)); [done|].
  destruct (Z.ltb_spec (len in_) (11 + nl + 2 + hl + 16)); [done|].
  intros [= <-]. cbn [d_type d_flags d_seq d_nonce d_hdr d_pt_len].
  apply bytes_eqb_eq in Hm. apply Z.eqb_eq in Hv.
  pose proof Hhl as Hhl'; unfold is_u16 in Hhl'.
  assert (len (zsub 11 nl in_) = nl) as Hln by (apply len_zsub; lia).
  assert (len (zsub (11 + nl + 2) hl in_) = hl) as Hlh by (apply len_zsub; lia).
  split_and!; auto with bytes; try (rewrite ?Hln, ?Hlh; done).
  { apply rd32_u32; auto with bytes. }
  exists (zdrop (11 + nl + 2 + hl) in_). split_and!; [|rewrite len_zdrop; lia|lia|lia].
  unfold frame_bytes. rewrite Hlh, <- head_of_bytes by (auto; lia).
  unfold hl at 1. rewrite be16_rd16 by auto with bytes.
  rewrite <- (ztake_zdrop 11 in_) at 1. f_equal.
  rewrite <- (ztake_zdrop nl (zdrop 11 in_)) at 1. f_equal.
  rewrite zdrop_zdrop by lia. do 2 (rewrite zat_zdrop_cons by lia).
  cbn [app]. do 2 f_equal.
  replace (11 + nl + 1 + 1) with (11 + nl + 2) by lia.
  unfold zsub. rewrite <- (ztake_zdrop hl (zdrop (11 + nl + 2) in_)) at 1.
  f_equal. by rewrite zdrop_zdrop by lia.
Qed.

(** Decoding only accepts what peeking accepts, and describes it the same. *)
Lemma tt_frame_decode_peek (in_ key : bytes) cap d pt :
  tt_frame_decode in_ key cap = Some (d, pt) -> tt_frame_peek in_ = Some d.
Proof.
  unfold tt_frame_decode, tt_frame_peek. intros H.
  repeat case_hyp H; simplify_eq; bool_to_prop; subst.
  repeat match goal with H : expected_hdr_len _ _ = Some ?w |- _ =>
    apply expected_hdr_len_range in H end.
  repeat (rewrite (proj2 (Z.ltb_ge _ _)) by lia). done.
Qed.
End peek_inv.

(** ** Encoding and decoding are inverse *)
Section codec.
Context {P : Prims} {L : PrimLaws P}.

Lemma tt_frame_encode_some_cap cap type seq flags key nonce hdr pt :
  flag_set flags 240 = false ->
  expected_hdr_len (u8 type) flags = Some (len hdr) ->
  (flag_set flags TT_FRAME_FLAG_GCM = true -> tt_aead_gcm_available = true) ->
  11 + frame_nonce_len flags + 2 + len hdr + len pt + TT_MAC16 <= TT_FRAME_MAX ->
  11 + frame_nonce_len flags + 2 + len hdr + len pt + TT_MAC16 <= cap ->
  is_Some (tt_frame_encode cap type seq flags key nonce hdr pt).
Proof.
  intros Hf Hh Hg Hm Hc. unfold tt_frame_encode. rewrite Hf, Hh, Z.eqb_refl. cbn [negb].
  pose proof (frame_nonce_len_bounds flags). pose proof (len_nonneg hdr).
  unfold TT_MAC16 in *.
  rewrite (proj2 (Z.ltb_ge _ _)) by lia.
  rewrite !(proj2 (Z.ltb_ge _ _)) by lia. cbn [orb].
  destruct (tt_aead_seal_some (frame_cipher flags) key nonce
    (frame_head type flags seq ++ ztake (frame_nonce_len flags) nonce ++
     be16 (len hdr) ++ hdr) pt) as [ct E].
  { unfold frame_cipher. by destruct (flag_set flags TT_FRAME_FLAG_GCM); auto. }
  rewrite E. apply tt_aead_seal_len in E. rewrite E, Z.eqb_refl. cbn. eauto.
Qed.

Lemma tt_frame_encode_some cap type seq flags key nonce hdr pt :
  flag_set flags 240 = false ->
  expected_hdr_len (u8 type) flags = Some (len hdr) ->
  (flag_set flags TT_FRAME_FLAG_GCM = true -> tt_aead_gcm_available = true) ->
  11 + frame_nonce_len flags + 2 + len hdr + len pt + TT_MAC16 <= TT_FRAME_MAX ->
  TT_FRAME_MAX <= cap ->
  is_Some (tt_frame_encode cap type seq flags key nonce hdr pt).
Proof. intros. apply tt_frame_encode_some_cap; auto. lia. Qed.

(** The AEAD runs with the nonce bytes the frame carries. *)
Lemma seal_frame_nonce flags key nonce ad pt :
  tt_aead_seal (frame_cipher flags) key (ztake (frame_nonce_len flags) nonce) ad pt =
  tt_aead_seal (frame_cipher flags) key nonce ad pt.
Proof.
  unfold frame_cipher, frame_nonce_len.
  destruct (flag_set flags TT_FRAME_FLAG_GCM); cbn [tt_aead_seal];
    unfold ztake; by rewrite take_take, Nat.min_id.
Qed.

Lemma tt_frame_encode_decode cap type seq flags key nonce hdr pt out pt_cap :
  is_byte type -> is_u32 seq -> TT_NONCE24 <= len nonce -> len pt <= pt_cap ->
  tt_frame_encode cap type seq flags key nonce hdr pt = Some out ->
  tt_frame_decode out key pt_cap =
    Some ({| d_type := type; d_flags := flags; d_seq := seq;
             d_nonce := ztake (frame_nonce_len flags) nonce;
             d_hdr := hdr; d_pt_len := len pt |}, pt).
Proof.
  intros Ht Hs Hn Hcap H.
  apply tt_frame_encode_inv in H as (Hf & Hexp & Hmax & _ & ct & Hct & Hseal & ->).
  rewrite u8_small in Hexp by done.
  pose proof (expected_hdr_len_range _ _ _ Hexp).
  pose proof (frame_nonce_len_bounds flags). pose proof (len_nonneg pt).
  unfold TT_NONCE24, TT_MAC16 in *.
  assert (len (ztake (frame_nonce_len flags) nonce) = frame_nonce_len flags) as Hl
    by (apply len_ztake; lia).
  rewrite <- !app_assoc.
  change (frame_head type flags seq ++ _) with
    (frame_bytes type flags seq (ztake (frame_nonce_len flags) nonce) hdr ct).
  rewrite (layout_decode type flags seq _ hdr ct) by
    (try assumption; unfold is_u16, TT_MAC16; lia).
  rewrite <- seal_frame_nonce in Hseal. apply tt_aead_open_iff in Hseal.
  rewrite Hseal. do 3 f_equal. unfold TT_MAC16. lia.
Qed.

(** Decoding is canonical: an accepted frame is exactly what encoding its
    parts under the same key produces. *)
Lemma tt_frame_decode_encode in_ key pt_cap d pt :
  all_bytes in_ -> tt_frame_decode in_ key pt_cap = Some (d, pt) ->
  tt_frame_encode TT_FRAME_MAX (d_type d) (d_seq d) (d_flags d) key (d_nonce d)
    (d_hdr d) pt = Some in_ /\ len pt = d_pt_len d /\ len pt <= pt_cap.
Proof.
  intros Hb Hd. pose proof (tt_frame_decode_peek _ _ _ _ _ Hd) as Hp.
  apply tt_frame_peek_inv in Hp as
    (Ht & _ & Hs & Hf & Hn & Hh & ct & -> & Hct & Hpos & Hmax); [|done].
  assert (exists want, expected_hdr_len (d_type d) (d_flags d) = Some want /\ want = len (d_hdr d)) as (want & Hexp & ->).
  { revert Hd. unfold tt_frame_decode.
    rewrite layout_hdr_len by assumption.
    replace (zat _ 6) with (d_flags d) by done.
    replace (zat _ 5) with (d_type d) by (symmetry; by apply u8_small).
    intros H. repeat case_hyp H; simplify_eq; bool_to_prop. eauto. }
  rewrite layout_len in Hmax by done.
  pose proof (frame_nonce_len_bounds (d_flags d)). unfold TT_MAC16 in *.
  assert (len ct - 16 <= pt_cap) as Hcap.
  { revert Hd. unfold tt_frame_decode. rewrite layout_len, layout_hdr_len by assumption.
    replace (zat _ 6) with (d_flags d) by done.
    intros H'. repeat case_hyp H'; simplify_eq; bool_to_prop; unfold TT_MAC16 in *; lia. }
  rewrite layout_decode in Hd by (try assumption; unfold TT_MAC16; lia).
  case_hyp Hd; [|done]. injection Hd as <-. subst.
  match goal with H : tt_aead_open _ _ _ _ _ = Some _ |- _ =>
    apply tt_aead_open_iff in H as Hseal end.
  pose proof (tt_aead_seal_len _ _ _ _ _ _ Hseal).
  pose proof (len_nonneg (d_hdr d)). unfold TT_MAC16 in *.
  cbn [d_type d_flags d_seq d_nonce d_hdr d_pt_len] in *.
  split_and!; [|lia|lia].
  unfold tt_frame_encode. rewrite Hf, u8_small, Hexp, Z.eqb_refl by done. cbn [negb].
  rewrite !(proj2 (Z.ltb_ge _ _)) by (unfold TT_MAC16, TT_FRAME_MAX in *; lia). cbn [orb].
  rewrite ztake_all by lia. rewrite Hseal. rewrite (proj2 (Z.eqb_eq _ _)) by (unfold TT_MAC16; lia).
  cbn [negb]. f_equal. unfold frame_bytes. by rewrite <- !app_assoc.
Qed.
End codec.

(** ** Properties *)

(** Round trip. A frame the encoder produced is described by the peek and
    decoded, under the same key, to exactly the type, flags, sequence number,
    header and plaintext that were encoded. *)
Theorem frame_roundtrip {P : Prims} {L : PrimLaws P} cap type seq flags key nonce hdr pt
    out pt_cap :
  is_byte type -> is_u32 seq -> TT_NONCE24 <= len nonce -> len pt <= pt_cap ->
  tt_frame_encode cap type seq flags key nonce hdr pt = Some out ->
  let d := {| d_type := type; d_flags := flags; d_seq := seq;
              d_nonce := ztake (frame_nonce_len flags) nonce;
              d_hdr := hdr; d_pt_len := len pt |} in
  tt_frame_peek out = Some d /\ tt_frame_decode out key pt_cap = Some (d, pt).
Proof.
  intros Ht Hs Hn Hc He. pose proof (tt_frame_encode_decode _ _ _ _ _ _ _ _ _ _ Ht Hs Hn Hc He).
  split; [by eapply tt_frame_decode_peek|done].
Qed.

(** the decoder accepts nothing but encodings: whatever bytes it accepts
    under a key are, bit for bit, the encoding under that key of the parts it
    returns, and the plaintext fits the caller's buffer. *)
Theorem frame_decode_canonical {P : Prims} {L : PrimLaws P} in_ key pt_cap d pt :
  all_bytes in_ -> tt_frame_decode in_ key pt_cap = Some (d, pt) ->
  tt_frame_encode TT_FRAME_MAX (d_type d) (d_seq d) (d_flags d) key (d_nonce d)
    (d_hdr d) pt = Some in_ /\ len pt = d_pt_len d /\ len pt <= pt_cap.
Proof. apply tt_frame_decode_encode. Qed.

Definition frame_size (flags : Z) (hdr pt : bytes) : Z :=
  11 + frame_nonce_len flags + 2 + len hdr + len pt + TT_MAC16.

(** the encoder succeeds exactly when the reserved flags are clear, the
    header has the one length its type allows, the cipher is available and the
    frame fits both one Tox message and the caller's buffer; its output then
    has exactly the computed size. *)
Theorem frame_encode_succeeds_iff {P : Prims} {L : PrimLaws P} cap type seq flags key nonce
    hdr pt :
  TT_NONCE24 <= len nonce ->
  (forall out, tt_frame_encode cap type seq flags key nonce hdr pt = Some out ->
     len out = frame_size flags hdr pt) /\
  (is_Some (tt_frame_encode cap type seq flags key nonce hdr pt) <->
     flag_set flags 240 = false /\ expected_hdr_len (u8 type) flags = Some (len hdr) /\
     (flag_set flags TT_FRAME_FLAG_GCM = true -> tt_aead_gcm_available = true) /\
     frame_size flags hdr pt <= TT_FRAME_MAX /\ frame_size flags hdr pt <= cap).
Proof.
  intros Hn. split; [intros out He; by eapply tt_frame_encode_len|]. split.
  - intros [out He]. apply tt_frame_encode_inv in He as (? & ? & ? & ? & ct & _ & Hs & _).
    split_and!; try done. intros Hg. unfold frame_cipher in Hs. rewrite Hg in Hs.
    cbn in Hs. by destruct tt_aead_gcm_available.
  - intros (Hf & Hh & Hg & Hm & Hc). apply tt_frame_encode_some_cap; done.
Qed.

(** ** Witnesses *)

Definition sample_key : bytes := zrep 32 5.
Definition sample_frame : bytes :=
  Eval vm_compute in default [] (tt_frame_encode (P:=sample_prims) 1372 TT_FRAME_DATA 7
    TT_FRAME_FLAG_GCM sample_key (zrep 24 3) [] [104; 105]).

Lemma sample_frame_ok :
  tt_frame_encode (P:=sample_prims) 1372 TT_FRAME_DATA 7 TT_FRAME_FLAG_GCM sample_key
    (zrep 24 3) [] [104; 105] = Some sample_frame.
Proof. vm_compute. reflexivity. Qed.

Lemma frame_roundtrip_witness :
  tt_frame_decode (P:=sample_prims) sample_frame sample_key 64 =
    Some ({| d_type := 2; d_flags := 1; d_seq := 7; d_nonce := zrep 12 3;
             d_hdr := []; d_pt_len := 2 |}, [104; 105]).
Proof.
  refine (proj2 (@frame_roundtrip sample_prims sample_laws 1372 TT_FRAME_DATA 7
    TT_FRAME_FLAG_GCM sample_key (zrep 24 3) [] [104; 105] sample_frame 64
    _ _ _ _ sample_frame_ok)); vm_compute; intuition discriminate.
Defined.

Lemma sample_frame_decoded :
  tt_frame_decode (P:=sample_prims) sample_frame sample_key 64 =
    Some ({| d_type := 2; d_flags := 1; d_seq := 7; d_nonce := zrep 12 3;
             d_hdr := []; d_pt_len := 2 |}, [104; 105]).
Proof. vm_compute. reflexivity. Qed.

Lemma sample_frame_bytes : all_bytes sample_frame.
Proof. repeat constructor; cbn; lia. Qed.

Lemma frame_decode_canonical_witness :
  tt_frame_encode (P:=sample_prims) TT_FRAME_MAX 2 7 1 sample_key (zrep 12 3) [] [104; 105]
    = Some sample_frame.
Proof.
  exact (proj1 (@frame_decode_canonical sample_prims sample_laws sample_frame sample_key 64
    _ _ sample_frame_bytes sample_frame_decoded)).
Defined.

Lemma frame_encode_succeeds_iff_witness :
  len sample_frame = 43.
Proof.
  rewrite (proj1 (@frame_encode_succeeds_iff sample_prims sample_laws 1372 TT_FRAME_DATA 7
    TT_FRAME_FLAG_GCM sample_key (zrep 24 3) [] [104; 105] ltac:(vm_compute; discriminate))
    sample_frame sample_frame_ok).
  reflexivity.
Defined.
