(* ===== verification/Session.v ===== *)
(** * Session: the E2EE session state machine ([src/session.c], [session.h])

    The data of a session and every operation of [session.c], over the frame
    codec and the primitives.  Conventions:

    - an operation that returns [int n] and fills a buffer returns a [ret]:
      [Bytes b] stands for [n = len b] with [b] written out (so [Bytes []] is
      the C return value 0) and [Status e] for a negative [TTE2EEStatus];
    - an operation that mutates [*s] returns the new session;
    - randomness is threaded as an explicit generator state, and [time(NULL)]
      is an argument;
    - a fixed C array with a live prefix ([skipped], [pending], [reply_cache],
      [last_in], [carrier]) is the list of its live part; the ring of unacked
      messages keeps its 32 slots, because [tt_session_rel_poll] passes a
      pointer into it to code that overwrites it. *)
From S2P Require Import Prelude CText Crypto Frame.

(** ** Data ([src/session.h]) *)

Definition TT_SESSION_MAX_SKIP : Z := 512.
Definition TT_SESSION_REKEY_EVERY : Z := 64.
Definition TT_SESSION_PENDING_MAX : Z := 4.
Definition TT_SESSION_HDR_KEM : Z := 96.
Definition TT_SESSION_SKIPPED_MAX : Z := 96.
Definition TT_SENT_MAX : nat := 32.

Record TTSentMsg := mkSentMsg { m_gen : Z; m_seq : Z; m_len : Z; m_data : bytes }.

Record TTSentBuf := mkSentBuf { sb_m : list TTSentMsg; sb_head : nat; sb_count : nat }.

Record TTReliable := mkReliable {
  sent : TTSentBuf;
  recv_acked : Z;
  ack_due : bool;
  resend_req_pending : bool;
  resend_req_gen : Z;
  resend_req_from : Z;
  resend_rep_pending : bool;
  resend_rep_gen : Z;
  resend_rep_from : Z;
  resend_rep_pos : Z;
}.

Inductive TTE2EEStatus :=
| TT_E2EE_NO_SESSION
| TT_E2EE_NOKEY
| TT_E2EE_DECODE_FAIL
| TT_E2EE_BAD_ID
| TT_E2EE_SEQ_TOO_OLD
| TT_E2EE_REPLAY
| TT_E2EE_BUSY
| TT_E2EE_BAD_STATE
| TT_E2EE_CARRIER.

#[export] Instance TTE2EEStatus_eq_dec : EqDecision TTE2EEStatus.
Proof. solve_decision. Defined.

Definition status_code (e : TTE2EEStatus) : Z :=
  match e with
  | TT_E2EE_NO_SESSION => -1 | TT_E2EE_NOKEY => -2 | TT_E2EE_DECODE_FAIL => -3
  | TT_E2EE_BAD_ID => -4 | TT_E2EE_SEQ_TOO_OLD => -5 | TT_E2EE_REPLAY => -6
  | TT_E2EE_BUSY => -7 | TT_E2EE_BAD_STATE => -8 | TT_E2EE_CARRIER => -9
  end.

(** [TTE2EEEnv]; [peer_pk = None] is the NULL pointer of a non-friend. *)
Record TTE2EEEnv := mkEnv { self_sk : bytes; self_pk : bytes; peer_pk : option bytes }.

Record TTRatchet := mkRatchet {
  chain : bytes;
  seq : Z;
  rroot : bytes;
  since_fold : Z;
  skipped : list (Z * bytes);
}.

Record TTRekey := mkRekey {
  eph_sk : bytes; eph_pk : bytes;
  have_kem : bool;
  rk_kem_pk : bytes; rk_kem_sk : bytes;
  peer_have : bool;
  peer_kem_pk : bytes;
  peer_eph_pk : bytes;
  rekey_due : bool;
  awaiting_peer : bool;
  published : bool;
  post_fold_publish : bool;
  publish_back : bool;
  carrier : bytes;
}.

Record TTSession := mkSession {
  active : bool;
  lossy : bool;
  i_am_initiator : bool;
  init_pending : bool;
  reply_due : bool;
  init_at : Z;
  send : TTRatchet;
  recv : TTRatchet;
  rekey : TTRekey;
  root : bytes;
  eph_a2_sk : bytes; eph_a2_pk : bytes;
  eph_a3_sk : bytes; eph_a3_pk : bytes;
  init_seal : bytes;
  kem_pk : bytes; kem_sk : bytes;
  eph_b1_sk : bytes; eph_b1_pk : bytes;
  eph_b3_sk : bytes; eph_b3_pk : bytes;
  kem_ct : bytes;
  reply_cache : bytes;
  last_in : bytes;
  no_session_notified : bool;
  rel : TTReliable;
  pending : list bytes;
}.

#[export] Instance eta_SentBuf : EtaRecord TTSentBuf := fun b =>
  mkSentBuf (sb_m b) (sb_head b) (sb_count b).
#[export] Instance eta_Reliable : EtaRecord TTReliable := fun r =>
  mkReliable (sent r) (recv_acked r) (ack_due r) (resend_req_pending r)
    (resend_req_gen r) (resend_req_from r) (resend_rep_pending r)
    (resend_rep_gen r) (resend_rep_from r) (resend_rep_pos r).
#[export] Instance eta_Ratchet : EtaRecord TTRatchet := fun r =>
  mkRatchet (chain r) (seq r) (rroot r) (since_fold r) (skipped r).
#[export] Instance eta_Rekey : EtaRecord TTRekey := fun k =>
  mkRekey (eph_sk k) (eph_pk k) (have_kem k) (rk_kem_pk k) (rk_kem_sk k)
    (peer_have k) (peer_kem_pk k) (peer_eph_pk k) (rekey_due k) (awaiting_peer k)
    (published k) (post_fold_publish k) (publish_back k) (carrier k).
#[export] Instance eta_Session : EtaRecord TTSession := fun s =>
  mkSession (active s) (lossy s) (i_am_initiator s) (init_pending s) (reply_due s)
    (init_at s) (send s) (recv s) (rekey s) (root s) (eph_a2_sk s) (eph_a2_pk s)
    (eph_a3_sk s) (eph_a3_pk s) (init_seal s) (kem_pk s) (kem_sk s) (eph_b1_sk s)
    (eph_b1_pk s) (eph_b3_sk s) (eph_b3_pk s) (kem_ct s) (reply_cache s) (last_in s)
    (no_session_notified s) (rel s) (pending s).

(** All-zero states ([memset (s, 0, sizeof *s)]). *)
Definition zero_sent_msg : TTSentMsg := mkSentMsg 0 0 0 (zrep TT_FRAME_DATA_MAX 0).
Definition zero_sent_buf : TTSentBuf := mkSentBuf (replicate TT_SENT_MAX zero_sent_msg) 0 0.
Definition zero_reliable : TTReliable :=
  mkReliable zero_sent_buf 0 false false 0 0 false 0 0 0.
Definition zero_ratchet : TTRatchet := mkRatchet (zrep 32 0) 0 (zrep 32 0) 0 [].
Definition zero_rekey : TTRekey :=
  mkRekey (zrep 32 0) (zrep 32 0) false (zrep TT_KEM_PK 0) (zrep TT_KEM_SK 0) false
    (zrep TT_KEM_PK 0) (zrep 32 0) false false false false false [].
Definition tt_session_init : TTSession :=
  mkSession false false false false false 0 zero_ratchet zero_ratchet zero_rekey
    (zrep 32 0) (zrep 32 0) (zrep 32 0) (zrep 32 0) (zrep 32 0) (zrep 32 0)
    (zrep TT_KEM_PK 0) (zrep TT_KEM_SK 0) (zrep 32 0) (zrep 32 0) (zrep 32 0)
    (zrep 32 0) (zrep TT_KEM_CT 0) [] [] false zero_reliable [].
Definition tt_session_clear : TTSession := tt_session_init.

Inductive ret := Bytes (b : bytes) | Status (e : TTE2EEStatus).

Definition ret_code (r : ret) : Z :=
  match r with Bytes b => len b | Status e => status_code e end.

(** The value of the environment variable [TT_E2EE], [None] when unset. *)
Definition tt_e2ee_init_mode (v : option bytes) : bool :=
  match v with Some (48 :: _) => false | _ => true end.

(** [memcmp (a, b, n) < 0] on buffers of equal length. *)
Fixpoint memcmp_lt (a b : bytes) : bool :=
  match a, b with
  | x :: a, y :: b => if x <? y then true else if y <? x then false else memcmp_lt a b
  | _, _ => false
  end.

(** Where [emit_frame] finds its text: a buffer of the caller, or a slot of
    the unacked ring, passed by pointer. *)
Inductive text_src := TxtBuf (b : bytes) | TxtSlot (i : nat).

Definition sent_slot (b : TTSentBuf) (i : nat) : TTSentMsg :=
  default zero_sent_msg (sb_m b !! i).

Definition text_bytes (b : TTSentBuf) (src : text_src) (n : Z) : bytes :=
  match src with
  | TxtBuf t => ztake n t
  | TxtSlot i => ztake n (m_data (sent_slot b i))
  end.

Section session.
Context {P : Prims}.

(** ** Key derivation helpers *)

Definition derive_from_root (root label : bytes) : bytes :=
  tt_kdf_root (ztake TT_KEY32 root ++ [1]) label.

Definition seal_key_derive (sk dh_peer ad_ik : bytes) : option bytes :=
  match tt_dh_shared sk dh_peer with
  | None => None
  | Some ss => Some (tt_kdf_root ss (ascii_bytes "tt-e2ee-seal" ++ ztake TT_KEY32 ad_ik))
  end.

(** ** Ratchet *)

Definition ratchet_reset (root : bytes) (initiator_dir : bool) : TTRatchet :=
  {| chain := derive_from_root root
                (ascii_bytes (if initiator_dir then "tt-e2ee-i" else "tt-e2ee-r"));
     seq := 1; rroot := root; since_fold := 0; skipped := [] |}.

Definition ratchet_fold (r : TTRatchet) (dh kem : bytes) : TTRatchet :=
  let '(new_root, new_chain) := tt_kdf_root_step (rroot r) dh kem in
  r <| rroot := new_root |> <| chain := new_chain |>
    <| since_fold := 0 |> <| skipped := [] |>.

(** [(ratchet, seq, key, nonce)] *)
Definition send_key (r : TTRatchet) : TTRatchet * Z * bytes * bytes :=
  let '(nc, mk) := tt_kdf_chain_step (chain r) in
  let '(key, nonce) := tt_kdf_msg_material mk in
  (r <| chain := nc |> <| seq := u32 (seq r + 1) |>, seq r, key, nonce).

(** The chain after [n] steps. *)
Fixpoint chain_steps (n : nat) (c : bytes) : bytes :=
  match n with
  | O => c
  | S n => chain_steps n (tt_kdf_chain_step c).1
  end.

Definition msg_key_at (r : TTRatchet) (sq : Z) : bytes * bytes :=
  let c := chain_steps (Z.to_nat (sq - seq r)) (chain r) in
  tt_kdf_msg_material (tt_kdf_chain_step c).2.

(** Append; when the ring is full the oldest entry goes. *)
Definition skipped_add (r : TTRatchet) (sq : Z) (key : bytes) : TTRatchet :=
  let l := if TT_SESSION_SKIPPED_MAX <=? len (skipped r)
           then drop 1 (skipped r) else skipped r in
  r <| skipped := l ++ [(sq, key)] |>.

(** Remove the first entry with that seq. *)
Fixpoint skipped_pick (l : list (Z * bytes)) (sq : Z) : option (bytes * list (Z * bytes)) :=
  match l with
  | [] => None
  | (q, k) :: l =>
      if q =? sq then Some (k, l)
      else match skipped_pick l sq with
           | Some (k', l') => Some (k', (q, k) :: l')
           | None => None
           end
  end.

Definition skipped_take (r : TTRatchet) (sq : Z) : option (bytes * TTRatchet) :=
  match skipped_pick (skipped r) sq with
  | Some (k, l) => Some (k, r <| skipped := l |>)
  | None => None
  end.

(** ** Reliable transport *)

Definition reestablish_preserve (s : TTSession) : TTSession :=
  tt_session_clear <| pending := pending s |> <| rel := rel s |> <| lossy := lossy s |>.

Definition rel_sent_add (s : TTSession) (gen sq : Z) (src : text_src) (n : Z)
    : TTSession :=
  let b := sent (rel s) in
  let b := if (TT_SENT_MAX <=? sb_count b)%nat then
             mkSentBuf (<[sb_head b := zero_sent_msg]> (sb_m b))
               ((sb_head b + 1) mod TT_SENT_MAX) (sb_count b - 1)
           else b in
  let idx := ((sb_head b + sb_count b) mod TT_SENT_MAX)%nat in
  let data := overwrite (text_bytes b src n) (m_data (sent_slot b idx)) in
  let b := mkSentBuf (<[idx := mkSentMsg gen sq (u16 n) data]> (sb_m b))
             (sb_head b) (sb_count b + 1) in
  s <| rel := (rel s) <| sent := b |> |>.

(** One iteration of the compaction loops of [rel_sent_ack] and
    [rel_sent_remove]: entry [r] is dropped, or moved down to position [w]. *)
Definition sent_compact_step (gone : TTSentMsg -> bool) (head : nat)
    (st : list TTSentMsg * nat) (r : nat) : list TTSentMsg * nat :=
  let '(m, w) := st in
  let idx := ((head + r) mod TT_SENT_MAX)%nat in
  let e := default zero_sent_msg (m !! idx) in
  if gone e then (<[idx := zero_sent_msg]> m, w)
  else
    let m := if (w =? r)%nat then m else
               let widx := ((head + w) mod TT_SENT_MAX)%nat in
               <[idx := zero_sent_msg]> (<[widx := e]> m) in
    (m, S w).

Definition sent_compact (gone : TTSentMsg -> bool) (b : TTSentBuf) : TTSentBuf :=
  let '(m, w) := fold_left (sent_compact_step gone (sb_head b))
                   (List.seq 0 (sb_count b)) (sb_m b, 0%nat) in
  mkSentBuf m (sb_head b) w.

Definition rel_sent_ack (s : TTSession) (g acked : Z) : TTSession :=
  let gone e := (m_gen e =? g) && (m_seq e <=? acked) in
  s <| rel := (rel s) <| sent := sent_compact gone (sent (rel s)) |> |>.

Definition rel_sent_remove (s : TTSession) (gen sq : Z) : TTSession :=
  let gone e := (m_gen e =? gen) && (m_seq e =? sq) in
  s <| rel := (rel s) <| sent := sent_compact gone (sent (rel s)) |> |>.

(** The label is passed with length 12: its NUL is part of the context. *)
Definition control_key (s : TTSession) : bytes :=
  tt_kdf_root (ztake TT_KEY32 (root s) ++ [1]) (ascii_bytes "tt-e2ee-ctl" ++ [0]).

Definition rel_gen (s : TTSession) : Z :=
  let g := derive_from_root (root s) (ascii_bytes "tt-e2ee-gen") in
  rd32 (zat g 0) (zat g 1) (zat g 2) (zat g 3).

Definition hex_digit (d : Z) : Z := if d <? 10 then 48 + d else 87 + d.

Definition tt_session_verify_code (s : TTSession) : option bytes :=
  if negb (active s) then None else
  let vc := derive_from_root (root s) (ascii_bytes "tt-e2ee-vcode") in
  Some (v ← ztake 16 vc; [hex_digit (Z.shiftr v 4); hex_digit (Z.land v 15)]).

(** ** Handshake *)

Definition root_ctx (IKa IKb : bytes) : bytes :=
  ascii_bytes "tt-e2ee-root:" ++ ztake TT_KEY32 IKa ++ ztake TT_KEY32 IKb.

Definition establish (s : TTSession) (f1 f2 f3 kem_ss IKa IKb : bytes)
    (i_am_init : bool) (rng : Rng) : TTSession * Rng :=
  let ikm := ztake TT_KEY32 f1 ++ ztake TT_KEY32 f2 ++ ztake TT_KEY32 f3
             ++ ztake TT_KEY32 kem_ss in
  let rt := tt_kdf_root ikm (root_ctx IKa IKb) in
  let s := s <| root := rt |>
             <| send := ratchet_reset rt i_am_init |>
             <| recv := ratchet_reset rt (negb i_am_init) |> in
  let '((epk, esk), rng) := tt_dh_keygen rng in
  let '((kpk, ksk), rng) := tt_kem_keygen rng in
  (s <| rekey := (rekey s) <| eph_pk := epk |> <| eph_sk := esk |>
         <| rk_kem_pk := kpk |> <| rk_kem_sk := ksk |> <| have_kem := true |> |>, rng).

Definition build_init (s : TTSession) (env : TTE2EEEnv) (cap : Z) (rng : Rng)
    : option bytes * Rng :=
  let hdr := ztake TT_KEY32 (self_pk env) ++ ztake TT_KEY32 (eph_a2_pk s)
             ++ ztake TT_KEY32 (eph_a3_pk s) ++ ztake TT_KEM_PK (kem_pk s) in
  let '(nonce, rng) := randombytes TT_NONCE24 rng in
  (tt_frame_encode cap TT_FRAME_INIT 0 TT_FRAME_FLAG_KEM (init_seal s) nonce hdr [], rng).

Definition tt_session_start (s : TTSession) (env : TTE2EEEnv) (now cap : Z) (rng : Rng)
    : ret * TTSession * Rng :=
  match peer_pk env with
  | None => (Status TT_E2EE_NOKEY, s, rng)
  | Some peer =>
    let s := reestablish_preserve s in
    let s := s <| i_am_initiator := true |> <| init_pending := true |>
               <| init_at := now |> in
    let '((a2pk, a2sk), rng) := tt_dh_keygen rng in
    let '((a3pk, a3sk), rng) := tt_dh_keygen rng in
    let '((kpk, ksk), rng) := tt_kem_keygen rng in
    let s := s <| eph_a2_pk := a2pk |> <| eph_a2_sk := a2sk |>
               <| eph_a3_pk := a3pk |> <| eph_a3_sk := a3sk |>
               <| kem_pk := kpk |> <| kem_sk := ksk |> in
    match seal_key_derive (eph_a2_sk s) peer peer with
    | None => (Status TT_E2EE_BAD_ID, s, rng)
    | Some k =>
      let s := s <| init_seal := k |> in
      let '(out, rng) := build_init s env cap rng in
      match out with
      | Some f => (Bytes f, s, rng)
      | None => (Status TT_E2EE_BAD_STATE, s, rng)
      end
    end
  end.

Definition tt_session_reply (s : TTSession) (env : TTE2EEEnv) (cap : Z) (rng : Rng)
    : ret * TTSession * Rng :=
  match peer_pk env with
  | None => (Status TT_E2EE_NOKEY, s, rng)
  | Some peer =>
    if negb (reply_due s) then
      if 0 <? len (reply_cache s) then
        if cap <? len (reply_cache s) then (Status TT_E2EE_BAD_STATE, s, rng)
        else (Bytes (reply_cache s), s, rng)
      else (Status TT_E2EE_BAD_STATE, s, rng)
    else
      let s := s <| reply_due := false |> in
      let hdr := ztake TT_KEY32 (self_pk env) ++ ztake TT_KEY32 (eph_b1_pk s)
                 ++ ztake TT_KEY32 (eph_b3_pk s) ++ ztake TT_KEM_CT (kem_ct s) in
      match seal_key_derive (eph_b1_sk s) peer peer with
      | None => (Status TT_E2EE_BAD_ID, s, rng)
      | Some key =>
        let '(nonce, rng) := randombytes TT_NONCE24 rng in
        match tt_frame_encode cap TT_FRAME_REPLY 0 TT_FRAME_FLAG_KEM key nonce hdr [] with
        | None => (Status TT_E2EE_BAD_STATE, s, rng)
        | Some out => (Bytes out, s <| reply_cache := out |>, rng)
        end
      end
  end.

(** ** Receive: INIT *)

(** Open an INIT with the seal key derived from its own ephemeral key. *)
Definition open_init (env : TTE2EEEnv) (in_ : bytes) (d : TTFrameDesc)
    : option (option (bytes * (TTFrameDesc * bytes))) :=
  match seal_key_derive (self_sk env) (zsub 32 32 (d_hdr d)) (self_pk env) with
  | None => None
  | Some key =>
      Some (match tt_frame_decode in_ key 16 with
            | None => None
            | Some dp => Some (key, dp)
            end)
  end.

(** "INIT retransmit of the session we already accepted?" *)
Definition init_retransmit (s : TTSession) (env : TTE2EEEnv) (in_ : bytes)
    (d : TTFrameDesc) : bool :=
  active s && negb (i_am_initiator s) &&
  match open_init env in_ d with
  | Some (Some (_, (dd, pt))) => (len pt =? 0) && (d_seq dd =? 0)
  | _ => false
  end.

(** From the fresh INIT's decoded frame to the active responder session. *)
Definition accept_init (s : TTSession) (env : TTE2EEEnv) (peer key : bytes)
    (d : TTFrameDesc) (rng : Rng) : ret * bool * TTSession * Rng :=
  let s := s <| init_seal := key |> in
  let '((b1pk, b1sk), rng) := tt_dh_keygen rng in
  let '((b3pk, b3sk), rng) := tt_dh_keygen rng in
  let '((ct, ss), rng) := tt_kem_enc (zsub TT_SESSION_HDR_KEM TT_KEM_PK (d_hdr d)) rng in
  let s := s <| eph_b1_pk := b1pk |> <| eph_b1_sk := b1sk |>
             <| eph_b3_pk := b3pk |> <| eph_b3_sk := b3sk |> <| kem_ct := ct |> in
  match tt_dh_shared b1sk peer, tt_dh_shared (self_sk env) (zsub 32 32 (d_hdr d)),
        tt_dh_shared b3sk (zsub 64 32 (d_hdr d)) with
  | Some f1, Some f2, Some f3 =>
      let '(s, rng) := establish s f1 f2 f3 ss peer (self_pk env) false rng in
      (Bytes [], true,
       s <| i_am_initiator := false |> <| active := true |>
         <| reply_due := true |> <| init_pending := false |>, rng)
  | _, _, _ => (Status TT_E2EE_BAD_ID, false, s, rng)
  end.

Definition feed_init (s : TTSession) (env : TTE2EEEnv) (in_ : bytes)
    (d : TTFrameDesc) (rng : Rng) : ret * bool * TTSession * Rng :=
  if negb (d_hdr_len d =? TT_HDR_INIT) then (Status TT_E2EE_DECODE_FAIL, false, s, rng) else
  match peer_pk env with
  | None => (Status TT_E2EE_BAD_ID, false, s, rng)
  | Some peer =>
    if negb (bytes_eqb (ztake TT_KEY32 (d_hdr d)) peer)
    then (Status TT_E2EE_BAD_ID, false, s, rng) else
    if init_retransmit s env in_ d then (Bytes [], true, s, rng) else
    if i_am_initiator s && (active s || init_pending s) &&
       negb (active s || memcmp_lt (ztake TT_KEY32 (d_hdr d)) (self_pk env))
    then (Bytes [], false, s, rng) else
    let s := if i_am_initiator s && (active s || init_pending s)
             then reestablish_preserve s else s in
    match open_init env in_ d with
    | None => (Status TT_E2EE_BAD_ID, false, s, rng)
    | Some None => (Status TT_E2EE_DECODE_FAIL, false, s, rng)
    | Some (Some (key, (d, _))) => accept_init s env peer key d rng
    end
  end.

(** ** Receive: REPLY *)

Definition feed_reply (s : TTSession) (env : TTE2EEEnv) (in_ : bytes)
    (d : TTFrameDesc) (rng : Rng) : ret * bool * TTSession * Rng :=
  if negb (init_pending s) || active s then (Bytes [], false, s, rng) else
  if negb (d_hdr_len d =? TT_HDR_REPLY) then (Status TT_E2EE_DECODE_FAIL, false, s, rng) else
  match peer_pk env with
  | None => (Status TT_E2EE_BAD_ID, false, s, rng)
  | Some peer =>
    if negb (bytes_eqb (ztake TT_KEY32 (d_hdr d)) peer)
    then (Status TT_E2EE_BAD_ID, false, s, rng) else
    match seal_key_derive (self_sk env) (zsub 32 32 (d_hdr d)) (self_pk env) with
    | None => (Status TT_E2EE_BAD_ID, false, s, rng)
    | Some key =>
      match tt_frame_decode in_ key 16 with
      | None => (Status TT_E2EE_DECODE_FAIL, false, s, rng)
      | Some (d, _) =>
        match tt_dh_shared (self_sk env) (zsub 32 32 (d_hdr d)),
              tt_dh_shared (eph_a2_sk s) peer,
              tt_dh_shared (eph_a3_sk s) (zsub 64 32 (d_hdr d)) with
        | Some f1, Some f2, Some f3 =>
            let ss := tt_kem_dec (zsub TT_SESSION_HDR_KEM TT_KEM_CT (d_hdr d)) (kem_sk s) in
            let '(s, rng) := establish s f1 f2 f3 ss (self_pk env) peer true rng in
            (Bytes [], true,
             s <| init_pending := false |> <| i_am_initiator := true |>
               <| active := true |>, rng)
        | _, _, _ => (Status TT_E2EE_BAD_ID, false, s, rng)
        end
      end
    end
  end.

(** ** Receive: ACK and RESEND *)

Definition feed_control (s : TTSession) (in_ : bytes) (d : TTFrameDesc)
    : ret * TTSession :=
  if negb (active s) then (Status TT_E2EE_NO_SESSION, s) else
  if lossy s then (Status TT_E2EE_DECODE_FAIL, s) else
  if negb (d_hdr_len d =? 0) then (Status TT_E2EE_DECODE_FAIL, s) else
  match tt_frame_decode in_ (control_key s) 16 with
  | None => (Status TT_E2EE_DECODE_FAIL, s)
  | Some (d, p) =>
    if negb (len p =? 8) then (Status TT_E2EE_DECODE_FAIL, s) else
    let a := rd32 (zat p 0) (zat p 1) (zat p 2) (zat p 3) in
    let b := rd32 (zat p 4) (zat p 5) (zat p 6) (zat p 7) in
    if d_type d =? TT_FRAME_ACK then (Bytes [], rel_sent_ack s b a)
    else (Bytes [], s <| rel := (rel s) <| resend_rep_pending := true |>
                         <| resend_rep_gen := a |> <| resend_rep_from := b |>
                         <| resend_rep_pos := 0 |> |>)
  end.

(** ** Receive: DATA *)

(** The [while (s->recv.seq < d.seq)] loop: store the skipped keys. *)
Fixpoint recv_skip (n : nat) (r : TTRatchet) : TTRatchet :=
  match n with
  | O => r
  | S n =>
      let '(nc, mk) := tt_kdf_chain_step (chain r) in
      let '(ek, _) := tt_kdf_msg_material mk in
      let r := skipped_add (r <| chain := nc |>) (seq r) ek in
      recv_skip n (r <| seq := u32 (seq r + 1) |>)
  end.

(** Commit the chain past [sq]: the gap's keys, then one more step. *)
Definition recv_commit (r : TTRatchet) (sq : Z) : TTRatchet :=
  let r := recv_skip (Z.to_nat (sq - seq r)) r in
  r <| chain := (tt_kdf_chain_step (chain r)).1 |> <| seq := u32 (seq r + 1) |>.

(** The decryption key for [sq], without committing the chain:
    the key, the ratchet (a ring key is taken out), and [from_ring]. *)
Definition recv_key (r : TTRatchet) (sq : Z) : TTE2EEStatus + (bytes * TTRatchet * bool) :=
  if sq =? seq r then inr ((msg_key_at r sq).1, r, false)
  else if seq r <? sq then
    if TT_SESSION_MAX_SKIP <=? u32 (sq - seq r) then inl TT_E2EE_SEQ_TOO_OLD
    else inr ((msg_key_at r sq).1, r, false)
  else match skipped_take r sq with
       | None => inl TT_E2EE_REPLAY
       | Some (key, r) => inr (key, r, true)
       end.

(** Re-key material of a decrypted REKEY header: fold, then rotate. *)
Definition apply_rekey (s : TTSession) (hdr : bytes) (rng : Rng) : TTSession * Rng :=
  let k := rekey s in
  let ss := tt_kem_dec (ztake TT_KEM_CT hdr) (rk_kem_sk k) in
  let their_eph := zsub TT_HDR_DATA_DH_OFF TT_KEY32 hdr in
  match tt_dh_shared (eph_sk k) their_eph with
  | None => (s, rng)
  | Some dh =>
      let '((epk, esk), rng) := tt_dh_keygen rng in
      let '((kpk, ksk), rng) := tt_kem_keygen rng in
      (s <| recv := ratchet_fold (recv s) dh ss |>
         <| rekey := k <| peer_eph_pk := their_eph |>
                       <| eph_pk := epk |> <| eph_sk := esk |>
                       <| rk_kem_pk := kpk |> <| rk_kem_sk := ksk |>
                       <| have_kem := true |> <| published := false |>
                       <| post_fold_publish := true |> |>, rng)
  end.

(** Re-key material of a decrypted KEMPUB header: store the peer's keys. *)
Definition apply_kempub (s : TTSession) (hdr : bytes) : TTSession :=
  let k := rekey s in
  let their_eph := zsub TT_KEM_PK TT_KEY32 hdr in
  match tt_dh_shared (eph_sk k) their_eph with
  | None => s
  | Some _ =>
      let k := k <| peer_kem_pk := ztake TT_KEM_PK hdr |>
                 <| peer_eph_pk := their_eph |> <| peer_have := true |> in
      let k := if awaiting_peer k
               then k <| awaiting_peer := false |> <| rekey_due := true |>
               else if have_kem k && negb (published k)
               then k <| publish_back := true |>
               else k in
      s <| rekey := k |>
  end.

(** After a successful decrypt: commit, note the ACK, apply re-key material. *)
Definition data_accept (s : TTSession) (from_ring : bool) (d : TTFrameDesc)
    (rng : Rng) : TTSession * Rng :=
  let s := if from_ring then s else s <| recv := recv_commit (recv s) (d_seq d) |> in
  let top := u32 (seq (recv s) - 1) in
  let s := if negb (lossy s) && (recv_acked (rel s) <? top)
           then s <| rel := (rel s) <| recv_acked := top |> <| ack_due := true |> |>
           else s in
  if d_hdr_len d =? TT_HDR_DATA_REKEY then apply_rekey s (d_hdr d) rng
  else if d_hdr_len d =? TT_HDR_DATA_KEMPUB then (apply_kempub s (d_hdr d), rng)
  else (s, rng).

Definition feed_data (s : TTSession) (in_ : bytes) (d : TTFrameDesc) (pt_cap : Z)
    (rng : Rng) : ret * TTSession * Rng :=
  if negb (active s) then (Status TT_E2EE_NO_SESSION, s, rng) else
  if negb (d_hdr_len d =? 0) && negb (d_hdr_len d =? TT_HDR_DATA_REKEY) &&
     negb (d_hdr_len d =? TT_HDR_DATA_KEMPUB)
  then (Status TT_E2EE_DECODE_FAIL, s, rng) else
  match recv_key (recv s) (d_seq d) with
  | inl e => (Status e, s, rng)
  | inr (key, r, from_ring) =>
    let s := s <| recv := r |> in
    match tt_frame_decode in_ key pt_cap with
    | None =>
        let s := if from_ring then s <| recv := skipped_add r (d_seq d) key |> else s in
        let s := if active s && negb (lossy s) then
                   s <| rel := (rel s) <| resend_req_pending := true |>
                               <| resend_req_gen := rel_gen s |>
                               <| resend_req_from := seq (recv s) |> |>
                 else s in
        (Status TT_E2EE_DECODE_FAIL, s, rng)
    | Some (d, pt) =>
        let '(s, rng) := data_accept s from_ring d rng in
        (Bytes pt, s, rng)
    end
  end.

Definition tt_session_feed (s : TTSession) (env : TTE2EEEnv) (in_ : bytes)
    (pt_cap : Z) (rng : Rng) : ret * bool * TTSession * Rng :=
  match tt_frame_peek in_ with
  | None => (Status TT_E2EE_DECODE_FAIL, false, s, rng)
  | Some d =>
    let s := if (d_type d =? TT_FRAME_DATA) && (len in_ <=? TT_FRAME_MAX)
             then s <| last_in := in_ |> else s in
    if d_type d =? TT_FRAME_INIT then feed_init s env in_ d rng
    else if d_type d =? TT_FRAME_REPLY then feed_reply s env in_ d rng
    else if (d_type d =? TT_FRAME_ACK) || (d_type d =? TT_FRAME_RESEND) then
      let '(r, s) := feed_control s in_ d in (r, false, s, rng)
    else
      let '(r, s, rng) := feed_data s in_ d pt_cap rng in (r, false, s, rng)
  end.

(** ** Send *)

Definition our_pub_hdr (k : TTRekey) : bytes :=
  ztake TT_KEM_PK (rk_kem_pk k) ++ ztake TT_KEY32 (eph_pk k).

(** The re-key header of the next frame: the header, the extra flags, the
    pending fold [(dh, kem secret)], and the updated re-key state. *)
Definition select_header (k : TTRekey) (rng : Rng)
    : bytes * Z * option (bytes * bytes) * TTRekey * Rng :=
  if post_fold_publish k then
    (our_pub_hdr k, TT_FRAME_FLAG_PK, None,
     k <| published := true |> <| post_fold_publish := false |>
       <| publish_back := false |>, rng)
  else if rekey_due k && peer_have k then
    match tt_dh_shared (eph_sk k) (peer_eph_pk k) with
    | Some dh =>
        let '((ct, ss), rng) := tt_kem_enc (peer_kem_pk k) rng in
        (ztake TT_KEM_CT ct ++ ztake TT_KEY32 (eph_pk k),
         Z.lor TT_FRAME_FLAG_KEM TT_FRAME_FLAG_PK, Some (dh, ss), k, rng)
    | None => ([], 0, None, k, rng)
    end
  else if rekey_due k && negb (awaiting_peer k) then
    let '(k, rng) :=
      if negb (have_kem k) then
        let '((kpk, ksk), rng) := tt_kem_keygen rng in
        (k <| rk_kem_pk := kpk |> <| rk_kem_sk := ksk |> <| have_kem := true |>, rng)
      else (k, rng) in
    (our_pub_hdr k, TT_FRAME_FLAG_PK, None,
     k <| published := true |> <| awaiting_peer := true |> <| rekey_due := false |>, rng)
  else if publish_back k then
    (our_pub_hdr k, TT_FRAME_FLAG_PK, None,
     k <| published := true |> <| publish_back := false |>, rng)
  else ([], 0, None, k, rng).

Definition data_flags : Z :=
  if tt_aead_gcm_available then Z.lor TT_FRAME_FLAG_GCM TT_FRAME_FLAG_AES_HW else 0.

(** The auto-re-key trigger at the head of [emit_frame]. *)
Definition auto_rekey (s : TTSession) : TTRekey :=
  if negb (awaiting_peer (rekey s)) && (TT_SESSION_REKEY_EVERY <=? since_fold (send s))
  then (rekey s) <| rekey_due := true |> else rekey s.

(** The state after a frame went out: fold or count, then park a carrier. *)
Definition emit_commit (s : TTSession) (fold : option (bytes * bytes)) (hdr out : bytes)
    : TTSession :=
  let s := match fold with
           | Some (dh, ss) =>
               s <| send := (ratchet_fold (send s) dh ss) <| since_fold := 0 |> |>
                 <| rekey := (rekey s) <| rekey_due := false |> <| peer_have := false |> |>
           | None =>
               s <| send := (send s) <| since_fold := u16 (since_fold (send s) + 1) |> |>
           end in
  if lossy s && ((len hdr =? TT_HDR_DATA_REKEY) || (len hdr =? TT_HDR_DATA_KEMPUB)) &&
     (len out <=? TT_FRAME_MAX)
  then s <| rekey := (rekey s) <| carrier := out |> |>
  else s.

Definition emit_frame (s : TTSession) (src : text_src) (n cap : Z) (carrier_only : bool)
    (rng : Rng) : ret * TTSession * Rng :=
  if lossy s && (0 <? len (carrier (rekey s))) then (Status TT_E2EE_CARRIER, s, rng) else
  let k := auto_rekey s in
  let '(hdr, xflags, fold, k, rng) :=
    if negb (lossy s) || carrier_only then select_header k rng
    else ([], 0, None, k, rng) in
  let s := s <| rekey := k |> in
  let '(r, sq, key, nonce) := send_key (send s) in
  let s := s <| send := r |> in
  match tt_frame_encode cap TT_FRAME_DATA sq (Z.lor data_flags xflags) key nonce hdr
          (text_bytes (sent (rel s)) src n) with
  | None => (Status TT_E2EE_BAD_STATE, s, rng)
  | Some out =>
      let s := if negb (lossy s) then rel_sent_add s (rel_gen s) sq src n else s in
      (Bytes out, emit_commit s fold hdr out, rng)
  end.

Definition tt_session_rekey_pending (s : TTSession) : bool :=
  if negb (active s) then false
  else if negb (awaiting_peer (rekey s)) &&
          (TT_SESSION_REKEY_EVERY <=? since_fold (send s)) then true
  else if rekey_due (rekey s) && peer_have (rekey s) then true
  else if rekey_due (rekey s) && negb (awaiting_peer (rekey s)) then true
  else if post_fold_publish (rekey s) then true
  else if publish_back (rekey s) then true
  else false.

Definition tt_session_carrier (s : TTSession) (cap : Z) (rng : Rng)
    : ret * TTSession * Rng :=
  if negb (active s) then (Bytes [], s, rng) else
  if 0 <? len (carrier (rekey s)) then
    if cap <? len (carrier (rekey s)) then (Status TT_E2EE_BAD_STATE, s, rng)
    else (Bytes (carrier (rekey s)), s, rng)
  else if negb (tt_session_rekey_pending s) then (Bytes [], s, rng)
  else emit_frame s (TxtBuf []) 0 cap true rng.

Definition tt_session_carrier_pending (s : TTSession) : bool :=
  lossy s && (0 <? len (carrier (rekey s))).

Definition tt_session_carrier_done (s : TTSession) : TTSession :=
  s <| rekey := (rekey s) <| carrier := [] |> |>.

Definition tt_session_send (s : TTSession) (text : bytes) (cap : Z) (rng : Rng)
    : ret * TTSession * Rng :=
  if TT_FRAME_DATA_MAX <? len text then (Status TT_E2EE_BAD_STATE, s, rng) else
  if negb (active s) then
    if TT_SESSION_PENDING_MAX <=? len (pending s) then (Status TT_E2EE_BUSY, s, rng)
    else (Bytes [], (if 0 <? len text then s <| pending := pending s ++ [text] |> else s), rng)
  else emit_frame s (TxtBuf text) (len text) cap false rng.

Definition tt_session_send_lossy (s : TTSession) (text : bytes) (cap : Z) (rng : Rng)
    : ret * TTSession * Rng :=
  if TT_FRAME_DATA_MAX <? len text then (Status TT_E2EE_BAD_STATE, s, rng) else
  if negb (active s) then (Bytes [], s, rng)
  else emit_frame s (TxtBuf text) (len text) cap false rng.

Definition tt_session_flush (s : TTSession) (cap : Z) (rng : Rng)
    : ret * TTSession * Rng :=
  match active s, pending s with
  | true, text :: rest =>
      match emit_frame s (TxtBuf text) (len text) cap false rng with
      | (Bytes f, s, rng) => (Bytes f, s <| pending := rest |>, rng)
      | (Status e, s, rng) => (Status e, s, rng)
      end
  | _, _ => (Bytes [], s, rng)
  end.

(** ** Reliable transport: the next pending control frame *)

Definition control_frame (s : TTSession) (type a b cap : Z) (rng : Rng) : ret * Rng :=
  let payload := be32 a ++ be32 b in
  let '(nonce, rng) := randombytes TT_NONCE24 rng in
  match tt_frame_encode cap type 0 0 (control_key s) nonce [] payload with
  | Some out => (Bytes out, rng)
  | None => (Bytes [], rng)
  end.

(** The scan [for (r = ..; r < b->count; r++)] of the RESEND reply. *)
Fixpoint resend_scan (fuel : nat) (r : nat) (s : TTSession) (cap : Z) (rng : Rng)
    : option bytes * TTSession * Rng :=
  match fuel with
  | O => (None, s, rng)
  | S fuel =>
    let b := sent (rel s) in
    if (sb_count b <=? r)%nat then (None, s, rng) else
    let idx := ((sb_head b + r) mod TT_SENT_MAX)%nat in
    let m := sent_slot b idx in
    if negb (m_gen m =? resend_rep_gen (rel s)) || (m_seq m <? resend_rep_from (rel s))
    then resend_scan fuel (S r) s cap rng
    else
      match emit_frame s (TxtSlot idx) (m_len m) cap false rng with
      | (Bytes f, s, rng) => (Some f, rel_sent_remove s (m_gen m) (m_seq m), rng)
      | (Status _, s, rng) => resend_scan fuel (S r) s cap rng
      end
  end.

Definition tt_session_rel_poll (s : TTSession) (cap : Z) (rng : Rng)
    : ret * TTSession * Rng :=
  if negb (active s) then (Bytes [], s, rng) else
  if resend_req_pending (rel s) then
    let s := s <| rel := (rel s) <| resend_req_pending := false |> |> in
    let '(r, rng) := control_frame s TT_FRAME_RESEND (resend_req_gen (rel s))
                       (resend_req_from (rel s)) cap rng in
    (r, s, rng)
  else if resend_rep_pending (rel s) then
    match resend_scan (S (sb_count (sent (rel s)))) 0 s cap rng with
    | (Some f, s, rng) => (Bytes f, s, rng)
    | (None, s, rng) =>
        (Bytes [], s <| rel := (rel s) <| resend_rep_pending := false |> |>, rng)
    end
  else if ack_due (rel s) then
    let s := s <| rel := (rel s) <| ack_due := false |> |> in
    let '(r, rng) := control_frame s TT_FRAME_ACK (recv_acked (rel s)) (rel_gen s) cap rng in
    (r, s, rng)
  else (Bytes [], s, rng).

(** ** Tick, re-key request, harness hooks *)

Definition tt_session_tick (s : TTSession) (env : TTE2EEEnv) (now cap : Z) (rng : Rng)
    : ret * TTSession * Rng :=
  if negb (init_pending s) then (Bytes [], s, rng) else
  if now - init_at s <? 5 then (Bytes [], s, rng) else
  let s := s <| init_at := now |> in
  match build_init s env cap rng with
  | (Some f, rng) => (Bytes f, s, rng)
  | (None, rng) => (Bytes [], s, rng)
  end.

Definition tt_session_rekey_due (s : TTSession) : TTSession :=
  if negb (active s) then s
  else s <| rekey := (rekey s) <| rekey_due := true |> |>.

Definition tt_session_frame_at (s : TTSession) (sq cap : Z) : ret :=
  if negb (active s) then Status TT_E2EE_NO_SESSION else
  let '(key, nonce) := msg_key_at (send s) sq in
  match tt_frame_encode cap TT_FRAME_DATA sq data_flags key nonce []
          (ascii_bytes "m" ++ dec sq) with
  | Some f => Bytes f
  | None => Status TT_E2EE_NO_SESSION (* tt_frame_encode's own -1 *)
  end.

Definition tt_session_inject_older (s : TTSession) (cap : Z) : ret :=
  if negb (active s) then Status TT_E2EE_NO_SESSION
  else if (len (last_in s) =? 0) || (cap <? len (last_in s)) then Bytes []
  else Bytes (last_in s).
End session.
