(* ===== verification/SessionRatchet.v ===== *)
(** * SessionRatchet: the per-direction ratchet of [src/session.c]

    The stream of message keys of one direction, an abstract receive window
    (which sequence numbers are delivered, skipped or refused), and the proof
    that [recv_key]/[recv_commit]/[skipped_add] implement it. *)
From stdpp Require Import sorting.
From Stdlib Require Import Permutation.
From S2P Require Import Prelude Ring CText Crypto Frame Session.

(** ** The sender's key stream *)

Section stream.
Context {P : Prims}.

Lemma chain_steps_add n m c : chain_steps (n + m) c = chain_steps m (chain_steps n c).
Proof. revert c. induction n as [|n IH]; intros c; cbn [chain_steps Nat.add]; auto. Qed.

Lemma chain_steps_S n c : chain_steps (S n) c = (tt_kdf_chain_step (chain_steps n c)).1.
Proof. replace (S n) with (n + 1)%nat by lia. by rewrite chain_steps_add. Qed.

(** Message key and nonce of frame [sq] of the direction whose chain is [c]
    at sequence number [s0]. *)
Definition stream_key (c : bytes) (s0 sq : Z) : bytes * bytes :=
  tt_kdf_msg_material (tt_kdf_chain_step (chain_steps (Z.to_nat (sq - s0)) c)).2.

Definition at_stream (c : bytes) (s0 : Z) (r : TTRatchet) : Prop :=
  s0 <= seq r /\ chain r = chain_steps (Z.to_nat (seq r - s0)) c.

Lemma msg_key_at_stream c s0 r sq :
  at_stream c s0 r -> seq r <= sq -> msg_key_at r sq = stream_key c s0 sq.
Proof.
  intros [Hle Hc] Hsq. unfold msg_key_at, stream_key. rewrite Hc, <- chain_steps_add.
  do 2 f_equal. f_equal. f_equal. lia.
Qed.

Lemma send_key_stream c s0 r :
  at_stream c s0 r -> is_u32 (seq r + 1) ->
  exists r', send_key r = (r', seq r, (stream_key c s0 (seq r)).1,
                           (stream_key c s0 (seq r)).2) /\
    at_stream c s0 r' /\ seq r' = seq r + 1 /\ rroot r' = rroot r /\
    since_fold r' = since_fold r /\ skipped r' = skipped r.
Proof.
  intros [Hle Hc] Hu. unfold send_key, stream_key. rewrite <- Hc.
  destruct (tt_kdf_chain_step (chain r)) as [nc mk] eqn:E.
  cbn [snd]. destruct (tt_kdf_msg_material mk) as [key nonce].
  eexists. split; [reflexivity|]. cbn. unfold is_u32 in Hu. rewrite u32_small by lia.
  split_and!; try done. split; cbn; [lia|].
  replace (Z.to_nat (seq r + 1 - s0)) with (S (Z.to_nat (seq r - s0))) by lia.
  by rewrite chain_steps_S, <- Hc, E.
Qed.
End stream.

(** ** The abstract receive window

    [wnext] is the lowest sequence number never passed; [wskip] are the
    passed but undelivered numbers, oldest first. *)
Record window := mkWindow { wnext : Z; wskip : list Z }.

Inductive verdict := Deliver | TooOld | Replay.

Definition remove_seq (sq : Z) (l : list Z) : list Z := filter (fun q => q <> sq) l.

(** The window moves past [sq]: the gap is skipped, the oldest skipped
    numbers beyond the 96 kept are forgotten. *)
Definition window_pass (w : window) (sq : Z) : window :=
  mkWindow (sq + 1) (lastn (Z.to_nat TT_SESSION_SKIPPED_MAX)
                       (wskip w ++ seqZ (wnext w) (sq - wnext w))).

Definition window_step (w : window) (sq : Z) : verdict * window :=
  if wnext w <=? sq then
    if TT_SESSION_MAX_SKIP <=? sq - wnext w then (TooOld, w)
    else (Deliver, window_pass w sq)
  else if bool_decide (sq ∈ wskip w)
       then (Deliver, mkWindow (wnext w) (remove_seq sq (wskip w)))
       else (Replay, w).

(** A run over arriving sequence numbers: the ones delivered, in order. *)
Fixpoint window_run (w : window) (l : list Z) : list Z :=
  match l with
  | [] => []
  | sq :: l =>
      match window_step w sq with
      | (Deliver, w') => sq :: window_run w' l
      | (_, w') => window_run w' l
      end
  end.

Definition window_ok (w : window) : Prop :=
  NoDup (wskip w) /\ Forall (fun q => q < wnext w) (wskip w) /\
  (length (wskip w) <= Z.to_nat TT_SESSION_SKIPPED_MAX)%nat.

Lemma window_pass_ok w sq : window_ok w -> wnext w <= sq -> window_ok (window_pass w sq).
Proof.
  intros (Hnd & Hlt & Hlen) Hle. rewrite Forall_forall in Hlt.
  split_and!; cbn [wskip wnext window_pass]; [| |apply lastn_length].
  - eapply sublist_NoDup; [|apply lastn_sublist].
    apply NoDup_app. split_and!; [done| |apply NoDup_seqZ].
    intros x Hx%Hlt Hx'%elem_of_seqZ. lia.
  - apply Forall_drop, Forall_app. split; apply Forall_forall; intros x Hx.
    + apply Hlt in Hx. lia.
    + apply elem_of_seqZ in Hx. lia.
Qed.

Lemma window_step_ok w sq : window_ok w -> window_ok (window_step w sq).2.
Proof.
  intros Hw. unfold window_step. destruct (Z.leb_spec (wnext w) sq).
  - destruct (TT_SESSION_MAX_SKIP <=? sq - wnext w); [done|]. by apply window_pass_ok.
  - case_bool_decide; [|done]. destruct Hw as (Hnd & Hlt & Hlen).
    rewrite Forall_forall in Hlt. split_and!; cbn [snd wskip wnext].
    + by apply NoDup_filter.
    + apply Forall_forall. intros x [_ Hx]%list_elem_of_filter. by apply Hlt.
    + etrans; [apply length_filter|done].
Qed.

(** Only a delivery moves the window. *)
Lemma window_step_refuse w sq v w' :
  window_step w sq = (v, w') -> v <> Deliver -> w' = w.
Proof. unfold window_step. repeat case_goal; intros [= <- <-]; done. Qed.

(** What a run delivers was either never passed, or is still in the skip list. *)
Lemma window_run_fresh l : forall w, window_ok w ->
  NoDup (window_run w l) /\
  Forall (fun q => wnext w <= q \/ q ∈ wskip w) (window_run w l).
Proof.
  induction l as [|sq l IH]; intros w Hw; cbn [window_run]; [by split; constructor|].
  pose proof (window_step_ok w sq Hw) as Hw'. destruct Hw as (Hnd & Hlt & Hlen).
  rewrite Forall_forall in Hlt. unfold window_step in *.
  destruct (Z.leb_spec (wnext w) sq) as [Hge|Hlow].
  - destruct (TT_SESSION_MAX_SKIP <=? sq - wnext w); cbn [snd] in Hw'.
    { by apply IH. }
    destruct (IH _ Hw') as [Hn Hf]. rewrite Forall_forall in Hf.
    cbn [wnext wskip window_pass] in Hf.
    match type of Hn with NoDup ?r => assert (Hin : forall q, q ∈ r -> sq + 1 <= q \/
      q ∈ wskip w \/ wnext w <= q < sq) end.
    { intros q [Hq|Hq]%Hf; [by left|]. right.
      eapply elem_of_sublist in Hq; [|apply lastn_sublist].
      apply elem_of_app in Hq as [Hq|Hq%elem_of_seqZ]; [by left|right; lia]. }
    split.
    + constructor; [|done]. intros [Hq|[Hq%Hlt|Hq]]%Hin; lia.
    + constructor; [by left|]. apply Forall_forall. intros q [Hq|[Hq|Hq]]%Hin; [left; lia|by right|left; lia].
  - case_bool_decide as Hs; cbn [snd] in Hw'; [|by apply IH].
    destruct (IH _ Hw') as [Hn Hf]. rewrite Forall_forall in Hf. cbn [wnext wskip] in *.
    split.
    + constructor; [|done]. intros [Hq|[Hq _]%list_elem_of_filter]%Hf; [lia|done].
    + constructor; [by right|]. apply Forall_forall.
      intros q [Hq|[_ Hq]%list_elem_of_filter]%Hf; [by left|by right].
Qed.

(** ** The receiving ratchet implements the window *)

Definition window_of (r : TTRatchet) : window := mkWindow (seq r) (fst <$> skipped r).

Lemma filter_not_elem (sq : Z) (l : list Z) : sq ∉ l -> filter (fun q => q <> sq) l = l.
Proof.
  induction l as [|q l IH]; [done|]. rewrite not_elem_of_cons, filter_cons. intros [? ?].
  rewrite decide_True by done. by rewrite IH.
Qed.

Section recv_window.
Context {P : Prims} (c : bytes) (s0 : Z).

Definition keyed (q : Z) : Z * bytes := (q, (stream_key c s0 q).1).

(** The direction's receiving ratchet is [r]: its chain is the stream's, and
    every parked key is the stream's key of its number. *)
Record recv_ok (r : TTRatchet) : Prop := {
  ro_stream : at_stream c s0 r;
  ro_u32 : is_u32 (seq r);
  ro_window : window_ok (window_of r);
  ro_keys : skipped r = keyed <$> (fst <$> skipped r);
}.

(** [skipped_add] appends and keeps the last 96 entries. *)
Lemma skipped_add_lastn r q k :
  (length (skipped r) <= Z.to_nat TT_SESSION_SKIPPED_MAX)%nat ->
  skipped (skipped_add r q k) =
    lastn (Z.to_nat TT_SESSION_SKIPPED_MAX) (skipped r ++ [(q, k)]).
Proof.
  unfold skipped_add, TT_SESSION_SKIPPED_MAX, len, lastn. intros Hl. cbn.
  rewrite length_app. cbn [length].
  destruct (Z.leb_spec 96 (Z.of_nat (length (skipped r)))).
  - rewrite drop_app_le by lia. do 2 f_equal. lia.
  - by replace (length (skipped r) + 1 - Z.to_nat 96)%nat with 0%nat by lia.
Qed.

Lemma recv_skip_spec n : forall r,
  at_stream c s0 r -> 0 <= seq r -> seq r + Z.of_nat n < 2 ^ 32 ->
  (length (skipped r) <= Z.to_nat TT_SESSION_SKIPPED_MAX)%nat ->
  let r' := recv_skip n r in
  seq r' = seq r + Z.of_nat n /\ chain r' = chain_steps n (chain r) /\
  rroot r' = rroot r /\ since_fold r' = since_fold r /\
  skipped r' = lastn (Z.to_nat TT_SESSION_SKIPPED_MAX)
                 (skipped r ++ (keyed <$> seqZ (seq r) (Z.of_nat n))).
Proof.
  induction n as [|n IH]; intros r Hs Hlo Hb Hl.
  { cbn. rewrite app_nil_r, lastn_all by done. split_and!; try done. lia. }
  cbn [recv_skip chain_steps].
  destruct (tt_kdf_chain_step (chain r)) as [nc mk] eqn:E.
  destruct (tt_kdf_msg_material mk) as [ek iv] eqn:Em.
  assert (Hek : ek = (stream_key c s0 (seq r)).1).
  { unfold stream_key. destruct Hs as [_ <-]. rewrite E. cbn [snd]. by rewrite Em. }
  match goal with |- context [recv_skip n ?r1] => specialize (IH r1) end.
  change (seq (skipped_add (r <| chain := nc |>) (seq r) ek)) with (seq r) in *.
  rewrite (u32_small (seq r + 1)) in * by lia.
  destruct IH as (H1 & H2 & H3 & H4 & H5).
  - destruct Hs as [Hle Hc]. split; cbn; [lia|].
    replace (Z.to_nat (seq r + 1 - s0)) with (S (Z.to_nat (seq r - s0))) by lia.
    by rewrite chain_steps_S, <- Hc, E.
  - cbn. lia.
  - cbn. lia.
  - change (skipped _) with (skipped (skipped_add r (seq r) ek)).
    rewrite skipped_add_lastn by done. apply lastn_length.
  - cbn zeta. rewrite H1, H2, H3, H4, H5. split_and!; try done; [cbn; lia|].
    change (skipped (_ <| seq := _ |>)) with (skipped (skipped_add r (seq r) ek)).
    rewrite skipped_add_lastn, lastn_app_lastn by done. rewrite <- app_assoc.
    f_equal. f_equal. cbn [seq set_field]. subst ek.
    rewrite (seqZ_cons (seq r)) by lia. cbn. do 3 f_equal; lia.
Qed.

Lemma skipped_pick_spec (l : list Z) sq :
  NoDup l ->
  skipped_pick (keyed <$> l) sq =
    if bool_decide (sq ∈ l)
    then Some ((stream_key c s0 sq).1, keyed <$> remove_seq sq l) else None.
Proof.
  unfold remove_seq. induction 1 as [|q l Hq Hnd IH]; [done|].
  rewrite fmap_cons, filter_cons. unfold keyed at 1. cbn [skipped_pick]. destruct (Z.eqb_spec q sq) as [->|Hne].
  - rewrite (bool_decide_true _ (list_elem_of_here _ _)), decide_False by auto.
    by rewrite filter_not_elem.
  - rewrite decide_True by done. rewrite IH.
    rewrite (bool_decide_ext (sq ∈ q :: l) (sq ∈ l)); [by case_bool_decide|].
    rewrite elem_of_cons. split; [intros [->|?]; done|by right].
Qed.

Lemma recv_ok_lookup r :
  recv_ok r -> skipped r = keyed <$> wskip (window_of r).
Proof. intros [_ _ _ Hk]. exact Hk. Qed.

Lemma keyed_fst (l : list Z) : fst <$> (keyed <$> l) = l.
Proof. rewrite <- list_fmap_compose. by apply list_fmap_id. Qed.

(** Committing past [sq] is the window's forward step. *)
Lemma recv_commit_window r sq :
  recv_ok r -> seq r <= sq -> sq + 1 < 2 ^ 32 ->
  let r' := recv_commit r sq in
  recv_ok r' /\ window_of r' = window_pass (window_of r) sq /\
  rroot r' = rroot r /\ since_fold r' = since_fold r.
Proof.
  intros Hok Hle Hb. pose proof Hok as [Hs Hu Hw Hk].
  destruct Hu as [Hlo _]. pose proof Hw as (_ & _ & Hl). cbn in Hl.
  rewrite length_fmap in Hl.
  pose proof (recv_skip_spec (Z.to_nat (sq - seq r)) r Hs Hlo ltac:(lia) Hl)
    as (H1 & H2 & H3 & H4 & H5).
  rewrite Z2Nat.id in * by lia. rewrite Hk, <- fmap_app, <- fmap_lastn in H5.
  unfold recv_commit. set (r1 := recv_skip _ r) in *.
  rewrite H1, u32_small by lia. replace (seq r + (sq - seq r) + 1) with (sq + 1) by lia.
  assert (Hwin : window_of (r1 <| chain := (tt_kdf_chain_step (chain r1)).1 |>
                    <| seq := sq + 1 |>) = window_pass (window_of r) sq).
  { unfold window_of, window_pass. cbn [seq skipped set_field wnext wskip]. f_equal.
    by rewrite H5, keyed_fst. }
  cbn zeta. split_and!; [|done..]. split.
  - destruct Hs as [Hle0 Hc]. split; cbn [chain seq set_field]; [lia|].
    rewrite H2, Hc, <- chain_steps_add, <- chain_steps_S. f_equal. lia.
  - cbn. unfold is_u32. lia.
  - rewrite Hwin. by apply window_pass_ok.
  - cbn [skipped set_field]. by rewrite H5, keyed_fst.
Qed.

(** The decryption key and the committed ratchet follow the window. *)
Lemma recv_key_window r sq :
  recv_ok r -> 0 <= sq -> sq + 1 < 2 ^ 32 ->
  match window_step (window_of r) sq with
  | (Deliver, w) => exists r1 fr,
      recv_key r sq = inr ((stream_key c s0 sq).1, r1, fr) /\
      let r' := if fr then r1 else recv_commit r1 sq in
      recv_ok r' /\ window_of r' = w /\ rroot r' = rroot r /\
      since_fold r' = since_fold r
  | (TooOld, _) => recv_key r sq = inl TT_E2EE_SEQ_TOO_OLD
  | (Replay, _) => recv_key r sq = inl TT_E2EE_REPLAY
  end.
Proof.
  intros Hok Hlo Hb. pose proof Hok as [Hs Hu Hw Hk].
  unfold window_step, recv_key. change (wnext (window_of r)) with (seq r).
  unfold is_u32 in Hu. destruct (Z.leb_spec (seq r) sq) as [Hle|Hlt].
  - rewrite (msg_key_at_stream c s0) by done.
    assert (Hcommit := recv_commit_window r sq Hok Hle Hb).
    destruct (Z.eqb_spec sq (seq r)) as [He|Hne].
    { rewrite (proj2 (Z.leb_gt _ _)) by (unfold TT_SESSION_MAX_SKIP; lia). by exists r, false. }
    rewrite (proj2 (Z.ltb_lt _ _)) by lia. rewrite u32_small by lia.
    destruct (_ <=? _); [done|]. by exists r, false.
  - rewrite (proj2 (Z.eqb_neq _ _)), (proj2 (Z.ltb_ge _ _)) by lia.
    unfold skipped_take. rewrite Hk, skipped_pick_spec by apply Hw.
    change (fst <$> skipped r) with (wskip (window_of r)).
    case_bool_decide as Hin; [|done]. do 2 eexists. split; [done|].
    assert (Hwin : window_of (r <| skipped := keyed <$> remove_seq sq (wskip (window_of r)) |>)
      = mkWindow (seq r) (remove_seq sq (wskip (window_of r)))).
    { unfold window_of at 1. cbn. by rewrite keyed_fst. }
    cbn zeta. split_and!; [|done..]. split; [done|done| |].
    + rewrite Hwin. pose proof (window_step_ok (window_of r) sq Hw) as Hw'.
      unfold window_step in Hw'. change (wnext (window_of r)) with (seq r) in Hw'.
      rewrite (proj2 (Z.leb_gt _ _)), bool_decide_true in Hw' by (done || lia). done.
    + cbn. by rewrite keyed_fst.
Qed.
End recv_window.

(** A fresh ratchet is in step with its own chain at number 1. *)
Lemma ratchet_reset_ok {P : Prims} rt dir :
  recv_ok (chain (ratchet_reset rt dir)) 1 (ratchet_reset rt dir).
Proof.
  split.
  - by split.
  - done.
  - split_and!; cbn; [constructor|constructor|lia].
  - done.
Qed.
