(* ===== verification/SessionRecv.v ===== *)
(** * SessionRecv: what [tt_session_feed] does with DATA frames

    A direction's genuine frames, fed in any order with losses and
    duplicates, are delivered exactly as the abstract window of
    [SessionRatchet] says; a frame that does not authenticate changes nothing
    but the bookkeeping of the retransmit request. *)
From Stdlib Require Import Permutation.
From S2P Require Import Prelude CText Crypto SampleCrypto Frame Session SessionRatchet.

(** ** Feeding a sequence of frames *)

Section feed_all.
Context {P : Prims}.

Fixpoint feed_all (s : TTSession) (env : TTE2EEEnv) (fs : list bytes) (pt_cap : Z)
    (rng : Rng) : list ret * TTSession * Rng :=
  match fs with
  | [] => ([], s, rng)
  | f :: fs =>
      let '(r, _, s, rng) := tt_session_feed s env f pt_cap rng in
      let '(rs, s, rng) := feed_all s env fs pt_cap rng in
      (r :: rs, s, rng)
  end.

(** The frame [emit_frame] makes of [text] as number [sq] of a stream, when
    no re-key header rides on it. *)
Definition plain_frame (c : bytes) (s0 : Z) (m : Z * bytes) : option bytes :=
  let '(key, nonce) := stream_key c s0 m.1 in
  tt_frame_encode TT_FRAME_MAX TT_FRAME_DATA m.1 data_flags key nonce [] m.2.

Definition verdict_ret (v : verdict) (text : bytes) : ret :=
  match v with
  | Deliver => Bytes text
  | TooOld => Status TT_E2EE_SEQ_TOO_OLD
  | Replay => Status TT_E2EE_REPLAY
  end.
End feed_all.

(** What the abstract window answers to a sequence of messages. *)
Fixpoint window_results (w : window) (ms : list (Z * bytes)) : list ret :=
  match ms with
  | [] => []
  | m :: ms =>
      let '(v, w) := window_step w m.1 in verdict_ret v m.2 :: window_results w ms
  end.

Definition msg_ok (cap : Z) (m : Z * bytes) : Prop :=
  0 <= m.1 /\ m.1 + 1 < 2 ^ 32 /\ len m.2 <= cap.

Section feed_plain.
Context {P : Prims} {L : PrimLaws P}.

Lemma data_flags_clear :
  flag_set data_flags 240 = false /\ expected_hdr_len TT_FRAME_DATA data_flags = Some 0.
Proof. unfold data_flags. by destruct tt_aead_gcm_available. Qed.

(** Peek and decode of a frame the peer encoded under [key]. *)
Lemma encoded_data cap0 sq flags key nonce hdr text f cap :
  is_u32 sq -> TT_NONCE24 <= len nonce -> len text <= cap ->
  tt_frame_encode cap0 TT_FRAME_DATA sq flags key nonce hdr text = Some f ->
  exists d, tt_frame_peek f = Some d /\ tt_frame_decode f key cap = Some (d, text) /\
    d_type d = TT_FRAME_DATA /\ d_seq d = sq /\ d_hdr d = hdr /\ d_flags d = flags.
Proof.
  intros Hsq Hn Hc He. eexists.
  assert (Hd := tt_frame_encode_decode _ TT_FRAME_DATA _ _ _ _ _ _ _ cap
                  ltac:(by unfold is_byte, TT_FRAME_DATA; lia) Hsq Hn Hc He).
  split; [by eapply tt_frame_decode_peek|]. split; [exact Hd|done].
Qed.

Lemma stream_key_len c s0 sq : len (stream_key c s0 sq).2 = TT_NONCE24.
Proof. apply tt_kdf_msg_material_len. Qed.

(** One plain frame: the verdict and the next window are the abstract ones. *)
Lemma feed_plain c s0 s env m f cap rng :
  active s = true -> recv_ok c s0 (recv s) -> msg_ok cap m ->
  plain_frame c s0 m = Some f ->
  exists s', tt_session_feed s env f cap rng =
      (verdict_ret (window_step (window_of (recv s)) m.1).1 m.2, false, s', rng) /\
    active s' = true /\ recv_ok c s0 (recv s') /\
    window_of (recv s') = (window_step (window_of (recv s)) m.1).2 /\
    rekey s' = rekey s /\ send s' = send s /\ root s' = root s.
Proof.
  intros Ha Hok (Hlo & Hb & Hc) Hf. destruct m as [sq text]. cbn [fst snd] in *.
  unfold plain_frame in Hf. cbn [fst snd] in Hf.
  pose proof (stream_key_len c s0 sq) as Hnl.
  pose proof (recv_key_window c s0 (recv s) sq Hok Hlo Hb) as Hk.
  destruct (stream_key c s0 sq) as [key nonce]. cbn [snd fst] in *.
  destruct (encoded_data TT_FRAME_MAX sq _ key nonce [] text f cap ltac:(unfold is_u32; lia) ltac:(lia)
              Hc Hf) as (d & Hp & Hd & Ht & Hs & Hh & _).
  unfold tt_session_feed. rewrite Hp, Ht. cbn [Z.eqb TT_FRAME_DATA TT_FRAME_INIT
    TT_FRAME_REPLY TT_FRAME_ACK TT_FRAME_RESEND orb andb Pos.eqb].
  match goal with |- context [feed_data ?x] => set (s1 := x) end.
  assert (Hs1 : active s1 = true /\ recv s1 = recv s /\ rekey s1 = rekey s /\
                send s1 = send s /\ root s1 = root s)
    by (subst s1; by destruct (len f <=? _)).
  destruct Hs1 as (Ha1 & Hr1 & Hk1 & Hse1 & Hro1).
  unfold feed_data. rewrite Ha1. cbn [negb]. unfold d_hdr_len. rewrite Hh.
  cbn [len length Z.of_nat Z.eqb negb andb]. rewrite Hs, Hr1.
  destruct (window_step (window_of (recv s)) sq) as [[] w] eqn:Ew.
  2-3: rewrite Hk, (window_step_refuse _ _ _ _ Ew) by done; exists s1; by rewrite Hr1.
  destruct Hk as (r1 & fr & -> & Hr). rewrite Hd.
  unfold data_accept, d_hdr_len. rewrite Hh, Hs. cbn [len length Z.of_nat Z.eqb TT_HDR_DATA_REKEY TT_HDR_DATA_KEMPUB].
  destruct Hr as (Hr & Hw & _).
  eexists. split; [done|]. destruct fr; case_goal; done.
Qed.

Lemma feed_all_plain c s0 env cap ms : forall fs s rng,
  active s = true -> recv_ok c s0 (recv s) -> Forall (msg_ok cap) ms ->
  Forall2 (fun m f => plain_frame c s0 m = Some f) ms fs ->
  (feed_all s env fs cap rng).1.1 = window_results (window_of (recv s)) ms.
Proof.
  induction ms as [|m ms IH]; intros fs s rng Ha Hok Hms Hfs;
    inversion Hfs as [|? f ? fs' Hf Hfs']; subst; [done|].
  inversion Hms; subst. cbn [feed_all window_results].
  edestruct (feed_plain c s0 s env m) as (s' & -> & Ha' & Hok' & Hw & _); try done.
  specialize (IH fs' s' rng Ha' Hok'). rewrite Hw in IH.
  destruct (window_step (window_of (recv s)) m.1) as [v w]. cbn [fst snd] in *.
  rewrite <- IH by done. by destruct (feed_all s' env fs' cap rng) as [[??]?].
Qed.
End feed_plain.

(** ** Which messages a run delivered *)

Definition delivered_seqs (ms : list (Z * bytes)) (rs : list ret) : list Z :=
  omap (fun p => match p.2 with Bytes _ => Some p.1.1 | Status _ => None end) (zip ms rs).

Lemma delivered_window ms : forall w,
  delivered_seqs ms (window_results w ms) = window_run w (fst <$> ms).
Proof.
  induction ms as [|m ms IH]; intros w; [done|].
  cbn [window_results window_run fmap list_fmap fst].
  destruct (window_step w m.1) as [[] w']; unfold delivered_seqs in *; cbn;
    f_equal; apply IH.
Qed.

(** ** What a rejected DATA frame may change *)

Section hygiene.
Context {P : Prims}.

(** The receiving ratchet up to the order of the parked keys. *)
Record recv_equiv (r r' : TTRatchet) : Prop := {
  re_chain : chain r' = chain r;
  re_seq : seq r' = seq r;
  re_root : rroot r' = rroot r;
  re_fold : since_fold r' = since_fold r;
  re_skipped : Permutation (skipped r') (skipped r);
}.

Lemma recv_equiv_refl r : recv_equiv r r.
Proof. by split. Qed.

Lemma skipped_pick_perm l sq k l' :
  skipped_pick l sq = Some (k, l') -> Permutation (l' ++ [(sq, k)]) l.
Proof.
  revert k l'. induction l as [|[q k0] l IH]; intros k l'; [done|]. cbn [skipped_pick].
  destruct (Z.eqb_spec q sq) as [->|].
  - intros [= -> ->]. symmetry. apply Permutation_cons_append.
  - destruct (skipped_pick l sq) as [[k1 l1]|] eqn:E; [|done]. intros [= <- <-].
    cbn. constructor. by apply IH.
Qed.

(** Taking a key out of the ring and putting it back loses nothing. *)
Lemma skipped_take_add r sq k r' :
  len (skipped r) <= TT_SESSION_SKIPPED_MAX -> skipped_take r sq = Some (k, r') ->
  recv_equiv r (skipped_add r' sq k).
Proof.
  intros Hl. unfold skipped_take. destruct (skipped_pick _ _) as [[k0 l]|] eqn:E; [|done].
  intros [= <- <-]. apply skipped_pick_perm in E.
  pose proof (Permutation_length E) as Hlen. rewrite length_app in Hlen. cbn in Hlen.
  unfold skipped_add. cbn [skipped set_field].
  rewrite (proj2 (Z.leb_gt _ _)) by (unfold len in *; lia). by split.
Qed.

(** The fields a DATA frame may only touch by being accepted. *)
Record untouched (s s' : TTSession) : Prop := {
  un_active : active s' = active s;
  un_send : send s' = send s;
  un_rekey : rekey s' = rekey s;
  un_root : root s' = root s;
  un_pending : pending s' = pending s;
  un_sent : sent (rel s') = sent (rel s);
  un_acked : recv_acked (rel s') = recv_acked (rel s) /\ ack_due (rel s') = ack_due (rel s);
  un_recv : recv_equiv (recv s) (recv s');
}.

Lemma feed_data_rejected s in_ d cap rng e s' rng' :
  len (skipped (recv s)) <= TT_SESSION_SKIPPED_MAX ->
  feed_data s in_ d cap rng = (Status e, s', rng') -> untouched s s' /\ rng' = rng.
Proof.
  intros Hl. unfold feed_data.
  destruct (negb (active s)).
  { intros [= _ <- <-]. split; [|done]. by split; try apply recv_equiv_refl. }
  destruct (_ && _).
  { intros [= _ <- <-]. split; [|done]. by split; try apply recv_equiv_refl. }
  unfold recv_key. destruct (d_seq d =? seq (recv s)).
  2: destruct (seq (recv s) <? d_seq d).
  2: destruct (TT_SESSION_MAX_SKIP <=? u32 (d_seq d - seq (recv s))).
  4: destruct (skipped_take (recv s) (d_seq d)) as [[key r]|] eqn:Et.
  2, 5: intros [= _ <- <-]; (split; [|done]); by split; try apply recv_equiv_refl.
  all: destruct (tt_frame_decode _ _ _) as [[d0 pt]|]; [by destruct (data_accept _ _ _ _)|].
  all: intros [= _ <- <-]; split; [|done].
  all: destruct (_ && _); split; try done; cbn -[skipped_add];
    try apply recv_equiv_refl; by eapply skipped_take_add.
Qed.

Lemma feed_rejected s env in_ d cap rng e b s' rng' :
  len (skipped (recv s)) <= TT_SESSION_SKIPPED_MAX ->
  tt_frame_peek in_ = Some d -> d_type d = TT_FRAME_DATA ->
  tt_session_feed s env in_ cap rng = (Status e, b, s', rng') ->
  untouched s s' /\ b = false /\ rng' = rng.
Proof.
  intros Hl Hp Ht. unfold tt_session_feed. rewrite Hp, Ht.
  cbn [Z.eqb TT_FRAME_DATA TT_FRAME_INIT TT_FRAME_REPLY TT_FRAME_ACK TT_FRAME_RESEND
       orb andb Pos.eqb].
  destruct (feed_data _ _ _ _ _) as [[r0 s0] rng0] eqn:E. intros [= -> <- <- <-].
  apply feed_data_rejected in E as [[] ->]; [split; [|done]|].
  - destruct (len in_ <=? _); by split.
  - by destruct (len in_ <=? _).
Qed.
End hygiene.

(** ** Properties *)

(** C3: frames of one direction arriving in any order, with losses, duplicates
    and reordering, are answered by [tt_session_feed] exactly as the abstract
    window answers their sequence numbers: delivered with their text once,
    refused as replays once delivered or forgotten, refused as too far ahead
    beyond 512. *)
Theorem feed_refines_window {P : Prims} {L : PrimLaws P} c s0 s env cap ms fs rng :
  active s = true -> recv_ok c s0 (recv s) -> Forall (msg_ok cap) ms ->
  mapM (plain_frame c s0) ms = Some fs ->
  (feed_all s env fs cap rng).1.1 = window_results (window_of (recv s)) ms.
Proof. intros Ha Hok Hms Hfs%mapM_Some_1. by apply (feed_all_plain c s0). Qed.

(** Whatever the order of arrival and however often a frame is replayed,
    no sequence number of a direction is delivered twice. *)
Theorem feed_at_most_once {P : Prims} {L : PrimLaws P} c s0 s env cap ms fs rng :
  active s = true -> recv_ok c s0 (recv s) -> Forall (msg_ok cap) ms ->
  mapM (plain_frame c s0) ms = Some fs ->
  NoDup (delivered_seqs ms (feed_all s env fs cap rng).1.1).
Proof.
  intros Ha Hok Hms Hfs%mapM_Some_1. rewrite (feed_all_plain c s0 env cap ms) by done.
  rewrite delivered_window. apply window_run_fresh, Hok.
Qed.

(** A DATA frame that is refused for any reason (no session, a bad header
    length, too far ahead, replayed, not authentic) leaves the receive chain,
    its position and every parked key, the send ratchet, the root, the re-key
    state, the queues and the random generator as they were. *)
Theorem feed_refused_changes_nothing {P : Prims} s env in_ d cap rng e b s' rng' :
  len (skipped (recv s)) <= TT_SESSION_SKIPPED_MAX ->
  tt_frame_peek in_ = Some d -> d_type d = TT_FRAME_DATA ->
  tt_session_feed s env in_ cap rng = (Status e, b, s', rng') ->
  untouched s s' /\ b = false /\ rng' = rng.
Proof. apply feed_rejected. Qed.

(** ** Witnesses *)

Definition sample_env : TTE2EEEnv := mkEnv (zrep 32 1) (zrep 32 1) (Some (zrep 32 2)).
Definition sample_receiver : TTSession :=
  tt_session_init <| active := true |>
    <| recv := ratchet_reset (P:=sample_prims) (zrep 32 7) true |>.
Definition sample_chain : bytes := chain (recv sample_receiver).
Definition sample_msgs : list (Z * bytes) :=
  [(1, [104; 105]); (4, [33]); (4, [33]); (2, []); (518, [1]); (2, []); (3, [9])].
Definition sample_frames : list bytes :=
  Eval vm_compute in default [] (mapM (plain_frame (P:=sample_prims) sample_chain 1) sample_msgs).

Lemma sample_frames_ok :
  mapM (plain_frame (P:=sample_prims) sample_chain 1) sample_msgs = Some sample_frames.
Proof. vm_cast_no_check (eq_refl (Some sample_frames)). Qed.

Lemma sample_msgs_ok : Forall (msg_ok 100) sample_msgs.
Proof. repeat constructor; cbn; unfold len; cbn; lia. Qed.

Lemma feed_refines_window_witness :
  let rng : @Rng sample_prims := 5 in
  (feed_all sample_receiver sample_env sample_frames 100 rng).1.1
    = [Bytes [104; 105]; Bytes [33]; Status TT_E2EE_REPLAY; Bytes [];
       Status TT_E2EE_SEQ_TOO_OLD; Status TT_E2EE_REPLAY; Bytes [9]].
Proof.
  cbv zeta.
  rewrite (@feed_refines_window _ sample_laws sample_chain 1 sample_receiver sample_env
             100 sample_msgs); [vm_compute; reflexivity|reflexivity| | |].
  - apply ratchet_reset_ok.
  - exact sample_msgs_ok.
  - exact sample_frames_ok.
Defined.

Lemma feed_at_most_once_witness :
  let rng : @Rng sample_prims := 5 in
  NoDup (delivered_seqs sample_msgs
           (feed_all sample_receiver sample_env sample_frames 100 rng).1.1).
Proof.
  cbv zeta. apply (@feed_at_most_once _ sample_laws sample_chain 1).
  - reflexivity.
  - apply ratchet_reset_ok.
  - exact sample_msgs_ok.
  - exact sample_frames_ok.
Defined.

(** A frame whose last ciphertext byte was flipped. *)
Definition sample_forged : bytes :=
  match sample_frames with
  | f :: _ => ztake (len f - 1) f ++ [Z.lxor 1 (zat f (len f - 1))]
  | [] => []
  end.

Lemma feed_refused_changes_nothing_witness :
  exists d s', tt_frame_peek sample_forged = Some d /\
    @tt_session_feed sample_prims sample_receiver sample_env sample_forged 100 (5 : Z)
      = (Status TT_E2EE_DECODE_FAIL, false, s', 5) /\ untouched sample_receiver s'.
Proof.
  destruct (tt_frame_peek sample_forged) as [d|] eqn:Ep; [|vm_compute in Ep; discriminate].
  assert (Ht : d_type d = TT_FRAME_DATA).
  { vm_compute in Ep. injection Ep as <-. reflexivity. }
  destruct (@tt_session_feed sample_prims sample_receiver sample_env sample_forged 100 (5 : Z))
    as [[[r b] s'] rng'] eqn:E.
  assert (Hr : r = Status TT_E2EE_DECODE_FAIL).
  { vm_compute in E. by injection E as <- _ _ _. }
  subst r. exists d, s'.
  assert (Hl : len (skipped (recv sample_receiver)) <= TT_SESSION_SKIPPED_MAX)
    by (vm_compute; discriminate).
  destruct (@feed_refused_changes_nothing sample_prims sample_receiver sample_env
              sample_forged d 100 (5 : Z) _ b s' rng' Hl Ep Ht E) as (Hu & -> & ->).
  split; [reflexivity|]. split; [reflexivity|exact Hu].
Defined.
