(* ===== verification/SessionPair.v ===== *)
(** * SessionPair: two sessions talking to each other

    Agreement of the two ends of a conversation: the send ratchet of one is in
    step with the receive ratchet of the other, in both directions, and the
    re-key material each holds of the other is current.  Every frame one end
    emits and the other receives keeps this, through key publications and
    re-keys, and is delivered with its text. *)
From S2P Require Import Prelude CText Crypto SampleCrypto Frame Session SessionRatchet SessionRecv.

Section pair.
Context {P : Prims} {L : PrimLaws P}.

(** ** Agreement *)

(** A session's own re-key key pairs. *)
Record own_ok (k : TTRekey) : Prop := {
  own_have : have_kem k = true;
  own_eph : eph_pk k = scalarmult_base (eph_sk k);
  own_kem : exists r r', tt_kem_keygen r = ((rk_kem_pk k, rk_kem_sk k), r');
}.

(** What [kx] believes of the peer's keys, when it believes anything. *)
Definition view (kx ky : TTRekey) : Prop :=
  peer_have kx = true -> peer_kem_pk kx = rk_kem_pk ky /\ peer_eph_pk kx = eph_pk ky.

(** The direction from [x] to [y]: both ratchets on one key stream and one
    root, the receiver at most 511 frames behind. *)
Definition dir_sync (x y : TTRatchet) : Prop :=
  rroot x = rroot y /\ seq y <= seq x < seq y + TT_SESSION_MAX_SKIP /\
  exists c s0, at_stream c s0 x /\ recv_ok c s0 y.

Record pair_ok (x y : TTSession) : Prop := {
  po_active : active x = true /\ active y = true;
  po_own : own_ok (rekey x) /\ own_ok (rekey y);
  po_view : view (rekey x) (rekey y) /\ view (rekey y) (rekey x);
  po_dirs : dir_sync (send x) (recv y) /\ dir_sync (send y) (recv x);
}.

Lemma pair_ok_sym x y : pair_ok x y -> pair_ok y x.
Proof. intros [[] [] [] []]. by split. Qed.

(** Two re-key states with the same keys. *)
Record same_keys (k k' : TTRekey) : Prop := {
  sk_eph : eph_sk k' = eph_sk k /\ eph_pk k' = eph_pk k;
  sk_kem : rk_kem_pk k' = rk_kem_pk k /\ rk_kem_sk k' = rk_kem_sk k;
  sk_have : have_kem k' = have_kem k;
  sk_peer : peer_kem_pk k' = peer_kem_pk k /\ peer_eph_pk k' = peer_eph_pk k;
  sk_peer_have : peer_have k' = true -> peer_have k = true;
}.

Lemma same_keys_refl k : same_keys k k.
Proof. by split. Qed.

Lemma same_keys_own k k' : same_keys k k' -> own_ok k -> own_ok k'.
Proof.
  intros [[E1 E2] [E3 E4] E5 _ _] [H1 H2 H3].
  split; [by rewrite E5|by rewrite E1, E2|by rewrite E3, E4].
Qed.

Lemma same_keys_view k k' k2 : same_keys k k' -> view k k2 -> view k' k2.
Proof. intros [_ _ _ [E1 E2] Hp] Hv Hh. rewrite E1, E2. by apply Hv, Hp. Qed.

Lemma same_keys_view_r k k' k2 : same_keys k k' -> view k2 k -> view k2 k'.
Proof. intros [[_ E1] [E2 _] _ _ _] Hv Hh. rewrite E1, E2. by apply Hv. Qed.

(** ** What rides on a frame *)

Inductive header_kind (kx ky : TTRekey) : bytes -> Z -> option (bytes * bytes) -> Prop :=
| hk_plain : header_kind kx ky [] 0 None
| hk_kempub : header_kind kx ky (our_pub_hdr kx) TT_FRAME_FLAG_PK None
| hk_rekey ct ss dh :
    len ct = TT_KEM_CT -> tt_kem_dec ct (rk_kem_sk ky) = ss ->
    tt_dh_shared (eph_sk ky) (eph_pk kx) = Some dh ->
    header_kind kx ky (ct ++ eph_pk kx) (Z.lor TT_FRAME_FLAG_KEM TT_FRAME_FLAG_PK)
      (Some (dh, ss)).

Lemma own_eph_len k : own_ok k -> len (eph_pk k) = TT_KEY32.
Proof. intros [_ -> _]. apply scalarmult_base_len. Qed.

Lemma own_kem_len k : own_ok k -> len (rk_kem_pk k) = TT_KEM_PK.
Proof. intros [_ _ (r & r' & H)]. by apply tt_kem_keygen_len in H as []. Qed.

Lemma select_header_spec kx ky rng hdr fl fold k' rng' :
  own_ok kx -> own_ok ky -> view kx ky ->
  select_header kx rng = (hdr, fl, fold, k', rng') ->
  header_kind kx ky hdr fl fold /\ same_keys kx k'.
Proof.
  intros Hx Hy Hv. unfold select_header.
  destruct (post_fold_publish kx); [intros [= <- <- <- <- _]; split; by constructor|].
  destruct (rekey_due kx && peer_have kx) eqn:E1.
  { apply andb_true_iff in E1 as [_ Hp]. destruct (Hv Hp) as [Ek Ee].
    destruct (tt_dh_shared (eph_sk kx) (peer_eph_pk kx)) as [dh|] eqn:Edh;
      [|intros [= <- <- <- <- _]; split; by constructor].
    destruct (tt_kem_enc _ rng) as [[ct ss] r1] eqn:Eenc. intros [= <- <- <- <- _].
    destruct (tt_kem_enc_len _ _ _ _ _ Eenc) as [Hct _].
    rewrite (ztake_all TT_KEM_CT) by lia. rewrite ztake_all by (rewrite own_eph_len; done).
    split; [|by split]. constructor; [done| |].
    - destruct (own_kem ky Hy) as (r & r' & Hk). rewrite Ek in Eenc.
      by eapply tt_kem_correct.
    - rewrite Ee, (own_eph ky Hy) in Edh. rewrite (own_eph kx Hx), <- Edh.
      apply tt_dh_shared_comm. }
  destruct (rekey_due kx && negb (awaiting_peer kx)).
  { rewrite (own_have kx Hx). cbn [negb]. intros [= <- <- <- <- _]. split; by constructor. }
  destruct (publish_back kx); intros [= <- <- <- <- _]; split; by constructor.
Qed.

Lemma auto_rekey_same s : same_keys (rekey s) (auto_rekey s).
Proof. unfold auto_rekey. case_goal; by split. Qed.

(** ** Emission *)

(** A successful [emit_frame], seen from the peer [ky]. *)
Lemma emit_frame_inv x ky src n cap co rng f x' rng' :
  own_ok (rekey x) -> own_ok ky -> view (rekey x) ky ->
  emit_frame x src n cap co rng = (Bytes f, x', rng') ->
  let '(r, sq, key, nonce) := send_key (send x) in
  exists hdr fl fold,
    header_kind (rekey x) ky hdr fl fold /\
    tt_frame_encode cap TT_FRAME_DATA sq (Z.lor data_flags fl) key nonce hdr
      (text_bytes (sent (rel x)) src n) = Some f /\
    active x' = active x /\ recv x' = recv x /\ root x' = root x /\ lossy x' = lossy x /\
    same_keys (rekey x) (rekey x') /\
    send x' = match fold with
              | Some (dh, ss) => (ratchet_fold r dh ss) <| since_fold := 0 |>
              | None => r <| since_fold := u16 (since_fold r + 1) |>
              end /\
    (is_Some fold -> peer_have (rekey x') = false).
Proof.
  intros Hx Hy Hv. unfold emit_frame.
  destruct (_ && (0 <? _)); [done|].
  pose proof (auto_rekey_same x) as Hs.
  assert (Hsel : forall hdr fl fold k' rng1,
    (if negb (lossy x) || co then select_header (auto_rekey x) rng
     else ([], 0, None, auto_rekey x, rng)) = (hdr, fl, fold, k', rng1) ->
    header_kind (rekey x) ky hdr fl fold /\ same_keys (rekey x) k').
  { intros hdr fl fold k' rng1 H. destruct (negb (lossy x) || co).
    - apply (select_header_spec _ ky) in H as [Hk Hs'];
        [| by eapply same_keys_own | done | by eapply same_keys_view].
      destruct Hs as [[E1 E2] [E3 E4] E5 [E6 E7] E8], Hs' as [[F1 F2] [F3 F4] F5 [F6 F7] F8].
      split.
      + destruct Hk as [| |ct ss dh H1 H2 H3].
        * constructor.
        * unfold our_pub_hdr. rewrite E2, E3. constructor.
        * rewrite E2 in *. by constructor.
      + split; [by rewrite F1, F2|by rewrite F3, F4|by rewrite F5|by rewrite F6, F7|auto].
    - injection H as <- <- <- <- _. split; [constructor|done]. }
  destruct (if negb (lossy x) || co then _ else _) as [[[[hdr fl] fold] k'] rng1].
  destruct (Hsel _ _ _ _ _ eq_refl) as [Hk Hsk]. clear Hsel Hs.
  cbn [send set_field].
  destruct (send_key (send x)) as [[[r sq] key] nonce].
  destruct (tt_frame_encode _ _ _ _ _ _ _ _) as [out|] eqn:Eenc; [|done].
  intros [= <- <- _]. exists hdr, fl, fold. split; [done|]. split; [exact Eenc|].
  destruct Hsk as [[F1 F2] [F3 F4] F5 [F6 F7] F8].
  unfold emit_commit. cbn [lossy set_field].
  destruct fold as [[dh ss]|]; destruct (negb (lossy x));
    destruct (_ && (len out <=? TT_FRAME_MAX));
    cbn -[rel_sent_add ratchet_fold]; split_and!; try done; by intros [? [=]].
Qed.
(** ** Delivery *)

Lemma recv_key_forward c s0 r sq :
  recv_ok c s0 r -> is_u32 sq -> seq r <= sq < seq r + TT_SESSION_MAX_SKIP ->
  recv_key r sq = inr ((stream_key c s0 sq).1, r, false).
Proof.
  intros [Hs Hu _ _] Hsq [Hle Hgap]. unfold recv_key, is_u32 in *.
  rewrite (msg_key_at_stream c s0) by done.
  destruct (Z.eqb_spec sq (seq r)); [done|].
  rewrite (proj2 (Z.ltb_lt _ _)), u32_small, (proj2 (Z.leb_gt _ _)) by lia. done.
Qed.

Lemma fold_sync r y dh ss :
  rroot r = rroot y -> seq r = seq y -> is_u32 (seq y) ->
  dir_sync ((ratchet_fold r dh ss) <| since_fold := 0 |>) (ratchet_fold y dh ss).
Proof.
  intros Hr Hs Hu. unfold ratchet_fold. rewrite Hr.
  destruct (tt_kdf_root_step (rroot y) dh ss) as [nr nc].
  split; [done|]. split; [cbn; unfold TT_SESSION_MAX_SKIP; lia|].
  exists nc, (seq y). split.
  - split; cbn; [lia|]. by rewrite Hs, Z.sub_diag.
  - split; cbn; [|done| |done].
    + split; cbn; [lia|]. by rewrite Z.sub_diag.
    + split_and!; cbn; [constructor|constructor|lia].
Qed.

(** One frame's keys: the receiver, committed past it, is in step again. *)
Lemma step_sync x y r sq key nonce :
  dir_sync x y -> seq x + 1 < 2 ^ 32 -> send_key x = (r, sq, key, nonce) ->
  recv_key y sq = inr (key, y, false) /\ len nonce = TT_NONCE24 /\ is_u32 sq /\
  rroot r = rroot (recv_commit y sq) /\ seq r = seq (recv_commit y sq) /\
  is_u32 (seq r) /\ seq r = seq x + 1 /\
  (forall n, dir_sync (r <| since_fold := n |>) (recv_commit y sq)).
Proof.
  intros (Hroot & Hgap & c & s0 & Hx & Hy) Hb Hk.
  pose proof (ro_u32 _ _ _ Hy) as Hu. unfold is_u32 in Hu.
  destruct (send_key_stream c s0 x Hx ltac:(unfold is_u32; lia))
    as (r' & Hk' & Hr' & Hseq & Hroot' & _).
  rewrite Hk in Hk'. injection Hk' as -> -> -> ->.
  destruct (recv_commit_window c s0 y (seq x) Hy ltac:(lia) Hb) as (Hok & Hw & Hrt & _).
  assert (Hseq' : seq (recv_commit y (seq x)) = seq x + 1).
  { change (seq (recv_commit y (seq x))) with (wnext (window_of (recv_commit y (seq x)))).
    by rewrite Hw. }
  split_conj.
  - apply recv_key_forward; [done|unfold is_u32; lia|lia].
  - apply stream_key_len.
  - unfold is_u32; lia.
  - rewrite Hroot', Hroot. symmetry. exact Hrt.
  - by rewrite Hseq, Hseq'.
  - unfold is_u32; lia.
  - done.
  - intros n. split; [change (rroot r' = rroot (recv_commit y (seq x)));
      rewrite Hroot', Hroot; symmetry; exact Hrt|].
    split; [change (seq (_ <| since_fold := _ |>)) with (seq r');
      rewrite Hseq, Hseq'; unfold TT_SESSION_MAX_SKIP; lia|].
    exists c, s0. split; [exact Hr'|done].
Qed.

(** What an accepted frame with header [hdr] does to the receiving session. *)
Lemma data_accept_fields y fr d rng :
  let '(s1, _) := data_accept y fr d rng in
  active s1 = active y /\ send s1 = send y /\ root s1 = root y /\ lossy s1 = lossy y.
Proof.
  unfold data_accept, apply_rekey, apply_kempub.
  destruct fr, (_ && _);
  destruct (d_hdr_len d =? TT_HDR_DATA_REKEY);
  try destruct (d_hdr_len d =? TT_HDR_DATA_KEMPUB);
  try destruct (tt_dh_shared _ _); try done;
  by destruct (tt_dh_keygen rng) as [[??]?], (tt_kem_keygen _) as [[??]?].
Qed.
Lemma ztake_32 (l : bytes) : len l = TT_KEY32 -> ztake TT_KEY32 l = l.
Proof. intros. apply ztake_all. lia. Qed.

Lemma header_kind_len kx ky hdr fl fold :
  own_ok kx -> header_kind kx ky hdr fl fold ->
  match fold with
  | Some _ => len hdr = TT_HDR_DATA_REKEY
  | None => len hdr = 0 \/ len hdr = TT_HDR_DATA_KEMPUB
  end.
Proof.
  intros Hx [| |ct ss dh Hct _ _].
  - by left.
  - right. unfold our_pub_hdr. rewrite len_app, !ztake_all;
      rewrite ?own_eph_len, ?own_kem_len by done; done.
  - rewrite len_app, own_eph_len, Hct; done.
Qed.

(** The receiver applies a REKEY or KEMPUB header of an agreeing peer: its keys
    stay sound, the beliefs about the keys stay current, and a REKEY folds the
    receive ratchet as the sender folded. *)
Lemma apply_rekey_spec kx y ct ss dh rng :
  own_ok kx -> own_ok (rekey y) -> view (rekey y) kx -> len ct = TT_KEM_CT ->
  tt_kem_dec ct (rk_kem_sk (rekey y)) = ss ->
  tt_dh_shared (eph_sk (rekey y)) (eph_pk kx) = Some dh ->
  let '(y', _) := apply_rekey y (ct ++ eph_pk kx) rng in
  own_ok (rekey y') /\ view (rekey y') kx /\ recv y' = ratchet_fold (recv y) dh ss.
Proof.
  intros Hx Hy Hv Hct Hss Hdh. unfold apply_rekey.
  rewrite ztake_app, zsub_app by (rewrite ?own_eph_len; done || (symmetry; done)).
  rewrite Hss, Hdh.
  destruct (tt_dh_keygen rng) as [[epk esk] r1] eqn:E1.
  destruct (tt_kem_keygen r1) as [[kpk ksk] r2] eqn:E2.
  apply tt_dh_keygen_spec in E1 as (Epk & _).
  split; [split; [done|done|by exists r1, r2]|]. split; [|done].
  intros Hh. split; [by apply Hv|done].
Qed.

Lemma apply_kempub_spec kx y :
  own_ok kx -> own_ok (rekey y) -> view (rekey y) kx ->
  let y' := apply_kempub y (our_pub_hdr kx) in
  own_ok (rekey y') /\ view (rekey y') kx /\ recv y' = recv y /\
  eph_pk (rekey y') = eph_pk (rekey y) /\ rk_kem_pk (rekey y') = rk_kem_pk (rekey y).
Proof.
  intros Hx Hy Hv. unfold apply_kempub, our_pub_hdr.
  rewrite (ztake_all TT_KEM_PK (rk_kem_pk kx)) by (rewrite own_kem_len; done).
  rewrite (ztake_32 (eph_pk kx)) by by apply own_eph_len.
  rewrite ztake_app by (by rewrite own_kem_len).
  rewrite zsub_app by (rewrite ?own_kem_len, ?own_eph_len; done).
  cbv zeta. destruct (tt_dh_shared _ _); [|by split_conj].
  destruct Hy as [H1 H2 H3].
  destruct (awaiting_peer _); [|destruct (_ && _)]; split_conj; done.
Qed.

(** An accepted frame of an agreeing peer: commit, then the header's effect. *)
Lemma accept_header kx y d rng hdr fl fold :
  own_ok kx -> own_ok (rekey y) -> view (rekey y) kx ->
  header_kind kx (rekey y) hdr fl fold -> d_hdr d = hdr ->
  let '(y', _) := data_accept y false d rng in
  own_ok (rekey y') /\ view (rekey y') kx /\
  recv y' = match fold with
            | Some (dh, ss) => ratchet_fold (recv_commit (recv y) (d_seq d)) dh ss
            | None => recv_commit (recv y) (d_seq d)
            end /\
  (fold = None -> eph_pk (rekey y') = eph_pk (rekey y) /\
                  rk_kem_pk (rekey y') = rk_kem_pk (rekey y)).
Proof.
  intros Hx Hy Hv Hk Hd. pose proof (header_kind_len _ _ _ _ _ Hx Hk) as Hl.
  unfold data_accept, d_hdr_len. rewrite Hd.
  match goal with |- context [if negb ?l && ?b then ?a else ?z] =>
    set (y1 := if negb l && b then a else z) end.
  assert (Hy1 : recv y1 = recv_commit (recv y) (d_seq d) /\ rekey y1 = rekey y)
    by (subst y1; by destruct (_ && _)).
  destruct Hy1 as [Hr Hk1]. clearbody y1.
  destruct Hk as [| |ct ss dh Hct Hss Hdh].
  - change (len [] =? TT_HDR_DATA_REKEY) with false.
    change (len [] =? TT_HDR_DATA_KEMPUB) with false. cbv beta iota. by rewrite Hk1, Hr.
  - destruct Hl as [Hl|Hl]; [exfalso|].
    { unfold our_pub_hdr in Hl. rewrite len_app, !ztake_all in Hl;
        rewrite ?own_eph_len, ?own_kem_len in * by done; unfold TT_KEM_PK, TT_KEY32 in *; lia. }
    rewrite Hl. change (TT_HDR_DATA_KEMPUB =? TT_HDR_DATA_REKEY) with false.
    rewrite Z.eqb_refl. pose proof (apply_kempub_spec kx y1) as H. rewrite Hk1, Hr in H.
    destruct (H Hx Hy Hv) as (? & ? & ? & ?). cbv beta iota. by split_conj.
  - rewrite Hl, Z.eqb_refl. pose proof (apply_rekey_spec kx y1 ct ss dh rng) as H. rewrite Hk1, Hr in H.
    specialize (H Hx Hy Hv Hct Hss Hdh).
    destruct (apply_rekey y1 _ rng) as [y' r']. destruct H as (? & ? & ?).
    by split_conj.
Qed.

(** The frame is fed: the text comes out and the pair is in step again. *)
Lemma deliver x y env src n cap co rng f x' rng1 rng2 pt_cap :
  pair_ok x y -> seq (send x) + 1 < 2 ^ 32 ->
  len (text_bytes (sent (rel x)) src n) <= pt_cap ->
  emit_frame x src n cap co rng = (Bytes f, x', rng1) ->
  exists y' rng3, tt_session_feed y env f pt_cap rng2 =
      (Bytes (text_bytes (sent (rel x)) src n), false, y', rng3) /\
    pair_ok x' y' /\ seq (send x') = seq (send x) + 1 /\ seq (send y') = seq (send y) /\
    lossy x' = lossy x /\ lossy y' = lossy y /\ root x' = root x /\ root y' = root y.
Proof.
  intros [[Hax Hay] [Hox Hoy] [Hvx Hvy] [Hd Hd']] Hb Hlen He.
  pose proof (emit_frame_inv x (rekey y) src n cap co rng f x' rng1 Hox Hoy Hvx He) as Hinv.
  destruct (send_key (send x)) as [[[r sq] key] nonce] eqn:Ek.
  destruct Hinv as (hdr & fl & fold & Hk & Henc & Hax' & Hrx' & Hrt' & Hlx' & Hsk & Hsx' & Hp).
  destruct (step_sync _ _ _ _ _ _ Hd Hb Ek)
    as (Hrk & Hnl & Hsq & Hroot & Hseq & Hu & Hsx & Hplain).
  destruct (encoded_data cap sq _ key nonce hdr _ f pt_cap Hsq ltac:(lia) Hlen Henc)
    as (d & Hpk & Hdec & Hty & Hds & Hdh & _).
  unfold tt_session_feed. rewrite Hpk, Hty.
  cbn [Z.eqb TT_FRAME_DATA TT_FRAME_INIT TT_FRAME_REPLY TT_FRAME_ACK TT_FRAME_RESEND
       orb andb Pos.eqb].
  match goal with |- context [feed_data ?z] => set (y1 := z) end.
  assert (Hy1 : active y1 = true /\ recv y1 = recv y /\ rekey y1 = rekey y /\
    send y1 = send y /\ root y1 = root y /\ lossy y1 = lossy y)
    by (subst y1; by destruct (len f <=? _)).
  destruct Hy1 as (Ha1 & Hr1 & Hk1 & Hs1 & Hro1 & Hl1). clearbody y1.
  pose proof (header_kind_len _ _ _ _ _ Hox Hk) as Hhl.
  unfold feed_data. rewrite Ha1, Hds, Hr1, Hrk, Hdec. cbn [negb].
  assert (Hgate : negb (d_hdr_len d =? 0) && negb (d_hdr_len d =? TT_HDR_DATA_REKEY) &&
                  negb (d_hdr_len d =? TT_HDR_DATA_KEMPUB) = false).
  { unfold d_hdr_len. rewrite Hdh.
    destruct fold; [|destruct Hhl]; apply not_true_iff_false; intros ?; bool_to_prop; lia. }
  rewrite Hgate. clear Hgate.
  pose proof (data_accept_fields (y1 <| recv := recv y |>) false d rng2) as Hf.
  destruct (data_accept _ false d rng2) as [y' rng3] eqn:Ea.
  destruct Hf as (Hfa & Hfs & Hfr & Hfl).
  change (active y' = active y1) in Hfa. change (send y' = send y1) in Hfs.
  change (root y' = root y1) in Hfr. change (lossy y' = lossy y1) in Hfl.
  exists y', rng3. split; [done|].
  pose proof (accept_header (rekey x) (y1 <| recv := recv y |>) d rng2 hdr fl fold) as Ha.
  rewrite Ea in Ha. cbn [rekey recv set_field] in Ha. rewrite Hk1, Hds in Ha.
  destruct (Ha Hox Hoy Hvy Hk Hdh) as (Ho' & Hv' & Hr' & Hkeys). clear Ha Ea.
  assert (Hsync : dir_sync (send x') (recv y') /\ seq (send x') = seq r).
  { rewrite Hsx', Hr'. destruct fold as [[dh ss]|].
    - split; [|done]. apply fold_sync; [done|done|by rewrite <- Hseq].
    - split; [|done]. apply Hplain. }
  destruct Hsync as [Hsync Hseq'].
  split; [split|].
  - rewrite Hax', Hfa. by split.
  - split; [by eapply same_keys_own|done].
  - split; [|by eapply same_keys_view_r].
    destruct fold as [p|]; [intros Hh; by rewrite Hp in Hh by eauto|].
    destruct (Hkeys eq_refl) as [E1 E2]. eapply same_keys_view in Hvx; [|done].
    intros Hh. rewrite E1, E2. by apply Hvx.
  - split; [done|]. rewrite Hrx', Hfs. by rewrite Hs1.
  - rewrite Hseq', Hsx, Hfs, Hs1, Hlx', Hfl, Hl1, Hrt', Hfr, Hro1. by split_conj.
Qed.
(** ** Emission succeeds *)

Definition parked (x : TTSession) : bool := lossy x && (0 <? len (carrier (rekey x))).

Lemma data_hdr_flags kx ky hdr fl fold :
  own_ok kx -> header_kind kx ky hdr fl fold ->
  flag_set (Z.lor data_flags fl) 240 = false /\
  expected_hdr_len (u8 TT_FRAME_DATA) (Z.lor data_flags fl) = Some (len hdr) /\
  (flag_set (Z.lor data_flags fl) TT_FRAME_FLAG_GCM = true -> tt_aead_gcm_available = true).
Proof.
  intros Hx [| |ct ss dh Hct _ _].
  2: unfold our_pub_hdr; rewrite len_app, !ztake_all, own_eph_len, own_kem_len
       by (rewrite ?own_eph_len, ?own_kem_len by done; done).
  3: rewrite len_app, Hct, own_eph_len by done.
  all: unfold data_flags; destruct tt_aead_gcm_available; done.
Qed.

Lemma header_kind_bound kx ky hdr fl fold :
  own_ok kx -> header_kind kx ky hdr fl fold -> 0 <= len hdr <= TT_HDR_DATA_KEMPUB.
Proof.
  intros Hx Hk. apply header_kind_len in Hk; [|done].
  unfold TT_HDR_DATA_KEMPUB, TT_HDR_DATA_REKEY in *. destruct fold; [lia|destruct Hk; lia].
Qed.

(** With room for the largest header, or where no header may ride, a session
    that has no parked carrier always produces a frame. *)
Lemma emit_frame_some x ky src n cap co rng :
  own_ok (rekey x) -> own_ok ky -> view (rekey x) ky ->
  parked x = false -> TT_FRAME_MAX <= cap ->
  len (text_bytes (sent (rel x)) src n) + (if negb (lossy x) || co then TT_HDR_DATA_KEMPUB else 0) <= TT_FRAME_DATA_MAX ->
  exists f x' rng', emit_frame x src n cap co rng = (Bytes f, x', rng').
Proof.
  intros Hx Hy Hv Hp Hcap Hlen. unfold emit_frame. fold (parked x). rewrite Hp.
  assert (Hsel : exists hdr fl fold k' rng1,
    (if negb (lossy x) || co then select_header (auto_rekey x) rng
     else ([], 0, None, auto_rekey x, rng)) = (hdr, fl, fold, k', rng1) /\
    header_kind (auto_rekey x) ky hdr fl fold /\
    len hdr <= if negb (lossy x) || co then TT_HDR_DATA_KEMPUB else 0).
  { pose proof (auto_rekey_same x) as Hs.
    pose proof (same_keys_own _ _ Hs Hx) as Hx'.
    destruct (negb (lossy x) || co).
    - destruct (select_header (auto_rekey x) rng) as [[[[hdr fl] fold] k'] rng1] eqn:E.
      apply (select_header_spec _ ky) in E as [Hk _]; [|done|done|by eapply same_keys_view].
      exists hdr, fl, fold, k', rng1. split_conj; [done|done|]. by eapply header_kind_bound.
    - exists [], 0, None, (auto_rekey x), rng. split_conj; [done|constructor|done]. }
  destruct Hsel as (hdr & fl & fold & k' & rng1 & -> & Hk & Hhl).
  cbn [send set_field]. destruct (send_key (send x)) as [[[r sq] key] nonce].
  pose proof (same_keys_own _ _ (auto_rekey_same x) Hx) as Hx'.
  pose proof (data_hdr_flags _ _ _ _ _ Hx' Hk) as (Hf & He & Hg).
  change (sent (rel (_ <| send := r |>))) with (sent (rel x)).
  destruct (tt_frame_encode_some cap TT_FRAME_DATA sq (Z.lor data_flags fl) key nonce hdr
    (text_bytes (sent (rel x)) src n) Hf He Hg) as [out ->]; [|done|by eauto].
  pose proof (frame_nonce_len_bounds (Z.lor data_flags fl)).
  unfold TT_FRAME_DATA_MAX, TT_FRAME_HEAD_MAX in Hlen. lia.
Qed.

(** ** A conversation *)

(** [x] says [text]; what comes out at [y]. *)
Definition say (x y : TTSession) (envy : TTE2EEEnv) (text : bytes) (rng : Rng)
    : ret * TTSession * TTSession * Rng :=
  match tt_session_send x text TT_FRAME_MAX rng with
  | (Bytes f, x, rng) =>
      let '(r, _, y, rng) := tt_session_feed y envy f TT_FRAME_DATA_MAX rng in (r, x, y, rng)
  | (Status e, x, rng) => (Status e, x, y, rng)
  end.

(** Any interleaving of the two sides' messages: [true] is said by [x].  The
    results, in order, and the two sessions afterwards. *)
Fixpoint converse (x y : TTSession) (envx envy : TTE2EEEnv) (l : list (bool * bytes))
    (rng : Rng) : list ret * TTSession * TTSession :=
  match l with
  | [] => ([], x, y)
  | (true, text) :: l =>
      let '(r, x, y, rng) := say x y envy text rng in
      let '(rs, x, y) := converse x y envx envy l rng in (r :: rs, x, y)
  | (false, text) :: l =>
      let '(r, y, x, rng) := say y x envx text rng in
      let '(rs, x, y) := converse x y envx envy l rng in (r :: rs, x, y)
  end.

(** The largest text that fits beside the largest re-key header. *)
Definition SAY_MAX : Z := TT_FRAME_DATA_MAX - TT_HDR_DATA_KEMPUB.

Lemma say_delivers x y envy text rng :
  pair_ok x y -> lossy x = false -> seq (send x) + 1 < 2 ^ 32 -> len text <= SAY_MAX ->
  exists x' y' rng', say x y envy text rng = (Bytes text, x', y', rng') /\
    pair_ok x' y' /\ seq (send x') = seq (send x) + 1 /\ seq (send y') = seq (send y) /\
    lossy x' = lossy x /\ lossy y' = lossy y /\ root x' = root x /\ root y' = root y.
Proof.
  intros Hp Hl Hb Ht. unfold say, tt_session_send, SAY_MAX in *.
  destruct Hp as [[Ha Ha'] [Ho Ho'] [Hv Hv'] Hd] eqn:Ep.
  assert (Hpair : pair_ok x y) by done. clear Ep.
  rewrite (proj2 (Z.ltb_ge _ _)) by (unfold TT_HDR_DATA_KEMPUB in *; lia).
  rewrite Ha. cbn [negb].
  assert (Htx : text_bytes (sent (rel x)) (TxtBuf text) (len text) = text)
    by by apply ztake_all.
  destruct (emit_frame_some x (rekey y) (TxtBuf text) (len text) TT_FRAME_MAX false rng
    Ho Ho' Hv) as (f & x' & rng1 & He);
    [by unfold parked; rewrite Hl|done|rewrite Hl, Htx; cbn [negb orb]; lia|].
  rewrite He.
  destruct (deliver x y envy _ _ _ _ _ f x' rng1 rng1 TT_FRAME_DATA_MAX Hpair Hb
    ltac:(rewrite Htx; unfold TT_HDR_DATA_KEMPUB in *; lia) He)
    as (y' & rng3 & -> & Hp' & ? & ? & ? & ? & ? & ?).
  exists x', y', rng3. by rewrite Htx.
Qed.

Lemma converse_delivers envx envy l : forall x y rng,
  pair_ok x y -> lossy x = false -> lossy y = false ->
  seq (send x) + len l < 2 ^ 32 -> seq (send y) + len l < 2 ^ 32 ->
  Forall (fun e => len e.2 <= SAY_MAX) l ->
  exists x' y', converse x y envx envy l rng = ((fun e => Bytes e.2) <$> l, x', y') /\
    pair_ok x' y' /\ root x' = root x /\ root y' = root y.
Proof.
  induction l as [|[[] text] l IH]; intros x y rng Hp Hlx Hly Hbx Hby Hl; [by eauto 10| |];
    apply Forall_cons in Hl as [Ht Hl]; rewrite len_cons in *; pose proof (len_nonneg l);
    cbn [converse snd] in *; rewrite fmap_cons.
  - destruct (say_delivers x y envy text rng)
      as (x' & y' & rng' & -> & Hp' & ? & ? & ? & ? & <- & <-); [done|done|lia|done|].
    destruct (IH x' y' rng') as (x2 & y2 & -> & ? & ? & ?);
      [done|congruence|congruence|lia|lia|done|by eauto 10].
  - destruct (say_delivers y x envx text rng)
      as (y' & x' & rng' & -> & Hp' & ? & ? & ? & ? & <- & <-);
      [by apply pair_ok_sym|done|lia|done|].
    destruct (IH x' y' rng') as (x2 & y2 & -> & ? & ? & ?);
      [by apply pair_ok_sym|congruence|congruence|lia|lia|done|by eauto 10].
Qed.
End pair.
