(* ===== verification/SessionHandshake.v ===== *)
(** * SessionHandshake: establishing a session

    Two sessions that exchange one INIT and one REPLY end up agreeing: same
    root, same verification code, ratchets crossed over and in step.  Together
    with [SessionPair] this gives the end-to-end property of a conversation. *)
From S2P Require Import Prelude CText Crypto SampleCrypto Frame Session SessionRatchet SessionRecv SessionPair.

(** ** The exchange *)

Section exchange.
Context {P : Prims}.

(** [a] starts, [b] accepts and replies, [a] accepts the reply. *)
Definition handshake (a b : TTSession) (enva envb : TTE2EEEnv) (now : Z) (rng : Rng)
    : option (TTSession * TTSession * Rng) :=
  match tt_session_start a enva now TT_FRAME_MAX rng with
  | (Bytes f1, a, rng) =>
      match tt_session_feed b envb f1 0 rng with
      | (Bytes [], true, b, rng) =>
          match tt_session_reply b envb TT_FRAME_MAX rng with
          | (Bytes f2, b, rng) =>
              match tt_session_feed a enva f2 0 rng with
              | (Bytes [], true, a, rng) => Some (a, b, rng)
              | _ => None
              end
          | _ => None
          end
      | _ => None
      end
  | _ => None
  end.

(** The engine's environments on the two machines. *)
Record envs_match (ea eb : TTE2EEEnv) : Prop := {
  em_a : self_pk ea = scalarmult_base (self_sk ea);
  em_b : self_pk eb = scalarmult_base (self_sk eb);
  em_peer_a : peer_pk ea = Some (self_pk eb);
  em_peer_b : peer_pk eb = Some (self_pk ea);
}.

(** A responder with nothing under way. *)
Definition fresh (s : TTSession) : Prop :=
  active s = false /\ i_am_initiator s = false /\ peer_have (rekey s) = false.
End exchange.

Section agreement.
Context {P : Prims} {L : PrimLaws P}.

(** ** Handshake headers *)

Definition hs_hdr (n : Z) (a b c k : bytes) : bytes :=
  ztake TT_KEY32 a ++ ztake TT_KEY32 b ++ ztake TT_KEY32 c ++ ztake n k.

Lemma hs_hdr_parts n a b c k :
  len a = TT_KEY32 -> len b = TT_KEY32 -> len c = TT_KEY32 -> len k = n ->
  ztake TT_KEY32 (hs_hdr n a b c k) = a /\ zsub 32 32 (hs_hdr n a b c k) = b /\
  zsub 64 32 (hs_hdr n a b c k) = c /\ zsub TT_SESSION_HDR_KEM n (hs_hdr n a b c k) = k /\
  len (hs_hdr n a b c k) = 96 + n.
Proof.
  intros Ha Hb Hc Hk. unfold hs_hdr. rewrite (ztake_32 a), (ztake_32 b), (ztake_32 c) by done.
  rewrite (ztake_all n) by lia. unfold TT_KEY32, TT_SESSION_HDR_KEM in *.
  split_conj.
  - apply ztake_app. lia.
  - unfold zsub. rewrite zdrop_app by lia. apply ztake_app. lia.
  - unfold zsub. rewrite (app_assoc a b), zdrop_app by (rewrite len_app; lia).
    apply ztake_app. lia.
  - rewrite !app_assoc. rewrite zsub_app; [done| |done]. rewrite !len_app; lia.
  - rewrite !len_app. lia.
Qed.

(** Sealing and opening a handshake frame with the mirrored DH leg. *)
Lemma seal_key_mirror a b ad :
  seal_key_derive a (scalarmult_base b) ad = seal_key_derive b (scalarmult_base a) ad.
Proof. unfold seal_key_derive. by rewrite tt_dh_shared_comm. Qed.

Lemma seal_key_some a b ad : is_Some (seal_key_derive a (scalarmult_base b) ad).
Proof.
  unfold seal_key_derive, tt_dh_shared. destruct (scalarmult_honest a b) as [k ->]. eauto.
Qed.

Lemma dh_some a b : exists k, tt_dh_shared a (scalarmult_base b) = Some k.
Proof. apply scalarmult_honest. Qed.

(** A handshake frame always encodes, and is peeked and decoded back. *)
Lemma handshake_frame type cap key nonce hdr f :
  type = TT_FRAME_INIT \/ type = TT_FRAME_REPLY ->
  TT_NONCE24 <= len nonce ->
  tt_frame_encode cap type 0 TT_FRAME_FLAG_KEM key nonce hdr [] = Some f ->
  exists d, tt_frame_peek f = Some d /\ tt_frame_decode f key 16 = Some (d, []) /\
    d_type d = type /\ d_seq d = 0 /\ d_hdr d = hdr.
Proof.
  intros Ht Hn He. eexists.
  assert (Hd := tt_frame_encode_decode cap type 0 TT_FRAME_FLAG_KEM key nonce hdr [] f 16
    ltac:(unfold is_byte, TT_FRAME_INIT, TT_FRAME_REPLY in *; lia)
    ltac:(unfold is_u32; lia) Hn ltac:(unfold len; cbn; lia) He).
  split; [by eapply tt_frame_decode_peek|]. split; [exact Hd|done].
Qed.

Lemma handshake_frame_some type key nonce hdr n :
  (type = TT_FRAME_INIT /\ n = TT_KEM_PK) \/ (type = TT_FRAME_REPLY /\ n = TT_KEM_CT) ->
  len hdr = 96 + n ->
  is_Some (tt_frame_encode TT_FRAME_MAX type 0 TT_FRAME_FLAG_KEM key nonce hdr []).
Proof.
  intros [[-> ->]|[-> ->]] Hl; apply tt_frame_encode_some; rewrite ?Hl;
    try (vm_compute; done); vm_compute; discriminate.
Qed.

(** ** Establishing *)

Lemma establish_spec s f1 f2 f3 ss ika ikb i rng s' rng' :
  establish s f1 f2 f3 ss ika ikb i rng = (s', rng') ->
  let rt := tt_kdf_root (ztake TT_KEY32 f1 ++ ztake TT_KEY32 f2 ++ ztake TT_KEY32 f3
                         ++ ztake TT_KEY32 ss) (root_ctx ika ikb) in
  root s' = rt /\ send s' = ratchet_reset rt i /\ recv s' = ratchet_reset rt (negb i) /\
  own_ok (rekey s') /\ peer_have (rekey s') = peer_have (rekey s) /\
  lossy s' = lossy s /\ pending s' = pending s /\ rel s' = rel s /\
  eph_b1_sk s' = eph_b1_sk s /\
  eph_b1_pk s' = eph_b1_pk s /\ eph_b3_sk s' = eph_b3_sk s /\
  eph_b3_pk s' = eph_b3_pk s /\ kem_ct s' = kem_ct s.
Proof.
  unfold establish. destruct (tt_dh_keygen rng) as [[epk esk] r1] eqn:E1.
  destruct (tt_kem_keygen r1) as [[kpk ksk] r2] eqn:E2. intros [= <- <-].
  apply tt_dh_keygen_spec in E1 as (Epk & _).
  split_conj; try done. split; [done|done|by exists r1, r2].
Qed.

Lemma reset_sync rt i : dir_sync (ratchet_reset rt i) (ratchet_reset rt i).
Proof.
  split; [done|]. split; [done|]. exists (chain (ratchet_reset rt i)), 1.
  split; [by split|apply ratchet_reset_ok].
Qed.
(** ** The initiator's side before the REPLY *)

(** [a] has an INIT outstanding, carried by the frame [f]. *)
Record offered (ea eb : TTE2EEEnv) (a : TTSession) (f : bytes) : Prop := {
  of_active : active a = false;
  of_init : init_pending a = true /\ i_am_initiator a = true;
  of_dh : eph_a2_pk a = scalarmult_base (eph_a2_sk a) /\
          eph_a3_pk a = scalarmult_base (eph_a3_sk a);
  of_kem : exists r r', tt_kem_keygen r = ((kem_pk a, kem_sk a), r');
  of_have : peer_have (rekey a) = false;
  of_frame : exists d key, tt_frame_peek f = Some d /\ tt_frame_decode f key 16 = Some (d, []) /\
    d_type d = TT_FRAME_INIT /\ d_seq d = 0 /\
    d_hdr d = hs_hdr TT_KEM_PK (self_pk ea) (eph_a2_pk a) (eph_a3_pk a) (kem_pk a) /\
    seal_key_derive (eph_a2_sk a) (self_pk eb) (self_pk eb) = Some key;
}.

Lemma start_spec ea eb a now rng :
  envs_match ea eb ->
  exists f a' rng', tt_session_start a ea now TT_FRAME_MAX rng = (Bytes f, a', rng') /\
    offered ea eb a' f /\ lossy a' = lossy a /\ pending a' = pending a /\ rel a' = rel a.
Proof.
  intros [Ha Hb Hpa Hpb]. unfold tt_session_start. rewrite Hpa.
  destruct (tt_dh_keygen rng) as [[a2pk a2sk] r1] eqn:E1.
  destruct (tt_dh_keygen r1) as [[a3pk a3sk] r2] eqn:E2.
  destruct (tt_kem_keygen r2) as [[kpk ksk] r3] eqn:E3.
  apply tt_dh_keygen_spec in E1 as (Ea2 & Hl2 & _).
  apply tt_dh_keygen_spec in E2 as (Ea3 & Hl3 & _).
  pose proof (tt_kem_keygen_len _ _ _ _ E3) as [Hlk _].
  cbn [eph_a2_sk set_field].
  destruct (seal_key_some a2sk (self_sk eb) (self_pk eb)) as [key Hkey].
  rewrite <- Hb in Hkey. rewrite Hkey. unfold build_init.
  destruct (randombytes TT_NONCE24 r3) as [nonce r4] eqn:Er.
  pose proof (randombytes_len TT_NONCE24 r3 ltac:(done)) as Hnl. rewrite Er in Hnl. cbn in Hnl.
  cbn [eph_a2_pk eph_a3_pk kem_pk init_seal set_field].
  fold (hs_hdr TT_KEM_PK (self_pk ea) a2pk a3pk kpk).
  destruct (hs_hdr_parts TT_KEM_PK (self_pk ea) a2pk a3pk kpk) as (_ & _ & _ & _ & Hhl);
    [by rewrite Ha; apply scalarmult_base_len|done..|].
  destruct (handshake_frame_some TT_FRAME_INIT key nonce _ TT_KEM_PK
    ltac:(by left) Hhl) as [f Hf].
  rewrite Hf. do 3 eexists. split; [done|].
  split; [|by split_conj].
  destruct (handshake_frame TT_FRAME_INIT TT_FRAME_MAX key nonce
    (hs_hdr TT_KEM_PK (self_pk ea) a2pk a3pk kpk) f) as (d & ? & ? & ? & ? & ?);
    [by left|lia|done|].
  split; try done; [by exists r2, r3|]. exists d, key. by split_conj.
Qed.

(** ** The responder accepts *)

(** The root both ends compute from the three DH legs and the KEM secret. *)
Definition agreed_root (f1 f2 f3 ss pka pkb : bytes) : bytes :=
  tt_kdf_root (ztake TT_KEY32 f1 ++ ztake TT_KEY32 f2 ++ ztake TT_KEY32 f3
               ++ ztake TT_KEY32 ss) (root_ctx pka pkb).

(** [b] accepted the offer of [a]; its REPLY is due. *)
Record accepted (ea eb : TTE2EEEnv) (a b : TTSession) : Prop := {
  ac_active : active b = true;
  ac_reply : reply_due b = true /\ i_am_initiator b = false /\ init_pending b = false;
  ac_dh : eph_b1_pk b = scalarmult_base (eph_b1_sk b) /\
          eph_b3_pk b = scalarmult_base (eph_b3_sk b);
  ac_ct : len (kem_ct b) = TT_KEM_CT;
  ac_root : exists f1 f2 f3,
    tt_dh_shared (eph_b1_sk b) (self_pk ea) = Some f1 /\
    tt_dh_shared (self_sk eb) (eph_a2_pk a) = Some f2 /\
    tt_dh_shared (eph_b3_sk b) (eph_a3_pk a) = Some f3 /\
    root b = agreed_root f1 f2 f3 (tt_kem_dec (kem_ct b) (kem_sk a)) (self_pk ea) (self_pk eb);
  ac_send : send b = ratchet_reset (root b) false;
  ac_recv : recv b = ratchet_reset (root b) true;
  ac_own : own_ok (rekey b);
  ac_have : peer_have (rekey b) = false;
}.

(** Opening the INIT: the key derived from its header is its seal key. *)
Lemma open_init_spec ea eb a f d key :
  envs_match ea eb -> eph_a2_pk a = scalarmult_base (eph_a2_sk a) ->
  zsub 32 32 (d_hdr d) = eph_a2_pk a ->
  seal_key_derive (eph_a2_sk a) (self_pk eb) (self_pk eb) = Some key ->
  tt_frame_decode f key 16 = Some (d, []) ->
  open_init eb f d = Some (Some (key, (d, []))).
Proof.
  intros [Ha Hb _ _] He Hz Hk Hd. unfold open_init. rewrite Hz, He.
  rewrite seal_key_mirror, <- Hb, Hk, Hd. done.
Qed.

(** Past the gates of [feed_init], with no belief about the peer's keys. *)
Lemma accept_core ea eb a b d key rng :
  envs_match ea eb -> eph_a2_pk a = scalarmult_base (eph_a2_sk a) ->
  eph_a3_pk a = scalarmult_base (eph_a3_sk a) ->
  (exists r r', tt_kem_keygen r = ((kem_pk a, kem_sk a), r')) ->
  zsub 32 32 (d_hdr d) = eph_a2_pk a -> zsub 64 32 (d_hdr d) = eph_a3_pk a ->
  zsub TT_SESSION_HDR_KEM TT_KEM_PK (d_hdr d) = kem_pk a -> peer_have (rekey b) = false ->
  exists b' rng', accept_init b eb (self_pk ea) key d rng = (Bytes [], true, b', rng') /\
    accepted ea eb a b' /\ lossy b' = lossy b /\ pending b' = pending b /\ rel b' = rel b.
Proof.
  intros [Hea Heb Hpa Hpb] Ha2 Ha3 (kr & kr' & Hkem) P2 P3 P4 Hb3. unfold accept_init.
  destruct (tt_dh_keygen rng) as [[b1pk b1sk] r1] eqn:E1.
  destruct (tt_dh_keygen r1) as [[b3pk b3sk] r2] eqn:E2.
  rewrite P4. destruct (tt_kem_enc (kem_pk a) r2) as [[ct ss] r3] eqn:E3.
  apply tt_dh_keygen_spec in E1 as (Eb1 & _).
  apply tt_dh_keygen_spec in E2 as (Eb3 & _).
  pose proof (tt_kem_enc_len _ _ _ _ _ E3) as [Hct _].
  pose proof (tt_kem_correct _ _ _ _ _ _ _ _ Hkem E3) as Hss.
  rewrite P2, P3.
  destruct (dh_some b1sk (self_sk ea)) as [f1 Hf1]. rewrite <- Hea in Hf1.
  destruct (dh_some (self_sk eb) (eph_a2_sk a)) as [f2 Hf2]. rewrite <- Ha2 in Hf2.
  destruct (dh_some b3sk (eph_a3_sk a)) as [f3 Hf3]. rewrite <- Ha3 in Hf3.
  rewrite Hf1, Hf2, Hf3.
  destruct (establish _ f1 f2 f3 ss (self_pk ea) (self_pk eb) false r3) as [b1 r4] eqn:Ee.
  apply establish_spec in Ee
    as (Hrt & Hsd & Hrv & Hown & Hph & Hlo & Hpe & Hre & Q1 & Q2 & Q3 & Q4 & Q5).
  cbn [eph_b1_sk eph_b1_pk eph_b3_sk eph_b3_pk kem_ct peer_have rekey lossy pending rel
       set_field] in Hph, Hlo, Hpe, Hre, Q1, Q2, Q3, Q4, Q5.
  do 2 eexists. split; [done|].
  split; [|by rewrite <- Hlo, <- Hpe, <- Hre].
  split; cbn [active reply_due i_am_initiator init_pending eph_b1_pk eph_b1_sk eph_b3_pk
              eph_b3_sk kem_ct root send recv rekey set_field]; try done.
  - by rewrite Q1, Q2, Q3, Q4.
  - by rewrite Q5.
  - exists f1, f2, f3. rewrite Q1, Q3, Q5. split_conj; try done. by rewrite Hss.
  - by rewrite Hsd, Hrt.
  - by rewrite Hrv, Hrt.
  - by rewrite Hph.
Qed.

(** How [feed_init] treats the INIT of an honest peer, by the receiver's role. *)
Lemma feed_offer ea eb a b f cap rng :
  envs_match ea eb -> offered ea eb a f ->
  let accepts b0 := exists b' rng',
    tt_session_feed b eb f cap rng = (Bytes [], true, b', rng') /\
    accepted ea eb a b' /\ lossy b' = lossy b0 /\ pending b' = pending b0 /\ rel b' = rel b0 in
  if active b && negb (i_am_initiator b) then
    tt_session_feed b eb f cap rng = (Bytes [], true, b, rng)
  else if i_am_initiator b && (active b || init_pending b) then
    if active b || memcmp_lt (self_pk ea) (self_pk eb) then accepts b
    else tt_session_feed b eb f cap rng = (Bytes [], false, b, rng)
  else peer_have (rekey b) = false -> accepts b.
Proof.
  intros Henv [Hact Hinit [Ha2 Ha3] (kr & kr' & Hkem) Hhave
    (d & key & Hp & Hdec & Ht & Hs & Hh & Hkey)] accepts.
  pose proof Henv as [Hea Heb Hpa Hpb].
  pose proof (tt_kem_keygen_len _ _ _ _ Hkem) as [Hlk _].
  destruct (hs_hdr_parts TT_KEM_PK (self_pk ea) (eph_a2_pk a) (eph_a3_pk a) (kem_pk a))
    as (P1 & P2 & P3 & P4 & P5);
    [by rewrite ?Hea, ?Ha2, ?Ha3; apply scalarmult_base_len..|done|].
  rewrite <- Hh in P1, P2, P3, P4, P5.
  pose proof (open_init_spec ea eb a f d key Henv Ha2 P2 Hkey Hdec) as Hopen.
  pose proof (fun b0 => accept_core ea eb a b0 d key rng Henv Ha2 Ha3
    (ex_intro _ kr (ex_intro _ kr' Hkem)) P2 P3 P4) as Hcore.
  assert (Hfeed : tt_session_feed b eb f cap rng = feed_init b eb f d rng).
  { unfold tt_session_feed. rewrite Hp, Ht.
    change (TT_FRAME_INIT =? TT_FRAME_DATA) with false.
    by change (TT_FRAME_INIT =? TT_FRAME_INIT) with true. }
  unfold accepts. clear accepts. rewrite Hfeed. unfold feed_init, d_hdr_len.
  rewrite P5. change (96 + TT_KEM_PK =? TT_HDR_INIT) with true. cbn [negb].
  rewrite Hpb, P1, bytes_eqb_refl. unfold init_retransmit. rewrite Hopen, Hs. cbn [negb].
  change ((len [] =? 0) && (0 =? 0)) with true. rewrite andb_true_r.
  destruct (active b && negb (i_am_initiator b)); [done|].
  destruct (i_am_initiator b && (active b || init_pending b)); cbn [andb].
  - destruct (active b || memcmp_lt (self_pk ea) (self_pk eb)); cbn [negb]; [|done].
    destruct (Hcore (reestablish_preserve b) eq_refl) as (b' & r & -> & ?). by exists b', r.
  - intros Hb. destruct (Hcore b Hb) as (b' & r & -> & ?). by exists b', r.
Qed.

Lemma accept_spec ea eb a b f rng :
  envs_match ea eb -> offered ea eb a f -> fresh b ->
  exists b' rng', tt_session_feed b eb f 0 rng = (Bytes [], true, b', rng') /\
    accepted ea eb a b' /\ lossy b' = lossy b /\ pending b' = pending b.
Proof.
  intros Henv Hof (Hb1 & Hb2 & Hb3).
  pose proof (feed_offer ea eb a b f 0 rng Henv Hof) as H. rewrite Hb1, Hb2 in H.
  destruct (H Hb3) as (b' & r & ? & ? & ? & ? & _). by exists b', r.
Qed.

(** ** The responder replies *)

Lemma reply_spec ea eb a b rng :
  envs_match ea eb -> accepted ea eb a b ->
  exists f rng', tt_session_reply b eb TT_FRAME_MAX rng =
      (Bytes f, b <| reply_due := false |> <| reply_cache := f |>, rng') /\
    exists d key, tt_frame_peek f = Some d /\ tt_frame_decode f key 16 = Some (d, []) /\
      d_type d = TT_FRAME_REPLY /\
      d_hdr d = hs_hdr TT_KEM_CT (self_pk eb) (eph_b1_pk b) (eph_b3_pk b) (kem_ct b) /\
      seal_key_derive (eph_b1_sk b) (self_pk ea) (self_pk ea) = Some key.
Proof.
  intros [Hea Heb Hpa Hpb] Hac. destruct (ac_dh _ _ _ _ Hac) as [H1 H3].
  destruct (ac_reply _ _ _ _ Hac) as (Hd & _).
  unfold tt_session_reply. rewrite Hpb, Hd. cbn [negb].
  destruct (seal_key_some (eph_b1_sk b) (self_sk ea) (self_pk ea)) as [key Hkey].
  rewrite <- Hea in Hkey.
  cbn [eph_b1_pk eph_b1_sk eph_b3_pk kem_ct set_field]. rewrite Hkey.
  destruct (randombytes TT_NONCE24 rng) as [nonce r1] eqn:Er.
  pose proof (randombytes_len TT_NONCE24 rng ltac:(done)) as Hnl. rewrite Er in Hnl. cbn in Hnl.
  fold (hs_hdr TT_KEM_CT (self_pk eb) (eph_b1_pk b) (eph_b3_pk b) (kem_ct b)).
  destruct (hs_hdr_parts TT_KEM_CT (self_pk eb) (eph_b1_pk b) (eph_b3_pk b) (kem_ct b))
    as (_ & _ & _ & _ & Hhl);
    [by rewrite ?Heb, ?H1, ?H3; apply scalarmult_base_len..|apply Hac|].
  destruct (handshake_frame_some TT_FRAME_REPLY key nonce _ TT_KEM_CT
    ltac:(by right) Hhl) as [f Hf].
  rewrite Hf. do 2 eexists. split; [done|].
  destruct (handshake_frame TT_FRAME_REPLY TT_FRAME_MAX key nonce
    (hs_hdr TT_KEM_CT (self_pk eb) (eph_b1_pk b) (eph_b3_pk b) (kem_ct b)) f)
    as (d & ? & ? & ? & ? & ?); [by right|lia|done|].
  exists d, key. by split_conj.
Qed.

(** ** The initiator finishes *)

Lemma finish_spec ea eb a b f1 f d key rng :
  envs_match ea eb -> offered ea eb a f1 -> accepted ea eb a b ->
  tt_frame_peek f = Some d -> tt_frame_decode f key 16 = Some (d, []) ->
  d_type d = TT_FRAME_REPLY ->
  d_hdr d = hs_hdr TT_KEM_CT (self_pk eb) (eph_b1_pk b) (eph_b3_pk b) (kem_ct b) ->
  seal_key_derive (eph_b1_sk b) (self_pk ea) (self_pk ea) = Some key ->
  exists a' rng', tt_session_feed a ea f 0 rng = (Bytes [], true, a', rng') /\
    active a' = true /\ root a' = root b /\ own_ok (rekey a') /\
    peer_have (rekey a') = false /\ send a' = ratchet_reset (root b) true /\
    recv a' = ratchet_reset (root b) false /\ lossy a' = lossy a /\ pending a' = pending a /\
    i_am_initiator a' = true.
Proof.
  intros [Hea Heb Hpa Hpb] Hof Hac Hp Hdec Ht Hh Hkey.
  destruct Hof as [Hact [Hini _] [Ha2 Ha3] _ Hhave _].
  destruct Hac as [_ _ [Hb1 Hb3] Hct (l1 & l2 & l3 & Hl1 & Hl2 & Hl3 & Hroot) _ _ _ _].
  destruct (hs_hdr_parts TT_KEM_CT (self_pk eb) (eph_b1_pk b) (eph_b3_pk b) (kem_ct b))
    as (P1 & P2 & P3 & P4 & P5);
    [by rewrite ?Heb, ?Hb1, ?Hb3; apply scalarmult_base_len..|done|].
  rewrite <- Hh in P1, P2, P3, P4, P5.
  unfold tt_session_feed. rewrite Hp, Ht.
  change (TT_FRAME_REPLY =? TT_FRAME_DATA) with false.
  change (TT_FRAME_REPLY =? TT_FRAME_INIT) with false.
  change (TT_FRAME_REPLY =? TT_FRAME_REPLY) with true. cbn [andb]. unfold feed_reply.
  rewrite Hini, Hact. cbn [negb orb].
  unfold d_hdr_len. rewrite P5. change (96 + TT_KEM_CT =? TT_HDR_REPLY) with true. cbn [negb].
  rewrite Hpa, P1, bytes_eqb_refl, P2. cbn [negb].
  replace (seal_key_derive (self_sk ea) (eph_b1_pk b) (self_pk ea)) with (Some key)
    by (rewrite Hb1, seal_key_mirror, <- Hea; done).
  rewrite Hdec, P2, P3.
  replace (tt_dh_shared (self_sk ea) (eph_b1_pk b)) with (Some l1)
    by (rewrite Hb1, tt_dh_shared_comm, <- Hea; done).
  replace (tt_dh_shared (eph_a2_sk a) (self_pk eb)) with (Some l2)
    by (rewrite Heb, tt_dh_shared_comm, <- Ha2; done).
  replace (tt_dh_shared (eph_a3_sk a) (eph_b3_pk b)) with (Some l3)
    by (rewrite Hb3, tt_dh_shared_comm, <- Ha3; done).
  rewrite P4.
  destruct (establish a l1 l2 l3 _ (self_pk ea) (self_pk eb) true rng) as [a1 r4] eqn:Ee.
  apply establish_spec in Ee as (Hrt & Hsd & Hrv & Hown & Hph & Hlo & Hpe & _).
  do 2 eexists. split; [done|].
  cbn [active root rekey send recv lossy pending set_field negb] in *.
  rewrite Hsd, Hrv, Hrt, Hroot, Hph, Hlo, Hpe. by split_conj.
Qed.

(** ** The whole handshake *)

(** From the accepted offer on: REPLY, and both sides agree. *)
Lemma complete_spec ea eb a b f1 rng :
  envs_match ea eb -> offered ea eb a f1 -> accepted ea eb a b ->
  exists f2 b' r1 a' r2, tt_session_reply b eb TT_FRAME_MAX rng = (Bytes f2, b', r1) /\
    tt_session_feed a ea f2 0 r1 = (Bytes [], true, a', r2) /\
    pair_ok a' b' /\ root a' = root b' /\ lossy a' = lossy a /\ lossy b' = lossy b /\
    pending a' = pending a /\ pending b' = pending b /\
    seq (send a') = 1 /\ seq (send b') = 1 /\
    i_am_initiator a' = true /\ i_am_initiator b' = false.
Proof.
  intros Henv Hof Hac.
  destruct (reply_spec ea eb a b rng Henv Hac)
    as (f2 & r3 & Hre & d & key & Hp & Hd & Ht & Hh & Hk).
  destruct (finish_spec ea eb a b f1 f2 d key r3 Henv Hof Hac Hp Hd Ht Hh Hk)
    as (a2 & r4 & Hfe & Hact & Hroot & Hown & Hhave & Hsd & Hrv & Hla2 & Hpa2 & Hi).
  destruct Hac as [Hacb (_ & Hib & _) _ _ _ Hsb Hrb Hob Hhb].
  do 5 eexists. split; [exact Hre|]. split; [exact Hfe|].
  cbn [root lossy pending send i_am_initiator set_field].
  rewrite Hsd, Hsb. split_conj; try done.
  split; cbn [active rekey send recv set_field].
  - done.
  - done.
  - by split; intros Hh'; congruence.
  - rewrite Hsd, Hrv, Hsb, Hrb. split; apply reset_sync.
Qed.

Lemma handshake_spec ea eb a b now rng :
  envs_match ea eb -> fresh b ->
  exists a' b' rng', handshake a b ea eb now rng = Some (a', b', rng') /\
    pair_ok a' b' /\ root a' = root b' /\ lossy a' = lossy a /\ lossy b' = lossy b /\
    pending a' = pending a /\ pending b' = pending b /\
    seq (send a') = 1 /\ seq (send b') = 1.
Proof.
  intros Henv Hb. unfold handshake.
  destruct (start_spec ea eb a now rng Henv) as (f1 & a1 & r1 & -> & Hof & Hla & Hpa & _).
  destruct (accept_spec ea eb a1 b f1 r1 Henv Hof Hb) as (b1 & r2 & -> & Hac & Hlb & Hpb).
  destruct (complete_spec ea eb a1 b1 f1 r2 Henv Hof Hac)
    as (f2 & b2 & r3 & a2 & r4 & -> & -> & ? & ? & ? & ? & ? & ? & ? & ? & _).
  do 3 eexists. split; [done|]. split_conj; congruence.
Qed.

(** ** Crossing INITs *)

Lemma memcmp_lt_total a : forall b, length a = length b -> a <> b ->
  memcmp_lt b a = negb (memcmp_lt a b).
Proof.
  induction a as [|x a IH]; intros [|y b] Hl Hne; try done. cbn [memcmp_lt].
  destruct (Z.ltb_spec x y), (Z.ltb_spec y x); try done; [lia|].
  assert (x = y) as -> by lia. apply IH; [by injection Hl|]. congruence.
Qed.

Lemma envs_match_sym ea eb : envs_match ea eb -> envs_match eb ea.
Proof. intros []. by split. Qed.

(** Both sides start; the INITs cross; whoever accepts replies. *)
Definition crossing (a b : TTSession) (ea eb : TTE2EEEnv) (now : Z) (rng : Rng)
    : option (TTSession * TTSession) :=
  match tt_session_start a ea now TT_FRAME_MAX rng with
  | (Bytes fa, a, rng) =>
    match tt_session_start b eb now TT_FRAME_MAX rng with
    | (Bytes fb, b, rng) =>
      let '(_, hb, b, rng) := tt_session_feed b eb fa 0 rng in
      let '(_, ha, a, rng) := tt_session_feed a ea fb 0 rng in
      match ha, hb with
      | false, true =>
          match tt_session_reply b eb TT_FRAME_MAX rng with
          | (Bytes f, b, rng) => let '(_, _, a, _) := tt_session_feed a ea f 0 rng in Some (a, b)
          | _ => None
          end
      | true, false =>
          match tt_session_reply a ea TT_FRAME_MAX rng with
          | (Bytes f, a, rng) => let '(_, _, b, _) := tt_session_feed b eb f 0 rng in Some (a, b)
          | _ => None
          end
      | _, _ => None
      end
    | _ => None
    end
  | _ => None
  end.

(** A waiting initiator yields to the INIT of a lower identity key only. *)
Lemma feed_crossed ea eb a b fa fb rng :
  envs_match ea eb -> offered ea eb a fa -> offered eb ea b fb ->
  if memcmp_lt (self_pk ea) (self_pk eb)
  then exists b' rng', tt_session_feed b eb fa 0 rng = (Bytes [], true, b', rng') /\
         accepted ea eb a b' /\ pending b' = pending b
  else tt_session_feed b eb fa 0 rng = (Bytes [], false, b, rng).
Proof.
  intros Henv Hof [Hact [Hini Hi] _ _ _ _].
  pose proof (feed_offer ea eb a b fa 0 rng Henv Hof) as H.
  rewrite Hact, Hini, Hi in H. cbn [andb orb negb] in H.
  destruct (memcmp_lt _ _); [|done].
  destruct H as (b' & r & ? & ? & _ & ? & _). by exists b', r.
Qed.

Lemma crossing_spec ea eb a b now rng :
  envs_match ea eb -> self_pk ea <> self_pk eb ->
  exists a' b', crossing a b ea eb now rng = Some (a', b') /\
    pair_ok a' b' /\ root a' = root b' /\
    i_am_initiator a' = memcmp_lt (self_pk ea) (self_pk eb) /\
    i_am_initiator b' = memcmp_lt (self_pk eb) (self_pk ea) /\
    pending a' = pending a /\ pending b' = pending b.
Proof.
  intros Henv Hne. pose proof (envs_match_sym _ _ Henv) as Henv'. unfold crossing.
  destruct (start_spec ea eb a now rng Henv) as (fa & a1 & r1 & -> & Hofa & _ & Hpa & _).
  destruct (start_spec eb ea b now r1 Henv') as (fb & b1 & r2 & -> & Hofb & _ & Hpb & _).
  pose proof (feed_crossed ea eb a1 b1 fa fb r2 Henv Hofa Hofb) as Hfb.
  assert (Htot : memcmp_lt (self_pk eb) (self_pk ea) = negb (memcmp_lt (self_pk ea) (self_pk eb))).
  { apply memcmp_lt_total; [|done]. destruct Henv as [-> -> _ _].
    pose proof (scalarmult_base_len (self_sk ea)).
    pose proof (scalarmult_base_len (self_sk eb)). unfold len in *. lia. }
  destruct (memcmp_lt (self_pk ea) (self_pk eb)) eqn:Elt; cbn [negb] in Htot.
  - destruct Hfb as (b2 & r3 & -> & Hac & Hpb2).
    pose proof (feed_crossed eb ea b1 a1 fb fa r3 Henv' Hofb Hofa) as Hfa.
    rewrite Htot in Hfa. rewrite Hfa.
    destruct (complete_spec ea eb a1 b2 fa r3 Henv Hofa Hac)
      as (f & b3 & r4 & a3 & r5 & -> & -> & ? & ? & _ & _ & ? & ? & _ & _ & ? & ?).
    exists a3, b3. split_conj; congruence.
  - rewrite Hfb.
    pose proof (feed_crossed eb ea b1 a1 fb fa r2 Henv' Hofb Hofa) as Hfa.
    rewrite Htot in Hfa. destruct Hfa as (a2 & r3 & -> & Hac & Hpa2).
    destruct (complete_spec eb ea b1 a2 fb r3 Henv' Hofb Hac)
      as (f & a3 & r4 & b3 & r5 & -> & -> & ? & ? & _ & _ & ? & ? & _ & _ & ? & ?).
    exists a3, b3. split_conj; try congruence. by apply pair_ok_sym.
Qed.
End agreement.
(** ** Properties *)


(** Agreement. After the handshake both ends hold the same root, so they
    derive the same control key and the same generation, and one end's send
    ratchet is the other's receive ratchet. *)
Theorem handshake_agreement {P : Prims} {L : PrimLaws P} ea eb a b now rng :
  envs_match ea eb -> fresh b ->
  exists a' b' rng', handshake a b ea eb now rng = Some (a', b', rng') /\
    root a' = root b' /\ control_key a' = control_key b' /\ rel_gen a' = rel_gen b' /\
    dir_sync (send a') (recv b') /\ dir_sync (send b') (recv a') /\
    pending a' = pending a /\ pending b' = pending b.
Proof.
  intros Henv Hb.
  destruct (handshake_spec ea eb a b now rng Henv Hb)
    as (a' & b' & r' & Hh & Hp & Hr & _ & _ & Hpa & Hpb & _).
  exists a', b', r'. unfold control_key, rel_gen. rewrite Hr.
  destruct Hp as [_ _ _ []]. by split_conj.
Qed.

(** C2: simultaneous initiators. When both sides send an INIT before either
    has seen the other's, exactly the side with the lower identity key stays
    initiator, the other side yields and replies, and both end up in the same
    established session with their stashed texts. *)
Theorem simultaneous_inits_converge {P : Prims} {L : PrimLaws P} ea eb a b now rng :
  envs_match ea eb -> self_pk ea <> self_pk eb ->
  exists a' b', crossing a b ea eb now rng = Some (a', b') /\
    pair_ok a' b' /\ root a' = root b' /\
    i_am_initiator a' = memcmp_lt (self_pk ea) (self_pk eb) /\
    i_am_initiator b' = memcmp_lt (self_pk eb) (self_pk ea) /\
    pending a' = pending a /\ pending b' = pending b.
Proof. apply crossing_spec. Qed.

(** A peer that lost its session and sends a fresh INIT gets a new session
    only from an active initiator, which yields and keeps its unacknowledged
    and stashed texts. An active responder takes every INIT its peer can seal
    for a retransmission of the one it accepted: it reports a handshake and
    keeps its old session unchanged, so the two sides cannot agree again. *)
Theorem fresh_init_to_active_session {P : Prims} {L : PrimLaws P} ea eb a b f cap rng :
  envs_match ea eb -> offered ea eb a f -> active b = true ->
  if i_am_initiator b then
    exists b' rng', tt_session_feed b eb f cap rng = (Bytes [], true, b', rng') /\
      accepted ea eb a b' /\ pending b' = pending b /\ rel b' = rel b
  else tt_session_feed b eb f cap rng = (Bytes [], true, b, rng).
Proof.
  intros Henv Hof Ha. pose proof (feed_offer ea eb a b f cap rng Henv Hof) as H.
  rewrite Ha in H. destruct (i_am_initiator b); cbn [andb orb negb] in H; [|done].
  destruct H as (b' & r & ? & ? & _ & ? & ?). by exists b', r.
Qed.

(** ** Witnesses *)

Definition sample_env_a : TTE2EEEnv :=
  mkEnv (zrep 32 11) (sample_base (zrep 32 11)) (Some (sample_base (zrep 32 22))).
Definition sample_env_b : TTE2EEEnv :=
  mkEnv (zrep 32 22) (sample_base (zrep 32 22)) (Some (sample_base (zrep 32 11))).

Lemma sample_envs_match : @envs_match sample_prims sample_env_a sample_env_b.
Proof. by split. Qed.

Lemma fresh_init : fresh tt_session_init.
Proof. by repeat split. Qed.

(** Two hundred messages cross several re-keys in both directions. *)
Definition sample_talk : list (bool * bytes) :=
  concat (replicate 50 [(true, [104; 105]); (false, [111; 107]); (true, []); (true, [63])]).

Lemma sample_talk_short : Forall (fun e => len e.2 <= SAY_MAX) sample_talk.
Proof.
  apply Forall_concat, Forall_replicate. repeat constructor; vm_compute; discriminate.
Qed.


Lemma handshake_agreement_witness :
  exists a' b' rng',
    @handshake sample_prims tt_session_init tt_session_init sample_env_a sample_env_b 0 (1 : Z)
      = Some (a', b', rng') /\
    root a' = root b' /\ control_key a' = control_key b' /\ rel_gen a' = rel_gen b' /\
    dir_sync (send a') (recv b') /\ dir_sync (send b') (recv a') /\
    pending a' = [] /\ pending b' = [].
Proof.
  apply (@handshake_agreement sample_prims sample_laws sample_env_a sample_env_b
           tt_session_init tt_session_init 0 (1 : Z) sample_envs_match fresh_init).
Defined.

Lemma simultaneous_inits_converge_witness :
  exists a' b',
    @crossing sample_prims tt_session_init tt_session_init sample_env_a sample_env_b 0 (1 : Z)
      = Some (a', b') /\ root a' = root b' /\
    i_am_initiator a' = true /\ i_am_initiator b' = false.
Proof.
  destruct (@simultaneous_inits_converge sample_prims sample_laws sample_env_a sample_env_b
    tt_session_init tt_session_init 0 (1 : Z) sample_envs_match) as (a' & b' & H & _ & Hr & Ha & Hb & _).
  - vm_compute. discriminate.
  - exists a', b'. split; [exact H|]. split; [exact Hr|].
    split; [rewrite Ha|rewrite Hb]; vm_compute; reflexivity.
Defined.

(** The responder of an earlier handshake, and its peer starting over. *)
Definition sample_responder : TTSession :=
  tt_session_init <| active := true |> <| root := zrep 32 8 |>.

Lemma fresh_init_to_active_session_witness :
  exists f a' rng',
    @tt_session_start sample_prims tt_session_init sample_env_a 0 TT_FRAME_MAX (1 : Z)
      = (Bytes f, a', rng') /\
    @tt_session_feed sample_prims sample_responder sample_env_b f 0 (7 : Z)
      = (Bytes [], true, sample_responder, 7).
Proof.
  destruct (@start_spec sample_prims sample_laws sample_env_a sample_env_b tt_session_init 0 (1 : Z)
    sample_envs_match) as (f & a' & r & H & Hof & _).
  exists f, a', r. split; [exact H|].
  exact (@fresh_init_to_active_session sample_prims sample_laws sample_env_a sample_env_b a'
    sample_responder f 0 (7 : Z) sample_envs_match Hof eq_refl).
Defined.
