(* ===== verification/SessionRing.v ===== *)
(** * SessionRing: the buffer of unacknowledged messages ([src/session.c])

    The 32-slot ring of [rel_sent_add], [rel_sent_ack] and [rel_sent_remove]
    against its specification: a bounded queue of (generation, number, text). *)
From S2P Require Import Prelude Ring CText Crypto Frame Session.

(** ** The queue the ring stands for *)

Record sent_item := mkItem { i_gen : Z; i_seq : Z; i_text : bytes }.

Definition item_of (m : TTSentMsg) : sent_item :=
  mkItem (m_gen m) (m_seq m) (ztake (m_len m) (m_data m)).

Definition sent_slots (b : TTSentBuf) : list TTSentMsg :=
  ring_view zero_sent_msg TT_SENT_MAX (sb_m b) (sb_head b) (sb_count b).

Definition sent_items (b : TTSentBuf) : list sent_item := item_of <$> sent_slots b.

Definition sent_wf (b : TTSentBuf) : Prop :=
  ring_wf TT_SENT_MAX (sb_m b) (sb_head b) (sb_count b).

Lemma zero_sent_wf : sent_wf zero_sent_buf.
Proof. unfold sent_wf, ring_wf, TT_SENT_MAX. cbn. lia. Qed.

(** ** Adding *)

(** The ring in which [rel_sent_add] looks for its free slot. *)
Definition make_room (b : TTSentBuf) : TTSentBuf :=
  if (TT_SENT_MAX <=? sb_count b)%nat then
    mkSentBuf (<[sb_head b := zero_sent_msg]> (sb_m b))
      ((sb_head b + 1) mod TT_SENT_MAX) (sb_count b - 1)
  else b.

Lemma make_room_spec b :
  sent_wf b ->
  sent_wf (make_room b) /\ (sb_count (make_room b) < TT_SENT_MAX)%nat /\
  sent_slots (make_room b) = lastn (TT_SENT_MAX - 1) (sent_slots b).
Proof.
  destruct b as [m head count]. intros Hwf. pose proof Hwf as (Hl & Hh & Hc).
  cbn [sb_m sb_head sb_count] in *. unfold make_room. cbn [sb_m sb_head sb_count].
  destruct (Nat.leb_spec TT_SENT_MAX count) as [Hfull|Hroom].
  - assert (count = TT_SENT_MAX) as -> by lia.
    split_conj.
    + unfold sent_wf, ring_wf. cbn [sb_m sb_head sb_count]. rewrite length_insert.
      split_conj; [done|by apply Nat.mod_upper_bound|lia].
    + cbv; lia.
    + unfold sent_slots. cbn [sb_m sb_head sb_count].
      pose proof (ring_view_pop zero_sent_msg TT_SENT_MAX m head 31 zero_sent_msg Hwf) as Hp.
      unfold ring_idx in Hp. rewrite Nat.add_0_r, (Nat.mod_small head) in Hp by done.
      change (TT_SENT_MAX - 1)%nat with 31%nat. rewrite Hp. unfold lastn.
      by rewrite ring_view_length.
  - split_conj; [done|done|]. rewrite lastn_all; [done|].
    unfold sent_slots. rewrite ring_view_length. cbn [sb_count]. lia.
Qed.

Lemma lastn_drop_snoc {A} n (l : list A) x :
  (0 < n)%nat -> lastn (n - 1) l ++ [x] = lastn n (l ++ [x]).
Proof.
  intros. unfold lastn. rewrite length_app. cbn [length].
  rewrite drop_app_le by lia. do 2 f_equal. lia.
Qed.

(** Adding appends one entry, dropping the oldest of a full ring; its text is
    read after the room was made. *)
Lemma rel_sent_add_slots s gen sq src n :
  let b := sent (rel s) in
  sent_wf b ->
  let b' := sent (rel (rel_sent_add s gen sq src n)) in
  sent_wf b' /\
  exists arr, sent_slots b' = lastn TT_SENT_MAX (sent_slots b ++
    [mkSentMsg gen sq (u16 n) (overwrite (text_bytes (make_room b) src n) arr)]).
Proof.
  intros b Hwf. destruct s as [? ? ? ? ? ? ? ? ? ? ? ? ? ? ? ? ? ? ? ? ? ? ? ? ? rl ?].
  subst b. cbn [rel] in *. unfold rel_sent_add. cbn [rel set_field sent].
  fold (make_room (sent rl)).
  destruct (make_room_spec (sent rl) Hwf) as (Hwf' & Hc & Hs).
  set (b0 := make_room (sent rl)) in *. clearbody b0. destruct b0 as [m head count].
  unfold sent_wf in Hwf'. cbn [sb_m sb_head sb_count] in *. split.
  - destruct Hwf' as (? & ? & ?). unfold sent_wf, ring_wf. cbn [sb_m sb_head sb_count].
    rewrite length_insert. lia.
  - eexists. rewrite <- lastn_drop_snoc by (cbv; lia). rewrite <- Hs.
    unfold sent_slots. cbn [sb_m sb_head sb_count].
    replace (count + 1)%nat with (S count) by lia.
    fold (ring_idx TT_SENT_MAX head count).
    by rewrite (ring_view_push zero_sent_msg TT_SENT_MAX _ _ _ _ Hwf' Hc).
Qed.

Lemma item_of_copy gen sq text arr :
  len text <= TT_FRAME_DATA_MAX ->
  item_of (mkSentMsg gen sq (u16 (len text)) (overwrite text arr)) = mkItem gen sq text.
Proof.
  intros Ht. unfold item_of. cbn. pose proof (len_nonneg text).
  rewrite u16_small
    by (unfold TT_FRAME_DATA_MAX, TT_FRAME_MAX, TT_FRAME_HEAD_MAX, TT_MAC16 in Ht; lia).
  by rewrite ztake_overwrite.
Qed.

Lemma rel_sent_add_spec s gen sq text :
  sent_wf (sent (rel s)) -> len text <= TT_FRAME_DATA_MAX ->
  let b := sent (rel (rel_sent_add s gen sq (TxtBuf text) (len text))) in
  sent_wf b /\
  sent_items b = lastn TT_SENT_MAX (sent_items (sent (rel s)) ++ [mkItem gen sq text]).
Proof.
  intros Hwf Ht.
  destruct (rel_sent_add_slots s gen sq (TxtBuf text) (len text) Hwf) as (Hwf' & arr & Hs).
  split; [done|]. unfold sent_items. rewrite Hs, fmap_lastn, fmap_app.
  cbn [text_bytes fmap list_fmap]. rewrite (ztake_all (len text) text) by lia.
  by rewrite item_of_copy.
Qed.

(** Generation and number of the live entries, whatever their text. *)
Definition sent_keys (b : TTSentBuf) : list (Z * Z) :=
  (fun e => (m_gen e, m_seq e)) <$> sent_slots b.

Lemma rel_sent_add_keys s gen sq src n :
  sent_wf (sent (rel s)) ->
  sent_keys (sent (rel (rel_sent_add s gen sq src n)))
    = lastn TT_SENT_MAX (sent_keys (sent (rel s)) ++ [(gen, sq)]).
Proof.
  intros Hwf. destruct (rel_sent_add_slots s gen sq src n Hwf) as (_ & arr & Hs).
  unfold sent_keys. by rewrite Hs, fmap_lastn, fmap_app.
Qed.

(** ** Dropping entries *)

(** The loop after [r] iterations: the entries kept so far sit at the front,
    the ones not looked at are where they were. *)
Lemma compact_loop gone m head count r :
  ring_wf TT_SENT_MAX m head count -> (r <= count)%nat ->
  let '(m', w) := fold_left (sent_compact_step gone head) (List.seq 0 r) (m, 0%nat) in
  length m' = TT_SENT_MAX /\ (w <= r)%nat /\
  ring_view zero_sent_msg TT_SENT_MAX m' head w =
    filter (fun e => gone e = false) (ring_view zero_sent_msg TT_SENT_MAX m head r) /\
  (forall i, (r <= i < count)%nat ->
     ring_at zero_sent_msg TT_SENT_MAX m' head i = ring_at zero_sent_msg TT_SENT_MAX m head i).
Proof.
  intros (Hl & Hh & Hc). induction r as [|r IH]; intros Hr; [by split_conj|].
  rewrite seq_S, fold_left_app. cbn [fold_left Nat.add].
  destruct (fold_left _ _ _) as [m' w]. destruct IH as (Hl' & Hw & Hv & Hrest); [lia|].
  unfold sent_compact_step. fold (ring_idx TT_SENT_MAX head r).
  fold (ring_at zero_sent_msg TT_SENT_MAX m' head r).
  rewrite Hrest by lia. rewrite ring_view_S, filter_app, <- Hv.
  set (e := ring_at _ _ m head r). rewrite filter_cons, filter_nil.
  pose proof (ring_at_insert zero_sent_msg TT_SENT_MAX) as Hins.
  destruct (gone e) eqn:Eg; [rewrite decide_False by done|rewrite decide_True by done].
  - rewrite length_insert, app_nil_r. split_conj; [done|lia| |].
    + apply ring_view_ext. intros i Hi. rewrite Hins by lia. by rewrite decide_False by lia.
    + intros i Hi. rewrite Hins by lia. rewrite decide_False by lia. apply Hrest. lia.
  - destruct (Nat.eqb_spec w r) as [->|Hne].
    + split_conj; [done|lia| |intros; apply Hrest; lia].
      rewrite ring_view_S. do 2 f_equal. apply Hrest. lia.
    + fold (ring_idx TT_SENT_MAX head w). rewrite !length_insert. split_conj; [done|lia| |].
      * rewrite ring_view_S. f_equal.
        -- apply ring_view_ext. intros i Hi. rewrite !Hins by (rewrite ?length_insert; lia).
           by rewrite !decide_False by lia.
        -- rewrite !Hins by (rewrite ?length_insert; lia).
           rewrite decide_False by lia. by rewrite decide_True.
      * intros i Hi. rewrite !Hins by (rewrite ?length_insert; lia).
        rewrite !decide_False by lia. apply Hrest. lia.
Qed.

Lemma sent_compact_spec gone b :
  sent_wf b ->
  sent_wf (sent_compact gone b) /\
  sent_slots (sent_compact gone b) = filter (fun e => gone e = false) (sent_slots b).
Proof.
  intros Hwf. unfold sent_compact, sent_slots.
  pose proof (compact_loop gone (sb_m b) (sb_head b) (sb_count b) (sb_count b) Hwf ltac:(lia)) as H.
  destruct (fold_left _ _ _) as [m w]. destruct H as (Hl & Hw & Hv & _).
  destruct Hwf as (? & ? & ?). split; [|done]. unfold sent_wf, ring_wf. cbn. lia.
Qed.

(** On the abstract queue: the entries a predicate on items selects go. *)
Lemma sent_compact_items (gone : sent_item -> bool) b :
  sent_wf b ->
  sent_items (sent_compact (fun e => gone (item_of e)) b)
    = filter (fun i => gone i = false) (sent_items b).
Proof.
  intros Hwf. unfold sent_items.
  destruct (sent_compact_spec (fun e => gone (item_of e)) b Hwf) as [_ ->].
  induction (sent_slots b) as [|e l IH]; [done|].
  cbn [fmap list_fmap]. rewrite !filter_cons. destruct (decide _); cbn; by rewrite <- IH.
Qed.

(** ** Resending in place

    [tt_session_rel_poll] hands [emit_frame] a pointer into the ring, and
    [rel_sent_add] clears the oldest slot of a full ring before it copies. *)
Lemma rel_sent_add_alias s gen sq n :
  let b := sent (rel s) in
  sent_wf b -> sb_count b = TT_SENT_MAX -> 0 <= n <= TT_FRAME_DATA_MAX ->
  let b' := sent (rel (rel_sent_add s gen sq (TxtSlot (sb_head b)) n)) in
  sent_items b' = drop 1 (sent_items b) ++ [mkItem gen sq (zrep n 0)].
Proof.
  intros b Hwf Hc Hn b'.
  destruct (rel_sent_add_slots s gen sq (TxtSlot (sb_head b)) n Hwf) as (_ & arr & Hs).
  fold b b' in Hs. pose proof Hwf as (Hl & Hh & _).
  assert (Htext : text_bytes (make_room b) (TxtSlot (sb_head b)) n = zrep n 0).
  { unfold make_room. rewrite Hc, Nat.leb_refl. cbn [text_bytes]. unfold sent_slot.
    cbn [sb_m]. rewrite list_lookup_insert_eq by lia.
    change (ztake n (zrep TT_FRAME_DATA_MAX 0) = zrep n 0). unfold ztake, zrep.
    rewrite take_replicate. f_equal. lia. }
  rewrite Htext in Hs. rewrite <- (len_zrep n 0) in Hs at 1 by lia.
  unfold sent_items. rewrite Hs, fmap_lastn, fmap_app. cbn [fmap list_fmap].
  rewrite item_of_copy by (rewrite len_zrep; lia).
  rewrite <- lastn_drop_snoc by (cbv; lia). f_equal. unfold lastn, sent_slots.
  by rewrite length_fmap, ring_view_length, Hc.
Qed.

(** ** Properties *)

(** The ring of unacknowledged messages is a queue of at most 32 entries:
    adding appends the message, forgetting the oldest when full; an
    acknowledgement removes exactly the entries of its generation up to its
    number; a removal removes exactly the entries with its generation and
    number.  The order of the others never changes. *)
Theorem sent_ring_is_queue s gen sq text :
  sent_wf (sent (rel s)) -> len text <= TT_FRAME_DATA_MAX ->
  let q := sent_items (sent (rel s)) in
  let items s := sent_items (sent (rel s)) in
  items (rel_sent_add s gen sq (TxtBuf text) (len text))
    = lastn TT_SENT_MAX (q ++ [mkItem gen sq text]) /\
  items (rel_sent_ack s gen sq)
    = filter (fun i => (i_gen i =? gen) && (i_seq i <=? sq) = false) q /\
  items (rel_sent_remove s gen sq)
    = filter (fun i => (i_gen i =? gen) && (i_seq i =? sq) = false) q.
Proof.
  intros Hwf Ht. cbv zeta. split_conj.
  - by apply rel_sent_add_spec.
  - by apply (sent_compact_items (fun i => (i_gen i =? gen) && (i_seq i <=? sq))).
  - by apply (sent_compact_items (fun i => (i_gen i =? gen) && (i_seq i =? sq))).
Qed.

(** re-sending the oldest message of a full ring keeps no copy of it: the
    entry appended for the re-sent message holds zeros instead of its text,
    because its slot is cleared before the text, which lives in that slot, is
    copied. *)
Theorem resend_oldest_keeps_zeros s gen sq n :
  let b := sent (rel s) in
  sent_wf b -> sb_count b = TT_SENT_MAX -> 0 <= n <= TT_FRAME_DATA_MAX ->
  sent_items (sent (rel (rel_sent_add s gen sq (TxtSlot (sb_head b)) n)))
    = drop 1 (sent_items b) ++ [mkItem gen sq (zrep n 0)].
Proof. apply rel_sent_add_alias. Qed.

(** ** Witnesses *)

Definition sample_full_ring : TTSession :=
  fold_left (fun s n => rel_sent_add s 9 n (TxtBuf [n; n]) 2) (seqZ 1 40) tt_session_init.

Lemma sent_ring_is_queue_witness :
  sent_wf (sent (rel sample_full_ring)) /\
  i_seq <$> sent_items (sent (rel (rel_sent_ack sample_full_ring 9 30))) = seqZ 31 10.
Proof.
  assert (Hwf : sent_wf (sent (rel sample_full_ring))) by (vm_compute; lia).
  split; [exact Hwf|].
  rewrite (proj1 (proj2 (sent_ring_is_queue sample_full_ring 9 30 []
    Hwf ltac:(vm_compute; discriminate)))).
  vm_compute. reflexivity.
Defined.

Lemma resend_oldest_keeps_zeros_witness :
  sent_wf (sent (rel sample_full_ring)) /\
  last (sent_items (sent (rel (rel_sent_add sample_full_ring 9 41
    (TxtSlot (sb_head (sent (rel sample_full_ring)))) 2)))) = Some (mkItem 9 41 [0; 0]).
Proof.
  assert (Hwf : sent_wf (sent (rel sample_full_ring))) by (vm_compute; lia).
  split; [exact Hwf|].
  rewrite (resend_oldest_keeps_zeros sample_full_ring 9 41 2 Hwf
    ltac:(vm_compute; reflexivity) ltac:(vm_compute; split; discriminate)).
  vm_compute. reflexivity.
Defined.
