(* ===== verification/SessionResend.v ===== *)
(** * SessionResend: the reliable transport's output loop

    [tt_session_rel_poll] and the loop of [e2ee_rel_poll] ([tox_thread.c]) that
    calls it until it has nothing to send: when the loop ends, and the request
    that keeps it from ending. *)
From S2P Require Import Prelude Ring CText Crypto SampleCrypto Frame Session SessionRing SessionRatchet SessionRecv SessionPair.

(** ** The loop *)

Section drain.
Context {P : Prims}.

(** The engine's [for (;;)]: the frames sent, and the session afterwards;
    [None] when [fuel] polls were not enough. *)
Fixpoint e2ee_rel_poll (fuel : nat) (s : TTSession) (rng : Rng)
    : option (list bytes * TTSession * Rng) :=
  match fuel with
  | O => None
  | S fuel =>
      match tt_session_rel_poll s TT_FRAME_MAX rng with
      | (Bytes (b :: f), s, rng) =>
          match e2ee_rel_poll fuel s rng with
          | Some (fs, s, rng) => Some ((b :: f) :: fs, s, rng)
          | None => None
          end
      | (_, s, rng) => Some ([], s, rng)
      end
  end.

(** What [emit_frame] does to the reliable-transport state. *)
Lemma emit_frame_rel s src n cap co rng r s' rng' :
  emit_frame s src n cap co rng = (r, s', rng') ->
  active s' = active s /\ lossy s' = lossy s /\ root s' = root s /\
  match r with
  | Bytes _ => rel s' = if lossy s then rel s
                        else rel (rel_sent_add s (rel_gen s) (seq (send s)) src n)
  | Status _ => rel s' = rel s
  end.
Proof.
  unfold emit_frame. destruct (lossy s && _); [by intros [= <- <- <-]|].
  destruct (if negb (lossy s) || co then _ else _) as [[[[hdr fl] fold] k'] rng1].
  cbn [send set_field]. unfold send_key.
  destruct (tt_kdf_chain_step (chain (send s))) as [nc mk].
  destruct (tt_kdf_msg_material mk) as [key nonce].
  destruct (tt_frame_encode _ _ _ _ _ _ _ _) as [out|]; [|by intros [= <- <- <-]].
  intros [= <- <- <-]. unfold emit_commit. cbn [lossy set_field].
  destruct (lossy s) eqn:El; cbn [negb];
    (destruct fold as [[dh ss]|]; destruct (_ && (len out <=? TT_FRAME_MAX));
     cbn [active lossy root rel set_field]; by split_conj).
Qed.
End drain.

(** ** Which entries a RESEND asks for *)

Definition wanted (g from : Z) (k : Z * Z) : Prop := k.1 = g /\ from <= k.2.
#[export] Instance wanted_dec g from k : Decision (wanted g from k).
Proof. unfold wanted. apply _. Defined.

Definition n_wanted (s : TTSession) : nat :=
  length (filter (wanted (resend_rep_gen (rel s)) (resend_rep_from (rel s)))
            (sent_keys (sent (rel s)))).

Lemma length_filter_drop {A} (Q : A -> Prop) `{forall x, Decision (Q x)} n (l : list A) :
  (length (filter Q (drop n l)) <= length (filter Q l))%nat.
Proof.
  rewrite <- (take_drop n l) at 2. rewrite filter_app, length_app. lia.
Qed.

(** Re-sending an entry under another generation leaves fewer wanted ones. *)
Lemma wanted_decreases g from keys k new :
  k ∈ keys -> wanted g from k -> new.1 <> g ->
  (length (filter (wanted g from)
     (filter (fun x => x <> k) (lastn TT_SENT_MAX (keys ++ [new]))))
   < length (filter (wanted g from) keys))%nat.
Proof.
  intros Hin Hk Hnew. unfold lastn. rewrite list_filter_filter.
  eapply Nat.le_lt_trans; [apply length_filter_drop|].
  rewrite filter_app, filter_cons, filter_nil.
  rewrite decide_False by (intros [[? _] _]; done). rewrite app_nil_r.
  rewrite (list_filter_iff _ (fun x => x <> k /\ wanted g from x)) by (intros; tauto).
  rewrite <- list_filter_filter.
  apply (length_filter_lt _ _ k); [by apply list_elem_of_filter|]. intros Hne. by apply Hne.
Qed.

(** ** One poll *)

Lemma sent_remove_keys s g q :
  sent_wf (sent (rel s)) ->
  sent_wf (sent (rel (rel_sent_remove s g q))) /\
  sent_keys (sent (rel (rel_sent_remove s g q)))
    = filter (fun k => k <> (g, q)) (sent_keys (sent (rel s))).
Proof.
  intros Hwf. unfold rel_sent_remove. cbn [rel sent set_field].
  destruct (sent_compact_spec (fun e => (m_gen e =? g) && (m_seq e =? q)) _ Hwf) as [Hw Hs].
  split; [done|]. unfold sent_keys. rewrite Hs. clear Hs Hw.
  induction (sent_slots (sent (rel s))) as [|e l IH]; [done|].
  rewrite filter_cons, fmap_cons, filter_cons.
  destruct (decide (_ = false)) as [Hk|Hg], (decide (_ <> _)) as [Hne|He].
  - by rewrite fmap_cons, IH.
  - apply dec_stable in He. injection He as He1 He2. by rewrite He1, He2, !Z.eqb_refl in Hk.
  - apply not_false_iff_true in Hg. bool_to_prop. congruence.
  - done.
Qed.

Section poll.
Context {P : Prims}.

(** Nothing of the reliable state but the ring changed. *)
Definition same_but_ring (s s' : TTSession) : Prop :=
  active s' = active s /\ lossy s' = lossy s /\ root s' = root s /\
  rel s' = (rel s) <| sent := sent (rel s') |>.

Lemma same_but_ring_refl s : same_but_ring s s.
Proof. unfold same_but_ring. split_conj; try done. by destruct (rel s). Qed.

Lemma resend_scan_spec fuel : forall r s cap rng,
  sent_wf (sent (rel s)) -> lossy s = false ->
  let '(o, s', _) := resend_scan fuel r s cap rng in
  same_but_ring s s' /\ sent_wf (sent (rel s')) /\
  match o with
  | None => rel s' = rel s
  | Some f => exists k sq, k ∈ sent_keys (sent (rel s)) /\
      wanted (resend_rep_gen (rel s)) (resend_rep_from (rel s)) k /\
      sent_keys (sent (rel s')) = filter (fun x => x <> k)
        (lastn TT_SENT_MAX (sent_keys (sent (rel s)) ++ [(rel_gen s, sq)]))
  end.
Proof.
  induction fuel as [|fuel IH]; intros r s cap rng Hwf Hl; cbn [resend_scan].
  { split; [by apply same_but_ring_refl|done]. }
  destruct (Nat.leb_spec (sb_count (sent (rel s))) r) as [Hle|Hlt].
  { split; [by apply same_but_ring_refl|done]. }
  fold (ring_idx TT_SENT_MAX (sb_head (sent (rel s))) r).
  set (idx := ring_idx _ _ r). set (m := sent_slot _ idx).
  destruct (negb (m_gen m =? resend_rep_gen (rel s)) || (m_seq m <? resend_rep_from (rel s)))
    eqn:Ew; [by apply IH|].
  destruct (emit_frame s (TxtSlot idx) (m_len m) cap false rng) as [[[f|e] s1] rng1] eqn:Ee;
    apply emit_frame_rel in Ee as (Ha1 & Hl1 & Hr1 & Hrel).
  - rewrite Hl in Hrel.
    destruct (rel_sent_add_slots s (rel_gen s) (seq (send s)) (TxtSlot idx) (m_len m) Hwf)
      as (Hwf1 & _).
    rewrite <- Hrel in Hwf1. destruct (sent_remove_keys s1 (m_gen m) (m_seq m) Hwf1) as [Hwf2 Hk].
    split; [|split; [done|]].
    { unfold same_but_ring. split_conj; [done|done|done|]. change (rel (rel_sent_remove s1 (m_gen m) (m_seq m)))
        with ((rel s1) <| sent := sent (rel (rel_sent_remove s1 (m_gen m) (m_seq m))) |>) at 1.
      by rewrite Hrel. }
    exists (m_gen m, m_seq m), (seq (send s)). apply orb_false_iff in Ew as [Ew1 Ew2].
    bool_to_prop. split_conj.
    + unfold sent_keys. apply (list_elem_of_fmap_2 (fun e => (m_gen e, m_seq e)) _ m).
      apply (list_elem_of_lookup_2 _ r). unfold sent_slots. by rewrite ring_view_lookup.
    + split; cbn; lia.
    + rewrite Hk, Hrel. by rewrite rel_sent_add_keys.
  - specialize (IH (S r) s1 cap rng1 ltac:(by rewrite Hrel) ltac:(by rewrite Hl1)).
    destruct (resend_scan fuel (S r) s1 cap rng1) as [[o s'] rng2].
    destruct IH as ((Ha & Hlo & Hro & Hre) & Hwf' & Ho).
    assert (Hgen : rel_gen s1 = rel_gen s) by (unfold rel_gen; by rewrite Hr1).
    rewrite Hrel, Hgen in *. split; [|done]. unfold same_but_ring. split_conj; congruence.
Qed.
(** ** The loop ends *)

Lemma drain_reply fuel : forall s rng,
  sent_wf (sent (rel s)) -> lossy s = false -> active s = true ->
  resend_req_pending (rel s) = false -> resend_rep_pending (rel s) = true ->
  resend_rep_gen (rel s) <> rel_gen s -> (n_wanted s < fuel)%nat ->
  is_Some (e2ee_rel_poll fuel s rng).
Proof.
  induction fuel as [|fuel IH]; intros s rng Hwf Hl Ha Hreq Hrep Hgen Hn; [lia|].
  cbn [e2ee_rel_poll]. unfold tt_session_rel_poll. rewrite Ha, Hreq, Hrep. cbn [negb].
  pose proof (resend_scan_spec (S (sb_count (sent (rel s)))) 0 s TT_FRAME_MAX rng Hwf Hl) as H.
  destruct (resend_scan _ _ _ _ _) as [[[f|] s'] rng']; [|by eauto].
  destruct f as [|b f]; [by eauto|].
  destruct H as ((Ha' & Hl' & Hr' & Hrel) & Hwf' & k & sq & Hin & Hw & Hkeys).
  assert (Hsame : resend_req_pending (rel s') = false /\ resend_rep_pending (rel s') = true /\
    resend_rep_gen (rel s') = resend_rep_gen (rel s) /\
    resend_rep_from (rel s') = resend_rep_from (rel s)) by by rewrite Hrel.
  destruct Hsame as (H1 & H2 & H3 & H4).
  destruct (IH s' rng') as [[[fs s2] r2] ->]; try done; try congruence.
  - unfold rel_gen. rewrite H3, Hr'. exact Hgen.
  - unfold n_wanted in *. rewrite H3, H4, Hkeys.
    pose proof (wanted_decreases _ _ _ k (rel_gen s, sq) Hin Hw (not_eq_sym Hgen)). lia.
Qed.

Lemma n_wanted_bound s : sent_wf (sent (rel s)) -> (n_wanted s <= TT_SENT_MAX)%nat.
Proof.
  intros (_ & _ & Hc). unfold n_wanted. etrans; [apply length_filter|].
  unfold sent_keys, sent_slots. by rewrite length_fmap, ring_view_length.
Qed.

Lemma control_frame_same s ty a b cap rng :
  exists o rng', control_frame s ty a b cap rng = (Bytes o, rng').
Proof.
  unfold control_frame. destruct (randombytes _ _) as [nonce r].
  destruct (tt_frame_encode _ _ _ _ _ _ _ _); eauto.
Qed.

(** One loop body: a frame goes on, anything else ends the loop. *)
Lemma drain_step fuel s rng o s' rng' :
  tt_session_rel_poll s TT_FRAME_MAX rng = (Bytes o, s', rng') ->
  is_Some (e2ee_rel_poll fuel s' rng') -> is_Some (e2ee_rel_poll (S fuel) s rng).
Proof.
  intros Hp [[[fs s2] r2] H]. cbn [e2ee_rel_poll]. rewrite Hp. destruct o; [by eauto|].
  rewrite H. eauto.
Qed.

Lemma drain_no_request fuel s rng :
  sent_wf (sent (rel s)) -> lossy s = false -> active s = true ->
  resend_req_pending (rel s) = false ->
  (resend_rep_pending (rel s) = true -> resend_rep_gen (rel s) <> rel_gen s) ->
  (TT_SENT_MAX + 1 < fuel)%nat -> is_Some (e2ee_rel_poll fuel s rng).
Proof.
  intros Hwf Hl Ha Hreq Hgen Hf. destruct (resend_rep_pending (rel s)) eqn:Hrep.
  { apply drain_reply; auto. pose proof (n_wanted_bound s Hwf). lia. }
  destruct fuel as [|[|fuel]]; [lia|lia|].
  destruct (ack_due (rel s)) eqn:Hack.
  - destruct (control_frame_same (s <| rel := (rel s) <| ack_due := false |> |>) TT_FRAME_ACK
      (recv_acked (rel s)) (rel_gen s) TT_FRAME_MAX rng) as (o & r & Hc).
    apply (drain_step _ _ _ o (s <| rel := (rel s) <| ack_due := false |> |>) r).
    + unfold tt_session_rel_poll. rewrite Ha, Hreq, Hrep, Hack. cbn [negb].
      change (recv_acked (rel (s <| rel := (rel s) <| ack_due := false |> |>)))
        with (recv_acked (rel s)).
      change (rel_gen (s <| rel := (rel s) <| ack_due := false |> |>)) with (rel_gen s).
      by rewrite Hc.
    + cbn [e2ee_rel_poll]. unfold tt_session_rel_poll.
      cbn [active rel resend_req_pending resend_rep_pending ack_due set_field].
      rewrite Ha, Hreq, Hrep. cbn [negb]. eauto.
  - cbn [e2ee_rel_poll]. unfold tt_session_rel_poll. rewrite Ha, Hreq, Hrep, Hack. cbn. eauto.
Qed.

Lemma drain_all s rng :
  sent_wf (sent (rel s)) -> lossy s = false ->
  (resend_rep_pending (rel s) = true -> resend_rep_gen (rel s) <> rel_gen s) ->
  is_Some (e2ee_rel_poll (TT_SENT_MAX + 3) s rng).
Proof.
  intros Hwf Hl Hgen. destruct (active s) eqn:Ha.
  2: { cbn [e2ee_rel_poll Nat.add TT_SENT_MAX]. unfold tt_session_rel_poll. rewrite Ha. eauto. }
  destruct (resend_req_pending (rel s)) eqn:Hreq; [|apply drain_no_request; auto; lia].
  set (s1 := s <| rel := (rel s) <| resend_req_pending := false |> |>).
  destruct (control_frame_same s1 TT_FRAME_RESEND (resend_req_gen (rel s))
    (resend_req_from (rel s)) TT_FRAME_MAX rng) as (o & r & Hc).
  replace (TT_SENT_MAX + 3)%nat with (S (TT_SENT_MAX + 2)) by lia.
  apply (drain_step _ _ _ o s1 r).
  - unfold tt_session_rel_poll. rewrite Ha, Hreq. cbn [negb]. fold s1.
    change (resend_req_gen (rel s1)) with (resend_req_gen (rel s)).
    change (resend_req_from (rel s1)) with (resend_req_from (rel s)). by rewrite Hc.
  - apply drain_no_request; auto.
Qed.
End poll.
(** ** A request for the current generation *)

Section hang.
Context {P : Prims} {L : PrimLaws P}.

Lemma emit_frame_nonempty x ky src n cap co rng f x' rng' :
  own_ok (rekey x) -> own_ok ky -> view (rekey x) ky ->
  emit_frame x src n cap co rng = (Bytes f, x', rng') ->
  f <> [] /\ same_keys (rekey x) (rekey x') /\
  (seq (send x) + 1 < 2 ^ 32 -> 0 <= seq (send x) -> seq (send x') = seq (send x) + 1).
Proof.
  intros Hx Hy Hv He.
  pose proof (emit_frame_inv x ky src n cap co rng f x' rng' Hx Hy Hv He) as H.
  unfold send_key in H. destruct (tt_kdf_chain_step (chain (send x))) as [nc mk].
  pose proof (tt_kdf_msg_material_len mk) as [_ Hn].
  destruct (tt_kdf_msg_material mk) as [key nonce]. cbn [snd] in Hn.
  destruct H as (hdr & fl & fold & _ & Henc & _ & _ & _ & _ & Hk & Hs & _).
  split_conj; [|done|].
  - intros ->. apply tt_frame_encode_len in Henc; [|lia].
    pose proof (frame_nonce_len_bounds (Z.lor data_flags fl)). pose proof (len_nonneg hdr).
    match type of Henc with context [len (text_bytes ?b ?s ?m)] =>
      pose proof (len_nonneg (text_bytes b s m)) end.
    unfold TT_MAC16 in *. change (len []) with 0 in Henc. lia.
  - intros Hb H0. rewrite Hs. destruct fold as [[dh ss]|].
    + unfold ratchet_fold. destruct (tt_kdf_root_step _ _ _).
      cbn [seq set_field]. apply u32_small. lia.
    + cbn [seq set_field]. apply u32_small. lia.
Qed.

(** An active session asked to re-send messages of its own, current
    generation, none of them too long to carry a re-key header. *)
Record asked_current (ky : TTRekey) (s : TTSession) : Prop := {
  aq_state : active s = true /\ lossy s = false;
  aq_keys : own_ok (rekey s) /\ own_ok ky /\ view (rekey s) ky;
  aq_request : resend_req_pending (rel s) = false /\ resend_rep_pending (rel s) = true /\
               resend_rep_gen (rel s) = rel_gen s;
  aq_ring : sent_wf (sent (rel s));
  aq_short : Forall (fun e => 0 <= m_len e <= SAY_MAX) (sent_slots (sent (rel s)));
  aq_seqs : Forall (fun k => k.2 < seq (send s)) (sent_keys (sent (rel s)));
  aq_from : 0 <= resend_rep_from (rel s) <= seq (send s);
  aq_wanted : Exists (wanted (rel_gen s) (resend_rep_from (rel s))) (sent_keys (sent (rel s)));
}.

(** The scan reaches a wanted entry and re-sends it. *)
Lemma resend_scan_emits ky fuel : forall r s rng,
  asked_current ky s ->
  (exists i, (r <= i < sb_count (sent (rel s)))%nat /\
     wanted (rel_gen s) (resend_rep_from (rel s))
       (let e := ring_at zero_sent_msg TT_SENT_MAX (sb_m (sent (rel s))) (sb_head (sent (rel s))) i
        in (m_gen e, m_seq e))) ->
  (sb_count (sent (rel s)) - r < fuel)%nat ->
  exists idx m f s1 rng',
    resend_scan fuel r s TT_FRAME_MAX rng =
      (Some f, rel_sent_remove s1 (m_gen m) (m_seq m), rng') /\
    emit_frame s (TxtSlot idx) (m_len m) TT_FRAME_MAX false rng = (Bytes f, s1, rng') /\
    m ∈ sent_slots (sent (rel s)).
Proof.
  induction fuel as [|fuel IH]; intros r s rng Haq (i & Hi & Hw) Hf; [lia|].
  cbn [resend_scan]. rewrite (proj2 (Nat.leb_gt _ _)) by lia.
  fold (ring_idx TT_SENT_MAX (sb_head (sent (rel s))) r).
  set (idx := ring_idx _ _ r). set (m := sent_slot _ idx).
  destruct Haq as [[Ha Hl] (Ho & Hoy & Hv) (Hq1 & Hq2 & Hq3) Hwf Hsh Hsq Hfr Hex] eqn:Eq.
  assert (Haq' : asked_current ky s) by done. clear Eq.
  assert (Hm : m ∈ sent_slots (sent (rel s))).
  { apply (list_elem_of_lookup_2 _ r). unfold sent_slots. by rewrite ring_view_lookup by lia. }
  destruct (negb (m_gen m =? resend_rep_gen (rel s)) || (m_seq m <? resend_rep_from (rel s)))
    eqn:Ew.
  - apply IH; [done| |lia]. exists i. split; [|done].
    destruct (decide (i = r)) as [->|]; [|lia]. exfalso.
    destruct Hw as [Hw1 Hw2]. cbn [fst snd] in Hw1, Hw2.
    change (m_gen m = rel_gen s) in Hw1. change (resend_rep_from (rel s) <= m_seq m) in Hw2.
    apply orb_true_iff in Ew as [Ew|Ew]; bool_to_prop; [|lia].
    congruence.
  - assert (Hlen : 0 <= m_len m <= SAY_MAX).
    { rewrite Forall_forall in Hsh. by apply Hsh. }
    destruct (emit_frame_some s ky (TxtSlot idx) (m_len m) TT_FRAME_MAX false rng Ho Hoy Hv)
      as (f & s1 & rng1 & He).
    + unfold parked. by rewrite Hl.
    + done.
    + rewrite Hl. cbn [negb orb text_bytes]. unfold SAY_MAX in Hlen.
      assert (len (ztake (m_len m) (m_data (sent_slot (sent (rel s)) idx))) <= m_len m)
        by (unfold ztake, len; rewrite length_take; lia). lia.
    + rewrite He. exists idx, m, f, s1, rng1. by split_conj.
Qed.

(** After the re-send the request stands as before. *)
Lemma asked_current_again ky s s1 idx m f rng rng' :
  asked_current ky s -> m ∈ sent_slots (sent (rel s)) ->
  seq (send s) + 1 < 2 ^ 32 ->
  emit_frame s (TxtSlot idx) (m_len m) TT_FRAME_MAX false rng = (Bytes f, s1, rng') ->
  asked_current ky (rel_sent_remove s1 (m_gen m) (m_seq m)) /\ f <> [] /\
  seq (send (rel_sent_remove s1 (m_gen m) (m_seq m))) = seq (send s) + 1.
Proof.
  intros [[Ha Hl] (Ho & Hoy & Hv) (Hq1 & Hq2 & Hq3) Hwf Hsh Hsq Hfr Hex] Hm Hb He.
  destruct (emit_frame_nonempty s ky _ _ _ _ _ _ _ _ Ho Hoy Hv He) as (Hne & Hk & Hseq).
  specialize (Hseq Hb ltac:(lia)).
  apply emit_frame_rel in He as (Ha1 & Hl1 & Hr1 & Hrel). rewrite Hl in Hrel.
  destruct (rel_sent_add_slots s (rel_gen s) (seq (send s)) (TxtSlot idx) (m_len m) Hwf)
    as (Hwf1 & arr & Hslots).
  pose proof (rel_sent_add_keys s (rel_gen s) (seq (send s)) (TxtSlot idx) (m_len m) Hwf) as Hkeys.
  assert (Hrest : resend_req_pending (rel s1) = false /\ resend_rep_pending (rel s1) = true /\
    resend_rep_gen (rel s1) = resend_rep_gen (rel s) /\
    resend_rep_from (rel s1) = resend_rep_from (rel s)) by by rewrite Hrel.
  rewrite <- Hrel in Hwf1, Hslots, Hkeys. destruct Hrest as (R1 & R2 & R3 & R4).
  destruct (sent_remove_keys s1 (m_gen m) (m_seq m) Hwf1) as [Hwf2 Hk2].
  destruct (sent_compact_spec (fun e => (m_gen e =? m_gen m) && (m_seq e =? m_seq m)) _ Hwf1)
    as [_ Hs2].
  assert (Hold : m_seq m < seq (send s)).
  { rewrite Forall_forall in Hsq. apply (Hsq (m_gen m, m_seq m)).
    by apply (list_elem_of_fmap_2 (fun e => (m_gen e, m_seq e)) _ m). }
  assert (Hlenm : 0 <= m_len m <= SAY_MAX).
  { rewrite Forall_forall in Hsh. by apply Hsh. }
  assert (Hgen : rel_gen (rel_sent_remove s1 (m_gen m) (m_seq m)) = rel_gen s)
    by (unfold rel_gen; cbn [root set_field rel_sent_remove]; by rewrite Hr1).
  split; [|split; [done|exact Hseq]].
  split.
  - by rewrite <- Ha, <- Hl.
  - split_conj; [by eapply same_keys_own|done|by eapply same_keys_view].
  - rewrite Hgen. cbn [rel set_field rel_sent_remove resend_req_pending resend_rep_pending
      resend_rep_gen]. rewrite R3. by split_conj.
  - exact Hwf2.
  - unfold rel_sent_remove. cbn [rel sent set_field]. rewrite Hs2, Hslots.
    apply Forall_forall. intros e [_ He]%list_elem_of_filter.
    eapply elem_of_sublist in He; [|apply lastn_sublist].
    apply elem_of_app in He as [He|He%list_elem_of_singleton].
    + rewrite Forall_forall in Hsh. by apply Hsh.
    + subst e. cbn [m_len]. rewrite u16_small; [done|].
      unfold SAY_MAX, TT_FRAME_DATA_MAX, TT_FRAME_MAX, TT_FRAME_HEAD_MAX, TT_MAC16,
        TT_HDR_DATA_KEMPUB in Hlenm. lia.
  - rewrite Hk2, Hkeys. cbn [send rel_sent_remove set_field]. rewrite Hseq.
    apply Forall_forall. intros k [_ Hin]%list_elem_of_filter.
    eapply elem_of_sublist in Hin; [|apply lastn_sublist].
    apply elem_of_app in Hin as [Hin|Hin%list_elem_of_singleton].
    + rewrite Forall_forall in Hsq. apply Hsq in Hin. lia.
    + subst k. cbn. lia.
  - cbn [rel send set_field rel_sent_remove resend_rep_from]. rewrite R4, Hseq. lia.
  - rewrite Hgen, Hk2, Hkeys.
    change (resend_rep_from (rel (rel_sent_remove s1 (m_gen m) (m_seq m))))
      with (resend_rep_from (rel s1)). rewrite R4.
    apply Exists_exists. exists (rel_gen s, seq (send s)). split; [|split; cbn; lia].
    apply list_elem_of_filter. split; [intros [=]; lia|].
    rewrite <- lastn_drop_snoc by (cbv; lia). apply elem_of_app. right. by left.
Qed.

Lemma asked_current_hangs ky fuel : forall s rng,
  asked_current ky s -> seq (send s) + Z.of_nat fuel < 2 ^ 32 ->
  e2ee_rel_poll fuel s rng = None.
Proof.
  induction fuel as [|fuel IH]; intros s rng Haq Hb; [done|].
  cbn [e2ee_rel_poll]. unfold tt_session_rel_poll.
  pose proof Haq as [[Ha Hl] _ (Hq1 & Hq2 & Hq3) Hwf _ _ _ Hex].
  rewrite Ha, Hq1, Hq2. cbn [negb].
  destruct (resend_scan_emits ky (S (sb_count (sent (rel s)))) 0 s rng Haq)
    as (idx & m & f & s1 & rng' & -> & He & Hm); [|lia|].
  { apply Exists_exists in Hex as (k & Hin & Hw). unfold sent_keys, sent_slots in Hin.
    apply list_elem_of_fmap in Hin as (e & -> & Hin).
    apply list_elem_of_lookup in Hin as (i & Hi).
    pose proof (lookup_lt_Some _ _ _ Hi) as Hlt. rewrite ring_view_length in Hlt.
    exists i. split; [lia|]. rewrite ring_view_lookup in Hi by done. injection Hi as ->. done. }
  destruct (asked_current_again ky s s1 idx m f rng rng' Haq Hm ltac:(lia) He)
    as (Haq' & Hne & Hseq).
  destruct f as [|b f]; [done|]. rewrite IH; [done|done|]. rewrite Hseq. lia.
Qed.
End hang.

(** ** Properties *)

(** C5: the engine's output loop ends. For every session whose ring is well
    formed, unless it was asked to re-send messages of its own current
    generation, at most 34 polls produce frames before a poll has nothing to
    send. *)
Theorem rel_poll_loop_ends {P : Prims} s rng :
  sent_wf (sent (rel s)) -> lossy s = false ->
  (resend_rep_pending (rel s) = true -> resend_rep_gen (rel s) <> rel_gen s) ->
  is_Some (e2ee_rel_poll (TT_SENT_MAX + 3) s rng).
Proof. apply drain_all. Qed.

(** A RESEND request that names the current generation keeps the loop
    going for ever: every re-sent message is put back into the ring under the
    current generation, where it is wanted again, so for any number of polls
    (up to the 2^32 sequence numbers) the loop has not ended. *)
Theorem resend_current_generation_never_ends {P : Prims} {L : PrimLaws P} ky s rng n :
  asked_current ky s -> seq (send s) + Z.of_nat n < 2 ^ 32 ->
  e2ee_rel_poll n s rng = None.
Proof. apply asked_current_hangs. Qed.

(** ** Witnesses *)

Definition sample_rekey : TTRekey :=
  zero_rekey <| eph_sk := zrep 32 3 |> <| eph_pk := sample_base (zrep 32 3) |>
    <| have_kem := true |> <| rk_kem_pk := (sample_keypair 4).1.1 |>
    <| rk_kem_sk := (sample_keypair 4).1.2 |>.

(** An active session with one unacknowledged message, asked for generation [g]. *)
Definition sample_asked (g : Z) : TTSession :=
  let s := tt_session_init <| active := true |> <| root := zrep 32 8 |>
             <| send := (ratchet_reset (P:=sample_prims) (zrep 32 8) true) <| seq := 2 |> |>
             <| rekey := sample_rekey |> in
  let s := rel_sent_add s (rel_gen (P:=sample_prims) s) 1 (TxtBuf [104; 105]) 2 in
  s <| rel := (rel s) <| resend_rep_pending := true |> <| resend_rep_gen := g |>
                <| resend_rep_from := 1 |> |>.

Definition sample_gen : Z := Eval vm_compute in rel_gen (P:=sample_prims) (sample_asked 0).

Lemma sample_rekey_own : @own_ok sample_prims sample_rekey.
Proof. split; [done|done|]. by exists 4, 5. Qed.

Lemma sample_asked_current : @asked_current sample_prims sample_rekey (sample_asked sample_gen).
Proof.
  split.
  - done.
  - split_conj; [exact sample_rekey_own|exact sample_rekey_own|done].
  - split_conj; [done|done|vm_compute; reflexivity].
  - vm_compute. lia.
  - apply Forall_forall. intros e He. vm_compute in He. apply list_elem_of_singleton in He as ->.
    vm_compute. split; discriminate.
  - vm_compute. repeat constructor.
  - vm_compute. split; discriminate.
  - vm_compute. apply Exists_cons. left. split; vm_compute; [reflexivity|discriminate].
Qed.

Lemma rel_poll_loop_ends_witness :
  is_Some (@e2ee_rel_poll sample_prims (TT_SENT_MAX + 3) (sample_asked 77) (5 : Z)).
Proof.
  apply (@rel_poll_loop_ends sample_prims (sample_asked 77) (5 : Z)).
  - vm_compute. lia.
  - reflexivity.
  - intros _. vm_compute. discriminate.
Defined.

Lemma resend_current_generation_never_ends_witness :
  @e2ee_rel_poll sample_prims 1000 (sample_asked sample_gen) (5 : Z) = None.
Proof.
  apply (@resend_current_generation_never_ends sample_prims sample_laws sample_rekey
           (sample_asked sample_gen) (5 : Z) 1000 sample_asked_current).
  vm_compute. reflexivity.
Defined.
