(* ===== verification/SessionRekey.v ===== *)
(** * SessionRekey: key publication, re-keys and the parked carrier

    [tt_session_rekey_pending] against the header selection of [emit_frame],
    the carrier of a lossy (tunnel) session, and what happens to a text too
    long to share its frame with a re-key header. *)
From S2P Require Import Prelude Ring CText Crypto SampleCrypto Frame Session SessionRatchet SessionRecv SessionPair SessionRing SessionResend.

Section rekey.
Context {P : Prims} {L : PrimLaws P}.

(** ** Which header rides *)

(** The header [emit_frame] would attach if it may attach one. *)
Definition due_header (s : TTSession) (rng : Rng) : bytes :=
  let '(hdr, _, _, _, _) := select_header (auto_rekey s) rng in hdr.

Lemma our_pub_hdr_nonempty k : own_ok k -> our_pub_hdr k <> [].
Proof.
  intros Hk H. apply (f_equal len) in H. unfold our_pub_hdr in H.
  rewrite len_app, !ztake_all in H;
    rewrite ?own_eph_len, ?own_kem_len in * by done; unfold TT_KEM_PK, TT_KEY32 in *; try lia.
  by change (len []) with 0 in H.
Qed.

Lemma auto_rekey_fields s :
  let k := auto_rekey s in
  rekey_due k = rekey_due (rekey s) ||
    (negb (awaiting_peer (rekey s)) && (TT_SESSION_REKEY_EVERY <=? since_fold (send s))) /\
  peer_have k = peer_have (rekey s) /\ awaiting_peer k = awaiting_peer (rekey s) /\
  post_fold_publish k = post_fold_publish (rekey s) /\
  publish_back k = publish_back (rekey s).
Proof. unfold auto_rekey. case_goal; cbn; split_conj; by rewrite ?orb_true_r, ?orb_false_r. Qed.

Lemma rekey_pending_iff s :
  active s = true ->
  let k := auto_rekey s in
  tt_session_rekey_pending s =
    post_fold_publish k || (rekey_due k && peer_have k) ||
    (rekey_due k && negb (awaiting_peer k)) || publish_back k.
Proof.
  intros Ha. cbv zeta. unfold tt_session_rekey_pending. rewrite Ha.
  destruct (auto_rekey_fields s) as (-> & -> & -> & -> & ->). cbn [negb].
  destruct (rekey_due (rekey s)), (awaiting_peer (rekey s)), (peer_have (rekey s)),
    (post_fold_publish (rekey s)), (publish_back (rekey s)),
    (TT_SESSION_REKEY_EVERY <=? since_fold (send s)); done.
Qed.

Lemma due_header_mirror s rng :
  active s = true -> own_ok (rekey s) ->
  (peer_have (rekey s) = true -> is_Some (tt_dh_shared (eph_sk (rekey s)) (peer_eph_pk (rekey s)))) ->
  tt_session_rekey_pending s = true <-> due_header s rng <> [].
Proof.
  intros Ha Hown Hdh. rewrite rekey_pending_iff by done. unfold due_header, select_header.
  pose proof (same_keys_own _ _ (auto_rekey_same s) Hown) as Hk.
  destruct (auto_rekey_same s) as [[E1 _] _ _ [_ E2] E3].
  rewrite <- E1, <- E2 in Hdh. set (k := auto_rekey s) in *.
  pose proof (our_pub_hdr_nonempty k Hk).
  destruct (post_fold_publish k); [by split|]. cbn [orb].
  destruct (rekey_due k && peer_have k) eqn:Ed; cbn [orb].
  { apply andb_true_iff in Ed as [_ Ep]. destruct (Hdh (E3 Ep)) as [dh ->].
    destruct (tt_kem_enc (peer_kem_pk k) rng) as [[ct ss] r] eqn:Ee. split; [|done].
    intros _ H'. apply (f_equal len) in H'. apply tt_kem_enc_len in Ee as [Hc _].
    rewrite len_app, len_ztake, (ztake_all TT_KEY32), (own_eph_len k Hk) in H';
      rewrite ?own_eph_len, ?Hc by done; unfold TT_KEM_CT, TT_KEY32 in *; done || lia. }
  destruct (rekey_due k && negb (awaiting_peer k)); cbn [orb].
  { rewrite (own_have k Hk). cbn [negb]. by split. }
  destruct (publish_back k); by split.
Qed.

(** ** The parked carrier of a lossy session *)

(** What the engine may try while a carrier is outstanding. *)
Inductive lossy_op := OpPayload (text : bytes) | OpCarrier.

Definition run_lossy_op (s : TTSession) (op : lossy_op) (rng : Rng) : ret * TTSession * Rng :=
  match op with
  | OpPayload text => tt_session_send_lossy s text TT_FRAME_MAX rng
  | OpCarrier => tt_session_carrier s TT_FRAME_MAX rng
  end.

Fixpoint run_lossy (s : TTSession) (ops : list lossy_op) (rng : Rng)
    : list ret * TTSession * Rng :=
  match ops with
  | [] => ([], s, rng)
  | op :: ops =>
      let '(r, s, rng) := run_lossy_op s op rng in
      let '(rs, s, rng) := run_lossy s ops rng in (r :: rs, s, rng)
  end.

Definition parked_answer (f : bytes) (op : lossy_op) : ret :=
  match op with
  | OpPayload text => Status (if TT_FRAME_DATA_MAX <? len text then TT_E2EE_BAD_STATE
                              else TT_E2EE_CARRIER)
  | OpCarrier => Bytes f
  end.

Lemma parked_locked f ops : forall s rng,
  active s = true -> lossy s = true -> carrier (rekey s) = f -> 0 < len f <= TT_FRAME_MAX ->
  run_lossy s ops rng = (parked_answer f <$> ops, s, rng).
Proof.
  induction ops as [|op ops IH]; intros s rng Ha Hl Hc Hf; [done|].
  cbn [run_lossy fmap list_fmap].
  assert (Hop : run_lossy_op s op rng = (parked_answer f op, s, rng)).
  { destruct op as [text|]; cbn [run_lossy_op parked_answer].
    - unfold tt_session_send_lossy. destruct (TT_FRAME_DATA_MAX <? len text); [done|].
      rewrite Ha. cbn [negb]. unfold emit_frame. rewrite Hl, Hc. by zif_true.
    - unfold tt_session_carrier. rewrite Ha, Hc. cbn [negb].
      rewrite (proj2 (Z.ltb_lt 0 _)) by lia. by rewrite (proj2 (Z.ltb_ge _ _)) by lia. }
  rewrite Hop, IH by done. done.
Qed.

(** Building a carrier parks exactly the frame that is handed out. *)
Lemma carrier_parks s ky rng :
  active s = true -> lossy s = true -> carrier (rekey s) = [] ->
  own_ok (rekey s) -> own_ok ky -> view (rekey s) ky ->
  tt_session_rekey_pending s = true ->
  (peer_have (rekey s) = true -> is_Some (tt_dh_shared (eph_sk (rekey s)) (peer_eph_pk (rekey s)))) ->
  exists f s' rng', tt_session_carrier s TT_FRAME_MAX rng = (Bytes f, s', rng') /\
    carrier (rekey s') = f /\ 0 < len f <= TT_FRAME_MAX /\ active s' = true /\ lossy s' = true.
Proof.
  intros Ha Hl Hc Ho Hoy Hv Hp Hdh.
  pose proof (proj1 (due_header_mirror s rng Ha Ho Hdh) Hp) as Hne.
  unfold tt_session_carrier. rewrite Ha, Hc, Hp. change (0 <? len []) with false. cbn [negb].
  destruct (emit_frame_some s ky (TxtBuf []) 0 TT_FRAME_MAX true rng Ho Hoy Hv)
    as (f & s' & rng' & He); [unfold parked; by rewrite Hl, Hc|done|by rewrite orb_true_r|].
  rewrite He. exists f, s', rng'. split; [done|].
  pose proof (emit_frame_rel _ _ _ _ _ _ _ _ _ He) as (Ha' & Hl' & _).
  revert He. unfold emit_frame. rewrite Hl, Hc. change (0 <? len []) with false.
  rewrite orb_true_r. cbn [andb negb].
  unfold due_header in Hne.
  destruct (select_header (auto_rekey s) rng) as [[[[hdr fl] fold] k'] rng1] eqn:Es.
  pose proof (same_keys_own _ _ (auto_rekey_same s) Ho) as Hk.
  apply (select_header_spec _ ky) in Es as [Hkind _];
    [|done|done|by eapply same_keys_view; [apply auto_rekey_same|]].
  pose proof (header_kind_len _ _ _ _ _ Hk Hkind) as Hhl.
  cbn [send set_field]. unfold send_key.
  destruct (tt_kdf_chain_step (chain (send s))) as [nc mk].
  pose proof (tt_kdf_msg_material_len mk) as [_ Hn].
  destruct (tt_kdf_msg_material mk) as [key nonce]. cbn [snd] in Hn.
  destruct (tt_frame_encode _ _ _ _ _ _ _ _) as [out|] eqn:Ee; [|done].
  pose proof (tt_frame_encode_inv _ _ _ _ _ _ _ _ _ Ee) as (_ & _ & Hm & _).
  apply tt_frame_encode_len in Ee; [|lia].
  pose proof (frame_nonce_len_bounds (Z.lor data_flags fl)). pose proof (len_nonneg hdr).
  intros [= <- <- <-].
  assert (Hsz : 0 < len out <= TT_FRAME_MAX).
  { match type of Hm with context [len (text_bytes ?b ?s ?m)] =>
      pose proof (len_nonneg (text_bytes b s m)) end. unfold TT_MAC16 in *. lia. }
  assert (Hkindlen : (len hdr =? TT_HDR_DATA_REKEY) || (len hdr =? TT_HDR_DATA_KEMPUB) = true).
  { apply orb_true_iff. rewrite !Z.eqb_eq.
    destruct fold; [by left|]. destruct Hhl as [Hz|]; [|by right].
    apply len_0_nil in Hz. done. }
  split; [|split; [done|by rewrite Ha', Hl']].
  unfold emit_commit. rewrite Hkindlen, (proj2 (Z.leb_le (len out) _)) by lia.
  rewrite Hl. cbn [negb].
  destruct fold as [[dh ss]|]; cbn [lossy set_field]; by rewrite Hl.
Qed.

(** ** A text too long for its header *)

(** The first key publication of a chat session is due. *)
Definition publication_due (s : TTSession) : Prop :=
  active s = true /\ lossy s = false /\ own_ok (rekey s) /\
  post_fold_publish (rekey s) = false /\ peer_have (rekey s) = false /\
  awaiting_peer (rekey s) = false /\ TT_SESSION_REKEY_EVERY <= since_fold (send s).

Lemma frame_too_long cap sq flags key nonce hdr pt :
  TT_FRAME_MAX < 11 + 12 + 2 + len hdr + len pt + TT_MAC16 ->
  tt_frame_encode cap TT_FRAME_DATA sq flags key nonce hdr pt = None.
Proof.
  intros H. unfold tt_frame_encode. destruct (flag_set flags 240); [done|].
  destruct (expected_hdr_len _ _); [|done]. destruct (negb _); [done|].
  destruct (TT_FRAME_MAX <? len pt); [done|].
  pose proof (frame_nonce_len_bounds flags).
  rewrite (proj2 (Z.ltb_lt TT_FRAME_MAX _)) by (unfold TT_MAC16 in *; lia). done.
Qed.

Lemma publication_lost s text rng :
  publication_due s -> 141 < len text <= TT_FRAME_DATA_MAX ->
  exists s', tt_session_send s text TT_FRAME_MAX rng = (Status TT_E2EE_BAD_STATE, s', rng) /\
    published (rekey s') = true /\ awaiting_peer (rekey s') = true /\
    rekey_due (rekey s') = false /\ rel s' = rel s /\
    seq (send s') = u32 (seq (send s) + 1) /\ since_fold (send s') = since_fold (send s) /\
    (publish_back (rekey s) = false -> tt_session_rekey_pending s' = false).
Proof.
  intros (Ha & Hl & Ho & Hpf & Hph & Haw & Hsf) Ht.
  unfold tt_session_send. rewrite (proj2 (Z.ltb_ge _ _)), Ha by lia. cbn [negb].
  unfold emit_frame. rewrite Hl. cbn [andb negb orb].
  unfold auto_rekey. rewrite Haw. rewrite (proj2 (Z.leb_le _ _)) by lia. cbn [negb andb].
  unfold select_header.
  cbn [post_fold_publish rekey_due peer_have awaiting_peer have_kem publish_back set_field].
  rewrite Hpf, Hph, Haw, (own_have _ Ho). cbn [andb negb].
  cbn [send set_field]. unfold send_key.
  destruct (tt_kdf_chain_step (chain (send s))) as [nc mk].
  destruct (tt_kdf_msg_material mk) as [key nonce].
  rewrite frame_too_long.
  2: { unfold our_pub_hdr. cbn [rk_kem_pk eph_pk set_field text_bytes].
       rewrite len_app, !ztake_all; rewrite ?own_eph_len, ?own_kem_len by done; try lia;
       unfold TT_KEM_PK, TT_KEY32, TT_MAC16, TT_FRAME_MAX in *; lia. }
  eexists. split; [done|].
  cbn [rekey rel send seq since_fold published awaiting_peer rekey_due set_field].
  split_conj; try done. intros Hpb. unfold tt_session_rekey_pending.
  cbn [active rekey send awaiting_peer rekey_due peer_have post_fold_publish publish_back set_field].
  by rewrite Ha, Hph, Hpf, Hpb.
Qed.
End rekey.

(** ** Properties *)

(** [tt_session_rekey_pending] says yes exactly when the next header
    selection of [emit_frame] attaches a header, provided the stored peer key
    still passes the contributory check (otherwise the header is skipped). *)
Theorem rekey_pending_mirrors_emit {P : Prims} {L : PrimLaws P} s rng :
  active s = true -> own_ok (rekey s) ->
  (peer_have (rekey s) = true ->
     is_Some (tt_dh_shared (eph_sk (rekey s)) (peer_eph_pk (rekey s)))) ->
  tt_session_rekey_pending s = true <-> due_header s rng <> [].
Proof. apply due_header_mirror. Qed.

(** the carrier protocol of a tunnel session. When a re-key is due,
    [tt_session_carrier] builds a frame and parks it; from then on, until the
    caller reports it sent, every payload is refused without touching the
    session, and every further carrier request gets the same bytes. *)
Theorem carrier_parked_until_done {P : Prims} {L : PrimLaws P} s ky rng ops rng2 :
  active s = true -> lossy s = true -> carrier (rekey s) = [] ->
  own_ok (rekey s) -> own_ok ky -> view (rekey s) ky ->
  tt_session_rekey_pending s = true ->
  (peer_have (rekey s) = true ->
     is_Some (tt_dh_shared (eph_sk (rekey s)) (peer_eph_pk (rekey s)))) ->
  exists f s' rng', tt_session_carrier s TT_FRAME_MAX rng = (Bytes f, s', rng') /\ f <> [] /\
    tt_session_carrier_pending s' = true /\
    run_lossy s' ops rng2 = (parked_answer f <$> ops, s', rng2) /\
    tt_session_carrier_pending (tt_session_carrier_done s') = false.
Proof.
  intros Ha Hl Hc Ho Hoy Hv Hp Hdh.
  destruct (carrier_parks s ky rng Ha Hl Hc Ho Hoy Hv Hp Hdh)
    as (f & s' & rng' & Hb & Hf & Hlen & Ha' & Hl').
  exists f, s', rng'. split_conj; [done| | | |].
  - intros ->. change (len []) with 0 in Hlen. lia.
  - unfold tt_session_carrier_pending. rewrite Hl', Hf. cbn [andb]. apply Z.ltb_lt. lia.
  - by apply parked_locked.
  - unfold tt_session_carrier_pending, tt_session_carrier_done.
    cbn [lossy rekey carrier set_field]. by rewrite Hl'.
Qed.

(** when the first key publication of a chat session falls on a text of
    more than 141 bytes, the send fails, the text is not kept for re-sending,
    and the session records its keys as published and itself as waiting for
    the peer's although no frame carried them: no header is due any more. *)
Theorem long_text_loses_publication {P : Prims} {L : PrimLaws P} s text rng :
  publication_due s -> 141 < len text <= TT_FRAME_DATA_MAX ->
  exists s', tt_session_send s text TT_FRAME_MAX rng = (Status TT_E2EE_BAD_STATE, s', rng) /\
    published (rekey s') = true /\ awaiting_peer (rekey s') = true /\
    rekey_due (rekey s') = false /\ rel s' = rel s /\
    seq (send s') = u32 (seq (send s) + 1) /\ since_fold (send s') = since_fold (send s) /\
    (publish_back (rekey s) = false -> tt_session_rekey_pending s' = false).
Proof. apply publication_lost. Qed.

(** ** Witnesses *)

(** A session with its own keys, 64 frames after the last fold. *)
Definition sample_due (l : bool) : TTSession :=
  tt_session_init <| active := true |> <| lossy := l |> <| root := zrep 32 8 |>
    <| send := (ratchet_reset (P:=sample_prims) (zrep 32 8) true) <| since_fold := 64 |> |>
    <| rekey := sample_rekey |>.

Lemma rekey_pending_mirrors_emit_witness :
  due_header (P:=sample_prims) (sample_due false) (5 : Z) <> [].
Proof.
  apply (@rekey_pending_mirrors_emit sample_prims sample_laws (sample_due false) (5 : Z)).
  - reflexivity.
  - exact sample_rekey_own.
  - intros H. vm_compute in H. discriminate.
  - reflexivity.
Defined.

Lemma carrier_parked_until_done_witness :
  exists f s' rng',
    @tt_session_carrier sample_prims (sample_due true) TT_FRAME_MAX (5 : Z) = (Bytes f, s', rng') /\
    f <> [] /\ tt_session_carrier_pending s' = true /\
    @run_lossy sample_prims s' [OpPayload [1; 2]; OpCarrier] (5 : Z) =
      ([Status TT_E2EE_CARRIER; Bytes f], s', 5) /\
    tt_session_carrier_pending (tt_session_carrier_done s') = false.
Proof.
  apply (@carrier_parked_until_done sample_prims sample_laws (sample_due true) sample_rekey
           (5 : Z) [OpPayload [1; 2]; OpCarrier] (5 : Z)).
  - reflexivity.
  - reflexivity.
  - reflexivity.
  - exact sample_rekey_own.
  - exact sample_rekey_own.
  - intros H. vm_compute in H. discriminate.
  - reflexivity.
  - intros H. vm_compute in H. discriminate.
Defined.

Lemma long_text_loses_publication_witness :
  exists s', @tt_session_send sample_prims (sample_due false) (zrep 200 65) TT_FRAME_MAX (5 : Z)
      = (Status TT_E2EE_BAD_STATE, s', 5) /\ tt_session_rekey_pending s' = false.
Proof.
  destruct (@long_text_loses_publication sample_prims sample_laws (sample_due false)
    (zrep 200 65) (5 : Z)) as (s' & H & _ & _ & _ & _ & _ & _ & Hp).
  - unfold publication_due. split_conj; try reflexivity; exact sample_rekey_own.
  - vm_compute. split; [reflexivity|discriminate].
  - exists s'. split; [exact H|]. apply Hp. reflexivity.
Defined.
