(* ===== verification/SessionSafety.v ===== *)
(** * SessionSafety: the fixed arrays of a session never overflow

    Every operation of [session.c] as one step relation, and the invariant that
    the live prefix of each fixed-size array fits its array ([skipped],
    [pending], [reply_cache], [last_in], [carrier], the unacked ring) and each
    fixed-width counter its width, in every state reachable from a cleared
    session by any sequence of operations on any input. *)
From stdpp Require Import relations.
From S2P Require Import Prelude Ring CText Crypto SampleCrypto Frame Session SessionRatchet SessionRing.

(** ** The invariant *)

Record ratchet_wf (r : TTRatchet) : Prop := {
  rw_skipped : len (skipped r) <= TT_SESSION_SKIPPED_MAX;
  rw_seq : is_u32 (seq r);
  rw_fold : is_u16 (since_fold r);
}.

Definition slot_wf (m : TTSentMsg) : Prop :=
  0 <= m_len m <= TT_FRAME_DATA_MAX /\ len (m_data m) = TT_FRAME_DATA_MAX.

Record sentbuf_wf (b : TTSentBuf) : Prop := {
  sw_ring : sent_wf b;
  sw_slots : Forall slot_wf (sb_m b);
}.

Record session_wf (s : TTSession) : Prop := {
  wf_send : ratchet_wf (send s);
  wf_recv : ratchet_wf (recv s);
  wf_carrier : len (carrier (rekey s)) <= TT_FRAME_MAX;
  wf_reply : len (reply_cache s) <= TT_FRAME_MAX;
  wf_last : len (last_in s) <= TT_FRAME_MAX;
  wf_pending : len (pending s) <= TT_SESSION_PENDING_MAX /\
               Forall (fun t => len t <= TT_FRAME_DATA_MAX) (pending s);
  wf_sent : sentbuf_wf (sent (rel s));
}.

(** ** Every operation of the component *)

Section steps.
Context {P : Prims}.

Inductive session_step (env : TTE2EEEnv) : TTSession -> TTSession -> Prop :=
| st_start s s' now cap rng r rng' :
    tt_session_start s env now cap rng = (r, s', rng') -> session_step env s s'
| st_reply s s' cap rng r rng' :
    tt_session_reply s env cap rng = (r, s', rng') -> session_step env s s'
| st_feed s s' in_ pt_cap rng r hs rng' :
    tt_session_feed s env in_ pt_cap rng = (r, hs, s', rng') -> session_step env s s'
| st_send s s' text cap rng r rng' :
    tt_session_send s text cap rng = (r, s', rng') -> session_step env s s'
| st_send_lossy s s' text cap rng r rng' :
    tt_session_send_lossy s text cap rng = (r, s', rng') -> session_step env s s'
| st_carrier s s' cap rng r rng' :
    tt_session_carrier s cap rng = (r, s', rng') -> session_step env s s'
| st_carrier_done s : session_step env s (tt_session_carrier_done s)
| st_flush s s' cap rng r rng' :
    tt_session_flush s cap rng = (r, s', rng') -> session_step env s s'
| st_rel_poll s s' cap rng r rng' :
    tt_session_rel_poll s cap rng = (r, s', rng') -> session_step env s s'
| st_tick s s' now cap rng r rng' :
    tt_session_tick s env now cap rng = (r, s', rng') -> session_step env s s'
| st_rekey_due s : session_step env s (tt_session_rekey_due s)
| st_clear s : session_step env s tt_session_clear
| st_lossy s l : session_step env s (s <| lossy := l |>).

(** ** Preservation by the parts *)

Lemma u32_range z : is_u32 (u32 z).
Proof. unfold is_u32, u32. apply Z.mod_pos_bound. lia. Qed.
Lemma u16_range z : is_u16 (u16 z).
Proof. unfold is_u16, u16. apply Z.mod_pos_bound. lia. Qed.
Hint Resolve u32_range u16_range : core.

Lemma init_wf : session_wf tt_session_init.
Proof.
  split; try (split; vm_compute; done || lia); try (vm_compute; done).
  split; [apply zero_sent_wf|].
  apply Forall_replicate. split; vm_compute; [split; discriminate|done].
Qed.

Lemma ratchet_reset_wf root i : ratchet_wf (ratchet_reset root i).
Proof. split; vm_compute; (done || (split; done)). Qed.

Lemma ratchet_fold_wf r dh ss : ratchet_wf r -> ratchet_wf (ratchet_fold r dh ss).
Proof.
  intros [H1 H2 H3]. unfold ratchet_fold. destruct (tt_kdf_root_step _ _ _).
  split; [done|done|]. cbn. unfold is_u16. lia.
Qed.

Lemma skipped_add_wf r q k : ratchet_wf r -> ratchet_wf (skipped_add r q k).
Proof.
  intros [H1 H2 H3]. split; [|done|done]. unfold skipped_add. cbn [skipped set_field].
  rewrite len_app. change (len [(q, k)]) with 1.
  unfold TT_SESSION_SKIPPED_MAX in *.
  destruct (Z.leb_spec 96 (len (skipped r))); [|lia].
  unfold len in *. rewrite length_drop. lia.
Qed.

Lemma recv_skip_wf n : forall r, ratchet_wf r -> ratchet_wf (recv_skip n r).
Proof.
  induction n as [|n IH]; intros r Hr; [done|]. cbn [recv_skip].
  destruct (tt_kdf_chain_step (chain r)) as [nc mk].
  destruct (tt_kdf_msg_material mk) as [ek iv]. apply IH.
  assert (Hs : ratchet_wf (skipped_add (r <| chain := nc |>) (seq r) ek))
    by (apply skipped_add_wf; destruct Hr; by split).
  destruct Hs. by split; cbn.
Qed.

Lemma recv_commit_wf r sq : ratchet_wf r -> ratchet_wf (recv_commit r sq).
Proof.
  intros Hr. unfold recv_commit. apply (recv_skip_wf (Z.to_nat (sq - seq r))) in Hr.
  destruct Hr. by split; cbn -[recv_skip].
Qed.

Lemma skipped_pick_len l sq k l' : skipped_pick l sq = Some (k, l') -> len l' <= len l.
Proof.
  revert k l'. induction l as [|[q k0] l IH]; intros k l'; [done|]. cbn [skipped_pick].
  rewrite len_cons. destruct (q =? sq); [intros [= _ <-]; lia|].
  destruct (skipped_pick l sq) as [[k1 l1]|]; [|done]. intros [= _ <-].
  specialize (IH _ _ eq_refl). rewrite len_cons. lia.
Qed.

Lemma recv_key_wf r sq key r' fr :
  ratchet_wf r -> recv_key r sq = inr (key, r', fr) -> ratchet_wf r'.
Proof.
  intros Hr. unfold recv_key, skipped_take.
  destruct (sq =? seq r); [by intros [= _ <- _]|].
  destruct (seq r <? sq); [destruct (_ <=? _); [done|by intros [= _ <- _]]|].
  destruct (skipped_pick _ _) as [[k l]|] eqn:E; [|done]. intros [= _ <- _].
  apply skipped_pick_len in E. destruct Hr. split; cbn; lia || done.
Qed.

Lemma rel_sent_add_wf s gen sq src n :
  sentbuf_wf (sent (rel s)) -> 0 <= n <= TT_FRAME_DATA_MAX ->
  sentbuf_wf (sent (rel (rel_sent_add s gen sq src n))).
Proof.
  intros [Hr Hs] Hn. split; [by apply rel_sent_add_slots|].
  unfold rel_sent_add. cbn [rel sent set_field sb_m]. fold (make_room (sent (rel s))).
  assert (Hz : slot_wf zero_sent_msg) by (split; vm_compute; [split; discriminate|done]).
  assert (Hm : Forall slot_wf (sb_m (make_room (sent (rel s))))).
  { unfold make_room. destruct (_ <=? _)%nat; [|done]. by apply Forall_insert. }
  assert (Hat : forall i, slot_wf (sent_slot (make_room (sent (rel s))) i)).
  { intros i. unfold sent_slot. destruct (sb_m _ !! i) eqn:E; cbn; [|done].
    by eapply Forall_lookup_1 in E. }
  apply Forall_insert; [done|]. split; cbn [m_len m_data].
  - rewrite u16_small; [done|].
    unfold TT_FRAME_DATA_MAX, TT_FRAME_MAX, TT_FRAME_HEAD_MAX, TT_MAC16 in Hn. lia.
  - unfold overwrite. rewrite len_app.
    match goal with |- len ?t + _ = _ => assert (Ht : len t <= n) end.
    { destruct src; cbn [text_bytes]; unfold ztake, len; rewrite length_take; lia. }
    rewrite len_zdrop; [by rewrite (proj2 (Hat _)); lia|].
    rewrite (proj2 (Hat _)). pose proof (len_nonneg (text_bytes (make_room (sent (rel s))) src n)).
    lia.
Qed.

Lemma sent_compact_wf gone b : sentbuf_wf b -> sentbuf_wf (sent_compact gone b).
Proof.
  intros [Hr Hs]. split; [by apply sent_compact_spec|].
  unfold sent_compact. assert (Hz : slot_wf zero_sent_msg)
    by (split; vm_compute; [split; discriminate|done]).
  assert (H : forall l m w, Forall slot_wf m ->
    Forall slot_wf (fold_left (sent_compact_step gone (sb_head b)) l (m, w)).1).
  { induction l as [|r l IH]; intros m w Hm; [done|]. cbn [fold_left].
    unfold sent_compact_step at 2.
    destruct (gone _); [by apply IH, Forall_insert|].
    destruct (w =? r)%nat; [by apply IH|]. apply IH. apply Forall_insert; [|done].
    apply Forall_insert; [done|]. destruct (m !! _) eqn:E; cbn; [|done].
    by eapply Forall_lookup_1 in E. }
  specialize (H (List.seq 0 (sb_count b)) (sb_m b) 0%nat Hs).
  by destruct (fold_left _ _ _).
Qed.
(** ** Preservation by the operations *)

(** A state that differs only in fields the invariant does not read, or in
    fields whose part of the invariant is at hand. *)
Ltac wf_done :=
  match goal with H : session_wf _ |- _ => destruct H end;
  split; cbn [send recv rekey carrier reply_cache last_in pending rel sent set_field]; auto.

Lemma establish_wf s f1 f2 f3 ss ika ikb i rng s' rng' :
  session_wf s -> establish s f1 f2 f3 ss ika ikb i rng = (s', rng') -> session_wf s'.
Proof.
  intros Hwf. unfold establish. destruct (tt_dh_keygen rng) as [[epk esk] r1].
  destruct (tt_kem_keygen r1) as [[kpk ksk] r2]. intros [= <- _].
  wf_done; apply ratchet_reset_wf.
Qed.

Lemma reestablish_wf s : session_wf s -> session_wf (reestablish_preserve s).
Proof. intros Hwf. pose proof init_wf as []. unfold reestablish_preserve. by wf_done. Qed.

Lemma start_wf s env now cap rng r s' rng' :
  session_wf s -> tt_session_start s env now cap rng = (r, s', rng') -> session_wf s'.
Proof.
  intros Hwf. unfold tt_session_start. destruct (peer_pk env); [|by intros [= _ <- _]].
  apply reestablish_wf in Hwf.
  destruct (tt_dh_keygen rng) as [[??] r1], (tt_dh_keygen r1) as [[??] r2],
    (tt_kem_keygen r2) as [[??] r3].
  destruct (seal_key_derive _ _ _); [|intros [= _ <- _]; by wf_done].
  destruct (build_init _ _ _ _) as [[]]; intros [= _ <- _]; by wf_done.
Qed.

Lemma encode_max cap ty sq fl key nonce hdr pt out :
  TT_NONCE24 <= len nonce -> tt_frame_encode cap ty sq fl key nonce hdr pt = Some out ->
  len out <= TT_FRAME_MAX.
Proof.
  intros Hn He. pose proof (tt_frame_encode_inv _ _ _ _ _ _ _ _ _ He) as (_ & _ & Hm & _).
  apply tt_frame_encode_len in He; [|done]. lia.
Qed.

Lemma reply_wf {L : PrimLaws P} s env cap rng r s' rng' :
  session_wf s -> tt_session_reply s env cap rng = (r, s', rng') -> session_wf s'.
Proof.
  intros Hwf. unfold tt_session_reply. destruct (peer_pk env); [|by intros [= _ <- _]].
  destruct (negb (reply_due s)).
  { destruct (0 <? _); [destruct (_ <? _)|]; by intros [= _ <- _]. }
  destruct (seal_key_derive _ _ _); [|intros [= _ <- _]; by wf_done].
  pose proof (randombytes_len TT_NONCE24 rng ltac:(done)) as Hl.
  destruct (randombytes TT_NONCE24 rng) as [nonce r1]. cbn [fst] in Hl.
  destruct (tt_frame_encode _ _ _ _ _ _ _ _) as [out|] eqn:E;
    intros [= _ <- _]; wf_done. eapply encode_max; [|done]. lia.
Qed.

Lemma accept_init_wf s env peer key d rng r hs s' rng' :
  session_wf s -> accept_init s env peer key d rng = (r, hs, s', rng') -> session_wf s'.
Proof.
  intros Hwf. unfold accept_init.
  destruct (tt_dh_keygen rng) as [[??] r1], (tt_dh_keygen r1) as [[??] r2],
    (tt_kem_enc _ r2) as [[??] r3].
  match goal with |- context [establish ?x _ _ _ _ _ _ _ _] =>
    assert (Hx : session_wf x) by by wf_done end.
  destruct (tt_dh_shared _ _); [|by intros [= _ _ <- _]].
  destruct (tt_dh_shared _ _); [|by intros [= _ _ <- _]].
  destruct (tt_dh_shared _ _); [|by intros [= _ _ <- _]].
  destruct (establish _ _ _ _ _ _ _ _ _) as [s1 r4] eqn:Ee. apply establish_wf in Ee; [|done].
  clear Hwf Hx. intros [= _ _ <- _]. by wf_done.
Qed.

Lemma feed_init_wf s env in_ d rng r hs s' rng' :
  session_wf s -> feed_init s env in_ d rng = (r, hs, s', rng') -> session_wf s'.
Proof.
  intros Hwf. unfold feed_init. destruct (negb _); [by intros [= _ _ <- _]|].
  destruct (peer_pk env); [|by intros [= _ _ <- _]].
  destruct (negb _); [by intros [= _ _ <- _]|].
  destruct (init_retransmit _ _ _ _); [by intros [= _ _ <- _]|].
  destruct (_ && _); [by intros [= _ _ <- _]|].
  assert (Hx : session_wf (if i_am_initiator s && (active s || init_pending s)
                           then reestablish_preserve s else s))
    by (destruct (_ && _); [by apply reestablish_wf|done]).
  destruct (open_init _ _ _) as [[[? [??]]|]|]; try by intros [= _ _ <- _].
  by apply accept_init_wf.
Qed.

Lemma feed_reply_wf s env in_ d rng r hs s' rng' :
  session_wf s -> feed_reply s env in_ d rng = (r, hs, s', rng') -> session_wf s'.
Proof.
  intros Hwf. unfold feed_reply. destruct (_ || _); [by intros [= _ _ <- _]|].
  destruct (negb _); [by intros [= _ _ <- _]|].
  destruct (peer_pk env); [|by intros [= _ _ <- _]].
  destruct (negb _); [by intros [= _ _ <- _]|].
  destruct (seal_key_derive _ _ _); [|by intros [= _ _ <- _]].
  destruct (tt_frame_decode _ _ _) as [[??]|]; [|by intros [= _ _ <- _]].
  destruct (tt_dh_shared _ _); [|by intros [= _ _ <- _]].
  destruct (tt_dh_shared _ _); [|by intros [= _ _ <- _]].
  destruct (tt_dh_shared _ _); [|by intros [= _ _ <- _]].
  destruct (establish _ _ _ _ _ _ _ _ _) as [s1 r4] eqn:Ee. apply establish_wf in Ee; [|done].
  clear Hwf. intros [= _ _ <- _]. by wf_done.
Qed.

Lemma feed_control_wf s in_ d r s' :
  session_wf s -> feed_control s in_ d = (r, s') -> session_wf s'.
Proof.
  intros Hwf. unfold feed_control.
  destruct (negb _); [by intros [= _ <-]|]. destruct (lossy s); [by intros [= _ <-]|].
  destruct (negb _); [by intros [= _ <-]|].
  destruct (tt_frame_decode _ _ _) as [[dd p]|]; [|by intros [= _ <-]].
  destruct (negb _); [by intros [= _ <-]|].
  destruct (d_type dd =? TT_FRAME_ACK); intros [= _ <-]; wf_done. by apply sent_compact_wf.
Qed.

Lemma data_accept_wf s fr d rng s' rng' :
  session_wf s -> data_accept s fr d rng = (s', rng') -> session_wf s'.
Proof.
  intros Hwf. unfold data_accept.
  assert (H1 : session_wf (if fr then s else s <| recv := recv_commit (recv s) (d_seq d) |>))
    by (destruct fr; [done|wf_done; by apply recv_commit_wf]).
  set (s1 := if fr then s else _) in *. clearbody s1. clear Hwf.
  match goal with |- context [if ?c then s1 <| rel := ?x |> else s1] =>
    assert (H2 : session_wf (if c then s1 <| rel := x |> else s1))
      by (destruct c; [by wf_done|done]); set (s2 := if c then s1 <| rel := x |> else s1) in * end.
  clearbody s2. clear H1.
  destruct (_ =? TT_HDR_DATA_REKEY); [|destruct (_ =? TT_HDR_DATA_KEMPUB)].
  - unfold apply_rekey. destruct (tt_dh_shared _ _); [|by intros [= <- _]].
    destruct (tt_dh_keygen rng) as [[??] r1], (tt_kem_keygen r1) as [[??] r2].
    intros [= <- _]. wf_done. by apply ratchet_fold_wf.
  - intros [= <- _]. unfold apply_kempub. destruct (tt_dh_shared _ _); [|done].
    wf_done. destruct (awaiting_peer _); [|destruct (_ && _)]; done.
  - by intros [= <- _].
Qed.

Lemma feed_data_wf s in_ d cap rng r s' rng' :
  session_wf s -> feed_data s in_ d cap rng = (r, s', rng') -> session_wf s'.
Proof.
  intros Hwf. unfold feed_data. destruct (negb (active s)); [by intros [= _ <- _]|].
  destruct (_ && _); [by intros [= _ <- _]|].
  destruct (recv_key (recv s) (d_seq d)) as [e|[[key r0] fr]] eqn:Ek; [by intros [= _ <- _]|].
  apply recv_key_wf in Ek; [|apply Hwf].
  destruct (tt_frame_decode _ _ _) as [[dd p]|].
  - destruct (data_accept _ _ _ _) as [s1 r1] eqn:Ea. intros [= _ <- _].
    apply data_accept_wf in Ea; [done|]. by wf_done.
  - intros [= _ <- _].
    destruct fr; destruct (_ && _); wf_done; by apply skipped_add_wf.
Qed.

Lemma feed_wf s env in_ cap rng r hs s' rng' :
  session_wf s -> tt_session_feed s env in_ cap rng = (r, hs, s', rng') -> session_wf s'.
Proof.
  intros Hwf. unfold tt_session_feed.
  destruct (tt_frame_peek in_) as [d|]; [|by intros [= _ _ <- _]].
  match goal with |- context [if ?c then s <| last_in := in_ |> else s] =>
    assert (H1 : session_wf (if c then s <| last_in := in_ |> else s));
      [destruct c eqn:E; [wf_done; bool_to_prop; done|done]
      |set (s1 := if c then s <| last_in := in_ |> else s) in *] end.
  clearbody s1. clear Hwf.
  destruct (_ =? TT_FRAME_INIT); [by apply feed_init_wf|].
  destruct (_ =? TT_FRAME_REPLY); [by apply feed_reply_wf|].
  destruct (_ || _).
  - destruct (feed_control s1 in_ d) as [r0 s0] eqn:E. intros [= _ _ <- _].
    by eapply feed_control_wf.
  - destruct (feed_data s1 in_ d cap rng) as [[r0 s0] rng0] eqn:E. intros [= _ _ <- _].
    by eapply feed_data_wf.
Qed.

Lemma select_header_carrier k rng hdr fl fold k' rng' :
  select_header k rng = (hdr, fl, fold, k', rng') -> carrier k' = carrier k.
Proof.
  unfold select_header. destruct (post_fold_publish k); [by intros [= _ _ _ <- _]|].
  destruct (rekey_due k && peer_have k).
  { destruct (tt_dh_shared _ _); [|by intros [= _ _ _ <- _]].
    destruct (tt_kem_enc _ _) as [[??]?]. by intros [= _ _ _ <- _]. }
  destruct (rekey_due k && negb (awaiting_peer k)).
  { destruct (negb (have_kem k)); [destruct (tt_kem_keygen rng) as [[??]?]|];
      by intros [= _ _ _ <- _]. }
  destruct (publish_back k); by intros [= _ _ _ <- _].
Qed.

Lemma emit_frame_wf s src n cap co rng r s' rng' :
  session_wf s -> 0 <= n <= TT_FRAME_DATA_MAX ->
  emit_frame s src n cap co rng = (r, s', rng') -> session_wf s'.
Proof.
  intros Hwf Hn. unfold emit_frame. destruct (_ && (0 <? _)); [by intros [= _ <- _]|].
  destruct (if negb (lossy s) || co then _ else _) as [[[[hdr fl] fold] k'] rng1] eqn:Es.
  assert (Hk : len (carrier k') <= TT_FRAME_MAX).
  { assert (Ha : carrier (auto_rekey s) = carrier (rekey s)) by (unfold auto_rekey; by case_goal).
    destruct (negb (lossy s) || co).
    - rewrite (select_header_carrier _ _ _ _ _ _ _ Es), Ha. apply Hwf.
    - injection Es as _ _ _ <- _. rewrite Ha. apply Hwf. }
  cbn [send set_field]. unfold send_key. destruct (tt_kdf_chain_step _) as [nc mk].
  destruct (tt_kdf_msg_material mk) as [key nonce].
  match goal with |- context [rel_sent_add ?x] => set (s1 := x); assert (H1 : session_wf s1) end.
  { subst s1. wf_done. match goal with H : ratchet_wf (send s) |- _ => destruct H end.
    split; cbn [skipped seq since_fold set_field]; auto. }
  clearbody s1. destruct (tt_frame_encode _ _ _ _ _ _ _ _) as [out|];
    [|intros [= _ <- _]; exact H1].
  match goal with |- context [emit_commit ?x] => set (s2 := x); assert (H2 : session_wf s2) end.
  { subst s2. destruct (negb (lossy s1)); [|done]. clear Hwf. wf_done. by apply rel_sent_add_wf. }
  clearbody s2. clear Hwf H1. intros [= _ <- _]. unfold emit_commit.
  match goal with |- context [lossy ?x && _ && _] => set (s3 := x); assert (H3 : session_wf s3) end.
  { subst s3. destruct fold as [[dh ss]|]; wf_done.
    - match goal with H : ratchet_wf (send s2) |- _ =>
        apply (ratchet_fold_wf _ dh ss) in H; destruct H end.
      by split; cbn [skipped seq since_fold set_field].
    - match goal with H : ratchet_wf (send s2) |- _ => destruct H end.
      split; cbn [skipped seq since_fold set_field]; auto. }
  clearbody s3. destruct (lossy s3 && _ && _) eqn:Ec; [|done].
  wf_done. bool_to_prop. done.
Qed.

Lemma rel_poll_wf s cap rng r s' rng' :
  session_wf s -> tt_session_rel_poll s cap rng = (r, s', rng') -> session_wf s'.
Proof.
  intros Hwf. unfold tt_session_rel_poll. destruct (negb (active s)); [by intros [= _ <- _]|].
  destruct (resend_req_pending (rel s)).
  { destruct (control_frame _ _ _ _ _ _). intros [= _ <- _]. by wf_done. }
  destruct (resend_rep_pending (rel s)).
  2: { destruct (ack_due (rel s)); [|by intros [= _ <- _]].
       destruct (control_frame _ _ _ _ _ _). intros [= _ <- _]. by wf_done. }
  assert (Hscan : forall fuel i s0 rng0 o s1 rng1, session_wf s0 ->
    resend_scan fuel i s0 cap rng0 = (o, s1, rng1) -> session_wf s1).
  { clear. induction fuel as [|fuel IH]; intros i s0 rng0 o s1 rng1 Hwf; cbn [resend_scan];
      [by intros [= _ <- _]|].
    destruct (_ <=? i)%nat; [by intros [= _ <- _]|].
    destruct (_ || _); [by apply IH|].
    set (idx := ((_ + i) mod TT_SENT_MAX)%nat).
    destruct (emit_frame _ _ _ _ _ _) as [[[f|e] s2] rng2] eqn:Ee;
      (apply emit_frame_wf in Ee; [|done|]).
    - intros [= _ <- _]. clear Hwf. wf_done. by apply sent_compact_wf.
    - unfold sent_slot. destruct (sb_m _ !! idx) eqn:E; cbn; [|vm_compute; by split].
      exact (proj1 (Forall_lookup_1 _ _ _ _ (sw_slots _ (wf_sent _ Hwf)) E)).
    - by apply IH.
    - unfold sent_slot. destruct (sb_m _ !! idx) eqn:E; cbn; [|vm_compute; by split].
      exact (proj1 (Forall_lookup_1 _ _ _ _ (sw_slots _ (wf_sent _ Hwf)) E)). }
  destruct (resend_scan _ _ _ _ _) as [[[f|] s1] rng1] eqn:E; apply Hscan in E; try done;
    intros [= _ <- _]; [done|]. clear Hwf. by wf_done.
Qed.

Lemma flush_wf s cap rng r s' rng' :
  session_wf s -> tt_session_flush s cap rng = (r, s', rng') -> session_wf s'.
Proof.
  intros Hwf. unfold tt_session_flush.
  destruct (active s); [|by intros [= _ <- _]].
  destruct (pending s) as [|t rest] eqn:Ep; [by intros [= _ <- _]|].
  pose proof (wf_pending _ Hwf) as [Hl Hp]. rewrite Ep in Hl, Hp.
  apply Forall_cons in Hp as [Ht Hp]. rewrite len_cons in Hl.
  destruct (emit_frame _ _ _ _ _ _) as [[[f|e] s1] rng1] eqn:Ee;
    (apply emit_frame_wf in Ee; [|done|pose proof (len_nonneg t); lia]);
    intros [= _ <- _]; [|done]. clear Hwf. wf_done. split; [lia|done].
Qed.

Lemma send_wf s text cap rng r s' rng' :
  session_wf s -> tt_session_send s text cap rng = (r, s', rng') -> session_wf s'.
Proof.
  intros Hwf. unfold tt_session_send.
  destruct (Z.ltb_spec TT_FRAME_DATA_MAX (len text)); [by intros [= _ <- _]|].
  pose proof (len_nonneg text).
  destruct (negb (active s)); [|apply emit_frame_wf; [done|lia]].
  destruct (Z.leb_spec TT_SESSION_PENDING_MAX (len (pending s))); [by intros [= _ <- _]|].
  intros [= _ <- _]. destruct (0 <? len text); [|done].
  wf_done. destruct wf_pending0. rewrite len_app. change (len [text]) with 1.
  split; [lia|]. apply Forall_app. by split; [|constructor].
Qed.

Lemma session_step_wf {L : PrimLaws P} env s s' :
  session_wf s -> session_step env s s' -> session_wf s'.
Proof.
  intros Hwf Hstep. inversion Hstep as [? ? ? ? ? ? ? H|? ? ? ? ? ? H|? ? ? ? ? ? ? ? H
    |? ? ? ? ? ? ? H|? ? ? ? ? ? ? H|? ? ? ? ? ? H| |? ? ? ? ? ? H|? ? ? ? ? ? H
    |? ? ? ? ? ? ? H| | |]; subst.
  - by eapply start_wf.
  - by eapply reply_wf.
  - by eapply feed_wf.
  - by eapply send_wf.
  - revert H. unfold tt_session_send_lossy. destruct (Z.ltb_spec TT_FRAME_DATA_MAX (len text));
      [by intros [= _ <- _]|]. destruct (negb (active s)); [by intros [= _ <- _]|].
    apply emit_frame_wf; [done|]. pose proof (len_nonneg text). lia.
  - revert H. unfold tt_session_carrier. destruct (negb (active s)); [by intros [= _ <- _]|].
    destruct (0 <? _); [destruct (cap <? _); by intros [= _ <- _]|].
    destruct (negb _); [by intros [= _ <- _]|]. apply emit_frame_wf; [done|].
    vm_compute. by split.
  - unfold tt_session_carrier_done. wf_done. vm_compute. discriminate.
  - by eapply flush_wf.
  - by eapply rel_poll_wf.
  - revert H. unfold tt_session_tick. destruct (negb _); [by intros [= _ <- _]|].
    destruct (_ <? 5); [by intros [= _ <- _]|].
    destruct (build_init _ _ _ _) as [[]]; intros [= _ <- _]; by wf_done.
  - unfold tt_session_rekey_due. destruct (negb _); [done|]. by wf_done.
  - apply init_wf.
  - by wf_done.
Qed.
End steps.

(** ** Properties *)

(** C4: in every state a session can reach from [tt_session_init] by any
    sequence of operations, with any peer input, any buffer sizes and any
    randomness, the skipped keys, the pending texts, the cached REPLY, the
    last frame, the parked carrier and every entry of the unacked ring fit
    their fixed arrays, and the counters fit their width. *)
Theorem session_arrays_never_overflow {P : Prims} {L : PrimLaws P} env s :
  rtc (session_step env) tt_session_init s -> session_wf s.
Proof.
  intros H. remember tt_session_init as s0 eqn:E.
  assert (Hwf : session_wf s0) by (subst; apply init_wf). clear E.
  induction H as [|s0 s1 s2 Hs _ IH]; [done|]. apply IH. by eapply session_step_wf.
Qed.

(** ** Witnesses *)

Lemma triple_eta {A B C} (x : A * B * C) : x = (x.1.1, x.1.2, x.2).
Proof. by destruct x as [[??]?]. Qed.

Definition sample_safety_env : TTE2EEEnv :=
  mkEnv (zrep 32 11) (sample_base (zrep 32 11)) (Some (sample_base (zrep 32 22))).

Lemma start_reached {P : Prims} env s now cap rng :
  rtc (session_step env) s (tt_session_start s env now cap rng).1.2.
Proof. eapply rtc_once, st_start. apply triple_eta. Qed.

Lemma session_arrays_never_overflow_witness :
  session_wf (tt_session_start (P:=sample_prims) tt_session_init sample_safety_env 0
                TT_FRAME_MAX (1 : Z)).1.2.
Proof.
  exact (@session_arrays_never_overflow sample_prims sample_laws sample_safety_env _
    (start_reached (P:=sample_prims) sample_safety_env tt_session_init 0 TT_FRAME_MAX (1 : Z))).
Defined.
