(* ===== verification/Chess.v ===== *)
(** * Chess: the chess engine ([src/chess.c], [chess.h])

    The board is the C array [board[8][8]] in row-major order: square
    [(rank, file)] is entry [8 * rank + file].  [int] coordinates are [Z]; no
    arithmetic on them leaves the range of an [int].  [tt_chess_move] mutates
    [*g] only when it returns true, so it returns [Some] of the new game or
    [None]. *)
From S2P Require Import Prelude.

(** ** Data *)

Inductive TTPieceType :=
| TT_PIECE_NONE | TT_PIECE_PAWN | TT_PIECE_ROOK | TT_PIECE_KNIGHT
| TT_PIECE_BISHOP | TT_PIECE_QUEEN | TT_PIECE_KING.

Inductive TTColor := TT_COLOR_WHITE | TT_COLOR_BLACK.

Inductive TTChessStatus :=
| TT_CHESS_PLAYING | TT_CHESS_CHECKMATE | TT_CHESS_STALEMATE | TT_CHESS_RESIGNED.

#[export] Instance TTPieceType_eq_dec : EqDecision TTPieceType.
Proof. solve_decision. Defined.
#[export] Instance TTColor_eq_dec : EqDecision TTColor.
Proof. solve_decision. Defined.
#[export] Instance TTChessStatus_eq_dec : EqDecision TTChessStatus.
Proof. solve_decision. Defined.

Record TTPiece := mkPiece { p_type : TTPieceType; p_color : TTColor }.

#[export] Instance TTPiece_eq_dec : EqDecision TTPiece.
Proof. solve_decision. Defined.

Record TTChess := mkChess {
  board : list TTPiece;
  to_move : TTColor;
  white_ks : bool; white_qs : bool;
  black_ks : bool; black_qs : bool;
  ep_file : Z;
  status : TTChessStatus;
  winner : TTColor;
}.

#[export] Instance eta_Chess : EtaRecord TTChess := fun g =>
  mkChess (board g) (to_move g) (white_ks g) (white_qs g) (black_ks g) (black_qs g)
    (ep_file g) (status g) (winner g).

Definition type_is (ty : TTPieceType) (p : TTPiece) : bool := bool_decide (p_type p = ty).
Definition color_is (c : TTColor) (p : TTPiece) : bool := bool_decide (p_color p = c).
Definition is_white (c : TTColor) : bool := bool_decide (c = TT_COLOR_WHITE).
Definition opponent (c : TTColor) : TTColor :=
  match c with TT_COLOR_WHITE => TT_COLOR_BLACK | TT_COLOR_BLACK => TT_COLOR_WHITE end.

(** An empty square: the zeroed [TTPiece]. *)
Definition no_piece : TTPiece := mkPiece TT_PIECE_NONE TT_COLOR_WHITE.

(** ** Board access *)

Definition sq_index (rank file : Z) : nat := Z.to_nat (8 * rank + file).
Definition at_sq (b : list TTPiece) (rank file : Z) : TTPiece :=
  default no_piece (b !! sq_index rank file).
Definition set_sq (b : list TTPiece) (rank file : Z) (p : TTPiece) : list TTPiece :=
  <[sq_index rank file := p]> b.

Definition empty_sq (b : list TTPiece) (rank file : Z) : bool :=
  type_is TT_PIECE_NONE (at_sq b rank file).
Definition holds (b : list TTPiece) (rank file : Z) (ty : TTPieceType) (c : TTColor) : bool :=
  type_is ty (at_sq b rank file) && color_is c (at_sq b rank file).

Definition set_piece (b : list TTPiece) (rank file : Z) (ty : TTPieceType) (c : TTColor)
    : list TTPiece := set_sq b rank file (mkPiece ty c).

Definition back_rank : list TTPieceType :=
  [TT_PIECE_ROOK; TT_PIECE_KNIGHT; TT_PIECE_BISHOP; TT_PIECE_QUEEN;
   TT_PIECE_KING; TT_PIECE_BISHOP; TT_PIECE_KNIGHT; TT_PIECE_ROOK].

Definition tt_chess_init : TTChess :=
  let place b f :=
    let ty := default TT_PIECE_NONE (back_rank !! Z.to_nat f) in
    let b := set_piece b 0 f ty TT_COLOR_WHITE in
    let b := set_piece b 1 f TT_PIECE_PAWN TT_COLOR_WHITE in
    let b := set_piece b 6 f TT_PIECE_PAWN TT_COLOR_BLACK in
    set_piece b 7 f ty TT_COLOR_BLACK in
  mkChess (fold_left place [0; 1; 2; 3; 4; 5; 6; 7] (replicate 64 no_piece))
    TT_COLOR_WHITE true true true true (-1) TT_CHESS_PLAYING TT_COLOR_WHITE.

(** ** Algebraic squares *)

(** [s] is a NUL-terminated string given by its characters. *)
Definition tt_chess_parse_square (s : bytes) : option (Z * Z) :=
  match s with
  | [a; b] =>
      if (a <? 97) || (104 <? a) || (b <? 49) || (56 <? b) then None
      else Some (b - 49, a - 97)
  | _ => None
  end.

Definition tt_chess_format_square (rank file : Z) : bytes := [97 + file; 49 + rank].

Definition in_bounds (rank file : Z) : bool :=
  (0 <=? rank) && (rank <? 8) && (0 <=? file) && (file <? 8).

(** ** Attacks *)

Definition knight_steps : list (Z * Z) :=
  [(-2, -1); (-2, 1); (2, -1); (2, 1); (-1, -2); (-1, 2); (1, -2); (1, 2)].
Definition king_steps : list (Z * Z) :=
  [(-1, -1); (-1, 0); (-1, 1); (0, -1); (0, 1); (1, -1); (1, 0); (1, 1)].
Definition rook_dirs : list (Z * Z) := [(1, 0); (-1, 0); (0, 1); (0, -1)].
Definition bishop_dirs : list (Z * Z) := [(1, 1); (1, -1); (-1, 1); (-1, -1)].

(** A ray from (and including) [(r, f)]: the first piece met decides. *)
Fixpoint ray_hits (fuel : nat) (b : list TTPiece) (r f dr df : Z) (by_ : TTColor)
    (ty : TTPieceType) : bool :=
  match fuel with
  | O => false
  | S fuel =>
      if negb (in_bounds r f) then false else
      let p := at_sq b r f in
      if negb (type_is TT_PIECE_NONE p)
      then color_is by_ p && (type_is ty p || type_is TT_PIECE_QUEEN p)
      else ray_hits fuel b (r + dr) (f + df) dr df by_ ty
  end.

Definition tt_chess_square_attacked (b : list TTPiece) (rank file : Z) (by_ : TTColor) : bool :=
  let pr := if is_white by_ then rank - 1 else rank + 1 in
  (in_bounds pr (file - 1) && holds b pr (file - 1) TT_PIECE_PAWN by_) ||
  (in_bounds pr (file + 1) && holds b pr (file + 1) TT_PIECE_PAWN by_) ||
  existsb (fun d => in_bounds (rank + d.1) (file + d.2) &&
                    holds b (rank + d.1) (file + d.2) TT_PIECE_KNIGHT by_) knight_steps ||
  existsb (fun d => in_bounds (rank + d.1) (file + d.2) &&
                    holds b (rank + d.1) (file + d.2) TT_PIECE_KING by_) king_steps ||
  existsb (fun d => ray_hits 8 b (rank + d.1) (file + d.2) d.1 d.2 by_ TT_PIECE_ROOK) rook_dirs ||
  existsb (fun d => ray_hits 8 b (rank + d.1) (file + d.2) d.1 d.2 by_ TT_PIECE_BISHOP) bishop_dirs.

(** The squares in the order of the double loop. *)
Definition all_squares : list (Z * Z) :=
  r ← [0; 1; 2; 3; 4; 5; 6; 7]; f ← [0; 1; 2; 3; 4; 5; 6; 7]; [(r, f)].

Definition find_king (b : list TTPiece) (c : TTColor) : option (Z * Z) :=
  List.find (fun s => holds b s.1 s.2 TT_PIECE_KING c) all_squares.

Definition tt_chess_in_check (b : list TTPiece) (c : TTColor) : bool :=
  match find_king b c with
  | Some (r, f) => tt_chess_square_attacked b r f (opponent c)
  | None => false
  end.

Definition move_leaves_self_in_check (b : list TTPiece) (fr ff tr tf : Z) : bool :=
  let tmp := set_sq b tr tf (at_sq b fr ff) in
  let tmp := set_sq tmp fr ff no_piece in
  tt_chess_in_check tmp (p_color (at_sq tmp tr tf)).

(** ** Is there a legal move? *)

Section generator.
Variables (b : list TTPiece) (ep : Z) (color : TTColor) (fr ff : Z).

Definition safe (tr tf : Z) : bool := negb (move_leaves_self_in_check b fr ff tr tf).
Definition own_sq (tr tf : Z) : bool := negb (empty_sq b tr tf) && color_is color (at_sq b tr tf).

Definition pawn_any : bool :=
  let dir := if is_white color then 1 else -1 in
  let start := if is_white color then 1 else 6 in
  let tr := fr + dir in
  (in_bounds tr ff && empty_sq b tr ff &&
     (safe tr ff ||
      ((fr =? start) && empty_sq b (fr + 2 * dir) ff && safe (fr + 2 * dir) ff))) ||
  existsb (fun df =>
    let tf := ff + df in
    in_bounds tr tf &&
    if negb (empty_sq b tr tf) && negb (color_is color (at_sq b tr tf)) then safe tr tf
    else empty_sq b tr tf && (tf =? ep) && (tr =? if is_white color then 5 else 2) && safe tr tf)
    [-1; 1].

Definition step_any (steps : list (Z * Z)) : bool :=
  existsb (fun d => in_bounds (fr + d.1) (ff + d.2) && negb (own_sq (fr + d.1) (ff + d.2)) &&
                    safe (fr + d.1) (ff + d.2)) steps.

Fixpoint ray_any (fuel : nat) (tr tf dr df : Z) : bool :=
  match fuel with
  | O => false
  | S fuel =>
      if negb (in_bounds tr tf) then false
      else if own_sq tr tf then false
      else if safe tr tf then true
      else if negb (empty_sq b tr tf) then false
      else ray_any fuel (tr + dr) (tf + df) dr df
  end.

Definition slide_any (dirs : list (Z * Z)) : bool :=
  existsb (fun d => ray_any 8 (fr + d.1) (ff + d.2) d.1 d.2) dirs.

Definition piece_any : bool :=
  let p := at_sq b fr ff in
  match p_type p with
  | TT_PIECE_NONE => false
  | ty =>
      if negb (color_is color p) then false else
      match ty with
      | TT_PIECE_PAWN => pawn_any
      | TT_PIECE_KNIGHT => step_any knight_steps
      | TT_PIECE_KING => step_any king_steps
      | TT_PIECE_ROOK => slide_any rook_dirs
      | TT_PIECE_BISHOP => slide_any bishop_dirs
      | TT_PIECE_QUEEN => slide_any bishop_dirs || slide_any rook_dirs
      | TT_PIECE_NONE => false
      end
  end.
End generator.

Definition has_any_legal_move (g : TTChess) (color : TTColor) : bool :=
  existsb (fun s => piece_any (board g) (ep_file g) color s.1 s.2) all_squares.

Definition tt_chess_has_legal_move (g : TTChess) (color : TTColor) : bool :=
  has_any_legal_move g color.

(** ** Validating a move *)

Section validate.
Variables (g : TTChess) (p t : TTPiece) (fr ff tr tf : Z).

Definition pawn_legal : bool :=
  let dr := tr - fr in let df := tf - ff in
  let dir := if is_white (p_color p) then 1 else -1 in
  let start := if is_white (p_color p) then 1 else 6 in
  if (df =? 0) && type_is TT_PIECE_NONE t then
    (dr =? dir) || ((dr =? 2 * dir) && (fr =? start) && empty_sq (board g) (fr + dir) ff)
  else if (df =? 1) || (df =? -1) then
    (dr =? dir) &&
    (negb (type_is TT_PIECE_NONE t) ||
     ((tr =? if is_white (p_color p) then 5 else 2) && (tf =? ep_file g)))
  else false.

Definition knight_legal : bool :=
  let dr := tr - fr in let df := tf - ff in
  ((dr =? 2) && (df =? 1)) || ((dr =? 2) && (df =? -1)) ||
  ((dr =? -2) && (df =? 1)) || ((dr =? -2) && (df =? -1)) ||
  ((dr =? 1) && (df =? 2)) || ((dr =? 1) && (df =? -2)) ||
  ((dr =? -1) && (df =? 2)) || ((dr =? -1) && (df =? -2)).

Definition king_step : bool :=
  let dr := tr - fr in let df := tf - ff in
  (-1 <=? dr) && (dr <=? 1) && (-1 <=? df) && (df <=? 1) && (negb (dr =? 0) || negb (df =? 0)).

Definition attacked_by_opponent (f : Z) : bool :=
  tt_chess_square_attacked (board g) fr f (opponent (p_color p)).

Definition castle_ks : bool :=
  (if is_white (p_color p) then white_ks g else black_ks g) &&
  empty_sq (board g) fr 5 && empty_sq (board g) fr 6 &&
  holds (board g) fr 7 TT_PIECE_ROOK (p_color p) &&
  negb (attacked_by_opponent 4) && negb (attacked_by_opponent 5) && negb (attacked_by_opponent 6).

Definition castle_qs : bool :=
  (if is_white (p_color p) then white_qs g else black_qs g) &&
  empty_sq (board g) fr 1 && empty_sq (board g) fr 2 && empty_sq (board g) fr 3 &&
  holds (board g) fr 0 TT_PIECE_ROOK (p_color p) &&
  negb (attacked_by_opponent 4) && negb (attacked_by_opponent 3) && negb (attacked_by_opponent 2).

Definition king_legal : bool :=
  let dr := tr - fr in let df := tf - ff in
  if king_step then true
  else if (dr =? 0) && (df =? 2) then castle_ks
  else if (dr =? 0) && (df =? -2) then castle_qs
  else false.

(** [(x > 0) - (x < 0)] *)
Definition sign (x : Z) : Z := (if 0 <? x then 1 else 0) - (if x <? 0 then 1 else 0).

(** [while (r != to_rank || f != to_file)]; the fuel is the number of squares
    a line can have, [false] when it runs out. *)
Fixpoint path_clear (fuel : nat) (r f sr sf : Z) : bool :=
  if (r =? tr) && (f =? tf) then true else
  match fuel with
  | O => false
  | S fuel => empty_sq (board g) r f && path_clear fuel (r + sr) (f + sf) sr sf
  end.

Definition slide_legal : bool :=
  let dr := tr - fr in let df := tf - ff in
  let straight := xorb (dr =? 0) (df =? 0) in
  let diag := negb (dr =? 0) && negb (df =? 0) && ((dr =? df) || (dr =? - df)) in
  let ok := match p_type p with
            | TT_PIECE_ROOK => straight
            | TT_PIECE_BISHOP => diag
            | TT_PIECE_QUEEN => straight || diag
            | _ => false
            end in
  ok && path_clear 8 (fr + sign dr) (ff + sign df) (sign dr) (sign df).

Definition pseudo_legal : bool :=
  match p_type p with
  | TT_PIECE_PAWN => pawn_legal
  | TT_PIECE_KNIGHT => knight_legal
  | TT_PIECE_KING => king_legal
  | TT_PIECE_ROOK | TT_PIECE_BISHOP | TT_PIECE_QUEEN => slide_legal
  | TT_PIECE_NONE => false
  end.
End validate.

(** ** Making a move *)

(** The board after the move: castling rook, en-passant capture, the piece
    itself with its auto-promotion. *)
Definition moved_board (b : list TTPiece) (p t : TTPiece) (fr ff tr tf : Z) : list TTPiece :=
  let df := tf - ff in
  let b :=
    if type_is TT_PIECE_KING p && (df =? 2) then
      set_sq (set_sq b fr 5 (at_sq b fr 7)) fr 7 no_piece
    else if type_is TT_PIECE_KING p && (df =? -2) then
      set_sq (set_sq b fr 3 (at_sq b fr 0)) fr 0 no_piece
    else b in
  let b :=
    if type_is TT_PIECE_PAWN p && negb (df =? 0) && type_is TT_PIECE_NONE t
    then set_sq b fr tf no_piece else b in
  let placed :=
    if type_is TT_PIECE_PAWN p && ((tr =? 0) || (tr =? 7))
    then mkPiece TT_PIECE_QUEEN (p_color p) else p in
  set_sq (set_sq b tr tf placed) fr ff no_piece.

(** A rook on, or captured on, a corner costs that corner's right. *)
Definition corner_rights (g : TTChess) (r f : Z) : TTChess :=
  let g := if (r =? 0) && (f =? 0) then g <| white_qs := false |> else g in
  let g := if (r =? 0) && (f =? 7) then g <| white_ks := false |> else g in
  let g := if (r =? 7) && (f =? 0) then g <| black_qs := false |> else g in
  if (r =? 7) && (f =? 7) then g <| black_ks := false |> else g.

Definition moved_rights (g : TTChess) (p t : TTPiece) (fr ff tr tf : Z) : TTChess :=
  let g :=
    if type_is TT_PIECE_KING p then
      if is_white (p_color p) then g <| white_ks := false |> <| white_qs := false |>
      else g <| black_ks := false |> <| black_qs := false |>
    else g in
  let g := if type_is TT_PIECE_ROOK p then corner_rights g fr ff else g in
  if type_is TT_PIECE_ROOK t then corner_rights g tr tf else g.

Definition update_status (g : TTChess) (mover : TTColor) : TTChess :=
  let other := opponent mover in
  if tt_chess_in_check (board g) other then
    if negb (tt_chess_has_legal_move g other)
    then g <| status := TT_CHESS_CHECKMATE |> <| winner := mover |> else g
  else if negb (tt_chess_has_legal_move g other)
  then g <| status := TT_CHESS_STALEMATE |> else g.

Definition apply_move (g : TTChess) (p t : TTPiece) (fr ff tr tf : Z) : TTChess :=
  let push := type_is TT_PIECE_PAWN p &&
              (tr - fr =? 2 * (if is_white (p_color p) then 1 else -1)) in
  let g := g <| board := moved_board (board g) p t fr ff tr tf |>
             <| ep_file := if push then ff else -1 |> in
  let g := moved_rights g p t fr ff tr tf in
  let g := g <| to_move := opponent (to_move g) |> in
  update_status g (p_color p).

Definition tt_chess_move (g : TTChess) (fr ff tr tf : Z) : option TTChess :=
  if negb (in_bounds fr ff) || negb (in_bounds tr tf) then None else
  let p := at_sq (board g) fr ff in
  if type_is TT_PIECE_NONE p || negb (color_is (to_move g) p) then None else
  let t := at_sq (board g) tr tf in
  if negb (type_is TT_PIECE_NONE t) && color_is (p_color p) t then None else
  if negb (pseudo_legal g p t fr ff tr tf) then None else
  Some (apply_move g p t fr ff tr tf).

(** A game given as a list of moves, from the start. *)
Fixpoint play (g : TTChess) (ms : list (Z * Z * Z * Z)) : option TTChess :=
  match ms with
  | [] => Some g
  | (fr, ff, tr, tf) :: ms =>
      match tt_chess_move g fr ff tr tf with Some g => play g ms | None => None end
  end.

(** Fool's mate: 1. f3 e5 2. g4 Qh4. *)
Example fools_mate :
  (status <$> play tt_chess_init [(1,5,2,5); (6,4,4,4); (1,6,3,6); (7,3,3,7)])
    = Some TT_CHESS_CHECKMATE.
Proof. vm_compute. reflexivity. Qed.
