(* ===== verification/ChessRules.v ===== *)
(** * ChessRules: what the chess engine computes, declaratively

    How pieces reach squares as a relation on coordinates, and the proofs that
    the three places of [chess.c] that spell the movement rules out (attack
    detection, move validation, the legal-move generator) implement it. *)
From S2P Require Import Prelude Chess.

(** ** Geometry *)

Definition straight (dr df : Z) : Prop := (dr = 0 /\ df <> 0) \/ (dr <> 0 /\ df = 0).
Definition diagonal (dr df : Z) : Prop := dr <> 0 /\ (dr = df \/ dr = - df).
Definition dist (dr df : Z) : Z := Z.max (Z.abs dr) (Z.abs df).

(** The squares strictly between two squares of a line are empty. *)
Definition line_open (b : list TTPiece) (fr ff tr tf : Z) : Prop :=
  forall k, 0 < k < dist (tr - fr) (tf - ff) ->
    empty_sq b (fr + k * sign (tr - fr)) (ff + k * sign (tf - ff)) = true.

(** A piece on [(fr, ff)] bears on [(tr, tf)]. *)
Definition reaches (b : list TTPiece) (p : TTPiece) (fr ff tr tf : Z) : Prop :=
  let dr := tr - fr in let df := tf - ff in
  match p_type p with
  | TT_PIECE_NONE => False
  | TT_PIECE_PAWN => dr = (if is_white (p_color p) then 1 else -1) /\ Z.abs df = 1
  | TT_PIECE_KNIGHT => Z.abs dr * Z.abs df = 2
  | TT_PIECE_KING => dist dr df = 1
  | TT_PIECE_ROOK => straight dr df /\ line_open b fr ff tr tf
  | TT_PIECE_BISHOP => diagonal dr df /\ line_open b fr ff tr tf
  | TT_PIECE_QUEEN => (straight dr df \/ diagonal dr df) /\ line_open b fr ff tr tf
  end.

Lemma sign_cases x : (0 < x /\ sign x = 1) \/ (x = 0 /\ sign x = 0) \/ (x < 0 /\ sign x = -1).
Proof. unfold sign. destruct (Z.ltb_spec 0 x), (Z.ltb_spec x 0); lia. Qed.

Ltac signs :=
  repeat match goal with
  | |- context [sign ?x] => destruct (sign_cases x) as [[? ->]|[[? ->]|[? ->]]]
  end.

Lemma in_bounds_iff r f : in_bounds r f = true <-> 0 <= r < 8 /\ 0 <= f < 8.
Proof. unfold in_bounds. split; intros H; [bool_to_prop; lia|]. apply andb_true_iff. lia. Qed.

Lemma empty_not_type b r f ty : empty_sq b r f = true -> ty <> TT_PIECE_NONE ->
  type_is ty (at_sq b r f) = false.
Proof.
  unfold empty_sq, type_is. intros H%bool_decide_eq_true Hne.
  apply bool_decide_eq_false. congruence.
Qed.

(** The four directions of a line kind, and the kind they span. *)
Definition dirs_of (kind : Z -> Z -> Prop) (dirs : list (Z * Z)) : Prop :=
  (forall dr df, kind dr df ->
     (sign dr, sign df) ∈ dirs /\ dr = dist dr df * sign dr /\ df = dist dr df * sign df /\
     0 < dist dr df) /\
  (forall d n, d ∈ dirs -> 0 < n ->
     kind (n * d.1) (n * d.2) /\ dist (n * d.1) (n * d.2) = n /\
     sign (n * d.1) = d.1 /\ sign (n * d.2) = d.2).

Lemma sign_scale n d : 0 < n -> -1 <= d <= 1 -> sign (n * d) = d.
Proof. intros. assert (d = 1 \/ d = 0 \/ d = -1) as [->|[->| ->]] by lia; signs; lia. Qed.

Ltac in_list := repeat first [apply list_elem_of_here | apply list_elem_of_further].

Lemma rook_dirs_of : dirs_of straight rook_dirs.
Proof.
  split.
  - intros dr df H. unfold straight, dist in *.
    signs; (split; [try (exfalso; lia); in_list|lia]).
  - intros d n Hd Hn. unfold rook_dirs in Hd.
    repeat (apply elem_of_cons in Hd as [->|Hd]); [..|by apply not_elem_of_nil in Hd];
      cbn [fst snd]; rewrite !sign_scale by lia; unfold straight, dist; lia.
Qed.

Lemma bishop_dirs_of : dirs_of diagonal bishop_dirs.
Proof.
  split.
  - intros dr df H. unfold diagonal, dist in *.
    signs; (split; [try (exfalso; lia); in_list|lia]).
  - intros d n Hd Hn. unfold bishop_dirs in Hd.
    repeat (apply elem_of_cons in Hd as [->|Hd]); [..|by apply not_elem_of_nil in Hd];
      cbn [fst snd]; rewrite !sign_scale by lia; unfold diagonal, dist; lia.
Qed.

(** The line seen from its other end. *)
Lemma line_open_sym b fr ff tr tf kind dirs :
  dirs_of kind dirs -> kind (tr - fr) (tf - ff) ->
  line_open b fr ff tr tf -> line_open b tr tf fr ff.
Proof.
  intros [Hd _] Hk Ho k Hkk. destruct (Hd _ _ Hk) as (_ & E1 & E2 & Hpos).
  assert (Hs : forall x, sign (- x) = - sign x) by (intros x; signs; lia).
  assert (Edist : dist (fr - tr) (ff - tf) = dist (tr - fr) (tf - ff)) by (unfold dist; lia).
  rewrite Edist in Hkk. set (n := dist (tr - fr) (tf - ff)) in *.
  replace (fr - tr) with (- (tr - fr)) by lia. replace (ff - tf) with (- (tf - ff)) by lia.
  rewrite !Hs. specialize (Ho (n - k) ltac:(lia)). rewrite <- Ho. f_equal; lia.
Qed.

(** ** The path test of a sliding move *)

Lemma path_clear_spec g tr tf fuel : forall r f sr sf n,
  0 <= n <= Z.of_nat fuel -> tr = r + n * sr -> tf = f + n * sf ->
  (sr <> 0 \/ sf <> 0) ->
  path_clear g tr tf fuel r f sr sf = true <->
  (forall k, 0 <= k < n -> empty_sq (board g) (r + k * sr) (f + k * sf) = true).
Proof.
  induction fuel as [|fuel IH]; intros r f sr sf n Hn Hr Hf Hs; cbn [path_clear].
  - assert (n = 0) as -> by lia. rewrite (proj2 (Z.eqb_eq r tr)), (proj2 (Z.eqb_eq f tf)) by lia.
    split; [lia|done].
  - destruct (decide (n = 0)) as [->|Hpos].
    { rewrite (proj2 (Z.eqb_eq r tr)), (proj2 (Z.eqb_eq f tf)) by lia. split; [lia|done]. }
    destruct ((r =? tr) && (f =? tf)) eqn:E; [bool_to_prop; nia|].
    rewrite andb_true_iff, (IH (r + sr) (f + sf) sr sf (n - 1)) by (done || lia). split.
    + intros [H0 Hk] k Hkk. destruct (decide (k = 0)) as [->|].
      * by rewrite !Z.mul_0_l, !Z.add_0_r.
      * specialize (Hk (k - 1) ltac:(lia)). rewrite <- Hk. f_equal; lia.
    + intros Hk. split.
      * specialize (Hk 0 ltac:(lia)). by rewrite !Z.mul_0_l, !Z.add_0_r in Hk.
      * intros k Hkk. specialize (Hk (k + 1) ltac:(lia)). rewrite <- Hk. f_equal; lia.
Qed.

Lemma path_clear_line g fr ff tr tf kind dirs :
  dirs_of kind dirs -> kind (tr - fr) (tf - ff) ->
  in_bounds fr ff = true -> in_bounds tr tf = true ->
  path_clear g tr tf 8 (fr + sign (tr - fr)) (ff + sign (tf - ff))
    (sign (tr - fr)) (sign (tf - ff)) = true <-> line_open (board g) fr ff tr tf.
Proof.
  intros [Hd _] Hk Hb1 Hb2. rewrite in_bounds_iff in Hb1, Hb2.
  destruct (Hd _ _ Hk) as (_ & E1 & E2 & Hpos). unfold line_open.
  assert (Hd8 : dist (tr - fr) (tf - ff) <= 8) by (unfold dist; lia).
  set (n := dist (tr - fr) (tf - ff)) in *.
  assert (Hs : sign (tr - fr) <> 0 \/ sign (tf - ff) <> 0)
    by (subst n; unfold dist in Hpos; signs; lia).
  rewrite (path_clear_spec g tr tf 8 _ _ _ _ (n - 1)) by (done || lia). split.
  - intros H k Hkk. specialize (H (k - 1) ltac:(lia)). rewrite <- H. f_equal; lia.
  - intros H k Hkk. specialize (H (k + 1) ltac:(lia)). rewrite <- H. f_equal; lia.
Qed.

Lemma straight_bool dr df : xorb (dr =? 0) (df =? 0) = true <-> straight dr df.
Proof. unfold straight. destruct (Z.eqb_spec dr 0), (Z.eqb_spec df 0); cbn; split; (done || lia). Qed.

Lemma diagonal_bool dr df :
  negb (dr =? 0) && negb (df =? 0) && ((dr =? df) || (dr =? - df)) = true <-> diagonal dr df.
Proof.
  unfold diagonal. destruct (Z.eqb_spec dr 0), (Z.eqb_spec df 0), (Z.eqb_spec dr df),
    (Z.eqb_spec dr (- df)); cbn; split; (done || lia).
Qed.

Lemma slide_legal_spec g p fr ff tr tf :
  in_bounds fr ff = true -> in_bounds tr tf = true ->
  p_type p = TT_PIECE_ROOK \/ p_type p = TT_PIECE_BISHOP \/ p_type p = TT_PIECE_QUEEN ->
  slide_legal g p fr ff tr tf = true <-> reaches (board g) p fr ff tr tf.
Proof.
  intros Hb1 Hb2 Hp. unfold slide_legal, reaches. rewrite andb_true_iff.
  pose proof (fun K => path_clear_line g fr ff tr tf straight rook_dirs rook_dirs_of K Hb1 Hb2) as Hs.
  pose proof (fun K => path_clear_line g fr ff tr tf diagonal bishop_dirs bishop_dirs_of K Hb1 Hb2) as Hd.
  destruct Hp as [-> |[-> | ->]]; rewrite ?orb_true_iff, ?straight_bool, ?diagonal_bool; tauto.
Qed.

(** ** Rays *)

(** The first [n - 1] squares of a ray are empty and on the board. *)
Definition ray_open (b : list TTPiece) (r f dr df n : Z) : Prop :=
  forall k, 0 <= k < n ->
    in_bounds (r + k * dr) (f + k * df) = true /\ empty_sq b (r + k * dr) (f + k * df) = true.

Lemma ray_open_cons b r f dr df n :
  0 <= n ->
  ray_open b r f dr df (n + 1) <->
  in_bounds r f = true /\ empty_sq b r f = true /\ ray_open b (r + dr) (f + df) dr df n.
Proof.
  intros Hn. unfold ray_open. split.
  - intros H. pose proof (H 0 ltac:(lia)) as [H1 H2]. rewrite !Z.mul_0_l, !Z.add_0_r in H1, H2.
    split_conj; [done|done|]. intros k Hk. specialize (H (k + 1) ltac:(lia)).
    replace (r + (k + 1) * dr) with (r + dr + k * dr) in H by lia.
    by replace (f + (k + 1) * df) with (f + df + k * df) in H by lia.
  - intros (H1 & H2 & H) k Hk. destruct (decide (k = 0)) as [->|].
    + by rewrite !Z.mul_0_l, !Z.add_0_r.
    + specialize (H (k - 1) ltac:(lia)).
      replace (r + dr + (k - 1) * dr) with (r + k * dr) in H by lia.
      by replace (f + df + (k - 1) * df) with (f + k * df) in H by lia.
Qed.

Lemma ray_open_0 b r f dr df : ray_open b r f dr df 0.
Proof. intros k Hk. lia. Qed.

Lemma ray_hits_spec b by_ ty dr df fuel : forall r f,
  ray_hits fuel b r f dr df by_ ty = true <->
  exists n, 0 <= n < Z.of_nat fuel /\ ray_open b r f dr df n /\
    in_bounds (r + n * dr) (f + n * df) = true /\
    let p := at_sq b (r + n * dr) (f + n * df) in
    type_is TT_PIECE_NONE p = false /\ color_is by_ p = true /\
    type_is ty p || type_is TT_PIECE_QUEEN p = true.
Proof.
  induction fuel as [|fuel IH]; intros r f; cbn [ray_hits]; [split; [done|intros (n & ? & _); lia]|].
  destruct (in_bounds r f) eqn:Hb; cbn [negb].
  2: { split; [done|]. intros (n & Hn & Ho & Hb' & _).
       destruct (decide (n = 0)) as [->|]; [rewrite !Z.mul_0_l, !Z.add_0_r in Hb'; congruence|].
       destruct (Ho 0 ltac:(lia)) as [Hb'' _].
       rewrite !Z.mul_0_l, !Z.add_0_r in Hb''; congruence. }
  destruct (type_is TT_PIECE_NONE (at_sq b r f)) eqn:He; cbn [negb].
  - rewrite IH. split.
    + intros (n & Hn & Ho & Hrest). exists (n + 1). split; [lia|].
      split; [apply ray_open_cons; [lia|by split_conj]|].
      replace (r + (n + 1) * dr) with (r + dr + n * dr) by lia.
      by replace (f + (n + 1) * df) with (f + df + n * df) by lia.
    + intros (n & Hn & Ho & Hb' & Hp). destruct (decide (n = 0)) as [->|].
      { rewrite !Z.mul_0_l, !Z.add_0_r in Hp. destruct Hp. congruence. }
      exists (n - 1). replace n with (n - 1 + 1) in Ho by lia.
      apply ray_open_cons in Ho as (_ & _ & Ho); [|lia]. split; [lia|]. split; [done|].
      replace (r + dr + (n - 1) * dr) with (r + n * dr) by lia.
      by replace (f + df + (n - 1) * df) with (f + n * df) by lia.
  - rewrite andb_true_iff. split.
    + intros Hp. exists 0. rewrite !Z.mul_0_l, !Z.add_0_r.
      split; [lia|]. split; [apply ray_open_0|]. cbv zeta. destruct Hp. by split_conj.
    + intros (n & Hn & Ho & Hb' & Hp). destruct (decide (n = 0)) as [->|].
      { rewrite !Z.mul_0_l, !Z.add_0_r in Hp. tauto. }
      destruct (Ho 0 ltac:(lia)) as [_ He'].
      rewrite !Z.mul_0_l, !Z.add_0_r in He'. unfold empty_sq in He'. congruence.
Qed.

(** Every square a ray passes over, as a line from its origin. *)
Lemma ray_line b r f kind dirs d n :
  dirs_of kind dirs -> d ∈ dirs -> 0 <= n ->
  let tr := r + d.1 + n * d.1 in let tf := f + d.2 + n * d.2 in
  kind (tr - r) (tf - f) /\ dist (tr - r) (tf - f) = n + 1 /\
  sign (tr - r) = d.1 /\ sign (tf - f) = d.2 /\
  (ray_open b (r + d.1) (f + d.2) d.1 d.2 n -> line_open b r f tr tf).
Proof.
  intros [_ Hd] Hin Hn tr tf. destruct (Hd d (n + 1) Hin ltac:(lia)) as (Hk & Hdist & E1 & E2).
  replace ((n + 1) * d.1) with (tr - r) in * by (subst tr; lia).
  replace ((n + 1) * d.2) with (tf - f) in * by (subst tf; lia).
  split_conj; try done. intros Ho k Hkk. rewrite Hdist in Hkk. rewrite E1, E2.
  destruct (Ho (k - 1) ltac:(lia)) as [_ He]. rewrite <- He. f_equal; lia.
Qed.

(** And back: the line to a square on the board is a ray. *)
Lemma line_ray b r f tr tf kind dirs :
  dirs_of kind dirs -> kind (tr - r) (tf - f) ->
  in_bounds r f = true -> in_bounds tr tf = true ->
  exists d n, d ∈ dirs /\ 0 <= n < 8 /\ tr = r + d.1 + n * d.1 /\ tf = f + d.2 + n * d.2 /\
    (line_open b r f tr tf -> ray_open b (r + d.1) (f + d.2) d.1 d.2 n).
Proof.
  intros [Hd _] Hk Hb1 Hb2. rewrite in_bounds_iff in Hb1, Hb2.
  destruct (Hd _ _ Hk) as (Hin & E1 & E2 & Hpos).
  assert (Hd8 : dist (tr - r) (tf - f) < 8) by (unfold dist; lia).
  set (n := dist (tr - r) (tf - f)) in *.
  exists (sign (tr - r), sign (tf - f)), (n - 1). cbn [fst snd].
  split_conj; [done|lia|lia|lia|lia|].
  intros Ho k Hkk. specialize (Ho (k + 1) ltac:(lia)).
  replace (r + sign (tr - r) + k * sign (tr - r)) with (r + (k + 1) * sign (tr - r)) by lia.
  replace (f + sign (tf - f) + k * sign (tf - f)) with (f + (k + 1) * sign (tf - f)) by lia.
  split; [|done]. apply in_bounds_iff. clear Ho. revert E1 E2. unfold dist in n.
  signs; intros; lia.
Qed.

Lemma rays_spec b r f by_ ty kind dirs :
  dirs_of kind dirs -> in_bounds r f = true ->
  existsb (fun d => ray_hits 8 b (r + d.1) (f + d.2) d.1 d.2 by_ ty) dirs = true <->
  exists fr ff, in_bounds fr ff = true /\ kind (fr - r) (ff - f) /\ line_open b r f fr ff /\
    let p := at_sq b fr ff in
    type_is TT_PIECE_NONE p = false /\ color_is by_ p = true /\
    type_is ty p || type_is TT_PIECE_QUEEN p = true.
Proof.
  intros Hdirs Hb. rewrite existsb_exists. split.
  - intros (d & Hd & H). apply list_elem_of_In in Hd.
    apply ray_hits_spec in H as (n & Hn & Ho & Hb' & Hp).
    destruct (ray_line b r f kind dirs d n Hdirs Hd ltac:(lia)) as (Hk & _ & _ & _ & Hl).
    do 2 eexists. split; [exact Hb'|]. split; [exact Hk|]. split; [by apply Hl|exact Hp].
  - intros (fr & ff & Hb' & Hk & Hl & Hp).
    destruct (line_ray b r f fr ff kind dirs Hdirs Hk Hb Hb') as (d & n & Hd & Hn & -> & -> & Ho).
    exists d. split; [by apply list_elem_of_In|]. apply ray_hits_spec.
    exists n. split; [lia|]. split; [by apply Ho|]. by split.
Qed.

(** ** Attack detection *)

Lemma steps_spec b r f ty by_ steps (Q : Z -> Z -> Prop) :
  ty <> TT_PIECE_NONE -> (forall x y, (x, y) ∈ steps <-> Q x y) ->
  existsb (fun d => in_bounds (r + d.1) (f + d.2) && holds b (r + d.1) (f + d.2) ty by_) steps = true
  <-> exists fr ff, in_bounds fr ff = true /\ Q (fr - r) (ff - f) /\
        holds b fr ff ty by_ = true.
Proof.
  intros Hty HQ. rewrite existsb_exists. split.
  - intros ([x y] & Hin & H). apply andb_true_iff in H as [Hb Hh]. cbn [fst snd] in *.
    exists (r + x), (f + y). split; [done|]. split; [|done].
    replace (r + x - r) with x by lia. replace (f + y - f) with y by lia.
    by apply HQ, list_elem_of_In.
  - intros (fr & ff & Hb & Hq & Hh). exists (fr - r, ff - f).
    split; [by apply list_elem_of_In, HQ|]. cbn [fst snd].
    replace (r + (fr - r)) with fr by lia. replace (f + (ff - f)) with ff by lia.
    by rewrite Hb, Hh.
Qed.

Lemma elem_of_pairs_cons (x y a b : Z) l :
  (x, y) ∈ (a, b) :: l <-> (x = a /\ y = b) \/ (x, y) ∈ l.
Proof. rewrite elem_of_cons. split; intros [H|H]; auto; [injection H as -> ->; auto|].
  destruct H as [-> ->]. auto. Qed.

Lemma abs_factor a b : 0 <= a -> 0 <= b -> a * b = 2 -> 0 < a <= 2.
Proof.
  intros Ha Hb H. destruct (decide (a = 0)) as [->|]; [lia|].
  destruct (decide (b = 0)) as [->|]; [lia|].
  pose proof (Z.mul_le_mono_nonneg_l 1 b a Ha ltac:(lia)). lia.
Qed.

Lemma knight_steps_spec x y : (x, y) ∈ knight_steps <-> Z.abs x * Z.abs y = 2.
Proof.
  unfold knight_steps. rewrite !elem_of_pairs_cons. split.
  - intros H. repeat destruct H as [[-> ->]|H]; try done. by apply not_elem_of_nil in H.
  - intros H. assert (Hx : 0 < Z.abs x <= 2) by by apply abs_factor with (Z.abs y); [apply Z.abs_nonneg..|].
    assert (Z.abs x = 1 \/ Z.abs x = 2) as [E|E] by lia; rewrite E in H; lia.
Qed.

Lemma king_steps_spec x y : (x, y) ∈ king_steps <-> dist x y = 1.
Proof.
  unfold king_steps, dist. rewrite !elem_of_pairs_cons. split.
  - intros H. repeat destruct H as [[-> ->]|H]; try done. by apply not_elem_of_nil in H.
  - intros H. lia.
Qed.

(** Some piece of colour [c] bears on the square. *)
Definition attacked (b : list TTPiece) (r f : Z) (c : TTColor) : Prop :=
  exists fr ff, in_bounds fr ff = true /\ color_is c (at_sq b fr ff) = true /\
    reaches b (at_sq b fr ff) fr ff r f.

Lemma holds_iff b r f ty c :
  holds b r f ty c = true <-> p_type (at_sq b r f) = ty /\ p_color (at_sq b r f) = c.
Proof.
  unfold holds, type_is, color_is. rewrite andb_true_iff, !bool_decide_eq_true. done.
Qed.

Lemma slider_cond p ty c :
  type_is TT_PIECE_NONE p = false /\ color_is c p = true /\
    type_is ty p || type_is TT_PIECE_QUEEN p = true <->
  p_color p = c /\ p_type p <> TT_PIECE_NONE /\ (p_type p = ty \/ p_type p = TT_PIECE_QUEEN).
Proof.
  unfold type_is, color_is. rewrite orb_true_iff, bool_decide_eq_false, !bool_decide_eq_true.
  tauto.
Qed.

Lemma kind_flip x y a b : straight (x - y) (a - b) <-> straight (y - x) (b - a).
Proof. unfold straight. lia. Qed.
Lemma kind_flip_d x y a b : diagonal (x - y) (a - b) <-> diagonal (y - x) (b - a).
Proof. unfold diagonal. lia. Qed.

Lemma knight_flip x y a b : Z.abs (x - y) * Z.abs (a - b) = Z.abs (y - x) * Z.abs (b - a).
Proof. f_equal; lia. Qed.
Lemma dist_flip x y a b : dist (x - y) (a - b) = dist (y - x) (b - a).
Proof. unfold dist. lia. Qed.

Lemma square_attacked_spec b r f c :
  in_bounds r f = true -> tt_chess_square_attacked b r f c = true <-> attacked b r f c.
Proof.
  intros Hb. unfold tt_chess_square_attacked. rewrite !orb_true_iff.
  rewrite (steps_spec b r f TT_PIECE_KNIGHT c knight_steps _ ltac:(done) knight_steps_spec).
  rewrite (steps_spec b r f TT_PIECE_KING c king_steps _ ltac:(done) king_steps_spec).
  rewrite (rays_spec b r f c TT_PIECE_ROOK _ _ rook_dirs_of Hb).
  rewrite (rays_spec b r f c TT_PIECE_BISHOP _ _ bishop_dirs_of Hb).
  rewrite !andb_true_iff. unfold attacked, reaches. split.
  - intros [[[[[[Hi Hh]|[Hi Hh]]|H]|H]|H]|H].
    1-2: apply holds_iff in Hh as [Ht Hc]; do 2 eexists; split; [exact Hi|];
      rewrite Ht, Hc; (split; [by apply bool_decide_eq_true|]); cbv beta iota; destruct (is_white c); lia.
    1-2: destruct H as (fr & ff & Hi & Hq & Hh); apply holds_iff in Hh as [Ht Hc];
      exists fr, ff; (split; [done|]); rewrite Ht;
      (split; [by apply bool_decide_eq_true|]); cbv beta iota;
      first [by rewrite knight_flip|by rewrite dist_flip].
    all: destruct H as (fr & ff & Hi & Hk & Hl & Hp); cbv zeta in Hp; apply slider_cond in Hp as (Hc & Hn & Ht);
      exists fr, ff; (split; [done|]); (split; [by apply bool_decide_eq_true|]).
    + pose proof (line_open_sym _ _ _ _ _ _ _ rook_dirs_of Hk Hl). apply kind_flip in Hk.
      destruct Ht as [-> | ->]; split; auto.
    + pose proof (line_open_sym _ _ _ _ _ _ _ bishop_dirs_of Hk Hl). apply kind_flip_d in Hk.
      destruct Ht as [-> | ->]; split; auto.
  - intros (fr & ff & Hi & Hc & Hr). apply bool_decide_eq_true in Hc.
    destruct (p_type (at_sq b fr ff)) eqn:Et; [done| | | | | |].
    + do 4 left. rewrite Hc in Hr.
      assert (fr = if is_white c then r - 1 else r + 1) as <- by (destruct (is_white c); lia).
      assert (ff = f - 1 \/ ff = f + 1) as [<-|<-] by lia; [left|right];
        (split; [done|by apply holds_iff]).
    + left; right. exists fr, ff. destruct Hr as [Hk Hl].
      pose proof (line_open_sym _ _ _ _ _ _ _ rook_dirs_of Hk Hl). apply kind_flip in Hk.
      do 3 (split; [done|]). cbv zeta. apply slider_cond. rewrite Et. by auto.
    + do 3 left; right. exists fr, ff. split; [done|].
      split; [by rewrite knight_flip|by apply holds_iff].
    + right. exists fr, ff. destruct Hr as [Hk Hl].
      pose proof (line_open_sym _ _ _ _ _ _ _ bishop_dirs_of Hk Hl). apply kind_flip_d in Hk.
      do 3 (split; [done|]). cbv zeta. apply slider_cond. rewrite Et. by auto.
    + destruct Hr as [[Hk|Hk] Hl].
      * left; right. exists fr, ff.
        pose proof (line_open_sym _ _ _ _ _ _ _ rook_dirs_of Hk Hl). apply kind_flip in Hk.
        do 3 (split; [done|]). cbv zeta. apply slider_cond. rewrite Et. by auto.
      * right. exists fr, ff.
        pose proof (line_open_sym _ _ _ _ _ _ _ bishop_dirs_of Hk Hl). apply kind_flip_d in Hk.
        do 3 (split; [done|]). cbv zeta. apply slider_cond. rewrite Et. by auto.
    + do 2 left; right. exists fr, ff. split; [done|].
      split; [by rewrite dist_flip|by apply holds_iff].
Qed.

(** ** Validation and generation agree *)

Lemma ray_any_spec b color fr ff dr df fuel : forall r f,
  ray_any b color fr ff fuel r f dr df = true <->
  exists n, 0 <= n < Z.of_nat fuel /\ ray_open b r f dr df n /\
    in_bounds (r + n * dr) (f + n * df) = true /\
    own_sq b color (r + n * dr) (f + n * df) = false /\
    safe b fr ff (r + n * dr) (f + n * df) = true.
Proof.
  induction fuel as [|fuel IH]; intros r f; cbn [ray_any]; [split; [done|intros (n & ? & _); lia]|].
  destruct (in_bounds r f) eqn:Hb; cbn [negb].
  2: { split; [done|]. intros (n & Hn & Ho & Hb' & _).
       destruct (decide (n = 0)) as [->|]; [rewrite !Z.mul_0_l, !Z.add_0_r in Hb'; congruence|].
       destruct (Ho 0 ltac:(lia)) as [Hb'' _]. rewrite !Z.mul_0_l, !Z.add_0_r in Hb''; congruence. }
  assert (Hempty : own_sq b color r f = true -> empty_sq b r f = false)
    by (unfold own_sq; intros H; by bool_to_prop).
  destruct (own_sq b color r f) eqn:Ho1.
  { split; [done|]. intros (n & Hn & Ho & _ & Hown & _).
    destruct (decide (n = 0)) as [->|]; [rewrite !Z.mul_0_l, !Z.add_0_r in Hown; congruence|].
    destruct (Ho 0 ltac:(lia)) as [_ He]. rewrite !Z.mul_0_l, !Z.add_0_r, Hempty in He; done. }
  destruct (safe b fr ff r f) eqn:Hs.
  { split; [|done]. intros _. exists 0. rewrite !Z.mul_0_l, !Z.add_0_r.
    split; [lia|]. split; [apply ray_open_0|]. by split_conj. }
  destruct (empty_sq b r f) eqn:He; cbn [negb].
  - rewrite IH. split.
    + intros (n & Hn & Ho & Hrest). exists (n + 1). split; [lia|].
      split; [apply ray_open_cons; [lia|by split_conj]|].
      replace (r + (n + 1) * dr) with (r + dr + n * dr) by lia.
      by replace (f + (n + 1) * df) with (f + df + n * df) by lia.
    + intros (n & Hn & Ho & Hb' & Hown & Hs'). destruct (decide (n = 0)) as [->|].
      { rewrite !Z.mul_0_l, !Z.add_0_r in Hs'. congruence. }
      exists (n - 1). replace n with (n - 1 + 1) in Ho by lia.
      apply ray_open_cons in Ho as (_ & _ & Ho); [|lia]. split; [lia|]. split; [done|].
      replace (r + dr + (n - 1) * dr) with (r + n * dr) by lia.
      by replace (f + df + (n - 1) * df) with (f + n * df) by lia.
  - split; [done|]. intros (n & Hn & Ho & _ & _ & Hs').
    destruct (decide (n = 0)) as [->|]; [rewrite !Z.mul_0_l, !Z.add_0_r in Hs'; congruence|].
    destruct (Ho 0 ltac:(lia)) as [_ He']. rewrite !Z.mul_0_l, !Z.add_0_r in He'. congruence.
Qed.

(** A target square [color] may move to, from [(fr, ff)], safely. *)
Definition target_ok (b : list TTPiece) (color : TTColor) (fr ff tr tf : Z) : Prop :=
  in_bounds tr tf = true /\ own_sq b color tr tf = false /\ safe b fr ff tr tf = true.

Lemma slide_any_spec b color fr ff kind dirs :
  dirs_of kind dirs -> in_bounds fr ff = true ->
  slide_any b color fr ff dirs = true <->
  exists tr tf, kind (tr - fr) (tf - ff) /\ line_open b fr ff tr tf /\ target_ok b color fr ff tr tf.
Proof.
  intros Hdirs Hb. unfold slide_any. rewrite existsb_exists. split.
  - intros (d & Hd & H). apply list_elem_of_In in Hd.
    apply ray_any_spec in H as (n & Hn & Ho & Hb' & Hown & Hs).
    destruct (ray_line b fr ff kind dirs d n Hdirs Hd ltac:(lia)) as (Hk & _ & _ & _ & Hl).
    do 2 eexists. split; [exact Hk|]. split; [by apply Hl|]. done.
  - intros (tr & tf & Hk & Hl & Hb' & Hown & Hs).
    destruct (line_ray b fr ff tr tf kind dirs Hdirs Hk Hb Hb') as (d & n & Hd & Hn & -> & -> & Ho).
    exists d. split; [by apply list_elem_of_In|]. apply ray_any_spec.
    exists n. split; [lia|]. split; [by apply Ho|]. done.
Qed.

Lemma step_any_spec b color fr ff steps (Q : Z -> Z -> Prop) :
  (forall x y, (x, y) ∈ steps <-> Q x y) ->
  step_any b color fr ff steps = true <->
  exists tr tf, Q (tr - fr) (tf - ff) /\ target_ok b color fr ff tr tf.
Proof.
  intros HQ. unfold step_any, target_ok. rewrite existsb_exists. split.
  - intros ([x y] & Hin & H). cbn [fst snd] in H.
    apply andb_true_iff in H as [H Hs]. apply andb_true_iff in H as [Hb Ho].
    apply negb_true_iff in Ho. exists (fr + x), (ff + y).
    replace (fr + x - fr) with x by lia. replace (ff + y - ff) with y by lia.
    by split; [apply HQ, list_elem_of_In|].
  - intros (tr & tf & Hq & Hb & Ho & Hs). exists (tr - fr, tf - ff).
    split; [by apply list_elem_of_In, HQ|]. cbn [fst snd].
    replace (fr + (tr - fr)) with tr by lia. replace (ff + (tf - ff)) with tf by lia.
    by rewrite Hb, Ho, Hs.
Qed.

Lemma knight_legal_spec fr ff tr tf :
  knight_legal fr ff tr tf = true <-> Z.abs (tr - fr) * Z.abs (tf - ff) = 2.
Proof.
  rewrite <- knight_steps_spec. unfold knight_steps. rewrite !elem_of_pairs_cons, elem_of_nil.
  unfold knight_legal. rewrite !orb_true_iff, !andb_true_iff, !Z.eqb_eq.
  generalize (tr - fr) (tf - ff). intros x y. split.
  - intros H. repeat (destruct H as [H|H]); destruct H as [-> ->]; tauto.
  - intros H. repeat (destruct H as [[-> ->]|H]; [tauto|]). done.
Qed.

Lemma king_step_spec fr ff tr tf :
  king_step fr ff tr tf = true <-> dist (tr - fr) (tf - ff) = 1.
Proof.
  unfold king_step, dist. rewrite !andb_true_iff, !Z.leb_le, orb_true_iff, !negb_true_iff, !Z.eqb_neq.
  lia.
Qed.

(** A castling attempt: the king moves two files. *)
Definition castling (p : TTPiece) (fr ff tr tf : Z) : bool :=
  type_is TT_PIECE_KING p && negb (king_step fr ff tr tf).

(** The pawn generator and the pawn validator describe the same moves. *)
Lemma pawn_any_spec g p fr ff :
  in_bounds fr ff = true -> p_type p = TT_PIECE_PAWN ->
  pawn_any (board g) (ep_file g) (p_color p) fr ff = true <->
  exists tr tf, target_ok (board g) (p_color p) fr ff tr tf /\
    pawn_legal g p (at_sq (board g) tr tf) fr ff tr tf = true.
Proof.
  intros Hb Hp. rewrite in_bounds_iff in Hb. set (c := p_color p).
  unfold pawn_any, target_ok. set (dir := if is_white c then 1 else -1).
  set (start := if is_white c then 1 else 6).
  assert (Hdir : (dir = 1 /\ start = 1) \/ (dir = -1 /\ start = 6))
    by (subst dir start; destruct (is_white c); auto).
  assert (Hnone : forall r f, type_is TT_PIECE_NONE (at_sq (board g) r f) = empty_sq (board g) r f)
    by done.
  assert (Hown : forall r f, empty_sq (board g) r f = true -> own_sq (board g) c r f = false)
    by (intros r f H; unfold own_sq; by rewrite H).
  rewrite orb_true_iff, existsb_exists. split.
  - intros [H|(df & Hin & H)].
    + apply andb_true_iff in H as [H Hs]. apply andb_true_iff in H as [Hi He].
      apply orb_true_iff in Hs as [Hs|Hs].
      * exists (fr + dir), ff. split; [by split_conj; auto|].
        unfold pawn_legal. fold c dir start. rewrite Hnone, He, Z.sub_diag. cbn [andb Z.eqb].
        rewrite (proj2 (Z.eqb_eq (fr + dir - fr) dir)) by lia. done.
      * apply andb_true_iff in Hs as [Hs Hsafe]. apply andb_true_iff in Hs as [Hst He2].
        apply Z.eqb_eq in Hst. exists (fr + 2 * dir), ff.
        split; [split_conj; auto; apply in_bounds_iff; lia|].
        unfold pawn_legal. fold c dir start. rewrite Hnone, He2, Z.sub_diag. cbn [andb Z.eqb].
        rewrite (proj2 (Z.eqb_eq (fr + 2 * dir - fr) (2 * dir))), (proj2 (Z.eqb_eq fr start)), He
          by lia. by rewrite orb_true_r.
    + apply andb_true_iff in H as [Hi H].
      assert (Hdf : df = -1 \/ df = 1) by (cbn in Hin; intuition).
      exists (fr + dir), (ff + df).
      assert (Hgeo : ((ff + df - ff =? 0) = false) /\
        ((ff + df - ff =? 1) || (ff + df - ff =? -1) = true) /\ (fr + dir - fr =? dir) = true)
        by lia.
      destruct Hgeo as (G1 & G2 & G3).
      unfold pawn_legal. fold c dir. rewrite G1, G2, G3, Hnone. cbn [andb].
      destruct (empty_sq (board g) (fr + dir) (ff + df)) eqn:He; cbn [negb andb orb] in *.
      * apply andb_true_iff in H as [H Hs]. apply andb_true_iff in H as [Hep Htr].
        rewrite Htr, Hep. split; [by split_conj; auto|done].
      * destruct (color_is c _) eqn:Hc; cbn [negb] in H; [done|].
        split; [|done]. split_conj; auto. unfold own_sq. by rewrite He, Hc.
  - intros (tr & tf & (Hi & Ho & Hs) & Hl). unfold pawn_legal in Hl. fold c dir start in Hl.
    rewrite Hnone in Hl.
    destruct ((tf - ff =? 0) && empty_sq (board g) tr tf) eqn:E0.
    + apply andb_true_iff in E0 as [E0 He]. apply Z.eqb_eq in E0.
      assert (tf = ff) as -> by lia. left.
      apply orb_true_iff in Hl as [Hl|Hl].
      * apply Z.eqb_eq in Hl. assert (tr = fr + dir) as -> by lia. by rewrite Hi, He, Hs.
      * apply andb_true_iff in Hl as [Hl He1]. apply andb_true_iff in Hl as [Hl Hst].
        apply Z.eqb_eq in Hl, Hst. assert (tr = fr + 2 * dir) as -> by lia.
        rewrite (proj2 (in_bounds_iff (fr + dir) ff)), He1, (proj2 (Z.eqb_eq fr start)), He, Hs
          by lia. by rewrite orb_true_r.
    + destruct ((tf - ff =? 1) || (tf - ff =? -1)) eqn:E1; [|done].
      apply orb_true_iff in E1. rewrite !Z.eqb_eq in E1.
      apply andb_true_iff in Hl as [Hdr Hl]. apply Z.eqb_eq in Hdr.
      right. exists (tf - ff). split; [cbn; lia|].
      replace (ff + (tf - ff)) with tf by lia. replace (fr + dir) with tr by lia.
      rewrite Hi. cbn [andb]. unfold own_sq in Ho.
      destruct (empty_sq (board g) tr tf); cbn [negb andb orb] in *.
      * apply andb_true_iff in Hl as [Htr Hep]. by rewrite Htr, Hep, Hs.
      * by rewrite Ho, Hs.
Qed.
