(* ===== verification/ChessMoves.v ===== *)
(** * ChessMoves: which moves [tt_chess_move] accepts

    The movement rules as one relation [legal_shape], the proof that the
    validator accepts exactly those moves, and the agreement of the legal-move
    generator (which decides mate and stalemate) with the validator. *)
From S2P Require Import Prelude Chess ChessRules.

(** ** The rules *)

Definition pawn_dir (c : TTColor) : Z := if is_white c then 1 else -1.
Definition pawn_start (c : TTColor) : Z := if is_white c then 1 else 6.
Definition ep_rank (c : TTColor) : Z := if is_white c then 5 else 2.

(** A pawn of colour [c]: one or two steps ahead, or a capture (of the piece
    there, or en passant). *)
Definition pawn_goes (g : TTChess) (c : TTColor) (fr ff tr tf : Z) : Prop :=
  (tf = ff /\ empty_sq (board g) tr tf = true /\
     (tr = fr + pawn_dir c \/
      tr = fr + 2 * pawn_dir c /\ fr = pawn_start c /\
      empty_sq (board g) (fr + pawn_dir c) ff = true)) \/
  (Z.abs (tf - ff) = 1 /\ tr = fr + pawn_dir c /\
     (empty_sq (board g) tr tf = false \/ tr = ep_rank c /\ tf = ep_file g)).

(** A piece's ordinary move. *)
Definition goes (g : TTChess) (p : TTPiece) (fr ff tr tf : Z) : Prop :=
  match p_type p with
  | TT_PIECE_PAWN => pawn_goes g (p_color p) fr ff tr tf
  | _ => reaches (board g) p fr ff tr tf
  end.

Definition ks_right (g : TTChess) (c : TTColor) : bool := if is_white c then white_ks g else black_ks g.
Definition qs_right (g : TTChess) (c : TTColor) : bool := if is_white c then white_qs g else black_qs g.

(** A castling side: the king's two-file step, the squares that must be
    empty, the rook's corner, the squares that must not be attacked. *)
Record castle_side := mkSide {
  cs_right : TTChess -> TTColor -> bool;
  cs_step : Z; cs_empty : list Z; cs_rook : Z; cs_safe : list Z }.
Definition king_side : castle_side := mkSide ks_right 2 [5; 6] 7 [4; 5; 6].
Definition queen_side : castle_side := mkSide qs_right (-2) [1; 2; 3] 0 [4; 3; 2].

Definition castles (cs : castle_side) (g : TTChess) (p : TTPiece) (fr ff tr tf : Z) : Prop :=
  p_type p = TT_PIECE_KING /\ tr = fr /\ tf = ff + cs_step cs /\
  cs_right cs g (p_color p) = true /\
  Forall (fun f => empty_sq (board g) fr f = true) (cs_empty cs) /\
  at_sq (board g) fr (cs_rook cs) = mkPiece TT_PIECE_ROOK (p_color p) /\
  Forall (fun f => ~ attacked (board g) fr f (opponent (p_color p))) (cs_safe cs).

(** The moves of the side to move; nothing about its own king's safety. *)
Definition legal_shape (g : TTChess) (fr ff tr tf : Z) : Prop :=
  let p := at_sq (board g) fr ff in
  in_bounds fr ff = true /\ in_bounds tr tf = true /\
  p_type p <> TT_PIECE_NONE /\ p_color p = to_move g /\
  own_sq (board g) (to_move g) tr tf = false /\
  (goes g p fr ff tr tf \/ castles king_side g p fr ff tr tf \/ castles queen_side g p fr ff tr tf).

(** ** The validator *)

Lemma pawn_legal_spec g p fr ff tr tf :
  pawn_legal g p (at_sq (board g) tr tf) fr ff tr tf = true <->
  pawn_goes g (p_color p) fr ff tr tf.
Proof.
  unfold pawn_legal, pawn_goes. fold (pawn_dir (p_color p)) (pawn_start (p_color p)) (ep_rank (p_color p)).
  change (type_is TT_PIECE_NONE (at_sq (board g) tr tf)) with (empty_sq (board g) tr tf).
  assert (Hd : pawn_dir (p_color p) = 1 \/ pawn_dir (p_color p) = -1)
    by (unfold pawn_dir; destruct (is_white _); auto).
  destruct (Z.eqb_spec (tf - ff) 0) as [E|E].
  - assert (tf = ff) as -> by lia. rewrite Z.sub_diag. cbn [andb Z.eqb Z.abs orb].
    destruct (empty_sq (board g) tr ff); [|split; [done|intros [(_ & ? & _)|(? & _)]; done]].
    rewrite orb_true_iff, !andb_true_iff, !Z.eqb_eq. split; intros H.
    + left. split_conj; [done|done|]. destruct H as [H|[[H1 H2] H3]]; [left; lia|right; split_conj; (done||lia)].
    + destruct H as [(_ & _ & [H|(H1 & H2 & H3)])|(H & _)]; [left; lia|right; split_conj; (done||lia)|lia].
  - cbn [andb]. destruct ((tf - ff =? 1) || (tf - ff =? -1)) eqn:E1.
    + rewrite andb_true_iff, orb_true_iff, andb_true_iff, negb_true_iff, !Z.eqb_eq.
      apply orb_true_iff in E1. rewrite !Z.eqb_eq in E1. split.
      * intros [H1 H2]. right. split_conj; [lia|lia|done].
      * intros [(H & _)|(_ & H1 & H2)]; [lia|]. split; [lia|done].
    + apply orb_false_iff in E1. rewrite !Z.eqb_neq in E1. split; [done|].
      intros [(H & _)|(H & _)]; lia.
Qed.

Lemma attacked_safe g p fr f :
  in_bounds fr f = true ->
  negb (attacked_by_opponent g p fr f) = true <-> ~ attacked (board g) fr f (opponent (p_color p)).
Proof.
  intros H. unfold attacked_by_opponent. rewrite <- square_attacked_spec by done.
  by rewrite negb_true_iff, not_true_iff_false.
Qed.

Lemma rook_at b r f c :
  holds b r f TT_PIECE_ROOK c = true <-> at_sq b r f = mkPiece TT_PIECE_ROOK c.
Proof. rewrite holds_iff. destruct (at_sq b r f). cbn. split; [intros [-> ->]; done|intros [= -> ->]; done]. Qed.

Lemma castle_ks_spec g p fr ff :
  0 <= fr < 8 -> p_type p = TT_PIECE_KING ->
  castle_ks g p fr = true <-> castles king_side g p fr ff fr (ff + 2).
Proof.
  intros Hr Hp. unfold castle_ks, castles. cbn [king_side cs_right cs_step cs_empty cs_rook cs_safe].
  fold (ks_right g (p_color p)).
  rewrite !andb_true_iff, !attacked_safe by (apply in_bounds_iff; lia).
  rewrite rook_at, !Forall_cons, !Forall_nil. tauto.
Qed.

Lemma castle_qs_spec g p fr ff :
  0 <= fr < 8 -> p_type p = TT_PIECE_KING ->
  castle_qs g p fr = true <-> castles queen_side g p fr ff fr (ff + -2).
Proof.
  intros Hr Hp. unfold castle_qs, castles. cbn [queen_side cs_right cs_step cs_empty cs_rook cs_safe].
  fold (qs_right g (p_color p)).
  rewrite !andb_true_iff, !attacked_safe by (apply in_bounds_iff; lia).
  rewrite rook_at, !Forall_cons, !Forall_nil. tauto.
Qed.

Lemma castles_geometry cs g p fr ff tr tf :
  castles cs g p fr ff tr tf -> tr = fr /\ tf = ff + cs_step cs.
Proof. intros (_ & ? & ? & _). done. Qed.

Lemma king_legal_spec g p fr ff tr tf :
  0 <= fr < 8 -> p_type p = TT_PIECE_KING ->
  king_legal g p fr ff tr tf = true <->
  dist (tr - fr) (tf - ff) = 1 \/ castles king_side g p fr ff tr tf \/ castles queen_side g p fr ff tr tf.
Proof.
  intros Hr Hp. unfold king_legal.
  destruct (king_step fr ff tr tf) eqn:Hk.
  { apply king_step_spec in Hk. tauto. }
  assert (Hd : dist (tr - fr) (tf - ff) <> 1) by (rewrite <- king_step_spec; congruence).
  pose proof (castles_geometry king_side g p fr ff tr tf) as G1.
  pose proof (castles_geometry queen_side g p fr ff tr tf) as G2.
  cbn [king_side queen_side cs_step] in G1, G2.
  destruct (Z.eqb_spec (tr - fr) 0) as [E|E]; cbn [andb];
    [|split; [done|]; intros [H|[H|H]]; [done|apply G1 in H; lia|apply G2 in H; lia]].
  assert (tr = fr) as -> by lia.
  destruct (Z.eqb_spec (tf - ff) 2) as [E2|E2].
  { assert (tf = ff + 2) as -> by lia. rewrite (castle_ks_spec g p fr ff) by done.
    split; [tauto|]. intros [H|[H|H]]; [done|done|apply G2 in H; lia]. }
  destruct (Z.eqb_spec (tf - ff) (-2)) as [E3|E3].
  { assert (tf = ff + -2) as -> by lia. rewrite (castle_qs_spec g p fr ff) by done.
    split; [tauto|]. intros [H|[H|H]]; [done|apply G1 in H; lia|done]. }
  split; [done|]. intros [H|[H|H]]; [done|apply G1 in H; lia|apply G2 in H; lia].
Qed.

Lemma castles_king cs g p fr ff tr tf : castles cs g p fr ff tr tf -> p_type p = TT_PIECE_KING.
Proof. by intros [? _]. Qed.

Lemma pseudo_legal_spec g p fr ff tr tf :
  in_bounds fr ff = true -> in_bounds tr tf = true -> p_type p <> TT_PIECE_NONE ->
  pseudo_legal g p (at_sq (board g) tr tf) fr ff tr tf = true <->
  goes g p fr ff tr tf \/ castles king_side g p fr ff tr tf \/ castles queen_side g p fr ff tr tf.
Proof.
  intros Hb1 Hb2 Hp. apply in_bounds_iff in Hb1 as Hr.
  pose proof (castles_king king_side g p fr ff tr tf) as C1.
  pose proof (castles_king queen_side g p fr ff tr tf) as C2.
  unfold pseudo_legal, goes. destruct (p_type p) eqn:Ep; [done| | | | | |].
  6: { rewrite king_legal_spec by (done || lia). unfold reaches. by rewrite Ep. }
  1: rewrite pawn_legal_spec. 3: rewrite knight_legal_spec; unfold reaches; rewrite Ep.
  2,4,5: rewrite slide_legal_spec by tauto.
  all: split; [tauto|]; intros [H|[H|H]]; [done| |];
    [specialize (C1 H)|specialize (C2 H)]; congruence.
Qed.

Lemma move_shape g fr ff tr tf g' :
  tt_chess_move g fr ff tr tf = Some g' <->
  legal_shape g fr ff tr tf /\
  g' = apply_move g (at_sq (board g) fr ff) (at_sq (board g) tr tf) fr ff tr tf.
Proof.
  unfold tt_chess_move, legal_shape, own_sq, empty_sq.
  destruct (in_bounds fr ff) eqn:Hb1; cbn [negb orb]; [|by split; [|intros [[? _] _]]].
  destruct (in_bounds tr tf) eqn:Hb2; cbn [negb orb]; [|by split; [|intros [(_ & ? & _) _]]].
  set (p := at_sq (board g) fr ff). set (t := at_sq (board g) tr tf).
  destruct (type_is TT_PIECE_NONE p) eqn:Hn; cbn [orb].
  { apply bool_decide_eq_true in Hn. by split; [|intros [(_ & _ & ? & _) _]]. }
  apply bool_decide_eq_false in Hn.
  destruct (color_is (to_move g) p) eqn:Hc; cbn [negb].
  2: { apply bool_decide_eq_false in Hc. by split; [|intros [(_ & _ & _ & ? & _) _]]. }
  apply bool_decide_eq_true in Hc. rewrite Hc.
  destruct (negb (type_is TT_PIECE_NONE t) && color_is (to_move g) t).
  { by split; [|intros [(_ & _ & _ & _ & ? & _) _]]. }
  pose proof (pseudo_legal_spec g p fr ff tr tf Hb1 Hb2 Hn) as Hl. fold t in Hl.
  destruct (pseudo_legal g p t fr ff tr tf); cbn [negb]; split.
  - intros [= <-]. split; [split_conj; try done; by apply Hl|done].
  - intros [_ ->]. done.
  - done.
  - intros [(_ & _ & _ & _ & _ & H) _]. apply Hl in H. done.
Qed.

(** The validator accepts exactly the moves of the rules of movement: the
    source square holds a piece of the side to move, the target is on the board
    and not that side's own, and the piece goes there (slides over empty
    squares only, pawns push, double-push from their start rank, capture
    diagonally and en passant) or the king castles (right kept, squares
    between empty, own rook in the corner, the king's path not attacked).
    Neither [status] nor the mover's own king's safety plays any role. *)
Theorem move_accepted_iff g fr ff tr tf :
  is_Some (tt_chess_move g fr ff tr tf) <-> legal_shape g fr ff tr tf.
Proof.
  split; [intros [g' H]; by apply move_shape in H as [? _]|].
  intros H. eexists. by apply move_shape.
Qed.

(** ** The generator *)

Definition is_castling (p : TTPiece) (fr ff tr tf : Z) : bool :=
  type_is TT_PIECE_KING p && negb (king_step fr ff tr tf).

Lemma castle_not_step cs g p fr ff tr tf :
  cs = king_side \/ cs = queen_side ->
  castles cs g p fr ff tr tf -> is_castling p fr ff tr tf = true.
Proof.
  intros Hcs (Hk & -> & -> & _). unfold is_castling, type_is. rewrite Hk. cbn [bool_decide andb].
  rewrite bool_decide_true by done. apply negb_true_iff, not_true_iff_false.
  rewrite king_step_spec. destruct Hcs as [-> | ->]; cbn; unfold dist; lia.
Qed.

Lemma goes_not_castling g p fr ff tr tf :
  goes g p fr ff tr tf -> is_castling p fr ff tr tf = false.
Proof.
  unfold goes, is_castling, type_is, reaches. destruct (p_type p) eqn:E; try done.
  intros H. apply king_step_spec in H. by rewrite H.
Qed.

Ltac regroup :=
  split; [intros (tr & tf & H); split_conj; [done|done|exists tr, tf; tauto]
         |intros (_ & _ & tr & tf & H); exists tr, tf; tauto].

Lemma piece_any_spec g color fr ff :
  in_bounds fr ff = true ->
  piece_any (board g) (ep_file g) color fr ff = true <->
  p_type (at_sq (board g) fr ff) <> TT_PIECE_NONE /\ p_color (at_sq (board g) fr ff) = color /\
  exists tr tf, target_ok (board g) color fr ff tr tf /\ goes g (at_sq (board g) fr ff) fr ff tr tf.
Proof.
  intros Hb. unfold piece_any. set (p := at_sq (board g) fr ff).
  assert (Hc : color_is color p = true <-> p_color p = color) by apply bool_decide_eq_true.
  destruct (color_is color p) eqn:Ec; cbn [negb].
  2: { split; [by destruct (p_type p)|]. intros (_ & H & _). apply Hc in H. done. }
  assert (Hcol : p_color p = color) by (by apply Hc). clear Hc.
  unfold goes, reaches. destruct (p_type p) eqn:Et.
  - split; [done|intros [? _]; done].
  - rewrite <- Hcol, pawn_any_spec by done. setoid_rewrite pawn_legal_spec. regroup.
  - rewrite (slide_any_spec _ _ _ _ _ _ rook_dirs_of Hb). regroup.
  - rewrite (step_any_spec _ _ _ _ _ _ knight_steps_spec). regroup.
  - rewrite (slide_any_spec _ _ _ _ _ _ bishop_dirs_of Hb). regroup.
  - rewrite orb_true_iff, (slide_any_spec _ _ _ _ _ _ bishop_dirs_of Hb),
      (slide_any_spec _ _ _ _ _ _ rook_dirs_of Hb). split.
    + intros [(tr & tf & H)|(tr & tf & H)]; (split_conj; [done|done|]); exists tr, tf; tauto.
    + intros (_ & _ & tr & tf & Ht & [Hk|Hk] & Hl); [right|left]; by exists tr, tf.
  - rewrite (step_any_spec _ _ _ _ _ _ king_steps_spec). regroup.
Qed.

Lemma all_squares_in r f : (r, f) ∈ all_squares <-> in_bounds r f = true.
Proof.
  rewrite in_bounds_iff. unfold all_squares. split.
  - intros H. apply list_elem_of_bind in H as (r' & H & Hr).
    apply list_elem_of_bind in H as (f' & H & Hf). apply list_elem_of_singleton in H as [= -> ->].
    assert (E : forall x, x ∈ [0; 1; 2; 3; 4; 5; 6; 7] -> 0 <= x < 8).
    { intros x Hx. apply list_elem_of_In in Hx. cbn in Hx. lia. }
    split; by apply E.
  - intros [Hr Hf]. assert (E : forall x, 0 <= x < 8 -> x ∈ [0; 1; 2; 3; 4; 5; 6; 7]).
    { intros x Hx. apply list_elem_of_In. cbn. lia. }
    apply list_elem_of_bind. exists r. split; [|by apply E].
    apply list_elem_of_bind. exists f. split; [by apply list_elem_of_singleton|by apply E].
Qed.

Lemma goes_to_move g c p fr ff tr tf :
  goes (g <| to_move := c |>) p fr ff tr tf <-> goes g p fr ff tr tf.
Proof. done. Qed.

Lemma has_any_legal_move_spec g color :
  has_any_legal_move g color = true <->
  exists fr ff tr tf,
    legal_shape (g <| to_move := color |>) fr ff tr tf /\
    goes g (at_sq (board g) fr ff) fr ff tr tf /\
    move_leaves_self_in_check (board g) fr ff tr tf = false.
Proof.
  unfold has_any_legal_move. rewrite existsb_exists. split.
  - intros ([fr ff] & Hin & H). apply list_elem_of_In, all_squares_in in Hin. cbn [fst snd] in H.
    apply piece_any_spec in H as (Hn & Hc & tr & tf & (Hb & Ho & Hs) & Hg); [|done].
    exists fr, ff, tr, tf. split; [|split; [done|by apply negb_true_iff]].
    unfold legal_shape. cbn [board to_move set_field]. split_conj; try done. by left.
  - intros (fr & ff & tr & tf & (Hb1 & Hb2 & Hn & Hc & Ho & _) & Hg & Hs).
    exists (fr, ff). split; [by apply list_elem_of_In, all_squares_in|].
    apply piece_any_spec; [done|]. split; [done|]. split; [done|].
    exists tr, tf. split; [|done]. split; [done|].
    split; [done|]. unfold safe. cbn [fst snd]. by rewrite Hs.
Qed.


(** A square counts as attacked by a colour exactly when some piece of that
    colour bears on it under the movement relation of the rules: the ray scan
    with its blocking pieces, the step tables and the pawn test miss nothing
    and invent nothing. *)
Theorem attacked_iff_reached b r f c (Hb : in_bounds r f = true) :
  tt_chess_square_attacked b r f c = true <-> attacked b r f c.
Proof. by apply square_attacked_spec. Qed.

Lemma attacked_iff_reached_witness :
  in_bounds 4 4 = true /\
  (tt_chess_square_attacked (board tt_chess_init) 2 4 TT_COLOR_WHITE = true <->
   attacked (board tt_chess_init) 2 4 TT_COLOR_WHITE).
Proof. split; [done|]. apply (attacked_iff_reached _ 2 4). vm_compute. reflexivity. Defined.
