(* ===== verification/ChessInvariant.v ===== *)
(** * ChessInvariant: the positions a game can reach

    The invariant of a [TTChess] that started from [tt_chess_init]: a full
    board, at most one king a side, no pawn on a back rank, castling rights
    and the en-passant file backed by the pieces they speak of; and what the
    special moves do on such a position. *)
From S2P Require Import Prelude Chess ChessRules ChessMoves.

(** ** Reading the board after writes *)

Definition same_sq (r f r' f' : Z) : bool := (r =? r') && (f =? f').

Lemma same_sq_true r f r' f' : same_sq r f r' f' = true <-> r = r' /\ f = f'.
Proof. unfold same_sq. by rewrite andb_true_iff, !Z.eqb_eq. Qed.
Lemma same_sq_false r f r' f' : same_sq r f r' f' = false <-> ~ (r = r' /\ f = f').
Proof. by rewrite <- same_sq_true, not_true_iff_false. Qed.
Lemma same_sq_refl r f : same_sq r f r f = true.
Proof. by apply same_sq_true. Qed.

Definition full (b : list TTPiece) : Prop := length b = 64%nat.

Lemma full_set_sq b r f p : full b -> full (set_sq b r f p).
Proof. unfold full, set_sq. by rewrite length_insert. Qed.

Lemma at_set_sq b r f p r' f' :
  full b -> in_bounds r f = true -> in_bounds r' f' = true ->
  at_sq (set_sq b r f p) r' f' = if same_sq r' f' r f then p else at_sq b r' f'.
Proof.
  rewrite !in_bounds_iff. unfold full, at_sq, set_sq, sq_index. intros Hl H1 H2.
  destruct (same_sq r' f' r f) eqn:E.
  - apply same_sq_true in E as [-> ->]. rewrite list_lookup_insert_eq; [done|lia].
  - apply same_sq_false in E. rewrite list_lookup_insert_ne; [done|lia].
Qed.

Definition placed (p : TTPiece) (tr : Z) : TTPiece :=
  if type_is TT_PIECE_PAWN p && ((tr =? 0) || (tr =? 7)) then mkPiece TT_PIECE_QUEEN (p_color p) else p.

(** Square by square, the last write first. *)
Definition square_after (b : list TTPiece) (p t : TTPiece) (fr ff tr tf r f : Z) : TTPiece :=
  if same_sq r f fr ff then no_piece
  else if same_sq r f tr tf then placed p tr
  else if type_is TT_PIECE_PAWN p && negb (tf - ff =? 0) && type_is TT_PIECE_NONE t && same_sq r f fr tf
  then no_piece
  else if type_is TT_PIECE_KING p && (tf - ff =? 2) then
    if same_sq r f fr 7 then no_piece else if same_sq r f fr 5 then at_sq b fr 7 else at_sq b r f
  else if type_is TT_PIECE_KING p && (tf - ff =? -2) then
    if same_sq r f fr 0 then no_piece else if same_sq r f fr 3 then at_sq b fr 0 else at_sq b r f
  else at_sq b r f.

Lemma full_moved_board b p t fr ff tr tf : full b -> full (moved_board b p t fr ff tr tf).
Proof.
  intros H. unfold moved_board. cbv zeta.
  repeat first [apply full_set_sq | done | case_goal].
Qed.

Lemma moved_board_at b p t fr ff tr tf r f :
  full b -> in_bounds fr ff = true -> in_bounds tr tf = true -> in_bounds r f = true ->
  at_sq (moved_board b p t fr ff tr tf) r f = square_after b p t fr ff tr tf r f.
Proof.
  intros Hb H1 H2 H.
  assert (Hrow : forall k, 0 <= k < 8 -> in_bounds fr k = true)
    by (intros k Hk; apply in_bounds_iff; apply in_bounds_iff in H1; lia).
  apply in_bounds_iff in H2 as H2'.
  unfold moved_board, square_after. fold (placed p tr). cbv zeta.
  destruct (type_is TT_PIECE_KING p && (tf - ff =? 2)) eqn:E1;
    [|destruct (type_is TT_PIECE_KING p && (tf - ff =? -2)) eqn:E2];
    destruct (type_is TT_PIECE_PAWN p && negb (tf - ff =? 0) && type_is TT_PIECE_NONE t) eqn:E3;
    cbn [andb];
    rewrite !at_set_sq by (repeat apply full_set_sq; first [done|apply Hrow; lia]);
    repeat case_goal; congruence.
Qed.

(** ** The invariant *)

Definition home_rank (c : TTColor) : Z := if is_white c then 0 else 7.
Definition king_at (b : list TTPiece) (c : TTColor) (r f : Z) : Prop :=
  in_bounds r f = true /\ at_sq b r f = mkPiece TT_PIECE_KING c.

Definition one_king (b : list TTPiece) : Prop :=
  forall c r f r' f', king_at b c r f -> king_at b c r' f' -> r = r' /\ f = f'.
Definition no_back_pawns (b : list TTPiece) : Prop :=
  forall r f, in_bounds r f = true -> p_type (at_sq b r f) = TT_PIECE_PAWN -> 1 <= r <= 6.

(** A right still held: the rook is in its corner, and the king at home
    (unless it has been captured: nothing stops a king from being taken). *)
Definition right_backed (b : list TTPiece) (c : TTColor) (corner : Z) : Prop :=
  at_sq b (home_rank c) corner = mkPiece TT_PIECE_ROOK c /\
  (king_at b c (home_rank c) 4 \/ forall r f, ~ king_at b c r f).

Definition rights_backed (g : TTChess) : Prop :=
  forall c, (ks_right g c = true -> right_backed (board g) c 7) /\
            (qs_right g c = true -> right_backed (board g) c 0).

(** An en-passant file: an enemy pawn has just passed over the empty target. *)
Definition ep_backed (g : TTChess) : Prop :=
  ep_file g = -1 \/
  let c := to_move g in
  0 <= ep_file g < 8 /\
  at_sq (board g) (ep_rank c - pawn_dir c) (ep_file g) = mkPiece TT_PIECE_PAWN (opponent c) /\
  empty_sq (board g) (ep_rank c) (ep_file g) = true.

Record chess_ok (g : TTChess) : Prop := mkChessOk {
  ok_full : full (board g);
  ok_kings : one_king (board g);
  ok_pawns : no_back_pawns (board g);
  ok_rights : rights_backed g;
  ok_ep : ep_backed g }.

(** ** One move, square by square *)

Section one_move.
Context (g : TTChess) (fr ff tr tf : Z).
Context (Hok : chess_ok g) (Hlegal : legal_shape g fr ff tr tf).
Let b := board g.
Let p := at_sq b fr ff.
Let t := at_sq b tr tf.
Let b' := moved_board b p t fr ff tr tf.

Lemma move_from : in_bounds fr ff = true.
Proof. apply Hlegal. Qed.
Lemma move_to : in_bounds tr tf = true.
Proof. apply Hlegal. Qed.
Lemma mover_color : p_color p = to_move g.
Proof. apply Hlegal. Qed.

Lemma target_not_own ty : t = mkPiece ty (p_color p) -> ty = TT_PIECE_NONE.
Proof.
  pose proof Hlegal as (_ & _ & _ & Hc & Ho & _). fold b p in Hc. intros Ht.
  unfold own_sq, empty_sq, type_is, color_is in Ho. fold b t in Ho. rewrite Ht in Ho. cbn in Ho.
  apply andb_false_iff in Ho as [Ho|Ho].
  - apply negb_false_iff, bool_decide_eq_true in Ho. done.
  - apply bool_decide_eq_false in Ho. congruence.
Qed.

(** A two-file king move is a castling from home. *)
Lemma castle_from_home cs :
  cs = king_side \/ cs = queen_side -> castles cs g p fr ff tr tf ->
  fr = home_rank (p_color p) /\ ff = 4 /\ tr = fr /\ tf = 4 + cs_step cs /\
  at_sq b fr (cs_rook cs) = mkPiece TT_PIECE_ROOK (p_color p).
Proof.
  intros Hcs (Hk & Er & Ef & Hr & _ & Hrook & _).
  assert (Hp : king_at b (p_color p) fr ff).
  { split; [apply move_from|]. fold p. rewrite <- Hk. by destruct p. }
  destruct (ok_rights g Hok (p_color p)) as [Hks Hqs].
  assert (Hhome : king_at b (p_color p) (home_rank (p_color p)) 4 \/
                  forall r f, ~ king_at b (p_color p) r f)
    by (destruct Hcs as [-> | ->]; [apply Hks, Hr|apply Hqs, Hr]).
  destruct Hhome as [Hhome|Hno]; [|by destruct (Hno _ _ Hp)].
  destruct (ok_kings g Hok _ _ _ _ _ Hp Hhome) as [E1 E2].
  rewrite Er, <- E1, Ef, <- E2. by split_conj.
Qed.

Lemma king_two_files d :
  type_is TT_PIECE_KING p && (tf - ff =? d) = true -> d = 2 \/ d = -2 ->
  castles (if d =? 2 then king_side else queen_side) g p fr ff tr tf.
Proof.
  intros H Hd. apply andb_true_iff in H as [Hk H]. apply bool_decide_eq_true in Hk.
  apply Z.eqb_eq in H. pose proof Hlegal as (_ & _ & _ & _ & _ & Hg).
  fold b p in Hg. destruct Hg as [Hg|[Hc|Hc]].
  - unfold goes, reaches, dist in Hg. rewrite Hk in Hg. lia.
  - destruct (castles_geometry _ _ _ _ _ _ _ Hc) as [_ E]. cbn in E.
    assert (d = 2) as -> by lia. done.
  - destruct (castles_geometry _ _ _ _ _ _ _ Hc) as [_ E]. cbn in E.
    assert (d = -2) as -> by lia. done.
Qed.

(** A pawn capturing on an empty square takes the pawn that just passed. *)
Lemma en_passant_square :
  type_is TT_PIECE_PAWN p && negb (tf - ff =? 0) && type_is TT_PIECE_NONE t = true ->
  tf = ep_file g /\ tr = ep_rank (p_color p) /\ fr = ep_rank (p_color p) - pawn_dir (p_color p) /\
  at_sq b fr tf = mkPiece TT_PIECE_PAWN (opponent (p_color p)).
Proof.
  intros H. apply andb_true_iff in H as [H Ht]. apply andb_true_iff in H as [Hp Hf].
  apply bool_decide_eq_true in Hp. apply negb_true_iff, Z.eqb_neq in Hf.
  pose proof Hlegal as (_ & Hto & _ & Hc & _ & Hg). fold b p in Hc, Hg.
  assert (Hg' : pawn_goes g (p_color p) fr ff tr tf).
  { destruct Hg as [Hg|[(Hk & _)|(Hk & _)]]; [|congruence..]. unfold goes in Hg. by rewrite Hp in Hg. }
  destruct Hg' as [(? & _)|(_ & E & He)]; [lia|].
  destruct He as [He|[E1 E2]]; [unfold empty_sq in He; fold b t in He; congruence|].
  split_conj; [done|done|lia|].
  apply in_bounds_iff in Hto. destruct (ok_ep g Hok) as [He|(_ & He & _)]; [lia|].
  rewrite Hc, E2. rewrite <- He. f_equal. rewrite <- Hc. lia.
Qed.

(** What stands on a square after the move. *)
Lemma moved_cases r f :
  in_bounds r f = true ->
  let q := at_sq b' r f in
  q = no_piece \/
  (r = tr /\ f = tf /\ q = placed p tr) \/
  (r = fr /\ p_type p = TT_PIECE_KING /\ q = mkPiece TT_PIECE_ROOK (p_color p)) \/
  (q = at_sq b r f /\ ~ (r = fr /\ f = ff) /\ ~ (r = tr /\ f = tf)).
Proof.
  intros Hb q. subst q b'.
  rewrite moved_board_at by (try apply Hok; first [apply move_from|apply move_to|done]).
  unfold square_after.
  destruct (same_sq r f fr ff) eqn:E1; [by left|]. apply same_sq_false in E1.
  destruct (same_sq r f tr tf) eqn:E2.
  { apply same_sq_true in E2 as [-> ->]. right; left. done. }
  apply same_sq_false in E2.
  destruct (type_is TT_PIECE_PAWN p && negb (tf - ff =? 0) && type_is TT_PIECE_NONE t &&
            same_sq r f fr tf); [by left|].
  destruct (type_is TT_PIECE_KING p && (tf - ff =? 2)) eqn:E3;
    [|destruct (type_is TT_PIECE_KING p && (tf - ff =? -2)) eqn:E4; [|by do 3 right]].
  - destruct (same_sq r f fr 7); [by left|]. destruct (same_sq r f fr 5) eqn:E5; [|by do 3 right].
    apply same_sq_true in E5 as [-> ->]. right; right; left.
    pose proof (king_two_files 2 E3 ltac:(by left)) as Hc. cbn in Hc.
    destruct (castle_from_home _ ltac:(by left) Hc) as (_ & _ & _ & _ & Hr). split_conj; [done|by destruct Hc|done].
  - destruct (same_sq r f fr 0); [by left|]. destruct (same_sq r f fr 3) eqn:E5; [|by do 3 right].
    apply same_sq_true in E5 as [-> ->]. right; right; left.
    pose proof (king_two_files (-2) E4 ltac:(by right)) as Hc. cbn in Hc.
    destruct (castle_from_home _ ltac:(by right) Hc) as (_ & _ & _ & _ & Hr). split_conj; [done|by destruct Hc|done].
Qed.

(** Squares no part of the move writes. *)
Lemma moved_elsewhere r f :
  in_bounds r f = true -> ~ (r = fr /\ f = ff) -> ~ (r = tr /\ f = tf) ->
  (r = fr -> p_type p <> TT_PIECE_KING) ->
  (r = fr -> f = tf -> p_type p <> TT_PIECE_PAWN) ->
  at_sq b' r f = at_sq b r f.
Proof.
  intros Hb Hf Ht Hk Hp. subst b'.
  rewrite moved_board_at by (try apply Hok; first [apply move_from|apply move_to|done]).
  unfold square_after. apply same_sq_false in Hf as ->. apply same_sq_false in Ht as ->.
  unfold type_is, same_sq.
  destruct (Z.eqb_spec r fr) as [E|E].
  - rewrite (bool_decide_false (p_type p = TT_PIECE_KING)) by auto. cbn [andb].
    destruct (Z.eqb_spec f tf) as [E'|E']; [|by rewrite andb_false_r].
    by rewrite (bool_decide_false (p_type p = TT_PIECE_PAWN)) by auto.
  - cbn [andb]. rewrite andb_false_r. by repeat case_goal.
Qed.
End one_move.

(** ** Preservation *)

Section preservation.
Context (g : TTChess) (fr ff tr tf : Z).
Context (Hok : chess_ok g) (Hlegal : legal_shape g fr ff tr tf).
Let b := board g.
Let p := at_sq b fr ff.
Let t := at_sq b tr tf.
Let b' := moved_board b p t fr ff tr tf.

(** A king after the move: the mover's, or one that stood there. *)
Lemma moved_king c r f :
  king_at b' c r f ->
  (r = tr /\ f = tf /\ king_at b c fr ff) \/
  (king_at b c r f /\ ~ (r = fr /\ f = ff) /\ ~ (r = tr /\ f = tf)).
Proof.
  intros [Hb Hk]. destruct (moved_cases g fr ff tr tf Hok Hlegal r f Hb) as [E|[(-> & -> & E)|[(_ & _ & E)|(E & H)]]];
    fold b p t b' in E; rewrite Hk in E; [done| |done|].
  - left. split_conj; [done|done|split; [apply Hlegal|]]. fold p.
    unfold placed in E. by destruct (_ && _).
  - right. split; [|done]. split; [done|congruence].
Qed.

Lemma kings_preserved : one_king b'.
Proof.
  intros c r f r' f' [(-> & -> & H)|(H & Hn & _)]%moved_king [(-> & -> & H')|(H' & Hn' & _)]%moved_king.
  - done.
  - by destruct Hn'; eapply (ok_kings g Hok).
  - by destruct Hn; eapply (ok_kings g Hok).
  - by eapply (ok_kings g Hok).
Qed.

Lemma pawns_preserved : no_back_pawns b'.
Proof.
  intros r f Hb Hp.
  destruct (moved_cases g fr ff tr tf Hok Hlegal r f Hb) as [E|[(-> & _ & E)|[(_ & _ & E)|(E & _)]]];
    fold b p t b' in E; rewrite E in Hp; [done| |done|by apply (ok_pawns g Hok) in Hp].
  apply in_bounds_iff in Hb. unfold placed in Hp.
  destruct (type_is TT_PIECE_PAWN p && ((tr =? 0) || (tr =? 7))) eqn:Eq; [done|].
  apply andb_false_iff in Eq as [Eq|Eq]; [apply bool_decide_eq_false in Eq; congruence|].
  bool_to_prop. lia.
Qed.

(** The home rank of the side not moving is only touched by a capture. *)
Lemma other_home_square c k :
  c <> p_color p -> 0 <= k < 8 -> ~ (tr = home_rank c /\ tf = k) ->
  at_sq b (home_rank c) k <> no_piece ->
  p_color (at_sq b (home_rank c) k) = c ->
  at_sq b' (home_rank c) k = at_sq b (home_rank c) k.
Proof.
  intros Hc Hk Hto Hne Hcol.
  assert (Hh : home_rank c = 0 \/ home_rank c = 7) by (unfold home_rank; destruct (is_white c); auto).
  assert (Hin : in_bounds (home_rank c) k = true) by (apply in_bounds_iff; lia).
  assert (Hfrom : ~ (home_rank c = fr /\ k = ff)).
  { intros [E1 E2]. apply Hc. subst p. by rewrite <- Hcol, E1, E2. }
  subst b'. rewrite moved_board_at by (try apply Hok; first [apply Hlegal|done]).
  unfold square_after. apply same_sq_false in Hfrom as ->.
  rewrite (proj2 (same_sq_false (home_rank c) k tr tf)) by (intros [??]; apply Hto; done).
  destruct (type_is TT_PIECE_PAWN p && negb (tf - ff =? 0) && type_is TT_PIECE_NONE t) eqn:E.
  { destruct (en_passant_square g fr ff tr tf Hok Hlegal E) as (_ & _ & E1 & _).
    fold b p in E1. unfold same_sq. replace (home_rank c =? fr) with false; [cbn|].
    - apply andb_true_iff in E as [E _]. apply andb_true_iff in E as [E _].
      apply bool_decide_eq_true in E. unfold type_is. by rewrite E.
    - symmetry. apply Z.eqb_neq. unfold ep_rank, pawn_dir in E1. destruct (is_white (p_color p)); lia. }
  cbn [andb].
  assert (Hrank : forall d, type_is TT_PIECE_KING p && (tf - ff =? d) = true -> d = 2 \/ d = -2 ->
                            forall k', same_sq (home_rank c) k fr k' = false).
  { intros d Hd Hd2 k'. apply same_sq_false. intros [E1 _]. apply Hc.
    pose proof (king_two_files g fr ff tr tf Hlegal d Hd Hd2) as Hcs.
    assert (Hcs' : (if d =? 2 then king_side else queen_side) = king_side \/
                   (if d =? 2 then king_side else queen_side) = queen_side)
      by (destruct (d =? 2); auto).
    destruct (castle_from_home g fr ff tr tf Hok Hlegal _ Hcs' Hcs) as (E2 & _).
    fold b p in E2. rewrite E2 in E1. unfold home_rank in E1. destruct c, (p_color p); done. }
  destruct (type_is TT_PIECE_KING p && (tf - ff =? 2)) eqn:E2;
    [by rewrite !(Hrank 2 E2) by auto|].
  destruct (type_is TT_PIECE_KING p && (tf - ff =? -2)) eqn:E3; [|done].
  by rewrite !(Hrank (-2) E3) by auto.
Qed.
End preservation.

(** ** Castling rights *)

Definition right (corner : Z) (g : TTChess) (c : TTColor) : bool :=
  if corner =? 7 then ks_right g c else qs_right g c.

Lemma is_white_white : is_white TT_COLOR_WHITE = true.
Proof. done. Qed.
Lemma is_white_black : is_white TT_COLOR_BLACK = false.
Proof. done. Qed.

Lemma corner_rights_right corner g r f c :
  corner = 7 \/ corner = 0 ->
  right corner (corner_rights g r f) c = right corner g c && negb (same_sq r f (home_rank c) corner).
Proof.
  unfold corner_rights, same_sq, right, ks_right, qs_right, home_rank. intros [-> | ->]; cbn [Z.eqb];
    destruct c; rewrite ?is_white_white, ?is_white_black;
    destruct (Z.eqb_spec r 0), (Z.eqb_spec f 0), (Z.eqb_spec f 7), (Z.eqb_spec r 7); try lia;
    subst; cbn; by rewrite ?andb_true_r, ?andb_false_r.
Qed.

Lemma moved_rights_right corner g p t fr ff tr tf c :
  corner = 7 \/ corner = 0 ->
  right corner (moved_rights g p t fr ff tr tf) c = true ->
  right corner g c = true /\ (p_type p = TT_PIECE_KING -> p_color p <> c) /\
  (p_type p = TT_PIECE_ROOK -> ~ (fr = home_rank c /\ ff = corner)) /\
  (p_type t = TT_PIECE_ROOK -> ~ (tr = home_rank c /\ tf = corner)).
Proof.
  intros Hc. unfold moved_rights, type_is. cbv zeta.
  set (g1 := if bool_decide (p_type p = TT_PIECE_KING) then _ else g).
  assert (H1 : right corner g1 c = true ->
    right corner g c = true /\ (p_type p = TT_PIECE_KING -> p_color p <> c)).
  { subst g1. destruct (bool_decide_reflect (p_type p = TT_PIECE_KING)); [|done].
    unfold right, ks_right, qs_right.
    destruct Hc as [-> | ->]; destruct (p_color p), c; rewrite ?is_white_white, ?is_white_black; cbn; intros H; split; done. }
  set (g2 := if bool_decide (p_type p = TT_PIECE_ROOK) then corner_rights g1 fr ff else g1).
  assert (H2 : right corner g2 c = true -> right corner g1 c = true /\
    (p_type p = TT_PIECE_ROOK -> ~ (fr = home_rank c /\ ff = corner))).
  { subst g2. destruct (bool_decide_reflect (p_type p = TT_PIECE_ROOK)); [|done].
    rewrite corner_rights_right, andb_true_iff, negb_true_iff, same_sq_false by done. tauto. }
  intros H.
  assert (H3 : right corner g2 c = true /\ (p_type t = TT_PIECE_ROOK -> ~ (tr = home_rank c /\ tf = corner))).
  { destruct (bool_decide_reflect (p_type t = TT_PIECE_ROOK)); [|done].
    rewrite corner_rights_right, andb_true_iff, negb_true_iff, same_sq_false in H by done. tauto. }
  tauto.
Qed.

Lemma rights_backed_iff g :
  rights_backed g <->
  forall c corner, corner = 7 \/ corner = 0 -> right corner g c = true -> right_backed (board g) c corner.
Proof.
  unfold rights_backed, right. split.
  - intros H c corner [-> | ->]; apply (H c).
  - intros H c. split; [apply (H c 7); by left|apply (H c 0); by right].
Qed.

Section rights.
Context (g : TTChess) (fr ff tr tf : Z).
Context (Hok : chess_ok g) (Hlegal : legal_shape g fr ff tr tf).
Let b := board g.
Let p := at_sq b fr ff.
Let t := at_sq b tr tf.
Let b' := moved_board b p t fr ff tr tf.

(** A rook or king of [c] that neither moves nor is captured stays. *)
Lemma home_piece_stays c k ty :
  0 <= k < 8 -> ty = TT_PIECE_ROOK \/ ty = TT_PIECE_KING ->
  at_sq b (home_rank c) k = mkPiece ty c ->
  (p_type p = TT_PIECE_KING -> p_color p <> c) ->
  ~ (fr = home_rank c /\ ff = k) -> ~ (tr = home_rank c /\ tf = k) ->
  at_sq b' (home_rank c) k = mkPiece ty c.
Proof.
  intros Hk Hty Hat Hking Hfrom Hto. rewrite <- Hat.
  assert (Hh : home_rank c = 0 \/ home_rank c = 7) by (unfold home_rank; destruct (is_white c); auto).
  destruct (decide (c = p_color p)) as [Hc|Hc].
  - apply (moved_elsewhere g fr ff tr tf Hok Hlegal).
    + apply in_bounds_iff. lia.
    + intros [??]. auto.
    + intros [??]. auto.
    + intros _ E. by apply Hking in E.
    + intros E _ Hp. apply (ok_pawns g Hok) in Hp; [lia|apply Hlegal].
  - apply (other_home_square g fr ff tr tf Hok Hlegal); [done|done|done| |];
      fold b; rewrite Hat; [|done]. by destruct Hty as [-> | ->].
Qed.

Lemma rights_preserved g' :
  board g' = b' -> (forall c corner, right corner g' c = right corner (moved_rights g p t fr ff tr tf) c) ->
  rights_backed g'.
Proof.
  intros Hb Hr. apply rights_backed_iff. intros c corner Hcorner H. rewrite Hr in H. rewrite Hb.
  apply moved_rights_right in H as (H & Hking & Hfrom & Hto); [|done].
  pose proof (proj1 (rights_backed_iff g) (ok_rights g Hok) c corner Hcorner H) as [Hrook Hk].
  fold b in Hrook, Hk. split.
  - apply home_piece_stays; [lia|by left|done|done| |].
    + intros [E1 E2]. apply Hfrom; [|done]. subst p. by rewrite E1, E2, Hrook.
    + intros [E1 E2]. apply Hto; [|done]. subst t. by rewrite E1, E2, Hrook.
  - destruct Hk as [[Hin Hk]|Hno].
    + destruct (decide (tr = home_rank c /\ tf = 4)) as [[E1 E2]|Hto4].
      * right. intros r f [(_ & _ & [_ H'])|([Hin' H'] & _ & Hnt)]%(moved_king g fr ff tr tf Hok Hlegal).
        -- fold b p in H'. assert (t = mkPiece TT_PIECE_KING (p_color p)) as Ht
             by (subst t; rewrite E1, E2, Hk, H'; done).
           apply (target_not_own g fr ff tr tf Hlegal) in Ht. done.
        -- apply Hnt. rewrite E1, E2. eapply (ok_kings g Hok); by split.
      * left. split; [done|]. apply home_piece_stays; [lia|by right|done|done| |done].
        intros [E1 E2]. apply Hking; subst p; by rewrite E1, E2, Hk.
    + right. intros r f [(_ & _ & H')|(H' & _)]%(moved_king g fr ff tr tf Hok Hlegal); by eapply Hno.
Qed.
End rights.

(** ** The whole move *)

Lemma corner_rights_frame g r f :
  board (corner_rights g r f) = board g /\ to_move (corner_rights g r f) = to_move g /\
  ep_file (corner_rights g r f) = ep_file g /\ status (corner_rights g r f) = status g /\
  winner (corner_rights g r f) = winner g.
Proof. unfold corner_rights. by repeat case_goal. Qed.

Lemma moved_rights_frame g p t fr ff tr tf :
  let g' := moved_rights g p t fr ff tr tf in
  board g' = board g /\ to_move g' = to_move g /\ ep_file g' = ep_file g /\
  status g' = status g /\ winner g' = winner g.
Proof.
  unfold moved_rights. cbv zeta.
  repeat match goal with
  | |- context [corner_rights ?g ?r ?f] =>
      destruct (corner_rights_frame g r f) as (-> & -> & -> & -> & ->)
  | |- context [if ?b then _ else _] => destruct b
  end; done.
Qed.

Lemma moved_rights_only_rights corner g b e p t fr ff tr tf c :
  right corner (moved_rights (g <| board := b |> <| ep_file := e |>) p t fr ff tr tf) c =
  right corner (moved_rights g p t fr ff tr tf) c.
Proof.
  unfold moved_rights, corner_rights, right, ks_right, qs_right.
  by repeat match goal with |- context [if ?b then _ else _] => destruct b end.
Qed.

Lemma update_status_frame g mover :
  board (update_status g mover) = board g /\ to_move (update_status g mover) = to_move g /\
  ep_file (update_status g mover) = ep_file g /\
  (forall corner c, right corner (update_status g mover) c = right corner g c).
Proof. unfold update_status. by repeat case_goal. Qed.

Definition pushes (p : TTPiece) (fr tr : Z) : bool :=
  type_is TT_PIECE_PAWN p && (tr - fr =? 2 * pawn_dir (p_color p)).

Lemma apply_move_frame g p t fr ff tr tf :
  let g' := apply_move g p t fr ff tr tf in
  board g' = moved_board (board g) p t fr ff tr tf /\
  to_move g' = opponent (to_move g) /\
  ep_file g' = (if pushes p fr tr then ff else -1) /\
  (forall c corner, right corner g' c = right corner (moved_rights g p t fr ff tr tf) c).
Proof.
  cbv zeta. unfold apply_move. cbv zeta. fold (pawn_dir (p_color p)) (pushes p fr tr).
  set (g0 := g <| board := _ |> <| ep_file := _ |>).
  destruct (moved_rights_frame g0 p t fr ff tr tf) as (Eb & Et & Ee & _).
  set (g1 := moved_rights g0 p t fr ff tr tf) in *.
  destruct (update_status_frame (g1 <| to_move := opponent (to_move g1) |>) (p_color p))
    as (-> & -> & -> & Hr).
  split_conj; [exact Eb|cbn [to_move set_field]; by rewrite Et|exact Ee|].
  intros c corner. rewrite Hr. change (right corner g1 c = right corner (moved_rights g p t fr ff tr tf) c).
  apply moved_rights_only_rights.
Qed.

Lemma opponent_involutive c : opponent (opponent c) = c.
Proof. by destruct c. Qed.

Lemma push_ep_backed g fr ff tr tf g' :
  chess_ok g -> legal_shape g fr ff tr tf ->
  pushes (at_sq (board g) fr ff) fr tr = true ->
  board g' = moved_board (board g) (at_sq (board g) fr ff) (at_sq (board g) tr tf) fr ff tr tf ->
  to_move g' = opponent (to_move g) -> ep_file g' = ff -> ep_backed g'.
Proof.
  intros Hok Hl Hpush Eb Et Ee. right. cbv zeta. rewrite Eb, Et, Ee.
  pose proof (moved_elsewhere g fr ff tr tf Hok Hl) as Helse.
  set (p := at_sq (board g) fr ff) in *. set (t := at_sq (board g) tr tf) in *.
  apply andb_true_iff in Hpush as [Hp Hdr]. apply bool_decide_eq_true in Hp. apply Z.eqb_eq in Hdr.
  pose proof Hl as (Hfrom & Hto & _ & Hc & _ & Hg). fold p in Hc, Hg.
  apply in_bounds_iff in Hfrom as Hfrom'. apply in_bounds_iff in Hto as Hto'.
  assert (Hpg : pawn_goes g (p_color p) fr ff tr tf).
  { destruct Hg as [Hg|[(Hk & _)|(Hk & _)]]; [|congruence..]. unfold goes in Hg. by rewrite Hp in Hg. }
  assert (Hd : pawn_dir (p_color p) = 1 \/ pawn_dir (p_color p) = -1)
    by (unfold pawn_dir; destruct (is_white _); auto).
  destruct Hpg as [(E & _ & [?|(E2 & E3 & He)])|(_ & ? & _)]; [lia| |lia]. subst tf.
  assert (Hranks : ep_rank (opponent (p_color p)) = fr + pawn_dir (p_color p) /\
    pawn_dir (opponent (p_color p)) = - pawn_dir (p_color p) /\ 2 <= tr <= 4)
    by (unfold ep_rank, pawn_dir, pawn_start in *; destruct (p_color p);
        cbn [opponent] in *; rewrite ?is_white_white, ?is_white_black in *; lia).
  destruct Hranks as (R1 & R2 & R3). rewrite <- Hc, R1, R2, opponent_involutive.
  split; [lia|]. split.
  - replace (fr + pawn_dir (p_color p) - - pawn_dir (p_color p)) with tr by lia.
    rewrite moved_board_at by (try apply Hok; done). unfold square_after.
    rewrite (proj2 (same_sq_false tr ff fr ff)) by lia. rewrite same_sq_refl.
    unfold placed. replace ((tr =? 0) || (tr =? 7)) with false by lia. rewrite andb_false_r.
    by destruct p; cbn in *; subst.
  - unfold empty_sq. rewrite Helse; [exact He|apply in_bounds_iff; lia|lia|lia|congruence|lia].
Qed.

Lemma move_preserves_ok g fr ff tr tf g' :
  chess_ok g -> tt_chess_move g fr ff tr tf = Some g' -> chess_ok g'.
Proof.
  intros Hok [Hl ->]%move_shape.
  destruct (apply_move_frame g (at_sq (board g) fr ff) (at_sq (board g) tr tf) fr ff tr tf)
    as (Eb & Et & Ee & Er).
  split.
  - rewrite Eb. apply full_moved_board, Hok.
  - rewrite Eb. by apply kings_preserved.
  - rewrite Eb. by apply pawns_preserved.
  - by apply (rights_preserved g fr ff tr tf Hok Hl).
  - destruct (pushes (at_sq (board g) fr ff) fr tr) eqn:Hp; [|by left].
    by eapply (push_ep_backed g fr ff tr tf).
Qed.

(** ** The starting position *)

Lemma forall_squares (P : Z -> Z -> bool) :
  forallb (fun s => P s.1 s.2) all_squares = true -> forall r f, in_bounds r f = true -> P r f = true.
Proof.
  intros H r f Hb. rewrite forallb_forall in H.
  apply (H (r, f)). by apply list_elem_of_In, all_squares_in.
Qed.

Lemma init_king c r f :
  king_at (board tt_chess_init) c r f -> r = home_rank c /\ f = 4.
Proof.
  intros [Hb Hk]. apply same_sq_true.
  pose proof (forall_squares (fun r f =>
    implb (bool_decide (at_sq (board tt_chess_init) r f = mkPiece TT_PIECE_KING c))
          (same_sq r f (home_rank c) 4)) ltac:(by destruct c; vm_compute) r f Hb) as H.
  cbn beta in H. by rewrite bool_decide_true in H.
Qed.

Lemma init_ok : chess_ok tt_chess_init.
Proof.
  split.
  - reflexivity.
  - intros c r f r' f' [-> ->]%init_king [-> ->]%init_king. done.
  - intros r f Hb Hp.
    pose proof (forall_squares (fun r f =>
      implb (bool_decide (p_type (at_sq (board tt_chess_init) r f) = TT_PIECE_PAWN))
            ((1 <=? r) && (r <=? 6))) ltac:(by vm_compute) r f Hb) as H.
    cbn beta in H. rewrite bool_decide_true in H by done. cbn in H. bool_to_prop. lia.
  - intros c. split; intros _; (split; [by destruct c; vm_compute|left; by destruct c; vm_compute]).
  - by left.
Qed.

Lemma play_preserves_ok ms : forall g g', chess_ok g -> play g ms = Some g' -> chess_ok g'.
Proof.
  induction ms as [|[[[fr ff] tr] tf] ms IH]; intros g g' Hok H; cbn [play] in H; [by injection H as <-|].
  destruct (tt_chess_move g fr ff tr tf) as [g1|] eqn:E; [|done].
  eapply IH; [|exact H]. by eapply move_preserves_ok.
Qed.

(** C16: every position a game reaches from [tt_chess_init] by accepted moves is
    well formed: 64 squares, at most one king of each colour, no pawn on a back
    rank (promotion always happens), a castling right only while its rook is in
    its corner and the king (if not captured) at home, and an en-passant file
    only while an enemy pawn stands right behind the empty target square. *)
Theorem reachable_positions_ok ms g (Hplay : play tt_chess_init ms = Some g) : chess_ok g.
Proof. eapply play_preserves_ok; [apply init_ok|done]. Qed.

(** 1. e4 a6 2. e5 d5: Black's d-pawn can be taken en passant. *)
Definition ep_line : list (Z * Z * Z * Z) := [(1,4,3,4); (6,0,5,0); (3,4,4,4); (6,3,4,3)].
Definition ep_position : TTChess :=
  Eval vm_compute in default tt_chess_init (play tt_chess_init ep_line).

Lemma reachable_positions_ok_witness :
  play tt_chess_init ep_line = Some ep_position /\ chess_ok ep_position /\ ep_file ep_position = 3.
Proof.
  split; [vm_compute; reflexivity|]. split; [|reflexivity].
  apply (reachable_positions_ok ep_line). vm_compute. reflexivity.
Defined.

(** ** The special moves, on a reachable position *)

(** What a move does to the board, said without the order of the writes. *)
Definition castled (b b' : list TTPiece) (c : TTColor) (corner king_to rook_to : Z) : Prop :=
  let r := home_rank c in
  at_sq b r 4 = mkPiece TT_PIECE_KING c /\ at_sq b r corner = mkPiece TT_PIECE_ROOK c /\
  at_sq b' r king_to = mkPiece TT_PIECE_KING c /\ at_sq b' r rook_to = mkPiece TT_PIECE_ROOK c /\
  at_sq b' r 4 = no_piece /\ at_sq b' r corner = no_piece /\
  (forall r' f', in_bounds r' f' = true ->
     ~ (r' = r /\ (f' = 4 \/ f' = corner \/ f' = king_to \/ f' = rook_to)) ->
     at_sq b' r' f' = at_sq b r' f').

Definition plain_move (b b' : list TTPiece) (fr ff tr tf : Z) : Prop :=
  forall r f, in_bounds r f = true ->
    at_sq b' r f = if same_sq r f fr ff then no_piece
                   else if same_sq r f tr tf then placed (at_sq b fr ff) tr else at_sq b r f.

Definition took_en_passant (b b' : list TTPiece) (c : TTColor) (fr ff tr tf : Z) : Prop :=
  at_sq b fr ff = mkPiece TT_PIECE_PAWN c /\ at_sq b fr tf = mkPiece TT_PIECE_PAWN (opponent c) /\
  at_sq b' tr tf = mkPiece TT_PIECE_PAWN c /\ at_sq b' fr ff = no_piece /\ at_sq b' fr tf = no_piece /\
  (forall r f, in_bounds r f = true ->
     ~ (r = fr /\ (f = ff \/ f = tf)) -> ~ (r = tr /\ f = tf) -> at_sq b' r f = at_sq b r f).

Section effects.
Context (g : TTChess) (fr ff tr tf : Z) (g' : TTChess).
Context (Hok : chess_ok g) (Hmove : tt_chess_move g fr ff tr tf = Some g').
Let c := to_move g.
Let b := board g.
Let p := at_sq b fr ff.
Let t := at_sq b tr tf.

Lemma move_board : board g' = moved_board b p t fr ff tr tf /\ legal_shape g fr ff tr tf.
Proof.
  apply move_shape in Hmove as [Hl ->]. split; [|done]. apply (apply_move_frame g p t fr ff tr tf).
Qed.

Lemma after_at r f : in_bounds r f = true -> at_sq (board g') r f = square_after b p t fr ff tr tf r f.
Proof.
  intros H. destruct move_board as [-> Hl]. apply moved_board_at; [apply Hok|apply Hl..|done].
Qed.

Lemma castle_effect d :
  type_is TT_PIECE_KING p && (tf - ff =? d) = true -> d = 2 \/ d = -2 ->
  castled b (board g') c (if d =? 2 then 7 else 0) (4 + d) (if d =? 2 then 5 else 3).
Proof.
  intros H Hd. destruct move_board as [_ Hl]. pose proof (mover_color g fr ff tr tf Hl) as Hc.
  pose proof (king_two_files g fr ff tr tf Hl d H Hd) as Hcs.
  assert (Hside : (if d =? 2 then king_side else queen_side) = king_side \/
                  (if d =? 2 then king_side else queen_side) = queen_side) by (destruct (d =? 2); auto).
  destruct (castle_from_home g fr ff tr tf Hok Hl _ Hside Hcs) as (E1 & E2 & E3 & E4 & E5).
  pose proof (castles_king _ _ _ _ _ _ _ Hcs) as Hk.
  fold b p in Hc, Hk, E1, E5. fold c in Hc. rewrite Hc in E1, E5.
  assert (Hp : p = mkPiece TT_PIECE_KING c) by (rewrite <- Hk, <- Hc; by destruct p).
  assert (Hhome : 0 <= home_rank c < 8) by (unfold home_rank; destruct (is_white c); lia).
  assert (Hd' : tf = 4 + d) by (destruct Hd as [-> | ->]; exact E4).
  unfold castled. cbv zeta.
  split; [rewrite <- E1, <- E2; exact Hp|].
  assert (Hat : forall r f, in_bounds r f = true -> at_sq (board g') r f =
    if same_sq r f (home_rank c) 4 then no_piece
    else if same_sq r f (home_rank c) (4 + d) then mkPiece TT_PIECE_KING c
    else if same_sq r f (home_rank c) (if d =? 2 then 7 else 0) then no_piece
    else if same_sq r f (home_rank c) (if d =? 2 then 5 else 3) then mkPiece TT_PIECE_ROOK c
    else at_sq b r f).
  { intros r f Hb. rewrite after_at by done. unfold square_after.
    rewrite Hp, E3, E1, E2, Hd'. replace (4 + d - 4) with d by lia.
    change (type_is TT_PIECE_PAWN (mkPiece TT_PIECE_KING c)) with false.
    change (type_is TT_PIECE_KING (mkPiece TT_PIECE_KING c)) with true.
    destruct Hd as [-> | ->]; cbn in E5; rewrite E1 in E5; cbn -[at_sq same_sq]; by rewrite E5. }
  assert (Hsq : forall f, same_sq (home_rank c) f (home_rank c) f = true) by (intros; apply same_sq_refl).
  assert (Hne : forall f k, f <> k -> same_sq (home_rank c) f (home_rank c) k = false)
    by (intros; apply same_sq_false; lia).
  split; [destruct Hd as [-> | ->]; cbn in E5 |- *; by rewrite <- E1|].
  assert (Hin : forall f, 0 <= f < 8 -> in_bounds (home_rank c) f = true)
    by (intros; apply in_bounds_iff; lia).
  destruct Hd as [-> | ->]; cbn [Z.eqb Z.add Pos.add Pos.eqb] in *;
    (split_conj; [rewrite Hat by (apply Hin; lia)..|]); rewrite ?Hsq, ?Hne by lia;
    rewrite ?Hsq, ?Hne by lia; try done;
    intros r f Hb Hn; rewrite Hat by done; by rewrite !(proj2 (same_sq_false r f _ _)) by lia.
Qed.

Lemma en_passant_effect :
  type_is TT_PIECE_PAWN p && negb (tf - ff =? 0) && type_is TT_PIECE_NONE t = true ->
  took_en_passant b (board g') c fr ff tr tf.
Proof.
  intros H. destruct move_board as [_ Hl]. pose proof (mover_color g fr ff tr tf Hl) as Hc.
  destruct (en_passant_square g fr ff tr tf Hok Hl H) as (_ & E2 & E3 & E4).
  fold b p in Hc, E2, E3, E4. fold c in Hc. rewrite Hc in E2, E3, E4.
  pose proof Hl as (Hfrom & Hto & _). apply in_bounds_iff in Hfrom as F1, Hto as F2.
  apply andb_true_iff in H as [H Ht]. apply andb_true_iff in H as [Hp Hdf].
  apply bool_decide_eq_true in Hp. apply negb_true_iff, Z.eqb_neq in Hdf.
  assert (Hpp : p = mkPiece TT_PIECE_PAWN c) by (rewrite <- Hp, <- Hc; by destruct p).
  assert (Hr : fr <> tr /\ 2 <= tr <= 5)
    by (unfold ep_rank, pawn_dir in *; destruct (is_white c); lia).
  assert (Hpl : placed p tr = p)
    by (unfold placed; replace ((tr =? 0) || (tr =? 7)) with false by lia; by rewrite andb_false_r).
  assert (Hat : forall r f, in_bounds r f = true -> at_sq (board g') r f =
    if same_sq r f fr ff then no_piece else if same_sq r f tr tf then p
    else if same_sq r f fr tf then no_piece else at_sq b r f).
  { intros r f Hb. rewrite after_at by done. unfold square_after. rewrite Hpl, Ht.
    replace (tf - ff =? 0) with false by lia. rewrite Hpp.
    change (type_is TT_PIECE_PAWN (mkPiece TT_PIECE_PAWN c)) with true.
    by change (type_is TT_PIECE_KING (mkPiece TT_PIECE_PAWN c)) with false. }
  unfold took_en_passant. split; [exact Hpp|]. split; [exact E4|].
  rewrite !Hat by (first [done|apply in_bounds_iff; lia]). rewrite !same_sq_refl.
  rewrite !(proj2 (same_sq_false _ _ fr ff)), ?(proj2 (same_sq_false fr tf tr tf)) by lia.
  split_conj; [exact Hpp|done|done|].
  intros r f Hb Hn1 Hn2. rewrite Hat by done.
  by rewrite !(proj2 (same_sq_false r f _ _)) by (intros [??]; tauto).
Qed.

Lemma plain_effect :
  type_is TT_PIECE_KING p && (tf - ff =? 2) = false ->
  type_is TT_PIECE_KING p && (tf - ff =? -2) = false ->
  type_is TT_PIECE_PAWN p && negb (tf - ff =? 0) && type_is TT_PIECE_NONE t = false ->
  plain_move b (board g') fr ff tr tf.
Proof.
  intros H1 H2 H3 r f Hb. rewrite after_at by done. unfold square_after. by rewrite H1, H2, H3.
Qed.
End effects.

(** An accepted move on a reachable position changes exactly the squares it
    should.  A two-file king move is made by the king on its home square: king
    and corner rook land on their castled squares.  A pawn's diagonal step onto
    an empty square removes the enemy pawn standing beside it.  Any other move
    only empties its source and fills its target (a queen for a promoting
    pawn).  Every other square keeps its piece. *)
Theorem accepted_move_effect g fr ff tr tf g'
    (Hok : chess_ok g) (Hmove : tt_chess_move g fr ff tr tf = Some g') :
  let b := board g in
  let p := at_sq b fr ff in
  if type_is TT_PIECE_KING p && (tf - ff =? 2) then castled b (board g') (to_move g) 7 6 5
  else if type_is TT_PIECE_KING p && (tf - ff =? -2) then castled b (board g') (to_move g) 0 2 3
  else if type_is TT_PIECE_PAWN p && negb (tf - ff =? 0) && type_is TT_PIECE_NONE (at_sq b tr tf)
  then took_en_passant b (board g') (to_move g) fr ff tr tf
  else plain_move b (board g') fr ff tr tf.
Proof.
  cbv zeta. repeat case_goal.
  - by eapply (castle_effect g fr ff tr tf g' Hok Hmove 2); [|left].
  - by eapply (castle_effect g fr ff tr tf g' Hok Hmove (-2)); [|right].
  - by apply en_passant_effect.
  - by apply plain_effect.
Qed.

(** 3. exd6 en passant. *)
Definition ep_taken : TTChess :=
  Eval vm_compute in default tt_chess_init (tt_chess_move ep_position 4 4 5 3).

Lemma accepted_move_effect_witness :
  took_en_passant (board ep_position) (board ep_taken) TT_COLOR_WHITE 4 4 5 3.
Proof.
  assert (Hok : chess_ok ep_position)
    by (apply (play_preserves_ok ep_line tt_chess_init); [apply init_ok|vm_compute; reflexivity]).
  exact (accepted_move_effect ep_position 4 4 5 3 ep_taken Hok ltac:(vm_compute; reflexivity)).
Defined.
