(* ===== verification/ChessOutcome.v ===== *)
(** * ChessOutcome: when the engine declares a game over

    Check, mate and stalemate in terms of the rules of [ChessRules], the
    algebraic squares of the wire, and what [tt_chess_move] leaves unchecked. *)
From S2P Require Import Prelude Chess ChessRules ChessMoves ChessInvariant.

(** ** Check *)

(** [c]'s king stands on a square the other side bears on. *)
Definition king_attacked (b : list TTPiece) (c : TTColor) : Prop :=
  exists r f, king_at b c r f /\ attacked b r f (opponent c).

Lemma holds_king b c r f :
  in_bounds r f = true -> holds b r f TT_PIECE_KING c = true <-> king_at b c r f.
Proof.
  intros Hb. rewrite holds_iff. unfold king_at. split.
  - intros [H1 H2]. split; [done|]. rewrite <- H1, <- H2. by destruct (at_sq b r f).
  - intros [_ ->]. done.
Qed.

Lemma find_king_spec b c :
  one_king b ->
  match find_king b c with
  | Some (r, f) => king_at b c r f /\ forall r' f', king_at b c r' f' -> r' = r /\ f' = f
  | None => forall r f, ~ king_at b c r f
  end.
Proof.
  intros Hone. unfold find_king. destruct (List.find _ all_squares) as [[r f]|] eqn:E.
  - apply List.find_some in E as [Hin H]. apply list_elem_of_In, all_squares_in in Hin.
    cbn [fst snd] in H. apply holds_king in H; [|done]. split; [done|].
    intros r' f' H'. by eapply Hone.
  - intros r f Hk. pose proof (proj1 Hk) as Hb.
    assert (Hin : In (r, f) all_squares) by (by apply list_elem_of_In, all_squares_in).
    pose proof (List.find_none _ _ E (r, f) Hin) as H. cbn [fst snd] in H.
    apply (holds_king b c r f Hb) in Hk. congruence.
Qed.

Lemma in_check_spec b c : one_king b -> tt_chess_in_check b c = true <-> king_attacked b c.
Proof.
  intros Hone. unfold tt_chess_in_check, king_attacked. pose proof (find_king_spec b c Hone) as H.
  destruct (find_king b c) as [[r f]|].
  - destruct H as [Hk Hu]. rewrite square_attacked_spec by apply Hk. split; [by exists r, f|].
    intros (r' & f' & Hk' & Ha). by destruct (Hu r' f' Hk') as [-> ->].
  - split; [done|]. intros (r & f & Hk & _). by destruct (H r f).
Qed.

(** The side to move has a move, castling aside, that keeps its king safe. *)
Definition has_safe_move (g : TTChess) : Prop :=
  exists fr ff tr tf, legal_shape g fr ff tr tf /\ goes g (at_sq (board g) fr ff) fr ff tr tf /\
    move_leaves_self_in_check (board g) fr ff tr tf = false.

Lemma has_safe_move_spec g : tt_chess_has_legal_move g (to_move g) = true <-> has_safe_move g.
Proof.
  unfold tt_chess_has_legal_move, has_safe_move. rewrite has_any_legal_move_spec.
  assert (E : g <| to_move := to_move g |> = g) by (by destruct g). by rewrite E.
Qed.

(** ** Mate and stalemate *)

Lemma update_status_spec g mover :
  to_move g = opponent mover ->
  let g' := update_status g mover in
  let check := tt_chess_in_check (board g) (to_move g) in
  let stuck := negb (tt_chess_has_legal_move g (to_move g)) in
  status g' = (if stuck then if check then TT_CHESS_CHECKMATE else TT_CHESS_STALEMATE else status g) /\
  (status g' = TT_CHESS_CHECKMATE -> stuck = true -> winner g' = mover).
Proof.
  intros ->. unfold update_status. cbv zeta.
  destruct (tt_chess_in_check (board g) (opponent mover));
    destruct (negb (tt_chess_has_legal_move g (opponent mover))); cbn; split; done.
Qed.

Lemma has_legal_move_status g st w :
  tt_chess_has_legal_move (g <| status := st |> <| winner := w |>) (to_move g) =
  tt_chess_has_legal_move g (to_move g).
Proof. done. Qed.

Lemma update_status_legal g mover c :
  tt_chess_has_legal_move (update_status g mover) c = tt_chess_has_legal_move g c.
Proof. unfold update_status. by repeat case_goal. Qed.

Lemma apply_move_status g p t fr ff tr tf :
  p_color p = to_move g ->
  let g' := apply_move g p t fr ff tr tf in
  let check := tt_chess_in_check (board g') (to_move g') in
  let stuck := negb (tt_chess_has_legal_move g' (to_move g')) in
  status g' = (if stuck then if check then TT_CHESS_CHECKMATE else TT_CHESS_STALEMATE else status g) /\
  (status g' = TT_CHESS_CHECKMATE -> stuck = true -> winner g' = to_move g).
Proof.
  intros Hp. unfold apply_move. cbv zeta.
  set (g0 := g <| board := _ |> <| ep_file := _ |>).
  destruct (moved_rights_frame g0 p t fr ff tr tf) as (_ & Et & _ & Es & _).
  set (g1 := moved_rights g0 p t fr ff tr tf) in *.
  set (g2 := g1 <| to_move := opponent (to_move g1) |>).
  assert (Hm : to_move g2 = opponent (p_color p)) by (subst g2; cbn; by rewrite Et, Hp).
  destruct (update_status_spec g2 (p_color p) Hm) as [H1 H2].
  destruct (update_status_frame g2 (p_color p)) as (Eb & Em & _).
  rewrite update_status_legal, Eb, Em. rewrite H1. split.
  - change (status g2) with (status g1). by rewrite Es.
  - intros Hs Hst. rewrite <- H1 in Hs. rewrite H2 by done. exact Hp.
Qed.


Definition fools_line : list (Z * Z * Z * Z) := [(1,5,2,5); (6,4,4,4); (1,6,3,6)].
Definition fools_position : TTChess :=
  Eval vm_compute in default tt_chess_init (play tt_chess_init fools_line).
Definition fools_end : TTChess :=
  Eval vm_compute in default tt_chess_init (tt_chess_move fools_position 7 3 3 7).


(** ** What a move does not check *)

(** [tt_chess_move] never tests whether the mover's own king is attacked, so a
    game reaches positions no chess rule allows: after 1. e3 d6 2. Bb5+ the
    engine accepts 2... a6, leaving Black's king attacked, and then accepts
    3. Bxe8, capturing it; the game goes on with no black king and no mate. *)
Theorem king_can_be_captured :
  exists check_line g g1 g2,
    play tt_chess_init check_line = Some g /\ king_attacked (board g) (to_move g) /\
    tt_chess_move g 6 0 5 0 = Some g1 /\ king_attacked (board g1) (to_move g) /\
    tt_chess_move g1 4 1 7 4 = Some g2 /\ status g2 = TT_CHESS_PLAYING /\
    forall r f, ~ king_at (board g2) TT_COLOR_BLACK r f.
Proof.
  set (line := [(1,4,2,4); (6,3,5,3); (0,5,4,1)]).
  destruct (play tt_chess_init line) as [g|] eqn:E; [|vm_compute in E; done].
  pose proof (play_preserves_ok _ _ _ init_ok E) as Hok.
  vm_compute in E. injection E as E.
  destruct (tt_chess_move g 6 0 5 0) as [g1|] eqn:E1; [|subst g; vm_compute in E1; done].
  pose proof (move_preserves_ok _ _ _ _ _ _ Hok E1) as Hok1.
  destruct (tt_chess_move g1 4 1 7 4) as [g2|] eqn:E2;
    [|subst g; vm_compute in E1; injection E1 as <-; vm_compute in E2; done].
  pose proof (move_preserves_ok _ _ _ _ _ _ Hok1 E2) as Hok2.
  exists line, g, g1, g2. rewrite <- !in_check_spec by first [apply Hok|apply Hok1].
  pose proof (find_king_spec (board g2) TT_COLOR_BLACK (ok_kings _ Hok2)) as Hk.
  subst g. vm_compute in E1. injection E1 as <-. vm_compute in E2. injection E2 as <-.
  split_conj; try (vm_compute; reflexivity). exact Hk.
Qed.

(** ** Algebraic squares *)

(** Squares on the wire: formatting then parsing gives the square back, and
    the parser accepts exactly the strings the formatter writes for a square of
    the board. *)
Theorem square_roundtrip s rank file :
  tt_chess_parse_square s = Some (rank, file) <->
  in_bounds rank file = true /\ s = tt_chess_format_square rank file.
Proof.
  rewrite in_bounds_iff. unfold tt_chess_parse_square, tt_chess_format_square. split.
  - destruct s as [|a [|b [|? ?]]]; try done.
    destruct ((a <? 97) || (104 <? a) || (b <? 49) || (56 <? b)) eqn:E; [done|].
    intros [= <- <-]. bool_to_prop. split; [lia|]. f_equal; [lia|]. f_equal. lia.
  - intros [H ->].
    replace ((97 + file <? 97) || (104 <? 97 + file) || (49 + rank <? 49) || (56 <? 49 + rank))
      with false by lia. repeat f_equal; lia.
Qed.
