(* ===== verification/ChessGame.v ===== *)
(** * ChessGame: chess between two friends ([tox_thread.c], chess interop)

    One friend's slot [t->chess[fn]] is an [option TTChessGame].  A handler maps
    the slot and its input to the new slot, the events it queues for the UI and
    the lossless packets it sends.  Whether toxcore takes a packet is the
    parameter [send_ok]; allocation succeeds. *)
From S2P Require Import Prelude Chess ChessRules ChessMoves.

Definition TT_GAME_PACKET_INVITE : Z := 160.
Definition TT_GAME_PACKET_DATA : Z := 161.
Definition TT_GAME_HEADER_SIZE : Z := 6.
Definition TT_GAME_VERSION : Z := 1.
Definition TT_GAME_TYPE_CHESS : Z := 1.
Definition TT_CHESS_PKT_INVITE : Z := 1.
Definition TT_CHESS_PKT_ACCEPT : Z := 2.
Definition TT_CHESS_PKT_MOVE : Z := 254.
Definition TT_CHESS_PKT_RESIGN : Z := 255.

Record TTChessGame := mkGame {
  gboard : TTChess;
  gid : Z;
  self_color : TTColor;
  pending_invite : bool;
  started : bool;
}.

#[export] Instance eta_Game : EtaRecord TTChessGame := fun g =>
  mkGame (gboard g) (gid g) (self_color g) (pending_invite g) (started g).

(** ** Events to the UI *)

Inductive TTEventType := TT_EV_CHESS_INVITE | TT_EV_CHESS_START | TT_EV_CHESS_MOVE | TT_EV_CHESS_END.

Record TTEvent := mkEvent { ev_type : TTEventType; ev_str : option bytes; ev_ival : Z; ev_ival2 : Z }.

(** The string is only copied when [s && len]. *)
Definition push_simple (type : TTEventType) (s : option bytes) (n : Z) (ival : Z) : list TTEvent :=
  [mkEvent type (match s with
                 | Some s => if n =? 0 then None else Some (ztake n s)
                 | None => None end) ival 0].

Definition color_code (c : TTColor) : Z := match c with TT_COLOR_WHITE => 0 | TT_COLOR_BLACK => 1 end.
Definition color_name (c : TTColor) : bytes :=
  match c with TT_COLOR_WHITE => [119; 104; 105; 116; 101] | TT_COLOR_BLACK => [98; 108; 97; 99; 107] end.
Definition start_ival (g : TTChessGame) : Z := if is_white (self_color g) then 1 else 0.

(** ** Packets *)

Definition chess_pack_u32 (v : Z) : bytes := be32 v.
Definition chess_unpack_u32 (a b c d : Z) : Z := rd32 a b c d.

(** The packet [chess_send] builds: the id is written at offset 3 and the
    payload copied at offset [TT_GAME_HEADER_SIZE]. *)
Definition chess_packet (type id : Z) (payload : bytes) : option bytes :=
  if 8 <? len payload then None else
  Some (ztake TT_GAME_HEADER_SIZE ([u8 type; TT_GAME_VERSION; TT_GAME_TYPE_CHESS] ++ chess_pack_u32 id)
          ++ payload).

Record chess_result := mkResult { slot : option TTChessGame; events : list TTEvent; packets : list bytes }.

Definition chess_idle (s : option TTChessGame) : chess_result := mkResult s [] [].

(** [chess_end] on a slot that holds a game. *)
Definition chess_end (s : option TTChessGame) (reason : Z) (we_won : bool) : option TTChessGame * list TTEvent :=
  match s with
  | None => (None, [])
  | Some _ => (None, [mkEvent TT_EV_CHESS_END None reason (if we_won then 1 else 0)])
  end.

(** The end-of-game test after a move, in [chess_rx] and [handle_cmd_chess_move]. *)
Definition end_if_over (g : TTChessGame) : option TTChessGame * list TTEvent :=
  match status (gboard g) with
  | TT_CHESS_CHECKMATE => chess_end (Some g) 0 (bool_decide (winner (gboard g) = self_color g))
  | TT_CHESS_STALEMATE => chess_end (Some g) 1 false
  | _ => (Some g, [])
  end.

(** [calloc]: the all-zero board of a pending invite. *)
Definition zero_board : TTChess :=
  mkChess (replicate 64 no_piece) TT_COLOR_WHITE false false false false 0 TT_CHESS_PLAYING TT_COLOR_WHITE.

(** A two-character C string from wire bytes: it ends at a NUL. *)
Definition c_str2 (a b : Z) : bytes :=
  if a =? 0 then [] else if b =? 0 then [a] else [a; b].

(** ** Receiving *)

Definition chess_rx (s : option TTChessGame) (fn type : Z) (data : bytes) : chess_result :=
  if TT_MAX_FRIENDS <=? fn then chess_idle s else
  match data with
  | [] => chess_idle s
  | pkt :: _ =>
      if type =? TT_GAME_PACKET_INVITE then
        if negb (len data =? 2) || negb (pkt =? TT_CHESS_PKT_INVITE) then chess_idle s else
        let colour := zat data 1 in
        if negb (colour =? 0) && negb (colour =? 1) then chess_idle s else
        match s with
        | Some _ => chess_idle s
        | None =>
            let c := if colour =? 0 then TT_COLOR_WHITE else TT_COLOR_BLACK in
            mkResult (Some (mkGame zero_board 0 c true false))
              (push_simple TT_EV_CHESS_INVITE (Some (color_name c)) 0 0) []
        end
      else if negb (type =? TT_GAME_PACKET_DATA) then chess_idle s else
      match s with
      | None => chess_idle s
      | Some g =>
          if pkt =? TT_CHESS_PKT_ACCEPT then
            if negb (len data =? 1) || pending_invite g || started g then chess_idle s else
            mkResult (Some (g <| started := true |>))
              (push_simple TT_EV_CHESS_START None 0 (start_ival g)) []
          else if pkt =? TT_CHESS_PKT_MOVE then
            if negb (len data =? 5) || negb (started g) then chess_idle s else
            match tt_chess_parse_square (c_str2 (zat data 1) (zat data 2)),
                  tt_chess_parse_square (c_str2 (zat data 3) (zat data 4)) with
            | Some (fr, ff), Some (tr, tf) =>
                if bool_decide (to_move (gboard g) = self_color g) then chess_idle s else
                match tt_chess_move (gboard g) fr ff tr tf with
                | None => chess_idle s
                | Some b =>
                    let '(s', ev) := end_if_over (g <| gboard := b |>) in
                    mkResult s'
                      (push_simple TT_EV_CHESS_MOVE (Some (zsub 1 4 data)) 4 0 ++ ev) []
                end
            | _, _ => chess_idle s
            end
          else if pkt =? TT_CHESS_PKT_RESIGN then
            if negb (len data =? 1) || negb (started g) then chess_idle s else
            let '(s', ev) := chess_end s 2 true in mkResult s' ev []
          else chess_idle s
      end
  end.

(** The chess part of [cb_friend_lossless_packet]: what it hands to
    [chess_rx].  [Fail]: not a chess packet (the tunnel's types are dispatched
    before this point); [Oob]: a read past the end of [data]. *)
Definition chess_dispatch (data : bytes) : outcome (Z * bytes) :=
  if len data <? TT_GAME_HEADER_SIZE then Fail else
  let type := zat data 0 in
  if negb (type =? TT_GAME_PACKET_INVITE) && negb (type =? TT_GAME_PACKET_DATA) then Fail else
  if negb (zat data 1 =? TT_GAME_VERSION) then Fail else
  if negb (zat data 2 =? TT_GAME_TYPE_CHESS) then Fail else
  (* chess_unpack_u32 (data + 3) reads data[3..6] *)
  if len data <? 7 then Oob else
  Ok (type, zdrop TT_GAME_HEADER_SIZE data).

(** ** Commands *)

Section commands.
Variable send_ok : bytes -> bool.

(** [None]: not sent. *)
Definition chess_send (type id : Z) (payload : bytes) : option bytes :=
  match chess_packet type id payload with
  | Some pkt => if send_ok pkt then Some pkt else None
  | None => None
  end.

(** [r]: the random word. *)
Definition handle_cmd_chess_invite (r : Z) (s : option TTChessGame) (fn : Z) : chess_result :=
  if TT_MAX_FRIENDS <=? fn then chess_idle s else
  match s with
  | Some _ => chess_idle s
  | None =>
      let c := if Z.land r 1 =? 0 then TT_COLOR_WHITE else TT_COLOR_BLACK in
      let g := mkGame tt_chess_init (u32 r) c false false in
      match chess_send TT_GAME_PACKET_INVITE (gid g) [TT_CHESS_PKT_INVITE; color_code (opponent c)] with
      | None => chess_idle None
      | Some pkt => mkResult (Some g) [] [pkt]
      end
  end.

Definition handle_cmd_chess_accept (s : option TTChessGame) (fn : Z) : chess_result :=
  if TT_MAX_FRIENDS <=? fn then chess_idle s else
  match s with
  | None => chess_idle s
  | Some g =>
      if negb (pending_invite g) then chess_idle s else
      let g := g <| gboard := tt_chess_init |> <| pending_invite := false |> <| started := true |> in
      match chess_send TT_GAME_PACKET_DATA (gid g) [TT_CHESS_PKT_ACCEPT] with
      | None => chess_idle None
      | Some pkt => mkResult (Some g) (push_simple TT_EV_CHESS_START None 0 (start_ival g)) [pkt]
      end
  end.

Definition handle_cmd_chess_decline (s : option TTChessGame) (fn : Z) : chess_result :=
  if TT_MAX_FRIENDS <=? fn then chess_idle s else
  match s with
  | None => chess_idle s
  | Some g => if negb (pending_invite g) then chess_idle s else chess_idle None
  end.

(** [mv]: the command's C string, [None] for NULL. *)
Definition handle_cmd_chess_move (s : option TTChessGame) (fn : Z) (mv : option bytes) : chess_result :=
  if TT_MAX_FRIENDS <=? fn then chess_idle s else
  match s, mv with
  | Some g, Some mv =>
      if negb (started g) || negb (len mv =? 4) then chess_idle s else
      match tt_chess_parse_square (ztake 2 mv), tt_chess_parse_square (zdrop 2 mv) with
      | Some (fr, ff), Some (tr, tf) =>
          if negb (bool_decide (to_move (gboard g) = self_color g)) then chess_idle s else
          match tt_chess_move (gboard g) fr ff tr tf with
          | None => chess_idle s
          | Some b =>
              let g := g <| gboard := b |> in
              match chess_send TT_GAME_PACKET_DATA (gid g) (TT_CHESS_PKT_MOVE :: mv) with
              | None => let '(s', ev) := chess_end (Some g) 2 false in mkResult s' ev []
              | Some pkt => let '(s', ev) := end_if_over g in mkResult s' ev [pkt]
              end
          end
      | _, _ => chess_idle s
      end
  | _, _ => chess_idle s
  end.

Definition handle_cmd_chess_resign (s : option TTChessGame) (fn : Z) : chess_result :=
  if TT_MAX_FRIENDS <=? fn then chess_idle s else
  match s with
  | None => chess_idle s
  | Some g =>
      if negb (started g) then chess_idle s else
      let '(s', ev) := chess_end s 2 false in
      mkResult s' ev (from_option (fun p => [p]) [] (chess_send TT_GAME_PACKET_DATA (gid g) [TT_CHESS_PKT_RESIGN]))
  end.
End commands.

(** What one side does with a whole packet from the other. *)
Definition chess_receive (s : option TTChessGame) (fn : Z) (data : bytes) : chess_result :=
  match chess_dispatch data with
  | Ok (type, payload) => chess_rx s fn type payload
  | _ => chess_idle s
  end.
