(* ===== verification/ChessPair.v ===== *)
(** * ChessPair: two TkTox clients playing each other

    The two slots and the two lossless (ordered) packet streams between them as
    a step relation; the boards of the two sides never disagree. *)
From stdpp Require Import relations.
From S2P Require Import Prelude Chess ChessRules ChessMoves ChessInvariant ChessOutcome ChessGame.

(** ** The header of a chess packet *)

Lemma chess_packet_some type id payload :
  len payload <= 8 ->
  chess_packet type id payload =
    Some ([u8 type; 1; 1; u8 (Z.shiftr id 24); u8 (Z.shiftr id 16); u8 (Z.shiftr id 8)] ++ payload).
Proof. intros H. unfold chess_packet. by rewrite (proj2 (Z.ltb_ge _ _)) by lia. Qed.

Lemma chess_dispatch_packet type id payload pkt :
  type = TT_GAME_PACKET_INVITE \/ type = TT_GAME_PACKET_DATA -> payload <> [] ->
  chess_packet type id payload = Some pkt ->
  chess_dispatch pkt = Ok (type, payload).
Proof.
  intros Ht Hp H. destruct (decide (len payload <= 8)) as [Hl|Hl].
  2: { unfold chess_packet in H. by rewrite (proj2 (Z.ltb_lt _ _)) in H by lia. }
  rewrite chess_packet_some in H by done. apply (inj Some) in H. subst pkt.
  assert (Hpos : 0 < len payload) by (destruct payload; [done|len_lia]).
  unfold chess_dispatch.
  rewrite !len_app. change (len [u8 type; 1; 1; _; _; _]) with 6.
  rewrite (proj2 (Z.ltb_ge _ TT_GAME_HEADER_SIZE)) by (unfold TT_GAME_HEADER_SIZE; lia).
  rewrite (proj2 (Z.ltb_ge _ 7)) by lia.
  by destruct Ht as [-> | ->].
Qed.

(** What a chess packet's bytes mean to the receiver.  The payload arrives
    whole, but the header constant is one byte short of the header written (a
    type byte, a version, a game type and a four-byte id): the payload
    overwrites the id's last byte, so the id read back is the sender's with its
    low byte replaced by the payload's first. *)
Theorem packet_keeps_payload_not_id type id payload pkt
    (Htype : type = TT_GAME_PACKET_INVITE \/ type = TT_GAME_PACKET_DATA)
    (Hid : is_u32 id) (Hbytes : all_bytes payload) (Hne : payload <> [])
    (Hpkt : chess_packet type id payload = Some pkt) :
  chess_dispatch pkt = Ok (type, payload) /\
  chess_unpack_u32 (zat pkt 3) (zat pkt 4) (zat pkt 5) (zat pkt 6) = id - id mod 256 + zat payload 0.
Proof.
  split; [by eapply chess_dispatch_packet|].
  destruct (decide (len payload <= 8)) as [Hl|Hl].
  2: { unfold chess_packet in Hpkt. by rewrite (proj2 (Z.ltb_lt _ _)) in Hpkt by lia. }
  rewrite chess_packet_some in Hpkt by done. injection Hpkt as <-.
  destruct payload as [|x rest]; [done|]. cbn [app].
  change (zat (x :: rest) 0) with x.
  change (chess_unpack_u32 _ _ _ _) with
    (rd32 (u8 (Z.shiftr id 24)) (u8 (Z.shiftr id 16)) (u8 (Z.shiftr id 8)) x).
  apply Forall_cons in Hbytes as [Hx _].
  pose proof (rd32_be32 id Hid) as E. rewrite rd32_val in E by auto with bytes.
  rewrite rd32_val by (done || auto with bytes).
  assert (u8 id = id mod 256) by done. lia.
Qed.

Lemma packet_keeps_payload_not_id_witness :
  chess_dispatch [161; 1; 1; 18; 52; 86; 2] = Ok (161, [2]) /\
  chess_unpack_u32 18 52 86 2 = 305419896 - 120 + 2.
Proof.
  assert (Hb : all_bytes [2]) by (repeat constructor; done).
  exact (packet_keeps_payload_not_id 161 305419896 [2] [161; 1; 1; 18; 52; 86; 2]
    (or_intror eq_refl) ltac:(split; done) Hb ltac:(done) ltac:(vm_compute; reflexivity)).
Defined.

(** the packet handler reads past the packet exactly when a friend sends a
    bare six-byte chess header: the length guard lets it through and the id is
    then read from bytes 3 to 6. *)
Theorem bare_header_overread data :
  chess_dispatch data = Oob <->
  exists t a b c, data = [t; 1; 1; a; b; c] /\ (t = TT_GAME_PACKET_INVITE \/ t = TT_GAME_PACKET_DATA).
Proof.
  unfold chess_dispatch. split.
  - destruct (len data <? TT_GAME_HEADER_SIZE) eqn:E1; [done|].
    destruct (negb (zat data 0 =? TT_GAME_PACKET_INVITE) && negb (zat data 0 =? TT_GAME_PACKET_DATA)) eqn:E2; [done|].
    destruct (negb (zat data 1 =? TT_GAME_VERSION)) eqn:E3; [done|].
    destruct (negb (zat data 2 =? TT_GAME_TYPE_CHESS)) eqn:E4; [done|].
    destruct (len data <? 7) eqn:E5; [|done]. intros _.
    bool_to_prop. unfold TT_GAME_HEADER_SIZE in *.
    destruct data as [|t [|v [|gt [|a [|b [|c [|? ?]]]]]]]; try (exfalso; len_lia).
    exists t, a, b, c. change (v = TT_GAME_VERSION) in E3. change (gt = TT_GAME_TYPE_CHESS) in E4.
    rewrite E3, E4. split; [done|].
    apply andb_false_iff in E2. rewrite !negb_false_iff, !Z.eqb_eq in E2. exact E2.
  - intros (t & a & b & c & -> & [-> | ->]); reflexivity.
Qed.

(** ** The parser on both sides reads the same move *)

(** What the move command and the received packet agree to play. *)
Definition parse_move (mv : bytes) : option (Z * Z * Z * Z) :=
  match tt_chess_parse_square (ztake 2 mv), tt_chess_parse_square (zdrop 2 mv) with
  | Some (fr, ff), Some (tr, tf) => Some (fr, ff, tr, tf)
  | _, _ => None
  end.

Lemma parse_square_nonzero a b r : tt_chess_parse_square [a; b] = Some r -> a <> 0 /\ b <> 0.
Proof.
  cbn. destruct ((a <? 97) || (104 <? a) || (b <? 49) || (56 <? b)) eqn:E; [done|]. bool_to_prop. lia.
Qed.

Lemma parse_move_inv mv fr ff tr tf :
  len mv = 4 -> parse_move mv = Some (fr, ff, tr, tf) ->
  exists a b c d, mv = [a; b; c; d] /\
    tt_chess_parse_square (c_str2 a b) = Some (fr, ff) /\
    tt_chess_parse_square (c_str2 c d) = Some (tr, tf).
Proof.
  intros Hl H. destruct mv as [|a [|b [|c [|d [|? ?]]]]]; try (exfalso; len_lia).
  exists a, b, c, d. split; [done|]. unfold parse_move in H.
  change (ztake 2 [a; b; c; d]) with [a; b] in H. change (zdrop 2 [a; b; c; d]) with [c; d] in H.
  destruct (tt_chess_parse_square [a; b]) as [[? ?]|] eqn:E1; [|done].
  destruct (tt_chess_parse_square [c; d]) as [[? ?]|] eqn:E2; [|done].
  injection H as <- <- <- <-.
  apply parse_square_nonzero in E1 as Ha. apply parse_square_nonzero in E2 as Hc. unfold c_str2.
  rewrite !(proj2 (Z.eqb_neq _ 0)) by tauto. done.
Qed.

(** ** One exchange *)

(** Two started games of one match, seen from the two sides. *)
Definition facing (a b : TTChessGame) : Prop :=
  started a = true /\ started b = true /\ self_color a = opponent (self_color b).

Definition move_packet (id : Z) (mv : bytes) : bytes :=
  [161; 1; 1; u8 (Z.shiftr id 24); u8 (Z.shiftr id 16); u8 (Z.shiftr id 8); TT_CHESS_PKT_MOVE] ++ mv.

Definition always (_ : bytes) : bool := true.

(** The mover's side: refused, or played and sent. *)
Lemma cmd_move_cases a fn mv :
  handle_cmd_chess_move always (Some a) fn mv = chess_idle (Some a) \/
  exists m fr ff tr tf board',
    mv = Some m /\ len m = 4 /\ parse_move m = Some (fr, ff, tr, tf) /\ started a = true /\
    to_move (gboard a) = self_color a /\ tt_chess_move (gboard a) fr ff tr tf = Some board' /\
    handle_cmd_chess_move always (Some a) fn mv =
      mkResult (end_if_over (a <| gboard := board' |>)).1 (end_if_over (a <| gboard := board' |>)).2
        [move_packet (gid a) m].
Proof.
  unfold handle_cmd_chess_move. destruct (TT_MAX_FRIENDS <=? fn); [by left|].
  destruct mv as [m|]; [|by left].
  destruct (started a) eqn:Hs; [|by left].
  destruct (Z.eqb_spec (len m) 4) as [Hl|]; [|by left]. cbn [negb orb].
  destruct (parse_move m) as [[[[fr ff] tr] tf]|] eqn:Hp; unfold parse_move in Hp.
  2: { left. by destruct (tt_chess_parse_square (ztake 2 m)) as [[? ?]|];
         [destruct (tt_chess_parse_square (zdrop 2 m)) as [[? ?]|]|]. }
  destruct (tt_chess_parse_square (ztake 2 m)) as [[? ?]|] eqn:E1; [|done].
  destruct (tt_chess_parse_square (zdrop 2 m)) as [[? ?]|] eqn:E2; [|done].
  injection Hp as -> -> -> ->.
  destruct (bool_decide_reflect (to_move (gboard a) = self_color a)) as [Ht|]; cbn [negb]; [|by left].
  destruct (tt_chess_move (gboard a) fr ff tr tf) as [board'|] eqn:Em; [|by left].
  right. exists m, fr, ff, tr, tf, board'. split_conj; try done.
  - unfold parse_move. by rewrite E1, E2.
  - unfold chess_send. rewrite chess_packet_some by len_lia.
    cbn [gid set_field]. by destruct (end_if_over _).
Qed.

(** The other side plays what was sent. *)
Lemma receive_move b fn id m fr ff tr tf board' :
  fn < TT_MAX_FRIENDS -> len m = 4 -> parse_move m = Some (fr, ff, tr, tf) -> started b = true ->
  to_move (gboard b) <> self_color b -> tt_chess_move (gboard b) fr ff tr tf = Some board' ->
  chess_receive (Some b) fn (move_packet id m) =
    mkResult (end_if_over (b <| gboard := board' |>)).1
      (push_simple TT_EV_CHESS_MOVE (Some m) 4 0 ++ (end_if_over (b <| gboard := board' |>)).2) [].
Proof.
  intros Hfn Hl Hp Hs Ht Hm.
  destruct (parse_move_inv m fr ff tr tf Hl Hp) as (x & y & z & w & -> & E1 & E2).
  unfold chess_receive.
  rewrite (chess_dispatch_packet TT_GAME_PACKET_DATA id [TT_CHESS_PKT_MOVE; x; y; z; w]);
    [|by right|done|by rewrite chess_packet_some by done].
  unfold chess_rx. rewrite (proj2 (Z.leb_gt _ _)) by lia.
  set (data := [TT_CHESS_PKT_MOVE; x; y; z; w]).
  change (zat data 1) with x. change (zat data 2) with y.
  change (zat data 3) with z. change (zat data 4) with w. rewrite E1, E2, Hs.
  rewrite bool_decide_false by done. rewrite Hm. unfold data. cbn -[end_if_over]. by destruct (end_if_over _).
Qed.

(** How the end-of-game tests of the two sides relate. *)
Inductive ends_agree (a b : TTChessGame) : option TTChessGame * list TTEvent ->
    option TTChessGame * list TTEvent -> Prop :=
| both_go_on : ends_agree a b (Some a, []) (Some b, [])
| mate w : ends_agree a b (None, [mkEvent TT_EV_CHESS_END None 0 w])
             (None, [mkEvent TT_EV_CHESS_END None 0 (1 - w)])
| stalemate : ends_agree a b (None, [mkEvent TT_EV_CHESS_END None 1 0])
                (None, [mkEvent TT_EV_CHESS_END None 1 0]).

Lemma end_if_over_agree a b :
  gboard a = gboard b -> self_color a = opponent (self_color b) ->
  ends_agree a b (end_if_over a) (end_if_over b).
Proof.
  intros Hb Hc. unfold end_if_over. rewrite <- Hb, Hc.
  destruct (status (gboard a)); cbn; try constructor.
  destruct (winner (gboard a)), (self_color b); apply (mate a b 0) || apply (mate a b 1).
Qed.

(** One exchange of a live game.  When two sides face each other on the same
    board, a move command of the side to move is either refused without any
    effect, or played and sent; the other side then accepts that very move from
    the packet, and either both go on with the same board and the turn passed,
    or both tear the game down, one with a won and the other with a lost mate, or both
    with a stalemate. *)
Theorem exchange_agrees a b fnA fnB mv
    (Hfn : fnB < TT_MAX_FRIENDS) (Hface : facing a b) (Hboard : gboard a = gboard b) :
  let ra := handle_cmd_chess_move always (Some a) fnA mv in
  ra = chess_idle (Some a) \/
  exists pkt m a' b',
    mv = Some m /\ packets ra = [pkt] /\ facing a' b' /\ gboard a' = gboard b' /\
    to_move (gboard a') = opponent (to_move (gboard a)) /\
    let rb := chess_receive (Some b) fnB pkt in
    packets rb = [] /\ exists evb,
      events rb = mkEvent TT_EV_CHESS_MOVE (Some m) 0 0 :: evb /\
      ends_agree a' b' (slot ra, events ra) (slot rb, evb).
Proof.
  cbv zeta. destruct Hface as (Hsa & Hsb & Hc).
  destruct (cmd_move_cases a fnA mv) as [H|(m & fr & ff & tr & tf & board' & -> & Hl & Hp & _ & Ht & Hm & ->)];
    [by left|right].
  assert (Htb : to_move (gboard b) <> self_color b)
    by (rewrite <- Hboard, Ht, Hc; by destruct (self_color b)).
  exists (move_packet (gid a) m), m, (a <| gboard := board' |>), (b <| gboard := board' |>).
  rewrite Hboard in Hm. rewrite (receive_move b fnB (gid a) m fr ff tr tf board') by done.
  split_conj; try done.
  - apply move_shape in Hm as [_ ->]. cbn [gboard set_field].
    rewrite Hboard. apply (apply_move_frame (gboard b)).
  - eexists. split.
    { cbn [events]. unfold push_simple. change (4 =? 0) with false. cbn [app].
      rewrite ztake_all by lia. reflexivity. }
    cbn [slot events]. rewrite <- !surjective_pairing. by apply end_if_over_agree.
Qed.

Definition game_of (c : TTColor) : TTChessGame := mkGame tt_chess_init 7 c false true.

Lemma exchange_agrees_witness :
  exists rb, chess_receive (Some (game_of TT_COLOR_BLACK)) 3
      (move_packet 7 [101; 50; 101; 52]) = rb /\
    packets rb = [].
Proof.
  pose proof (exchange_agrees (game_of TT_COLOR_WHITE) (game_of TT_COLOR_BLACK) 5 3
    (Some [101; 50; 101; 52]) eq_refl (conj eq_refl (conj eq_refl eq_refl)) eq_refl) as H.
  destruct H as [H|(pkt & m & a' & b' & Hm & Hp & _ & _ & _ & Hr & _)].
  - apply (f_equal packets) in H. vm_compute in H. done.
  - eexists. split; [reflexivity|].
    assert (E : pkt = move_packet 7 [101; 50; 101; 52]) by (vm_compute in Hp; by injection Hp as <-).
    by rewrite <- E.
Defined.

(** ** The two clients and the streams between them *)

Record pair := mkPair { ga : option TTChessGame; gb : option TTChessGame; qab : list bytes; qba : list bytes }.

(** The same system with the sides' names exchanged. *)
Definition flip (s : pair) : pair := mkPair (gb s) (ga s) (qba s) (qab s).

Section system.
Context (fnA fnB : Z).

(** What A can do: a move or resign command, or taking B's next packet. *)
Inductive a_step (fn : Z) : pair -> pair -> Prop :=
| step_move s mv :
    let r := handle_cmd_chess_move always (ga s) fn mv in
    a_step fn s (mkPair (slot r) (gb s) (qab s ++ packets r) (qba s))
| step_resign s :
    let r := handle_cmd_chess_resign always (ga s) fn in
    a_step fn s (mkPair (slot r) (gb s) (qab s ++ packets r) (qba s))
| step_take s pkt rest :
    qba s = pkt :: rest ->
    let r := chess_receive (ga s) fn pkt in
    a_step fn s (mkPair (slot r) (gb s) (qab s ++ packets r) rest).

Inductive pair_step : pair -> pair -> Prop :=
| step_a s s' : a_step fnA s s' -> pair_step s s'
| step_b s s' : a_step fnB (flip s) (flip s') -> pair_step s s'.
End system.

(** B's slot is behind by the move in flight. *)
Definition ahead (s : pair) : Prop :=
  exists b id m fr ff tr tf board',
    gb s = Some b /\ started b = true /\ qab s = [move_packet id m] /\ qba s = [] /\ len m = 4 /\
    parse_move m = Some (fr, ff, tr, tf) /\ to_move (gboard b) <> self_color b /\
    tt_chess_move (gboard b) fr ff tr tf = Some board' /\
    (ga s = None \/ exists a, ga s = Some a /\ facing a b /\ gboard a = board').

Definition synced (s : pair) : Prop :=
  exists a b, ga s = Some a /\ gb s = Some b /\ facing a b /\ gboard a = gboard b /\
    qab s = [] /\ qba s = [].

Definition data_packet (pkt : bytes) : Prop :=
  match chess_dispatch pkt with Ok (type, _) => type = TT_GAME_PACKET_DATA | _ => True end.

Definition over (s : pair) : Prop :=
  (ga s = None \/ gb s = None) /\ Forall data_packet (qab s) /\ Forall data_packet (qba s).

Definition agreed (s : pair) : Prop := synced s \/ ahead s \/ ahead (flip s) \/ over s.

(** ** The two sides stay agreed *)

Lemma flip_flip s : flip (flip s) = s.
Proof. by destruct s. Qed.

Lemma facing_sym a b : facing a b -> facing b a.
Proof. intros (? & ? & E). unfold facing. rewrite E. by destruct (self_color b). Qed.

Lemma agreed_flip s : agreed s -> agreed (flip s).
Proof.
  intros [(a & b & ? & ? & Hf & ? & ? & ?)|[H|[H|(H & ? & ?)]]].
  - left. exists b, a. split_conj; try done. by apply facing_sym.
  - right; right; left. by rewrite flip_flip.
  - right; left. done.
  - do 3 right. split; [cbn; tauto|by split].
Qed.

Lemma move_packet_data id m : len m = 4 -> data_packet (move_packet id m).
Proof.
  intros H. unfold data_packet.
  rewrite (chess_dispatch_packet TT_GAME_PACKET_DATA id (TT_CHESS_PKT_MOVE :: m)); try done.
  - by right.
  - rewrite chess_packet_some by len_lia. done.
Qed.

Lemma end_if_over_slot g : (end_if_over g).1 = None \/ (end_if_over g).1 = Some g.
Proof. unfold end_if_over. destruct (status (gboard g)); cbn; auto. Qed.

Lemma cmd_move_packets s fn mv : Forall data_packet (packets (handle_cmd_chess_move always s fn mv)).
Proof.
  destruct s as [a|].
  - destruct (cmd_move_cases a fn mv) as [->|(m & fr & ff & tr & tf & b & -> & Hl & _ & _ & _ & _ & ->)];
      cbn; repeat constructor. by apply move_packet_data.
  - unfold handle_cmd_chess_move. destruct (TT_MAX_FRIENDS <=? fn); constructor.
Qed.

Lemma cmd_move_none fn mv : handle_cmd_chess_move always None fn mv = chess_idle None.
Proof. unfold handle_cmd_chess_move. by destruct (TT_MAX_FRIENDS <=? fn). Qed.

Lemma cmd_resign_cases s fn :
  handle_cmd_chess_resign always s fn = chess_idle s \/
  slot (handle_cmd_chess_resign always s fn) = None.
Proof.
  unfold handle_cmd_chess_resign. destruct (TT_MAX_FRIENDS <=? fn); [by left|].
  destruct s as [g|]; [|by left]. destruct (negb (started g)); [by left|by right].
Qed.

Lemma cmd_resign_packets s fn : Forall data_packet (packets (handle_cmd_chess_resign always s fn)).
Proof.
  unfold handle_cmd_chess_resign. destruct (TT_MAX_FRIENDS <=? fn); [constructor|].
  destruct s as [g|]; [|constructor]. destruct (negb (started g)); [constructor|].
  unfold chess_send. rewrite chess_packet_some by done. cbn -[chess_dispatch]. repeat constructor.
Qed.

Lemma receive_no_packets s fn pkt : packets (chess_receive s fn pkt) = [].
Proof.
  unfold chess_receive. destruct (chess_dispatch pkt) as [[type data]| |]; try done.
  unfold chess_rx. cbv zeta.
  repeat match goal with
  | |- context [match ?x with _ => _ end] => destruct x; try done
  end.
Qed.

Lemma receive_none_data fn pkt : data_packet pkt -> chess_receive None fn pkt = chess_idle None.
Proof.
  unfold data_packet, chess_receive. destruct (chess_dispatch pkt) as [[type data]| |]; try done.
  intros ->. unfold chess_rx. destruct (TT_MAX_FRIENDS <=? fn); [done|]. by destruct data.
Qed.

(** A side that is not to move has its move command refused. *)
Lemma cmd_move_not_turn a fn mv :
  to_move (gboard a) <> self_color a ->
  handle_cmd_chess_move always (Some a) fn mv = chess_idle (Some a).
Proof.
  intros Ht. destruct (cmd_move_cases a fn mv) as [H|(m & fr & ff & tr & tf & b & H)]; [done|].
  by destruct H as (_ & _ & _ & _ & ? & _).
Qed.

Lemma behind_turn b fr ff tr tf board' a :
  to_move (gboard b) <> self_color b -> tt_chess_move (gboard b) fr ff tr tf = Some board' ->
  self_color a = opponent (self_color b) -> to_move board' <> self_color a.
Proof.
  intros Ht [_ ->]%move_shape Hc. destruct (apply_move_frame (gboard b)
    (at_sq (board (gboard b)) fr ff) (at_sq (board (gboard b)) tr tf) fr ff tr tf) as (_ & -> & _).
  rewrite Hc. by destruct (to_move (gboard b)), (self_color b).
Qed.

Lemma over_a_step fn s s' : over s -> a_step fn s s' -> over s'.
Proof.
  intros (Hn & H1 & H2) Hstep. destruct Hstep as [s mv r|s r|s pkt rest Hq r]; cbn [ga gb qab qba].
  - split; [|split; [apply Forall_app; by split; [|apply cmd_move_packets]|done]].
    destruct Hn as [Hn|Hn]; [left|by right]. subst r. by rewrite Hn, cmd_move_none.
  - split; [|split; [apply Forall_app; by split; [|apply cmd_resign_packets]|done]].
    destruct Hn as [Hn|Hn]; [left|by right]. subst r. cbn [ga].
    destruct (cmd_resign_cases (ga s) fn) as [->|]; done.
  - rewrite Hq in H2. apply Forall_cons in H2 as [Hp H2].
    subst r. split; [|split; [by rewrite receive_no_packets, app_nil_r|done]].
    destruct Hn as [Hn|Hn]; [left|by right]. cbn [ga]. by rewrite Hn, receive_none_data.
Qed.

Lemma synced_a_step fn s s' : synced s -> a_step fn s s' -> agreed s'.
Proof.
  intros (a & b & Ha & Hb & (Hsa & Hsb & Hc) & Hboard & Hq1 & Hq2) Hstep.
  destruct Hstep as [s mv r|s r|s pkt rest Hq r]; [| |by rewrite Hq2 in Hq].
  - subst r. rewrite Ha, Hb, Hq1, Hq2.
    destruct (cmd_move_cases a fn mv) as [->|(m & fr & ff & tr & tf & board' & -> & Hl & Hp & _ & Ht & Hm & ->)].
    + left. by exists a, b.
    + right; left. rewrite Hboard in Hm.
      exists b, (gid a), m, fr, ff, tr, tf, board'. split_conj; try done.
      * rewrite <- Hboard, Ht, Hc. by destruct (self_color b).
      * cbn. destruct (end_if_over_slot (a <| gboard := board' |>)) as [->| ->]; [by left|right].
        by eexists.
  - subst r. destruct (cmd_resign_cases (ga s) fn) as [->|Hn].
    + left. exists a, b. cbn. by rewrite app_nil_r.
    + do 3 right. split; [by left|]. cbn. rewrite Hq1, Hq2. split; [apply cmd_resign_packets|constructor].
Qed.

Lemma ahead_a_step fn s s' : ahead s -> a_step fn s s' -> agreed s'.
Proof.
  intros (b & id & m & fr & ff & tr & tf & board' & Hb & Hs & Hq1 & Hq2 & Hl & Hp & Ht & Hm & Ha) Hstep.
  destruct Hstep as [s mv r|s r|s pkt rest Hq r]; [| |by rewrite Hq2 in Hq].
  - assert (E : r = chess_idle (ga s)).
    { subst r. destruct Ha as [->|(a & -> & (_ & _ & Hc) & Hga)]; [apply cmd_move_none|].
      apply cmd_move_not_turn. rewrite Hga. by eapply behind_turn. }
    rewrite E. right; left. exists b, id, m, fr, ff, tr, tf, board'. cbn. rewrite app_nil_r. by split_conj.
  - subst r. destruct (cmd_resign_cases (ga s) fn) as [->|Hn].
    + right; left. exists b, id, m, fr, ff, tr, tf, board'. cbn. rewrite app_nil_r. by split_conj.
    + do 3 right. split; [by left|]. cbn. rewrite Hq1, Hq2. split; [|constructor].
      apply Forall_app. split; [repeat constructor; by apply move_packet_data|apply cmd_resign_packets].
Qed.

Lemma behind_a_step fn s s' :
  fn < TT_MAX_FRIENDS -> ahead (flip s) -> a_step fn s s' -> agreed s'.
Proof.
  intros Hfn (a & id & m & fr & ff & tr & tf & board' & Ha & Hs & Hq1 & Hq2 & Hl & Hp & Ht & Hm & Hb) Hstep.
  assert (Hahead : ahead (flip s)) by (by exists a, id, m, fr, ff, tr, tf, board').
  cbn [flip ga gb qab qba] in *. destruct Hstep as [s mv r|s r|s pkt rest Hq r].
  - subst r. rewrite Ha, cmd_move_not_turn by done. right; right; left.
    cbn. rewrite app_nil_r, <- Ha. by destruct s.
  - subst r. destruct (cmd_resign_cases (ga s) fn) as [->|Hn].
    + right; right; left. cbn. rewrite app_nil_r. by destruct s.
    + do 3 right. split; [by left|]. cbn. rewrite Hq1, Hq2. split; [apply cmd_resign_packets|].
      repeat constructor. by apply move_packet_data.
  - subst r. rewrite Hq1 in Hq. injection Hq as <- <-.
    rewrite Ha, (receive_move a fn id m fr ff tr tf board') by done. cbn [slot packets].
    rewrite Hq2. cbn [app].
    destruct (end_if_over_slot (a <| gboard := board' |>)) as [->| ->];
      [do 3 right; split; [by left|by split; constructor]|].
    destruct Hb as [->|(b & -> & (Hsb & _ & Hc) & Hgb)];
      [do 3 right; split; [by right|by split; constructor]|].
    left. exists (a <| gboard := board' |>), b. split_conj; try done. by apply facing_sym.
Qed.

Lemma agreed_a_step fn s s' : fn < TT_MAX_FRIENDS -> agreed s -> a_step fn s s' -> agreed s'.
Proof.
  intros Hfn [H|[H|[H|H]]] Hstep.
  - by eapply synced_a_step.
  - by eapply ahead_a_step.
  - by eapply behind_a_step.
  - do 3 right. by eapply over_a_step.
Qed.

Lemma agreed_reachable fnA fnB s s' :
  fnA < TT_MAX_FRIENDS -> fnB < TT_MAX_FRIENDS ->
  agreed s -> rtc (pair_step fnA fnB) s s' -> agreed s'.
Proof.
  intros HA HB H Hr. induction Hr as [|s1 s2 s3 Hstep _ IH]; [done|]. apply IH.
  destruct Hstep as [s s' Hs|s s' Hs]; [by eapply (agreed_a_step fnA)|].
  rewrite <- (flip_flip s'). apply agreed_flip. eapply (agreed_a_step fnB); [done| |exact Hs].
  by apply agreed_flip.
Qed.

(** ** Starting a match *)

Definition first_packet (r : chess_result) : bytes := default [] (head (packets r)).

(** A invites (random word [r]), B's client receives and accepts, A's client
    receives the answer. *)
Definition match_start (fnA fnB r : Z) : pair :=
  let a0 := handle_cmd_chess_invite always r None fnA in
  let b0 := chess_receive None fnB (first_packet a0) in
  let b1 := handle_cmd_chess_accept always (slot b0) fnB in
  let a1 := chess_receive (slot a0) fnA (first_packet b1) in
  mkPair (slot a1) (slot b1) [] [].

Lemma match_start_synced fnA fnB r :
  fnA < TT_MAX_FRIENDS -> fnB < TT_MAX_FRIENDS -> synced (match_start fnA fnB r).
Proof.
  intros HA HB.
  assert (EA : (TT_MAX_FRIENDS <=? fnA) = false) by (by apply Z.leb_gt).
  assert (EB : (TT_MAX_FRIENDS <=? fnB) = false) by (by apply Z.leb_gt).
  unfold match_start, handle_cmd_chess_invite. rewrite EA. unfold chess_send.
  rewrite chess_packet_some by done. cbn [always].
  generalize (Z.land r 1 =? 0) as white. cbn [gid]. generalize (u32 r) as id. intros id white.
  generalize (u8 (Z.shiftr id 24)) (u8 (Z.shiftr id 16)) (u8 (Z.shiftr id 8)). intros x y z.
  unfold chess_receive, chess_rx, handle_cmd_chess_accept. rewrite EA, EB.
  unfold synced, facing.
  destruct white; do 2 eexists; split_conj; vm_compute; reflexivity.
Qed.

(** C14: two TkTox clients that start a match through invite and accept never
    disagree about it.  Whatever moves and resignations the two users command,
    and however the two ordered packet streams are delivered between them, while
    both sides still hold the game they play opposite colours and either see the
    same board with nothing in flight, or exactly one move is in flight and
    taking it brings the side behind to the other's board (or ends its game). *)
Theorem boards_never_disagree fnA fnB r s a b
    (HA : fnA < TT_MAX_FRIENDS) (HB : fnB < TT_MAX_FRIENDS)
    (Hreach : rtc (pair_step fnA fnB) (match_start fnA fnB r) s)
    (Ha : ga s = Some a) (Hb : gb s = Some b) :
  facing a b /\
  ((gboard a = gboard b /\ qab s = [] /\ qba s = []) \/
   (exists pkt, qab s = [pkt] /\ qba s = [] /\
      from_option gboard (gboard a) (slot (chess_receive (Some b) fnB pkt)) = gboard a) \/
   (exists pkt, qba s = [pkt] /\ qab s = [] /\
      from_option gboard (gboard b) (slot (chess_receive (Some a) fnA pkt)) = gboard b)).
Proof.
  pose proof (agreed_reachable fnA fnB _ s HA HB (or_introl (match_start_synced fnA fnB r HA HB)) Hreach)
    as [(a' & b' & E1 & E2 & Hf & Hbd & Hq1 & Hq2)|[H|[H|([E|E] & _)]]]; [|..|congruence|congruence].
  - rewrite Ha in E1. rewrite Hb in E2. injection E1 as ->. injection E2 as ->. auto.
  - destruct H as (b' & id & m & fr & ff & tr & tf & bd & E2 & Hs & Hq1 & Hq2 & Hl & Hp & Ht & Hm & [E|(a' & E1 & Hf & Hbd)]);
      [congruence|]. rewrite Ha in E1. rewrite Hb in E2. injection E1 as ->. injection E2 as ->.
    split; [done|]. right; left. exists (move_packet id m). split_conj; [done|done|].
    rewrite (receive_move b' fnB id m fr ff tr tf bd) by done. cbn [slot].
    by destruct (end_if_over_slot (b' <| gboard := bd |>)) as [->| ->].
  - destruct H as (a' & id & m & fr & ff & tr & tf & bd & E2 & Hs & Hq1 & Hq2 & Hl & Hp & Ht & Hm & [E|(b' & E1 & Hf & Hbd)]);
      cbn [flip ga gb qab qba] in *; [congruence|].
    rewrite Hb in E1. rewrite Ha in E2. injection E1 as ->. injection E2 as ->.
    split; [by apply facing_sym|]. right; right. exists (move_packet id m). split_conj; [done|done|].
    rewrite (receive_move a' fnA id m fr ff tr tf bd) by done. cbn [slot].
    by destruct (end_if_over_slot (a' <| gboard := bd |>)) as [->| ->].
Qed.

(** White (side A) plays e4; Black has not read it yet. *)
Definition e4_sent : pair :=
  let s := match_start 4 9 0 in
  let r := handle_cmd_chess_move always (ga s) 4 (Some [101; 50; 101; 52]) in
  mkPair (slot r) (gb s) (qab s ++ packets r) (qba s).
Definition e4_a : TTChessGame := Eval vm_compute in default (game_of TT_COLOR_WHITE) (ga e4_sent).
Definition e4_b : TTChessGame := Eval vm_compute in default (game_of TT_COLOR_WHITE) (gb e4_sent).

Lemma boards_never_disagree_witness : facing e4_a e4_b.
Proof.
  refine (proj1 (boards_never_disagree 4 9 0 e4_sent e4_a e4_b eq_refl eq_refl _ _ _)).
  - apply rtc_once, step_a. apply (step_move 4).
  - vm_compute. reflexivity.
  - vm_compute. reflexivity.
Defined.

(** ** What the protocol leaves hanging *)

(** declining tells the inviter nothing: after a declined invitation the
    inviter still holds the unanswered game, so it neither can invite that
    friend again nor hears the friend's own invitations, and the invitation
    event never carries the colour the invitee is to play. *)
Theorem declined_invite_blocks fnA fnB r send_ok (c : Z)
    (HA : fnA < TT_MAX_FRIENDS) (HB : fnB < TT_MAX_FRIENDS) :
  let a0 := handle_cmd_chess_invite always r None fnA in
  let b0 := chess_receive None fnB (first_packet a0) in
  events b0 = [mkEvent TT_EV_CHESS_INVITE None 0 0] /\
  handle_cmd_chess_decline (slot b0) fnB = chess_idle None /\
  (forall r', handle_cmd_chess_invite send_ok r' (slot a0) fnA = chess_idle (slot a0)) /\
  chess_rx (slot a0) fnA TT_GAME_PACKET_INVITE [TT_CHESS_PKT_INVITE; c] = chess_idle (slot a0).
Proof.
  assert (EA : (TT_MAX_FRIENDS <=? fnA) = false) by (by apply Z.leb_gt).
  assert (EB : (TT_MAX_FRIENDS <=? fnB) = false) by (by apply Z.leb_gt).
  cbv zeta. unfold handle_cmd_chess_invite. rewrite EA. unfold chess_send.
  rewrite chess_packet_some by done. cbn [always].
  generalize (Z.land r 1 =? 0) as white. cbn [gid]. generalize (u32 r) as id. intros id white.
  generalize (u8 (Z.shiftr id 24)) (u8 (Z.shiftr id 16)) (u8 (Z.shiftr id 8)). intros x y z.
  unfold chess_receive, chess_rx, handle_cmd_chess_decline. rewrite EA, EB.
  split; [by destruct white; vm_compute|].
  split; [by destruct white; vm_compute|]. split; [done|].
  cbn [slot]. change (TT_GAME_PACKET_INVITE =? TT_GAME_PACKET_INVITE) with true.
  change (negb (len [TT_CHESS_PKT_INVITE; c] =? 2) || negb (TT_CHESS_PKT_INVITE =? TT_CHESS_PKT_INVITE)) with false.
  by destruct (negb (zat [TT_CHESS_PKT_INVITE; c] 1 =? 0) && _).
Qed.

Lemma declined_invite_blocks_witness :
  handle_cmd_chess_invite always 5 (slot (handle_cmd_chess_invite always 2 None 4)) 4 =
  chess_idle (slot (handle_cmd_chess_invite always 2 None 4)).
Proof. exact (proj1 (proj2 (proj2 (declined_invite_blocks 4 9 2 always 0 eq_refl eq_refl))) 5). Defined.
