(* ===== verification/Sidecar.v ===== *)
(** * Sidecar: the encrypted files beside the profile

    [<profile>.oq], [.rsum], [.hist] and [.ses] are written and read by the same
    code, copied into [offline_queue.c], [resume.c], [history.c] and
    [session_store.c]: plaintext to a temporary file, encryption with
    toxencryptsave, rename over the old file; and back, decrypting in place
    and accepting a plaintext file.  toxencryptsave is the class [PassKey]; the
    file operations themselves succeed. *)
From S2P Require Import Prelude CText.

(** ** toxencryptsave *)

Class PassKey := {
  Key : Type;
  EXTRA : Z;  (** [TOX_PASS_ENCRYPTION_EXTRA_LENGTH] *)
  pk_encrypt : Key -> bytes -> bytes -> option bytes;  (** key, fresh nonce, plaintext *)
  pk_decrypt : Key -> bytes -> option bytes;
  is_data_encrypted : bytes -> bool;
}.

(** Documented behaviour of toxencryptsave. *)
Class PassKeyLaws (K : PassKey) : Prop := {
  extra_magic : 8 <= EXTRA;
  encrypt_spec k n pt ct : pk_encrypt k n pt = Some ct ->
    len ct = len pt + EXTRA /\ is_data_encrypted ct = true /\ pk_decrypt k ct = Some pt;
  encrypted_magic d : is_data_encrypted d = true -> ztake 8 d = ascii_bytes "toxEsave";
}.

Section sidecar.
Context {K : PassKey}.

(** ** Writing

    [old] is the file before; the result is the file after and whether it was
    replaced.  [limit] is the size limit of the re-read plaintext. *)
Definition sidecar_save (limit : Z) (key : option Key) (nonce : bytes) (old : option bytes)
    (pt : bytes) : option bytes * bool :=
  match key with
  | None => (Some pt, true)
  | Some k =>
      if (len pt <=? 0) || (limit <? len pt) then (old, false) else
      match pk_encrypt k nonce pt with
      | Some ct => (Some ct, true)
      | None => (old, false)
      end
  end.

(** ** Reading *)

(** In-place decryption: the buffer afterwards and the plaintext's length. *)
Definition sidecar_decrypt (buf : bytes) (key : option Key) : option (bytes * Z) :=
  if len buf <? EXTRA then Some (buf, len buf) else
  if negb (is_data_encrypted buf) then Some (buf, len buf) else
  match key with
  | None => None
  | Some k =>
      match pk_decrypt k buf with
      | Some pt => Some (overwrite pt buf, len buf - EXTRA)
      | None => None
      end
  end.

(** The file read and decrypted: [None] when there is nothing to parse. *)
Definition sidecar_load (limit : Z) (key : option Key) (file : option bytes) : option (bytes * Z) :=
  match file with
  | None => None
  | Some f => if (len f <=? 0) || (limit <? len f) then None else sidecar_decrypt f key
  end.

(** ** What was saved is what is parsed *)

Context {L : PassKeyLaws K}.

(** The file does not look like a toxencryptsave blob. *)
Definition plain_start (pt : bytes) : Prop := ztake 8 pt <> ascii_bytes "toxEsave".

Lemma sidecar_load_plain limit key pt :
  0 < len pt <= limit -> plain_start pt -> sidecar_load limit key (Some pt) = Some (pt, len pt).
Proof.
  intros Hl Hp. unfold sidecar_load, sidecar_decrypt.
  replace ((len pt <=? 0) || (limit <? len pt)) with false by lia.
  destruct (len pt <? EXTRA); [done|].
  destruct (is_data_encrypted pt) eqn:E; [|done]. by apply encrypted_magic in E.
Qed.

Lemma sidecar_roundtrip limit key nonce old pt file :
  sidecar_save limit key nonce old pt = (file, true) ->
  0 < len pt -> len pt + EXTRA <= limit -> plain_start pt ->
  exists tail, sidecar_load limit key file = Some (pt ++ tail, len pt).
Proof.
  intros H Hpos Hlim Hplain. pose proof extra_magic. unfold sidecar_save in H.
  destruct key as [k|].
  - replace ((len pt <=? 0) || (limit <? len pt)) with false in H by lia.
    destruct (pk_encrypt k nonce pt) as [ct|] eqn:E; [|done]. injection H as <-.
    apply encrypt_spec in E as (Hlen & Henc & Hdec).
    unfold sidecar_load, sidecar_decrypt.
    replace ((len ct <=? 0) || (limit <? len ct)) with false by lia.
    replace (len ct <? EXTRA) with false by lia.
    rewrite Henc, Hdec. cbn [negb]. exists (zdrop (len pt) ct). do 2 f_equal. lia.
  - injection H as <-. exists []. rewrite app_nil_r. apply sidecar_load_plain; [lia|done].
Qed.
End sidecar.

(** ** A concrete toxencryptsave, for examples *)

Definition sample_pass : PassKey := {|
  Key := Z;
  EXTRA := 80;
  pk_encrypt k n pt := Some (ascii_bytes "toxEsave" ++ zrep 71 0 ++ [k] ++ pt);
  pk_decrypt k ct := if zat ct 79 =? k then Some (zdrop 80 ct) else None;
  is_data_encrypted d := bytes_eqb (ztake 8 d) (ascii_bytes "toxEsave") |}.

Lemma sample_pass_laws : PassKeyLaws sample_pass.
Proof.
  split.
  - done.
  - cbn. intros k n pt ct [= <-]. split_conj.
    + rewrite !len_cons. lia.
    + done.
    + change (zat _ 79) with k. by rewrite Z.eqb_refl.
  - cbn. intros d H. by apply bytes_eqb_eq in H.
Qed.
