(* ===== verification/OfflineQueue.v ===== *)
(** * OfflineQueue: messages for friends that are offline ([src/offline_queue.c])

    A ring of 64 C strings per friend, persisted in [<profile>.oq].  A stored
    text is the list of its characters before the NUL. *)
From S2P Require Import Prelude Ring CText Sidecar.

Definition TT_OQ_MAX_PER_FRIEND : nat := 64.
Definition TOX_MAX_MESSAGE_LENGTH : Z := 1372.
Definition TT_OQ_MAX_LINE : Z := TOX_MAX_MESSAGE_LENGTH + 1.
Definition OQ_FRIENDS : Z := 256.
Definition OQ_MAX_FILE : Z := 4 * 1024 * 1024.
Definition TT_OQ_MAGIC : bytes := ascii_bytes "TTOQ1".

(** [msgs] is [None] until the first message (the NULL pointer). *)
Record TTOqFriend := mkOqFriend { msgs : option (list bytes); oq_head : nat; oq_count : nat }.

Definition no_friend : TTOqFriend := mkOqFriend None 0 0.

(** [f[256]] *)
Abbreviation TTOfflineQueue := (list TTOqFriend).
Definition oq_init : TTOfflineQueue := replicate (Z.to_nat OQ_FRIENDS) no_friend.
Definition oq_friend (q : TTOfflineQueue) (fn : Z) : TTOqFriend := default no_friend (q !! Z.to_nat fn).
Definition oq_set (q : TTOfflineQueue) (fn : Z) (fr : TTOqFriend) : TTOfflineQueue := <[Z.to_nat fn := fr]> q.

(** ** Operations *)

(** [text]: the C string's bytes, [None] for NULL.  Returns the count too. *)
Definition tt_oq_add (q : TTOfflineQueue) (fn : Z) (text : option bytes) : TTOfflineQueue * nat :=
  match text with
  | None => (q, 0%nat)
  | Some text =>
      if (OQ_FRIENDS <=? fn) || (len (cstr text) =? 0) then (q, 0%nat) else
      let fr := oq_friend q fn in
      let m := default (replicate TT_OQ_MAX_PER_FRIEND []) (msgs fr) in
      let '(head, count) :=
        if (oq_count fr =? TT_OQ_MAX_PER_FRIEND)%nat
        then ((oq_head fr + 1) mod TT_OQ_MAX_PER_FRIEND, oq_count fr - 1)%nat
        else (oq_head fr, oq_count fr) in
      let i := ((head + count) mod TT_OQ_MAX_PER_FRIEND)%nat in
      let fr := mkOqFriend (Some (<[i := snprintf_s TT_OQ_MAX_LINE text]> m)) head (S count) in
      (oq_set q fn fr, S count)
  end.

(** The loop of [tt_oq_take_all]: [while (fr->count > 0)]. *)
Fixpoint take_loop (m : list bytes) (head count : nat) : list bytes * nat :=
  match count with
  | O => ([], head)
  | S count =>
      let t := snprintf_s TT_OQ_MAX_LINE (default [] (m !! head)) in
      let '(l, head) := take_loop m ((head + 1) mod TT_OQ_MAX_PER_FRIEND) count in
      (t :: l, head)
  end.

Definition tt_oq_take_all (q : TTOfflineQueue) (fn : Z) : TTOfflineQueue * list bytes :=
  if OQ_FRIENDS <=? fn then (q, []) else
  let fr := oq_friend q fn in
  match msgs fr with
  | None => (q, [])
  | Some m =>
      let '(out, head) := take_loop m (oq_head fr) (oq_count fr) in
      (oq_set q fn (mkOqFriend (Some m) head 0), out)
  end.

Definition tt_oq_count (q : TTOfflineQueue) (fn : Z) : nat :=
  if OQ_FRIENDS <=? fn then 0%nat else oq_count (oq_friend q fn).

(** ** The file *)

(** The live messages of a friend, oldest first. *)
Definition friend_items (fr : TTOqFriend) : list bytes :=
  match msgs fr with
  | None => []
  | Some m => ring_view [] TT_OQ_MAX_PER_FRIEND m (oq_head fr) (oq_count fr)
  end.

Definition save_msg (fn : Z) (text : bytes) : bytes :=
  if len text =? 0 then [] else print2 fn (len text) ++ text.

Definition save_friend (fn : Z) (fr : TTOqFriend) : bytes :=
  concat (save_msg fn <$> friend_items fr).

Fixpoint save_friends (fn : Z) (q : TTOfflineQueue) : bytes :=
  match q with
  | [] => []
  | fr :: q => save_friend fn fr ++ save_friends (fn + 1) q
  end.

Definition oq_plaintext (q : TTOfflineQueue) : bytes := TT_OQ_MAGIC ++ save_friends 0 q.

(** One entry at offset [off] of the buffer; [None] ends the loop. *)
Definition load_entry (buf : bytes) (pt_len off : Z) : outcome (option (Z * bytes * Z)) :=
  if negb (bytes_eqb (zsub off 5 buf) TT_OQ_MAGIC) then Ok None else
  let off := off + 5 in
  match sscanf2n 32 32 (zdrop off buf) with
  | Oob => Oob
  | Fail => Ok None
  | Ok (fn, ln, n) =>
      if (256 <=? fn) || (ln =? 0) || (TOX_MAX_MESSAGE_LENGTH <? ln) then Ok None else
      let off := off + n in
      if (pt_len <=? off) || negb (zat buf off =? 10) then Ok None else
      let off := off + 1 in
      if pt_len <? off + ln then Ok None else
      Ok (Some (fn, zsub off ln buf, off + ln))
  end.

Fixpoint load_loop (fuel : nat) (q : TTOfflineQueue) (buf : bytes) (pt_len off : Z)
    : outcome TTOfflineQueue :=
  match fuel with
  | O => Ok q
  | S fuel =>
      if negb (off + 5 <=? pt_len) then Ok q else
      match load_entry buf pt_len off with
      | Ok (Some (fn, text, off)) => load_loop fuel (tt_oq_add q fn (Some text)).1 buf pt_len off
      | Ok None => Ok q
      | Fail => Fail
      | Oob => Oob
      end
  end.

Section file.
Context {K : PassKey}.

Definition tt_oq_save (q : TTOfflineQueue) (key : option Key) (nonce : bytes) (old : option bytes)
    : option bytes :=
  (sidecar_save OQ_MAX_FILE key nonce old (oq_plaintext q)).1.

(** Every entry takes at least five bytes: [len buf] rounds are enough. *)
Definition tt_oq_load (q : TTOfflineQueue) (key : option Key) (file : option bytes)
    : outcome TTOfflineQueue :=
  match sidecar_load OQ_MAX_FILE key file with
  | None => Ok q
  | Some (buf, pt_len) => load_loop (S (length buf)) q buf pt_len 0
  end.
End file.

(** ** The queue as lists *)

Definition friend_wf (fr : TTOqFriend) : Prop :=
  match msgs fr with
  | None => oq_count fr = 0%nat
  | Some m => ring_wf TT_OQ_MAX_PER_FRIEND m (oq_head fr) (oq_count fr)
  end /\
  (oq_head fr < TT_OQ_MAX_PER_FRIEND)%nat /\
  Forall (fun t => 0 < len t < TT_OQ_MAX_LINE /\ ~ In 0 t) (friend_items fr).

Definition oq_wf (q : TTOfflineQueue) : Prop :=
  length q = Z.to_nat OQ_FRIENDS /\ Forall friend_wf q.

(** What is queued for [fn]. *)
Definition queued (q : TTOfflineQueue) (fn : Z) : list bytes :=
  if OQ_FRIENDS <=? fn then [] else friend_items (oq_friend q fn).

Lemma no_friend_wf : friend_wf no_friend.
Proof. split; [done|]. split; [|constructor]. apply Nat.ltb_lt. reflexivity. Qed.

Lemma oq_init_wf : oq_wf oq_init.
Proof. split; [done|]. apply Forall_replicate, no_friend_wf. Qed.

Lemma oq_friend_wf q fn : oq_wf q -> friend_wf (oq_friend q fn).
Proof.
  intros [_ H]. unfold oq_friend. destruct (q !! Z.to_nat fn) eqn:E; cbn.
  - by eapply Forall_lookup_1.
  - apply no_friend_wf.
Qed.

Lemma oq_friend_set q fn fn' fr :
  oq_wf q -> 0 <= fn < OQ_FRIENDS -> 0 <= fn' ->
  oq_friend (oq_set q fn fr) fn' = if fn' =? fn then fr else oq_friend q fn'.
Proof.
  intros [Hl _] Hfn Hfn'. unfold oq_friend, oq_set. destruct (Z.eqb_spec fn' fn) as [->|Hne].
  - rewrite list_lookup_insert_eq; [done|]. rewrite Hl. lia.
  - rewrite list_lookup_insert_ne; [done|lia].
Qed.

Lemma oq_set_wf q fn fr : oq_wf q -> friend_wf fr -> oq_wf (oq_set q fn fr).
Proof.
  intros [Hl Hf] Hfr. split; [unfold oq_set; by rewrite length_insert|]. by apply Forall_insert.
Qed.

Lemma snprintf_s_idem cap t : len t < cap -> ~ In 0 t -> snprintf_s cap t = t.
Proof. intros Hl Hn. unfold snprintf_s. rewrite cstr_no_nul by done. apply ztake_all. lia. Qed.

Lemma snprintf_s_stored cap t :
  1 < cap -> 0 < len (cstr t) -> 0 < len (snprintf_s cap t) < cap /\ ~ In 0 (snprintf_s cap t).
Proof.
  intros Hc Ht. unfold snprintf_s. split.
  - unfold ztake, len in *. rewrite length_take. lia.
  - intros H. apply (cstr_in t). unfold ztake in H.
    rewrite <- (take_drop (Z.to_nat (cap - 1)) (cstr t)). apply in_or_app. by left.
Qed.

(** ** The operations on the lists *)

Lemma add_ring (m : list bytes) head count x :
  ring_wf TT_OQ_MAX_PER_FRIEND m head count ->
  let '(head', count') :=
    if (count =? TT_OQ_MAX_PER_FRIEND)%nat
    then ((head + 1) mod TT_OQ_MAX_PER_FRIEND, count - 1)%nat else (head, count) in
  let m' := <[((head' + count') mod TT_OQ_MAX_PER_FRIEND)%nat := x]> m in
  ring_wf TT_OQ_MAX_PER_FRIEND m' head' (S count') /\
  ring_view [] TT_OQ_MAX_PER_FRIEND m' head' (S count') =
    lastn TT_OQ_MAX_PER_FRIEND (ring_view [] TT_OQ_MAX_PER_FRIEND m head count ++ [x]).
Proof.
  intros Hwf. pose proof Hwf as (Hl & Hh & Hc).
  destruct (Nat.eqb_spec count TT_OQ_MAX_PER_FRIEND) as [->|Hne].
  - assert (Hwf' : ring_wf TT_OQ_MAX_PER_FRIEND m ((head + 1) mod TT_OQ_MAX_PER_FRIEND) 63).
    { unfold ring_wf; split_conj; [done|by apply Nat.mod_upper_bound|]. apply Nat.leb_le. reflexivity. }
    change (TT_OQ_MAX_PER_FRIEND - 1)%nat with 63%nat. split.
    + unfold ring_wf; split_conj; [by rewrite length_insert|apply Hwf'|]. apply Nat.leb_le. reflexivity.
    + pose proof (ring_view_push [] TT_OQ_MAX_PER_FRIEND m _ 63 x Hwf') as Hpush.
      unfold ring_idx in Hpush. rewrite Hpush by (apply Nat.ltb_lt; reflexivity).
      pose proof (ring_view_pop [] TT_OQ_MAX_PER_FRIEND m head 63 (default [] (m !! ring_idx TT_OQ_MAX_PER_FRIEND head 0)) Hwf) as Hp.
      rewrite list_insert_id in Hp.
      2: { destruct (lookup_lt_is_Some_2 m (ring_idx TT_OQ_MAX_PER_FRIEND head 0)) as [y ->]; [|done].
           rewrite Hl. by apply ring_idx_lt. }
      rewrite Hp. unfold lastn. rewrite length_app, ring_view_length. cbn [length].
      change (S 63 + 1 - TT_OQ_MAX_PER_FRIEND)%nat with 1%nat.
      symmetry. apply drop_app_le. rewrite ring_view_length. apply Nat.leb_le. reflexivity.
  - split.
    + unfold ring_wf; split_conj; [by rewrite length_insert|done|lia].
    + pose proof (ring_view_push [] TT_OQ_MAX_PER_FRIEND m head count x Hwf) as Hpush.
      unfold ring_idx in Hpush. rewrite Hpush by lia.
      rewrite lastn_all; [done|]. rewrite length_app, ring_view_length. cbn [length]. lia.
Qed.

Lemma tt_oq_add_spec q fn text :
  oq_wf q -> 0 <= fn < OQ_FRIENDS -> 0 < len (cstr text) ->
  let q' := (tt_oq_add q fn (Some text)).1 in
  oq_wf q' /\
  (tt_oq_add q fn (Some text)).2 = length (queued q' fn) /\
  queued q' fn = lastn TT_OQ_MAX_PER_FRIEND (queued q fn ++ [snprintf_s TT_OQ_MAX_LINE text]) /\
  (forall fn', 0 <= fn' -> fn' <> fn -> queued q' fn' = queued q fn').
Proof.
  intros Hwf Hfn Ht. pose proof (oq_friend_wf q fn Hwf) as (Hring & Hhead & Htexts).
  unfold tt_oq_add. replace ((OQ_FRIENDS <=? fn) || (len (cstr text) =? 0)) with false by lia.
  set (fr := oq_friend q fn) in *. set (x := snprintf_s TT_OQ_MAX_LINE text).
  set (m := default (replicate TT_OQ_MAX_PER_FRIEND []) (msgs fr)).
  assert (Hm : ring_wf TT_OQ_MAX_PER_FRIEND m (oq_head fr) (oq_count fr) /\
               friend_items fr = ring_view [] TT_OQ_MAX_PER_FRIEND m (oq_head fr) (oq_count fr)).
  { subst m. unfold friend_items. destruct (msgs fr) as [m|]; [done|]. cbn [default from_option id].
    rewrite Hring. split; [|done]. unfold ring_wf; split_conj; [by rewrite length_replicate|done|lia]. }
  destruct Hm as [Hm Hitems]. pose proof (add_ring m (oq_head fr) (oq_count fr) x Hm) as Hadd.
  destruct (if (oq_count fr =? TT_OQ_MAX_PER_FRIEND)%nat then _ else _) as [head' count'].
  cbv zeta in Hadd. destruct Hadd as [Hwf' Hview]. cbn [fst snd].
  set (fr' := mkOqFriend (Some _) head' (S count')).
  assert (Hfr' : friend_items fr' = lastn TT_OQ_MAX_PER_FRIEND (friend_items fr ++ [x]))
    by (unfold friend_items at 1; cbn [msgs fr' oq_head oq_count]; by rewrite Hview, <- Hitems).
  assert (Hq : forall fn', 0 <= fn' ->
    queued (oq_set q fn fr') fn' = if fn' =? fn then friend_items fr' else queued q fn').
  { intros fn' Hfn'. unfold queued. rewrite oq_friend_set by done.
    destruct (Z.eqb_spec fn' fn) as [->|]; [|done]. by replace (OQ_FRIENDS <=? fn) with false by lia. }
  split_conj.
  - apply oq_set_wf; [done|]. split; [exact Hwf'|]. split; [apply Hwf'|]. rewrite Hfr'.
    apply Forall_drop, Forall_app. split; [done|]. constructor; [|constructor].
    by apply snprintf_s_stored.
  - rewrite Hq, Z.eqb_refl by lia. unfold friend_items. cbn [msgs fr' oq_head oq_count].
    by rewrite ring_view_length.
  - rewrite Hq, Z.eqb_refl, Hfr' by lia. unfold queued.
    by replace (OQ_FRIENDS <=? fn) with false by lia.
  - intros fn' Hfn' Hne. rewrite Hq by done. by rewrite (proj2 (Z.eqb_neq fn' fn)).
Qed.

Lemma ring_view_cons (m : list bytes) head count :
  ring_view [] TT_OQ_MAX_PER_FRIEND m head (S count) =
  ring_at [] TT_OQ_MAX_PER_FRIEND m head 0 ::
    ring_view [] TT_OQ_MAX_PER_FRIEND m ((head + 1) mod TT_OQ_MAX_PER_FRIEND) count.
Proof.
  unfold ring_view. cbn [seq fmap list_fmap]. f_equal.
  rewrite <- (fmap_S_seq 0 count), <- list_fmap_compose.
  apply list_fmap_ext. intros _ i _. unfold compose, ring_at, ring_idx.
  assert (E : ((head + S i) mod TT_OQ_MAX_PER_FRIEND =
    ((head + 1) mod TT_OQ_MAX_PER_FRIEND + i) mod TT_OQ_MAX_PER_FRIEND)%nat).
  { rewrite Nat.Div0.add_mod_idemp_l. f_equal. lia. }
  by rewrite E.
Qed.

Lemma take_loop_spec m count : forall head,
  (head < TT_OQ_MAX_PER_FRIEND)%nat ->
  Forall (fun t => 0 < len t < TT_OQ_MAX_LINE /\ ~ In 0 t)
    (ring_view [] TT_OQ_MAX_PER_FRIEND m head count) ->
  (take_loop m head count).1 = ring_view [] TT_OQ_MAX_PER_FRIEND m head count /\
  ((take_loop m head count).2 < TT_OQ_MAX_PER_FRIEND)%nat.
Proof.
  induction count as [|count IH]; intros head Hh Ht; [done|]. cbn [take_loop].
  rewrite ring_view_cons in Ht |- *. apply Forall_cons in Ht as [[Hl Hn] Ht].
  destruct (IH ((head + 1) mod TT_OQ_MAX_PER_FRIEND)%nat ltac:(by apply Nat.mod_upper_bound) Ht) as [E1 E2].
  destruct (take_loop m ((head + 1) mod TT_OQ_MAX_PER_FRIEND) count) as [l head'].
  cbn [fst snd] in *. split; [|done]. rewrite E1. f_equal.
  assert (E : default [] (m !! head) = ring_at [] TT_OQ_MAX_PER_FRIEND m head 0).
  { unfold ring_at, ring_idx. by rewrite Nat.add_0_r, Nat.mod_small. }
  rewrite E. apply snprintf_s_idem; [lia|done].
Qed.

Lemma tt_oq_take_all_spec q fn :
  oq_wf q -> 0 <= fn ->
  let '(q', out) := tt_oq_take_all q fn in
  oq_wf q' /\ out = queued q fn /\ queued q' fn = [] /\
  (forall fn', 0 <= fn' -> fn' <> fn -> queued q' fn' = queued q fn').
Proof.
  intros Hwf Hfn. pose proof (oq_friend_wf q fn Hwf) as (Hring & Hhead & Ht).
  unfold tt_oq_take_all, queued. destruct (Z.leb_spec OQ_FRIENDS fn) as [|Hlt]; [by split_conj|].
  unfold friend_items in *. destruct (msgs (oq_friend q fn)) as [m|] eqn:Em.
  2: { split_conj; [done|done|by rewrite Em|done]. }
  destruct (take_loop_spec m (oq_count (oq_friend q fn)) _ Hhead Ht) as [E1 E2].
  destruct (take_loop m _ _) as [out head']. cbn [fst snd] in *. subst out.
  set (fr' := mkOqFriend (Some m) head' 0).
  assert (Hfr' : friend_wf fr').
  { split; [|split; [done|constructor]]. cbn. destruct Hring as (? & _ & _). unfold ring_wf. split_conj; [done|done|lia]. }
  assert (Hq : forall fn', 0 <= fn' ->
    oq_friend (oq_set q fn fr') fn' = if fn' =? fn then fr' else oq_friend q fn')
    by (intros; apply oq_friend_set; [done|lia|done]).
  split_conj; [by apply oq_set_wf|done|by rewrite Hq, Z.eqb_refl by lia|].
  intros fn' Hfn' Hne. rewrite Hq by done. by rewrite (proj2 (Z.eqb_neq fn' fn)).
Qed.

(** ** What the file gives back *)

Fixpoint queue_list (fn : Z) (q : TTOfflineQueue) : list (Z * bytes) :=
  match q with
  | [] => []
  | fr :: q => ((fun t => (fn, t)) <$> friend_items fr) ++ queue_list (fn + 1) q
  end.

(** Everything queued, in the order it is saved. *)
Definition all_queued (q : TTOfflineQueue) : list (Z * bytes) := queue_list 0 q.

Lemma save_friends_list q : forall fn,
  save_friends fn q = concat ((fun e => save_msg e.1 e.2) <$> queue_list fn q).
Proof.
  induction q as [|fr q IH]; intros fn; [done|]. cbn [save_friends queue_list].
  rewrite fmap_app, concat_app, <- IH. f_equal. unfold save_friend. f_equal.
  rewrite <- list_fmap_compose. done.
Qed.

Lemma queue_list_wf q : forall fn,
  Forall friend_wf q ->
  Forall (fun e => fn <= e.1 < fn + len q /\ (0 < len e.2 < TT_OQ_MAX_LINE /\ ~ In 0 e.2)) (queue_list fn q).
Proof.
  induction q as [|fr q IH]; intros fn Hq; [constructor|]. apply Forall_cons in Hq as [(_ & _ & Hf) Hq].
  cbn [queue_list]. rewrite len_cons. pose proof (len_nonneg q). apply Forall_app. split.
  - apply Forall_fmap. eapply Forall_impl; [exact Hf|]. intros t Ht. cbn. split; [lia|done].
  - eapply Forall_impl; [by apply IH|]. intros e [H1 H2]. split; [lia|done].
Qed.

(** The first saved entry is read back whole. *)
Lemma load_entry_saved fn text rest tail pt_len :
  0 <= fn < OQ_FRIENDS -> 0 < len text < TT_OQ_MAX_LINE ->
  let entry := save_msg fn text in
  pt_len = len (TT_OQ_MAGIC ++ entry ++ rest) ->
  load_entry ((TT_OQ_MAGIC ++ entry ++ rest) ++ tail) pt_len 0 =
    Ok (Some (fn, text, 5 + len entry)).
Proof.
  intros Hfn Ht entry Hpt. unfold load_entry.
  assert (Hm : zsub 0 5 ((TT_OQ_MAGIC ++ entry ++ rest) ++ tail) = TT_OQ_MAGIC) by done.
  rewrite Hm, bytes_eqb_refl. cbn [negb]. change (0 + 5) with 5.
  assert (He : entry = print2 fn (len text) ++ text)
    by (subst entry; unfold save_msg; by replace (len text =? 0) with false by lia).
  assert (Hd : zdrop 5 ((TT_OQ_MAGIC ++ entry ++ rest) ++ tail) = print2 fn (len text) ++ (text ++ rest ++ tail)).
  { rewrite He, <- !app_assoc. by apply zdrop_app. }
  unfold OQ_FRIENDS, TT_OQ_MAX_LINE, TOX_MAX_MESSAGE_LENGTH in *.
  rewrite Hd, sscanf2n_print2 by lia.
  replace ((256 <=? fn) || (len text =? 0) || (1372 <? len text)) with false by lia.
  set (h := len (print2 fn (len text))).
  assert (Hh : 3 < h) by (subst h; unfold print2; rewrite !len_app;
    pose proof (len_dec_pos fn); pose proof (len_dec_pos (len text)); change (len [32]) with 1; change (len [10]) with 1; lia).
  assert (Hlen : pt_len = 5 + h + len text + len rest)
    by (rewrite Hpt, He, !len_app; change (len TT_OQ_MAGIC) with 5; subst h; lia).
  pose proof (len_nonneg rest).
  assert (Hz : forall k, zdrop (5 + k) ((TT_OQ_MAGIC ++ entry ++ rest) ++ tail)
                         = zdrop k (print2 fn (len text) ++ text ++ rest ++ tail) \/ k < 0).
  { intros k. destruct (decide (k < 0)); [by right|left]. rewrite <- Hd, zdrop_zdrop by lia. done. }
  assert (Hnl : zat ((TT_OQ_MAGIC ++ entry ++ rest) ++ tail) (5 + (h - 1)) = 10).
  { destruct (Hz (h - 1)) as [E|]; [|lia].
    assert (Hhd : forall (l : bytes) k, 0 <= k -> zat l k = zat (zdrop k l) 0).
    { intros l k Hk. unfold zat, zdrop. by rewrite lookup_drop, Nat.add_0_r. }
    rewrite Hhd, E by lia. subst h.
    assert (Ep : print2 fn (len text) = ((dec fn ++ [32]) ++ dec (len text)) ++ [10])
      by (unfold print2; by rewrite <- !app_assoc).
    rewrite Ep. set (pre := (dec fn ++ [32]) ++ dec (len text)).
    rewrite <- (app_assoc pre [10]), zdrop_app; [done|]. rewrite len_app. change (len [10]) with 1. lia. }
  rewrite Hnl. replace (pt_len <=? 5 + (h - 1)) with false by lia. cbn [orb negb Z.eqb Pos.eqb].
  replace (5 + (h - 1) + 1) with (5 + h) by lia.
  replace (pt_len <? 5 + h + len text) with false by lia. do 3 f_equal.
  - unfold zsub. destruct (Hz h) as [E|]; [|lia]. rewrite E, zdrop_app by done. by rewrite ztake_app.
  - rewrite He, len_app. subst h. lia.
Qed.

Lemma save_msg_digit fn text :
  0 < len text -> exists c t, save_msg fn text = c :: t /\ isdigit c = true.
Proof.
  intros H. unfold save_msg. replace (len text =? 0) with false by lia.
  destruct (dec_nonempty fn) as (c & t & E & Hc). unfold print2. rewrite E. cbn. eauto.
Qed.

Lemma load_queue_file q fn text rest tail :
  oq_wf q -> all_queued q = (fn, text) :: rest ->
  exists q', load_loop (S (S (length (oq_plaintext q ++ tail) - 1))) oq_init (oq_plaintext q ++ tail)
    (len (oq_plaintext q)) 0 = Ok q' /\ q' = (tt_oq_add oq_init fn (Some text)).1.
Proof.
  intros [Hl Hwf] Hall. unfold oq_plaintext. rewrite save_friends_list. fold (all_queued q).
  pose proof (queue_list_wf q 0 Hwf) as Hq. fold (all_queued q) in Hq. rewrite Hall in Hq |- *.
  assert (Hlen : len q = OQ_FRIENDS) by (unfold len; rewrite Hl; done). rewrite Hlen in Hq.
  apply Forall_cons in Hq as [[Hfn [Ht _]] Hrest]. cbn [fst snd fmap list_fmap concat] in *.
  set (saved := concat _).
  generalize (length ((TT_OQ_MAGIC ++ save_msg fn text ++ saved) ++ tail) - 1)%nat as k. intros k.
  eexists. split; [|reflexivity]. cbn [load_loop].
  set (pt := len (TT_OQ_MAGIC ++ save_msg fn text ++ saved)).
  assert (Hpt : pt = 5 + len (save_msg fn text) + len saved)
    by (subst pt; rewrite !len_app; change (len TT_OQ_MAGIC) with 5; lia).
  pose proof (len_nonneg (save_msg fn text)). pose proof (len_nonneg saved).
  replace (0 + 5 <=? pt) with true by lia. cbn [negb].
  rewrite (load_entry_saved fn text saved tail pt) by done.
  destruct (5 + len (save_msg fn text) + 5 <=? pt) eqn:E; cbn [negb]; [|by destruct k].
  assert (Hs : saved <> []) by (intros Hs; rewrite Hs in Hpt; change (len []) with 0 in Hpt; lia).
  destruct rest as [|[fn2 t2] rest]; [done|]. apply Forall_cons in Hrest as [[_ [Ht2 _]] _].
  destruct (save_msg_digit fn2 t2) as (c & t & Ec & Hc); [cbn in Ht2; lia|].
  unfold load_entry. replace (bytes_eqb _ TT_OQ_MAGIC) with false; [done|].
  symmetry. apply bool_decide_eq_false. unfold zsub.
  replace ((TT_OQ_MAGIC ++ save_msg fn text ++ saved) ++ tail)
    with ((TT_OQ_MAGIC ++ save_msg fn text) ++ (saved ++ tail)) by (by rewrite <- !app_assoc).
  rewrite zdrop_app by (rewrite len_app; done).
  subst saved. cbn [fmap list_fmap concat fst snd]. rewrite Ec. intros H5.
  apply (f_equal (fun l => zat l 0)) in H5. change (c = 84) in H5. subst c. done.
Qed.

Lemma oq_plaintext_plain q : plain_start (oq_plaintext q).
Proof. unfold plain_start, oq_plaintext. intros H. apply (f_equal (fun l => zat l 0)) in H. done. Qed.

(** ** Properties *)

(** Each friend's queue is a bounded first-in first-out list of at most 64
    texts: adding appends the text (cut to toxcore's message length), dropping
    the oldest when full, and returns the new count; taking all returns
    everything queued in order and leaves nothing; neither touches another
    friend's queue, and both keep the queue well formed. *)
Theorem queue_refines_lists q fn text (Hwf : oq_wf q) (Hfn : 0 <= fn < OQ_FRIENDS) (Ht : 0 < len (cstr text)) :
  let '(q1, n) := tt_oq_add q fn (Some text) in
  let '(q2, out) := tt_oq_take_all q fn in
  (oq_wf q1 /\ n = tt_oq_count q1 fn /\
   queued q1 fn = lastn TT_OQ_MAX_PER_FRIEND (queued q fn ++ [snprintf_s TT_OQ_MAX_LINE text]) /\
   forall fn', 0 <= fn' -> fn' <> fn -> queued q1 fn' = queued q fn') /\
  (oq_wf q2 /\ out = queued q fn /\ queued q2 fn = [] /\
   forall fn', 0 <= fn' -> fn' <> fn -> queued q2 fn' = queued q fn').
Proof.
  pose proof (tt_oq_add_spec q fn text Hwf Hfn Ht) as Ha.
  pose proof (tt_oq_take_all_spec q fn Hwf ltac:(lia)) as Hk.
  destruct (tt_oq_add q fn (Some text)) as [q1 n]. destruct (tt_oq_take_all q fn) as [q2 out].
  cbn [fst snd] in Ha. destruct Ha as (H1 & H2 & H3 & H4). split; [|done]. split_conj; [done| |done|done].
  rewrite H2. unfold tt_oq_count, queued. replace (OQ_FRIENDS <=? fn) with false by lia.
  destruct (oq_friend_wf q1 fn H1) as (Hr & _). unfold friend_items.
  destruct (msgs (oq_friend q1 fn)); [by rewrite ring_view_length|done].
Qed.

Lemma queue_refines_lists_witness :
  oq_wf oq_init /\
  let '(q1, n) := tt_oq_add oq_init 7 (Some [104; 105; 0; 9]) in
  let '(q2, out) := tt_oq_take_all oq_init 7 in
  (oq_wf q1 /\ n = tt_oq_count q1 7 /\
   queued q1 7 = lastn TT_OQ_MAX_PER_FRIEND (queued oq_init 7 ++ [snprintf_s TT_OQ_MAX_LINE [104; 105; 0; 9]]) /\
   forall fn', 0 <= fn' -> fn' <> 7 -> queued q1 fn' = queued oq_init fn') /\
  (oq_wf q2 /\ out = queued oq_init 7 /\ queued q2 7 = [] /\
   forall fn', 0 <= fn' -> fn' <> 7 -> queued q2 fn' = queued oq_init fn').
Proof.
  split; [apply oq_init_wf|].
  apply (queue_refines_lists oq_init 7 [104; 105; 0; 9] oq_init_wf ltac:(done) ltac:(done)).
Defined.

(** Of the queue saved in [<profile>.oq] only the first message comes back.
    [tt_oq_save] writes the magic once, [tt_oq_load] demands it before every
    entry and stops at the second: whatever was queued, for however many
    friends, the loaded queue holds just the first saved text. *)
Theorem only_first_message_survives {K : PassKey} {L : PassKeyLaws K} q key nonce f fn text rest
    (Hwf : oq_wf q) (Hall : all_queued q = (fn, text) :: rest)
    (Hsave : tt_oq_save q key nonce None = Some f) (Hsize : len (oq_plaintext q) + EXTRA <= OQ_MAX_FILE) :
  exists q', tt_oq_load oq_init key (Some f) = Ok q' /\
    forall fn', 0 <= fn' -> queued q' fn' = if fn' =? fn then [text] else [].
Proof.
  unfold tt_oq_save in Hsave.
  destruct (sidecar_save OQ_MAX_FILE key nonce None (oq_plaintext q)) as [file ok] eqn:E. cbn in Hsave. subst file.
  assert (ok = true) as ->.
  { unfold sidecar_save in E. destruct key; [|by injection E]. destruct (_ || _); [done|].
    destruct (pk_encrypt _ _ _); [by injection E|done]. }
  assert (Hpos : 0 < len (oq_plaintext q))
    by (unfold oq_plaintext; rewrite len_app; change (len TT_OQ_MAGIC) with 5; pose proof (len_nonneg (save_friends 0 q)); lia).
  destruct (sidecar_roundtrip OQ_MAX_FILE key nonce None _ _ E Hpos Hsize (oq_plaintext_plain q)) as [tail Ht].
  destruct (load_queue_file q fn text rest tail Hwf Hall) as (q' & Hq & ->).
  exists (tt_oq_add oq_init fn (Some text)).1. unfold tt_oq_load. rewrite Ht. split.
  - by rewrite <- Hq.
  - destruct Hwf as [Hl Hwf]. pose proof (queue_list_wf q 0 Hwf) as Hw. fold (all_queued q) in Hw.
    rewrite Hall in Hw. apply Forall_cons in Hw as [[H1 [H2 H3]] _]. cbn [fst snd] in *.
    assert (Hlen : len q = OQ_FRIENDS) by (unfold len; rewrite Hl; done).
    destruct (tt_oq_add_spec oq_init fn text oq_init_wf ltac:(lia)) as (_ & _ & Ha & Hb);
      [by rewrite cstr_no_nul by done; lia|].
    assert (Hempty : forall k, queued oq_init k = []).
    { intros k. unfold queued. destruct (OQ_FRIENDS <=? k); [done|]. unfold oq_friend, oq_init.
      destruct (replicate _ no_friend !! Z.to_nat k) eqn:Er; [|done].
      by apply lookup_replicate in Er as [-> _]. }
    intros fn' Hfn'. destruct (Z.eqb_spec fn' fn) as [->|Hne]; [|by rewrite Hb].
    rewrite Ha, Hempty. rewrite snprintf_s_idem by (done || lia). done.
Qed.

(** Two messages for friend 3, one for friend 5. *)
Definition sample_queue : TTOfflineQueue :=
  (tt_oq_add (tt_oq_add (tt_oq_add oq_init 3 (Some [104; 105])).1 3 (Some [121; 111])).1 5 (Some [111; 107])).1.

Lemma only_first_message_survives_witness :
  exists q', tt_oq_load (K:=sample_pass) oq_init (Some 9) (@tt_oq_save sample_pass sample_queue (Some 9) [] None) = Ok q' /\
    (length (all_queued sample_queue) = 3)%nat /\
    forall fn', 0 <= fn' -> queued q' fn' = if fn' =? 3 then [[104; 105]] else [].
Proof.
  assert (Hwf : oq_wf sample_queue).
  { assert (Hadd : forall q fn t, oq_wf q -> 0 <= fn < OQ_FRIENDS -> 0 < len (cstr t) ->
      oq_wf (tt_oq_add q fn (Some t)).1) by (intros; by apply tt_oq_add_spec).
    unfold sample_queue. apply Hadd; [|done|done]. apply Hadd; [|done|done].
    apply Hadd; [apply oq_init_wf|done|done]. }
  destruct (@only_first_message_survives sample_pass sample_pass_laws sample_queue (Some 9) []
    _ 3 [104; 105] [(3, [121; 111]); (5, [111; 107])] Hwf ltac:(vm_compute; reflexivity) eq_refl
    ltac:(vm_compute; done)) as (q' & H1 & H2).
  exists q'. split; [exact H1|]. split; [vm_compute; reflexivity|exact H2].
Defined.
