(* ===== verification/ChatEngine.v ===== *)
(** * ChatEngine: chat messages over a session ([tox_thread.c])

    What the Tox thread does with one friend's chat: the E2EE glue (handshake
    start, receive hook, fallback policy, enforcement), the send command and
    the flush of the offline queue.  The state of the friend, the packets given
    to toxcore and the events given to the UI are one record threaded by a small
    state monad; the answers of [tox_friend_send_message] are an oracle, the
    clock is an argument. *)
From S2P Require Import Prelude StateM CText Crypto Frame Session Sidecar OfflineQueue.

Definition TT_E2EE_FALLBACK_TIMEOUT : Z := 30.
Definition TT_E2EE_CHUNK : Z := TT_FRAME_DATA_MAX.
Definition E2EE_FRIENDS : Z := 256.
Definition MSG_NORMAL : Z := 0.

(** What [tox_friend_send_message] answered. *)
Inductive tx_result := TxOk (mid : Z) | TxNotConnected | TxOther.

(** What was handed to toxcore: a frame of the E2EE layer or a bare text. *)
Inductive wire_item := WFrame (type : Z) (b : bytes) | WPlain (type : Z) (b : bytes).

Inductive warning := WarnQueueBlocked | WarnQueuePlain | WarnSendBlocked | WarnSendPlain
| WarnRecvPlain | WarnRecvBlocked.

Inductive ui_event :=
| UiMessage (type : Z) (text : bytes)
| UiUndecryptable
| UiSent (mid : Z)
| UiWarn (w : warning)
| UiState (established : bool) (code : option bytes)
| UiEnforce (on : bool)
| UiFlushed (n : nat).

Section engine.
Context {P : Prims}.

Record chat := mkChat {
  sess : TTSession;
  required : bool;        (** [e2ee_required[fn]] *)
  fallback : bool;        (** [e2ee_fallback[fn]] *)
  warned : bool;
  handshake_at : Z;
  oq : TTOfflineQueue;
  oq_flushing : bool;
  stored_required : bool; (** the friend's bit in the settings sidecar *)
  stored_oq : TTOfflineQueue; (** what [<profile>.oq] was last written from *)
  crng : Rng;
  sends : nat;            (** calls of [tox_friend_send_message] so far *)
  wire : list wire_item;
  ui : list ui_event;
}.

#[export] Instance eta_chat : EtaRecord chat := fun c =>
  mkChat (sess c) (required c) (fallback c) (warned c) (handshake_at c) (oq c) (oq_flushing c)
    (stored_required c) (stored_oq c) (crng c) (sends c) (wire c) (ui c).

(** ** Basic effects *)

Definition emit_ui (e : ui_event) : M chat unit := modify (fun c => c <| ui := ui c ++ [e] |>).
Definition set_sess (s : TTSession) (rng : Rng) : M chat unit :=
  modify (fun c => c <| sess := s |> <| crng := rng |>).
(** Run a session operation on the friend's session. *)
Definition on_sess {A} (op : TTSession -> Rng -> A * TTSession * Rng) : M chat A := fun c =>
  let '(a, s, rng) := op (sess c) (crng c) in (a, c <| sess := s |> <| crng := rng |>).

(** The friend, toxcore's view of it, its answers; [fuel] bounds the drain loop
    of [e2ee_rel_poll] ([SessionResend] says when it ends). *)
Variables (fn : Z) (env : TTE2EEEnv) (mode : bool) (net : nat -> tx_result) (fuel : nat).

Definition e2ee_warn (w : warning) : M chat unit :=
  let* done_ := get warned in
  if (E2EE_FRIENDS <=? fn) || done_ then skip
  else modify (fun c => c <| warned := true |>) ;; emit_ui (UiWarn w).

Definition tox_send (item : wire_item) : M chat tx_result := fun c =>
  (net (sends c), c <| sends := S (sends c) |> <| wire := wire c ++ [item] |>).

(** The message id, 0 on failure. *)
Definition e2ee_send_frame (type : Z) (buf : bytes) : M chat Z :=
  let* r := tox_send (WFrame type buf) in
  mret (match r with TxOk mid => mid | _ => 0 end).

Definition e2ee_push_state (established : bool) : M chat unit :=
  let* s := get sess in
  emit_ui (UiState established (if established then tt_session_verify_code s else None)).

(** [e2ee_pump]: at most [TT_SESSION_PENDING_MAX] texts are stashed, so
    [TT_SESSION_PENDING_MAX + 1] rounds are enough. *)
Fixpoint pump_loop (n : nat) : M chat unit :=
  match n with
  | O => skip
  | S n =>
      let* r := on_sess (fun s rng => tt_session_flush s TT_FRAME_MAX rng) in
      match r with
      | Bytes (_ :: _ as out) =>
          let* mid := e2ee_send_frame MSG_NORMAL out in
          when (negb (mid =? 0)) (emit_ui (UiSent mid)) ;;
          pump_loop n
      | _ => skip
      end
  end.
Definition e2ee_pump : M chat unit := pump_loop (S (Z.to_nat TT_SESSION_PENDING_MAX)).

Fixpoint rel_poll_loop (n : nat) : M chat unit :=
  match n with
  | O => skip
  | S n =>
      let* r := on_sess (fun s rng => tt_session_rel_poll s TT_FRAME_MAX rng) in
      match r with
      | Bytes (_ :: _ as out) => e2ee_send_frame MSG_NORMAL out ;; rel_poll_loop n
      | _ => skip
      end
  end.
Definition chat_rel_poll : M chat unit :=
  match peer_pk env with None => skip | Some _ => rel_poll_loop fuel end.

Definition e2ee_tick (now : Z) : M chat unit :=
  match peer_pk env with
  | None => skip
  | Some _ =>
      let* r := on_sess (fun s rng => tt_session_tick s env now TT_FRAME_MAX rng) in
      match r with
      | Bytes (_ :: _ as out) => e2ee_send_frame MSG_NORMAL out ;; skip
      | _ => skip
      end ;;
      chat_rel_poll
  end.

Definition e2ee_start (now : Z) : M chat unit :=
  match peer_pk env with
  | None => skip
  | Some _ =>
      let* r := on_sess (fun s rng => tt_session_start s env now TT_FRAME_MAX rng) in
      match r with
      | Bytes (_ :: _ as out) =>
          e2ee_send_frame MSG_NORMAL out ;;
          modify (fun c => c <| handshake_at := now |>)
      | _ => skip
      end
  end.

Definition e2ee_fallback_due (now : Z) (c : chat) : bool :=
  (fn <? E2EE_FRIENDS) && negb (active (sess c)) && negb (handshake_at c =? 0) &&
  (TT_E2EE_FALLBACK_TIMEOUT <=? now - handshake_at c).

Definition oq_push (text : bytes) : M chat unit :=
  modify (fun c => c <| oq := (tt_oq_add (oq c) fn (Some text)).1 |>).
Definition oq_store : M chat unit := modify (fun c => c <| stored_oq := oq c |>).

(** ** Flushing the offline queue *)

Fixpoint requeue (texts : list bytes) : M chat unit :=
  match texts with [] => skip | t :: texts => oq_push t ;; requeue texts end.

(** The chunk loop over one text; the final [off]. *)
Fixpoint flush_text (n : nat) (text : bytes) (off : Z) : M chat Z :=
  match n with
  | O => mret off
  | S n =>
      if negb (off <? len text) then mret off else
      let chunk := Z.min (len text - off) TT_E2EE_CHUNK in
      let* r := on_sess (fun s rng => tt_session_send s (zsub off chunk text) TT_FRAME_MAX rng) in
      match r with
      | Status _ => mret off
      | Bytes [] =>
          when (off + chunk <? len text) (oq_push (zdrop (off + chunk) text)) ;;
          mret (len text)
      | Bytes out =>
          let* mid := e2ee_send_frame MSG_NORMAL out in
          if mid =? 0 then mret off else flush_text n text (off + chunk)
      end
  end.

Fixpoint flush_e2ee (texts : list bytes) : M chat unit :=
  match texts with
  | [] => skip
  | t :: rest =>
      let* off := flush_text (S (length t)) t 0 in
      if off <? len t then requeue texts else flush_e2ee rest
  end.

Fixpoint flush_plain (texts : list bytes) : M chat unit :=
  match texts with
  | [] => skip
  | t :: rest =>
      let* r := tox_send (WPlain MSG_NORMAL t) in
      match r with
      | TxNotConnected => requeue texts
      | TxOk mid => emit_ui (UiSent mid) ;; flush_plain rest
      | TxOther => flush_plain rest
      end
  end.

Definition on : bool := mode && (fn <? E2EE_FRIENDS).

Definition offline_flush_friend (now : Z) : M chat unit :=
  let* q := get oq in
  let '(q', texts) := tt_oq_take_all q fn in
  modify (fun c => c <| oq := q' |>) ;;
  let plain := flush_plain texts ;; emit_ui (UiFlushed (length texts)) in
  match texts with
  | [] => skip
  | _ =>
      match peer_pk env with
      | Some _ =>
          if negb on then plain else
          let* due := get (e2ee_fallback_due now) in
          if due then
            let* req := get required in
            if req then e2ee_warn WarnQueueBlocked ;; oq_store
            else modify (fun c => c <| fallback := true |>) ;; e2ee_warn WarnQueuePlain ;; plain
          else flush_e2ee texts ;; oq_store ;; emit_ui (UiFlushed (length texts))
      | None => plain
      end
  end.

(** ** Receiving *)

(** [e2ee_rx]: [None] when the layer consumed the message, else the text that
    goes on to the UI. *)
Definition e2ee_rx (text : bytes) (now : Z) : M chat (option bytes) :=
  match peer_pk env with
  | None => mret (Some text)
  | Some _ =>
    if E2EE_FRIENDS <=? fn then mret (Some text) else
    let* was_active := get (fun c => active (sess c)) in
    let* rh := on_sess (fun s rng =>
      let '(r, h, s, rng) := tt_session_feed s env text TT_FRAME_DATA_MAX rng in ((r, h), s, rng)) in
    let '(r, handshaked) := rh in
    if handshaked then
      let* due := get (fun c => reply_due (sess c)) in
      match r with
      | Bytes [] =>
          if due then
            let* rr := on_sess (fun s rng => tt_session_reply s env TT_FRAME_MAX rng) in
            match rr with
            | Bytes (_ :: _ as out) => e2ee_send_frame MSG_NORMAL out ;; skip
            | _ => skip
            end
          else skip
      | _ => skip
      end ;;
      let* is_active := get (fun c => active (sess c)) in
      when is_active
        (modify (fun c => c <| fallback := false |>) ;;
         let* req := get required in
         when (negb was_active && negb req)
           (modify (fun c => c <| required := true |> <| stored_required := true |>) ;;
            emit_ui (UiEnforce true)) ;;
         e2ee_pump ;;
         let* c := get id in
         when ((0 <? tt_oq_count (oq c) fn)%nat && negb (oq_flushing c)) (offline_flush_friend now)) ;;
      let* is_active := get (fun c => active (sess c)) in
      when (negb (Bool.eqb is_active was_active)) (e2ee_push_state is_active) ;;
      mret None
    else
      match r with
      | Bytes [] => chat_rel_poll ;; mret None
      | Status e =>
          if decide (e = TT_E2EE_NO_SESSION) then e2ee_start now ;; mret None
          else if decide (e = TT_E2EE_DECODE_FAIL \/ e = TT_E2EE_REPLAY) then
            let* is_active := get (fun c => active (sess c)) in
            if is_active then e2ee_start now ;; chat_rel_poll ;; mret None
            else
              let* req := get required in
              if negb req then
                modify (fun c => c <| fallback := true |>) ;; e2ee_warn WarnRecvPlain ;;
                mret (Some text)
              else e2ee_warn WarnRecvBlocked ;; mret None
          else
            let* seen := get (fun c => no_session_notified (sess c)) in
            when (negb seen)
              (emit_ui UiUndecryptable ;;
               modify (fun c => c <| sess := (sess c) <| no_session_notified := true |> |>)) ;;
            mret None
      | Bytes pt =>
          if len pt <=? len text then chat_rel_poll ;; mret (Some pt) else mret None
      end
  end.

Definition cb_friend_message (type : Z) (message : bytes) (now : Z) : M chat unit :=
  let* r := (if mode then e2ee_rx message now else mret (Some message)) in
  match r with
  | None => skip
  | Some text => emit_ui (UiMessage type text)
  end.

(** The chat part of [cb_friend_connection]. *)
Definition cb_friend_connection (online : bool) (now : Z) : M chat unit :=
  if negb online then skip else
  when on (modify (fun c => c <| fallback := false |> <| warned := false |>)) ;;
  let* c := get id in
  when ((0 <? tt_oq_count (oq c) fn)%nat && negb (oq_flushing c)) (offline_flush_friend now) ;;
  let* s := get sess in
  when (on && negb (active s) && negb (init_pending s) && negb (reply_due s)) (e2ee_start now).

(** ** Commands *)

(** The chunk loop of [TT_CMD_SEND_MESSAGE]; the final [off]. *)
Fixpoint send_chunks (n : nat) (type : Z) (text : bytes) (off : Z) : M chat Z :=
  match n with
  | O => mret off
  | S n =>
      if negb (off <? len text) then mret off else
      let chunk := Z.min (len text - off) TT_E2EE_CHUNK in
      let* r := on_sess (fun s rng => tt_session_send s (zsub off chunk text) TT_FRAME_MAX rng) in
      match r with
      | Status _ => mret off
      | Bytes [] => send_chunks n type text (off + chunk)
      | Bytes out =>
          let* mid := e2ee_send_frame type out in
          if mid =? 0 then mret off
          else emit_ui (UiSent mid) ;; send_chunks n type text (off + chunk)
      end
  end.

Definition send_plain (type : Z) (text : bytes) : M chat unit :=
  let* r := tox_send (WPlain type text) in
  match r with
  | TxOk mid => emit_ui (UiSent mid)
  | TxNotConnected => oq_push text ;; oq_store
  | TxOther => skip
  end.

Definition cmd_send_message (type : Z) (text : bytes) (now : Z) : M chat unit :=
  match peer_pk env with
  | Some _ =>
      if negb on then send_plain type text else
      let* due := get (e2ee_fallback_due now) in
      if due then
        let* req := get required in
        if req then e2ee_warn WarnSendBlocked
        else modify (fun c => c <| fallback := true |>) ;; e2ee_warn WarnSendPlain ;;
             send_plain type text
      else
        let* off := send_chunks (S (length text)) type text 0 in
        when (off <? len text) (oq_push (zdrop off text) ;; oq_store)
  | None => send_plain type text
  end.

(** [TT_CMD_E2EE_ENFORCE] *)
Definition cmd_enforce (req : bool) : M chat unit :=
  if E2EE_FRIENDS <=? fn then skip
  else modify (fun c => c <| required := req |> <| stored_required := req |>).
End engine.
