(* ===== verification/ChatPolicy.v ===== *)
(** * ChatPolicy: what the chat engine lets through

    An enforced friend never gets or shows plaintext, whatever happens; what the
    flush of the offline queue kept and what it loses. *)
From stdpp Require Import relations.
From S2P Require Import Prelude StateM Ring CText Crypto SampleCrypto Frame Session Sidecar OfflineQueue ChatEngine.

(** ** Enforcement *)

Section enforced.
Context {P : Prims} (fn : Z) (env : TTE2EEEnv) (net : nat -> tx_result) (fuel : nat).
Context (Hfn : 0 <= fn < E2EE_FRIENDS) (peer : bytes) (Hpeer : peer_pk env = Some peer).

Definition is_frame (i : wire_item) : Prop := match i with WFrame _ _ => True | WPlain _ _ => False end.

(** [w0]: what had been sent before. *)
Definition enforced (w0 : list wire_item) (c : chat) : Prop :=
  required c = true /\ exists w, wire c = w0 ++ w /\ Forall is_frame w.

Context (w0 : list wire_item).
Let I := enforced w0.

Lemma kept_same f :
  (forall c, required (f c) = required c /\ wire (f c) = wire c) -> kept I (modify f).
Proof. intros H. apply kept_modify. intros c [H1 H2]. destruct (H c) as [E1 E2]. split; by rewrite ?E1, ?E2. Qed.

Lemma kept_on_sess {A} (op : TTSession -> Rng -> A * TTSession * Rng) : kept I (on_sess op).
Proof. intros c Hc. unfold on_sess. by destruct (op (sess c) (crng c)) as [[a s] r]. Qed.

Lemma kept_emit e : kept I (emit_ui e).
Proof. by apply kept_same. Qed.

Lemma kept_frame type b : kept I (e2ee_send_frame net type b).
Proof.
  unfold e2ee_send_frame. apply kept_bind; [|intros r; apply kept_ret].
  intros c (Hr & w & Hw & Hf). split; [done|]. exists (w ++ [WFrame type b]). cbn.
  split; [by rewrite Hw, <- app_assoc|]. apply Forall_app. by split; [|repeat constructor].
Qed.

Lemma kept_warn w : kept I (e2ee_warn fn w).
Proof.
  unfold e2ee_warn. repeat keep_step; [by apply kept_same|apply kept_emit].
Qed.

Lemma kept_pump n : kept I (pump_loop net n).
Proof.
  induction n as [|n IH]; cbn [pump_loop]; [apply kept_skip|].
  apply kept_bind; [apply kept_on_sess|]. intros [[|x out]|e]; [apply kept_skip| |apply kept_skip].
  apply kept_bind; [apply kept_frame|]. intros mid. repeat keep_step; [apply kept_emit|done].
Qed.

Lemma kept_rel_poll_loop n : kept I (rel_poll_loop net n).
Proof.
  induction n as [|n IH]; cbn [rel_poll_loop]; [apply kept_skip|].
  apply kept_bind; [apply kept_on_sess|]. intros [[|x out]|e]; [apply kept_skip| |apply kept_skip].
  apply kept_seq; [apply kept_frame|done].
Qed.

Lemma kept_rel_poll : kept I (chat_rel_poll env net fuel).
Proof. unfold chat_rel_poll. rewrite Hpeer. apply kept_rel_poll_loop. Qed.

Lemma kept_start now : kept I (e2ee_start env net now).
Proof.
  unfold e2ee_start. rewrite Hpeer.
  apply kept_bind; [apply kept_on_sess|]. intros [[|x out]|e]; [apply kept_skip| |apply kept_skip].
  apply kept_seq; [apply kept_frame|by apply kept_same].
Qed.

Lemma kept_tick now : kept I (e2ee_tick env net fuel now).
Proof.
  unfold e2ee_tick. rewrite Hpeer.
  apply kept_bind; [apply kept_on_sess|]. intros r. apply kept_seq; [|apply kept_rel_poll].
  destruct r as [[|x out]|e]; [apply kept_skip| |apply kept_skip].
  apply kept_seq; [apply kept_frame|apply kept_skip].
Qed.

Lemma kept_oq_push t : kept I (oq_push fn t).
Proof. by apply kept_same. Qed.
Lemma kept_oq_store : kept I oq_store.
Proof. by apply kept_same. Qed.

Lemma kept_requeue l : kept I (requeue fn l).
Proof. induction l; cbn [requeue]; [apply kept_skip|]. by apply kept_seq; [apply kept_oq_push|]. Qed.

Lemma kept_flush_text n text : forall off, kept I (flush_text fn net n text off).
Proof.
  induction n as [|n IH]; intros off; cbn [flush_text]; [apply kept_ret|].
  destruct (negb _); [apply kept_ret|]. cbv zeta.
  apply kept_bind; [apply kept_on_sess|]. intros [[|x out]|e]; [| |apply kept_ret].
  - apply kept_seq; [|apply kept_ret]. apply kept_when, kept_oq_push.
  - apply kept_bind; [apply kept_frame|]. intros mid. keep_step; [apply kept_ret|apply IH].
Qed.

Lemma kept_flush_e2ee l : kept I (flush_e2ee fn net l).
Proof.
  induction l as [|t l IH]; cbn [flush_e2ee]; [apply kept_skip|].
  apply kept_bind; [apply kept_flush_text|]. intros off. keep_step; [apply kept_requeue|done].
Qed.

Lemma on_true : on fn true = true.
Proof. unfold on. cbn. lia. Qed.

(** The policy branch of both senders: with the friend enforced only the
    blocking side is taken. *)
Lemma kept_policy {A} (blocked plain : M chat A) :
  kept I blocked -> kept I (bind (get required) (fun req => if req then blocked else plain)).
Proof. intros Hb. apply kept_get. intros c Hc. pose proof (proj1 Hc) as ->. by apply Hb. Qed.

Lemma kept_flush now : kept I (offline_flush_friend fn env true net now).
Proof.
  unfold offline_flush_friend. apply kept_bind; [by intros ?|]. intros q.
  destruct (tt_oq_take_all q fn) as [q' texts]. apply kept_seq; [by apply kept_same|].
  destruct texts as [|t texts]; [apply kept_skip|]. rewrite Hpeer, on_true. cbn [negb].
  apply kept_bind; [by intros ?|]. intros due. destruct due.
  - apply (kept_policy (e2ee_warn fn WarnQueueBlocked ;; oq_store)).
    apply kept_seq; [apply kept_warn|apply kept_oq_store].
  - apply kept_seq; [apply kept_flush_e2ee|]. apply kept_seq; [apply kept_oq_store|apply kept_emit].
Qed.

Lemma kept_rx text now : kept I (e2ee_rx fn env true net fuel text now).
Proof.
  unfold e2ee_rx. rewrite Hpeer. replace (E2EE_FRIENDS <=? fn) with false by lia.
  apply kept_bind; [by intros ?|]. intros was. apply kept_bind; [apply kept_on_sess|].
  intros [r handshaked]. destruct handshaked.
  - apply kept_bind; [by intros ?|]. intros due. apply kept_seq.
    { destruct r as [[|x out]|e]; [|apply kept_skip..]. destruct due; [|apply kept_skip].
      apply kept_bind; [apply kept_on_sess|]. intros [[|x out]|e]; [apply kept_skip| |apply kept_skip].
      apply kept_seq; [apply kept_frame|apply kept_skip]. }
    apply kept_bind; [by intros ?|]. intros act. apply kept_seq.
    { apply kept_when, kept_seq; [by apply kept_same|].
      apply kept_bind; [by intros ?|]. intros req. apply kept_seq.
      { apply kept_when, kept_seq; [|apply kept_emit]. apply kept_modify. intros c (_ & Hw). done. }
      apply kept_seq; [apply kept_pump|]. apply kept_bind; [by intros ?|]. intros c.
      apply kept_when, kept_flush. }
    apply kept_bind; [by intros ?|]. intros act'. apply kept_seq; [|apply kept_ret].
    apply kept_when. unfold e2ee_push_state. apply kept_bind; [by intros ?|]. intros s. apply kept_emit.
  - destruct r as [[|x pt]|e].
    + apply kept_seq; [apply kept_rel_poll|apply kept_ret].
    + keep_step; [|apply kept_ret]. apply kept_seq; [apply kept_rel_poll|apply kept_ret].
    + destruct (decide _); [apply kept_seq; [apply kept_start|apply kept_ret]|].
      destruct (decide _).
      * apply kept_bind; [by intros ?|]. intros act. destruct act.
        { apply kept_seq; [apply kept_start|]. apply kept_seq; [apply kept_rel_poll|apply kept_ret]. }
        apply kept_get. intros c Hc. pose proof (proj1 Hc) as ->. cbn [negb].
        revert c Hc. apply kept_seq; [apply kept_warn|apply kept_ret].
      * apply kept_bind; [by intros ?|]. intros seen. apply kept_seq; [|apply kept_ret].
        apply kept_when, kept_seq; [apply kept_emit|by apply kept_same].
Qed.

Lemma kept_message type text now : kept I (cb_friend_message fn env true net fuel type text now).
Proof.
  unfold cb_friend_message. apply kept_bind; [apply kept_rx|]. intros [t|]; [apply kept_emit|apply kept_skip].
Qed.

Lemma kept_connection online now : kept I (cb_friend_connection fn env true net online now).
Proof.
  unfold cb_friend_connection. destruct (negb online); [apply kept_skip|].
  apply kept_seq; [by apply kept_when, kept_same|]. apply kept_bind; [by intros ?|]. intros c.
  apply kept_seq; [apply kept_when, kept_flush|]. apply kept_bind; [by intros ?|]. intros s.
  apply kept_when, kept_start.
Qed.

Lemma kept_send_chunks n type text : forall off, kept I (send_chunks net n type text off).
Proof.
  induction n as [|n IH]; intros off; cbn [send_chunks]; [apply kept_ret|].
  destruct (negb _); [apply kept_ret|]. cbv zeta.
  apply kept_bind; [apply kept_on_sess|]. intros [[|x out]|e]; [apply IH| |apply kept_ret].
  apply kept_bind; [apply kept_frame|]. intros mid. keep_step; [apply kept_ret|].
  apply kept_seq; [apply kept_emit|apply IH].
Qed.

Lemma kept_send type text now : kept I (cmd_send_message fn env true net type text now).
Proof.
  unfold cmd_send_message. rewrite Hpeer, on_true. cbn [negb].
  apply kept_bind; [by intros ?|]. intros due. destruct due.
  - apply (kept_policy (e2ee_warn fn WarnSendBlocked)). apply kept_warn.
  - apply kept_bind; [apply kept_send_chunks|]. intros off.
    apply kept_when, kept_seq; [apply kept_oq_push|apply kept_oq_store].
Qed.
End enforced.

Section received.
Context {P : Prims} (fn : Z) (env : TTE2EEEnv) (net : nat -> tx_result) (fuel : nat).
Context (Hfn : 0 <= fn < E2EE_FRIENDS) (peer : bytes) (Hpeer : peer_pk env = Some peer).

Lemma bind_fst_none {A B} (m : M chat A) (k : A -> M chat (option B)) c :
  (forall a c', (k a c').1 = None) -> (bind m k c).1 = None.
Proof. intros H. unfold bind. destruct (m c). apply H. Qed.
Lemma bind_get {A B} (f : chat -> A) (k : A -> M chat B) c : bind (get f) k c = k (f c) c.
Proof. done. Qed.
Lemma seq_fst_none {A B} (m : M chat A) (k : M chat (option B)) c :
  (forall c', (k c').1 = None) -> ((m ;; k) c).1 = None.
Proof. intros H. apply (bind_fst_none m (fun _ => k)). intros _. apply H. Qed.

(** What the receive hook passes on for an enforced friend is a decrypted text. *)
Lemma rx_passes_decrypted text now c :
  required c = true ->
  match (e2ee_rx fn env true net fuel text now c).1 with
  | None => True
  | Some pt => pt <> [] /\ exists s rng,
      tt_session_feed (sess c) env text TT_FRAME_DATA_MAX (crng c) = (Bytes pt, false, s, rng)
  end.
Proof.
  intros Hreq. unfold e2ee_rx. rewrite Hpeer. replace (E2EE_FRIENDS <=? fn) with false by lia.
  unfold bind at 1, get at 1. unfold bind at 1, on_sess at 1.
  destruct (tt_session_feed (sess c) env text TT_FRAME_DATA_MAX (crng c)) as [[[r h] s] rng] eqn:E.
  set (c1 := c <| sess := s |> <| crng := rng |>). destruct h.
  - rewrite bind_fst_none; [done|]. intros due c2. apply seq_fst_none. intros c3.
    apply bind_fst_none. intros act c4. apply seq_fst_none. intros c5.
    apply bind_fst_none. intros act' c6. apply seq_fst_none. by intros c7.
  - destruct r as [[|x pt]|e].
    + rewrite seq_fst_none; [done|]. by intros c2.
    + destruct (_ <=? _); [|done]. unfold mbind, M_bind, bind.
      destruct (chat_rel_poll env net fuel c1). cbn. split; [done|]. by exists s, rng.
    + destruct (decide _); [rewrite seq_fst_none; [done|by intros]|]. destruct (decide _).
      * rewrite bind_get. destruct (active (sess c1)).
        { rewrite seq_fst_none; [done|]. intros c3. apply seq_fst_none. by intros c4. }
        rewrite bind_get. change (required c1) with (required c). rewrite Hreq. cbn [negb].
        rewrite seq_fst_none; [done|]. by intros c3.
      * rewrite bind_fst_none; [done|]. intros seen c2. apply seq_fst_none. by intros c3.
Qed.
End received.

(** ** The engine as a step relation *)

Section steps.
Context {P : Prims} (fn : Z) (env : TTE2EEEnv) (net : nat -> tx_result) (fuel : nat).

(** Every entry point of the engine for this friend, enforcement never lifted. *)
Inductive engine_step : chat -> chat -> Prop :=
| es_message c type text now :
    engine_step c (cb_friend_message fn env true net fuel type text now c).2
| es_connection c online now : engine_step c (cb_friend_connection fn env true net online now c).2
| es_send c type text now : engine_step c (cmd_send_message fn env true net type text now c).2
| es_flush c now : engine_step c (offline_flush_friend fn env true net now c).2
| es_tick c now : engine_step c (e2ee_tick env net fuel now c).2
| es_start c now : engine_step c (e2ee_start env net now c).2
| es_enforce c : engine_step c (cmd_enforce fn true c).2.

Lemma enforced_step w0 c c' peer :
  0 <= fn < E2EE_FRIENDS -> peer_pk env = Some peer ->
  enforced w0 c -> engine_step c c' -> enforced w0 c'.
Proof.
  intros Hfn Hp Hc Hstep. revert Hc. destruct Hstep; revert c.
  - by apply (kept_message fn env net fuel Hfn peer).
  - by apply (kept_connection fn env net Hfn peer).
  - by apply (kept_send fn env net Hfn peer).
  - by apply (kept_flush fn env net Hfn peer).
  - by apply (kept_tick env net fuel peer).
  - by apply (kept_start env net peer).
  - unfold cmd_enforce. destruct (_ <=? _); [by intros c|]. by intros c (_ & Hw).
Qed.
End steps.

Lemma flush_blocked {P : Prims} fn env net peer now c q' texts :
  0 <= fn < E2EE_FRIENDS -> peer_pk env = Some peer ->
  required c = true -> e2ee_fallback_due fn now c = true ->
  tt_oq_take_all (oq c) fn = (q', texts) -> texts <> [] ->
  (offline_flush_friend fn env true net now c).2 =
  (if warned c then c <| oq := q' |>
   else c <| oq := q' |> <| warned := true |> <| ui := ui c ++ [UiWarn WarnQueueBlocked] |>)
    <| stored_oq := q' |>.
Proof.
  intros Hfn Hpeer Hreq Hdue Ek Ht. unfold offline_flush_friend. rewrite bind_get, Ek.
  unfold mbind at 1, M_bind at 1, bind at 1, modify at 1.
  destruct texts as [|t l]; [done|]. rewrite Hpeer, (on_true fn Hfn). cbn [negb]. rewrite bind_get.
  change (e2ee_fallback_due fn now (c <| oq := q' |>)) with (e2ee_fallback_due fn now c). rewrite Hdue.
  rewrite bind_get. change (required (c <| oq := q' |>)) with (required c). rewrite Hreq.
  unfold mbind, M_bind, bind, e2ee_warn. rewrite bind_get.
  replace (E2EE_FRIENDS <=? fn) with false by lia. cbn [orb].
  change (warned (c <| oq := q' |>)) with (warned c). by destruct (warned c).
Qed.

(** ** What a plain flush kept *)

Definition storable (t : bytes) : Prop := 0 < len t < TT_OQ_MAX_LINE /\ ~ In 0 t.

Lemma queued_storable q fn :
  oq_wf q -> Forall storable (queued q fn) /\ (length (queued q fn) <= TT_OQ_MAX_PER_FRIEND)%nat.
Proof.
  intros Hwf. unfold queued. destruct (OQ_FRIENDS <=? fn); [split; [constructor|cbn; apply Nat.le_0_l]|].
  destruct (oq_friend_wf q fn Hwf) as (Hr & _ & Hf). split; [exact Hf|].
  unfold friend_items. destruct (msgs (oq_friend q fn)); [|apply Nat.le_0_l].
  rewrite ring_view_length. apply Hr.
Qed.

Section plain_flush.
Context {P : Prims} (fn : Z) (env : TTE2EEEnv) (net : nat -> tx_result).
Context (Hfn : 0 <= fn < OQ_FRIENDS).

Lemma requeue_spec l : forall c,
  oq_wf (oq c) -> Forall storable l ->
  (length (queued (oq c) fn) + length l <= TT_OQ_MAX_PER_FRIEND)%nat ->
  let c' := (requeue fn l c).2 in
  queued (oq c') fn = queued (oq c) fn ++ l /\ wire c' = wire c.
Proof.
  induction l as [|t l IH]; intros c Hwf Hl Hlen; cbn [requeue]; [by rewrite app_nil_r|].
  apply Forall_cons in Hl as [[Ht Hn] Hl]. cbn [length] in Hlen.
  destruct (tt_oq_add_spec (oq c) fn t Hwf Hfn) as (Hwf' & _ & Hq & _);
    [rewrite cstr_no_nul by done; lia|].
  unfold mbind, M_bind, bind, oq_push at 1, modify. set (c1 := c <| oq := _ |>).
  rewrite snprintf_s_idem in Hq by (done || lia).
  rewrite lastn_all in Hq by (rewrite length_app; cbn [length]; lia).
  change ((tt_oq_add (oq c) fn (Some t)).1) with (oq c1) in Hwf', Hq.
  destruct (IH c1 Hwf' Hl) as [E1 E2]; [rewrite Hq, length_app; cbn [length]; lia|].
  change (queued (oq (requeue fn l c1).2) fn = queued (oq c) fn ++ t :: l /\ wire (requeue fn l c1).2 = wire c).
  by rewrite E1, E2, Hq, <- app_assoc.
Qed.

Lemma flush_plain_spec l : forall c,
  oq_wf (oq c) -> queued (oq c) fn = [] -> Forall storable l -> (length l <= TT_OQ_MAX_PER_FRIEND)%nat ->
  let c' := (flush_plain fn net l c).2 in
  exists k, (k <= length l)%nat /\ queued (oq c') fn = drop k l /\
    wire c' = wire c ++ (WPlain MSG_NORMAL <$> take (S k) l) /\
    (forall i, (i < k)%nat -> net (sends c + i)%nat <> TxNotConnected) /\
    ((k < length l)%nat -> net (sends c + k)%nat = TxNotConnected).
Proof.
  induction l as [|t l IH]; intros c Hwf Hq Hl Hlen; cbn [flush_plain].
  { exists 0%nat. cbn. rewrite app_nil_r. split_conj; (done || lia). }
  pose proof Hl as Hl0. apply Forall_cons in Hl as [Ht Hl]. cbn [length] in Hlen.
  unfold bind, tox_send.
  set (c1 := c <| sends := S (sends c) |> <| wire := wire c ++ [WPlain MSG_NORMAL t] |>).
  assert (Hgo : forall m c2, oq c2 = oq c -> sends c2 = S (sends c) -> wire c2 = wire c1 ->
    net (sends c) <> TxNotConnected -> m c1 = (flush_plain fn net l c2) ->
    exists k, (k <= length (t :: l))%nat /\ queued (oq (m c1).2) fn = drop k (t :: l) /\
      wire (m c1).2 = wire c ++ (WPlain MSG_NORMAL <$> take (S k) (t :: l)) /\
      (forall i, (i < k)%nat -> net (sends c + i)%nat <> TxNotConnected) /\
      ((k < length (t :: l))%nat -> net (sends c + k)%nat = TxNotConnected)).
  { intros m c2 E1 E2 E3 Hn ->.
    destruct (IH c2) as (k & Hk & K1 & K2 & K3 & K4); [by rewrite E1|by rewrite E1|done|lia|].
    exists (S k). cbn [length drop]. split; [lia|]. split; [done|]. split.
    { rewrite K2, E3. subst c1. cbn [wire set_field]. rewrite <- app_assoc. done. }
    rewrite E2 in K3, K4. split.
    - intros [|i] Hi; [by rewrite Nat.add_0_r|].
      rewrite Nat.add_succ_r. apply (K3 i). lia.
    - intros H. rewrite Nat.add_succ_r. apply K4. lia. }
  destruct (net (sends c)) eqn:En.
  - apply (Hgo (fun c => (emit_ui (UiSent mid) ;; flush_plain fn net l) c) (c1 <| ui := ui c1 ++ [UiSent mid] |>)); done.
  - destruct (requeue_spec (t :: l) c1) as [E1 E2]; [done|done| |].
    { change (oq c1) with (oq c). rewrite Hq. cbn [length]. lia. }
    change (oq c1) with (oq c) in E1. rewrite Hq in E1.
    exists 0%nat. rewrite E1, E2, Nat.add_0_r. split_conj; try done; cbn [length]; lia.
  - by apply (Hgo (flush_plain fn net l) c1).
Qed.
End plain_flush.

(** ** Properties *)

(** C19: an enforced friend is never spoken to in plaintext. From any state of the
    chat engine in which encryption is required for the friend, no sequence of
    received messages, connection changes, sends, queue flushes, ticks and
    handshake starts hands toxcore anything for that friend but frames of the
    E2EE layer, nor lifts the requirement; and a received message reaches the UI
    only as the plaintext the session decrypted from it. *)
Theorem enforced_never_plaintext {P : Prims} fn env net fuel peer c c'
    (Hfn : 0 <= fn < E2EE_FRIENDS) (Hpeer : peer_pk env = Some peer) (Hreq : required c = true)
    (Hsteps : rtc (engine_step fn env net fuel) c c') :
  required c' = true /\
  (exists w, wire c' = wire c ++ w /\ Forall is_frame w) /\
  (forall text now, match (e2ee_rx fn env true net fuel text now c').1 with
                    | None => True
                    | Some pt => pt <> [] /\ exists s rng,
                        tt_session_feed (sess c') env text TT_FRAME_DATA_MAX (crng c')
                          = (Bytes pt, false, s, rng)
                    end).
Proof.
  assert (H : enforced (wire c) c') by
    (refine (rtc_ind_r (enforced (wire c)) c _ _ c' Hsteps);
     [split; [done|]; exists []; by rewrite app_nil_r
     |intros y z _ Hyz Hy; exact (enforced_step fn env net fuel (wire c) y z peer Hfn Hpeer Hy Hyz)]).
  destruct H as [H1 H2]. split; [done|]. split; [done|].
  intros text now. by apply (rx_passes_decrypted fn env net fuel Hfn peer).
Qed.

(** An enforced friend who never completes the handshake loses the queue. The
    flush takes every queued text out before it finds the friend blocked, warns
    that the messages were not sent, and writes the emptied queue to disk:
    nothing is sent and nothing is kept, in memory or in the file. *)
Theorem enforced_flush_loses_queue {P : Prims} fn env net peer now c
    (Hfn : 0 <= fn < E2EE_FRIENDS) (Hpeer : peer_pk env = Some peer) (Hwf : oq_wf (oq c))
    (Hreq : required c = true) (Hdue : e2ee_fallback_due fn now c = true)
    (Hqueue : queued (oq c) fn <> []) :
  let c' := (offline_flush_friend fn env true net now c).2 in
  wire c' = wire c /\ queued (oq c') fn = [] /\ queued (stored_oq c') fn = [] /\
  ui c' = ui c ++ (if warned c then [] else [UiWarn WarnQueueBlocked]).
Proof.
  pose proof (tt_oq_take_all_spec (oq c) fn Hwf ltac:(lia)) as Hk.
  destruct (tt_oq_take_all (oq c) fn) as [q' texts] eqn:Ek. destruct Hk as (_ & -> & Hq & _).
  rewrite (flush_blocked fn env net peer now c q' _ Hfn Hpeer Hreq Hdue Ek Hqueue). cbv zeta.
  destruct (warned c); (split_conj; [reflexivity|exact Hq|exact Hq|]);
    [symmetry; apply app_nil_r|reflexivity].
Qed.

Lemma flush_plainly {P : Prims} fn env net now c q' texts :
  tt_oq_take_all (oq c) fn = (q', texts) ->
  (offline_flush_friend fn env false net now c).2 =
  let c2 := (flush_plain fn net texts (c <| oq := q' |>)).2 in
  match texts with [] => c2 | _ => c2 <| ui := ui c2 ++ [UiFlushed (length texts)] |> end.
Proof.
  intros Ek. unfold offline_flush_friend. rewrite bind_get, Ek.
  unfold mbind, M_bind, bind, modify. destruct texts as [|t l]; [done|].
  replace (match peer_pk env with Some _ => _ | None => _ end)
    with (fun c => let '(_, c) := flush_plain fn net (t :: l) c in emit_ui (UiFlushed (length (t :: l))) c)
    by (by destruct (peer_pk env)).
  by destruct (flush_plain fn net (t :: l) _) as [u c2].
Qed.

(** a flush over the plain channel kept what it could not send. The queued
    texts are handed to toxcore oldest first, each once; if toxcore reports the
    friend gone at some text, that text and everything behind it is back in the
    queue, in order; otherwise the queue is empty. *)
Theorem plain_flush_conserves {P : Prims} fn env net now c
    (Hfn : 0 <= fn < OQ_FRIENDS) (Hwf : oq_wf (oq c)) :
  let texts := queued (oq c) fn in
  let c' := (offline_flush_friend fn env false net now c).2 in
  exists k, (k <= length texts)%nat /\ queued (oq c') fn = drop k texts /\
    wire c' = wire c ++ (WPlain MSG_NORMAL <$> take (S k) texts) /\
    (forall i, (i < k)%nat -> net (sends c + i)%nat <> TxNotConnected) /\
    ((k < length texts)%nat -> net (sends c + k)%nat = TxNotConnected).
Proof.
  cbv zeta. destruct (queued_storable (oq c) fn Hwf) as [Hl Hlen].
  pose proof (tt_oq_take_all_spec (oq c) fn Hwf ltac:(lia)) as Hk.
  destruct (tt_oq_take_all (oq c) fn) as [q' texts] eqn:Ek. destruct Hk as (Hwf' & -> & Hq & _).
  rewrite (flush_plainly fn env net now c q' _ Ek).
  pose proof (flush_plain_spec fn net Hfn (queued (oq c) fn) (c <| oq := q' |>) Hwf' Hq Hl Hlen) as H.
  by destruct (queued (oq c) fn) as [|t l].
Qed.

Definition blocked_chat : chat := @mkChat sample_prims
  tt_session_init true false false 1000 sample_queue false true sample_queue (5 : Z) 0 [] [].
Definition blocked_env : TTE2EEEnv := mkEnv (zrep 32 1) (zrep 32 2) (Some (zrep 32 3)).

Lemma enforced_never_plaintext_witness :
  required (P:=sample_prims)
    (cmd_send_message (P:=sample_prims) 3 blocked_env true (fun _ => TxOk 1) 0 [104; 105] 2000 blocked_chat).2 = true.
Proof.
  refine (proj1 (@enforced_never_plaintext sample_prims 3 blocked_env (fun _ => TxOk 1) 35 (zrep 32 3)
    blocked_chat _ ltac:(done) eq_refl eq_refl _)).
  apply rtc_once, es_send.
Defined.

Lemma enforced_flush_loses_queue_witness :
  length (queued sample_queue 3) = 2%nat /\
  queued (oq (P:=sample_prims)
    (offline_flush_friend (P:=sample_prims) 3 blocked_env true (fun _ => TxOk 1) 2000 blocked_chat).2) 3 = [].
Proof.
  assert (Hadd : forall q fn t, oq_wf q -> 0 <= fn < OQ_FRIENDS -> 0 < len (cstr t) ->
      oq_wf (tt_oq_add q fn (Some t)).1) by (intros; by apply tt_oq_add_spec).
  assert (Hwf : oq_wf sample_queue) by (repeat (apply Hadd; [|done|done]); apply oq_init_wf).
  split; [vm_compute; reflexivity|].
  refine (proj1 (proj2 (@enforced_flush_loses_queue sample_prims 3 blocked_env (fun _ => TxOk 1)
    (zrep 32 3) 2000 blocked_chat ltac:(done) eq_refl Hwf eq_refl eq_refl _))).
  vm_compute. discriminate.
Defined.

Lemma plain_flush_conserves_witness :
  exists k, queued (oq (P:=sample_prims) (offline_flush_friend (P:=sample_prims) 3 blocked_env false
    (fun i => if (i =? 0)%nat then TxOk 1 else TxNotConnected) 2000 blocked_chat).2) 3
    = drop k (queued sample_queue 3).
Proof.
  assert (Hadd : forall q fn t, oq_wf q -> 0 <= fn < OQ_FRIENDS -> 0 < len (cstr t) ->
      oq_wf (tt_oq_add q fn (Some t)).1) by (intros; by apply tt_oq_add_spec).
  assert (Hwf : oq_wf sample_queue) by (repeat (apply Hadd; [|done|done]); apply oq_init_wf).
  destruct (@plain_flush_conserves sample_prims 3 blocked_env
    (fun i => if (i =? 0)%nat then TxOk 1 else TxNotConnected) 2000 blocked_chat ltac:(done) Hwf)
    as (k & _ & H & _).
  exists k. exact H.
Defined.
