(* ===== verification/SessionStore.v ===== *)
(** * SessionStore: the session sidecar ([src/session_store.c])

    The record written for each active session, its reader, and the file.  The
    reader's cursor is the list of bytes from [*p] to [end]; a read past it is
    [Oob], the code's [return -1] is [Fail]. *)
From S2P Require Import Prelude Ring CText Crypto Frame Session SessionRing SessionSafety Sidecar.

Definition TT_SES_MAGIC : bytes := ascii_bytes "TTSES1".
Definition SES_FRIENDS : nat := 256.
Definition SES_MAX_FILE : Z := 4 * 1024 * 1024.

(** ** Writing *)

Definition buf_u8 (v : Z) : bytes := [u8 v].
Definition buf_u16 (v : Z) : bytes := be16 v.
Definition buf_u32 (v : Z) : bytes := be32 v.
Definition buf_bool (b : bool) : bytes := buf_u8 (if b then 1 else 0).

Definition ratchet_put (r : TTRatchet) : bytes :=
  ztake TT_KEY32 (chain r) ++ buf_u32 (seq r) ++ ztake TT_KEY32 (rroot r) ++
  buf_u16 (since_fold r) ++ buf_u16 (len (skipped r)) ++
  concat ((fun e => buf_u32 e.1 ++ ztake TT_KEY32 e.2) <$> skipped r).

Definition rekey_put (k : TTRekey) : bytes :=
  ztake TT_KEY32 (eph_sk k) ++ ztake TT_KEY32 (eph_pk k) ++ buf_bool (have_kem k) ++
  ztake TT_KEM_PK (rk_kem_pk k) ++ ztake TT_KEM_SK (rk_kem_sk k) ++ buf_bool (peer_have k) ++
  ztake TT_KEM_PK (peer_kem_pk k) ++ ztake TT_KEY32 (peer_eph_pk k) ++ buf_bool (rekey_due k) ++
  buf_bool (awaiting_peer k) ++ buf_bool (published k) ++ buf_bool (post_fold_publish k) ++
  buf_bool (publish_back k).

Definition sent_put (m : TTSentMsg) : bytes :=
  buf_u32 (m_gen m) ++ buf_u32 (m_seq m) ++ buf_u16 (m_len m) ++ ztake (m_len m) (m_data m).

Definition rel_put (r : TTReliable) : bytes :=
  buf_u16 (Z.of_nat (sb_count (sent r))) ++ concat (sent_put <$> sent_slots (sent r)) ++
  buf_u32 (recv_acked r) ++ buf_bool (ack_due r) ++ buf_bool (resend_req_pending r) ++
  buf_u32 (resend_req_gen r) ++ buf_u32 (resend_req_from r) ++ buf_bool (resend_rep_pending r) ++
  buf_u32 (resend_rep_gen r) ++ buf_u32 (resend_rep_from r) ++ buf_u16 (resend_rep_pos r).

(** The first byte is the friend number, patched in by the caller. *)
Definition session_put (fn : Z) (s : TTSession) : bytes :=
  buf_u8 fn ++ buf_bool (i_am_initiator s) ++ ztake TT_KEY32 (root s) ++
  ratchet_put (send s) ++ ratchet_put (recv s) ++ rekey_put (rekey s) ++ rel_put (rel s).

(** The active sessions, numbered. *)
Fixpoint active_sessions (fn : Z) (e2ee : list TTSession) : list (Z * TTSession) :=
  match e2ee with
  | [] => []
  | s :: e2ee => (if active s then [(fn, s)] else []) ++ active_sessions (fn + 1) e2ee
  end.

(** [uint8_t count] *)
Definition active_count (e2ee : list TTSession) : Z := u8 (len (active_sessions 0 e2ee)).

Definition ses_plaintext (e2ee : list TTSession) : bytes :=
  TT_SES_MAGIC ++ buf_u8 (active_count e2ee) ++
  concat ((fun e => session_put e.1 e.2) <$> active_sessions 0 e2ee).

(** ** Reading *)

Definition get_bytes (n : Z) (l : bytes) : outcome (bytes * bytes) :=
  if len l <? n then Oob else Ok (ztake n l, zdrop n l).
Definition get_u8 (l : bytes) : outcome (Z * bytes) :=
  '(b, l) ← get_bytes 1 l; Ok (zat b 0, l).
Definition get_bool (l : bytes) : outcome (bool * bytes) :=
  '(b, l) ← get_u8 l; Ok (negb (b =? 0), l).
Definition get_u16 (l : bytes) : outcome (Z * bytes) :=
  '(b, l) ← get_bytes 2 l; Ok (rd16 (zat b 0) (zat b 1), l).
Definition get_u32 (l : bytes) : outcome (Z * bytes) :=
  '(b, l) ← get_bytes 4 l; Ok (rd32 (zat b 0) (zat b 1) (zat b 2) (zat b 3), l).
(** The guard [p + n > end], [return -1]. *)
Definition need (n : Z) (l : bytes) : outcome unit := guard_ok (n <=? len l).

Fixpoint skipped_get (n : nat) (l : bytes) : outcome (list (Z * bytes) * bytes) :=
  match n with
  | O => Ok ([], l)
  | S n =>
      _ ← need (4 + TT_KEY32) l;
      '(sq, l) ← get_u32 l;
      '(key, l) ← get_bytes TT_KEY32 l;
      '(rest, l) ← skipped_get n l;
      Ok ((sq, key) :: rest, l)
  end.

Definition ratchet_get (l : bytes) : outcome (TTRatchet * bytes) :=
  _ ← need (TT_KEY32 + 4 + TT_KEY32 + 2 + 2) l;
  '(ch, l) ← get_bytes TT_KEY32 l;
  '(sq, l) ← get_u32 l;
  '(rt, l) ← get_bytes TT_KEY32 l;
  '(fold, l) ← get_u16 l;
  '(n, l) ← get_u16 l;
  _ ← guard_ok (n <=? TT_SESSION_SKIPPED_MAX);
  '(sk, l) ← skipped_get (Z.to_nat n) l;
  Ok (mkRatchet ch sq rt fold sk, l).

(** [carrier] is not stored: it keeps the record's old value. *)
Definition rekey_get (old : bytes) (l : bytes) : outcome (TTRekey * bytes) :=
  _ ← need (TT_KEY32 + TT_KEY32 + 1 + TT_KEM_PK + TT_KEM_SK + 1 + TT_KEM_PK + TT_KEY32 + 5) l;
  '(esk, l) ← get_bytes TT_KEY32 l;
  '(epk, l) ← get_bytes TT_KEY32 l;
  '(hk, l) ← get_bool l;
  '(kpk, l) ← get_bytes TT_KEM_PK l;
  '(ksk, l) ← get_bytes TT_KEM_SK l;
  '(ph, l) ← get_bool l;
  '(pkpk, l) ← get_bytes TT_KEM_PK l;
  '(pepk, l) ← get_bytes TT_KEY32 l;
  '(due, l) ← get_bool l;
  '(aw, l) ← get_bool l;
  '(pub, l) ← get_bool l;
  '(pfp, l) ← get_bool l;
  '(pb, l) ← get_bool l;
  Ok (mkRekey esk epk hk kpk ksk ph pkpk pepk due aw pub pfp pb old, l).

(** Entry [i] of the ring is read into slot [i], over the slot's old bytes. *)
Fixpoint sent_get (n i : nat) (m : list TTSentMsg) (l : bytes) : outcome (list TTSentMsg * bytes) :=
  match n with
  | O => Ok (m, l)
  | S n =>
      _ ← need (4 + 4 + 2) l;
      '(gen, l) ← get_u32 l;
      '(sq, l) ← get_u32 l;
      '(ln, l) ← get_u16 l;
      _ ← guard_ok (negb (TT_FRAME_DATA_MAX <? ln) && (ln <=? len l));
      '(d, l) ← get_bytes ln l;
      let old := m_data (default zero_sent_msg (m !! i)) in
      sent_get n (S i) (<[i := mkSentMsg gen sq ln (overwrite d old)]> m) l
  end.

Definition rel_get (old : TTReliable) (l : bytes) : outcome (TTReliable * bytes) :=
  _ ← need 2 l;
  '(n, l) ← get_u16 l;
  _ ← guard_ok (n <=? Z.of_nat TT_SENT_MAX);
  '(m, l) ← sent_get (Z.to_nat n) 0 (sb_m (sent old)) l;
  _ ← need (4 + 1 + 1 + 4 + 4 + 1 + 4 + 4 + 2) l;
  '(acked, l) ← get_u32 l;
  '(ad, l) ← get_bool l;
  '(rqp, l) ← get_bool l;
  '(rqg, l) ← get_u32 l;
  '(rqf, l) ← get_u32 l;
  '(rpp, l) ← get_bool l;
  '(rpg, l) ← get_u32 l;
  '(rpf, l) ← get_u32 l;
  '(pos, l) ← get_u16 l;
  Ok (mkReliable (mkSentBuf m 0 (Z.to_nat n)) acked ad rqp rqg rqf rpp rpg rpf pos, l).

(** A whole record over the old contents [s] of its slot. *)
Definition session_get (s : TTSession) (l : bytes) : outcome (TTSession * bytes) :=
  _ ← need (1 + 1 + TT_KEY32) l;
  '(fn, l) ← get_u8 l;
  '(init, l) ← get_bool l;
  '(rt, l) ← get_bytes TT_KEY32 l;
  '(sr, l) ← ratchet_get l;
  '(rr, l) ← ratchet_get l;
  '(k, l) ← rekey_get (carrier (rekey s)) l;
  '(r, l) ← rel_get (rel s) l;
  Ok (s <| i_am_initiator := init |> <| root := rt |> <| send := sr |> <| recv := rr |>
        <| rekey := k |> <| rel := r |> <| active := true |>, l).

(** The entry loop.  [Fail] of an entry ends it; the second component is the
    slot of that entry, which the code leaves partly overwritten (the model
    keeps its old contents). *)
Fixpoint load_sessions (count : nat) (e2ee : list TTSession) (l : bytes)
    : outcome (list TTSession * option Z) :=
  match count with
  | O => Ok (e2ee, None)
  | S count =>
      match l with
      | [] => Ok (e2ee, None)
      | fn :: _ =>
          match session_get (default tt_session_init (e2ee !! Z.to_nat fn)) l with
          | Oob => Oob
          | Fail => Ok (e2ee, Some fn)
          | Ok (s, l) => load_sessions count (<[Z.to_nat fn := s]> e2ee) l
          end
      end
  end.

Definition parse_sessions (e2ee : list TTSession) (pt : bytes) : outcome (list TTSession * option Z) :=
  if (len pt <? 6) || negb (bytes_eqb (ztake 6 pt) TT_SES_MAGIC) then Ok (e2ee, None) else
  match zdrop 6 pt with
  | [] => Ok (e2ee, None)
  | count :: l => load_sessions (Z.to_nat count) e2ee l
  end.

Section file.
Context {K : PassKey}.

(** [None]: no file. *)
Definition tt_session_store_save (e2ee : list TTSession) (key : option Key) (nonce : bytes)
    (old : option bytes) : option bytes :=
  if active_count e2ee =? 0 then None
  else (sidecar_save SES_MAX_FILE key nonce old (ses_plaintext e2ee)).1.

(** Decryption needs a key here: without one an encrypted file is parsed as it is. *)
Definition ses_load_bytes (key : option Key) (file : option bytes) : option (bytes * Z) :=
  match key with
  | Some _ => sidecar_load SES_MAX_FILE key file
  | None =>
      match file with
      | None => None
      | Some f => if (len f <=? 0) || (SES_MAX_FILE <? len f) then None else Some (f, len f)
      end
  end.

Definition tt_session_store_load (e2ee : list TTSession) (key : option Key) (file : option bytes)
    : outcome (list TTSession * option Z) :=
  match ses_load_bytes key file with
  | None => Ok (e2ee, None)
  | Some (buf, pt_len) => parse_sessions e2ee (ztake pt_len buf)
  end.
End file.
