(* ===== verification/SessionStoreProofs.v ===== *)
(** * SessionStoreProofs: the session file is read back, and reads are safe

    The round trip of [session_put] and [session_get] and of the whole file,
    and what an arbitrary file can do to the session array. *)
From S2P Require Import Prelude Ring CText Crypto SampleCrypto Frame Session SessionRing SessionSafety Sidecar SessionStore.

(** ** Reading back single fields *)

Lemma get_bytes_app n (a l : bytes) : len a = n -> get_bytes n (a ++ l) = Ok (a, l).
Proof.
  intros H. unfold get_bytes. rewrite len_app. pose proof (len_nonneg l).
  replace (len a + len l <? n) with false by lia. by rewrite ztake_app, zdrop_app.
Qed.
Lemma get_u8_put v l : is_byte v -> get_u8 (buf_u8 v ++ l) = Ok (v, l).
Proof.
  intros H. unfold get_u8. rewrite get_bytes_app by done.
  cbn [mbind outcome_bind]. change (zat (buf_u8 v) 0) with (u8 v). by rewrite u8_small.
Qed.
Lemma get_bool_put b l : get_bool (buf_bool b ++ l) = Ok (b, l).
Proof. unfold get_bool, buf_bool. rewrite get_u8_put by (destruct b; done). by destruct b. Qed.
Lemma get_u16_put v l : is_u16 v -> get_u16 (buf_u16 v ++ l) = Ok (v, l).
Proof.
  intros H. unfold get_u16. rewrite get_bytes_app by done. cbn [mbind outcome_bind].
  do 2 f_equal. by apply rd16_be16.
Qed.
Lemma get_u32_put v l : is_u32 v -> get_u32 (buf_u32 v ++ l) = Ok (v, l).
Proof.
  intros H. unfold get_u32. rewrite get_bytes_app by done. cbn [mbind outcome_bind].
  do 2 f_equal. by apply rd32_be32.
Qed.
Lemma need_app n a (l : bytes) : n <= len a -> need n (a ++ l) = Ok tt.
Proof.
  intros H. unfold need, guard_ok. rewrite len_app. pose proof (len_nonneg l).
  by replace (n <=? len a + len l) with true by lia.
Qed.
Lemma guard_true b : b = true -> guard_ok b = Ok tt.
Proof. by intros ->. Qed.

(** ** Records *)

Record ratchet_rec (r : TTRatchet) : Prop := {
  rr_chain : len (chain r) = TT_KEY32; rr_root : len (rroot r) = TT_KEY32;
  rr_seq : is_u32 (seq r); rr_fold : is_u16 (since_fold r);
  rr_count : len (skipped r) <= TT_SESSION_SKIPPED_MAX;
  rr_skipped : Forall (fun e => is_u32 e.1 /\ len e.2 = TT_KEY32) (skipped r) }.

Record rekey_rec (k : TTRekey) : Prop := {
  kr_esk : len (eph_sk k) = TT_KEY32; kr_epk : len (eph_pk k) = TT_KEY32;
  kr_kpk : len (rk_kem_pk k) = TT_KEM_PK; kr_ksk : len (rk_kem_sk k) = TT_KEM_SK;
  kr_pkpk : len (peer_kem_pk k) = TT_KEM_PK; kr_pepk : len (peer_eph_pk k) = TT_KEY32 }.

Definition slot_rec (m : TTSentMsg) : Prop :=
  is_u32 (m_gen m) /\ is_u32 (m_seq m) /\ 0 <= m_len m <= TT_FRAME_DATA_MAX /\
  len (m_data m) = TT_FRAME_DATA_MAX.

Record rel_rec (r : TTReliable) : Prop := {
  lr_wf : sent_wf (sent r); lr_slots : Forall slot_rec (sent_slots (sent r));
  lr_acked : is_u32 (recv_acked r); lr_rqg : is_u32 (resend_req_gen r);
  lr_rqf : is_u32 (resend_req_from r); lr_rpg : is_u32 (resend_rep_gen r);
  lr_rpf : is_u32 (resend_rep_from r); lr_pos : is_u16 (resend_rep_pos r) }.

(** The C fields hold what their types and arrays hold. *)
Record session_rec (s : TTSession) : Prop := {
  sr_root : len (root s) = TT_KEY32; sr_send : ratchet_rec (send s); sr_recv : ratchet_rec (recv s);
  sr_rekey : rekey_rec (rekey s); sr_rel : rel_rec (rel s) }.

(** What comes back: the live texts moved to the start of a zeroed ring, the
    transient handshake state gone. *)
Fixpoint write_slots (i : nat) (l m : list TTSentMsg) : list TTSentMsg :=
  match l with
  | [] => m
  | x :: l =>
      let old := m_data (default zero_sent_msg (m !! i)) in
      write_slots (S i) l
        (<[i := mkSentMsg (m_gen x) (m_seq x) (m_len x) (overwrite (ztake (m_len x) (m_data x)) old)]> m)
  end.

Definition stored_ring (b : TTSentBuf) : TTSentBuf :=
  mkSentBuf (write_slots 0 (sent_slots b) (sb_m zero_sent_buf)) 0 (sb_count b).

Definition stored (s : TTSession) : TTSession :=
  tt_session_init <| i_am_initiator := i_am_initiator s |> <| root := root s |>
    <| send := send s |> <| recv := recv s |> <| rekey := (rekey s) <| carrier := [] |> |>
    <| rel := (rel s) <| sent := stored_ring (sent (rel s)) |> |> <| active := true |>.

Lemma ztake_exact {A} n (l : list A) : len l = n -> ztake n l = l.
Proof. intros <-. apply ztake_all. lia. Qed.

Lemma len_concat_ge {A B} (f : A -> list B) k l :
  (forall x, k <= len (f x)) -> k * len l <= len (concat (f <$> l)).
Proof.
  intros H. induction l as [|x l IH]; cbn [fmap list_fmap concat]; [change (len []) with 0; lia|].
  rewrite len_cons, len_app. specialize (H x). lia.
Qed.

Lemma skipped_get_put sk l :
  Forall (fun e => is_u32 e.1 /\ len e.2 = TT_KEY32) sk ->
  skipped_get (length sk) (concat ((fun e => buf_u32 e.1 ++ ztake TT_KEY32 e.2) <$> sk) ++ l) = Ok (sk, l).
Proof.
  induction 1 as [|[sq key] sk [Hs Hk] _ IH]; [done|]. cbn [fst snd] in *.
  cbn [length skipped_get fmap list_fmap concat fst snd]. rewrite (ztake_exact _ key Hk), <- !app_assoc.
  rewrite (app_assoc (buf_u32 sq)), need_app by (rewrite len_app, Hk; done). rewrite <- app_assoc.
  cbn [mbind outcome_bind]. rewrite get_u32_put by done. cbn [mbind outcome_bind].
  rewrite get_bytes_app by done. cbn [mbind outcome_bind]. by rewrite IH.
Qed.

Ltac read_back :=
  repeat first
    [ rewrite get_u32_put by done | rewrite get_u16_put by done | rewrite get_bool_put
    | rewrite get_bytes_app by done ]; cbn [mbind outcome_bind].

Lemma need_5 (a b c d e : bytes) l n :
  n <= len a + len b + len c + len d + len e -> need n (a ++ b ++ c ++ d ++ e ++ l) = Ok tt.
Proof. intros H. rewrite !app_assoc. apply need_app. rewrite !len_app. lia. Qed.

Lemma ratchet_get_put r l : ratchet_rec r -> ratchet_get (ratchet_put r ++ l) = Ok (r, l).
Proof.
  intros [Hc Hr Hs Hf Hn Hk]. unfold ratchet_get, ratchet_put. rewrite <- !app_assoc.
  rewrite (ztake_exact _ _ Hc), (ztake_exact _ _ Hr).
  rewrite need_5 by (rewrite Hc, Hr; done). cbn [mbind outcome_bind].
  assert (Hn16 : is_u16 (len (skipped r)))
    by (pose proof (len_nonneg (skipped r)); unfold is_u16, TT_SESSION_SKIPPED_MAX in *; lia).
  do 5 read_back. rewrite guard_true by lia. cbn [mbind outcome_bind].
  unfold len at 1. rewrite Nat2Z.id, skipped_get_put by done. by destruct r.
Qed.

Lemma rekey_get_put k l :
  rekey_rec k -> rekey_get [] (rekey_put k ++ l) = Ok (k <| carrier := [] |>, l).
Proof.
  intros [H1 H2 H3 H4 H5 H6]. unfold rekey_get.
  rewrite need_app.
  2: { unfold rekey_put. rewrite !len_app, !ztake_exact by done.
       rewrite H1, H2, H3, H4, H5, H6. cbn. done. }
  cbn [mbind outcome_bind]. unfold rekey_put. rewrite <- !app_assoc, !ztake_exact by done.
  do 13 read_back. done.
Qed.

Lemma sent_put_app x l :
  sent_put x ++ l = buf_u32 (m_gen x) ++ buf_u32 (m_seq x) ++ buf_u16 (m_len x) ++
                    ztake (m_len x) (m_data x) ++ l.
Proof. unfold sent_put. by rewrite <- !app_assoc. Qed.

Lemma sent_get_put sl l : forall i m,
  Forall slot_rec sl ->
  sent_get (length sl) i m (concat (sent_put <$> sl) ++ l) = Ok (write_slots i sl m, l).
Proof.
  induction sl as [|x sl IH]; intros i m H; [done|]. apply Forall_cons in H as [(Hg & Hs & Hl & Hd) H].
  cbn [length sent_get fmap list_fmap concat write_slots]. rewrite <- app_assoc, sent_put_app.
  set (d := ztake (m_len x) (m_data x)).
  assert (Hd' : len d = m_len x) by (subst d; apply len_ztake; lia).
  assert (Hu : is_u16 (m_len x)) by (unfold is_u16, TT_FRAME_DATA_MAX, TT_FRAME_MAX, TT_FRAME_HEAD_MAX, TT_MAC16 in *; lia).
  rewrite need_5 by (rewrite Hd'; pose proof (len_nonneg (concat (sent_put <$> sl)));
    change (len (buf_u32 (m_gen x))) with 4; change (len (buf_u32 (m_seq x))) with 4; change (len (buf_u16 (m_len x))) with 2;
     lia).
  cbn [mbind outcome_bind]. do 3 read_back.
  rewrite guard_true.
  2: { rewrite len_app, Hd'. pose proof (len_nonneg (concat (sent_put <$> sl) ++ l)). lia. }
  cbn [mbind outcome_bind]. read_back. by apply IH.
Qed.

(** A length guard in front of fields that are long enough. *)
Ltac need_ok :=
  match goal with |- context [need ?n ?x] =>
    replace (need n x) with (@Ok unit tt);
    [| symmetry; unfold need, guard_ok, buf_u8, buf_u16, buf_u32, buf_bool, buf_u8;
       autorewrite with bytes; rewrite ?len_be32, ?len_be16;
       match goal with |- context [?a <=? ?b] => replace (a <=? b) with true; [done|] end;
       repeat match goal with |- context [len ?l] => lazymatch goal with
         | _ : 0 <= len l |- _ => fail | _ => pose proof (len_nonneg l) end end; lia ] end.

Lemma rel_get_put r l :
  rel_rec r ->
  rel_get zero_reliable (rel_put r ++ l) = Ok (r <| sent := stored_ring (sent r) |>, l).
Proof.
  intros [Hwf Hslots H1 H2 H3 H4 H5 H6]. unfold rel_get, rel_put. rewrite <- !app_assoc.
  pose proof Hwf as (_ & _ & Hc). unfold TT_SENT_MAX in Hc.
  assert (Hn : is_u16 (Z.of_nat (sb_count (sent r)))) by (unfold is_u16; lia).
  rewrite need_app by done. cbn [mbind outcome_bind]. read_back.
  change (Z.of_nat TT_SENT_MAX) with 32. rewrite guard_true by lia. cbn [mbind outcome_bind]. rewrite Nat2Z.id.
  replace (sb_count (sent r)) with (length (sent_slots (sent r))) at 1 by apply ring_view_length.
  rewrite sent_get_put by done. cbn [mbind outcome_bind].
  need_ok.
  cbn [mbind outcome_bind]. do 9 read_back. by destruct r.
Qed.

Lemma session_get_put fn s l :
  session_rec s -> is_byte fn ->
  session_get tt_session_init (session_put fn s ++ l) = Ok (stored s, l).
Proof.
  intros [H1 H2 H3 H4 H5] Hfn. unfold session_get, session_put. rewrite <- !app_assoc.
  rewrite (ztake_exact _ (root s)) by done.
  need_ok.
  cbn [mbind outcome_bind]. rewrite get_u8_put by done. cbn [mbind outcome_bind].
  do 2 read_back. rewrite ratchet_get_put by done. cbn [mbind outcome_bind].
  rewrite ratchet_get_put by done. cbn [mbind outcome_bind].
  change (carrier (rekey tt_session_init)) with (@nil Z). rewrite rekey_get_put by done.
  cbn [mbind outcome_bind]. change (rel tt_session_init) with zero_reliable.
  by rewrite rel_get_put.
Qed.

(** ** The file *)

Definition restored (s : TTSession) : TTSession := if active s then stored s else tt_session_init.

Lemma load_sessions_put rest : forall pre l,
  (length pre + length rest <= SES_FRIENDS)%nat ->
  Forall (fun s => active s = true -> session_rec s) rest ->
  let es := active_sessions (len pre) rest in
  load_sessions (length es) (pre ++ replicate (length rest) tt_session_init)
    (concat ((fun e => session_put e.1 e.2) <$> es) ++ l) = Ok (pre ++ (restored <$> rest), None).
Proof.
  induction rest as [|s rest IH]; intros pre l Hn Hrec; [done|].
  apply Forall_cons in Hrec as [Hs Hrec]. cbn [length] in Hn.
  specialize (IH (pre ++ [restored s]) l). rewrite length_app, len_app in IH.
  cbn [length] in IH. specialize (IH ltac:(lia) Hrec). change (len [restored s]) with 1 in IH.
  rewrite <- !app_assoc in IH. cbn [active_sessions length replicate fmap list_fmap].
  unfold restored in IH |- * at 1. destruct (active s); [|exact IH].
  assert (Hfn : is_byte (len pre)) by (unfold is_byte, len, SES_FRIENDS in *; lia).
  cbn [app length load_sessions fmap list_fmap concat fst snd]. rewrite <- app_assoc.
  destruct (session_put (len pre) s ++ _) as [|b tl] eqn:E.
  { apply (f_equal length) in E. rewrite length_app in E. done. }
  assert (Hb : b = len pre).
  { apply (f_equal (fun l => l !! 0%nat)) in E. injection E as <-. by apply u8_small. }
  rewrite <- E, Hb. assert (Hz : Z.to_nat (len pre) = length pre) by apply Nat2Z.id. rewrite Hz.
  rewrite lookup_app_r, Nat.sub_diag by lia. cbn [lookup list_lookup default].
  rewrite session_get_put by auto. rewrite insert_app_r_alt, Nat.sub_diag by lia. exact IH.
Qed.

Lemma ses_plaintext_starts e2ee : plain_start (ses_plaintext e2ee).
Proof. unfold plain_start, ses_plaintext. intros H. by apply (f_equal (fun l => l !! 0%nat)) in H. Qed.

Lemma parse_sessions_put e2ee :
  (length e2ee <= SES_FRIENDS)%nat -> len (active_sessions 0 e2ee) < 256 ->
  Forall (fun s => active s = true -> session_rec s) e2ee ->
  parse_sessions (replicate (length e2ee) tt_session_init) (ses_plaintext e2ee)
    = Ok (restored <$> e2ee, None).
Proof.
  intros Hn Hc Hrec. unfold parse_sessions.
  destruct (_ || _) eqn:E.
  { unfold ses_plaintext in E. rewrite ztake_app, bytes_eqb_refl in E by done.
    rewrite len_app in E. change (len TT_SES_MAGIC) with 6 in E.
    apply orb_true_iff in E as [E|E]; [|done]. apply Z.ltb_lt in E.
    match type of E with _ + len ?x < _ => pose proof (len_nonneg x) end. lia. }
  unfold ses_plaintext. rewrite zdrop_app by done. cbn [buf_u8 app]. unfold active_count.
  rewrite !(u8_small (u8 _)) by apply u8_byte.
  pose proof (len_nonneg (active_sessions 0 e2ee)). rewrite u8_small by (unfold is_byte; lia).
  unfold len. rewrite Nat2Z.id.
  rewrite <- (app_nil_r (concat _)). by apply (load_sessions_put e2ee []).
Qed.

Lemma write_slots_view sl : forall i m,
  Forall slot_rec sl -> Forall (fun x => len (m_data x) = TT_FRAME_DATA_MAX) m ->
  (i + length sl <= length m)%nat ->
  length (write_slots i sl m) = length m /\
  (forall j, (j < i)%nat -> write_slots i sl m !! j = m !! j) /\
  forall j, (j < length sl)%nat ->
    item_of (default zero_sent_msg (write_slots i sl m !! (i + j)%nat))
      = item_of (default zero_sent_msg (sl !! j)).
Proof.
  induction sl as [|x sl IH]; intros i m Hsl Hm Hi; cbn [write_slots length] in *.
  { split_conj; [done|done|lia]. }
  apply Forall_cons in Hsl as [(Hg & Hs & Hl & Hd) Hsl].
  set (x' := mkSentMsg _ _ _ _).
  assert (Hx : item_of x' = item_of x).
  { unfold item_of, x'. cbn [m_gen m_seq m_len m_data]. f_equal.
    rewrite <- (ztake_overwrite (ztake (m_len x) (m_data x))
                  (m_data (default zero_sent_msg (m !! i)))) at 2.
    f_equal. rewrite len_ztake; lia. }
  assert (Hm' : Forall (fun x => len (m_data x) = TT_FRAME_DATA_MAX) (<[i:=x']> m)).
  { apply Forall_insert; [done|]. unfold x'. cbn [m_data].
    destruct (lookup_lt_is_Some_2 m i ltac:(lia)) as [y Hy]. rewrite Hy. cbn [default id].
    eapply Forall_lookup_1 in Hm; [|done]. cbn beta in Hm. rewrite len_overwrite; [done|]. cbn. rewrite len_ztake; lia. }
  destruct (IH (S i) (<[i:=x']> m) Hsl Hm') as (H1 & H2 & H3); [rewrite length_insert; lia|].
  rewrite length_insert in H1. split_conj; [done| |].
  - intros j Hj. rewrite H2 by lia. by rewrite list_lookup_insert_ne by lia.
  - intros [|j] Hj.
    + rewrite Nat.add_0_r, H2 by lia. rewrite list_lookup_insert_eq by lia. done.
    + replace (i + S j)%nat with (S i + j)%nat by lia. apply H3. lia.
Qed.

(** The texts waiting for an acknowledgement survive, in order. *)
Lemma stored_ring_items b :
  sent_wf b -> Forall slot_rec (sent_slots b) -> sent_items (stored_ring b) = sent_items b.
Proof.
  intros (_ & _ & Hc) Hs. unfold sent_items. apply list_eq. intros i.
  assert (Hlen : length (sent_slots b) = sb_count b) by apply ring_view_length.
  destruct (write_slots_view (sent_slots b) 0 (sb_m zero_sent_buf) Hs) as (_ & _ & H).
  { apply Forall_replicate. done. }
  { rewrite Hlen. exact Hc. }
  rewrite !list_lookup_fmap. destruct (decide (i < sb_count b)%nat) as [Hi|Hi].
  - specialize (H i ltac:(lia)). unfold sent_slots at 1, stored_ring at 1. cbn [sb_m sb_head sb_count].
    change (sb_count (stored_ring b)) with (sb_count b).
    rewrite ring_view_lookup by done. cbn [fmap option_fmap option_map].
    destruct (lookup_lt_is_Some_2 (sent_slots b) i ltac:(lia)) as [y Hy].
    rewrite Hy in H |- *. unfold default, id in H; cbn [fmap option_fmap option_map] in H |- *. rewrite <- H.
    unfold ring_at, ring_idx, stored_ring. cbn [sb_m sb_head].
    by rewrite Nat.add_0_l, Nat.mod_small by lia.
  - rewrite !lookup_ge_None_2; [done|lia|]. unfold sent_slots. rewrite ring_view_length.
    change (sb_count (stored_ring b)) with (sb_count b). lia.
Qed.

(** ** Arbitrary files *)

Section safety.

(** A reader that stays inside the bytes it is given: it fails, or leaves
    bytes behind a result that satisfies [Q]. *)
Definition reads {A} (Q : A -> Prop) (o : outcome (A * bytes)) : Prop :=
  match o with Ok (a, l) => Q a /\ all_bytes l | Fail => True | Oob => False end.

(** The same when the length was checked before. *)
Definition reads_n {A} (n : Z) (l : bytes) (Q : A -> Prop) (o : outcome (A * bytes)) : Prop :=
  exists a l', o = Ok (a, l') /\ Q a /\ all_bytes l' /\ len l' = len l - n.

Lemma get_bytes_reads n l :
  0 <= n <= len l -> all_bytes l -> reads_n n l (fun b => len b = n /\ all_bytes b) (get_bytes n l).
Proof.
  intros Hn Hl. unfold get_bytes. replace (len l <? n) with false by lia.
  exists (ztake n l), (zdrop n l). rewrite len_ztake, len_zdrop by lia. auto with bytes.
Qed.

Lemma get_u8_reads l : 1 <= len l -> all_bytes l -> reads_n 1 l is_byte (get_u8 l).
Proof.
  intros Hn Hl. unfold get_u8.
  destruct (get_bytes_reads 1 l) as (a & l' & -> & [_ Ha] & H); [lia|done|].
  eexists _, _. split; [reflexivity|]. auto with bytes.
Qed.

Lemma get_bool_reads l : 1 <= len l -> all_bytes l -> reads_n 1 l (fun _ => True) (get_bool l).
Proof.
  intros Hn Hl. unfold get_bool. destruct (get_u8_reads l) as (a & l' & -> & _ & H); [done|done|].
  eexists _, _. split; [reflexivity|]. auto.
Qed.

Lemma get_u16_reads l : 2 <= len l -> all_bytes l -> reads_n 2 l is_u16 (get_u16 l).
Proof.
  intros Hn Hl. unfold get_u16.
  destruct (get_bytes_reads 2 l) as (a & l' & -> & [_ Ha] & H); [lia|done|].
  eexists _, _. split; [reflexivity|]. split; [|done]. apply rd16_u16; auto with bytes.
Qed.

Lemma get_u32_reads l : 4 <= len l -> all_bytes l -> reads_n 4 l is_u32 (get_u32 l).
Proof.
  intros Hn Hl. unfold get_u32.
  destruct (get_bytes_reads 4 l) as (a & l' & -> & [_ Ha] & H); [lia|done|].
  eexists _, _. split; [reflexivity|]. split; [|done]. apply rd32_u32; auto with bytes.
Qed.

(** Take the next read of the goal apart. *)
Ltac read_step :=
  let go H := destruct H as (? & ? & -> & ? & ? & ?);
              [unfold TT_KEY32, TT_KEM_PK, TT_KEM_SK in *; lia|assumption|] in
  lazymatch goal with
  | |- context [get_bytes ?n ?l ≫= _] => go (get_bytes_reads n l)
  | |- context [get_u16 ?l ≫= _] => go (get_u16_reads l)
  | |- context [get_u32 ?l ≫= _] => go (get_u32_reads l)
  | |- context [get_bool ?l ≫= _] => go (get_bool_reads l)
  | |- context [get_u8 ?l ≫= _] => go (get_u8_reads l)
  end; cbn [mbind outcome_bind].
Lemma guard_cases b : (b = true /\ guard_ok b = Ok tt) \/ guard_ok b = Fail.
Proof. destruct b; auto. Qed.
Lemma need_cases n l : (n <= len l /\ need n l = Ok tt) \/ need n l = Fail.
Proof. destruct (guard_cases (n <=? len l)) as [[? ?]|?]; [left|by right]. split; [lia|done]. Qed.
Ltac check_step :=
  lazymatch goal with
  | |- context [need ?n ?l] => destruct (need_cases n l) as [[? ->]| ->]; [|exact I]
  | |- context [guard_ok ?b] => destruct (guard_cases b) as [[? ->]| ->]; [|exact I]
  end; cbn [mbind outcome_bind].

Lemma skipped_get_reads n : forall l, all_bytes l ->
  reads (fun sk => length sk = n) (skipped_get n l).
Proof.
  induction n as [|n IH]; intros l Hl; cbn [skipped_get]; [done|].
  check_step. do 2 read_step.
  match goal with |- context [skipped_get n ?l'] =>
    specialize (IH l' ltac:(assumption)); destruct (skipped_get n l') as [[sk rest]| |] end;
    cbn in *; [|done|done]. destruct IH as [<- ?]. done.
Qed.

(** Compose with a reader of unknown length. *)
Lemma reads_bind {A B} (Q : A -> Prop) (R : B -> Prop) (o : outcome (A * bytes)) k :
  reads Q o -> (forall a l, Q a -> all_bytes l -> reads R (k (a, l))) -> reads R (o ≫= k).
Proof. destruct o as [[a l]| |]; cbn; [|done|done]. intros [Ha Hl] H. by apply H. Qed.

Lemma ratchet_get_reads l : all_bytes l -> reads ratchet_wf (ratchet_get l).
Proof.
  intros Hl. unfold ratchet_get. check_step. do 5 read_step. check_step.
  eapply reads_bind; [by apply skipped_get_reads|]. intros sk l' Hsk Hl'. split; [|done].
  split; cbn [skipped seq since_fold]; [|done|done]. unfold len. rewrite Hsk.
  unfold is_u16 in *. lia.
Qed.

Lemma rekey_get_reads old l :
  all_bytes l -> reads (fun k => carrier k = old) (rekey_get old l).
Proof. intros Hl. unfold rekey_get. check_step. do 13 read_step. done. Qed.

Lemma sent_get_reads n : forall i m l,
  Forall slot_wf m -> all_bytes l ->
  reads (fun m' => Forall slot_wf m' /\ length m' = length m) (sent_get n i m l).
Proof.
  induction n as [|n IH]; intros i m l Hm Hl; cbn [sent_get]; [done|].
  check_step. do 3 read_step. check_step. bool_to_prop.
  match goal with H : is_u16 ?n |- context [get_bytes ?n _] => destruct H end. read_step.
  match goal with H : len ?d = _ /\ _ |- context [overwrite ?d _] => destruct H as [Hd _] end.
  match goal with |- context [sent_get n (S i) ?m' ?l'] =>
    assert (Hw : Forall slot_wf m');
      [|specialize (IH (S i) m' l' Hw ltac:(assumption)); rewrite length_insert in IH; exact IH] end.
  apply Forall_insert; [done|]. split; cbn [m_len m_data]; [lia|].
  assert (Hold : len (m_data (default zero_sent_msg (m !! i))) = TT_FRAME_DATA_MAX).
  { destruct (m !! i) eqn:E; cbn; [|done]. by eapply Forall_lookup_1 in Hm as [_ ?]. }
  rewrite len_overwrite; [done|]. lia.
Qed.

Lemma rel_get_reads old l :
  sentbuf_wf (sent old) -> all_bytes l -> reads (fun r => sentbuf_wf (sent r)) (rel_get old l).
Proof.
  intros [(H1 & _ & _) H2] Hl. unfold rel_get. check_step. read_step. check_step.
  eapply reads_bind; [by apply sent_get_reads|]. intros m l' [Hm Hlen] Hl'. cbn beta.
  check_step. do 9 read_step. split; [|done]. split; [|done].
  unfold sent_wf, ring_wf. cbn [sent sb_m sb_head sb_count].
  change (Z.of_nat TT_SENT_MAX) with 32 in *. unfold TT_SENT_MAX in *.
  split_conj; [congruence|lia|lia].
Qed.

Lemma session_get_reads s l :
  session_wf s -> all_bytes l -> reads session_wf (session_get s l).
Proof.
  intros [H1 H2 H3 H4 H5 H6 H7] Hl. unfold session_get. check_step. do 3 read_step.
  eapply reads_bind; [by apply ratchet_get_reads|]. intros sr l1 Hsr Hl1. cbn beta iota.
  eapply reads_bind; [by apply ratchet_get_reads|]. intros rr l2 Hrr Hl2. cbn beta iota.
  eapply reads_bind; [by apply rekey_get_reads|]. intros k l3 Hk Hl3. cbn beta iota.
  eapply reads_bind; [by apply rel_get_reads|]. intros r l4 Hr Hl4. cbn beta iota.
  split; [|done]. split; cbn [send recv rekey reply_cache last_in pending rel set_field]; try done.
  by rewrite Hk.
Qed.
End safety.

Lemma load_sessions_reads n : forall e2ee l,
  Forall session_wf e2ee -> all_bytes l ->
  exists e2ee' broken, load_sessions n e2ee l = Ok (e2ee', broken) /\
    Forall session_wf e2ee' /\ length e2ee' = length e2ee.
Proof.
  induction n as [|n IH]; intros e2ee l Hwf Hl; cbn [load_sessions]; [eauto|].
  destruct l as [|fn l]; [eauto|].
  assert (Hs : session_wf (default tt_session_init (e2ee !! Z.to_nat fn))).
  { destruct (e2ee !! _) eqn:E; cbn; [by eapply Forall_lookup_1|apply init_wf]. }
  pose proof (session_get_reads _ _ Hs Hl) as Hr.
  destruct (session_get _ _) as [[s l']| |]; cbn in Hr; [|eauto|done].
  destruct Hr as [Hs' Hl'].
  destruct (IH (<[Z.to_nat fn:=s]> e2ee) l') as (e2 & br & H1 & H2 & H3); [by apply Forall_insert|done|].
  rewrite length_insert in H3. eauto.
Qed.

(** Loading what was saved, and the texts of the rings. *)
Lemma store_loads_saved {K : PassKey} {L : PassKeyLaws K} e2ee key nonce old :
  length e2ee = SES_FRIENDS ->
  Forall (fun s => active s = true -> session_rec s) e2ee ->
  0 < len (active_sessions 0 e2ee) < 256 ->
  len (ses_plaintext e2ee) + EXTRA <= SES_MAX_FILE ->
  (sidecar_save SES_MAX_FILE key nonce old (ses_plaintext e2ee)).2 = true ->
  tt_session_store_load (replicate SES_FRIENDS tt_session_init) key
    (tt_session_store_save e2ee key nonce old) = Ok (restored <$> e2ee, None) /\
  Forall (fun s => active s = true ->
    sent_items (sent (rel (restored s))) = sent_items (sent (rel s))) e2ee.
Proof.
  intros Hn Hrec Hc Hlim Hok. split.
  - unfold tt_session_store_save. unfold active_count. rewrite u8_small by (unfold is_byte; lia).
    replace (_ =? 0) with false by lia.
    destruct (sidecar_save _ _ _ _ _) as [file ok] eqn:E. cbn [fst snd] in *. subst ok.
    assert (Hpos : 0 < len (ses_plaintext e2ee)).
    { unfold ses_plaintext. rewrite len_app. change (len TT_SES_MAGIC) with 6.
      match goal with |- _ < _ + len ?x => pose proof (len_nonneg x) end. lia. }
    assert (Hload : exists tail, ses_load_bytes key file
              = Some (ses_plaintext e2ee ++ tail, len (ses_plaintext e2ee))).
    { unfold ses_load_bytes. destruct key as [k|].
      - eapply sidecar_roundtrip; eauto using ses_plaintext_starts.
      - injection E as <-. exists []. rewrite app_nil_r. pose proof extra_magic.
        by replace ((len (ses_plaintext e2ee) <=? 0) || (SES_MAX_FILE <? len (ses_plaintext e2ee)))
          with false by lia. }
    destruct Hload as [tail Hload]. unfold tt_session_store_load. rewrite Hload, ztake_app by done.
    rewrite <- Hn. apply parse_sessions_put; [lia|lia|done].
  - eapply Forall_impl; [done|]. intros s Hs Ha. cbn beta in Hs. unfold restored. rewrite Ha.
    destruct (Hs Ha) as [_ _ _ _ [Hwf Hslots]]. by apply stored_ring_items.
Qed.

(** C21: Sessions survive a restart.  When the file is written, reading it with
    the same key into a cleared array gives back every active session with its
    keys, ratchets, rekey state and reliable-delivery state, and leaves every
    other slot cleared; the texts still waiting for an acknowledgement come
    back in order. *)
Theorem store_roundtrip {K : PassKey} {L : PassKeyLaws K} e2ee key nonce old :
  length e2ee = SES_FRIENDS ->
  Forall (fun s => active s = true -> session_rec s) e2ee ->
  0 < len (active_sessions 0 e2ee) < 256 ->
  len (ses_plaintext e2ee) + EXTRA <= SES_MAX_FILE ->
  (sidecar_save SES_MAX_FILE key nonce old (ses_plaintext e2ee)).2 = true ->
  tt_session_store_load (replicate SES_FRIENDS tt_session_init) key
    (tt_session_store_save e2ee key nonce old) = Ok (restored <$> e2ee, None) /\
  Forall (fun s => active s = true ->
    sent_items (sent (rel (restored s))) = sent_items (sent (rel s))) e2ee.
Proof. apply store_loads_saved. Qed.

(** C22: Whatever bytes the session file holds, reading it stays inside them,
    and every slot of the array still satisfies the session invariant (ring
    and skipped-key counts within their arrays), except possibly the one slot
    whose record ends early. *)
Theorem any_file_safe e2ee pt :
  Forall session_wf e2ee -> all_bytes pt ->
  exists e2ee' broken, parse_sessions e2ee pt = Ok (e2ee', broken) /\
    length e2ee' = length e2ee /\
    forall i s, e2ee' !! i = Some s -> broken <> Some (Z.of_nat i) -> session_wf s.
Proof.
  intros Hwf Hb.
  assert (H : exists e2ee' broken, parse_sessions e2ee pt = Ok (e2ee', broken) /\
    Forall session_wf e2ee' /\ length e2ee' = length e2ee).
  { unfold parse_sessions. destruct (_ || _); [eauto|].
    assert (Hb' : all_bytes (zdrop 6 pt)) by auto with bytes.
    destruct (zdrop 6 pt) as [|c l]; [eauto|]. apply Forall_cons in Hb' as [_ Hb'].
    by apply load_sessions_reads. }
  destruct H as (e' & br & H1 & H2 & H3). exists e', br. split_conj; [done|done|].
  intros i s Hi _. by eapply Forall_lookup_1.
Qed.

(** ** Examples *)

Definition busy_session : TTSession :=
  tt_session_init <| active := true |> <| i_am_initiator := true |>
    <| rel := (zero_reliable <| sent :=
         mkSentBuf (<[31%nat := mkSentMsg 7 5 2 (overwrite [104; 105] (zrep TT_FRAME_DATA_MAX 0))]>
           (replicate TT_SENT_MAX zero_sent_msg)) 31 1 |>) |>.

Lemma small_u32 v : 0 <= v < 65536 -> is_u32 v.
Proof. unfold is_u32. lia. Qed.
Lemma small_u16 v : 0 <= v < 65536 -> is_u16 v.
Proof. unfold is_u16. lia. Qed.

Lemma zero_ratchet_rec : ratchet_rec zero_ratchet.
Proof.
  split; cbn [chain rroot seq since_fold skipped zero_ratchet].
  - by apply len_zrep.
  - by apply len_zrep.
  - by apply small_u32.
  - by apply small_u16.
  - done.
  - constructor.
Qed.

Lemma busy_session_rec : session_rec busy_session.
Proof.
  split.
  - by apply (len_zrep 32).
  - exact zero_ratchet_rec.
  - exact zero_ratchet_rec.
  - change (rekey busy_session) with zero_rekey. split; cbn -[zrep]; by apply len_zrep.
  - split; try (apply small_u32; done).
    + unfold sent_wf, ring_wf. split_conj; [reflexivity|cbv; lia|cbv; lia].
    + change (sent_slots _) with [mkSentMsg 7 5 2 (overwrite [104; 105] (zrep TT_FRAME_DATA_MAX 0))].
      constructor; [|constructor]. unfold slot_rec. cbn [m_gen m_seq m_len m_data].
      split_conj; [by apply small_u32|by apply small_u32|done|done|vm_compute; reflexivity].
Qed.

Lemma store_roundtrip_witness :
  let e2ee := busy_session :: replicate 255 tt_session_init in
  0 < len (active_sessions 0 e2ee) < 256 /\
  tt_session_store_load (K := sample_pass) (replicate SES_FRIENDS tt_session_init) (Some 9)
    (tt_session_store_save (K := sample_pass) e2ee (Some 9) [] None) = Ok (restored <$> e2ee, None) /\
  sent_items (sent (rel (restored busy_session))) = [mkItem 7 5 [104; 105]].
Proof.
  intros e2ee. split; [vm_compute; split; reflexivity|]. split.
  - apply (store_roundtrip (K := sample_pass) (L := sample_pass_laws) e2ee (Some 9) [] None).
    + reflexivity.
    + constructor.
      * intros _. exact busy_session_rec.
      * apply Forall_replicate. intros Ha. discriminate Ha.
    + vm_compute; split; reflexivity.
    + vm_compute; discriminate.
    + reflexivity.
  - vm_compute; reflexivity.
Defined.

(** A record cut off after its first bytes. *)
Lemma any_file_safe_witness :
  let pt := TT_SES_MAGIC ++ [1; 0; 1; 2; 3] in
  all_bytes pt /\
  exists e2ee' broken, parse_sessions [tt_session_init] pt = Ok (e2ee', broken) /\
    length e2ee' = 1%nat /\
    forall i s, e2ee' !! i = Some s -> broken <> Some (Z.of_nat i) -> session_wf s.
Proof.
  intros pt. assert (Hb : all_bytes pt) by (unfold pt, all_bytes; repeat constructor; done).
  split; [exact Hb|]. apply (any_file_safe [tt_session_init] pt); [|exact Hb].
  constructor; [exact init_wf|constructor].
Defined.
