(* ===== verification/History.v ===== *)
(** * History: chat transcripts on disk ([src/history.c])

    The [.hist] sidecar: one entry per contact, an identity and its transcript.
    C strings are the characters before their NUL; NULL is [None]. *)
From S2P Require Import Prelude CText Sidecar.

Definition TT_HIST_MAGIC : bytes := ascii_bytes "TTHS1".
Definition TT_HIST_MAX_FILE : Z := 8 * 1024 * 1024.

Record TTHistEntry := mkHistEntry { h_key : option bytes; h_transcript : option bytes }.

(** ** Writing *)

Definition save_hist_entry (e : TTHistEntry) : bytes :=
  match h_key e, h_transcript e with
  | Some key, Some transcript =>
      let klen := len (cstr key) in
      let tlen := len (cstr transcript) in
      if (klen =? 0) || (tlen =? 0) then []
      else print2 klen tlen ++ cstr key ++ [10] ++ cstr transcript
  | _, _ => []
  end.

Definition hist_plaintext (entries : list TTHistEntry) : bytes :=
  TT_HIST_MAGIC ++ concat (save_hist_entry <$> entries).

(** ** Reading *)

(** The entry loop from offset [off]; [Some text] is what was copied to [out]. *)
Fixpoint hist_loop (fuel : nat) (key : bytes) (cap : Z) (buf : bytes) (pt_len off : Z)
    : outcome (option bytes) :=
  match fuel with
  | O => Ok None
  | S fuel =>
      if negb (off <? pt_len) then Ok None else
      match sscanf2n 64 64 (zdrop off buf) with
      | Oob => Oob
      | Fail => Ok None
      | Ok (klen, tlen, n) =>
          let off := off + n in
          if (pt_len <=? off) || negb (zat buf off =? 10) then Ok None else
          let off := off + 1 in
          if (pt_len <? klen) || (pt_len <? tlen) then Ok None else
          if pt_len <? off + klen + 1 + tlen then Ok None else
          if (klen =? len (cstr key)) && bytes_eqb (zsub off klen buf) (cstr key) then
            let off := off + klen in
            if negb (zat buf off =? 10) then Ok None else
            let off := off + 1 in
            let copy := if tlen <? cap - 1 then tlen else cap - 1 in
            Ok (Some (zsub off copy buf))
          else hist_loop fuel key cap buf pt_len (off + klen + 1 + tlen)
      end
  end.

Section file.
Context {K : PassKey}.

(** The file afterwards and the return value. *)
Definition tt_hist_save (entries : list TTHistEntry) (pass_key : option Key) (nonce : bytes)
    (old : option bytes) : option bytes * bool :=
  sidecar_save TT_HIST_MAX_FILE pass_key nonce old (hist_plaintext entries).

(** The return value and [out].  Every entry takes at least one byte. *)
Definition tt_hist_load (pass_key : option Key) (file : option bytes) (key : option bytes) (cap : Z)
    : outcome (bool * bytes) :=
  match key with
  | None => Ok (false, [])
  | Some key =>
      if cap =? 0 then Ok (false, []) else
      match sidecar_load TT_HIST_MAX_FILE pass_key file with
      | None => Ok (false, [])
      | Some (buf, pt_len) =>
          if (pt_len <? 5) || negb (bytes_eqb (ztake 5 buf) TT_HIST_MAGIC) then Ok (false, []) else
          r ← hist_loop (S (length buf)) key cap buf pt_len 5;
          Ok (match r with Some out => (true, out) | None => (false, []) end)
      end
  end.
End file.

(** ** What is found *)

(** The first non-empty transcript saved under [key]. *)
Fixpoint hist_find (entries : list TTHistEntry) (key : bytes) : option bytes :=
  match entries with
  | [] => None
  | mkHistEntry (Some k) (Some t) :: entries =>
      if bool_decide (cstr k = cstr key) && (0 <? len (cstr k)) && (0 <? len (cstr t))
      then Some (cstr t) else hist_find entries key
  | _ :: entries => hist_find entries key
  end.

Lemma ztake_sub (x l : bytes) copy : 0 <= copy <= len x -> ztake copy (x ++ l) = ztake copy x.
Proof. apply ztake_app_le. Qed.

Lemma hist_loop_saved key cap tail entries : forall pre fuel,
  0 < cap -> 5 <= len pre ->
  let pt := pre ++ concat (save_hist_entry <$> entries) in
  len pt < 2 ^ 64 -> len (concat (save_hist_entry <$> entries)) < Z.of_nat fuel ->
  hist_loop fuel key cap (pt ++ tail) (len pt) (len pre) =
    Ok (ztake (cap - 1) <$> hist_find entries key).
Proof.
  induction entries as [|[k t] entries IH]; intros pre fuel Hcap Hpre pt Hpt Hfuel.
  { subst pt. cbn [fmap list_fmap concat]. rewrite app_nil_r.
    destruct fuel; [done|].
    cbn [hist_loop]. replace (len pre <? len pre) with false by lia. done. }
  cbn [fmap list_fmap concat] in pt, Hfuel.
  assert (Hskip : save_hist_entry (mkHistEntry k t) = [] ->
    hist_loop fuel key cap (pt ++ tail) (len pt) (len pre) =
      Ok (ztake (cap - 1) <$> hist_find entries key)).
  { intros E. subst pt. rewrite E in Hpt, Hfuel |- *. by apply IH. }
  destruct k as [k|]; [|by apply Hskip]. destruct t as [t|]; [|by apply Hskip].
  cbn [hist_find]. destruct (Z.eqb_spec (len (cstr k)) 0) as [Hk|Hk].
  { rewrite Hk, andb_false_r. apply Hskip. cbn. by rewrite Hk. }
  destruct (Z.eqb_spec (len (cstr t)) 0) as [Ht|Ht].
  { rewrite Ht, andb_false_r. apply Hskip. cbn. by rewrite Ht, orb_true_r. }
  clear Hskip. pose proof (len_nonneg (cstr k)). pose proof (len_nonneg (cstr t)).
  replace (0 <? len (cstr k)) with true by lia. replace (0 <? len (cstr t)) with true by lia.
  rewrite !andb_true_r.
  assert (He : save_hist_entry (mkHistEntry (Some k) (Some t)) =
    print2 (len (cstr k)) (len (cstr t)) ++ cstr k ++ [10] ++ cstr t).
  { unfold save_hist_entry. cbn [h_key h_transcript].
    by replace ((len (cstr k) =? 0) || (len (cstr t) =? 0)) with false by lia. }
  set (key' := cstr k) in *. set (text := cstr t) in *.
  set (saved := concat (save_hist_entry <$> entries)) in *.
  set (hd := print2 (len key') (len text)) in *.
  assert (Hent : pt = pre ++ (hd ++ key' ++ [10] ++ text) ++ saved) by (subst pt; by rewrite <- He).
  clearbody pt. subst pt. set (pt := pre ++ (hd ++ key' ++ [10] ++ text) ++ saved) in *.
  assert (Hlen : len pt = len pre + len hd + len key' + 1 + len text + len saved).
  { subst pt. rewrite !len_app. change (len [10]) with 1. lia. }
  pose proof (len_nonneg saved). pose proof (len_print2 (len key') (len text)) as Hhd. fold hd in Hhd.
  rewrite He in Hfuel. fold key' text hd saved in Hfuel. rewrite !len_app in Hfuel.
  change (len [10]) with 1 in Hfuel.
  destruct fuel as [|fuel]; [lia|]. cbn [hist_loop].
  replace (len pre <? len pt) with true by lia. cbn [negb].
  destruct (header_at 64 64 (len key') (len text) pre (key' ++ [10] ++ text ++ saved ++ tail))
    as [Hscan Hnl]; [lia|lia|lia|lia|]. fold hd in Hscan, Hnl.
  assert (Hbuf : pt ++ tail = pre ++ hd ++ key' ++ [10] ++ text ++ saved ++ tail)
    by (subst pt; rewrite <- !app_assoc; done).
  rewrite Hbuf, Hscan, Hnl.
  replace (len pt <=? len pre + (len hd - 1)) with false by lia. cbn [orb negb Z.eqb Pos.eqb].
  replace (len pre + (len hd - 1) + 1) with (len (pre ++ hd)) by (rewrite len_app; lia).
  replace ((len pt <? len key') || (len pt <? len text)) with false by lia.
  rewrite (len_app pre hd). replace (len pt <? _) with false by lia.
  rewrite <- (len_app pre hd), (app_assoc pre hd), zsub_pre by done.
  assert (Hcond : (len key' =? len (cstr key)) && bytes_eqb key' (cstr key) = bool_decide (key' = cstr key)).
  { unfold bytes_eqb. case_bool_decide as Hb; [rewrite Hb; lia|apply andb_false_r]. }
  rewrite Hcond. case_bool_decide as Hkey.
  - rewrite <- (len_app (pre ++ hd) key'), (app_assoc (pre ++ hd) key'). cbn [app].
    rewrite zat_pre by done. cbn [negb Z.eqb Pos.eqb].
    change (10 :: text ++ saved ++ tail) with ([10] ++ (text ++ saved ++ tail)).
    rewrite (app_assoc _ [10]). unfold zsub.
    rewrite zdrop_app by (rewrite (len_app _ [10]); done).
    cbn [fmap option_fmap option_map]. do 2 f_equal. destruct (Z.ltb_spec (len text) (cap - 1)).
    + rewrite ztake_app by done. by rewrite ztake_all by lia.
    + apply ztake_app_le. lia.
  - replace (len (pre ++ hd) + len key' + 1 + len text) with (len (pre ++ hd ++ key' ++ [10] ++ text))
      by (rewrite !len_app; change (len [10]) with 1; lia).
    specialize (IH (pre ++ hd ++ key' ++ [10] ++ text) fuel Hcap). fold saved in IH.
    rewrite <- !app_assoc in IH |- *. cbn [app] in IH |- *.
    subst pt. rewrite <- !app_assoc in *. cbn [app] in *. apply IH; [|done|lia].
    rewrite len_app. match goal with |- _ <= _ + len ?x => pose proof (len_nonneg x) end. lia.
Qed.

Lemma hist_plaintext_plain entries : plain_start (hist_plaintext entries).
Proof.
  unfold plain_start, hist_plaintext. intros H. apply (f_equal (fun l => l !! 2%nat)) in H. done.
Qed.

(** A transcript that was saved is the one loaded.  After a successful
    [tt_hist_save], [tt_hist_load] with the same pass key finds exactly the
    first non-empty transcript saved under the asked key, cut to [cap - 1]
    bytes, and reports false with an empty text when there is none. *)
Theorem hist_roundtrip {K : PassKey} {L : PassKeyLaws K} entries pass_key nonce old file key cap :
  tt_hist_save entries pass_key nonce old = (file, true) ->
  len (hist_plaintext entries) + EXTRA <= TT_HIST_MAX_FILE -> 0 < cap ->
  tt_hist_load pass_key file (Some key) cap =
    Ok match hist_find entries key with
       | Some transcript => (true, ztake (cap - 1) transcript)
       | None => (false, [])
       end.
Proof.
  intros Hsave Hlim Hcap.
  assert (H5 : 5 <= len (hist_plaintext entries)).
  { unfold hist_plaintext. rewrite len_app. change (len TT_HIST_MAGIC) with 5.
    match goal with |- _ <= _ + len ?x => pose proof (len_nonneg x) end. lia. }
  pose proof extra_magic. 
  destruct (sidecar_roundtrip _ _ _ _ _ _ Hsave ltac:(lia) Hlim (hist_plaintext_plain entries))
    as [tail Hload].
  unfold tt_hist_load. replace (cap =? 0) with false by lia. rewrite Hload.
  replace (len (hist_plaintext entries) <? 5) with false by lia.
  replace (ztake 5 (hist_plaintext entries ++ tail)) with TT_HIST_MAGIC by done.
  rewrite bytes_eqb_refl. cbn [orb negb]. unfold hist_plaintext.
  rewrite (hist_loop_saved key cap tail entries TT_HIST_MAGIC).
  - cbn [mbind outcome_bind]. by destruct (hist_find entries key).
  - done.
  - done.
  - fold (hist_plaintext entries). unfold TT_HIST_MAX_FILE in Hlim. lia.
  - unfold len. rewrite !length_app. lia.
Qed.

Definition sample_history : list TTHistEntry :=
  [mkHistEntry (Some [65]) None; mkHistEntry (Some [66]) (Some [49; 50; 51; 10]);
   mkHistEntry (Some [67; 68]) (Some [52; 53; 0; 9])].

Lemma hist_roundtrip_witness :
  tt_hist_load (K := sample_pass) (Some 9)
    (tt_hist_save (K := sample_pass) sample_history (Some 9) [] None).1 (Some [67; 68]) 2
    = Ok (true, [52]).
Proof.
  rewrite (hist_roundtrip (K := sample_pass) (L := sample_pass_laws) sample_history (Some 9) [] None).
  - reflexivity.
  - reflexivity.
  - vm_compute; discriminate.
  - reflexivity.
Defined.
