(* ===== verification/Resume.v ===== *)
(** * Resume: the file-transfer resume index ([src/resume.c], [resume.h])

    Up to 32 entries (file id, path of the partial file, bytes received) in a
    fixed array, found by id; persisted in [<profile>.rsum].  [path] is the C
    string in [char path[1024]]. *)
From stdpp Require Import gmap.
From S2P Require Import Prelude CText Sidecar.

Definition TT_RESUME_MAX : nat := 32.
Definition TOX_FILE_ID_LENGTH : Z := 32.
Definition TT_RESUME_MAGIC : bytes := ascii_bytes "TTRS1".
Definition RSUM_MAX_FILE : Z := 4 * 1024 * 1024.

Record TTResumeEntry := mkEntry { used : bool; file_id : bytes; path : bytes; e_bytes : Z }.
#[export] Instance eta_entry : EtaRecord TTResumeEntry := fun e =>
  mkEntry (used e) (file_id e) (path e) (e_bytes e).

Definition zero_entry : TTResumeEntry := mkEntry false (zrep 32 0) [] 0.
Definition empty_index : list TTResumeEntry := replicate TT_RESUME_MAX zero_entry.

Implicit Types (idx : list TTResumeEntry) (count : nat).

(** ** Operations *)

Definition entry_matches (id : bytes) (e : TTResumeEntry) : bool :=
  used e && bytes_eqb (file_id e) id.

(** The scan [for (i = 0; i < *count; i++)]: the index of the first match. *)
Fixpoint find_index (n i : nat) idx (id : bytes) : option nat :=
  match n with
  | O => None
  | S n => if entry_matches id (default zero_entry (idx !! i)) then Some i
           else find_index n (S i) idx id
  end.

Definition tt_resume_find idx count (id : bytes) : option nat := find_index count 0 idx id.

Definition tt_resume_put idx count (id text : bytes) (n : Z) : list TTResumeEntry * nat :=
  let fill i idx := alter (fun e => e <| path := snprintf_s 1024 text |> <| e_bytes := n |>) i idx in
  match tt_resume_find idx count id with
  | Some i => (fill i idx, count)
  | None =>
      if (TT_RESUME_MAX <=? count)%nat then (idx, count) else
      (fill count (<[count := zero_entry <| used := true |> <| file_id := id |>]> idx), S count)
  end.

(** The inner loop of [tt_resume_del]: move the last used entry above [i]
    into the hole. *)
Fixpoint move_last (j i : nat) idx : list TTResumeEntry :=
  match j with
  | O => idx
  | S j' =>
      if (j <=? i)%nat then idx else
      let e := default zero_entry (idx !! j) in
      if used e then <[j := zero_entry]> (<[i := e]> idx) else move_last j' i idx
  end.

Definition tt_resume_del idx count (id : bytes) : list TTResumeEntry * nat :=
  match tt_resume_find idx count id with
  | None => (idx, count)
  | Some i => (move_last (count - 1) i (<[i := zero_entry]> idx), (count - 1)%nat)
  end.

(** ** The file *)

Definition save_resume_entry (e : TTResumeEntry) : bytes :=
  if negb (used e) then [] else
  let plen := len (path e) in
  if (plen =? 0) || (1023 <? plen) then [] else
  print2 (e_bytes e) plen ++ path e ++ [10] ++ file_id e.

Definition rsum_plaintext idx count : bytes :=
  TT_RESUME_MAGIC ++ concat (save_resume_entry <$> take count idx).

(** The entry loop; an entry that ends early leaves its path behind. *)
Fixpoint rsum_loop (fuel : nat) idx count (buf : bytes) (pt_len off : Z)
    : outcome (list TTResumeEntry * nat) :=
  match fuel with
  | O => Ok (idx, count)
  | S fuel =>
      if negb (off <? pt_len) then Ok (idx, count) else
      match sscanf2n 64 32 (zdrop off buf) with
      | Oob => Oob
      | Fail => Ok (idx, count)
      | Ok (nbytes, plen, n) =>
          if (plen =? 0) || (1023 <? plen) then Ok (idx, count) else
          let off := off + n in
          if (pt_len <=? off) || negb (zat buf off =? 10) then Ok (idx, count) else
          let off := off + 1 in
          if pt_len <? off + plen then Ok (idx, count) else
          if (TT_RESUME_MAX <=? count)%nat then Ok (idx, count) else
          let idx := alter (fun e => e <| path := cstr (zsub off plen buf) |>) count idx in
          let off := off + plen in
          if (pt_len <=? off) || negb (zat buf off =? 10) then Ok (idx, count) else
          let off := off + 1 in
          if pt_len <? off + TOX_FILE_ID_LENGTH then Ok (idx, count) else
          let idx := alter (fun e => e <| file_id := zsub off TOX_FILE_ID_LENGTH buf |>
                                       <| e_bytes := nbytes |> <| used := true |>) count idx in
          rsum_loop fuel idx (S count) buf pt_len (off + TOX_FILE_ID_LENGTH)
      end
  end.

Section file.
Context {K : PassKey}.

Definition tt_resume_save idx count (key : option Key) (nonce : bytes) (old : option bytes)
    : option bytes * bool :=
  sidecar_save RSUM_MAX_FILE key nonce old (rsum_plaintext idx count).

(** Clears the index; every entry takes at least one byte. *)
Definition tt_resume_load (key : option Key) (file : option bytes) : outcome (list TTResumeEntry * nat) :=
  match sidecar_load RSUM_MAX_FILE key file with
  | None => Ok (empty_index, 0%nat)
  | Some (buf, pt_len) =>
      let off := if (5 <=? pt_len) && bytes_eqb (ztake 5 buf) TT_RESUME_MAGIC then 5 else 0 in
      rsum_loop (S (length buf)) empty_index 0 buf pt_len off
  end.
End file.

(** ** The index as a map *)

Definition entry_wf (e : TTResumeEntry) : Prop :=
  used e = true /\ len (file_id e) = TOX_FILE_ID_LENGTH /\ len (path e) <= 1023 /\
  ~ In 0 (path e) /\ 0 <= e_bytes e < 2 ^ 64.

(** The live entries. *)
Definition live idx count : list TTResumeEntry := take count idx.

Record index_wf idx count : Prop := {
  iw_length : length idx = TT_RESUME_MAX;
  iw_count : (count <= TT_RESUME_MAX)%nat;
  iw_live : Forall entry_wf (live idx count);
  iw_nodup : NoDup (file_id <$> live idx count) }.

Definition kv (e : TTResumeEntry) : bytes * (bytes * Z) := (file_id e, (path e, e_bytes e)).
Definition as_map idx count : gmap bytes (bytes * Z) := list_to_map (kv <$> live idx count).

Lemma live_length idx count : index_wf idx count -> length (live idx count) = count.
Proof. intros [H1 H2 _ _]. unfold live. rewrite length_take. lia. Qed.

Lemma find_index_spec id n : forall i idx,
  match find_index n i idx id with
  | Some j => (i <= j < i + n)%nat /\ entry_matches id (default zero_entry (idx !! j)) = true
  | None => forall j, (i <= j < i + n)%nat -> entry_matches id (default zero_entry (idx !! j)) = false
  end.
Proof.
  induction n as [|n IH]; intros i idx; cbn [find_index]; [lia|].
  destruct (entry_matches _ _) eqn:E; [split; [lia|done]|]. specialize (IH (S i) idx).
  destruct (find_index _ _ _ _).
  - destruct IH. split; [lia|done].
  - intros j Hj. destruct (decide (j = i)) as [->|]; [done|]. apply IH. lia.
Qed.

Lemma kv_fst l : (kv <$> l).*1 = file_id <$> l.
Proof. rewrite <- list_fmap_compose. done. Qed.

(** What the scan finds, in terms of the live entries. *)
Lemma resume_find_spec idx count id :
  index_wf idx count ->
  match tt_resume_find idx count id with
  | Some i => exists e l1 l2, idx !! i = Some e /\ file_id e = id /\
      live idx count = l1 ++ e :: l2 /\ length l1 = i
  | None => id ∉ (file_id <$> live idx count)
  end.
Proof.
  intros Hwf. pose proof (live_length _ _ Hwf) as Hlen. destruct Hwf as [Hl Hc Hlive _].
  unfold tt_resume_find. pose proof (find_index_spec id count 0 idx) as H.
  destruct (find_index _ _ _ _) as [i|].
  - destruct H as [Hi Hm]. destruct (lookup_lt_is_Some_2 idx i) as [e He]; [lia|].
    rewrite He in Hm. cbn in Hm. apply andb_true_iff in Hm as [_ Hid]. apply bytes_eqb_eq in Hid.
    assert (Hv : live idx count !! i = Some e) by (unfold live; rewrite lookup_take_lt by lia; done).
    apply take_drop_middle in Hv. exists e, (take i (live idx count)), (drop (S i) (live idx count)).
    split_conj; [done|done|by rewrite Hv|]. rewrite length_take. lia.
  - intros (e & -> & He)%list_elem_of_fmap. apply list_elem_of_lookup in He as [j Hj].
    pose proof (lookup_lt_Some _ _ _ Hj). specialize (H j ltac:(lia)).
    eapply Forall_lookup_1 in Hlive as (Hu & _); [|exact Hj].
    unfold live in Hj. rewrite lookup_take_lt in Hj by lia. rewrite Hj in H. cbn in H.
    unfold entry_matches in H. by rewrite Hu, bytes_eqb_refl in H.
Qed.

Lemma as_map_perm idx count (e : TTResumeEntry) rest :
  index_wf idx count -> live idx count ≡ₚ (e :: rest) ->
  as_map idx count = <[file_id e := (path e, e_bytes e)]> (list_to_map (kv <$> rest)) /\
  ~ (file_id e ∈ file_id <$> rest) /\ NoDup (file_id <$> rest) /\ Forall entry_wf (e :: rest).
Proof.
  intros [_ _ Hlive Hnd] Hp. unfold as_map.
  rewrite (list_to_map_proper (M := gmap bytes) (kv <$> live idx count) (kv <$> (e :: rest))).
  - rewrite Hp in Hnd, Hlive. cbn in Hnd. apply NoDup_cons in Hnd as [? ?]. done.
  - by rewrite kv_fst.
  - by rewrite Hp.
Qed.

(** A new index whose live entries are a rearrangement of [l]. *)
Lemma index_wf_perm idx count l :
  length idx = TT_RESUME_MAX -> (count <= TT_RESUME_MAX)%nat -> live idx count ≡ₚ l ->
  Forall entry_wf l -> NoDup (file_id <$> l) ->
  index_wf idx count /\ as_map idx count = list_to_map (kv <$> l).
Proof.
  intros H1 H2 Hp Hl Hnd. split.
  - split; [done|done|by rewrite Hp|by rewrite Hp].
  - unfold as_map. apply list_to_map_proper; [|by rewrite Hp]. by rewrite kv_fst, Hp.
Qed.

Lemma entry_filled e id text n :
  len id = TOX_FILE_ID_LENGTH -> 0 <= n < 2 ^ 64 -> used e = true -> file_id e = id ->
  entry_wf (e <| path := snprintf_s 1024 text |> <| e_bytes := n |>).
Proof.
  intros Hid Hn Hu He. unfold entry_wf. cbn. rewrite He. split_conj; try done; try lia.
  - unfold snprintf_s, ztake, len. rewrite length_take. lia.
  - unfold snprintf_s. intros H. apply (cstr_in text). unfold ztake in H.
    rewrite <- (take_drop (Z.to_nat (1024 - 1)) (cstr text)). apply in_or_app. by left.
Qed.

Lemma find_map_some idx count id i :
  index_wf idx count -> tt_resume_find idx count id = Some i ->
  exists e, idx !! i = Some e /\ as_map idx count !! id = Some (path e, e_bytes e).
Proof.
  intros Hwf Hf. pose proof (resume_find_spec idx count id Hwf) as H. rewrite Hf in H.
  destruct H as (e & l1 & l2 & He & <- & Hv & _). exists e. split; [done|].
  destruct (as_map_perm idx count e (l1 ++ l2) Hwf) as [-> _].
  - rewrite Hv. by rewrite Permutation_middle.
  - apply lookup_insert_eq.
Qed.

Lemma find_map_none idx count id :
  index_wf idx count -> tt_resume_find idx count id = None -> as_map idx count !! id = None.
Proof.
  intros Hwf Hf. pose proof (resume_find_spec idx count id Hwf) as H. rewrite Hf in H.
  unfold as_map. apply not_elem_of_list_to_map_1. by rewrite kv_fst.
Qed.

Lemma put_spec idx count id text n :
  index_wf idx count -> len id = TOX_FILE_ID_LENGTH -> 0 <= n < 2 ^ 64 ->
  let '(idx', count') := tt_resume_put idx count id text n in
  index_wf idx' count' /\
  as_map idx' count' =
    if bool_decide (as_map idx count !! id = None) && (TT_RESUME_MAX <=? count)%nat
    then as_map idx count else <[id := (snprintf_s 1024 text, n)]> (as_map idx count).
Proof.
  intros Hwf Hid Hn. pose proof (live_length _ _ Hwf) as Hlen. unfold tt_resume_put.
  pose proof (resume_find_spec idx count id Hwf) as H.
  destruct (tt_resume_find idx count id) as [i|] eqn:Hf.
  - destruct (find_map_some _ _ _ _ Hwf Hf) as (e0 & _ & Hm). rewrite Hm. cbn [bool_decide andb].
    rewrite bool_decide_false by done. cbn [andb].
    destruct H as (e & l1 & l2 & He & Hide & Hv & Hi). subst id.
    destruct (as_map_perm idx count e (l1 ++ l2) Hwf) as (Hmap & Hnin & Hnd & Hall);
      [rewrite Hv; by rewrite Permutation_middle|].
    apply Forall_cons in Hall as [Hewf Hall]. set (e' := e <| path := snprintf_s 1024 text |> <| e_bytes := n |>).
    set (idx' := alter _ i idx).
    assert (Hlive' : live idx' count ≡ₚ e' :: l1 ++ l2).
    { assert (Hic : (i < count)%nat)
        by (rewrite Hv, length_app in Hlen; cbn [length] in Hlen; lia).
      unfold live, idx'. rewrite take_alter_lt by done. fold (live idx count).
      rewrite Hv, alter_app_r_alt, Hi, Nat.sub_diag by lia. symmetry. apply (Permutation_middle l1 l2 e'). }
    destruct Hwf as [W1 W2 W3 W4].
    destruct (index_wf_perm idx' count (e' :: l1 ++ l2)) as [Hwf' Hmap']; try done.
    + unfold idx'. by rewrite length_alter.
    + constructor; [|done]. apply (entry_filled e (file_id e) text n); try done. apply Hewf.
    + cbn. apply NoDup_cons. split; done.
    + split; [done|]. rewrite Hmap', Hmap. cbn. by rewrite insert_insert_eq.
  - rewrite (find_map_none _ _ _ Hwf Hf), bool_decide_true by done. cbn [andb].
    destruct (Nat.leb_spec TT_RESUME_MAX count) as [|Hroom]; [done|].
    set (e' := zero_entry <| used := true |> <| file_id := id |> <| path := snprintf_s 1024 text |> <| e_bytes := n |>).
    set (idx' := alter _ count _). pose proof Hwf as [W1 W2 W3 W4].
    assert (Hlive' : live idx' (S count) ≡ₚ e' :: live idx count).
    { unfold live, idx'. rewrite (take_S_r _ _ e').
      - rewrite take_alter_ge, take_insert_ge by lia. by rewrite <- Permutation_cons_append.
      - rewrite list_lookup_alter_eq, list_lookup_insert_eq by lia. done. }
    destruct (index_wf_perm idx' (S count) (e' :: live idx count)) as [Hwf' Hmap']; try done.
    + unfold idx'. by rewrite length_alter, length_insert.
    + constructor; [|done]. by apply (entry_filled _ id text n).
    + cbn. by apply NoDup_cons.
Qed.

Lemma move_last_length j i : forall idx, length (move_last j i idx) = length idx.
Proof.
  induction j as [|j IH]; intros idx; cbn [move_last]; [done|].
  destruct (_ <=? _)%nat; [done|]. destruct (used _); [by rewrite !length_insert|apply IH].
Qed.

(** The hole is filled by the last live entry, or is the last itself. *)
Lemma del_live idx count i e l1 l2 :
  index_wf idx count -> live idx count = l1 ++ e :: l2 -> length l1 = i ->
  live (move_last (count - 1) i (<[i := zero_entry]> idx)) (count - 1) ≡ₚ l1 ++ l2.
Proof.
  intros Hwf Hv Hi. pose proof (live_length _ _ Hwf) as Hlen. destruct Hwf as [W1 W2 W3 _].
  assert (Hcount : count = (i + S (length l2))%nat)
    by (rewrite <- Hlen, Hv, length_app; cbn; lia).
  destruct l2 as [|x l2' _] using rev_ind.
  - cbn [length] in Hcount. rewrite app_nil_r.
    assert (Hml : move_last (count - 1) i (<[i:=zero_entry]> idx) = <[i:=zero_entry]> idx).
    { destruct (count - 1)%nat eqn:E; cbn [move_last]; [done|]. rewrite (proj2 (Nat.leb_le (S n) i)) by lia. done. }
    rewrite Hml. unfold live. rewrite take_insert_ge by lia.
    replace (take (count - 1) idx) with (take (count - 1) (live idx count))
      by (unfold live; rewrite take_take; f_equal; lia).
    rewrite Hv. by rewrite take_app_length' by lia.
  - rewrite length_app in Hcount. cbn [length] in Hcount.
    assert (Hx : idx !! (count - 1)%nat = Some x).
    { replace (idx !! (count - 1)%nat) with (live idx count !! (count - 1)%nat)
        by (unfold live; apply lookup_take_lt; lia).
      rewrite Hv. rewrite lookup_app_r by lia.
      replace (count - 1 - length l1)%nat with (S (length l2')) by lia.
      change ((l2' ++ [x]) !! length l2' = Some x). by rewrite lookup_app_r, Nat.sub_diag by lia. }
    assert (Hux : used x = true).
    { rewrite Hv in W3. apply Forall_app in W3 as [_ W3]. apply Forall_cons in W3 as [_ W3].
      apply Forall_app in W3 as [_ W3]. by apply Forall_cons in W3 as [[? _] _]. }
    destruct (count - 1)%nat as [|c] eqn:Ec; [lia|]. cbn [move_last].
    rewrite (proj2 (Nat.leb_gt (S c) i)) by lia.
    rewrite list_lookup_insert_ne, Hx by lia. change (default zero_entry (Some x)) with x. rewrite Hux.
    unfold live. rewrite take_insert_ge, list_insert_insert_eq, take_insert_lt by lia.
    replace (take (S c) idx) with (take (S c) (live idx count))
      by (unfold live; rewrite take_take; f_equal; lia).
    rewrite Hv, app_comm_cons, app_assoc, take_app_length' by (rewrite length_app; cbn; lia).
    rewrite insert_app_r_alt, Hi, Nat.sub_diag by lia. cbn.
    by rewrite <- Permutation_cons_append.
Qed.

Lemma del_spec idx count id :
  index_wf idx count ->
  let '(idx', count') := tt_resume_del idx count id in
  index_wf idx' count' /\ as_map idx' count' = delete id (as_map idx count).
Proof.
  intros Hwf. unfold tt_resume_del. pose proof (resume_find_spec idx count id Hwf) as H.
  destruct (tt_resume_find idx count id) as [i|] eqn:Hf.
  - destruct H as (e & l1 & l2 & _ & <- & Hv & Hi).
    destruct (as_map_perm idx count e (l1 ++ l2) Hwf) as (Hmap & Hnin & Hnd & Hall);
      [rewrite Hv; by rewrite Permutation_middle|].
    pose proof (del_live _ _ _ _ _ _ Hwf Hv Hi) as Hl. destruct Hwf as [W1 W2 _ _].
    apply Forall_cons in Hall as [_ Hall].
    destruct (index_wf_perm (move_last (count - 1) i (<[i:=zero_entry]> idx)) (count - 1) (l1 ++ l2))
      as [Hwf' Hmap']; [by rewrite move_last_length, length_insert|lia|done|done|done|].
    split; [done|]. rewrite Hmap', Hmap, delete_insert_id; [done|].
    apply not_elem_of_list_to_map_1. by rewrite kv_fst.
  - split; [done|]. rewrite delete_id; [done|]. by apply find_map_none.
Qed.

Lemma empty_index_wf : index_wf empty_index 0.
Proof. split; [done|lia|constructor|constructor]. Qed.

(** The resume index is a map from file ids of at most 32 entries.  Finding
    an id is looking it up; putting replaces or adds its entry, except that a
    new id is dropped when the index is full; deleting removes exactly that id,
    although the array moves its last entry into the hole; and each keeps the
    array compact, every live entry used and no id twice. *)
Theorem resume_refines_map idx count id text n :
  index_wf idx count -> len id = TOX_FILE_ID_LENGTH -> 0 <= n < 2 ^ 64 ->
  let m := as_map idx count in
  ((fun i => (fun e => (path e, e_bytes e)) <$> idx !! i) <$> tt_resume_find idx count id)
    = (if bool_decide (m !! id = None) then None else Some (m !! id)) /\
  (let '(idx', count') := tt_resume_put idx count id text n in
   index_wf idx' count' /\
   as_map idx' count' = if bool_decide (m !! id = None) && (TT_RESUME_MAX <=? count)%nat
                        then m else <[id := (snprintf_s 1024 text, n)]> m) /\
  (let '(idx', count') := tt_resume_del idx count id in
   index_wf idx' count' /\ as_map idx' count' = delete id m).
Proof.
  intros Hwf Hid Hn m. split_conj; [|by apply put_spec|by apply del_spec].
  destruct (tt_resume_find idx count id) as [i|] eqn:Hf.
  - destruct (find_map_some _ _ _ _ Hwf Hf) as (e & He & Hm). unfold m. rewrite Hm.
    rewrite bool_decide_false by done. cbn. by rewrite He.
  - unfold m. rewrite (find_map_none _ _ _ Hwf Hf). by rewrite bool_decide_true.
Qed.

Lemma resume_refines_map_witness :
  let id := zrep 32 7 in
  index_wf empty_index 0 /\
  as_map empty_index 0 !! id = None /\
  let '(idx', count') := tt_resume_put empty_index 0 id [97; 98] 12 in
  index_wf idx' count' /\ as_map idx' count' = <[id := ([97; 98], 12)]> (as_map empty_index 0).
Proof.
  intros id. split; [exact empty_index_wf|]. split; [reflexivity|].
  apply (resume_refines_map empty_index 0 id [97; 98] 12 empty_index_wf); [reflexivity|lia].
Defined.

(** ** The file *)

(** What the file keeps: entries without a path are not written. *)
Definition saved_entries (l : list TTResumeEntry) : list TTResumeEntry :=
  filter (fun e => 0 < len (path e)) l.

(** The index that holds just [l]. *)
Definition index_of (l : list TTResumeEntry) : list TTResumeEntry :=
  l ++ replicate (TT_RESUME_MAX - length l) zero_entry.

Lemma index_of_alter f l :
  (length l < TT_RESUME_MAX)%nat ->
  alter f (length l) (index_of l) =
    l ++ f zero_entry :: replicate (TT_RESUME_MAX - S (length l)) zero_entry.
Proof.
  intros H. unfold index_of.
  replace (TT_RESUME_MAX - length l)%nat with (S (TT_RESUME_MAX - S (length l))) by lia.
  by rewrite alter_app_r_alt, Nat.sub_diag by lia.
Qed.

Lemma save_resume_entry_used e :
  entry_wf e -> 0 < len (path e) ->
  save_resume_entry e = print2 (e_bytes e) (len (path e)) ++ path e ++ [10] ++ file_id e.
Proof.
  intros (Hu & _ & Hp & _) Hpos. unfold save_resume_entry. rewrite Hu. cbn [negb].
  by replace ((len (path e) =? 0) || (1023 <? len (path e))) with false by lia.
Qed.

(** One round over a saved entry. *)
Lemma rsum_loop_step fuel e ents pre rest pt_len :
  entry_wf e -> 0 < len (path e) -> (length ents < TT_RESUME_MAX)%nat ->
  len pre + len (save_resume_entry e) <= pt_len ->
  rsum_loop (S fuel) (index_of ents) (length ents) (pre ++ save_resume_entry e ++ rest) pt_len (len pre)
  = rsum_loop fuel (index_of (ents ++ [e])) (length (ents ++ [e]))
      ((pre ++ save_resume_entry e) ++ rest) pt_len (len (pre ++ save_resume_entry e)).
Proof.
  intros Hwf Hpos Hn Hpt. pose proof (save_resume_entry_used e Hwf Hpos) as He.
  destruct Hwf as (Hu & Hid & Hp & Hnul & Hb). set (hd := print2 (e_bytes e) (len (path e))) in *.
  pose proof (len_print2 (e_bytes e) (len (path e))) as Hhd. fold hd in Hhd.
  assert (Hlen : len (save_resume_entry e) = len hd + len (path e) + 1 + 32).
  { rewrite He, !len_app, Hid. change (len [10]) with 1. unfold TOX_FILE_ID_LENGTH. lia. }
  set (buf := pre ++ save_resume_entry e ++ rest).
  assert (Hbuf : buf = pre ++ hd ++ (path e ++ [10] ++ file_id e ++ rest))
    by (unfold buf; rewrite He; by rewrite <- !app_assoc).
  destruct (header_at 64 32 (e_bytes e) (len (path e)) pre (path e ++ [10] ++ file_id e ++ rest))
    as [Hscan Hnl]; [lia|lia|lia|lia|]. fold hd in Hscan, Hnl. rewrite <- Hbuf in Hscan, Hnl.
  cbn [rsum_loop]. replace (len pre <? pt_len) with true by lia. cbn [negb].
  rewrite Hscan, Hnl. replace ((len (path e) =? 0) || (1023 <? len (path e))) with false by lia.
  replace (pt_len <=? len pre + (len hd - 1)) with false by lia. cbn [orb negb Z.eqb Pos.eqb].
  replace (len pre + (len hd - 1) + 1) with (len (pre ++ hd)) by (rewrite len_app; lia).
  assert (Hpath : zsub (len (pre ++ hd)) (len (path e)) buf = path e)
    by (rewrite Hbuf, (app_assoc pre hd); by apply zsub_pre).
  rewrite Hpath, (len_app pre hd).
  replace (pt_len <? len pre + len hd + len (path e)) with false by lia.
  rewrite (proj2 (Nat.leb_gt TT_RESUME_MAX (length ents))) by done.
  replace (pt_len <=? len pre + len hd + len (path e)) with false by lia.
  assert (Hnl2 : zat buf (len pre + len hd + len (path e)) = 10).
  { rewrite Hbuf, !app_assoc, <- (app_assoc _ (file_id e)), <- (app_assoc _ [10]). apply zat_pre.
    rewrite !len_app. lia. }
  rewrite Hnl2. cbn [orb negb Z.eqb Pos.eqb]. unfold TOX_FILE_ID_LENGTH in *.
  replace (pt_len <? len pre + len hd + len (path e) + 1 + 32) with false by lia.
  assert (Hfid : zsub (len pre + len hd + len (path e) + 1) 32 buf = file_id e).
  { rewrite Hbuf, !app_assoc, <- (app_assoc _ (file_id e)).
    replace (len pre + len hd + len (path e) + 1) with (len (((pre ++ hd) ++ path e) ++ [10]))
      by (rewrite !len_app; change (len [10]) with 1; lia).
    by apply zsub_pre. }
  rewrite Hfid. f_equal.
  - rewrite list_alter_alter_eq, index_of_alter by done. unfold index_of. rewrite length_app.
    cbn [length]. rewrite <- app_assoc. cbn [app]. do 2 f_equal; [|f_equal; lia].
    rewrite cstr_no_nul by done. destruct e. cbn in *. by rewrite Hu.
  - rewrite length_app. cbn. lia.
  - unfold buf. by rewrite <- app_assoc.
  - rewrite len_app, Hlen. lia.
Qed.

Lemma rsum_loop_saved tail l : forall pre ents fuel,
  Forall entry_wf l -> (length ents + length l <= TT_RESUME_MAX)%nat ->
  let pt := pre ++ concat (save_resume_entry <$> l) in
  len (concat (save_resume_entry <$> l)) < Z.of_nat fuel ->
  rsum_loop fuel (index_of ents) (length ents) (pt ++ tail) (len pt) (len pre) =
  Ok (index_of (ents ++ saved_entries l), length (ents ++ saved_entries l)).
Proof.
  induction l as [|e l IH]; intros pre ents fuel Hwf Hn pt Hfuel.
  { subst pt. cbn [fmap list_fmap concat saved_entries filter list_filter]. rewrite !app_nil_r.
    destruct fuel; [done|]. cbn [rsum_loop]. by replace (len pre <? len pre) with false by lia. }
  apply Forall_cons in Hwf as [He Hwf]. cbn [length] in Hn. cbn [fmap list_fmap concat] in pt, Hfuel.
  unfold saved_entries. rewrite filter_cons. fold (saved_entries l).
  destruct (decide (0 < len (path e))) as [Hpos|Hpos].
  - pose proof (save_resume_entry_used e He Hpos) as Hs.
    pose proof (len_print2 (e_bytes e) (len (path e))).
    assert (1 <= len (save_resume_entry e)) by (rewrite Hs, len_app; pose proof (len_nonneg (path e ++ [10] ++ file_id e)); lia).
    set (saved := concat (save_resume_entry <$> l)) in *. pose proof (len_nonneg saved).
    rewrite len_app in Hfuel. destruct fuel as [|fuel]; [lia|].
    replace (pt ++ tail) with (pre ++ save_resume_entry e ++ (saved ++ tail))
      by (subst pt; by rewrite <- !app_assoc).
    rewrite rsum_loop_step; [|done|done|lia|subst pt; rewrite !len_app; lia].
    specialize (IH (pre ++ save_resume_entry e) (ents ++ [e]) fuel Hwf). fold saved in IH.
    rewrite length_app in IH. cbn [length] in IH. specialize (IH ltac:(lia) ltac:(lia)).
    cbv zeta in IH. rewrite <- !app_assoc in IH. subst pt. rewrite <- !app_assoc, length_app. exact IH.
  - assert (Hs : save_resume_entry e = []).
    { unfold save_resume_entry. destruct (negb _); [done|]. pose proof (len_nonneg (path e)).
      by replace (len (path e) =? 0) with true by lia. }
    subst pt. rewrite Hs in Hfuel |- *. apply IH; [done|lia|done].
Qed.

Lemma rsum_plaintext_plain idx count : plain_start (rsum_plaintext idx count).
Proof.
  unfold plain_start, rsum_plaintext. intros H. apply (f_equal (fun l => l !! 2%nat)) in H. done.
Qed.

(** The resume index survives a restart.  After a successful
    [tt_resume_save], [tt_resume_load] with the same key gives an index that
    holds exactly the entries that have a path, in the same order, followed by
    cleared entries. *)
Theorem resume_roundtrip {K : PassKey} {L : PassKeyLaws K} idx count key nonce old file :
  index_wf idx count -> tt_resume_save idx count key nonce old = (file, true) ->
  len (rsum_plaintext idx count) + EXTRA <= RSUM_MAX_FILE ->
  let l := saved_entries (live idx count) in
  tt_resume_load key file = Ok (index_of l, length l).
Proof.
  intros Hwf Hsave Hlim l. pose proof (live_length _ _ Hwf) as Hlen. destruct Hwf as [_ W2 W3 _].
  assert (H5 : 5 <= len (rsum_plaintext idx count)).
  { unfold rsum_plaintext. rewrite len_app. change (len TT_RESUME_MAGIC) with 5.
    match goal with |- _ <= _ + len ?x => pose proof (len_nonneg x) end. lia. }
  destruct (sidecar_roundtrip _ _ _ _ _ _ Hsave ltac:(lia) Hlim (rsum_plaintext_plain idx count))
    as [tail Hload].
  unfold tt_resume_load. rewrite Hload. replace (5 <=? len (rsum_plaintext idx count)) with true by lia.
  replace (ztake 5 (rsum_plaintext idx count ++ tail)) with TT_RESUME_MAGIC by done.
  rewrite bytes_eqb_refl. cbn [andb].
  apply (rsum_loop_saved tail (live idx count) TT_RESUME_MAGIC []).
  - done.
  - cbn [length]. lia.
  - unfold rsum_plaintext, live, len. rewrite !length_app. lia.
Qed.

Definition sample_index : list TTResumeEntry * nat :=
  let '(idx, count) := tt_resume_put empty_index 0 (zrep 32 7) [97; 98] 12 in
  tt_resume_put idx count (zrep 32 8) [] 5.

Lemma resume_roundtrip_witness :
  tt_resume_load (K := sample_pass) (Some 9)
    (tt_resume_save (K := sample_pass) sample_index.1 sample_index.2 (Some 9) [] None).1
    = Ok (index_of [mkEntry true (zrep 32 7) [97; 98] 12], 1%nat) /\ sample_index.2 = 2%nat.
Proof.
  assert (Hwf : index_wf sample_index.1 sample_index.2).
  { pose proof (put_spec empty_index 0 (zrep 32 7) [97; 98] 12 empty_index_wf eq_refl ltac:(lia)) as [H1 _].
    exact (proj1 (put_spec _ _ (zrep 32 8) [] 5 H1 eq_refl ltac:(lia))). }
  split; [|reflexivity].
  apply (resume_roundtrip (K := sample_pass) (L := sample_pass_laws) sample_index.1 sample_index.2
    (Some 9) [] None _ Hwf); [reflexivity|vm_compute; discriminate].
Defined.
