(* ===== verification/Xfer.v ===== *)
(** * Xfer: the file-transfer table ([tox_thread.c])

    The part of the tox thread's state that file transfers and avatars share:
    16 transfer slots, the resume index with its file, the avatars, the files on
    disk.  Answers of toxcore and of the file system come from the class
    [XferEnv] by call number; what is done is recorded in a trace.  Memory
    allocation succeeds, and so do the operations on the files beside the
    profile. *)
From stdpp Require Import gmap.
From S2P Require Import Prelude StateM CText Sidecar Resume Slots.

Definition TT_MAX_XFERS : nat := 16.
Definition TOX_MAX_FILENAME_LENGTH : Z := 255.
Definition TOX_HASH_LENGTH : Z := 32.

(** ** Files *)

(** An open file: where it lies and the offset of the next access. *)
Record TTFile := mkFile { f_path : bytes; f_pos : Z }.
#[export] Instance eta_file : EtaRecord TTFile := fun f => mkFile (f_path f) (f_pos f).

(** Writing at an offset; a gap after the old end reads as zeros. *)
Definition pwrite (pos : Z) (data old : bytes) : bytes :=
  ztake pos old ++ zrep (pos - len old) 0 ++ data ++ zdrop (pos + len data) old.

(** ** Data *)

Record TTXfer := mkXfer {
  x_id : Z;
  x_fn : Z;
  file_number : Z;
  sending : bool;
  accepted : bool;
  x_fp : option TTFile;
  x_size : Z;
  got : Z;
  got_prev : Z;
  x_file_id : bytes;
  have_file_id : bool;
  x_name : bytes;
  x_path : bytes;
}.
#[export] Instance eta_xfer : EtaRecord TTXfer := fun x =>
  mkXfer (x_id x) (x_fn x) (file_number x) (sending x) (accepted x) (x_fp x) (x_size x) (got x) (got_prev x)
    (x_file_id x) (have_file_id x) (x_name x) (x_path x).

(** [data] is the allocated block. *)
Record TTAvatar := mkAvatar {
  has : bool;
  hash : bytes;
  data : bytes;
  a_size : Z;
  rx_active : bool;
  rx_file_number : Z;
  rx_expected : Z;
  rx_got : Z;
}.
#[export] Instance eta_avatar : EtaRecord TTAvatar := fun a =>
  mkAvatar (has a) (hash a) (data a) (a_size a) (rx_active a) (rx_file_number a) (rx_expected a) (rx_got a).
Definition zero_hash : bytes := zrep TOX_HASH_LENGTH 0.
Definition no_avatar : TTAvatar := mkAvatar false zero_hash [] 0 false 0 0 0.

Inductive Tox_File_Control := TOX_FILE_CONTROL_RESUME | TOX_FILE_CONTROL_PAUSE | TOX_FILE_CONTROL_CANCEL.
Inductive Tox_File_Kind := TOX_FILE_KIND_DATA | TOX_FILE_KIND_AVATAR.
#[export] Instance control_eq_dec : EqDecision Tox_File_Control.
Proof. solve_decision. Defined.

Inductive file_event_type :=
| TT_EV_AVATAR | TT_EV_AVATAR_CLEARED | TT_EV_AVATAR_SELF
| TT_EV_FILE_OFFER | TT_EV_FILE_RESUMED | TT_EV_FILE_PROGRESS | TT_EV_FILE_DONE | TT_EV_FILE_FAILED
| TT_EV_FILE_TX_STARTED.

(** What the outside sees, with toxcore's answer. *)
Inductive xfer_action :=
| FileControl (fn num : Z) (c : Tox_File_Control)
| FileSeek (fn num pos : Z)
| FileSend (fn : Z) (kind : Tox_File_Kind) (size : Z) (id : option bytes) (name : bytes) (num : option Z)
| FileChunk (fn num pos : Z) (b : bytes) (ok : bool)
| UiEvent (ev : file_event_type) (fn ival : Z) (str : bytes).

(** ** The outside *)

Class XferEnv := {
  send_answer : nat -> option Z;          (** [tox_file_send]: the file number *)
  chunk_answer : nat -> bool;             (** [tox_file_send_chunk] succeeds *)
  file_id_answer : nat -> Z -> Z -> option bytes;  (** [tox_file_get_file_id]: friend, file number *)
  friend_list : nat -> list Z;            (** [tox_self_get_friend_list] *)
  open_answer : nat -> bool;              (** an existing file can be opened, or a new one created *)
  fdopen_answer : nat -> bool;
  write_answer : nat -> Z;                (** [fwrite]: bytes taken *)
  flush_answer : nat -> bool;
  malloc_bytes : nat -> Z -> bytes;       (** contents of a fresh block *)
  sha256 : bytes -> bytes;                (** [tox_hash], [crypto_hash_sha256] *)
  save_nonce : nat -> bytes;
}.

(** Documented behaviour of toxcore and libsodium, and of [malloc]. *)
Class XferEnvLaws (E : XferEnv) : Prop := {
  sha256_len b : len (sha256 b) = TOX_HASH_LENGTH;
  file_id_len k fn num id : file_id_answer k fn num = Some id -> len id = TOX_FILE_ID_LENGTH;
  malloc_len k n : 0 <= n -> len (malloc_bytes k n) = n;
}.

Record xfer_state := mkXS {
  xfers : list (option TTXfer);
  xfer_seq : Z;
  resume_idx : list TTResumeEntry;
  resume_count : nat;
  rsum : option bytes;
  avatars : list TTAvatar;
  self_avatar : TTAvatar;
  sent_hash : list bytes;
  ava : option bytes;
  disk : gmap bytes bytes;
  xcalls : nat;
  xtrace : list xfer_action;
}.
#[export] Instance eta_xfer_state : EtaRecord xfer_state := fun s =>
  mkXS (xfers s) (xfer_seq s) (resume_idx s) (resume_count s) (rsum s) (avatars s) (self_avatar s) (sent_hash s)
    (ava s) (disk s) (xcalls s) (xtrace s).

Definition xfer_state0 : xfer_state :=
  mkXS (replicate TT_MAX_XFERS None) 0 empty_index 0 None (replicate (Z.to_nat TT_MAX_FRIENDS) no_avatar) no_avatar
    (replicate (Z.to_nat TT_MAX_FRIENDS) zero_hash) None ∅ 0 [].

Section xfer.
Context {K : PassKey} {E : XferEnv} (pass_key : option Key).

Definition ask {A} (f : nat -> A) : M xfer_state A := fun s => (f (xcalls s), s <| xcalls := S (xcalls s) |>).
Definition act (a : xfer_action) : M xfer_state unit := modify (fun s => s <| xtrace := xtrace s ++ [a] |>).
Definition control (fn num : Z) (c : Tox_File_Control) : M xfer_state unit := act (FileControl fn num c).
Definition emit (ev : file_event_type) (fn ival : Z) (str : bytes) : M xfer_state unit := act (UiEvent ev fn ival str).

(** [tox_file_send] *)
Definition file_send (fn : Z) (kind : Tox_File_Kind) (size : Z) (id : option bytes) (name : bytes) : M xfer_state (option Z) :=
  let* num := ask send_answer in
  do* act (FileSend fn kind size id name num) in
  pure num.
(** [tox_file_send_chunk] *)
Definition send_chunk (fn num pos : Z) (b : bytes) : M xfer_state bool :=
  let* ok := ask chunk_answer in
  do* act (FileChunk fn num pos b ok) in
  pure ok.

Definition slot (i : nat) (s : xfer_state) : option TTXfer := default None (xfers s !! i).
Definition put_xfer (i : nat) (x : option TTXfer) : M xfer_state unit :=
  modify (fun s => s <| xfers := <[i := x]> (xfers s) |>).

(** [fopen (path, "rb")]: the contents. *)
Definition fopen_read (path : bytes) : M xfer_state (option bytes) :=
  let* ok := ask open_answer in
  let* d := get disk in
  pure (if ok then d !! path else None).

(** [fwrite]: the bytes taken; the handle moves by them. *)
Definition fwrite (f : TTFile) (b : bytes) : M xfer_state (Z * TTFile) :=
  let* w := ask write_answer in
  let n := Z.max 0 (Z.min w (len b)) in
  do* modify (fun s => s <| disk := alter (pwrite (f_pos f) (ztake n b)) (f_path f) (disk s) |>) in
  pure (n, f <| f_pos := f_pos f + n |>).

(** [fseek (fp, (long) pos, SEEK_SET)]: fails on a negative offset. *)
Definition fseek (f : TTFile) (pos : Z) : option TTFile :=
  if 2 ^ 63 <=? pos then None else Some (f <| f_pos := pos |>).

(** ** The resume index *)

Definition save_index : M xfer_state unit :=
  let* nonce := ask save_nonce in
  modify (fun s => s <| rsum := (tt_resume_save (resume_idx s) (resume_count s) pass_key nonce (rsum s)).1 |>).
Definition change_index (f : list TTResumeEntry -> nat -> list TTResumeEntry * nat) : M xfer_state unit :=
  modify (fun s => let r := f (resume_idx s) (resume_count s) in s <| resume_idx := r.1 |> <| resume_count := r.2 |>).
Definition find_entry (id : bytes) : M xfer_state (option (nat * TTResumeEntry)) :=
  get (fun s => (fun j => (j, default zero_entry (resume_idx s !! j))) <$>
                tt_resume_find (resume_idx s) (resume_count s) id).

(** ** The table *)

Definition new_xfer (id : Z) : TTXfer :=
  mkXfer id UINT32_MAX UINT32_MAX false false None 0 0 0 zero_hash false [] [].

Definition xfer_alloc : M xfer_state (option (nat * TTXfer)) := fun s =>
  match free_slot 0 (xfers s) with
  | None => (None, s)
  | Some i =>
      let id := u32 (xfer_seq s + 1) in
      (Some (i, new_xfer id), s <| xfer_seq := id |> <| xfers := <[i := Some (new_xfer id)]> (xfers s) |>)
  end.
Definition xfer_free (i : nat) : M xfer_state unit := put_xfer i None.
Definition xfer_find (fn num : Z) : M xfer_state (option (nat * TTXfer)) :=
  get (fun s => find_slot (fun x => (x_fn x =? fn) && (file_number x =? num)) 0 (xfers s)).
Definition xfer_by_id (id : Z) : M xfer_state (option (nat * TTXfer)) :=
  get (fun s => find_slot (fun x => x_id x =? id) 0 (xfers s)).

Definition PROGRESS_STEP : Z := 256 * 1024.

Definition xfer_progress (i : nat) (x : TTXfer) : M xfer_state unit :=
  if negb ((x_size x <=? got x) || negb (got x / PROGRESS_STEP =? got_prev x / PROGRESS_STEP)) then skip else
  do* put_xfer i (Some (x <| got_prev := got x |>)) in
  do* when (negb (sending x) && have_file_id x) save_index in
  emit TT_EV_FILE_PROGRESS (x_fn x) (x_id x) (dec (got x) ++ [47] ++ dec (x_size x)).

Definition xfer_failed (i : nat) (x : TTXfer) : M xfer_state unit :=
  do* when (negb (sending x) && have_file_id x && (0 <? got x) && (got x <? x_size x)) save_index in
  do* emit TT_EV_FILE_FAILED (x_fn x) (x_id x) [] in
  xfer_free i.

Definition xfer_done (i : nat) (x : TTXfer) : M xfer_state unit :=
  do* when (have_file_id x)
        (do* change_index (fun idx count => tt_resume_del idx count (x_file_id x)) in
         save_index) in
  do* emit TT_EV_FILE_DONE (x_fn x) (x_id x) (x_path x) in
  xfer_free i.

Definition xfer_all_purge (fn : Z) : M xfer_state unit :=
  do_each (fun i =>
    let* o := get (slot i) in
    match o with
    | Some x => if x_fn x =? fn then xfer_failed i x else skip
    | None => skip
    end) (seq 0 TT_MAX_XFERS).
End xfer.
