(* ===== verification/Avatar.v ===== *)
(** * Avatar: avatars ([tox_thread.c])

    Our own avatar, its file [<profile>.ava] and the offers to friends; and the
    avatars received.  An avatar's file id is the SHA-256 of its bytes. *)
From stdpp Require Import gmap.
From S2P Require Import Prelude StateM CText Sidecar Resume Slots Xfer.

Definition TT_AVATAR_MAX_SIZE : Z := 64 * 1024.
Definition TT_AVATAR_MAGIC : bytes := ascii_bytes "TTAV1".
Definition PNG_MAGIC : bytes := [137; 80; 78; 71; 13; 10; 26; 10].

Definition tt_avatar_free (a : TTAvatar) : TTAvatar := no_avatar.

Section avatar.
Context {E : XferEnv}.

(** ** Our own avatar *)

Definition tt_avatar_set (a : TTAvatar) (png : bytes) : option TTAvatar :=
  if (len png =? 0) || (TT_AVATAR_MAX_SIZE <? len png) then None else
  Some (a <| data := png |> <| a_size := len png |> <| has := true |> <| hash := sha256 png |>).

(** The file, [None] when it is removed. *)
Definition avatar_persist (a : TTAvatar) : option bytes :=
  if negb (has a) then None else
  Some (TT_AVATAR_MAGIC ++ [Z.land (a_size a) 255; Z.land (Z.shiftr (a_size a) 8) 255; Z.land (Z.shiftr (a_size a) 16) 255]
        ++ ztake (a_size a) (data a)).

Definition avatar_persist_load (file : option bytes) (a : TTAvatar) : TTAvatar :=
  match file with
  | None => a
  | Some b =>
      let hdr := ztake 8 b in
      if negb (len hdr =? 8) || negb (bytes_eqb (ztake 5 hdr) TT_AVATAR_MAGIC) then a else
      let size := Z.lor (Z.lor (zat hdr 5) (Z.shiftl (zat hdr 6) 8)) (Z.shiftl (zat hdr 7) 16) in
      if (size =? 0) || (TT_AVATAR_MAX_SIZE <? size) then a else
      let buf := zsub 8 size b in
      if negb (len buf =? size) then a else
      default a (tt_avatar_set a buf)
  end.

(** [sent_hash] is indexed by friend number without a bound; past its end the
    model reads zeros and writes nothing. *)
Definition sent_to (fn : Z) (s : xfer_state) : bytes := default zero_hash (sent_hash s !! Z.to_nat fn).

Definition avatar_push_to_friend (fn : Z) : M xfer_state unit :=
  let* a := get self_avatar in
  let* sent := get (sent_to fn) in
  if negb (has a) then skip else
  if bytes_eqb sent (hash a) then skip else
  let* ok := file_send fn TOX_FILE_KIND_AVATAR (a_size a) (Some (hash a)) [] in
  match ok with
  | None => skip
  | Some _ => modify (fun s => s <| sent_hash := <[Z.to_nat fn := hash a]> (sent_hash s) |>)
  end.

Definition avatar_push_all : M xfer_state unit :=
  let* fns := ask friend_list in
  do_each avatar_push_to_friend fns.

Definition avatar_clear_all_sent : M xfer_state unit :=
  modify (fun s => s <| sent_hash := replicate (Z.to_nat TT_MAX_FRIENDS) zero_hash |>).

(** [TT_CMD_SET_AVATAR]; a PNG is recognised by its first eight bytes. *)
Definition cmd_set_avatar (path : bytes) : M xfer_state unit :=
  let* file := fopen_read path in
  match file with
  | None => skip
  | Some buf =>
      if (len buf <=? 0) || (TT_AVATAR_MAX_SIZE <? len buf) then skip else
      if (len buf <? 8) || negb (bytes_eqb (ztake 8 buf) PNG_MAGIC) then skip else
      let* a := get self_avatar in
      match tt_avatar_set a buf with
      | None => skip
      | Some a =>
          do* modify (fun s => s <| self_avatar := a |>) in
          do* avatar_clear_all_sent in
          do* avatar_push_all in
          do* modify (fun s => s <| ava := avatar_persist (self_avatar s) |>) in
          emit TT_EV_AVATAR_SELF 0 0 buf
      end
  end.

(** [TT_CMD_CLEAR_AVATAR] *)
Definition cmd_clear_avatar : M xfer_state unit :=
  do* modify (fun s => s <| self_avatar := tt_avatar_free (self_avatar s) |>) in
  do* avatar_clear_all_sent in
  do* modify (fun s => s <| ava := avatar_persist (self_avatar s) |>) in
  let* fns := ask friend_list in
  do* do_each (fun fn => file_send fn TOX_FILE_KIND_AVATAR 0 None []) fns in
  emit TT_EV_AVATAR_SELF 0 0 [].

(** ** Avatars of friends *)

Definition avatar_of (fn : Z) (s : xfer_state) : TTAvatar := default no_avatar (avatars s !! Z.to_nat fn).
Definition put_avatar (fn : Z) (a : TTAvatar) : M xfer_state unit :=
  modify (fun s => s <| avatars := <[Z.to_nat fn := a]> (avatars s) |>).

Definition avatar_on_offer (fn num size : Z) : M xfer_state unit :=
  if TT_MAX_FRIENDS <=? fn then skip else
  let* a := get (avatar_of fn) in
  if size =? 0 then
    do* control fn num TOX_FILE_CONTROL_CANCEL in
    do* put_avatar fn (tt_avatar_free a) in
    emit TT_EV_AVATAR_CLEARED fn 0 []
  else if TT_AVATAR_MAX_SIZE <? size then control fn num TOX_FILE_CONTROL_CANCEL
  else
  let* id := ask (fun k => file_id_answer k fn num) in
  match id with
  | None => control fn num TOX_FILE_CONTROL_CANCEL
  | Some fid =>
      if has a && bytes_eqb fid (hash a) then control fn num TOX_FILE_CONTROL_CANCEL else
      let* block := ask (fun k => malloc_bytes k size) in
      do* put_avatar fn (a <| data := block |> <| rx_active := true |> <| rx_file_number := num |>
                           <| rx_expected := size |> <| rx_got := 0 |> <| a_size := size |> <| hash := fid |>) in
      control fn num TOX_FILE_CONTROL_RESUME
  end.

(** The avatar part of [cb_file_recv_chunk]. *)
Definition avatar_chunk (fn num : Z) (b : bytes) : M xfer_state unit :=
  let* a := get (avatar_of fn) in
  if negb (rx_active a) || negb (rx_file_number a =? num) then skip else
  if rx_expected a <? rx_got a + len b then
    do* put_avatar fn (a <| rx_active := false |>) in
    control fn num TOX_FILE_CONTROL_CANCEL
  else
  let a := a <| data := pwrite (rx_got a) b (data a) |> <| rx_got := rx_got a + len b |> in
  if rx_got a <? rx_expected a then put_avatar fn a else
  let h := sha256 (ztake (rx_got a) (data a)) in
  let a := a <| rx_active := false |> in
  if negb (bytes_eqb h (hash a)) then
    do* put_avatar fn (tt_avatar_free a) in
    emit TT_EV_AVATAR_CLEARED fn 0 []
  else
  do* put_avatar fn (a <| has := true |>) in
  emit TT_EV_AVATAR fn 0 (ztake (a_size a) (data a)).

(** The avatar part of [cb_file_recv_control]. *)
Definition avatar_control (fn num : Z) (c : Tox_File_Control) : M xfer_state unit :=
  let* a := get (avatar_of fn) in
  when (rx_active a && (rx_file_number a =? num) && bool_decide (c = TOX_FILE_CONTROL_CANCEL))
    (put_avatar fn (a <| rx_active := false |>)).

(** The avatar part of [cb_file_chunk_request]. *)
Definition avatar_serve (fn num position length : Z) : M xfer_state unit :=
  let* a := get self_avatar in
  if negb (has a) then skip else
  if a_size a <=? position then skip else
  let chunk := Z.min (a_size a - position) length in
  do* send_chunk fn num position (zsub position chunk (data a)) in
  skip.
End avatar.
