(* ===== verification/Transfer.v ===== *)
(** * Transfer: file transfers ([tox_thread.c])

    Offers, chunks and controls as toxcore reports them, and the commands of the
    user interface.  A path or name argument is a C string's bytes. *)
From stdpp Require Import gmap.
From S2P Require Import Prelude StateM CText Sidecar Resume Slots Xfer Avatar.

(** [strrchr (path, '/')]: what follows the last slash, else all of it. *)
Fixpoint base_name (path cur : bytes) : bytes :=
  match path with
  | [] => cur
  | c :: t => base_name t (if c =? 47 then t else cur)
  end.

(** ["%s\n%llu"] *)
Definition offer_text (name : bytes) (size : Z) : bytes := cstr name ++ [10] ++ dec size.

Section transfer.
Context {K : PassKey} {E : XferEnv} (pass_key : option Key).

Let control := @control.
Let save_index := @save_index K E pass_key.

Definition fail_cancelled (i : nat) (x : TTXfer) : M xfer_state unit :=
  do* control (x_fn x) (file_number x) TOX_FILE_CONTROL_CANCEL in
  xfer_failed pass_key i x.

(** ** Offers *)

(** The partial file of an earlier attempt, opened at the saved offset. *)
Definition open_partial (r : TTResumeEntry) : M xfer_state (option TTFile) :=
  let* f := fopen_read (path r) in
  match f with
  | None => pure None
  | Some _ =>
      let* ok := ask fdopen_answer in
      pure (if ok then fseek (mkFile (path r) 0) (e_bytes r) else None)
  end.

Definition xfer_announce (ev : file_event_type) (x : TTXfer) : M xfer_state unit :=
  emit ev (x_fn x) (x_id x) (offer_text (x_name x) (x_size x)).

(** Resume without asking when the index knows the file. *)
Definition auto_resume (i : nat) (x : TTXfer) (r : TTResumeEntry) : M xfer_state unit :=
  if negb ((0 <? e_bytes r) && (e_bytes r <? x_size x)) then xfer_announce TT_EV_FILE_OFFER x else
  let* f := open_partial r in
  match f with
  | None => xfer_announce TT_EV_FILE_OFFER x
  | Some f =>
      let x := x <| x_fp := Some f |> <| got := e_bytes r |> <| got_prev := e_bytes r |>
                 <| x_path := snprintf_s 1024 (path r) |> <| accepted := true |> in
      do* put_xfer i (Some x) in
      do* act (FileSeek (x_fn x) (file_number x) (e_bytes r)) in
      do* control (x_fn x) (file_number x) TOX_FILE_CONTROL_RESUME in
      xfer_announce TT_EV_FILE_RESUMED x
  end.

Definition xfer_on_offer (fn num size : Z) (name : bytes) : M xfer_state unit :=
  let* slot := xfer_alloc in
  match slot with
  | None => control fn num TOX_FILE_CONTROL_CANCEL
  | Some (i, x) =>
      let x := x <| x_fn := fn |> <| file_number := num |> <| x_size := size |>
                 <| x_name := ztake TOX_MAX_FILENAME_LENGTH name |> in
      do* put_xfer i (Some x) in
      let* id := ask (fun k => file_id_answer k fn num) in
      match id with
      | None => xfer_announce TT_EV_FILE_OFFER x
      | Some id =>
          let x := x <| x_file_id := id |> <| have_file_id := true |> in
          do* put_xfer i (Some x) in
          let* r := find_entry id in
          match r with
          | Some (_, r) => auto_resume i x r
          | None => xfer_announce TT_EV_FILE_OFFER x
          end
      end
  end.

Definition cb_file_recv (fn num : Z) (kind : option Tox_File_Kind) (size : Z) (name : bytes) : M xfer_state unit :=
  match kind with
  | Some TOX_FILE_KIND_AVATAR => avatar_on_offer fn num size
  | Some TOX_FILE_KIND_DATA => xfer_on_offer fn num size name
  | None => control fn num TOX_FILE_CONTROL_CANCEL
  end.

(** ** Receiving *)

(** Keep the byte count of the index entry current. *)
Definition note_progress (x : TTXfer) : M xfer_state unit :=
  if negb (have_file_id x) then skip else
  let* r := find_entry (x_file_id x) in
  match r with
  | Some (j, _) => modify (fun s => s <| resume_idx := alter (fun e => e <| e_bytes := got x |>) j (resume_idx s) |>)
  | None => skip
  end.

Definition xfer_chunk (i : nat) (x : TTXfer) (b : bytes) : M xfer_state unit :=
  match x_fp x with
  | Some f =>
      if sending x || negb (accepted x) then skip else
      if x_size x <? u64 (got x + len b) then fail_cancelled i x else
      let* w := if len b =? 0 then pure (0, f) else fwrite f b in
      if negb (w.1 =? len b) then fail_cancelled i x else
      let x := x <| x_fp := Some w.2 |> <| got := u64 (got x + len b) |> in
      do* put_xfer i (Some x) in
      do* note_progress x in
      if x_size x <=? got x then
        let* ok := ask flush_answer in
        if ok then xfer_done pass_key i x else xfer_failed pass_key i x
      else xfer_progress pass_key i x
  | None => skip
  end.

Definition cb_file_recv_chunk (fn num : Z) (b : bytes) : M xfer_state unit :=
  if TT_MAX_FRIENDS <=? fn then skip else
  let* found := xfer_find fn num in
  match found with
  | Some (i, x) => xfer_chunk i x b
  | None => avatar_chunk fn num b
  end.

Definition cb_file_recv_control (fn num : Z) (c : Tox_File_Control) : M xfer_state unit :=
  if TT_MAX_FRIENDS <=? fn then skip else
  let* found := xfer_find fn num in
  match found with
  | Some (i, x) => if bool_decide (c = TOX_FILE_CONTROL_CANCEL) then xfer_failed pass_key i x else avatar_control fn num c
  | None => avatar_control fn num c
  end.

(** ** Sending *)

Definition xfer_serve (i : nat) (x : TTXfer) (f : TTFile) (position length : Z) : M xfer_state unit :=
  if (x_size x <=? position) || (length =? 0) then xfer_done pass_key i x else
  match fseek f position with
  | None => fail_cancelled i x
  | Some f =>
      let* d := get disk in
      let b := zsub position (Z.min length 4096) (default [] (d !! f_path f)) in
      if len b =? 0 then fail_cancelled i x else
      let x := x <| x_fp := Some (f <| f_pos := position + len b |>) |> <| got := position + len b |> in
      do* put_xfer i (Some x) in
      let* ok := send_chunk (x_fn x) (file_number x) position b in
      if ok then xfer_progress pass_key i x else xfer_failed pass_key i x
  end.

(** A request for no transfer of the table is taken for our avatar. *)
Definition cb_file_chunk_request (fn num position length : Z) : M xfer_state unit :=
  let* found := xfer_find fn num in
  match found with
  | Some (i, x) =>
      match x_fp x with
      | Some f => if sending x then xfer_serve i x f position length else avatar_serve fn num position length
      | None => avatar_serve fn num position length
      end
  | None => avatar_serve fn num position length
  end.

Definition handle_cmd_send_file (fn : Z) (path : bytes) : M xfer_state unit :=
  let* file := fopen_read path in
  match file with
  | None => emit TT_EV_FILE_FAILED 0 0 []
  | Some b =>
      let* slot := xfer_alloc in
      match slot with
      | None => skip
      | Some (i, x) =>
          let x := x <| x_fn := fn |> <| sending := true |> <| accepted := true |> <| x_fp := Some (mkFile path (len b)) |>
                     <| x_size := len b |> <| x_name := snprintf_s 256 (base_name path path) |>
                     <| x_path := snprintf_s 1024 path |> <| x_file_id := sha256 b |> <| have_file_id := true |> in
          let* num := file_send fn TOX_FILE_KIND_DATA (len b) (Some (x_file_id x)) (x_name x) in
          let x := x <| file_number := default UINT32_MAX num |> in
          do* put_xfer i (Some x) in
          match num with
          | None => xfer_failed pass_key i x
          | Some _ => xfer_announce TT_EV_FILE_TX_STARTED x
          end
      end
  end.

(** ** Commands of the receiver *)

(** Where a download to [path] starts: a shorter file is continued. *)
Definition resume_offset (old : option bytes) (size : Z) : Z :=
  match old with
  | Some b => if (0 <? len b) && (len b <? size) then len b else 0
  | None => 0
  end.

(** [open] for the destination: an old file to continue, else an empty one. *)
Definition open_destination (path : bytes) (resume_at : Z) : M xfer_state bool :=
  let* ok := ask open_answer in
  let* d := get disk in
  if negb ok then pure false else
  if negb (resume_at =? 0) then pure (bool_decide (is_Some (d !! path))) else
  do* modify (fun s => s <| disk := <[path := []]> (disk s) |>) in
  pure true.

Definition xfer_waiting (id : Z) : M xfer_state (option (nat * TTXfer)) :=
  get (fun s => find_slot (fun x => (x_id x =? id) && negb (sending x) && negb (accepted x)) 0 (xfers s)).

Definition handle_cmd_file_accept (id : Z) (path : bytes) : M xfer_state unit :=
  let* found := xfer_waiting id in
  match found with
  | None => skip
  | Some (i, x) =>
      let* old := fopen_read path in
      let resume_at := resume_offset old (x_size x) in
      let* opened := open_destination path resume_at in
      if negb opened then fail_cancelled i x else
      let* ok := ask fdopen_answer in
      if negb ok then fail_cancelled i x else
      match fseek (mkFile path 0) resume_at with
      | None => fail_cancelled i x
      | Some f =>
          let x := x <| x_fp := Some f |> <| got := resume_at |> <| got_prev := resume_at |> in
          do* when (negb (resume_at =? 0)) (act (FileSeek (x_fn x) (file_number x) resume_at)) in
          let x := x <| x_path := snprintf_s 1024 path |> <| accepted := true |> in
          do* put_xfer i (Some x) in
          do* when (have_file_id x)
                (change_index (fun idx count => tt_resume_put idx count (x_file_id x) path (got x))) in
          control (x_fn x) (file_number x) TOX_FILE_CONTROL_RESUME
      end
  end.

Definition handle_cmd_file_reject (id : Z) : M xfer_state unit :=
  let* found := xfer_waiting id in
  match found with
  | Some (i, x) =>
      do* control (x_fn x) (file_number x) TOX_FILE_CONTROL_CANCEL in
      xfer_free i
  | None => skip
  end.

(** [TT_CMD_FILE_CANCEL] *)
Definition cmd_file_cancel (id : Z) : M xfer_state unit :=
  let* found := xfer_by_id id in
  match found with
  | Some (i, x) => fail_cancelled i x
  | None => skip
  end.

(** The transfer part of [cb_friend_connection]. *)
Definition xfer_connection (fn : Z) (online : bool) : M xfer_state unit :=
  if online then avatar_push_to_friend fn else xfer_all_purge pass_key fn.
End transfer.
