(* ===== verification/TransferSafety.v ===== *)
(** * TransferSafety: the invariant of file transfers and avatars

    Every operation keeps the table, the resume index and the avatars within
    their bounds, whatever toxcore, the friends, the user and the file system
    do; an avatar shown to the user has the hash its sender announced. *)
From stdpp Require Import gmap.
From S2P Require Import Prelude StateM CText Sidecar Resume Slots Xfer Avatar Transfer.

(** ** Operations *)

Inductive xfer_op :=
| OpOffer (fn num : Z) (kind : option Tox_File_Kind) (size : Z) (name : bytes)
| OpChunk (fn num : Z) (b : bytes)
| OpControl (fn num : Z) (c : Tox_File_Control)
| OpRequest (fn num position length : Z)
| OpSend (fn : Z) (path : bytes)
| OpAccept (id : Z) (path : bytes)
| OpReject (id : Z)
| OpCancel (id : Z)
| OpConnection (fn : Z) (online : bool)
| OpSetAvatar (path : bytes)
| OpClearAvatar
| OpOtherPrograms (d : gmap bytes bytes).

Section run.
Context {K : PassKey} {E : XferEnv} (pass_key : option Key).

Definition run_op (o : xfer_op) : M xfer_state unit :=
  match o with
  | OpOffer fn num kind size name => cb_file_recv fn num kind size name
  | OpChunk fn num b => cb_file_recv_chunk pass_key fn num b
  | OpControl fn num c => cb_file_recv_control pass_key fn num c
  | OpRequest fn num position length => cb_file_chunk_request pass_key fn num position length
  | OpSend fn path => handle_cmd_send_file pass_key fn path
  | OpAccept id path => handle_cmd_file_accept pass_key id path
  | OpReject id => handle_cmd_file_reject id
  | OpCancel id => cmd_file_cancel pass_key id
  | OpConnection fn online => xfer_connection pass_key fn online
  | OpSetAvatar path => cmd_set_avatar path
  | OpClearAvatar => cmd_clear_avatar
  | OpOtherPrograms d => modify (fun s => s <| disk := d |>)
  end.
Definition run_ops (ops : list xfer_op) (s : xfer_state) : xfer_state :=
  fold_left (fun s o => (run_op o s).2) ops s.
End run.

(** Friend numbers and file sizes are unsigned. *)
Definition op_valid (o : xfer_op) : Prop :=
  match o with
  | OpOffer fn _ _ size _ => 0 <= fn /\ 0 <= size < 2 ^ 64
  | OpChunk fn _ _ | OpControl fn _ _ => 0 <= fn
  | _ => True
  end.

(** ** The invariant *)

Lemma len_dec_any n : len (dec n) <= 20.
Proof.
  assert (H : forall fuel n, (length (dec_go fuel n []) <= fuel)%nat).
  { induction fuel as [|fuel IH]; intros k; cbn [dec_go]; [cbn; lia|].
    destruct (k <? 10); [cbn; lia|]. rewrite dec_go_app, length_app. cbn [length]. specialize (IH (k / 10)). lia. }
  specialize (H 20%nat n). unfold len, dec. lia.
Qed.
Lemma len_snprintf_s cap b : 1 <= cap -> len (snprintf_s cap b) <= cap - 1.
Proof. intros H. unfold snprintf_s, ztake, len. rewrite length_take. lia. Qed.
Lemma len_cstr_le b n : len b <= n -> len (cstr b) <= n.
Proof. pose proof (cstr_len b). lia. Qed.
Lemma len_ztake_max {A} n (l : list A) : 0 <= n -> len (ztake n l) <= n.
Proof. intros H. unfold ztake, len. rewrite length_take. lia. Qed.
Lemma len_pwrite_inside pos b old : 0 <= pos -> pos + len b <= len old -> len (pwrite pos b old) = len old.
Proof.
  intros Hp Hb. pose proof (len_nonneg b). unfold pwrite. replace (zrep (pos - len old) 0) with (@nil Z).
  - rewrite !len_app, len_ztake, len_zdrop by lia. change (len []) with 0. lia.
  - unfold zrep. by replace (Z.to_nat (pos - len old)) with 0%nat by lia.
Qed.

Section safety.
Context {K : PassKey} {E : XferEnv} {L : XferEnvLaws E} (pass_key : option Key).

Record slot_ok (x : TTXfer) : Prop := {
  so_id : 0 <= x_id x < 2 ^ 32;
  so_file_id : len (x_file_id x) = TOX_FILE_ID_LENGTH;
  so_name : len (x_name x) <= TOX_MAX_FILENAME_LENGTH;
  so_path : len (x_path x) <= 1023;
  so_recv : sending x = false -> 0 <= got x <= x_size x /\ x_size x < 2 ^ 64;
  so_open : is_Some (x_fp x) <-> accepted x = true;
}.
(** The avatar of friend [fn]: an expected hash is a file id of that friend. *)
Record avatar_ok (fn : Z) (a : TTAvatar) : Prop := {
  ao_hash : len (hash a) = TOX_HASH_LENGTH;
  ao_data : len (data a) = a_size a;
  ao_size : 0 <= a_size a <= TT_AVATAR_MAX_SIZE;
  ao_rx : rx_active a = true -> 0 <= rx_got a < rx_expected a /\ rx_expected a = a_size a;
  ao_offered : rx_active a = true -> exists k num, file_id_answer k fn num = Some (hash a);
}.
(** Our own avatar: never empty, and under its own hash. *)
Definition self_ok (a : TTAvatar) : Prop :=
  avatar_ok 0 a /\ rx_active a = false /\ (has a = true -> 0 < a_size a /\ hash a = sha256 (data a)).
(** The texts fit the buffers they are printed into ([evbuf], [buf], [path]). *)
Definition action_ok (a : xfer_action) : Prop :=
  match a with
  | UiEvent TT_EV_AVATAR fn _ b =>
      len b <= TT_AVATAR_MAX_SIZE /\ exists k num, file_id_answer k fn num = Some (sha256 b)
  | UiEvent (TT_EV_FILE_OFFER | TT_EV_FILE_RESUMED | TT_EV_FILE_TX_STARTED) _ _ b =>
      len b < TOX_MAX_FILENAME_LENGTH + 24
  | UiEvent TT_EV_FILE_PROGRESS _ _ b => len b < 48
  | UiEvent TT_EV_FILE_DONE _ _ b => len b <= 1023
  | FileSend _ kind size id name _ =>
      len name <= TOX_MAX_FILENAME_LENGTH /\ (forall h, id = Some h -> len h = TOX_FILE_ID_LENGTH) /\
      (kind = TOX_FILE_KIND_AVATAR -> 0 <= size <= TT_AVATAR_MAX_SIZE)
  | _ => True
  end.

Record transfers_ok (s : xfer_state) : Prop := {
  to_slots : length (xfers s) = TT_MAX_XFERS /\ Forall (fun o => forall x, o = Some x -> slot_ok x) (xfers s);
  to_seq : 0 <= xfer_seq s < 2 ^ 32;
  to_index : index_wf (resume_idx s) (resume_count s);
  to_avatars : len (avatars s) = TT_MAX_FRIENDS /\ forall i a, avatars s !! i = Some a -> avatar_ok (Z.of_nat i) a;
  to_self : self_ok (self_avatar s);
  to_sent : len (sent_hash s) = TT_MAX_FRIENDS /\ Forall (fun h => len h = TOX_HASH_LENGTH) (sent_hash s);
  to_ava : forall b, ava s = Some b -> 8 < len b <= 8 + TT_AVATAR_MAX_SIZE;
  to_trace : Forall action_ok (xtrace s);
}.

Abbreviation ok := (fun _ => True).
Abbreviation inv := transfers_ok.
Definition found_ok (o : option (nat * TTXfer)) : Prop := forall i x, o = Some (i, x) -> slot_ok x.

Lemma no_avatar_ok fn : avatar_ok fn no_avatar.
Proof. by split; cbn; try done; unfold TT_AVATAR_MAX_SIZE; lia. Qed.

Lemma start_ok : inv xfer_state0.
Proof.
  split; cbn -[replicate]; try done.
  - split; [done|]. by apply Forall_replicate.
  - exact empty_index_wf.
  - split; [done|]. intros i a Ha. apply lookup_replicate in Ha as [-> _]. apply no_avatar_ok.
  - split; [done|]. by apply Forall_replicate.
Qed.
(** The fields an operation does not touch. *)
Ltac inv_fields := intros s [H1 H2 H3 H4 H5 H6 H7 H8]; split; cbn; try done.

Lemma ask_keeps {A} (f : nat -> A) (J : A -> Prop) : (forall k, J (f k)) -> keeps inv J (ask f).
Proof. intros Hf s Hs. split; [apply Hf|]. revert s Hs. inv_fields. Qed.
Lemma act_keeps a : action_ok a -> keeps inv ok (act a).
Proof. intros Ha. apply keeps_modify. inv_fields. apply Forall_app. by repeat constructor. Qed.
Lemma disk_keeps f : keeps inv ok (modify (fun s => s <| disk := f s |>)).
Proof. apply keeps_modify. inv_fields. Qed.
Lemma put_slots s i (o : option TTXfer) : inv s -> (forall x, o = Some x -> slot_ok x) -> inv (s <| xfers := <[i := o]> (xfers s) |>).
Proof.
  intros Hs Ho. revert s Hs. inv_fields. destruct H1 as [H1 H1']. split; [by rewrite length_insert|]. by apply Forall_insert.
Qed.
Lemma put_keeps i o : (forall x, o = Some x -> slot_ok x) -> keeps inv ok (put_xfer i o).
Proof. intros Ho. apply keeps_modify. intros s Hs. by apply put_slots. Qed.
Lemma put_some_keeps i x : slot_ok x -> keeps inv ok (put_xfer i (Some x)).
Proof. intros Hx. apply put_keeps. by intros ? [= <-]. Qed.
Lemma avatar_keeps fn a : 0 <= fn -> avatar_ok fn a -> keeps inv ok (put_avatar fn a).
Proof.
  intros Hfn Ha. apply keeps_modify. inv_fields. destruct H4 as [H4 H4']. unfold len in *.
  split; [by rewrite length_insert|]. intros i b Hb. destruct (decide (i = Z.to_nat fn)) as [->|Hi].
  - rewrite list_lookup_insert_eq in Hb by (apply lookup_lt_Some in Hb; by rewrite length_insert in Hb).
    injection Hb as <-. by rewrite Z2Nat.id.
  - rewrite list_lookup_insert_ne in Hb by done. by apply H4'.
Qed.
Lemma avatar_of_ok fn s : 0 <= fn -> inv s -> avatar_ok fn (avatar_of fn s).
Proof.
  intros Hfn Hs. unfold avatar_of. destruct (avatars s !! Z.to_nat fn) as [a|] eqn:Ha; [|apply no_avatar_ok].
  destruct (to_avatars s Hs) as [_ H]. specialize (H _ _ Ha). by rewrite Z2Nat.id in H.
Qed.
Lemma slot_found s i x : inv s -> xfers s !! i = Some (Some x) -> slot_ok x.
Proof.
  intros Hs Hi. destruct (to_slots s Hs) as [_ H]. rewrite Forall_forall in H.
  eapply H; [|reflexivity]. by eapply list_elem_of_lookup_2.
Qed.
Lemma find_keeps p : keeps inv found_ok (get (fun s => find_slot p 0 (xfers s))).
Proof.
  apply keeps_get. intros s Hs i x Hf. apply find_slot_spec in Hf as (_ & Hi & _). rewrite Nat.sub_0_r in Hi.
  by eapply slot_found.
Qed.
Lemma new_ok id : 0 <= id < 2 ^ 32 -> slot_ok (new_xfer id).
Proof. intros H. split; cbn; try done; try lia. Qed.
Lemma alloc_keeps : keeps inv (fun o => forall i x, o = Some (i, x) -> slot_ok x /\ got x = 0 /\ sending x = false /\ accepted x = false) xfer_alloc.
Proof.
  intros s Hs. unfold xfer_alloc. destruct (free_slot 0 (xfers s)) as [i|]; [|by split].
  assert (Hid : 0 <= u32 (xfer_seq s + 1) < 2 ^ 32) by apply Z.mod_pos_bound, eq_refl.
  split.
  - intros j x [= <- <-]. split; [by apply new_ok|done].
  - pose proof (put_slots s i (Some (new_xfer (u32 (xfer_seq s + 1)))) Hs) as [H1 H2 H3 H4 H5 H6 H7 H8].
    { intros x [= <-]. by apply new_ok. }
    split; cbn in *; try done.
Qed.

(** ** The resume index *)

Lemma change_keeps f :
  (forall idx count, index_wf idx count -> index_wf (f idx count).1 (f idx count).2) -> keeps inv ok (change_index f).
Proof. intros Hf. apply keeps_modify. inv_fields. by apply Hf. Qed.
Lemma del_keeps id : keeps inv ok (change_index (fun idx count => tt_resume_del idx count id)).
Proof.
  apply change_keeps. intros idx count Hwf. pose proof (del_spec idx count id Hwf) as H.
  by destruct (tt_resume_del idx count id) as [idx' count'], H.
Qed.
Lemma put_index_keeps id text n : len id = TOX_FILE_ID_LENGTH -> 0 <= n < 2 ^ 64 ->
  keeps inv ok (change_index (fun idx count => tt_resume_put idx count id text n)).
Proof.
  intros Hid Hn. apply change_keeps. intros idx count Hwf. pose proof (put_spec idx count id text n Hwf Hid Hn) as H.
  by destruct (tt_resume_put idx count id text n) as [idx' count'], H.
Qed.
Lemma save_keeps : keeps inv ok (save_index pass_key).
Proof. apply keeps_seq; [by apply ask_keeps|]. intros n. apply keeps_modify. inv_fields. Qed.
Lemma entry_keeps id :
  keeps inv (fun o => forall j r, o = Some (j, r) -> len (path r) <= 1023 /\ 0 <= e_bytes r < 2 ^ 64) (find_entry id).
Proof.
  apply keeps_get. intros s Hs j r Hf. pose proof (resume_find_spec _ _ id (to_index s Hs)) as H.
  destruct (tt_resume_find (resume_idx s) (resume_count s) id) as [i|]; [|done]. injection Hf as <- <-.
  destruct H as (e & l1 & l2 & -> & _ & Hv & _). pose proof (iw_live _ _ (to_index s Hs)) as Hl.
  rewrite Hv in Hl. apply Forall_app in Hl as [_ Hl]. apply Forall_cons in Hl as [(_ & _ & Hp & _ & Hb) _]. done.
Qed.
Lemma bytes_index_wf idx count j n : index_wf idx count -> 0 <= n < 2 ^ 64 ->
  index_wf (alter (fun e => e <| e_bytes := n |>) j idx) count.
Proof.
  intros [W1 W2 W3 W4] Hn. unfold live in *.
  assert (Hl : take count (alter (fun e => e <| e_bytes := n |>) j idx) =
    if decide (j < count)%nat then alter (fun e => e <| e_bytes := n |>) j (take count idx) else take count idx).
  { case_decide; [by apply take_alter_lt|apply take_alter_ge; lia]. }
  split; [by rewrite length_alter|done| |]; unfold live; rewrite Hl; case_decide; try done.
  - apply Forall_alter; [done|]. by intros e _ (? & ? & ? & ? & _).
  - replace (file_id <$> alter _ j (take count idx)) with (file_id <$> take count idx); [done|].
    apply list_eq. intros k. rewrite !list_lookup_fmap. destruct (decide (j = k)) as [->|Hjk].
    + rewrite list_lookup_alter_eq. by destruct (take count idx !! k).
    + by rewrite list_lookup_alter_ne.
Qed.
Lemma note_keeps x : slot_ok x -> sending x = false -> keeps inv ok (note_progress x).
Proof.
  intros Hx Hr. unfold note_progress. destruct (have_file_id x); [|by apply keeps_pure].
  eapply keeps_bind; [apply entry_keeps|]. intros [[j r]|] _; [|by apply keeps_pure].
  apply keeps_modify. intros s Hs. pose proof (bytes_index_wf _ _ j (got x) (to_index s Hs)) as Hwf.
  destruct (so_recv x Hx Hr) as [? ?]. specialize (Hwf ltac:(lia)). revert s Hs Hwf. inv_fields.
Qed.

(** ** The table *)

Lemma emit_keeps ev fn ival b : action_ok (UiEvent ev fn ival b) -> keeps inv ok (emit ev fn ival b).
Proof. apply act_keeps. Qed.
Lemma control_keeps fn num c : keeps inv ok (control fn num c).
Proof. by apply act_keeps. Qed.

Lemma progress_keeps i x : slot_ok x -> keeps inv ok (xfer_progress pass_key i x).
Proof.
  intros Hx. unfold xfer_progress. destruct (negb _); [by apply keeps_pure|].
  apply keeps_seq; [apply put_some_keeps; by destruct Hx|]. intros _.
  apply keeps_seq; [apply keeps_when, save_keeps|]. intros _. apply emit_keeps. cbn [action_ok].
  pose proof (len_dec_any (got x)). pose proof (len_dec_any (x_size x)). rewrite !len_app. change (len [47]) with 1. lia.
Qed.
Lemma failed_keeps i x : keeps inv ok (xfer_failed pass_key i x).
Proof.
  unfold xfer_failed. apply keeps_seq; [apply keeps_when, save_keeps|]. intros _.
  apply keeps_seq; [by apply emit_keeps|]. intros _. by apply put_keeps.
Qed.
Lemma done_keeps i x : slot_ok x -> keeps inv ok (xfer_done pass_key i x).
Proof.
  intros Hx. unfold xfer_done. apply keeps_seq.
  { apply keeps_when, keeps_seq; [apply del_keeps|intros _; apply save_keeps]. }
  intros _. apply keeps_seq; [apply emit_keeps, (so_path x Hx)|]. intros _. by apply put_keeps.
Qed.
Lemma purge_keeps fn : keeps inv ok (xfer_all_purge pass_key fn).
Proof.
  apply keeps_each. intros i. eapply keeps_seq; [by apply (keeps_get _ ok)|]. intros [x|]; [|by apply keeps_pure].
  destruct (x_fn x =? fn); [apply failed_keeps|by apply keeps_pure].
Qed.
Lemma cancelled_keeps i x : keeps inv ok (fail_cancelled pass_key i x).
Proof. apply keeps_seq; [apply control_keeps|]. intros _. apply failed_keeps. Qed.

Lemma read_keeps p : keeps inv ok (fopen_read p).
Proof.
  apply keeps_seq; [by apply ask_keeps|]. intros b. apply keeps_seq; [by apply (keeps_get _ ok)|]. intros d.
  by apply keeps_pure.
Qed.
Lemma fwrite_keeps f b : keeps inv ok (fwrite f b).
Proof.
  apply keeps_seq; [by apply ask_keeps|]. intros w. apply keeps_seq; [apply disk_keeps|]. intros _. by apply keeps_pure.
Qed.
Lemma send_keeps fn kind size id name :
  (forall num, action_ok (FileSend fn kind size id name num)) -> keeps inv ok (file_send fn kind size id name).
Proof.
  intros H. apply keeps_seq; [by apply ask_keeps|]. intros num. apply keeps_seq; [by apply act_keeps|].
  intros _. by apply keeps_pure.
Qed.
Lemma send_chunk_keeps fn num pos b : keeps inv ok (send_chunk fn num pos b).
Proof. apply keeps_seq; [by apply ask_keeps|]. intros n. apply keeps_seq; [by apply act_keeps|]. intros _. by apply keeps_pure. Qed.

(** ** Offers and chunks *)

Lemma announce_keeps ev x : slot_ok x ->
  match ev with TT_EV_FILE_OFFER | TT_EV_FILE_RESUMED | TT_EV_FILE_TX_STARTED => True | _ => False end ->
  keeps inv ok (xfer_announce ev x).
Proof.
  intros Hx Hev. apply emit_keeps. assert (H : len (offer_text (x_name x) (x_size x)) < TOX_MAX_FILENAME_LENGTH + 24).
  { unfold offer_text. rewrite !len_app. pose proof (cstr_len (x_name x)). pose proof (so_name x Hx).
    pose proof (len_dec_any (x_size x)). change (len [10]) with 1. lia. }
  by destruct ev.
Qed.
Lemma partial_keeps r : keeps inv ok (open_partial r).
Proof.
  apply keeps_seq; [apply read_keeps|]. intros [b|]; [|by apply keeps_pure].
  apply keeps_seq; [by apply ask_keeps|]. intros k. by apply keeps_pure.
Qed.
Lemma auto_resume_keeps i x r : slot_ok x -> sending x = false -> 0 <= e_bytes r < 2 ^ 64 -> keeps inv ok (auto_resume i x r).
Proof.
  intros Hx Hr Hb. unfold auto_resume. destruct (negb _) eqn:Hn; [by apply announce_keeps|].
  apply negb_false_iff, andb_true_iff in Hn as [_ Hn]. apply Z.ltb_lt in Hn.
  apply keeps_seq; [apply partial_keeps|]. intros [f|]; [|by apply announce_keeps].
  match goal with |- context [put_xfer i (Some ?y)] => assert (Hy : slot_ok y) end.
  { destruct Hx as [W1 W2 W3 W4 W5 W6]. destruct (W5 Hr) as [W5' W5'']. split; cbn; try done; try lia.
    apply len_snprintf_s. lia. }
  apply keeps_seq; [by apply put_some_keeps|]. intros _. apply keeps_seq; [by apply act_keeps|]. intros _.
  apply keeps_seq; [apply control_keeps|]. intros _. by apply announce_keeps.
Qed.
Lemma on_offer_keeps fn num size name : 0 <= size < 2 ^ 64 -> keeps inv ok (xfer_on_offer fn num size name).
Proof.
  intros Hsz. unfold xfer_on_offer. eapply keeps_bind; [apply alloc_keeps|].
  intros [[i x]|] Hx; [|apply control_keeps]. destruct (Hx i x eq_refl) as (Ho & Hg & Hs & Ha).
  match goal with |- context [put_xfer i (Some ?y)] => assert (Hy : slot_ok y) end.
  { destruct Ho as [W1 W2 W3 W4 W5 W6]. split; cbn; try done; [by apply len_ztake_max|lia]. }
  apply keeps_seq; [by apply put_some_keeps|]. intros _.
  eapply (keeps_bind _ (fun o => forall id, o = Some id -> len id = TOX_FILE_ID_LENGTH)).
  { apply ask_keeps. intros k id. apply file_id_len. }
  intros [id|] Hid; [|by apply announce_keeps]. specialize (Hid id eq_refl).
  match goal with |- context [put_xfer i (Some ?y)] => assert (Hz : slot_ok y) by (destruct Hy; split; done) end.
  apply keeps_seq; [by apply put_some_keeps|]. intros _.
  eapply keeps_bind; [apply entry_keeps|]. intros [[j r]|] Hr; [|by apply announce_keeps].
  apply auto_resume_keeps; [done|done|]. by destruct (Hr j r eq_refl).
Qed.

Lemma chunk_keeps i x b : slot_ok x -> keeps inv ok (xfer_chunk pass_key i x b).
Proof.
  intros Hx. unfold xfer_chunk. destruct (x_fp x) as [f|]; [|by apply keeps_pure].
  destruct (sending x) eqn:Hs; cbn [orb]; [by apply keeps_pure|].
  destruct (accepted x) eqn:Ha; cbn [negb]; [|by apply keeps_pure].
  destruct (Z.ltb_spec (x_size x) (u64 (got x + len b))) as [|Hle]; [apply cancelled_keeps|].
  apply keeps_seq; [destruct (_ =? 0); [by apply keeps_pure|apply fwrite_keeps]|]. intros w.
  destruct (negb _); [apply cancelled_keeps|].
  match goal with |- context [put_xfer i (Some ?y)] => assert (Hy : slot_ok y) end.
  { destruct Hx as [W1 W2 W3 W4 W5 W6]. split; cbn; try done.
    intros _. destruct (W5 Hs). pose proof (Z.mod_pos_bound (got x + len b) (2 ^ 64) eq_refl). unfold u64 in *. lia. }
  apply keeps_seq; [by apply put_some_keeps|]. intros _. apply keeps_seq; [by apply note_keeps|]. intros _.
  destruct (_ <=? _); [|by apply progress_keeps]. apply keeps_seq; [by apply ask_keeps|].
  intros [|]; [by apply done_keeps|apply failed_keeps].
Qed.
Lemma serve_keeps i x f position length : slot_ok x -> x_fp x = Some f -> sending x = true ->
  keeps inv ok (xfer_serve pass_key i x f position length).
Proof.
  intros Hx Hf Hs. unfold xfer_serve. destruct (_ || _); [by apply done_keeps|].
  destruct (fseek f position) as [g|]; [|apply cancelled_keeps].
  eapply keeps_seq; [by apply (keeps_get _ ok)|]. intros d. destruct (_ =? 0); [apply cancelled_keeps|].
  match goal with |- context [put_xfer i (Some ?y)] => assert (Hy : slot_ok y) end.
  { destruct Hx as [W1 W2 W3 W4 W5 W6]. split; cbn; try done; [by rewrite Hs|].
    split; intros _; [|by eexists]. apply W6. by rewrite Hf. }
  apply keeps_seq; [by apply put_some_keeps|]. intros _. apply keeps_seq; [apply send_chunk_keeps|].
  intros [|]; [by apply progress_keeps|apply failed_keeps].
Qed.

(** ** Avatars *)

Lemma avatar_bind {A} fn (k : TTAvatar -> M xfer_state A) J : 0 <= fn -> (forall a, avatar_ok fn a -> keeps inv J (k a)) ->
  keeps inv J (bind (get (avatar_of fn)) k).
Proof. intros Hfn Hk. apply (keeps_bind _ (avatar_ok fn)); [|done]. apply keeps_get. intros s Hs. by apply avatar_of_ok. Qed.
Lemma self_bind {A} (k : TTAvatar -> M xfer_state A) J : (forall a, self_ok a -> keeps inv J (k a)) ->
  keeps inv J (bind (get self_avatar) k).
Proof. intros Hk. apply (keeps_bind _ self_ok); [|done]. apply keeps_get. intros s Hs. by apply to_self. Qed.

Lemma offer_avatar_keeps fn num size : 0 <= fn -> 0 <= size -> keeps inv ok (avatar_on_offer fn num size).
Proof.
  intros Hfn Hsz. unfold avatar_on_offer. destruct (_ <=? _); [by apply keeps_pure|]. apply avatar_bind; [done|]. intros a Ha.
  destruct (Z.eqb_spec size 0) as [|Hnz].
  { apply keeps_seq; [apply control_keeps|]. intros _. apply keeps_seq; [by apply avatar_keeps, no_avatar_ok|].
    intros _. by apply emit_keeps. }
  destruct (Z.ltb_spec TT_AVATAR_MAX_SIZE size) as [|Hmax]; [apply control_keeps|].
  apply (keeps_bind _ (fun o => forall id, o = Some id -> exists k, file_id_answer k fn num = Some id)).
  { apply ask_keeps. intros k id Hid. by exists k. }
  intros [id|] Hid; [|apply control_keeps]. destruct (Hid id eq_refl) as [k Hk].
  destruct (_ && _); [apply control_keeps|].
  apply (keeps_bind _ (fun b => len b = size)); [apply ask_keeps; intros; by apply malloc_len|]. intros block Hb.
  apply keeps_seq; [apply avatar_keeps; [done|]|intros _; apply control_keeps].
  split; cbn; try done; try lia; [by eapply file_id_len|by exists k, num].
Qed.
Lemma chunk_avatar_keeps fn num b : 0 <= fn -> keeps inv ok (avatar_chunk fn num b).
Proof.
  intros Hfn. unfold avatar_chunk. apply avatar_bind; [done|]. intros a [W1 W2 W3 W4 W5].
  destruct (rx_active a) eqn:Hrx; cbn [negb orb]; [|by apply keeps_pure].
  destruct (negb _); [by apply keeps_pure|]. destruct (W4 eq_refl) as [W6 W7]. destruct (W5 eq_refl) as (k & n & Hk).
  destruct (Z.ltb_spec (rx_expected a) (rx_got a + len b)) as [|Hfit].
  { apply keeps_seq; [apply avatar_keeps; [done|by split]|]. intros _. apply control_keeps. }
  pose proof (len_nonneg b). cbn.
  assert (Hl : len (pwrite (rx_got a) b (data a)) = a_size a) by (rewrite len_pwrite_inside; lia).
  destruct (Z.ltb_spec (rx_got a + len b) (rx_expected a)).
  { apply avatar_keeps; [done|]. split; cbn; try done; [lia|by exists k, n]. }
  destruct (negb _) eqn:Hh.
  { apply keeps_seq; [by apply avatar_keeps, no_avatar_ok|]. intros _. by apply emit_keeps. }
  apply negb_false_iff, bool_decide_eq_true in Hh. apply keeps_seq; [apply avatar_keeps; [done|by split]|].
  intros _. apply emit_keeps. cbn. replace (rx_got a + len b) with (a_size a) in Hh by lia.
  split; [pose proof (len_ztake_le (a_size a) (pwrite (rx_got a) b (data a))); lia|]. exists k, n. by rewrite Hh.
Qed.
Lemma control_avatar_keeps fn num c : 0 <= fn -> keeps inv ok (avatar_control fn num c).
Proof.
  intros Hfn. unfold avatar_control. apply avatar_bind; [done|]. intros a [W1 W2 W3 W4 W5].
  apply keeps_when, avatar_keeps; [done|by split].
Qed.
Lemma serve_avatar_keeps fn num position length : keeps inv ok (avatar_serve fn num position length).
Proof.
  unfold avatar_serve. apply self_bind. intros a _. destruct (negb _); [by apply keeps_pure|].
  destruct (_ <=? _); [by apply keeps_pure|]. apply keeps_seq; [apply send_chunk_keeps|]. intros _. by apply keeps_pure.
Qed.

Lemma push_keeps fn : keeps inv ok (avatar_push_to_friend fn).
Proof.
  unfold avatar_push_to_friend. apply self_bind. intros a [[W1 W2 W3 W4 W5] _].
  eapply keeps_seq; [by apply (keeps_get _ ok)|]. intros sent. destruct (negb _); [by apply keeps_pure|].
  destruct (bytes_eqb _ _); [by apply keeps_pure|]. apply keeps_seq.
  { apply send_keeps. intros num. cbn. split_conj; [by unfold TOX_MAX_FILENAME_LENGTH|by intros h [= <-]|done]. }
  intros [num|]; [|by apply keeps_pure]. apply keeps_modify. inv_fields. destruct H6 as [H6 H6']. unfold len in *.
  split; [by rewrite length_insert|]. by apply Forall_insert.
Qed.
Lemma push_all_keeps : keeps inv ok avatar_push_all.
Proof. apply keeps_seq; [by apply ask_keeps|]. intros fns. apply keeps_each, push_keeps. Qed.
Lemma clear_sent_keeps : keeps inv ok avatar_clear_all_sent.
Proof. apply keeps_modify. inv_fields. split; [done|]. by apply Forall_replicate. Qed.
Lemma avatar_file_len a b : avatar_persist a = Some b -> 0 <= a_size a <= len (data a) -> len b = 8 + a_size a.
Proof.
  unfold avatar_persist. destruct (has a); [|done]. cbn [negb]. intros Hb Hl. assert (Hd : default [] (Some b) = b) by done.
  rewrite <- Hb in Hd. cbn [default from_option id] in Hd. rewrite <- Hd, !len_app, len_ztake by lia. change (len TT_AVATAR_MAGIC) with 5. unfold len at 1. cbn [length]. lia.
Qed.
Lemma persist_keeps : keeps inv ok (modify (fun s => s <| ava := avatar_persist (self_avatar s) |>)).
Proof.
  apply keeps_modify. intros s Hs. pose proof (to_self s Hs) as ([W1 W2 W3 W4 W5] & _ & Hh). revert s Hs W1 W2 W3 W4 W5 Hh.
  intros s [H1 H2 H3 H4 H5 H6 H7 H8] W1 W2 W3 W4 W5 Hh. split; try done. cbn [ava set_field]. intros b Hb.
  pose proof (avatar_file_len _ _ Hb ltac:(lia)) as ->. unfold avatar_persist in Hb.
  destruct (has (self_avatar s)); [|done]. destruct (Hh eq_refl) as [? _]. lia.
Qed.
Lemma set_keeps a png a' : self_ok a -> tt_avatar_set a png = Some a' -> self_ok a'.
Proof.
  intros ([W1 W2 W3 W4 W5] & Hr & _) Ha. unfold tt_avatar_set in Ha.
  destruct (Z.eqb_spec (len png) 0); [done|]. destruct (Z.ltb_spec TT_AVATAR_MAX_SIZE (len png)); [done|].
  injection Ha as <-. pose proof (len_nonneg png). cbn in *.
  split; [|split; [done|intros _; cbn; split; [lia|done]]].
  split; cbn; try done; try lia; [apply sha256_len|by rewrite Hr|by rewrite Hr].
Qed.

Lemma set_avatar_keeps path : keeps inv ok (cmd_set_avatar path).
Proof.
  unfold cmd_set_avatar. apply keeps_seq; [apply read_keeps|]. intros [buf|]; [|by apply keeps_pure].
  destruct (_ || _); [by apply keeps_pure|]. destruct (_ || _); [by apply keeps_pure|].
  apply self_bind. intros a Ha. destruct (tt_avatar_set a buf) as [a'|] eqn:Hs; [|by apply keeps_pure].
  apply keeps_seq; [apply keeps_modify; inv_fields; exact (set_keeps a buf a' Ha Hs)|]. intros _.
  apply keeps_seq; [apply clear_sent_keeps|]. intros _. apply keeps_seq; [apply push_all_keeps|]. intros _.
  apply keeps_seq; [apply persist_keeps|]. intros _. by apply emit_keeps.
Qed.
Lemma clear_avatar_keeps : keeps inv ok cmd_clear_avatar.
Proof.
  unfold cmd_clear_avatar. apply keeps_seq; [apply keeps_modify; inv_fields|]. intros _.
  apply keeps_seq; [apply clear_sent_keeps|]. intros _. apply keeps_seq; [apply persist_keeps|]. intros _.
  apply keeps_seq; [by apply ask_keeps|]. intros fns. apply keeps_seq; [|intros _; by apply emit_keeps].
  apply keeps_each. intros fn. apply send_keeps. intros num. cbn.
  split_conj; [by unfold TOX_MAX_FILENAME_LENGTH|done|unfold TT_AVATAR_MAX_SIZE; lia].
Qed.

(** ** Commands *)

Lemma send_file_keeps fn path : keeps inv ok (handle_cmd_send_file pass_key fn path).
Proof.
  unfold handle_cmd_send_file. apply keeps_seq; [apply read_keeps|]. intros [b|]; [|by apply emit_keeps].
  eapply keeps_bind; [apply alloc_keeps|]. intros [[i x]|] Hx; [|by apply keeps_pure].
  destruct (Hx i x eq_refl) as ([W1 W2 W3 W4 W5 W6] & Hg & Hs & Ha).
  pose proof (len_snprintf_s 256 (base_name path path) ltac:(lia)). pose proof (len_snprintf_s 1024 path ltac:(lia)).
  apply keeps_seq.
  { apply send_keeps. intros num. cbn. unfold TOX_MAX_FILENAME_LENGTH. split_conj; [lia| |done].
    intros h [= <-]. apply sha256_len. }
  intros num. match goal with |- context [put_xfer i (Some ?y)] => assert (Hy : slot_ok y) end.
  { split; cbn; unfold TOX_MAX_FILENAME_LENGTH; try done; try lia. apply sha256_len. }
  apply keeps_seq; [by apply put_some_keeps|]. intros _. destruct num; [by apply announce_keeps|apply failed_keeps].
Qed.
Lemma resume_offset_bounds old size : 0 <= size -> 0 <= resume_offset old size <= size.
Proof.
  intros Hs. unfold resume_offset. destruct old as [b|]; [|lia]. pose proof (len_nonneg b).
  destruct (_ && _) eqn:H2; [|lia]. apply andb_true_iff in H2. lia.
Qed.
Lemma destination_keeps path n : keeps inv ok (open_destination path n).
Proof.
  apply keeps_seq; [by apply ask_keeps|]. intros k. eapply keeps_seq; [by apply (keeps_get _ ok)|]. intros d.
  destruct k; cbn [negb]; [|by apply keeps_pure]. destruct (negb _); [by apply keeps_pure|].
  apply keeps_seq; [apply disk_keeps|]. intros _. by apply keeps_pure.
Qed.
Lemma accept_keeps id path : keeps inv ok (handle_cmd_file_accept pass_key id path).
Proof.
  unfold handle_cmd_file_accept.
  apply (keeps_bind _ (fun o => forall i x, o = Some (i, x) -> slot_ok x /\ sending x = false)).
  { apply keeps_get. intros s Hs i x Hf. apply find_slot_spec in Hf as (_ & Hi & Hp). rewrite Nat.sub_0_r in Hi.
    split; [by eapply slot_found|]. by destruct (sending x); [rewrite andb_false_r in Hp|]. }
  intros [[i x]|] Hx; [|by apply keeps_pure]. destruct (Hx i x eq_refl) as [Ho Hs].
  apply keeps_seq; [apply read_keeps|]. intros old.
  assert (Hb : 0 <= resume_offset old (x_size x) <= x_size x)
    by (apply resume_offset_bounds; destruct Ho as [_ _ _ _ W5 _]; destruct (W5 Hs); lia).
  set (n := resume_offset old (x_size x)) in *.
  apply keeps_seq; [apply destination_keeps|]. intros [|]; cbn [negb]; [|apply cancelled_keeps].
  apply keeps_seq; [by apply ask_keeps|]. intros [|]; cbn [negb]; [|apply cancelled_keeps].
  destruct (fseek _ n) as [f|]; [|apply cancelled_keeps].
  destruct Ho as [W1 W2 W3 W4 W5 W6]. destruct (W5 Hs) as [? ?].
  apply keeps_seq; [apply keeps_when; by apply act_keeps|]. intros _.
  apply keeps_seq; [apply put_some_keeps; split; cbn; try done; apply len_snprintf_s; lia|]. intros _.
  apply keeps_seq; [|intros _; apply control_keeps]. apply keeps_when, put_index_keeps; [done|cbn; lia].
Qed.
Lemma reject_keeps id : keeps inv ok (handle_cmd_file_reject id).
Proof.
  apply (keeps_bind _ found_ok); [apply find_keeps|]. intros [[i x]|] _; [|by apply keeps_pure].
  apply keeps_seq; [apply control_keeps|]. intros _. by apply put_keeps.
Qed.

(** Every operation keeps the invariant. *)
Lemma run_op_keeps o : op_valid o -> keeps inv ok (run_op pass_key o).
Proof.
  intros Hv. destruct o as [fn num kind size name|fn num b|fn num c|fn num position length|fn path|id path|id|id|fn online|path| |d];
    cbn [run_op op_valid] in *.
  - destruct kind as [[]|]; [apply on_offer_keeps; lia|apply offer_avatar_keeps; lia|apply control_keeps].
  - unfold cb_file_recv_chunk. destruct (_ <=? _); [by apply keeps_pure|].
    apply (keeps_bind _ found_ok); [apply find_keeps|]. intros [[i x]|] Hx; [|by apply chunk_avatar_keeps].
    apply chunk_keeps. by eapply Hx.
  - unfold cb_file_recv_control. destruct (_ <=? _); [by apply keeps_pure|].
    apply (keeps_bind _ found_ok); [apply find_keeps|]. intros [[i x]|] Hx; [|by apply control_avatar_keeps].
    destruct (bool_decide _); [apply failed_keeps|by apply control_avatar_keeps].
  - unfold cb_file_chunk_request. apply (keeps_bind _ found_ok); [apply find_keeps|].
    intros [[i x]|] Hx; [|apply serve_avatar_keeps]. destruct (x_fp x) as [f|] eqn:Hf; [|apply serve_avatar_keeps].
    destruct (sending x) eqn:Hs; [|apply serve_avatar_keeps]. apply serve_keeps; [by eapply Hx|done|done].
  - apply send_file_keeps.
  - apply accept_keeps.
  - apply reject_keeps.
  - unfold cmd_file_cancel. apply (keeps_bind _ found_ok); [apply find_keeps|].
    intros [[i x]|] _; [apply cancelled_keeps|by apply keeps_pure].
  - unfold xfer_connection. destruct online; [apply push_keeps|apply purge_keeps].
  - apply set_avatar_keeps.
  - apply clear_avatar_keeps.
  - apply disk_keeps.
Qed.
Lemma run_ops_ok ops s : Forall op_valid ops -> inv s -> inv (run_ops pass_key ops s).
Proof.
  intros Hv. revert s. induction Hv as [|o ops Ho _ IH]; intros s Hs; [done|]. apply IH. by apply run_op_keeps.
Qed.

(** C8: Whatever friends, toxcore, the user, other programs and the file system
    do, file transfers stay within bounds: the table keeps its 16 slots, every
    slot its field widths, a receiver has never taken more than the size
    offered, the resume index is compact with no id twice, no avatar buffer is
    written past its end, our own avatar lies under its own hash, and every text
    reported fits the buffer it is printed into. *)
Theorem transfers_bounded :
  transfers_ok xfer_state0 /\
  forall ops s, transfers_ok s -> Forall op_valid ops -> transfers_ok (run_ops pass_key ops s).
Proof. split; [exact start_ok|]. intros ops s Hs Hops. by apply run_ops_ok. Qed.

(** C9: An avatar shown to the user has been verified: its SHA-256 is a file id
    that toxcore reported for an offer of that friend, and it is at most 64 KiB. *)
Theorem avatar_shown_verified ops fn ival b :
  Forall op_valid ops ->
  UiEvent TT_EV_AVATAR fn ival b ∈ xtrace (run_ops pass_key ops xfer_state0) ->
  len b <= TT_AVATAR_MAX_SIZE /\ exists k num, file_id_answer k fn num = Some (sha256 b).
Proof.
  intros Hops Hin. pose proof (to_trace _ (run_ops_ok ops xfer_state0 Hops start_ok)) as Ht.
  rewrite Forall_forall in Ht. exact (Ht _ Hin).
Qed.

(** ** The avatar's file *)

Definition size_bytes (n : Z) : bytes := [Z.land n 255; Z.land (Z.shiftr n 8) 255; Z.land (Z.shiftr n 16) 255].
Definition bytes_size (b : bytes) : Z := Z.lor (Z.lor (zat b 0) (Z.shiftl (zat b 1) 8)) (Z.shiftl (zat b 2) 16).
Lemma size_field n : 0 <= n <= TT_AVATAR_MAX_SIZE -> bytes_size (size_bytes n) = n.
Proof.
  unfold TT_AVATAR_MAX_SIZE. intros Hn. unfold bytes_size, size_bytes.
  change (zat [?a; ?b; ?c] 0) with a. change (zat [?a; ?b; ?c] 1) with b. change (zat [?a; ?b; ?c] 2) with c.
  assert (Hb : forall v, Z.land v 255 = v mod 2 ^ 8) by (intros v; by apply (Z.land_ones v 8)).
  rewrite !Hb, !Z.shiftr_div_pow2 by lia. pose proof (Z.mod_pos_bound n (2 ^ 8) eq_refl).
  pose proof (Z.mod_pos_bound (n / 2 ^ 8) (2 ^ 8) eq_refl).
  rewrite (Z.lor_comm (n mod 2 ^ 8)), lor_shiftl_add, Z.lor_comm, lor_shiftl_add by lia.
  rewrite (Z.mod_small (n / 2 ^ 16)) by (split; [by apply Z.div_pos; lia|apply Z.div_lt_upper_bound; lia]).
  pose proof (Z.div_mod n (2 ^ 8) ltac:(done)). pose proof (Z.div_mod (n / 2 ^ 8) (2 ^ 8) ltac:(done)).
  rewrite (Z.div_div n (2 ^ 8) (2 ^ 8)) in * by lia. change (2 ^ 8 * 2 ^ 8) with (2 ^ 16) in *. lia.
Qed.

(** What is persisted is read back. *)
Lemma avatar_file_roundtrip a : self_ok a -> has a = true ->
  let a' := avatar_persist_load (avatar_persist a) no_avatar in
  has a' = true /\ data a' = data a /\ hash a' = hash a /\ a_size a' = a_size a.
Proof.
  intros ([W1 W2 W3 W4 W5] & _ & Hs) Hh. destruct (Hs Hh) as [Hpos Hash]. unfold avatar_persist. rewrite Hh. cbn [negb].
  rewrite (ztake_all (a_size a)) by lia. set (n := a_size a) in *. set (d := data a) in *.
  change [Z.land n 255; Z.land (Z.shiftr n 8) 255; Z.land (Z.shiftr n 16) 255] with (size_bytes n).
  rewrite app_assoc. set (hdr := TT_AVATAR_MAGIC ++ size_bytes n). unfold avatar_persist_load.
  change (ztake 8 (hdr ++ d)) with hdr. change (zsub 8 ?m (hdr ++ d)) with (ztake m d).
  change (negb (len hdr =? 8) || negb (bytes_eqb (ztake 5 hdr) TT_AVATAR_MAGIC)) with false. cbv iota zeta.
  change (Z.lor (Z.lor (zat hdr 5) (Z.shiftl (zat hdr 6) 8)) (Z.shiftl (zat hdr 7) 16)) with (bytes_size (size_bytes n)).
  rewrite size_field by lia. replace ((n =? 0) || (TT_AVATAR_MAX_SIZE <? n)) with false by lia.
  rewrite ztake_all, W2, Z.eqb_refl by lia. cbn [negb]. unfold tt_avatar_set. rewrite W2.
  replace ((n =? 0) || (TT_AVATAR_MAX_SIZE <? n)) with false by lia. by cbn.
Qed.
End safety.

(** ** A concrete environment, for examples *)

Definition sample_env : XferEnv := {|
  send_answer _ := Some 3;
  chunk_answer _ := true;
  file_id_answer _ fn num := if num =? 7 then Some (ztake 32 (PNG_MAGIC ++ zrep 32 0)) else Some (zrep 30 0 ++ [fn; num]);
  friend_list _ := [0; 1];
  open_answer _ := true;
  fdopen_answer _ := true;
  write_answer _ := 2 ^ 63;
  flush_answer _ := true;
  malloc_bytes _ n := zrep n 0;
  sha256 b := ztake 32 (b ++ zrep 32 0);
  save_nonce _ := [] |}.
Lemma sample_env_laws : XferEnvLaws sample_env.
Proof.
  split.
  - intros b. cbn. rewrite len_ztake; [done|]. rewrite len_app. pose proof (len_nonneg b). change (len (zrep 32 0)) with 32. lia.
  - intros k fn num id. cbn. destruct (num =? 7); by intros [= <-].
  - intros k n Hn. by apply len_zrep.
Qed.

Definition sample_ops : list xfer_op :=
  [OpOffer 2 7 (Some TOX_FILE_KIND_AVATAR) 9 []; OpOffer 2 8 (Some TOX_FILE_KIND_DATA) 5 [102];
   OpChunk 2 7 PNG_MAGIC; OpAccept 1 [100]; OpChunk 2 8 [1; 2; 3]; OpChunk 2 7 [0]; OpChunk 2 8 [4; 5];
   OpRequest 1 3 0 10; OpConnection 2 false].
Lemma transfers_bounded_witness :
  Forall op_valid sample_ops /\
  transfers_ok (E := sample_env) (run_ops (K := sample_pass) (E := sample_env) (Some 5) sample_ops xfer_state0).
Proof.
  assert (Hv : Forall op_valid sample_ops) by (repeat constructor; cbn; try done; lia).
  split; [exact Hv|].
  apply (transfers_bounded (K := sample_pass) (L := sample_env_laws) (Some 5)); [|exact Hv].
  apply (transfers_bounded (K := sample_pass) (L := sample_env_laws) (Some 5)).
Defined.

Lemma avatar_shown_verified_witness :
  let b := PNG_MAGIC ++ [0] in
  let s := run_ops (K := sample_pass) (E := sample_env) (Some 5) sample_ops xfer_state0 in
  UiEvent TT_EV_AVATAR 2 0 b ∈ xtrace s /\
  (len b <= TT_AVATAR_MAX_SIZE /\ exists k num, file_id_answer (XferEnv := sample_env) k 2 num = Some (sha256 (XferEnv := sample_env) b)).
Proof.
  assert (Hin : UiEvent TT_EV_AVATAR 2 0 (PNG_MAGIC ++ [0]) ∈
    xtrace (run_ops (K := sample_pass) (E := sample_env) (Some 5) sample_ops xfer_state0)).
  { apply list_elem_of_In. vm_compute. tauto. }
  split; [exact Hin|].
  apply (avatar_shown_verified (K := sample_pass) (L := sample_env_laws) (Some 5) sample_ops 2 0 (PNG_MAGIC ++ [0])); [|exact Hin].
  repeat constructor; cbn; try done; lia.
Defined.
