(* ===== verification/TransferFlow.v ===== *)
(** * TransferFlow: a download among other transfers

    One download is followed through any interleaving with other transfers:
    whenever it is reported as done, its file holds the bytes that were there
    before the starting offset, followed by the bytes received. *)
From stdpp Require Import gmap.
From S2P Require Import Prelude StateM CText Sidecar Resume Slots Xfer Avatar Transfer TransferSafety.

(** ** Writing at an offset *)

Lemma zrep_neg {A} n (x : A) : n <= 0 -> zrep n x = [].
Proof. intros H. unfold zrep. by replace (Z.to_nat n) with 0%nat by lia. Qed.
Lemma ztake_ztake {A} n m (l : list A) : 0 <= n <= m -> ztake n (ztake m l) = ztake n l.
Proof. intros H. unfold ztake. rewrite take_take. f_equal. lia. Qed.
Lemma ztake_ge {A} n (l : list A) : len l <= n -> ztake n l = l.
Proof. apply ztake_all. Qed.

(** What lies before the offset [pos]: old bytes, then zeros. *)
Definition before (pos : Z) (old : bytes) : bytes := ztake pos old ++ zrep (pos - len old) 0.
Lemma len_before pos old : 0 <= pos -> len (before pos old) = pos.
Proof.
  intros H. unfold before. pose proof (len_nonneg old). rewrite len_app. destruct (Z.leb_spec pos (len old)).
  - rewrite zrep_neg, len_ztake by lia. change (len []) with 0. lia.
  - rewrite ztake_ge, len_zrep by lia. lia.
Qed.
Lemma pwrite_before pos b old : pwrite pos b old = before pos old ++ b ++ zdrop (pos + len b) old.
Proof. unfold pwrite, before. by rewrite <- app_assoc. Qed.
Lemma before_pwrite pos b old : 0 <= pos -> before (pos + len b) (pwrite pos b old) = before pos old ++ b.
Proof.
  intros H. unfold before at 1. pose proof (len_nonneg b). rewrite pwrite_before, app_assoc.
  assert (Hl : len (before pos old ++ b) = pos + len b) by (rewrite len_app, len_before; lia).
  rewrite ztake_app by lia. rewrite zrep_neg; [by rewrite app_nil_r|]. rewrite len_app, Hl.
  pose proof (len_nonneg (zdrop (pos + len b) old)). lia.
Qed.
Lemma zdrop_pwrite pos a n old : 0 <= pos -> 0 <= n -> zdrop (pos + len a + n) (pwrite pos a old) = zdrop (pos + len a + n) old.
Proof.
  intros H Hn. pose proof (len_nonneg a). rewrite pwrite_before, app_assoc.
  rewrite <- (zdrop_zdrop n (pos + len a)) by lia. rewrite zdrop_app by (rewrite len_app, len_before; lia).
  rewrite zdrop_zdrop by lia. done.
Qed.
Lemma pwrite_pwrite pos a b old : 0 <= pos ->
  pwrite (pos + len a) b (pwrite pos a old) = pwrite pos (a ++ b) old.
Proof.
  intros H. pose proof (len_nonneg b). rewrite (pwrite_before (pos + len a)), before_pwrite, zdrop_pwrite by lia.
  rewrite pwrite_before, len_app, Z.add_assoc. by rewrite <- !app_assoc.
Qed.
Lemma pwrite_nil pos old : 0 <= pos <= len old -> pwrite pos [] old = old.
Proof.
  intros H. rewrite pwrite_before. unfold before. rewrite zrep_neg by lia. rewrite app_nil_r. change (len []) with 0.
  rewrite Z.add_0_r. apply ztake_zdrop.
Qed.

(** ** The download *)

Record download := mkDownload {
  d_fn : Z;
  d_num : Z;
  d_id : Z;
  d_size : Z;
  d_from : Z;     (** offset it started at *)
  d_file : bytes; (** path *)
  d_old : bytes;  (** contents before *)
  d_file_id : bytes;
}.

Section flow.
Context {K : PassKey} {E : XferEnv} (pass_key : option Key) (d : download).

(** The slot of the download after the bytes [rec]. *)
Record own (rec : bytes) (x : TTXfer) : Prop := {
  ow_fn : x_fn x = d_fn d;
  ow_num : file_number x = d_num d;
  ow_id : x_id x = d_id d;
  ow_recv : sending x = false;
  ow_accepted : accepted x = true;
  ow_fp : x_fp x = Some (mkFile (d_file d) (d_from d + len rec));
  ow_size : x_size x = d_size d;
  ow_got : got x = d_from d + len rec;
}.
(** Another transfer: not of the same number, and not writing the same file. *)
Record stranger (y : TTXfer) : Prop := {
  st_num : ~ (x_fn y = d_fn d /\ file_number y = d_num d);
  st_id : x_id y <> d_id d;
  st_file : sending y = false -> forall f, x_fp y = Some f -> f_path f <> d_file d;
}.
(** The file after the bytes [rec]; it is not touched before the first. *)
Definition content (rec : bytes) : bytes := match rec with [] => d_old d | _ => pwrite (d_from d) rec (d_old d) end.
Definition reported (s : xfer_state) : Prop := exists fn b, UiEvent TT_EV_FILE_DONE fn (d_id d) b ∈ xtrace s.

(** [Ending]: the slot is still taken, its file no longer followed. *)
Inductive stage := Running (i : nat) | Ending (i : nat) | Finished | Failed.
Definition elsewhere (st : stage) (j : nat) : Prop := match st with Running i | Ending i => j <> i | _ => True end.
Definition settled (st : stage) : Prop := match st with Ending _ => False | _ => True end.
Definition stage_ok (rec : bytes) (st : stage) (s : xfer_state) : Prop :=
  match st with
  | Running i => (exists x, xfers s !! i = Some (Some x) /\ own rec x) /\ ~ reported s /\
                 disk s !! d_file d = Some (content rec) /\ d_from d + len rec <= d_size d
  | Finished => disk s !! d_file d = Some (content rec) /\ d_from d + len rec = d_size d
  | Ending _ | Failed => ~ reported s
  end.
(** The index gives the file no other id. *)
Definition names_ok (idx : list TTResumeEntry) : Prop := Forall (fun e => path e = d_file d -> file_id e = d_file_id d) idx.
(** [n] more ids can be given before the counter wraps. *)
Record flow (n : nat) (rec : bytes) (st : stage) (s : xfer_state) : Prop := {
  fl_others : forall j y, elsewhere st j -> xfers s !! j = Some (Some y) -> stranger y;
  fl_index : names_ok (resume_idx s);
  fl_seq : 0 <= d_id d <= xfer_seq s /\ xfer_seq s + Z.of_nat n < 2 ^ 32;
  fl_stage : stage_ok rec st s;
}.

(** What the rest of the world does: toxcore gives other transfers other
    numbers, other offers are of other files, and no other download goes to the
    same path. *)
Record fair : Prop := {
  fa_fn : 0 <= d_fn d < TT_MAX_FRIENDS;
  fa_send : forall k, send_answer k <> Some (d_num d);
  fa_num : d_num d <> UINT32_MAX;
  fa_ids : forall k fn num id, file_id_answer k fn num = Some id -> ~ (fn = d_fn d /\ num = d_num d) -> id <> d_file_id d;
  fa_path : 0 < len (d_file d) < 1023;
  fa_from : 0 <= d_from d;
  fa_size : d_size d < 2 ^ 63;
  fa_start : d_from d < d_size d \/ d_from d <= len (d_old d);
}.
Definition fair_op (o : xfer_op) : Prop :=
  match o with
  | OpOffer fn num (Some TOX_FILE_KIND_DATA) _ _ => ~ (fn = d_fn d /\ num = d_num d)
  | OpChunk fn num b => len b < 2 ^ 63
  | OpAccept _ path => path <> d_file d /\ ~ In 0 path
  | OpOtherPrograms _ => False
  | _ => True
  end.
(** The chunks of the download among the operations. *)
Definition chunk_of (o : xfer_op) : bytes :=
  match o with
  | OpChunk fn num b => if (fn =? d_fn d) && (num =? d_num d) then b else []
  | _ => []
  end.

Context (Hfair : fair).
Abbreviation ok := (fun _ => True).

(** ** Steps that do not concern the download *)

Definition quiet (a : xfer_action) : Prop := forall fn b, a <> UiEvent TT_EV_FILE_DONE fn (d_id d) b.

Lemma flow_frame n rec st s s' :
  flow n rec st s -> xfers s' = xfers s -> resume_idx s' = resume_idx s -> xfer_seq s' = xfer_seq s ->
  disk s' !! d_file d = disk s !! d_file d -> (reported s' -> reported s) -> flow n rec st s'.
Proof.
  intros [F1 F2 F3 F4] Hx Hi Hq Hd Ht. split; [by rewrite Hx|by rewrite Hi|by rewrite Hq|].
  destruct st as [i|i| |]; cbn in *; rewrite ?Hx, ?Hd; intuition.
Qed.
Lemma frame_modify n rec st (f : xfer_state -> xfer_state) :
  (forall s, xfers (f s) = xfers s /\ resume_idx (f s) = resume_idx s /\ xfer_seq (f s) = xfer_seq s /\
     disk (f s) !! d_file d = disk s !! d_file d /\ xtrace (f s) = xtrace s) -> keeps (flow n rec st) ok (modify f).
Proof.
  intros Hf. apply keeps_modify. intros s Hs. destruct (Hf s) as (H1 & H2 & H3 & H4 & H5).
  eapply flow_frame; try done. unfold reported. by rewrite H5.
Qed.
Lemma ask_flow {A} n rec st (f : nat -> A) (J : A -> Prop) : (forall k, J (f k)) -> keeps (flow n rec st) J (ask f).
Proof. intros Hf s Hs. split; [apply Hf|]. by eapply flow_frame. Qed.
Lemma act_flow n rec st a : quiet a -> keeps (flow n rec st) ok (act a).
Proof.
  intros Ha. apply keeps_modify. intros s Hs. eapply flow_frame; try done. intros (fn & b & Hin).
  cbn in Hin. apply elem_of_app in Hin as [Hin|Hin]; [by exists fn, b|].
  apply list_elem_of_singleton in Hin. by destruct (Ha fn b).
Qed.
Lemma put_flow n rec st j o : elsewhere st j -> (forall y, o = Some y -> stranger y) -> keeps (flow n rec st) ok (put_xfer j o).
Proof.
  intros Hj Ho. apply keeps_modify. intros s [F1 F2 F3 F4]. split; cbn; try done.
  - intros k y Hk Hy. destruct (decide (k = j)) as [->|Hkj].
    + assert (Hl : (j < length (xfers s))%nat) by (apply lookup_lt_Some in Hy; by rewrite length_insert in Hy).
      rewrite list_lookup_insert_eq in Hy by done. injection Hy as Hy. by apply Ho.
    + rewrite list_lookup_insert_ne in Hy by done. by eapply F1.
  - destruct st as [i|i| |]; cbn in *; try done. by rewrite list_lookup_insert_ne.
Qed.
Lemma index_flow n rec st f : (forall idx count, names_ok idx -> names_ok (f idx count).1) -> keeps (flow n rec st) ok (change_index f).
Proof.
  intros Hf. apply keeps_modify. intros s [F1 F2 F3 F4]. split; cbn; try done. by apply Hf.
Qed.

(** An entry found under another id does not name the download's file. *)
Lemma entry_flow n rec st id : id <> d_file_id d ->
  keeps (flow n rec st) (fun o => forall j r, o = Some (j, r) -> path r <> d_file d) (find_entry id).
Proof.
  intros Hid. apply keeps_get. intros s [_ F2 _ _] j r Hf. unfold tt_resume_find in Hf.
  destruct (find_index (resume_count s) 0 (resume_idx s) id) as [k|] eqn:Hk; [|done]. injection Hf as <- <-.
  assert (He : forall m i, find_index m i (resume_idx s) id = Some k ->
    entry_matches id (default zero_entry (resume_idx s !! k)) = true).
  { induction m as [|m IH]; intros i H; [done|]. cbn in H.
    destruct (entry_matches id (default zero_entry (resume_idx s !! i))) eqn:Em; [by injection H as <-|by eapply IH]. }
  apply He in Hk. clear He. destruct (resume_idx s !! k) as [e|] eqn:Hlk; [|done]. cbn in *.
  unfold entry_matches in Hk. apply andb_true_iff in Hk as [_ Hk]. apply bool_decide_eq_true in Hk.
  unfold names_ok in F2. rewrite Forall_forall in F2. intros Hp. apply Hid. rewrite <- Hk. apply F2; [by eapply list_elem_of_lookup_2|done].
Qed.
Lemma save_flow n rec st : keeps (flow n rec st) ok (save_index pass_key).
Proof. apply keeps_seq; [by apply ask_flow|]. intros b. by apply frame_modify. Qed.
Lemma note_flow n rec st x : keeps (flow n rec st) ok (note_progress x).
Proof.
  unfold note_progress. destruct (have_file_id x); [|by apply keeps_pure].
  eapply keeps_seq; [by apply (keeps_get _ ok)|]. intros [[j r]|]; [|by apply keeps_pure].
  apply keeps_modify. intros s [F1 F2 F3 F4]. split; cbn; try done. apply Forall_alter; [exact F2|]. intros e _ He. exact He.
Qed.
Lemma zero_name : path zero_entry = d_file d -> file_id zero_entry = d_file_id d.
Proof. intros H. pose proof (fa_path Hfair) as Hp. rewrite <- H in Hp. destruct Hp as [Hp _]. by apply Z.lt_irrefl in Hp. Qed.
Lemma default_name idx j : names_ok idx ->
  path (default zero_entry (idx !! j)) = d_file d -> file_id (default zero_entry (idx !! j)) = d_file_id d.
Proof.
  intros H. destruct (idx !! j) as [e|] eqn:He; [|exact zero_name]. cbn. unfold names_ok in H. rewrite Forall_forall in H.
  apply H. by eapply list_elem_of_lookup_2.
Qed.
Lemma del_names idx count id : names_ok idx -> names_ok (tt_resume_del idx count id).1.
Proof.
  intros H. unfold tt_resume_del. destruct (tt_resume_find idx count id) as [i|]; [|done]. cbn.
  assert (Hm : forall j idx, names_ok idx -> names_ok (move_last j i idx)).
  { clear idx H. induction j as [|j IH]; intros idx H; [done|]. cbn [move_last].
    destruct (_ <=? _)%nat; [done|]. destruct (used _); [|by apply IH].
    apply Forall_insert; [apply Forall_insert; [done|by apply default_name]|exact zero_name]. }
  apply Hm, Forall_insert; [done|exact zero_name].
Qed.
Lemma put_names idx count id text n : names_ok idx -> (snprintf_s 1024 text = d_file d -> id = d_file_id d) ->
  names_ok (tt_resume_put idx count id text n).1.
Proof.
  intros H Ht. unfold tt_resume_put. destruct (tt_resume_find idx count id) as [i|] eqn:Hf.
  - cbn. unfold tt_resume_find in Hf.
    assert (He : forall m k, find_index m k idx id = Some i -> file_id (default zero_entry (idx !! i)) = id).
    { induction m as [|m IH]; intros k Hk; [done|]. cbn in Hk.
      destruct (entry_matches id (default zero_entry (idx !! k))) eqn:Em; [|by eapply IH]. injection Hk as <-.
      unfold entry_matches in Em. apply andb_true_iff in Em as [_ Em]. by apply bool_decide_eq_true in Em. }
    apply He in Hf. apply Forall_lookup. intros k e Hk. destruct (decide (k = i)) as [->|Hki].
    + rewrite list_lookup_alter_eq in Hk. destruct (idx !! i) as [e0|]; [|done]. injection Hk as <-. cbn in *.
      intros Hp. rewrite Hf. by apply Ht.
    + rewrite list_lookup_alter_ne in Hk by done. unfold names_ok in H. rewrite Forall_lookup in H. by eapply H.
  - destruct (_ <=? _)%nat; [done|]. cbn. apply Forall_lookup. intros k e Hk. destruct (decide (k = count)) as [->|Hki].
    + rewrite list_lookup_alter_eq in Hk.
      destruct (<[count:=_]> idx !! count) as [e0|] eqn:H0; [|done]. injection Hk as <-.
      assert (Hl : (count < length idx)%nat) by (apply lookup_lt_Some in H0; by rewrite length_insert in H0).
      rewrite list_lookup_insert_eq in H0 by done. injection H0 as <-. cbn. exact Ht.
    + rewrite list_lookup_alter_ne, list_lookup_insert_ne in Hk by done. unfold names_ok in H. rewrite Forall_lookup in H. by eapply H.
Qed.

(** ** Other transfers *)

Definition others (st : stage) (o : option (nat * TTXfer)) : Prop := forall j y, o = Some (j, y) -> elsewhere st j /\ stranger y.

Lemma find_flow n rec st q : settled st -> (forall rec x, own rec x -> q x = false) ->
  keeps (flow n rec st) (others st) (get (fun s => find_slot q 0 (xfers s))).
Proof.
  intros Hst Hq. apply keeps_get. intros s [F1 F2 F3 F4] j y Hf. apply find_slot_spec in Hf as (_ & Hj & Hy).
  rewrite Nat.sub_0_r in Hj. assert (He : elsewhere st j); [|split; [done|by eapply F1]].
  destruct st as [i|i| |]; try done. intros ->. destruct F4 as [(x & Hx & Ho) _]. rewrite Hx in Hj. injection Hj as ->.
  apply Hq in Ho. congruence.
Qed.
Lemma emit_flow n rec st ev fn ival b : quiet (UiEvent ev fn ival b) -> keeps (flow n rec st) ok (emit ev fn ival b).
Proof. apply act_flow. Qed.
Lemma control_flow n rec st fn num c : keeps (flow n rec st) ok (control fn num c).
Proof. by apply act_flow. Qed.
Lemma free_flow n rec st j : elsewhere st j -> keeps (flow n rec st) ok (xfer_free j).
Proof. intros Hj. by apply put_flow. Qed.
Lemma put_some_flow n rec st j y : elsewhere st j -> stranger y -> keeps (flow n rec st) ok (put_xfer j (Some y)).
Proof. intros Hj Hy. apply put_flow; [done|]. by intros ? [= <-]. Qed.

Lemma progress_flow n rec st j y : elsewhere st j -> stranger y -> keeps (flow n rec st) ok (xfer_progress pass_key j y).
Proof.
  intros Hj Hy. unfold xfer_progress. destruct (negb _); [by apply keeps_pure|].
  apply keeps_seq; [apply put_some_flow; [done|by destruct Hy]|]. intros _.
  apply keeps_seq; [apply keeps_when, save_flow|]. intros _. by apply emit_flow.
Qed.
Lemma failed_flow n rec st j y : elsewhere st j -> keeps (flow n rec st) ok (xfer_failed pass_key j y).
Proof.
  intros Hj. apply keeps_seq; [apply keeps_when, save_flow|]. intros _.
  apply keeps_seq; [by apply emit_flow|]. intros _. by apply free_flow.
Qed.
Lemma done_flow n rec st j y : elsewhere st j -> x_id y <> d_id d -> keeps (flow n rec st) ok (xfer_done pass_key j y).
Proof.
  intros Hj Hy. apply keeps_seq.
  { apply keeps_when, keeps_seq; [|intros _; apply save_flow]. apply index_flow. intros; by apply del_names. }
  intros _. apply keeps_seq; [|intros _; by apply free_flow]. apply emit_flow. intros fn b [= _ H _]. done.
Qed.
Lemma cancelled_flow n rec st j y : elsewhere st j -> keeps (flow n rec st) ok (fail_cancelled pass_key j y).
Proof. intros Hj. apply keeps_seq; [apply control_flow|]. intros _. by apply failed_flow. Qed.
Lemma read_flow n rec st p : keeps (flow n rec st) ok (fopen_read p).
Proof.
  apply keeps_seq; [by apply ask_flow|]. intros b. apply keeps_seq; [by apply (keeps_get _ ok)|]. intros ?. by apply keeps_pure.
Qed.
Lemma send_flow n rec st fn kind size id name :
  keeps (flow n rec st) (fun num => num <> Some (d_num d)) (file_send fn kind size id name).
Proof.
  eapply (keeps_bind _ (fun num => num <> Some (d_num d))); [apply ask_flow, (fa_send Hfair)|]. intros num Hn.
  apply keeps_seq; [by apply act_flow|]. intros _. by apply keeps_pure.
Qed.
Lemma send_chunk_flow n rec st fn num pos b : keeps (flow n rec st) ok (send_chunk fn num pos b).
Proof. apply keeps_seq; [by apply ask_flow|]. intros a. apply keeps_seq; [by apply act_flow|]. intros _. by apply keeps_pure. Qed.
Lemma fwrite_flow n rec st f b : f_path f <> d_file d -> keeps (flow n rec st) (fun w => f_path w.2 = f_path f) (fwrite f b).
Proof.
  intros Hf. apply keeps_seq; [by apply ask_flow|]. intros w. apply keeps_seq; [|intros _; by apply keeps_pure].
  apply frame_modify. intros s. split_conj; try done. cbn. by rewrite lookup_alter_ne.
Qed.

Lemma chunk_flow n rec st j y b : elsewhere st j -> stranger y -> keeps (flow n rec st) ok (xfer_chunk pass_key j y b).
Proof.
  intros Hj Hy. unfold xfer_chunk. destruct (x_fp y) as [f|] eqn:Hf; [|by apply keeps_pure].
  destruct (sending y) eqn:Hs; cbn [orb]; [by apply keeps_pure|]. destruct (negb _); [by apply keeps_pure|].
  destruct (_ <? _); [by apply cancelled_flow|]. destruct Hy as [S1 S2 S3].
  apply (keeps_bind _ (fun w => f_path w.2 = f_path f)).
  { destruct (_ =? 0); [by apply keeps_pure|]. apply fwrite_flow. by apply (S3 Hs). }
  intros w Hw. destruct (negb _); [by apply cancelled_flow|].
  match goal with |- context [put_xfer j (Some ?z)] => assert (Hz : stranger z) end.
  { split; cbn; try done. intros _ g [= <-]. rewrite Hw. by apply (S3 Hs). }
  apply keeps_seq; [by apply put_some_flow|]. intros _. apply keeps_seq; [apply note_flow|]. intros _.
  destruct (_ <=? _); [|by apply progress_flow]. apply keeps_seq; [by apply ask_flow|].
  intros [|]; [by apply done_flow|by apply failed_flow].
Qed.
Lemma serve_flow n rec st j y f position length : elsewhere st j -> stranger y -> sending y = true ->
  keeps (flow n rec st) ok (xfer_serve pass_key j y f position length).
Proof.
  intros Hj [S1 S2 S3] Hs. unfold xfer_serve. destruct (_ || _); [by apply done_flow|].
  destruct (fseek f position) as [g|]; [|by apply cancelled_flow].
  eapply keeps_seq; [by apply (keeps_get _ ok)|]. intros dd. destruct (_ =? 0); [by apply cancelled_flow|].
  match goal with |- context [put_xfer j (Some ?z)] => assert (Hz : stranger z) by (split; cbn; try done; by rewrite Hs) end.
  apply keeps_seq; [by apply put_some_flow|]. intros _. apply keeps_seq; [apply send_chunk_flow|].
  intros [|]; [by apply progress_flow|by apply failed_flow].
Qed.

Lemma flow_less n rec st s : flow (S n) rec st s -> flow n rec st s.
Proof. intros [F1 F2 F3 F4]. split; try done. lia. Qed.
Lemma alloc_flow n rec st : settled st -> triple (flow (S n) rec st) xfer_alloc (fun o s =>
  (forall j y, o = Some (j, y) -> elsewhere st j /\ y = new_xfer (x_id y) /\ x_id y <> d_id d) /\ flow n rec st s).
Proof.
  intros Hst s Hs. unfold xfer_alloc. destruct (free_slot 0 (xfers s)) as [j|] eqn:Hf; [|split; [done|by apply flow_less]].
  apply free_slot_spec in Hf as [_ Hj]. rewrite Nat.sub_0_r in Hj. pose proof Hs as [F1 F2 F3 F4].
  assert (Hid : u32 (xfer_seq s + 1) = xfer_seq s + 1) by (apply u32_small; lia).
  assert (He : elsewhere st j).
  { destruct st as [i|i| |]; try done. intros ->. destruct F4 as [(x & Hx & _) _]. congruence. }
  rewrite Hid. split.
  - intros k y [= <- <-]. split_conj; [done|done|cbn; lia].
  - assert (Hn : stranger (new_xfer (xfer_seq s + 1))).
    { split; cbn; try done; [|lia]. intros [_ H]. by apply (fa_num Hfair). }
    destruct (put_some_flow (S n) rec st j _ He Hn s Hs) as [_ [G1 G2 G3 G4]]. split; cbn in *; try done; try lia.

Qed.

(** ** Operations on other transfers *)

Definition passes {A} (m : M xfer_state A) : Prop := forall n rec st, keeps (flow n rec st) ok m.
(** The same for an operation that may take an id. *)
Definition takes {A} (m : M xfer_state A) : Prop := forall n rec st, settled st -> triple (flow (S n) rec st) m (fun _ => flow n rec st).
Lemma passes_takes {A} (m : M xfer_state A) : passes m -> takes m.
Proof. intros Hm n rec st _ s Hs. apply flow_less. by apply Hm. Qed.

Lemma announce_flow n rec st ev x : ev <> TT_EV_FILE_DONE -> keeps (flow n rec st) ok (xfer_announce ev x).
Proof. intros Hev. apply emit_flow. by intros fn b [= H _]. Qed.
Lemma auto_resume_flow n rec st j y r : elsewhere st j -> stranger y -> path r <> d_file d ->
  keeps (flow n rec st) ok (auto_resume j y r).
Proof.
  intros Hj Hy Hr. unfold auto_resume. destruct (negb _); [by apply announce_flow|].
  apply (keeps_bind _ (fun o => forall f, o = Some f -> f_path f = path r)).
  { apply keeps_seq; [apply read_flow|]. intros [b|]; [|by apply keeps_pure]. apply keeps_seq; [by apply ask_flow|].
    intros [|]; apply keeps_pure; [|done]. intros f. unfold fseek. destruct (_ <=? _); [done|]. by intros [= <-]. }
  intros [f|] Hf; [|by apply announce_flow]. destruct Hy as [S1 S2 S3].
  apply keeps_seq; [apply put_some_flow; [done|]; split; cbn; try done; intros _ g [= <-]; by rewrite (Hf f)|]. intros _.
  apply keeps_seq; [by apply act_flow|]. intros _. apply keeps_seq; [by apply control_flow|]. intros _. by apply announce_flow.
Qed.
Lemma offer_takes fn num size name : ~ (fn = d_fn d /\ num = d_num d) -> takes (xfer_on_offer fn num size name).
Proof.
  intros Hn n rec st Hst. unfold xfer_on_offer. intros s Hs. unfold bind at 1. pose proof (alloc_flow n rec st Hst s Hs) as [Ha Hs'].
  destruct (xfer_alloc s) as [o s']. cbn in Ha, Hs'. revert s' Hs'.
  match goal with |- forall s', _ -> flow n rec st ((?m) s').2 => cut (keeps (flow n rec st) ok m); [intros H s' Hs'; by apply H|] end.
  destruct o as [[j y]|]; [|apply control_flow]. destruct (Ha j y eq_refl) as (Hj & -> & Hid).
  match goal with |- context [put_xfer j (Some ?z)] => assert (Hz : stranger z) by (by split; cbn) end.
  apply keeps_seq; [by apply put_some_flow|]. intros _.
  apply (keeps_bind _ (fun o => forall id, o = Some id -> id <> d_file_id d)).
  { apply ask_flow. intros k id Hk. by eapply (fa_ids Hfair). }
  intros [id|] Hne; [|by apply announce_flow]. specialize (Hne id eq_refl).
  match goal with |- context [put_xfer j (Some ?z)] => assert (Hz' : stranger z) by (destruct Hz; by split) end.
  apply keeps_seq; [by apply put_some_flow|]. intros _.
  eapply keeps_bind; [by apply entry_flow|]. intros [[k r]|] Hr; [|by apply announce_flow].
  apply auto_resume_flow; [done|done|]. by eapply Hr.
Qed.

Lemma avatar_put_passes fn a : passes (put_avatar fn a).
Proof. intros n rec st. by apply frame_modify. Qed.
Lemma get_passes {A B} (f : xfer_state -> A) (k : A -> M xfer_state B) : (forall a, passes (k a)) -> passes (bind (get f) k).
Proof. intros Hk n rec st. eapply keeps_seq; [by apply (keeps_get _ ok)|]. intros a. apply Hk. Qed.
Lemma ask_passes {A B} (f : nat -> A) (k : A -> M xfer_state B) : (forall a, passes (k a)) -> passes (bind (ask f) k).
Proof. intros Hk n rec st. apply keeps_seq; [by apply ask_flow|]. intros a. apply Hk. Qed.
Lemma seq_passes {A B} (m : M xfer_state A) (k : A -> M xfer_state B) : passes m -> (forall a, passes (k a)) -> passes (bind m k).
Proof. intros Hm Hk n rec st. apply keeps_seq; [apply Hm|]. intros a. apply Hk. Qed.
Lemma skip_passes : passes skip.
Proof. intros n rec st. by apply keeps_pure. Qed.
Lemma emit_passes ev fn ival b : ev <> TT_EV_FILE_DONE -> passes (emit ev fn ival b).
Proof. intros Hev n rec st. apply emit_flow. by intros f c [= H _]. Qed.
Lemma send_passes fn kind size id name : passes (file_send fn kind size id name).
Proof. intros n rec st. eapply keeps_impl; [apply send_flow|done]. Qed.
Lemma each_passes {A B} (f : A -> M xfer_state B) l : (forall a, passes (f a)) -> passes (do_each f l).
Proof. intros Hf n rec st. apply keeps_each. intros a. apply Hf. Qed.
Lemma frame_passes (f : xfer_state -> xfer_state) :
  (forall s, xfers (f s) = xfers s /\ resume_idx (f s) = resume_idx s /\ xfer_seq (f s) = xfer_seq s /\
     disk (f s) !! d_file d = disk s !! d_file d /\ xtrace (f s) = xtrace s) -> passes (modify f).
Proof. intros Hf n rec st. by apply frame_modify. Qed.
Lemma control_passes fn num c : passes (control fn num c).
Proof. intros n rec st. apply control_flow. Qed.
Lemma send_chunk_passes fn num pos b : passes (send_chunk fn num pos b).
Proof. intros n rec st. apply send_chunk_flow. Qed.
Lemma read_passes p : passes (fopen_read p).
Proof. intros n rec st. apply read_flow. Qed.

(** Walk through a program whose steps do not concern the download. *)
Ltac passing :=
  repeat first
    [ apply skip_passes | apply send_passes | apply send_chunk_passes | apply read_passes | apply avatar_put_passes
    | apply control_passes | by apply emit_passes | apply get_passes; intros ? | apply ask_passes; intros ?
    | by apply frame_passes | apply seq_passes; [|intros ?] | apply each_passes; intros ?
    | match goal with |- passes (match ?x with _ => _ end) => destruct x end ].

Lemma avatar_offer_passes fn num size : passes (avatar_on_offer fn num size).
Proof. unfold avatar_on_offer. passing. Qed.
Lemma avatar_chunk_passes fn num b : passes (avatar_chunk fn num b).
Proof. unfold avatar_chunk. cbv zeta. passing. Qed.
Lemma avatar_control_passes fn num c : passes (avatar_control fn num c).
Proof. unfold avatar_control, when. passing. Qed.
Lemma avatar_serve_passes fn num position length : passes (avatar_serve fn num position length).
Proof. unfold avatar_serve. cbv zeta. passing. Qed.
Lemma avatar_push_passes fn : passes (avatar_push_to_friend fn).
Proof. unfold avatar_push_to_friend. passing. Qed.
Lemma clear_sent_passes : passes avatar_clear_all_sent.
Proof. by apply frame_passes. Qed.
Lemma push_all_passes : passes avatar_push_all.
Proof. apply ask_passes. intros fns. apply each_passes, avatar_push_passes. Qed.
Lemma set_avatar_passes p : passes (cmd_set_avatar p).
Proof.
  unfold cmd_set_avatar. apply seq_passes; [apply read_passes|]. intros [buf|]; [|apply skip_passes].
  destruct (_ || _); [apply skip_passes|]. destruct (_ || _); [apply skip_passes|]. apply get_passes. intros a.
  destruct (tt_avatar_set a buf) as [a'|]; [|apply skip_passes]. apply seq_passes; [by apply frame_passes|]. intros _.
  apply seq_passes; [apply clear_sent_passes|]. intros _. apply seq_passes; [apply push_all_passes|]. intros _.
  apply seq_passes; [by apply frame_passes|]. intros _. by apply emit_passes.
Qed.
Lemma clear_avatar_passes : passes cmd_clear_avatar.
Proof.
  unfold cmd_clear_avatar. apply seq_passes; [by apply frame_passes|]. intros _.
  apply seq_passes; [apply clear_sent_passes|]. intros _. apply seq_passes; [by apply frame_passes|]. intros _.
  apply ask_passes. intros fns. apply seq_passes; [|intros _; by apply emit_passes].
  apply each_passes. intros fn. apply send_passes.
Qed.

(** A slot is the download's or another's. *)
Lemma slot_cases n rec st s j y : settled st -> flow n rec st s -> xfers s !! j = Some (Some y) ->
  (elsewhere st j /\ stranger y) \/ (st = Running j /\ own rec y).
Proof.
  intros Hst [F1 F2 F3 F4] Hj.
  destruct st as [i|i| |]; [|done|left|left]; try (split; [done|by eapply F1]).
  destruct (decide (j = i)) as [->|Hji]; [|left; split; [done|by eapply F1]].
  destruct F4 as [(x & Hx & Ho) _]. rewrite Hx in Hj. injection Hj as ->. by right.
Qed.
Lemma found_slot q s j y : find_slot q 0 (xfers s) = Some (j, y) -> xfers s !! j = Some (Some y) /\ q y = true.
Proof. intros Hf. apply find_slot_spec in Hf as (_ & Hj & Hq). by rewrite Nat.sub_0_r in Hj. Qed.
Lemma found_cases n rec st s q j y : settled st -> flow n rec st s -> find_slot q 0 (xfers s) = Some (j, y) ->
  (elsewhere st j /\ stranger y) \/ (st = Running j /\ own rec y).
Proof. intros Hst Hs Hf. apply found_slot in Hf as [Hj _]. by eapply slot_cases. Qed.

Lemma send_file_takes fn p : takes (handle_cmd_send_file pass_key fn p).
Proof.
  intros n rec st Hst s Hs. unfold handle_cmd_send_file. unfold bind at 1.
  pose proof (read_flow (S n) rec st p s Hs) as [_ Hs']. destruct (fopen_read p s) as [file s']. cbn in Hs'.
  destruct file as [b|]; [|apply flow_less; by apply emit_flow]. unfold bind at 1.
  pose proof (alloc_flow n rec st Hst s' Hs') as [Ha Hs'']. destruct (xfer_alloc s') as [o s'']. cbn in Ha, Hs''.
  revert s'' Hs''.
  match goal with |- forall s', _ -> flow n rec st ((?m) s').2 => cut (keeps (flow n rec st) ok m); [intros H s'' Hs''; by apply H|] end.
  destruct o as [[j y]|]; [|by apply keeps_pure]. destruct (Ha j y eq_refl) as (Hj & -> & Hid).
  eapply keeps_bind; [apply send_flow|]. intros num Hnum. cbv zeta.
  match goal with |- context [put_xfer j (Some ?z)] => assert (Hz : stranger z) end.
  { split; cbn; try done. intros [_ H]. destruct num as [k|]; cbn in H; [by subst k|by apply (fa_num Hfair)]. }
  apply keeps_seq; [by apply put_some_flow|]. intros _. destruct num; [by apply announce_flow|by apply failed_flow].
Qed.

Lemma find_step n rec st q (k : option (nat * TTXfer) -> M xfer_state unit) :
  settled st -> (forall rec x, own rec x -> q x = false) -> (forall o, others st o -> keeps (flow n rec st) ok (k o)) ->
  keeps (flow n rec st) ok (bind (get (fun s => find_slot q 0 (xfers s))) k).
Proof. intros Hst Hq Hk. eapply keeps_bind; [by apply find_flow|exact Hk]. Qed.

Lemma other_path p : p <> d_file d -> ~ In 0 p -> snprintf_s 1024 p <> d_file d.
Proof.
  intros Hp H0 H. pose proof (fa_path Hfair) as Hl. unfold snprintf_s in H. rewrite cstr_no_nul in H by done.
  apply Hp. rewrite <- H. symmetry. apply ztake_all. rewrite <- H in Hl. unfold ztake, len in *. rewrite length_take in Hl. lia.
Qed.
Lemma accept_flow n rec st id p : settled st -> p <> d_file d -> ~ In 0 p ->
  keeps (flow n rec st) ok (handle_cmd_file_accept pass_key id p).
Proof.
  intros Hst Hp H0. apply find_step; [done| |].
  { intros rec' x Ho. by rewrite (ow_accepted _ _ Ho), andb_false_r. }
  intros [[j y]|] Hy; [|by apply keeps_pure]. destruct (Hy j y eq_refl) as [Hj Hs].
  apply keeps_seq; [apply read_flow|]. intros old. cbv zeta. set (off := resume_offset old (x_size y)).
  apply keeps_seq.
  { apply keeps_seq; [by apply ask_flow|]. intros a. eapply keeps_seq; [by apply (keeps_get _ ok)|]. intros dd.
    destruct a; cbn [negb]; [|by apply keeps_pure]. destruct (negb _); [by apply keeps_pure|].
    apply keeps_seq; [|intros _; by apply keeps_pure]. apply frame_modify. intros s. split_conj; try done. cbn.
    by rewrite lookup_insert_ne. }
  intros [|]; cbn [negb]; [|by apply cancelled_flow]. apply keeps_seq; [by apply ask_flow|].
  intros [|]; cbn [negb]; [|by apply cancelled_flow]. unfold fseek. destruct (_ <=? _); [by apply cancelled_flow|].
  destruct Hs as [S1 S2 S3]. apply keeps_seq; [apply keeps_when; by apply act_flow|]. intros _.
  apply keeps_seq; [apply put_some_flow; [done|]; split; cbn; try done; by intros _ g [= <-]|]. intros _.
  apply keeps_seq; [|intros _; apply control_flow]. apply keeps_when, index_flow. intros idx count H.
  apply put_names; [done|]. intros Hc. by apply other_path in Hc.
Qed.
Lemma reject_flow n rec st id : settled st -> keeps (flow n rec st) ok (handle_cmd_file_reject id).
Proof.
  intros Hst. apply find_step; [done| |].
  { intros rec' x Ho. by rewrite (ow_accepted _ _ Ho), andb_false_r. }
  intros [[j y]|] Hy; [|by apply keeps_pure]. destruct (Hy j y eq_refl) as [Hj _].
  apply keeps_seq; [apply control_flow|]. intros _. by apply free_flow.
Qed.
Lemma request_flow n rec st fn num position length : settled st ->
  keeps (flow n rec st) ok (cb_file_chunk_request pass_key fn num position length).
Proof.
  intros Hst s Hs. split; [done|]. unfold cb_file_chunk_request, bind, xfer_find, get.
  destruct (find_slot _ 0 (xfers s)) as [[j y]|] eqn:Hf; [|by apply avatar_serve_passes].
  destruct (found_cases _ _ _ _ _ _ _ Hst Hs Hf) as [[Hj Hy]|[-> Ho]].
  - destruct (x_fp y) as [f|]; [|by apply avatar_serve_passes].
    destruct (sending y) eqn:Hsd; [|by apply avatar_serve_passes]. by apply serve_flow.
  - rewrite (ow_fp _ _ Ho), (ow_recv _ _ Ho). by apply avatar_serve_passes.
Qed.

(** ** The end of the download *)

Lemma running_ending n rec rec' i s : flow n rec (Running i) s -> flow n rec' (Ending i) s.
Proof. intros [F1 F2 F3 F4]. split; try done. by destruct F4 as (_ & ? & _). Qed.
Lemma ending_failed n rec i j y : i = j -> triple (flow n rec (Ending i)) (xfer_failed pass_key j y) (fun _ => flow n rec Failed).
Proof.
  intros <- s Hs. unfold xfer_failed, bind at 1.
  pose proof (keeps_when (flow n rec (Ending i)) (negb (sending y) && have_file_id y && (0 <? got y) && (got y <? x_size y))
    (save_index pass_key) (save_flow _ _ _) s Hs) as [_ Hs1].
  destruct (when _ _ s) as [u s1]. cbn in Hs1. unfold bind.
  destruct (emit_flow n rec (Ending i) TT_EV_FILE_FAILED (x_fn y) (x_id y) [] ltac:(done) s1 Hs1) as [_ Hs2].
  destruct (emit _ _ _ _ s1) as [u2 s2]. cbn in Hs2. destruct Hs2 as [F1 F2 F3 F4].
  split; try done. intros k z _ Hz. cbn in Hz. destruct (decide (k = i)) as [->|Hki].
  - assert (Hl : (i < length (xfers s2))%nat) by (apply lookup_lt_Some in Hz; by rewrite length_insert in Hz).
    by rewrite list_lookup_insert_eq in Hz.
  - rewrite list_lookup_insert_ne in Hz by done. by eapply F1.
Qed.
Lemma ending_cancelled n rec i y : triple (flow n rec (Ending i)) (fail_cancelled pass_key i y) (fun _ => flow n rec Failed).
Proof.
  intros s Hs. unfold fail_cancelled, bind.
  destruct (control_flow n rec (Ending i) (x_fn y) (file_number y) TOX_FILE_CONTROL_CANCEL s Hs) as [_ Hs1].
  destruct (control _ _ _ s) as [u s1]. exact (ending_failed n rec i i y eq_refl s1 Hs1).
Qed.

(** ** A chunk of the download *)

Definition tracked (n : nat) (acc : bytes) (s : xfer_state) : Prop := exists st rec, flow n rec st s /\
  match st with Running _ => rec = acc | Ending _ => False | Finished => rec `prefix_of` acc | Failed => True end.

Lemma failed_tracked n rec acc s : flow n rec Failed s -> tracked n acc s.
Proof. intros H. by exists Failed, rec. Qed.
Lemma running_tracked n acc i s : flow n acc (Running i) s -> tracked n acc s.
Proof. intros H. by exists (Running i), acc. Qed.

(** The slot stored back with the bytes written. *)
Lemma resume_running n rec i x s : flow n rec (Ending i) s -> own rec x -> (i < length (xfers s))%nat ->
  disk s !! d_file d = Some (content rec) -> d_from d + len rec <= d_size d ->
  flow n rec (Running i) (put_xfer i (Some x) s).2.
Proof.
  intros [F1 F2 F3 F4] Ho Hi Hd Hl. split; try done.
  - intros k z Hk Hz. cbn in Hk, Hz. rewrite list_lookup_insert_ne in Hz by done. by eapply F1.
  - cbn. split_conj; try done. exists x. by rewrite list_lookup_insert_eq.
Qed.
Lemma own_progress n rec i x s : flow n rec (Running i) s -> own rec x ->
  flow n rec (Running i) (xfer_progress pass_key i x s).2.
Proof.
  intros Hs Hx. unfold xfer_progress. destruct (negb _); [done|]. unfold bind at 1.
  assert (H1 : flow n rec (Running i) (put_xfer i (Some (x <| got_prev := got x |>)) s).2).
  { pose proof Hs as [_ _ _ ((y & Hy & _) & _ & Hd & Hl)].
    apply resume_running; [by eapply running_ending|by destruct Hx|by eapply lookup_lt_Some|done|done]. }
  destruct (put_xfer _ _ s) as [u s1]. cbn in H1. revert s1 H1.
  match goal with |- forall s', _ -> flow n rec (Running i) ((?m) s').2 =>
    cut (keeps (flow n rec (Running i)) ok m); [intros H s' Hs'; by apply H|] end.
  apply keeps_seq; [apply keeps_when, save_flow|]. intros _. by apply emit_flow.
Qed.
Lemma own_done n rec i x s : flow n rec (Running i) s -> d_from d + len rec = d_size d -> x_id x = d_id d ->
  flow n rec Finished (xfer_done pass_key i x s).2 /\ reported (xfer_done pass_key i x s).2.
Proof.
  intros Hs Hl Hid. remember (xfer_done pass_key i x s).2 as s' eqn:Hs'. unfold xfer_done, bind at 1 in Hs'.
  assert (H1 : flow n rec (Running i) ((when (have_file_id x)
    (do* change_index (fun idx count => tt_resume_del idx count (x_file_id x)) in save_index pass_key)) s).2).
  { apply keeps_when; [|done]. apply keeps_seq; [|intros _; apply save_flow]. apply index_flow. intros; by apply del_names. }
  destruct (when _ _ s) as [u s1]. cbn in H1, Hs'. destruct H1 as [F1 F2 F3 (_ & _ & Hd & _)]. subst s'. split.
  2: { exists (x_fn x), (x_path x). cbn. rewrite Hid. apply elem_of_app. right. by apply list_elem_of_singleton. }
  split; try done. intros k z _ Hz. cbn in Hz. destruct (decide (k = i)) as [->|Hki].
  - assert (Hk : (i < length (xfers s1))%nat) by (apply lookup_lt_Some in Hz; by rewrite length_insert in Hz).
    by rewrite list_lookup_insert_eq in Hz.
  - rewrite list_lookup_insert_ne in Hz by done. by eapply F1.
Qed.

(** A file system that takes everything. *)
Definition good_disk : Prop := (forall k, 2 ^ 63 <= write_answer k) /\ (forall k, flush_answer k = true).

Lemma content_app acc b : 0 <= d_from d -> b <> [] -> pwrite (d_from d + len acc) b (content acc) = content (acc ++ b).
Proof.
  intros Hf Hb. destruct acc as [|c acc]; cbn [content app].
  - change (len []) with 0. rewrite Z.add_0_r. by destruct b.
  - by rewrite pwrite_pwrite.
Qed.
(** Writing a chunk into the download's file. *)
Lemma own_write n acc i b s : flow n acc (Running i) s -> len b < 2 ^ 63 ->
  let f := mkFile (d_file d) (d_from d + len acc) in
  exists w s1, (if len b =? 0 then pure (0, f) else fwrite f b) s = (w, s1) /\ flow n (acc ++ b) (Ending i) s1 /\
    (w.1 = len b -> (disk s1 !! d_file d = Some (content (acc ++ b)) /\ (i < length (xfers s1))%nat) /\
                    w.2 = mkFile (d_file d) (d_from d + len (acc ++ b))) /\
    (good_disk -> w.1 = len b).
Proof.
  intros Hs Hb f. pose proof Hs as [_ _ _ ((x & Hx & _) & _ & Hd & _)]. apply lookup_lt_Some in Hx.
  pose proof (len_nonneg b). pose proof (running_ending n acc (acc ++ b) i s Hs) as He.
  destruct (Z.eqb_spec (len b) 0) as [H0|H0].
  - exists (0, f), s. apply len_0_nil in H0. subst b. rewrite app_nil_r in *. by split_conj.
  - unfold fwrite, bind, ask, modify, pure. set (w := write_answer _). set (k := Z.max 0 (Z.min w (len b))).
    do 2 eexists. split; [reflexivity|]. split; [by destruct He; split|]. cbn [fst snd]. split.
    + intros Hk. split; [split; [|done]|].
      * cbn. rewrite lookup_alter_eq. cbn. rewrite Hd. cbn. rewrite Hk, ztake_all, content_app; try done; [by apply (fa_from Hfair)|].
        intros ->. by apply H0.
      * unfold f. cbn. rewrite Hk, len_app, Z.add_assoc. done.
    + intros [Hw _]. specialize (Hw (xcalls s)). unfold k, w. lia.
Qed.
Definition chunk_result n acc i b (s' : xfer_state) : Prop :=
  let have := d_from d + len (acc ++ b) in
  (exists rec, flow n rec Failed s' /\ (good_disk -> d_size d < have)) \/
  (flow n (acc ++ b) (Running i) s' /\ have < d_size d) \/
  (flow n (acc ++ b) Finished s' /\ reported s' /\ have = d_size d).
Lemma own_chunk n acc i x b s : flow n acc (Running i) s -> own acc x -> xfers s !! i = Some (Some x) -> len b < 2 ^ 63 ->
  chunk_result n acc i b (xfer_chunk pass_key i x b s).2.
Proof.
  intros Hs Hx Hi Hb. unfold xfer_chunk. rewrite (ow_fp _ _ Hx), (ow_recv _ _ Hx), (ow_accepted _ _ Hx). cbn [orb negb].
  pose proof Hs as [_ _ _ (_ & _ & Hd & Hl)]. pose proof (fa_size Hfair) as Hsz. pose proof (fa_from Hfair) as Hfrom.
  pose proof (len_nonneg b) as Hb0. pose proof (len_nonneg acc) as Ha0. rewrite (ow_size _ _ Hx), (ow_got _ _ Hx).
  replace (u64 (d_from d + len acc + len b)) with (d_from d + len (acc ++ b))
    by (unfold u64; rewrite Z.mod_small by lia; rewrite len_app; lia).
  destruct (Z.ltb_spec (d_size d) (d_from d + len (acc ++ b))) as [|Hfit].
  { left. exists acc. split; [|done]. apply ending_cancelled. by apply (running_ending n acc). }
  unfold bind at 1. destruct (own_write n acc i b s Hs ltac:(lia)) as (w & s1 & -> & H1 & Hw & Hg).
  destruct (Z.eqb_spec w.1 (len b)) as [Hk|Hk]; cbn [negb].
  2: { left. exists (acc ++ b). split; [by apply ending_cancelled|]. intros Hgood. by destruct Hk, Hg. }
  destruct (Hw Hk) as [Hd1 Hf1]. clear Hw Hg.
  unfold bind at 1.
  match goal with |- context [put_xfer i (Some ?z)] => set (x' := z) end.
  assert (Hx' : own (acc ++ b) x').
  { destruct Hx. split; cbn; try done. by rewrite Hf1. }
  assert (H2 : flow n (acc ++ b) (Running i) (put_xfer i (Some x') s1).2).
  { destruct Hd1. by apply resume_running. }
  destruct (put_xfer _ _ s1) as [u s2]. cbn in H2. unfold bind at 1.
  pose proof (note_flow n (acc ++ b) (Running i) x' s2 H2) as [_ H3].
  destruct (note_progress x' s2) as [u3 s3]. cbn in H3.
  change (x_size x') with (x_size x). change (got x') with (d_from d + len (acc ++ b)). rewrite (ow_size _ _ Hx).
  destruct (Z.leb_spec (d_size d) (d_from d + len (acc ++ b))); [|by right; left; split; [apply own_progress|lia]].
  unfold bind. pose proof (ask_flow n (acc ++ b) (Running i) flush_answer (fun a => good_disk -> a = true)
    ltac:(by intros k' [_ Hf]) s3 H3) as [Ha H4].
  destruct (ask flush_answer s3) as [a s4]. cbn in Ha, H4. destruct a.
  - right; right. destruct (own_done n (acc ++ b) i x' s4 H4 ltac:(lia) (ow_id _ _ Hx')). split_conj; [done|done|lia].
  - left. exists (acc ++ b). split; [|intros Hg; by specialize (Ha Hg)].
    apply (ending_failed n (acc ++ b) i i x' eq_refl). by eapply running_ending.
Qed.

(** ** Every operation *)

Lemma passes_tracked {A} n acc (m : M xfer_state A) s : passes m -> tracked n acc s -> tracked n acc (m s).2.
Proof. intros Hm (st & rec & Hs & Hr). exists st, rec. split; [by apply Hm|done]. Qed.
Lemma tracked_less n acc s : tracked (S n) acc s -> tracked n acc s.
Proof. intros (st & rec & Hs & Hr). exists st, rec. split; [by apply flow_less|done]. Qed.
Lemma tracked_settled n acc s : tracked n acc s -> exists st rec, settled st /\ flow n rec st s /\
  forall s', flow n rec st s' -> tracked n acc s'.
Proof. intros (st & rec & Hs & Hr). exists st, rec. split; [by destruct st|]. split; [done|]. intros s' Hs'. by exists st, rec. Qed.
Lemma takes_tracked {A} n acc (m : M xfer_state A) s : takes m -> tracked (S n) acc s -> tracked n acc (m s).2.
Proof.
  intros Hm (st & rec & Hs & Hr). exists st, rec. split; [|done]. apply Hm; [by destruct st|done].
Qed.
Lemma keeps_tracked n acc (m : M xfer_state unit) s : (forall rec st, settled st -> keeps (flow n rec st) ok m) ->
  tracked n acc s -> tracked n acc (m s).2.
Proof. intros Hm (st & rec & Hs & Hr). exists st, rec. split; [|done]. apply Hm; [by destruct st|done]. Qed.

(** A transfer found is stopped: the download fails, or another does. *)
Lemma stop_tracked n acc q (k : nat -> TTXfer -> M xfer_state unit) (k0 : M xfer_state unit) s :
  (forall n rec st j y, elsewhere st j -> stranger y -> keeps (flow n rec st) ok (k j y)) ->
  (forall n rec i y, triple (flow n rec (Ending i)) (k i y) (fun _ => flow n rec Failed)) -> passes k0 ->
  tracked n acc s ->
  tracked n acc (match find_slot q 0 (xfers s) with Some (j, y) => k j y | None => k0 end s).2.
Proof.
  intros Hk Hend H0 Hs. destruct (find_slot q 0 (xfers s)) as [[j y]|] eqn:Hf; [|by apply passes_tracked].
  destruct (tracked_settled n acc s Hs) as (st & rec & Hst & Hfl & Hback).
  destruct (found_cases _ _ _ _ _ _ _ Hst Hfl Hf) as [[Hj Hy]|[-> Ho]].
  - apply Hback. by apply Hk.
  - apply (failed_tracked n rec), Hend. by eapply running_ending.
Qed.
Lemma cancel_tracked n acc id s : tracked n acc s -> tracked n acc (cmd_file_cancel pass_key id s).2.
Proof.
  intros Hs. unfold cmd_file_cancel, bind, xfer_by_id, get.
  pose proof (stop_tracked n acc (fun x => x_id x =? id) (fail_cancelled pass_key) skip s) as H.
  destruct (find_slot _ 0 (xfers s)) as [[j y]|]; apply H; try done;
    intros; try (by apply cancelled_flow); try (by apply ending_cancelled); apply skip_passes.
Qed.
Lemma control_tracked n acc fn num c s : tracked n acc s -> tracked n acc (cb_file_recv_control pass_key fn num c s).2.
Proof.
  intros Hs. unfold cb_file_recv_control. destruct (_ <=? _); [done|]. unfold bind, xfer_find, get.
  destruct (bool_decide (c = TOX_FILE_CONTROL_CANCEL)).
  - pose proof (stop_tracked n acc (fun x => (x_fn x =? fn) && (file_number x =? num)) (xfer_failed pass_key)
      (avatar_control fn num c) s) as H.
    destruct (find_slot _ 0 (xfers s)) as [[j y]|]; apply H; try done;
      intros; try (by apply failed_flow); try (by apply ending_failed); apply avatar_control_passes.
  - destruct (find_slot _ 0 (xfers s)) as [[j y]|]; apply passes_tracked; try done; apply avatar_control_passes.
Qed.
Lemma purge_tracked n acc fn s : tracked n acc s -> tracked n acc (xfer_all_purge pass_key fn s).2.
Proof.
  intros Hs. refine (proj2 (keeps_each (tracked n acc) _ _ _ s Hs)). clear s Hs. intros i s Hs. split; [done|].
  unfold bind, get, slot. destruct (xfers s !! i) as [[y|]|] eqn:Hi; cbn [default from_option]; try done.
  cbn. destruct (x_fn y =? fn); [|done].
  destruct (tracked_settled n acc s Hs) as (st & rec & Hst & Hfl & Hback).
  destruct (slot_cases _ _ _ _ _ _ Hst Hfl Hi) as [[Hj Hy]|[-> Ho]].
  - apply Hback. by apply failed_flow.
  - apply (failed_tracked n rec), (ending_failed n rec i i y eq_refl). by eapply running_ending.
Qed.

(** The download's own number finds its slot, and no other. *)
Lemma own_found n rec st s : settled st -> flow n rec st s ->
  find_slot (fun x => (x_fn x =? d_fn d) && (file_number x =? d_num d)) 0 (xfers s) =
  match st with Running i => (fun x => (i, x)) <$> default None (xfers s !! i) | _ => None end.
Proof.
  intros Hst Hs. destruct (find_slot _ 0 (xfers s)) as [[j y]|] eqn:Hf.
  - pose proof (found_slot _ _ _ _ Hf) as [Hj Hq]. apply andb_true_iff in Hq as [Hq1 Hq2].
    apply Z.eqb_eq in Hq1, Hq2.
    destruct (found_cases _ _ _ _ _ _ _ Hst Hs Hf) as [[He Hy]|[-> Ho]]; [by destruct (st_num _ Hy)|]. by rewrite Hj.
  - destruct st as [i|i| |]; try done. destruct (fl_stage _ _ _ _ Hs) as [(x & Hx & Ho) _].
    eapply find_slot_none in Hf; [|exact Hx]. by rewrite (ow_fn _ _ Ho), (ow_num _ _ Ho), !Z.eqb_refl in Hf.
Qed.
Lemma chunk_tracked n acc fn num b s : len b < 2 ^ 63 -> tracked n acc s ->
  tracked n (acc ++ chunk_of (OpChunk fn num b)) (cb_file_recv_chunk pass_key fn num b s).2.
Proof.
  intros Hb Hs. cbn [chunk_of]. unfold cb_file_recv_chunk. pose proof (fa_fn Hfair) as Hfn.
  destruct (Z.eqb_spec fn (d_fn d)) as [->|Hn1]; cbn [andb]; [destruct (Z.eqb_spec num (d_num d)) as [->|Hn2]|].
  - replace (TT_MAX_FRIENDS <=? d_fn d) with false by (unfold TT_MAX_FRIENDS in *; lia). unfold bind, xfer_find, get.
    destruct Hs as (st & rec & Hs & Hr). assert (Hst : settled st) by by destruct st.
    rewrite (own_found n rec st s Hst Hs). destruct st as [i|i| |]; [|done| |].
    + subst rec. pose proof (fl_stage _ _ _ _ Hs) as [(x & Hx & Ho) _]. rewrite Hx. cbn.
      destruct (own_chunk n acc i x b s Hs Ho Hx Hb) as [(rec & Hf & _)|[[Hf _]|(Hf & _ & _)]];
        [by apply (failed_tracked n rec)|by apply (running_tracked _ _ i)|]. by exists Finished, (acc ++ b).
    + exists Finished, rec. split; [by apply avatar_chunk_passes|]. by apply prefix_app_r.
    + apply (failed_tracked n rec). by apply avatar_chunk_passes.
  - rewrite app_nil_r. destruct (_ <=? _); [done|]. revert Hs. apply keeps_tracked. intros rec st Hst. apply find_step; [done| |].
    { intros rec' x Ho. rewrite (ow_num _ _ Ho). apply andb_false_iff. right. by apply Z.eqb_neq. }
    intros [[j y]|] Hy; [|apply avatar_chunk_passes]. destruct (Hy j y eq_refl). by apply chunk_flow.
  - rewrite app_nil_r. destruct (_ <=? _); [done|]. revert Hs. apply keeps_tracked. intros rec st Hst. apply find_step; [done| |].
    { intros rec' x Ho. rewrite (ow_fn _ _ Ho). apply andb_false_iff. left. by apply Z.eqb_neq. }
    intros [[j y]|] Hy; [|apply avatar_chunk_passes]. destruct (Hy j y eq_refl). by apply chunk_flow.
Qed.

Lemma op_tracked n acc o s : fair_op o -> tracked (S n) acc s -> tracked n (acc ++ chunk_of o) (run_op pass_key o s).2.
Proof.
  intros Ho Hs. pose proof (tracked_less n acc s Hs) as Hs'.
  destruct o as [fn num kind size name|fn num b|fn num c|fn num position length|fn p|id p|id|id|fn online|p| |dd];
    try (cbn [chunk_of]; rewrite app_nil_r); cbn [run_op fair_op] in *.
  - destruct kind as [[|]|]; cbn [cb_file_recv].
    + by apply takes_tracked; [apply offer_takes|].
    + by apply passes_tracked; [apply avatar_offer_passes|].
    + by apply passes_tracked; [apply control_passes|].
  - by apply chunk_tracked.
  - by apply control_tracked.
  - revert Hs'. apply keeps_tracked. intros rec st. apply request_flow.
  - by apply takes_tracked; [apply send_file_takes|].
  - revert Hs'. apply keeps_tracked. intros rec st Hst. destruct Ho. by apply accept_flow.
  - revert Hs'. apply keeps_tracked. intros rec st. apply reject_flow.
  - by apply cancel_tracked.
  - destruct online; [by apply passes_tracked; [apply avatar_push_passes|]|by apply purge_tracked].
  - by apply passes_tracked; [apply set_avatar_passes|].
  - by apply passes_tracked; [apply clear_avatar_passes|].
  - done.
Qed.
Lemma ops_tracked ops : forall n acc s, Forall fair_op ops -> tracked (length ops + n) acc s ->
  tracked n (acc ++ concat (chunk_of <$> ops)) (run_ops pass_key ops s).
Proof.
  induction ops as [|o ops IH]; intros n acc s Ho Hs; [by cbn; rewrite app_nil_r|].
  apply Forall_cons in Ho as [Ho Hops]. cbn [run_ops fold_left fmap list_fmap concat]. rewrite app_assoc. apply IH; [done|].
  by apply op_tracked.
Qed.

End flow.
