(* ===== verification/TransferDownload.v ===== *)
(** * TransferDownload: downloads from offer to end

    How a download starts, by accepting an offer or by resuming a partial file;
    what a finished download holds; and that it finishes. *)
From stdpp Require Import gmap.
From S2P Require Import Prelude StateM CText Sidecar Resume Slots Xfer Avatar Transfer TransferSafety TransferFlow.

Section download.
Context {K : PassKey} {E : XferEnv} (pass_key : option Key) (d : download).

(** ** Start *)

(** Before the offer: every transfer is another one, and the next id is the
    download's. *)
Record unrelated (n : nat) (s : xfer_state) : Prop := {
  un_slots : forall j y, xfers s !! j = Some (Some y) -> stranger d y;
  un_index : names_ok d (resume_idx s);
  un_seq : 0 <= xfer_seq s /\ xfer_seq s + 1 = d_id d /\ d_id d + Z.of_nat n < 2 ^ 32;
  un_trace : ~ reported d s;
}.
(** Offered and not yet answered. *)
Record waiting (n : nat) (i : nat) (x : TTXfer) (s : xfer_state) : Prop := {
  wt_flow : flow d n [] (Ending i) s;
  wt_slot : xfers s !! i = Some (Some x);
  wt_ids : x_fn x = d_fn d /\ file_number x = d_num d /\ x_id x = d_id d /\ x_size x = d_size d;
  wt_state : sending x = false /\ accepted x = false /\ x_fp x = None;
  wt_file_id : have_file_id x = true -> x_file_id x = d_file_id d;
}.
Definition download_starts (n : nat) (s : xfer_state) : Prop := exists i, flow d n [] (Running i) s.
Definition opens : Prop := (forall k, open_answer k = true) /\ (forall k, fdopen_answer k = true).

Context (Hfair : fair d).

(** The offer: a slot is taken; the index decides what follows. *)
Lemma offer_taken n i s name :
  unrelated n s -> free_slot 0 (xfers s) = Some i -> file_id_answer (xcalls s) (d_fn d) (d_num d) = Some (d_file_id d) ->
  exists x s1, waiting n i x s1 /\ disk s1 = disk s /\ xcalls s1 = S (xcalls s) /\ resume_idx s1 = resume_idx s /\
    resume_count s1 = resume_count s /\
    xfer_on_offer (d_fn d) (d_num d) (d_size d) name s =
    (let* r := find_entry (d_file_id d) in
     match r with Some (_, r) => auto_resume i x r | None => xfer_announce TT_EV_FILE_OFFER x end) s1.
Proof.
  intros [U1 U2 U3 U4] Hi Hid. unfold xfer_on_offer, bind at 1, xfer_alloc. rewrite Hi.
  rewrite (u32_small (xfer_seq s + 1)) by lia.
  unfold bind at 1, put_xfer at 1, modify, bind at 1, ask. cbn [xcalls set_field]. rewrite Hid. unfold bind at 1.
  match goal with |- context [put_xfer i (Some ?z)] => exists z end.
  eexists. split; [|split_conj; [..|reflexivity]]; [|done|done|done|done].
  apply free_slot_spec in Hi as [Hl Hi]. rewrite Nat.sub_0_r in Hi.
  split; cbn; try done.
  - split; cbn; try done; [|lia]. intros j y Hj Hy. rewrite !list_lookup_insert_ne in Hy by done. by eapply U1.
  - rewrite list_lookup_insert_eq; [done|]. rewrite !length_insert. lia.
  - split_conj; try done. lia.
Qed.

Lemma offer_waits n i s name :
  unrelated n s -> free_slot 0 (xfers s) = Some i -> file_id_answer (xcalls s) (d_fn d) (d_num d) = Some (d_file_id d) ->
  tt_resume_find (resume_idx s) (resume_count s) (d_file_id d) = None ->
  exists x, waiting n i x (xfer_on_offer (d_fn d) (d_num d) (d_size d) name s).2 /\
    disk (xfer_on_offer (d_fn d) (d_num d) (d_size d) name s).2 = disk s.
Proof.
  intros Hs Hi Hid Hn. destruct (offer_taken n i s name Hs Hi Hid) as (x & s1 & [W1 W2 W3 W4 W5] & Hd & _ & Hx & Hc & ->).
  unfold bind, find_entry, get. rewrite Hx, Hc, Hn. cbn [fmap option_fmap option_map]. exists x. split; [|done].
  split; try done. by apply announce_flow.
Qed.

(** A partial file the index knows is continued without asking. *)
Lemma offer_resumes n i j r s name :
  unrelated n s -> free_slot 0 (xfers s) = Some i -> file_id_answer (xcalls s) (d_fn d) (d_num d) = Some (d_file_id d) ->
  tt_resume_find (resume_idx s) (resume_count s) (d_file_id d) = Some j -> resume_idx s !! j = Some r ->
  path r = d_file d -> e_bytes r = d_from d -> 0 < d_from d < d_size d -> disk s !! d_file d = Some (d_old d) -> opens ->
  download_starts n (xfer_on_offer (d_fn d) (d_num d) (d_size d) name s).2.
Proof.
  intros Hs Hi Hid Hj Hr Hp Hb Hsz Hd [Ho Hf].
  destruct (offer_taken n i s name Hs Hi Hid) as (x & s1 & [W1 W2 (W3 & W4 & W5 & W6) (W7 & W8 & W9) W10] & Hd1 & _ & Hx & Hc & ->).
  unfold bind at 1, find_entry, get. rewrite Hx, Hc, Hj. cbn [fmap option_fmap option_map]. rewrite Hr. cbn [default from_option].
  change (id r) with r.
  unfold auto_resume. rewrite Hb, W6. replace ((0 <? d_from d) && (d_from d <? d_size d)) with true by lia. cbn [negb].
  pose proof (fa_size d Hfair) as Hmax.
  unfold bind at 1, open_partial, fopen_read, bind, ask, get, pure. cbn [fst snd]. rewrite Ho, Hp. cbn [disk set_field].
  rewrite Hd1, Hd, Hf. unfold fseek. replace (2 ^ 63 <=? e_bytes r) with false by lia. cbn [fst snd].
  rewrite Hb. match goal with |- context [put_xfer i (Some ?z) ?t] => set (x' := z); set (s2 := t) end.
  assert (H2 : flow d n [] (Running i) (put_xfer i (Some x') s2).2).
  { apply (resume_running d n [] i x' s2).
    - by destruct W1.
    - split; cbn; try done. by rewrite Z.add_0_r. by rewrite Z.add_0_r.
    - by apply lookup_lt_Some in W2.
    - cbn. by rewrite Hd1.
    - rewrite len_nil. lia. }
  exists i. revert H2. destruct (put_xfer i (Some x') s2) as [u s3]. cbn [snd]. intros H3.
  match goal with |- flow d n [] _ (?m).2 =>
    change (flow d n [] (Running i) ((do* act (FileSeek (x_fn x') (file_number x') (d_from d)) in
      do* control (x_fn x') (file_number x') TOX_FILE_CONTROL_RESUME in xfer_announce TT_EV_FILE_RESUMED x') s3).2) end.
  apply (keeps_seq (flow d n [] (Running i)) (fun _ => True)); [by apply act_flow| |done]. intros _.
  apply keeps_seq; [by apply control_flow|]. intros _. by apply announce_flow.
Qed.

(** Opening the destination changes its file only. *)
Lemma destination_open n i s off : opens -> flow d n [] (Ending i) s -> (off <> 0 -> is_Some (disk s !! d_file d)) ->
  exists s1, open_destination (d_file d) off s = (true, s1) /\ flow d n [] (Ending i) s1 /\ xfers s1 = xfers s /\
    disk s1 !! d_file d = Some (if off =? 0 then [] else default [] (disk s !! d_file d)).
Proof.
  intros [Ho _] Hs Hd. unfold open_destination, bind, ask, get, modify, pure. rewrite Ho. cbn [negb disk set_field].
  destruct (Z.eqb_spec off 0) as [->|Hoff]; cbn [negb].
  - eexists. split; [reflexivity|]. split; [by destruct Hs|]. split; [done|]. cbn. by rewrite lookup_insert_eq.
  - destruct (Hd Hoff) as [b Hb]. rewrite bool_decide_true by (by rewrite Hb). eexists. split; [reflexivity|].
    split; [by destruct Hs|]. split; [done|]. cbn. by rewrite Hb.
Qed.

(** Accepting: a shorter file at the path is continued, else it starts empty. *)
Lemma accept_starts n i x s :
  waiting n i x s -> d_from d = resume_offset (disk s !! d_file d) (d_size d) ->
  d_old d = (if d_from d =? 0 then [] else default [] (disk s !! d_file d)) -> opens -> 0 <= d_size d ->
  download_starts n (handle_cmd_file_accept pass_key (d_id d) (d_file d) s).2.
Proof.
  intros [W1 W2 (W3 & W4 & W5 & W6) (W7 & W8 & W9) W10] Hfrom Hold Hop Hsz. pose proof (fa_size d Hfair) as Hmax.
  assert (Hb : 0 <= d_from d <= d_size d) by (rewrite Hfrom; by apply resume_offset_bounds).
  unfold handle_cmd_file_accept, bind at 1, xfer_waiting, get at 1.
  rewrite (find_slot_unique _ (xfers s) i x W2).
  2: { by rewrite W5, W7, W8, Z.eqb_refl. }
  2: { intros j y Hj Hy. pose proof (st_id d y (fl_others _ _ _ _ _ W1 j y Hj Hy)) as Hne. apply Z.eqb_neq in Hne. by rewrite Hne. }
  unfold bind at 1, fopen_read, bind at 1, ask at 1, bind at 1, get at 1, pure at 1. destruct Hop as [Ho Hf]. rewrite Ho.
  cbn [disk set_field]. rewrite W6, <- Hfrom. cbv zeta. unfold bind at 1.
  match goal with |- context [open_destination (d_file d) (d_from d) ?t] =>
    destruct (destination_open n i t (d_from d)) as (s1 & -> & F1 & Hx1 & Hd1); [done|by destruct W1| |] end.
  { intros Hnz. rewrite Hfrom in Hnz. unfold resume_offset in Hnz. cbn. by destruct (disk s !! d_file d). }
  cbn [negb]. unfold bind at 1, ask at 1. rewrite Hf. cbn [negb]. unfold fseek. replace (2 ^ 63 <=? d_from d) with false by lia.
  match goal with |- context [put_xfer i (Some ?z)] => set (x' := z) end.
  exists i. unfold bind at 1.
  match goal with |- context [when ?b ?m ?t] => assert (F2 : flow d n [] (Ending i) (when b m t).2) end.
  { apply keeps_when; [by apply act_flow|]. by destruct F1. }
  match type of F2 with flow _ _ _ _ (?m).2 => assert (Hq : xfers m.2 = xfers s1 /\ disk m.2 = disk s1) by (by unfold when; destruct (negb _)) end.
  destruct (when _ _ _) as [u s2]. cbn [snd] in F2, Hq. destruct Hq as [Hx2 Hd2]. unfold bind at 1.
  assert (F3 : flow d n [] (Running i) (put_xfer i (Some x') s2).2).
  { apply resume_running; [done| | | |by rewrite len_nil; lia].
    - destruct x; cbn in *. split; cbn; try done; change (len []) with 0; rewrite Z.add_0_r; done.
    - rewrite Hx2, Hx1. cbn. by apply lookup_lt_Some in W2.
    - rewrite Hd2, Hd1. cbn. by rewrite Hold. }
  destruct (put_xfer i (Some x') s2) as [u3 s3]. cbn [snd] in F3. revert s3 F3.
  match goal with |- forall s', _ -> flow d n [] (Running i) ((?m) s').2 =>
    cut (keeps (flow d n [] (Running i)) (fun _ => True) m); [intros H s' Hs'; by apply H|] end.
  apply keeps_seq; [|intros _; by apply control_flow]. destruct (have_file_id x') eqn:Hh; [|by apply keeps_pure].
  apply index_flow. intros idx count H. apply put_names; [done|]. intros _. by apply W10.
Qed.

(** ** The end *)

(** A finished download holds the old bytes before the offset, then what was
    received. *)
Lemma finished_content rec : len rec = d_size d - d_from d ->
  content d rec = before (d_from d) (d_old d) ++ rec ++ zdrop (d_size d) (d_old d).
Proof.
  intros Hl. pose proof (fa_from d Hfair). destruct rec as [|c rec].
  - change (len []) with 0 in Hl. cbn [content app]. pose proof (fa_start d Hfair) as Hst. unfold before.
    rewrite zrep_neg by lia. rewrite app_nil_r. replace (d_size d) with (d_from d) by lia. by rewrite ztake_zdrop.
  - cbn [content]. rewrite pwrite_before, Hl. by replace (d_from d + (d_size d - d_from d)) with (d_size d) by lia.
Qed.
Lemma done_content ops s : download_starts (length ops) s -> Forall (fair_op d) ops ->
  let s' := run_ops pass_key ops s in
  let received := concat (chunk_of d <$> ops) in
  reported d s' -> d_size d - d_from d <= len received /\ d_from d <= d_size d /\
  disk s' !! d_file d = Some (before (d_from d) (d_old d) ++ ztake (d_size d - d_from d) received ++ zdrop (d_size d) (d_old d)).
Proof.
  intros (i & Hs) Hops s' received Hrep.
  assert (Ht : tracked d 0 received s').
  { apply (ops_tracked pass_key d Hfair ops 0 [] s Hops). rewrite Nat.add_0_r. by apply (running_tracked _ _ _ i). }
  destruct Ht as (st & rec & [_ _ _ F4] & Hr).
  destruct st as [j|j| |]; [by destruct F4 as (_ & ? & _)|done| |done].
  destruct F4 as [Hd Hl]. destruct Hr as [rest Hr]. rewrite Hr. pose proof (len_nonneg rest). pose proof (len_nonneg rec).
  split_conj; [rewrite len_app; lia|lia|]. rewrite Hd, finished_content by lia. by rewrite (ztake_app (d_size d - d_from d)) by lia.
Qed.


(** ** Completion *)

Lemma chunks_finish n bs : forall acc i s,
  good_disk -> flow d n acc (Running i) s -> Forall (fun b => b <> [] /\ len b < 2 ^ 63) bs -> bs <> [] ->
  d_from d + len acc + len (concat bs) = d_size d ->
  let s' := run_ops pass_key (OpChunk (d_fn d) (d_num d) <$> bs) s in
  reported d s' /\ flow d n (acc ++ concat bs) Finished s'.
Proof.
  induction bs as [|b bs IH]; intros acc i s Hg Hs Hb Hne Hl; [done|]. apply Forall_cons in Hb as [[Hb0 Hb] Hbs].
  cbn [fmap list_fmap run_ops fold_left concat] in *. rewrite len_app in Hl. pose proof (fa_fn d Hfair).
  assert (Hc : chunk_result d n acc i b (run_op pass_key (OpChunk (d_fn d) (d_num d) b) s).2).
  { cbn [run_op]. unfold cb_file_recv_chunk. replace (TT_MAX_FRIENDS <=? d_fn d) with false by lia.
    unfold bind, xfer_find, get. rewrite (own_found d n acc (Running i) s I Hs).
    pose proof (fl_stage _ _ _ _ _ Hs) as [(x & Hx & Ho) _]. rewrite Hx. cbn. by apply own_chunk. }
  pose proof (len_nonneg (concat bs)). destruct Hc as [(rec & _ & Hbad)|[[Hr Hlt]|(Hf & Hrep & Heq)]].
  - specialize (Hbad Hg). rewrite len_app in Hbad. lia.
  - destruct bs as [|b' bs]; [cbn [concat] in *; rewrite len_nil in *; rewrite len_app in Hlt; lia|].
    rewrite app_assoc. eapply IH; try done. rewrite len_app in *. lia.
  - assert (bs = []) as ->.
    { destruct bs as [|b' bs]; [done|]. apply Forall_cons in Hbs as [[Hb' _] _]. cbn [concat] in *. rewrite !len_app in *.
      pose proof (len_nonneg (concat bs)). destruct b' as [|c b']; [done|]. rewrite len_cons in *. pose proof (len_nonneg b'). lia. }
    cbn [fmap list_fmap run_ops fold_left concat]. rewrite app_nil_r. by split.
Qed.

(** An accepted offer downloads the file.  When a friend offers a file under
    an id the resume index does not know and the user accepts it at a path where
    there is none, then sending its bytes in any chunks ends with the transfer
    reported as done and the file complete, on a disk that takes what is
    written. *)
Theorem accepted_offer_downloads n i s name bs :
  unrelated (S n) s -> free_slot 0 (xfers s) = Some i ->
  file_id_answer (xcalls s) (d_fn d) (d_num d) = Some (d_file_id d) ->
  tt_resume_find (resume_idx s) (resume_count s) (d_file_id d) = None ->
  disk s !! d_file d = None -> d_from d = 0 -> d_old d = [] -> opens -> good_disk ->
  Forall (fun b => b <> [] /\ len b < 2 ^ 63) bs -> bs <> [] -> len (concat bs) = d_size d ->
  let s' := run_ops pass_key (OpOffer (d_fn d) (d_num d) (Some TOX_FILE_KIND_DATA) (d_size d) name ::
                              OpAccept (d_id d) (d_file d) :: (OpChunk (d_fn d) (d_num d) <$> bs)) s in
  reported d s' /\ disk s' !! d_file d = Some (concat bs).
Proof.
  intros Hs Hi Hid Hn Hd Hfrom Hold Hop Hg Hbs Hne Hl s'. pose proof (len_nonneg (concat bs)).
  destruct (offer_waits (S n) i s name Hs Hi Hid Hn) as (x & Hw & Hd1). unfold s'. cbn [run_ops fold_left run_op cb_file_recv].
  set (s1 := (xfer_on_offer (d_fn d) (d_num d) (d_size d) name s).2) in *.
  destruct (accept_starts (S n) i x s1 Hw) as [j Hr].
  - by rewrite Hd1, Hd.
  - by rewrite Hfrom, Hold.
  - done.
  - lia.
  - destruct (chunks_finish (S n) bs [] j _ Hg Hr Hbs Hne) as [Hrep [_ _ _ [Hc _]]].
    + rewrite Hfrom. change (len (@nil Z)) with 0. lia.
    + split; [exact Hrep|]. unfold run_ops in Hc. rewrite Hc. f_equal. rewrite finished_content by (cbn [app]; lia).
      rewrite Hfrom, Hold. cbn [app]. unfold before. rewrite ztake_0, zrep_neg by (rewrite (@len_nil Z); lia).
      rewrite zdrop_all by (rewrite (@len_nil Z); lia). cbn [app]. by rewrite !app_nil_r.
Qed.
End download.

(** ** Examples *)

Definition sample_download (from : Z) (old : bytes) : download := mkDownload 2 8 1 5 from [100] old (zrep 30 0 ++ [2; 8]).
Lemma sample_fair from old : 0 <= from < 5 -> fair (E := sample_env) (sample_download from old).
Proof.
  intros Hf. split; cbn; try done; try (unfold UINT32_MAX, TT_MAX_FRIENDS; lia).
  intros _ fn num id Hid Hne ->. destruct (num =? 7); [done|]. injection Hid as -> ->. by apply Hne.
Qed.
Lemma sample_unrelated n from old s :
  xfers s = xfers xfer_state0 -> xfer_seq s = 0 -> resume_idx s = empty_index -> xtrace s = [] -> Z.of_nat n < 100 ->
  unrelated (sample_download from old) n s.
Proof.
  intros Hx Hq Hi Ht Hn. split.
  - intros j y. rewrite Hx. cbn [xfers xfer_state0]. intros Hy. by apply lookup_replicate in Hy as [? _].
  - rewrite Hi. by apply Forall_replicate.
  - rewrite Hq. cbn. lia.
  - intros (fn & b & Hin). rewrite Ht in Hin. by apply elem_of_nil in Hin.
Qed.

Lemma accepted_offer_downloads_witness :
  let ops := OpOffer 2 8 (Some TOX_FILE_KIND_DATA) 5 [102] :: OpAccept 1 [100] :: (OpChunk 2 8 <$> [[1; 2]; [3; 4; 5]]) in
  let s' := run_ops (K := sample_pass) (E := sample_env) None ops xfer_state0 in
  reported (sample_download 0 []) s' /\ disk s' !! [100] = Some [1; 2; 3; 4; 5].
Proof.
  apply (accepted_offer_downloads (K := sample_pass) (E := sample_env) None (sample_download 0 [])
    (sample_fair 0 [] ltac:(lia)) 0 0 xfer_state0 [102] [[1; 2]; [3; 4; 5]]);
    try reflexivity; try done; try (repeat constructor; cbn; try done; lia).
  by apply sample_unrelated.
Defined.

(** A file of two other bytes lies at the path; another download runs along. *)
Definition sample_disk : gmap bytes bytes := {[ [100] := [9; 9] ]}.
Definition sample_accepted : xfer_state :=
  (handle_cmd_file_accept (K := sample_pass) (E := sample_env) None 1 [100]
    (xfer_on_offer (E := sample_env) 2 8 5 [102] (xfer_state0 <| disk := sample_disk |>)).2).2.
Lemma sample_starts : download_starts (sample_download 2 [9; 9]) 10 sample_accepted.
Proof.
  destruct (offer_waits (E := sample_env) (sample_download 2 [9; 9]) 10 0 (xfer_state0 <| disk := sample_disk |>) [102]) as (x & Hw & Hd); try reflexivity.
  { by apply sample_unrelated. }
  by apply (accept_starts (K := sample_pass) (E := sample_env) None (sample_download 2 [9; 9])
    (sample_fair 2 [9; 9] ltac:(lia)) 10 0 x).
Qed.
Definition sample_company : list xfer_op :=
  [OpOffer 1 9 (Some TOX_FILE_KIND_DATA) 3 [103]; OpChunk 2 8 [3]; OpAccept 2 [101]; OpChunk 1 9 [7; 7]; OpChunk 2 8 [];
   OpConnection 1 false; OpSend 0 [100]; OpChunk 2 8 [4; 5]; OpReject 1; OpChunk 2 8 [6]].

