(* ===== verification/TransferSend.v ===== *)
(** * TransferSend: the sender of a file

    Requests for a running transfer are answered with the bytes of its file, so
    that the receiver ends with that file; a request for a transfer that has
    just failed is answered with bytes of our avatar. *)
From stdpp Require Import gmap.
From S2P Require Import Prelude StateM CText Sidecar Resume Slots Xfer Avatar Transfer TransferSafety TransferFlow TransferDownload.

Section send.
Context {K : PassKey} {E : XferEnv} (pass_key : option Key).

Definition is_xfer (fn num : Z) (x : TTXfer) : bool := (x_fn x =? fn) && (file_number x =? num).

(** Transfer [num] to friend [fn] sends the file [src]. *)
Definition sends (fn num : Z) (src : bytes) (s : xfer_state) : Prop :=
  exists i x f, find_slot (is_xfer fn num) 0 (xfers s) = Some (i, x) /\ sending x = true /\ x_fp x = Some f /\
    x_size x = len src /\ disk s !! f_path f = Some src.

(** What toxcore took of a transfer, in order. *)
Definition chunk_in (fn num : Z) (a : xfer_action) : option bytes :=
  match a with
  | FileChunk fn' num' _ b true => if (fn' =? fn) && (num' =? num) then Some b else None
  | _ => None
  end.
Definition chunks_in (fn num : Z) (l : list xfer_action) : list bytes := omap (chunk_in fn num) l.
(** The requests for the parts of lengths [ns] that start at [pos]. *)
Fixpoint requests (fn num pos : Z) (ns : list Z) : list xfer_op :=
  match ns with
  | [] => []
  | n :: ns => OpRequest fn num pos n :: requests fn num (pos + n) ns
  end.

(** One request served: the chunk goes out, then progress or failure. *)
Lemma served fn num src pos n i x f s :
  find_slot (is_xfer fn num) 0 (xfers s) = Some (i, x) -> sending x = true -> x_fp x = Some f ->
  x_size x = len src -> disk s !! f_path f = Some src -> len src < 2 ^ 63 -> 0 <= pos < len src -> 0 < n ->
  let b := zsub pos (Z.min n 4096) src in
  let y := x <| x_fp := Some (f <| f_pos := pos + len b |>) |> <| got := pos + len b |> in
  let ok := chunk_answer (xcalls s) in
  exists s1, run_op pass_key (OpRequest fn num pos n) s = (if ok then xfer_progress pass_key i y else xfer_failed pass_key i y) s1 /\
    xfers s1 = <[i := Some y]> (xfers s) /\ disk s1 = disk s /\ self_avatar s1 = self_avatar s /\
    xtrace s1 = xtrace s ++ [FileChunk fn num pos b ok].
Proof.
  intros Hfind Hs Hf Hsz Hd Hmax Hp Hn b y ok. cbn [run_op]. unfold cb_file_chunk_request, bind at 1, xfer_find, get at 1.
  change (fun x => (x_fn x =? fn) && (file_number x =? num)) with (is_xfer fn num). rewrite Hfind, Hf, Hs.
  unfold xfer_serve, fseek. rewrite Hsz. replace ((len src <=? pos) || (n =? 0)) with false by lia.
  replace (2 ^ 63 <=? pos) with false by lia. unfold bind at 1, get at 1.
  change (f_path (f <| f_pos := pos |>)) with (f_path f). rewrite Hd. cbn [default from_option]. change (id src) with src.
  fold b. assert (Hb : 0 < len b) by (unfold b, zsub; pose proof (len_zdrop pos src ltac:(lia)); unfold ztake, len in *; rewrite length_take; lia).
  replace (len b =? 0) with false by lia. unfold bind at 1, put_xfer at 1, modify. change (f <| f_pos := pos |> <| f_pos := pos + len b |>)
    with (f <| f_pos := pos + len b |>). fold y.
  pose proof (find_slot_spec _ _ _ _ _ Hfind) as (_ & _ & Hx).
  apply andb_true_iff in Hx as [Hfn Hnum]. apply Z.eqb_eq in Hfn, Hnum.
  unfold bind at 1, send_chunk, bind at 1, ask, bind at 1, act at 1, modify, pure. eexists. split; [reflexivity|].
  split_conj; try done. cbn. by rewrite Hfn, Hnum.
Qed.

Context (Hsent : forall k, chunk_answer k = true).

Lemma serve_source fn num src pos n s :
  sends fn num src s -> len src < 2 ^ 63 -> 0 <= pos -> 0 < n <= 4096 -> pos + n <= len src ->
  let s' := (run_op pass_key (OpRequest fn num pos n) s).2 in
  sends fn num src s' /\ exists tail, xtrace s' = xtrace s ++ FileChunk fn num pos (zsub pos n src) true :: tail /\
    chunks_in fn num tail = [].
Proof.
  intros (i & x & f & Hfind & Hs & Hf & Hsz & Hd) Hmax Hp Hn Hl. cbn zeta.
  destruct (served fn num src pos n i x f s Hfind Hs Hf Hsz Hd Hmax ltac:(lia) ltac:(lia)) as (s1 & -> & Hx1 & Hd1 & _ & Ht1).
  pose proof (find_slot_spec _ _ _ _ _ Hfind) as (_ & _ & Hx). apply andb_true_iff in Hx as [Hfn Hnum]. apply Z.eqb_eq in Hfn, Hnum.
  rewrite Hsent in *. replace (Z.min n 4096) with n in * by lia.
  match goal with |- context [xfer_progress pass_key i ?z] => set (y := z) in * end.
  assert (H1 : forall z s2, x_fn z = x_fn y -> file_number z = file_number y -> sending z = sending y -> x_fp z = x_fp y ->
    x_size z = x_size y -> xfers s2 = <[i := Some z]> (xfers s) -> disk s2 = disk s -> sends fn num src s2).
  { intros z s2 A1 A2 A3 A4 A5 A6 A7. exists i, z, (f <| f_pos := pos + len (zsub pos n src) |>). rewrite A6, A7.
    split_conj; [|by rewrite A3|by rewrite A4|by rewrite A5|done].
    apply (find_slot_update _ x z (xfers s) 0 i Hfind). unfold is_xfer. rewrite A1, A2. cbn. by rewrite Hfn, Hnum, !Z.eqb_refl. }
  unfold xfer_progress. destruct (negb _).
  { split; [by apply (H1 y)|]. exists []. split; [exact Ht1|done]. }
  replace (negb (sending y) && have_file_id y) with false by (change (sending y) with (sending x); by rewrite Hs).
  split.
  - apply (H1 (y <| got_prev := got y |>)); try done. cbn. by rewrite Hx1, list_insert_insert_eq.
  - unfold bind, put_xfer, modify, when, skip, pure, emit, act, modify. cbn [xtrace set_field snd].
    rewrite Ht1, <- app_assoc. by eexists.
Qed.

Definition total (ns : list Z) : Z := foldr Z.add 0 ns.
Lemma chunks_in_app fn num l k : chunks_in fn num (l ++ k) = chunks_in fn num l ++ chunks_in fn num k.
Proof. apply omap_app. Qed.

(** Consecutive requests are answered with consecutive bytes. *)
Lemma served_stream fn num src ns : forall pos s,
  sends fn num src s -> len src < 2 ^ 63 -> 0 <= pos -> Forall (fun n => 0 < n <= 4096) ns -> pos + total ns = len src ->
  exists tail, xtrace (run_ops pass_key (requests fn num pos ns) s) = xtrace s ++ tail /\
    concat (chunks_in fn num tail) = zdrop pos src /\ length (chunks_in fn num tail) = length ns /\
    Forall (fun b => b <> [] /\ len b < 2 ^ 63) (chunks_in fn num tail).
Proof.
  unfold total. induction ns as [|n ns IH]; intros pos s Hs Hmax Hp Hns Hl; cbn [requests run_ops fold_left foldr] in *.
  - exists []. rewrite app_nil_r. split_conj; try done. cbn. by rewrite zdrop_all by lia.
  - apply Forall_cons in Hns as [Hn Hns].
    assert (Ht : 0 <= foldr Z.add 0 ns) by (clear - Hns; induction Hns; cbn [foldr]; lia).
    destruct (serve_source fn num src pos n s Hs Hmax Hp Hn ltac:(lia)) as [Hs1 (t1 & E1 & C1)].
    destruct (IH (pos + n) _ Hs1 Hmax ltac:(lia) Hns ltac:(lia)) as (t2 & E2 & C2 & L2 & F2).
    exists (FileChunk fn num pos (zsub pos n src) true :: t1 ++ t2). unfold run_ops in E2. rewrite E2, E1, <- app_assoc.
    split; [done|]. assert (Hc : chunks_in fn num (FileChunk fn num pos (zsub pos n src) true :: t1 ++ t2) =
      zsub pos n src :: chunks_in fn num t2).
    { unfold chunks_in at 1. cbn [omap list_omap chunk_in]. rewrite !Z.eqb_refl. cbn [andb]. f_equal.
      change (chunks_in fn num (t1 ++ t2) = chunks_in fn num t2). by rewrite chunks_in_app, C1. }
    rewrite Hc. cbn [concat length]. assert (Hlen : len (zsub pos n src) = n) by (apply len_zsub; lia). split_conj.
    + rewrite C2. rewrite <- (zdrop_zdrop n pos) by lia. unfold zsub. apply ztake_zdrop.
    + by rewrite L2.
    + constructor; [|done]. split; [|lia]. intros H. rewrite H in Hlen. rewrite (@len_nil Z) in Hlen. lia.
Qed.
End send.

(** C6: A file arrives.  One client sends the file [src] as transfer [num]; the
    other has just started, or resumed, a download of that size.  Toxcore
    requests consecutive parts of at most 4096 bytes from the offset the download
    started at, and hands every part the sender gave it to the receiver.  Then the
    download is reported as done, and its file is the old bytes before the
    offset followed by the rest of [src]: [src] itself when the download started
    at 0 or continued a beginning of [src]. *)
Theorem file_arrives {Ka Kb : PassKey} (Ea Eb : XferEnv) (ka : option (@Key Ka)) (kb : option (@Key Kb))
    (d : download) (fn num n : Z) (src : bytes) (ns : list Z) sa sb k :
  (forall k, chunk_answer (XferEnv := Ea) k = true) -> good_disk (E := Eb) ->
  sends fn num src sa -> fair (E := Eb) d -> download_starts d k sb ->
  len src = d_size d -> Forall (fun n => 0 < n <= 4096) ns -> ns <> [] -> d_from d + total ns = len src ->
  let sa' := run_ops (E := Ea) ka (requests fn num (d_from d) ns) sa in
  let chunks := chunks_in fn num (zdrop (len (xtrace sa)) (xtrace sa')) in
  let sb' := run_ops (E := Eb) kb (OpChunk (d_fn d) (d_num d) <$> chunks) sb in
  reported d sb' /\
  disk sb' !! d_file d = Some (before (d_from d) (d_old d) ++ zdrop (d_from d) src ++ zdrop (len src) (d_old d)) /\
  (before (d_from d) (d_old d) = ztake (d_from d) src -> len (d_old d) <= len src -> disk sb' !! d_file d = Some src).
Proof.
  intros Hca Hg Hsa Hfair [i Hsb] Hsz Hns Hne Hl sa' chunks sb'. pose proof (fa_size d Hfair). pose proof (fa_from d Hfair).
  destruct (served_stream (K := Ka) (E := Ea) ka Hca fn num src ns (d_from d) sa Hsa ltac:(lia) ltac:(lia) Hns Hl)
    as (tail & Ht & Hc & Hlen & Hf).
  assert (Hch : chunks = chunks_in fn num tail) by (unfold chunks, sa'; by rewrite Ht, zdrop_app).
  assert (Htot : 0 < total ns).
  { destruct ns as [|m ns]; [done|]. apply Forall_cons in Hns as [Hm Hns]. cbn. clear - Hm Hns.
    assert (0 <= foldr Z.add 0 ns) by (induction Hns; cbn; lia). lia. }
  destruct (chunks_finish (K := Kb) (E := Eb) kb d Hfair k chunks [] i sb Hg Hsb) as [Hrep [_ _ _ [Hd _]]].
  { by rewrite Hch. }
  { rewrite Hch. intros Hnil. rewrite Hnil in Hlen. by destruct ns. }
  { rewrite Hch, Hc, len_zdrop, len_nil by lia. lia. }
  fold sb' in Hrep, Hd. split; [exact Hrep|].
  assert (Hcont : disk sb' !! d_file d = Some (before (d_from d) (d_old d) ++ zdrop (d_from d) src ++ zdrop (len src) (d_old d))).
  { rewrite Hd. cbn [app]. rewrite Hch, Hc, Hsz. f_equal. apply finished_content; [done|]. rewrite len_zdrop; lia. }
  split; [exact Hcont|]. intros Hb Hold. rewrite Hcont, Hb, (zdrop_all (len src) (d_old d)), app_nil_r by done.
  by rewrite ztake_zdrop.
Qed.

(** ** A failed chunk *)

(** A failed file transfer goes on with our avatar.  When toxcore cannot take
    a chunk (its send queue being full, for one), the sender reports the
    transfer as failed and frees its slot, without cancelling it at toxcore.
    Toxcore asks again, the request matches no transfer of the table, and the
    friend is sent bytes of our avatar as contents of the file. *)
Theorem failed_send_serves_avatar {K : PassKey} {E : XferEnv} (pass_key : option Key) fn num pos n i x f src s :
  find_slot (is_xfer fn num) 0 (xfers s) = Some (i, x) ->
  (forall j y, j <> i -> xfers s !! j = Some (Some y) -> is_xfer fn num y = false) ->
  sending x = true -> x_fp x = Some f -> disk s !! f_path f = Some src -> x_size x = len src ->
  0 <= pos < len src -> len src < 2 ^ 63 -> 0 < n -> chunk_answer (xcalls s) = false ->
  has (self_avatar s) = true -> pos < a_size (self_avatar s) ->
  let s1 := (run_op pass_key (OpRequest fn num pos n) s).2 in
  let s2 := (run_op pass_key (OpRequest fn num pos n) s1).2 in
  xtrace s1 = xtrace s ++ [FileChunk fn num pos (zsub pos (Z.min n 4096) src) false; UiEvent TT_EV_FILE_FAILED fn (x_id x) []] /\
  exists ok, xtrace s2 = xtrace s1 ++
    [FileChunk fn num pos (zsub pos (Z.min (a_size (self_avatar s) - pos) n) (data (self_avatar s))) ok].
Proof.
  intros Hfind Hothers Hs Hf Hd Hsz Hpos Hmax Hn Hans Hhas Hsize.
  pose proof (find_slot_spec _ _ _ _ _ Hfind) as (_ & Hi & Hx). rewrite Nat.sub_0_r in Hi.
  apply andb_true_iff in Hx as [Hfn Hnum]. apply Z.eqb_eq in Hfn, Hnum.
  destruct (served pass_key fn num src pos n i x f s Hfind Hs Hf Hsz Hd Hmax Hpos Hn) as (s0 & Hrun & Hx0 & _ & Ha0 & Ht0).
  rewrite Hans in Hrun, Ht0.
  match type of Hrun with context [xfer_failed pass_key i ?z] => set (y := z) in * end.
  assert (H1 : exists s1, run_op pass_key (OpRequest fn num pos n) s = (tt, s1) /\ xfers s1 = <[i := None]> (xfers s) /\
    self_avatar s1 = self_avatar s /\
    xtrace s1 = xtrace s ++ [FileChunk fn num pos (zsub pos (Z.min n 4096) src) false; UiEvent TT_EV_FILE_FAILED fn (x_id x) []]).
  { rewrite Hrun. unfold xfer_failed. change (sending y) with (sending x). rewrite Hs. cbn [negb andb when].
    unfold bind, skip, pure, emit, act, modify, xfer_free, put_xfer, modify. eexists. split; [reflexivity|].
    split_conj; [by cbn; rewrite Hx0, list_insert_insert_eq|exact Ha0|]. cbn. rewrite Ht0, <- app_assoc. cbn. by rewrite Hfn. }
  destruct H1 as (s1 & -> & Hx1 & Ha1 & Ht1). cbn zeta. cbn [snd]. split; [exact Ht1|].
  cbn [run_op]. unfold cb_file_chunk_request, bind at 1, xfer_find, get at 1.
  change (fun x => (x_fn x =? fn) && (file_number x =? num)) with (is_xfer fn num).
  assert (Hnone : find_slot (is_xfer fn num) 0 (xfers s1) = None).
  { destruct (find_slot _ 0 (xfers s1)) as [[j y']|] eqn:Hj; [|done].
    pose proof (find_slot_spec _ _ _ _ _ Hj) as (_ & Hlk & Hy). rewrite Nat.sub_0_r, Hx1 in Hlk.
    destruct (decide (j = i)) as [->|Hji].
    - rewrite list_lookup_insert_eq in Hlk; [done|]. by apply lookup_lt_Some in Hi.
    - rewrite list_lookup_insert_ne in Hlk by done. by rewrite (Hothers j y' Hji Hlk) in Hy. }
  rewrite Hnone. unfold avatar_serve, bind at 1, get at 1. rewrite Ha1, Hhas. cbn [negb].
  replace (a_size (self_avatar s) <=? pos) with false by lia.
  unfold bind, send_chunk, bind, ask, act, modify, pure, skip. cbn [snd xtrace set_field]. by eexists.
Qed.

(** ** Examples *)

Definition sample_source : bytes := [9; 9; 3; 4; 5].
Definition sample_sender (E : XferEnv) : xfer_state :=
  run_ops (K := sample_pass) (E := E) None [OpSetAvatar [97]; OpSend 0 [102]]
    (xfer_state0 <| disk := {[ [102] := sample_source; [97] := PNG_MAGIC ++ [0] ]} |>).

Lemma sample_sends : sends 0 3 sample_source (sample_sender sample_env).
Proof.
  exists 0%nat. do 2 eexists. split; [vm_compute; reflexivity|]. split; [reflexivity|]. split; [reflexivity|].
  split; [reflexivity|]. vm_compute. reflexivity.
Qed.

Lemma file_arrives_witness :
  let d := sample_download 2 [9; 9] in
  let sa := sample_sender sample_env in
  let sa' := run_ops (K := sample_pass) (E := sample_env) None (requests 0 3 (d_from d) [2; 1]) sa in
  let chunks := chunks_in 0 3 (zdrop (len (xtrace sa)) (xtrace sa')) in
  let sb' := run_ops (K := sample_pass) (E := sample_env) None (OpChunk (d_fn d) (d_num d) <$> chunks) sample_accepted in
  reported d sb' /\
  disk sb' !! d_file d = Some (before (d_from d) (d_old d) ++ zdrop (d_from d) sample_source ++ zdrop (len sample_source) (d_old d)) /\
  (before (d_from d) (d_old d) = ztake (d_from d) sample_source -> len (d_old d) <= len sample_source ->
   disk sb' !! d_file d = Some sample_source).
Proof.
  apply (file_arrives (Ka := sample_pass) (Kb := sample_pass) sample_env sample_env None None (sample_download 2 [9; 9])
    0 3 1 sample_source [2; 1] (sample_sender sample_env) sample_accepted 10).
  - intros k. reflexivity.
  - by split.
  - exact sample_sends.
  - apply sample_fair. lia.
  - exact sample_starts.
  - reflexivity.
  - repeat constructor; lia.
  - discriminate.
  - reflexivity.
Defined.

(** A send queue that is always full. *)
Definition full_queue : XferEnv := {|
  send_answer := send_answer (XferEnv := sample_env);
  chunk_answer _ := false;
  file_id_answer := file_id_answer (XferEnv := sample_env);
  friend_list := friend_list (XferEnv := sample_env);
  open_answer := open_answer (XferEnv := sample_env);
  fdopen_answer := fdopen_answer (XferEnv := sample_env);
  write_answer := write_answer (XferEnv := sample_env);
  flush_answer := flush_answer (XferEnv := sample_env);
  malloc_bytes := malloc_bytes (XferEnv := sample_env);
  sha256 := sha256 (XferEnv := sample_env);
  save_nonce := save_nonce (XferEnv := sample_env) |}.

Lemma failed_send_serves_avatar_witness :
  let s := sample_sender full_queue in
  let s1 := (run_op (K := sample_pass) (E := full_queue) None (OpRequest 0 3 0 5) s).2 in
  let s2 := (run_op (K := sample_pass) (E := full_queue) None (OpRequest 0 3 0 5) s1).2 in
  xtrace s1 = xtrace s ++ [FileChunk 0 3 0 (zsub 0 (Z.min 5 4096) sample_source) false; UiEvent TT_EV_FILE_FAILED 0 1 []] /\
  exists ok, xtrace s2 = xtrace s1 ++
    [FileChunk 0 3 0 (zsub 0 (Z.min (a_size (self_avatar s) - 0) 5) (data (self_avatar s))) ok].
Proof.
  assert (Hf : exists x f, find_slot (is_xfer 0 3) 0 (xfers (sample_sender full_queue)) = Some (0%nat, x) /\ x_id x = 1 /\
    sending x = true /\ x_fp x = Some f /\ disk (sample_sender full_queue) !! f_path f = Some sample_source /\
    x_size x = len sample_source).
  { do 2 eexists. split; [vm_compute; reflexivity|]. do 3 (split; [reflexivity|]). split; [vm_compute; reflexivity|reflexivity]. }
  destruct Hf as (x & f & H1 & <- & H3 & H4 & H5 & H6).
  apply (failed_send_serves_avatar (K := sample_pass) (E := full_queue) None 0 3 0 5 0 x f sample_source
    (sample_sender full_queue) H1); [|exact H3|exact H4|exact H5|exact H6|by split|done|done|reflexivity|reflexivity|reflexivity].
  intros j y Hj Hy. destruct j as [|j]; [done|]. exfalso.
  assert (H : xfers (sample_sender full_queue) = default None (xfers (sample_sender full_queue) !! 0%nat) :: replicate 15 None)
    by (vm_compute; reflexivity).
  rewrite H in Hy. by apply (lookup_replicate 15) in Hy as [? _].
Defined.
