(* ===== verification/AvatarPolicy.v ===== *)
(** * AvatarPolicy: avatars that never arrive *)
From stdpp Require Import gmap.
From S2P Require Import Prelude StateM CText Sidecar Resume Slots Xfer Avatar Transfer TransferSafety.

Section policy.
Context {K : PassKey} {E : XferEnv} (pass_key : option Key).

Lemma put_avatar_of fn a s : 0 <= fn < TT_MAX_FRIENDS -> len (avatars s) = TT_MAX_FRIENDS ->
  avatar_of fn (put_avatar fn a s).2 = a.
Proof.
  intros Hfn Hl. unfold avatar_of, put_avatar, modify. cbn. rewrite list_lookup_insert_eq; [done|]. unfold len in Hl. lia.
Qed.
(** An avatar taken to be held already is refused. *)
Lemma offer_refused fn num size h s : 0 <= fn < TT_MAX_FRIENDS -> 0 < size <= TT_AVATAR_MAX_SIZE ->
  file_id_answer (xcalls s) fn num = Some h -> has (avatar_of fn s) = true -> hash (avatar_of fn s) = h ->
  exists s', avatar_on_offer fn num size s = (tt, s') /\ avatars s' = avatars s /\
    xtrace s' = xtrace s ++ [FileControl fn num TOX_FILE_CONTROL_CANCEL].
Proof.
  intros Hfn Hsz Hid Hhas Hh. unfold avatar_on_offer. replace (TT_MAX_FRIENDS <=? fn) with false by lia.
  unfold bind at 1, get at 1. replace (size =? 0) with false by lia. replace (TT_AVATAR_MAX_SIZE <? size) with false by lia.
  unfold bind at 1, ask at 1. rewrite Hid, Hhas, Hh. unfold bytes_eqb. rewrite bool_decide_true by done. cbn [andb].
  unfold control, act, modify. eexists. split; [reflexivity|]. by split.
Qed.
(** Any other avatar is fetched, and its hash stored at once. *)
Lemma offer_fetched fn num size h s : 0 <= fn < TT_MAX_FRIENDS -> 0 < size <= TT_AVATAR_MAX_SIZE ->
  len (avatars s) = TT_MAX_FRIENDS -> file_id_answer (xcalls s) fn num = Some h -> hash (avatar_of fn s) <> h ->
  exists s', avatar_on_offer fn num size s = (tt, s') /\ has (avatar_of fn s') = has (avatar_of fn s) /\
    hash (avatar_of fn s') = h /\ len (avatars s') = TT_MAX_FRIENDS /\ xfers s' = xfers s /\
    xtrace s' = xtrace s ++ [FileControl fn num TOX_FILE_CONTROL_RESUME].
Proof.
  intros Hfn Hsz Hl Hid Hh. unfold avatar_on_offer. replace (TT_MAX_FRIENDS <=? fn) with false by lia.
  unfold bind at 1, get at 1. replace (size =? 0) with false by lia. replace (TT_AVATAR_MAX_SIZE <? size) with false by lia.
  unfold bind at 1, ask at 1. rewrite Hid. unfold bytes_eqb. rewrite bool_decide_false by congruence. rewrite andb_false_r.
  unfold bind at 1, ask at 1, bind at 1. cbv zeta.
  match goal with |- context [put_avatar fn ?x ?t] => pose proof (put_avatar_of fn x t Hfn Hl) as Ha end.
  unfold put_avatar, modify, control, act, modify in *. cbn [snd] in Ha. eexists. split; [reflexivity|].
  match goal with |- context [has (avatar_of fn ?t) = _] =>
    match type of Ha with _ = ?x => assert (Ha' : avatar_of fn t = x) by exact Ha end end.
  rewrite Ha'. split; [done|]. split; [done|]. split; [|done]. cbn. unfold len. by rewrite length_insert.
Qed.

(** An interrupted avatar is never fetched again.  A friend who has an avatar
    offers a new one; the transfer starts, which stores the new hash, and is then
    cancelled.  Every later offer of the new avatar is refused as already held,
    although its bytes never arrived, and no avatar is shown. *)
Theorem interrupted_avatar_refused fn num size h later s :
  0 <= fn < TT_MAX_FRIENDS -> 0 < size <= TT_AVATAR_MAX_SIZE -> len (avatars s) = TT_MAX_FRIENDS ->
  (forall k num, file_id_answer k fn num = Some h) -> has (avatar_of fn s) = true -> hash (avatar_of fn s) <> h ->
  find_slot (fun x => (x_fn x =? fn) && (file_number x =? num)) 0 (xfers s) = None ->
  let offer num := OpOffer fn num (Some TOX_FILE_KIND_AVATAR) size [] in
  let s' := run_ops pass_key (offer num :: OpControl fn num TOX_FILE_CONTROL_CANCEL :: (offer <$> later)) s in
  xtrace s' = xtrace s ++ FileControl fn num TOX_FILE_CONTROL_RESUME ::
    ((fun num => FileControl fn num TOX_FILE_CONTROL_CANCEL) <$> later).
Proof.
  intros Hfn Hsz Hl Hid Hhas Hne Hfind offer s'. unfold s'. cbn [run_ops fold_left run_op cb_file_recv].
  destruct (offer_fetched fn num size h s Hfn Hsz Hl (Hid _ _) Hne) as (s1 & E1 & Hhas1 & Hh1 & Hl1 & Hx1 & Ht1).
  change (run_op pass_key (offer num) s) with (avatar_on_offer fn num size s). rewrite E1. cbn [snd]. clear E1 s'.
  assert (H2 : exists s2, cb_file_recv_control pass_key fn num TOX_FILE_CONTROL_CANCEL s1 = (tt, s2) /\
    has (avatar_of fn s2) = true /\ hash (avatar_of fn s2) = h /\ xtrace s2 = xtrace s1).
  { unfold cb_file_recv_control. replace (TT_MAX_FRIENDS <=? fn) with false by lia. unfold bind at 1, xfer_find, get at 1.
    rewrite Hx1, Hfind. unfold avatar_control, bind, get. rewrite bool_decide_true, andb_true_r by done.
    rewrite <- Hhas1 in Hhas. destruct (_ && _); cbn [when]; [|by exists s1].
    exists (put_avatar fn ((avatar_of fn s1) <| rx_active := false |>) s1).2. split; [done|].
    rewrite put_avatar_of by done. by split_conj. }
  destruct H2 as (s2 & -> & Hhas2 & Hh2 & Ht2). cbn [snd]. rewrite <- Ht2 in Ht1. clear Hhas1 Hh1 Hl1 Hx1 Ht2 s1.
  assert (Hall : forall s, has (avatar_of fn s) = true -> hash (avatar_of fn s) = h ->
    xtrace (fold_left (fun s o => (run_op pass_key o s).2) (offer <$> later) s) =
    xtrace s ++ ((fun num => FileControl fn num TOX_FILE_CONTROL_CANCEL) <$> later)).
  { clear - Hfn Hsz Hid. induction later as [|m later IH]; intros s Hhas Hh; cbn [fmap list_fmap fold_left];
      [by rewrite app_nil_r|]. change (run_op pass_key (offer m) s) with (avatar_on_offer fn m size s).
    destruct (offer_refused fn m size h s Hfn Hsz (Hid _ _) Hhas Hh) as (s1 & -> & Ha & Ht). cbn [snd].
    rewrite IH, Ht by (unfold avatar_of in *; by rewrite Ha). by rewrite <- app_assoc. }
  rewrite Hall by done. rewrite Ht1, <- app_assoc. done.
Qed.
End policy.

(** Friend 2 has an avatar and offers another. *)
Definition sample_friend : xfer_state :=
  xfer_state0 <| avatars := <[2%nat := no_avatar <| has := true |>]> (avatars xfer_state0) |>.
Definition one_avatar : XferEnv := {|
  send_answer := send_answer (XferEnv := sample_env);
  chunk_answer := chunk_answer (XferEnv := sample_env);
  file_id_answer _ _ _ := Some (zrep 32 5);
  friend_list := friend_list (XferEnv := sample_env);
  open_answer := open_answer (XferEnv := sample_env);
  fdopen_answer := fdopen_answer (XferEnv := sample_env);
  write_answer := write_answer (XferEnv := sample_env);
  flush_answer := flush_answer (XferEnv := sample_env);
  malloc_bytes := malloc_bytes (XferEnv := sample_env);
  sha256 := sha256 (XferEnv := sample_env);
  save_nonce := save_nonce (XferEnv := sample_env) |}.

Lemma interrupted_avatar_refused_witness :
  let offer num := OpOffer 2 num (Some TOX_FILE_KIND_AVATAR) 300 [] in
  let s' := run_ops (K := sample_pass) (E := one_avatar) None
    (offer 7 :: OpControl 2 7 TOX_FILE_CONTROL_CANCEL :: (offer <$> [8; 9])) sample_friend in
  xtrace s' = xtrace sample_friend ++ FileControl 2 7 TOX_FILE_CONTROL_RESUME ::
    ((fun num => FileControl 2 num TOX_FILE_CONTROL_CANCEL) <$> [8; 9]).
Proof.
  apply (interrupted_avatar_refused (K := sample_pass) (E := one_avatar) None 2 7 300 (zrep 32 5) [8; 9] sample_friend).
  - done.
  - by unfold TT_AVATAR_MAX_SIZE.
  - reflexivity.
  - reflexivity.
  - reflexivity.
  - discriminate.
  - reflexivity.
Defined.
