(* ===== verification/Savedata.v ===== *)
(** * Savedata: the profile file ([save_profile], [savedata_strip_dht] and the
    loading part of [tox_thread_main] in [tox_thread.c])

    The profile is toxcore's savedata, encrypted with the profile key.  In Tor
    mode its DHT section is cut out before toxcore sees it. *)
From S2P Require Import Prelude CText Sidecar.

(** ** The layout of a savedata block *)

(** [memcpy (&v, p, sizeof v)] of a 32-bit integer on a little-endian host. *)
Definition le32 (p : bytes) : Z := rd32 (zat p 3) (zat p 2) (zat p 1) (zat p 0).

Definition STATE_COOKIE_GLOBAL : Z := 367860511.  (** [0x15ed1b1f] *)
Definition STATE_TYPE_DHT : Z := 2.
Definition STATE_TYPE_END : Z := 255.

(** ** Stripping

    [p] is the block from offset [r] on, [out] what was copied so far.  Each
    round takes at least eight bytes.  The result is what is left at the end,
    the copy, and whether a section was skipped. *)
Fixpoint strip_loop (fuel : nat) (p out : bytes) (stripped : bool) : bytes * bytes * bool :=
  match fuel with
  | O => (p, out, stripped)
  | S fuel =>
      if len p <? 8 then (p, out, stripped) else
      let slen := le32 p in
      let scook := le32 (zdrop 4 p) in
      if len p - 8 <? slen then (p, out, stripped) else
      let type := Z.land scook 65535 in
      let total := u32 (8 + slen) in
      if type =? STATE_TYPE_DHT then strip_loop fuel (zdrop total p) out true else
      let out := out ++ ztake total p in
      if type =? STATE_TYPE_END then (zdrop total p, out, stripped)
      else strip_loop fuel (zdrop total p) out stripped
  end.

Definition savedata_strip_dht (buf : bytes) : option bytes :=
  if len buf <? 16 then None else
  if negb (zat buf 0 =? 0) then None else
  if negb (le32 (zdrop 4 buf) =? STATE_COOKIE_GLOBAL) then None else
  let '(rest, out, stripped) := strip_loop (length buf) (zdrop 8 buf) (ztake 8 buf) false in
  if negb (len rest =? 0) || negb stripped then None else Some out.

(** ** Saving and loading *)

Section profile.
Context {K : PassKey}.

Definition PROFILE_MAX : Z := 4 * 1024 * 1024.

(** [save_profile]: the temporary file is renamed over the profile even when
    the encryption failed and nothing was written to it. *)
Definition save_profile (key : option Key) (nonce savedata : bytes) : bytes :=
  match key with
  | Some k => default [] (pk_encrypt k nonce savedata)
  | None => savedata
  end.

Inductive profile_load := NoSavedata | DecryptFailed | Savedata (b : bytes).

Definition load_profile (key : option Key) (tor_mode : bool) (file : option bytes) : profile_load :=
  match file with
  | None => NoSavedata
  | Some f =>
      if (len f <=? 0) || (PROFILE_MAX <? len f) then NoSavedata else
      match sidecar_decrypt f key with
      | None => DecryptFailed
      | Some (buf, sz) =>
          let b := ztake sz buf in
          Savedata (if tor_mode then default b (savedata_strip_dht b) else b)
      end
  end.
End profile.

(** ** A block as a list of sections *)

Definition put_le32 (v : Z) : bytes := rev (be32 v).
(** A section: type and contents. *)
Abbreviation section := (Z * bytes)%type.
Definition section_bytes (s : section) : bytes :=
  put_le32 (len s.2) ++ [u8 s.1; u8 (Z.shiftr s.1 8); 206; 1] ++ s.2.
Definition savedata_of (l : list section) : bytes :=
  [0; 0; 0; 0] ++ put_le32 STATE_COOKIE_GLOBAL ++ concat (section_bytes <$> l).

(** What toxcore writes: the END section last, and a size a process can hold. *)
Definition savedata_wf (l : list section) : Prop :=
  exists l', l = l' ++ [(STATE_TYPE_END, [])] /\ Forall (fun s => s.1 <> STATE_TYPE_END) l' /\
    Forall (fun s : section => is_u16 s.1) l /\ len (savedata_of l) < 2 ^ 32.

Definition is_dht (s : section) : bool := s.1 =? STATE_TYPE_DHT.
Definition without_dht (l : list section) : list section := filter (fun s => is_dht s = false) l.

Lemma le32_put v rest : is_u32 v -> le32 (put_le32 v ++ rest) = v.
Proof. intros H. unfold le32. cbn. change (rd32 _ _ _ _) with (rd32 (u8 (Z.shiftr v 24)) (u8 (Z.shiftr v 16)) (u8 (Z.shiftr v 8)) (u8 v)). by apply rd32_be32. Qed.

Lemma section_length s : len (section_bytes s) = 8 + len s.2.
Proof. unfold section_bytes. rewrite !len_app. change (len (put_le32 (len s.2))) with 4. change (len [_; _; _; _]) with 4. lia. Qed.

Lemma cookie_type t : is_u16 t -> Z.land (rd32 1 206 (u8 (Z.shiftr t 8)) (u8 t)) 65535 = t.
Proof.
  intros H. assert (Hd : u8 (Z.shiftr t 8) * 256 + u8 t = t) by (rewrite <- rd16_val by apply u8_byte; by apply rd16_be16).
  rewrite rd32_val by (apply u8_byte || (unfold is_byte; lia)). change 65535 with (Z.ones 16). rewrite Z.land_ones by lia.
  unfold is_u16 in H. change (2 ^ 16) with 65536 in *.
  replace (((1 * 256 + 206) * 256 + u8 (Z.shiftr t 8)) * 256 + u8 t) with (t + 462 * 65536) by lia.
  rewrite Z.mod_add by lia. apply Z.mod_small. lia.
Qed.

Lemma strip_section fuel s rest out st :
  is_u16 s.1 -> 8 + len s.2 < 2 ^ 32 ->
  strip_loop (S fuel) (section_bytes s ++ rest) out st =
    if is_dht s then strip_loop fuel rest out true
    else if s.1 =? STATE_TYPE_END then (rest, out ++ section_bytes s, st)
    else strip_loop fuel rest (out ++ section_bytes s) st.
Proof.
  intros Ht Hl. pose proof (len_nonneg s.2). pose proof (len_nonneg rest). pose proof (section_length s) as Hs.
  assert (E1 : le32 (section_bytes s ++ rest) = len s.2).
  { unfold section_bytes. rewrite <- !app_assoc. apply le32_put. unfold is_u32. lia. }
  assert (E2 : Z.land (le32 (zdrop 4 (section_bytes s ++ rest))) 65535 = s.1) by (by apply cookie_type).
  cbn [strip_loop]. rewrite len_app. replace (len (section_bytes s) + len rest <? 8) with false by lia.
  rewrite E1, E2. replace (len (section_bytes s) + len rest - 8 <? len s.2) with false by lia.
  rewrite u32_small by lia. rewrite zdrop_app, ztake_app by lia. unfold is_dht. done.
Qed.

Lemma strip_sections l : forall fuel out st,
  Forall (fun s => s.1 <> STATE_TYPE_END) l -> Forall (fun s => is_u16 s.1 /\ 8 + len s.2 < 2 ^ 32) l -> (length l < fuel)%nat ->
  strip_loop fuel (concat (section_bytes <$> l ++ [(STATE_TYPE_END, [])])) out st =
    ([], out ++ concat (section_bytes <$> without_dht (l ++ [(STATE_TYPE_END, [])])), st || existsb is_dht l).
Proof.
  induction l as [|s l IH]; intros fuel out st He Hw Hf.
  - destruct fuel as [|fuel]; [cbn in Hf; lia|]. cbn [app fmap list_fmap concat]. rewrite strip_section by done.
    cbn. by rewrite !orb_false_r.
  - destruct fuel as [|fuel]; [cbn in Hf; lia|]. apply Forall_cons in He as [Hs He], Hw as [[Hw1 Hw2] Hw].
    cbn [app fmap list_fmap concat existsb]. rewrite strip_section by done. unfold without_dht. cbn [app].
    rewrite filter_cons. cbn in Hf. destruct (is_dht s) eqn:E.
    + rewrite decide_False by done. fold (without_dht (l ++ [(STATE_TYPE_END, [])])).
      rewrite (IH fuel out true) by (done || lia). by rewrite orb_true_r.
    + rewrite decide_True by done. fold (without_dht (l ++ [(STATE_TYPE_END, [])])).
      replace (s.1 =? STATE_TYPE_END) with false by lia.
      rewrite IH by (done || lia). cbn [fmap list_fmap concat]. by rewrite <- app_assoc.
Qed.

Lemma sections_length l : (8 * length l <= length (concat (section_bytes <$> l)))%nat.
Proof.
  induction l as [|s l IH]; [done|]. cbn [length fmap list_fmap concat]. rewrite length_app.
  pose proof (section_length s). pose proof (len_nonneg s.2). unfold len in *. lia.
Qed.

(** What is left of a savedata block for toxcore. *)
Lemma strip_savedata l : savedata_wf l ->
  savedata_strip_dht (savedata_of l) = if existsb is_dht l then Some (savedata_of (without_dht l)) else None.
Proof.
  intros (l' & -> & He & Ht & Hl). unfold savedata_strip_dht.
  assert (Hw : Forall (fun s => is_u16 s.1 /\ 8 + len s.2 < 2 ^ 32) l').
  { apply Forall_app in Ht as [Ht _]. apply Forall_forall. intros s Hs. split; [by eapply Forall_forall in Ht|].
    apply list_elem_of_split in Hs as (l1 & l2 & ->). revert Hl. unfold savedata_of.
    rewrite <- app_assoc, !fmap_app, !concat_app. cbn [app fmap list_fmap concat]. rewrite ?len_cons, !len_app.
    pose proof (section_length s). repeat match goal with |- context [len ?x] => lazymatch goal with
      | H : 0 <= len x |- _ => fail | _ => pose proof (len_nonneg x) end end. lia. }
  set (l := l' ++ [(STATE_TYPE_END, [])]) in *.
  pose proof (sections_length l) as Hn. unfold l in Hn at 1. rewrite length_app in Hn. cbn in Hn.
  assert (E : length (savedata_of l) = (8 + length (concat (section_bytes <$> l)))%nat) by (unfold savedata_of; by rewrite !length_app).
  replace (len (savedata_of l) <? 16) with false by (unfold len; lia).
  replace (negb (zat (savedata_of l) 0 =? 0)) with false by done.
  replace (le32 (zdrop 4 (savedata_of l))) with STATE_COOKIE_GLOBAL by done.
  rewrite Z.eqb_refl. cbn [negb].
  change (zdrop 8 (savedata_of l)) with (concat (section_bytes <$> l)).
  change (ztake 8 (savedata_of l)) with ([0; 0; 0; 0] ++ put_le32 STATE_COOKIE_GLOBAL).
  unfold l at 2. rewrite strip_sections by (done || lia). fold l.
  assert (Eb : existsb is_dht l = existsb is_dht l') by (unfold l; rewrite existsb_app; cbn; by rewrite orb_false_r).
  rewrite Eb. cbn [orb]. change (len (@nil Z) =? 0) with true. cbn [negb orb].
  destruct (existsb is_dht l'); [|done]. cbn [negb]. unfold savedata_of. by rewrite <- app_assoc.
Qed.

(** ** A saved profile is loaded *)

Section roundtrip.
Context {K : PassKey} {L : PassKeyLaws K}.

Lemma load_saved_profile k nonce sd ct tor :
  pk_encrypt k nonce sd = Some ct -> 0 < len sd -> len sd + EXTRA <= PROFILE_MAX ->
  load_profile (Some k) tor (Some (save_profile (Some k) nonce sd)) =
    Savedata (if tor then default sd (savedata_strip_dht sd) else sd).
Proof.
  intros H Hpos Hmax. pose proof extra_magic. unfold load_profile, save_profile. rewrite H. cbn [default].
  apply encrypt_spec in H as (Hlen & Henc & Hdec). unfold id.
  replace ((len ct <=? 0) || (PROFILE_MAX <? len ct)) with false by lia.
  unfold sidecar_decrypt. replace (len ct <? EXTRA) with false by lia. rewrite Henc, Hdec. cbn [negb].
  replace (len ct - EXTRA) with (len sd) by lia. by rewrite ztake_overwrite.
Qed.

(** In Tor mode the client's next start loads exactly the saved profile without
    its DHT section, whatever the other sections hold; without Tor it loads
    all of it. *)
Theorem tor_loads_without_dht k nonce l ct :
  savedata_wf l -> pk_encrypt k nonce (savedata_of l) = Some ct -> len (savedata_of l) + EXTRA <= PROFILE_MAX ->
  load_profile (Some k) true (Some (save_profile (Some k) nonce (savedata_of l))) = Savedata (savedata_of (without_dht l)) /\
  load_profile (Some k) false (Some (save_profile (Some k) nonce (savedata_of l))) = Savedata (savedata_of l).
Proof.
  intros Hw He Hm.
  assert (Hp : 0 < len (savedata_of l)) by (unfold savedata_of; rewrite len_app; change (len [0; 0; 0; 0]) with 4;
    match goal with |- context [4 + len ?x] => pose proof (len_nonneg x) end; lia).
  rewrite !(load_saved_profile _ _ _ _ _ He) by done. split; [|done]. rewrite strip_savedata by done.
  destruct (existsb is_dht l) eqn:E; [done|]. cbn [default]. do 2 f_equal. symmetry. unfold without_dht.
  clear -E. induction l as [|s l IH]; [done|]. cbn [existsb] in E. apply orb_false_iff in E as [E1 E2].
  rewrite filter_cons, decide_True by done. by rewrite IH.
Qed.
End roundtrip.

(** One byte behind the END section, and the DHT section stays. *)
Lemma strip_gives_up :
  savedata_strip_dht (savedata_of [(1, [7]); (2, [1; 2; 3; 4]); (255, [])] ++ [0]) = None.
Proof. reflexivity. Qed.

(** ** Examples *)

Definition sample_sections : list section := [(1, [7; 8; 9]); (2, [1; 2; 3; 4]); (4, [5]); (255, [])].

Lemma sample_sections_wf : savedata_wf sample_sections.
Proof.
  exists [(1, [7; 8; 9]); (2, [1; 2; 3; 4]); (4, [5])]. split_conj; [done| | |done].
  - repeat constructor; done.
  - repeat constructor; unfold is_u16; cbn; lia.
Qed.

Lemma tor_loads_without_dht_witness :
  @load_profile sample_pass (Some 9) true (Some (@save_profile sample_pass (Some 9) [] (savedata_of sample_sections)))
    = Savedata (savedata_of [(1, [7; 8; 9]); (4, [5]); (255, [])]) /\
  @load_profile sample_pass (Some 9) false (Some (@save_profile sample_pass (Some 9) [] (savedata_of sample_sections)))
    = Savedata (savedata_of sample_sections).
Proof.
  apply (@tor_loads_without_dht sample_pass sample_pass_laws 9 [] sample_sections _ sample_sections_wf eq_refl).
  vm_compute. discriminate.
Defined.
