(* ===== verification/Startup.v ===== *)
(** * Startup: starting and stopping the tox thread ([tox_thread_main] in
    [tox_thread.c])

    The proxy, the passphrase and the two keys derived from it, the profile
    handed to [tox_new], the state restored from the files beside the profile,
    and what is written when the thread stops.  Environment variables, the
    user's answer and the fresh salts are arguments; toxcore and the key
    derivation of toxencryptsave are classes. *)
From S2P Require Import Prelude CText Sidecar Settings Identity Session SessionStore OfflineQueue Resume StateM Slots Xfer Avatar Savedata.

(** ** toxcore and toxencryptsave *)

Record Tox_Options := mkOptions {
  proxy : option (bytes * Z);   (** SOCKS5 *)
  udp_enabled : bool;
  local_discovery : bool;
  hole_punching : bool;
  savedata : option bytes;
}.
Definition tox_options_new : Tox_Options := mkOptions None true true true None.

Class ToxCore := {
  Tox : Type;
  tox_new : Tox_Options -> option Tox;
  tox_get_savedata : Tox -> bytes;
}.

Class KeyDerivation (K : PassKey) := {
  Salt : Type;
  key_derive : bytes -> Salt -> option Key;   (** passphrase and salt *)
  key_salt : Key -> Salt;
  get_salt : bytes -> option Salt;            (** from the head of a blob *)
}.
(** A key knows its salt; a blob carries the salt of its key in its first
    [EXTRA] bytes. *)
Class KeyDerivationLaws (K : PassKey) (D : KeyDerivation K) : Prop := {
  derived_salt pass salt k : key_derive pass salt = Some k -> key_salt k = salt;
  head_salt k n pt ct : pk_encrypt k n pt = Some ct ->
    is_data_encrypted (ztake EXTRA ct) = true /\ get_salt (ztake EXTRA ct) = Some (key_salt k);
}.

(** ** What the process is started with *)

Record launch := mkLaunch {
  env_proxy_host : option bytes;
  env_proxy_port : option bytes;
  env_passphrase : option bytes;
  gui_mode : bool;
  ui_reply : option bytes;      (** [None]: the dialog was cancelled *)
  tty_reply : option bytes;     (** [None]: no terminal *)
  e2ee_mode : bool;             (** [tt_e2ee_init_mode] *)
}.

Record profile_files := mkFiles {
  f_profile : option bytes;
  f_settings : option bytes;
  f_sessions : option bytes;
  f_queue : option bytes;
  f_resume : option bytes;
  f_avatar : option bytes;
}.

#[export] Instance eta_options : EtaRecord Tox_Options := fun o =>
  mkOptions (proxy o) (udp_enabled o) (local_discovery o) (hole_punching o) (savedata o).
#[export] Instance eta_files : EtaRecord profile_files := fun f =>
  mkFiles (f_profile f) (f_settings f) (f_sessions f) (f_queue f) (f_resume f) (f_avatar f).

(** A variable that is set and not empty. *)
Definition env_set (v : option bytes) : option bytes :=
  match v with Some b => if len (cstr b) =? 0 then None else Some (cstr b) | None => None end.

(** ** The proxy *)

Definition DEFAULT_PORT : Z := 9050.
Definition valid_port (p : Z) : Z := if (p <=? 0) || (65535 <? p) then DEFAULT_PORT else p.

(** Host and port; an empty host means no proxy. *)
Definition choose_proxy (l : launch) (set : TTSettings) : bytes * Z :=
  match env_set (env_proxy_host l) with
  | Some h => (snprintf_s 64 h,
               valid_port (match env_set (env_proxy_port l) with Some p => strtol10 p | None => DEFAULT_PORT end))
  | None => if proxy_set set then (snprintf_s 64 (proxy_host set), valid_port (proxy_port set)) else ([], 0)
  end.

Definition ip_literal (host : bytes) : bool := forallb (fun c => isdigit c || (c =? 46)) host.

(** The options and [tor_mode]; [None]: refused. *)
Definition proxy_options (l : launch) (set : TTSettings) : option (Tox_Options * bool) :=
  let '(host, port) := choose_proxy l set in
  if len host =? 0 then Some (tox_options_new, false) else
  if negb (ip_literal host) then None
  else Some (mkOptions (Some (host, u16 port)) false false false None, true).

(** ** Bootstrap nodes *)

Definition boots : list (string * Z * string * bool * bool) := [
  ("144.217.167.73", 33445, "7E5668E0EE09E19F320AD47902419331FFEE147BB3606769CFBE921A2A2FD34C", true, true);
  ("tox.abilinski.com", 33445, "10C00EB250C3233E343E2AEBA07115A5C28920E9C8D29492F6D00B29049EDC7E", false, false);
  ("tox1.mf-net.eu", 33445, "B3E5FA80DC8EBD1149AD2AB35ED8B85BD546DEDE261CA593234C619249419506", true, false);
  ("3.0.24.15", 33445, "E20ABCF38CDBFFD7D04B29C956B33F7B27A3BB7AF0618101617B036E4AEA402D", false, true);
  ("139.162.110.188", 33445, "F76A11284547163889DDC89A7738CF271797BF5E5E220643E97AD3C7E7903D55", true, true);
  ("tox2.mf-net.eu", 33445, "70EA214FDE161E7432530605213F18F7427DC773E276B3E317A07531F548545F", true, false);
  ("144.172.88.203", 33445, "2016A0F2797EE3A8B004BA623F11AAFC8146F1B8F45107232A1A1AECCE856674", true, true);
  ("172.104.215.182", 33445, "DA2BD927E01CD05EBCC2574EBE5BEBB10FF59AE0B2105A7D1E2B40E49BB20239", true, true);
  ("tox.initramfs.io", 33445, "3F0A45A268367C1BEA652F258C85F4A66DA76BCAA667A49E770BCC4917AB6A25", true, false);
  ("tox3.mf-net.eu", 33445, "F4FC9398B7167668ED2BCF85634E04D4CDCDD2F95DA5F305BD234888B6E6A771", true, false);
  ("188.214.122.30", 33445, "2A9F7A620581D5D1B09B004624559211C5ED3D1D712E8066ACDB0896A7335705", true, true)]%string.

Inductive boot_action := Bootstrap (host : bytes) (port : Z) (key : bytes) | AddTcpRelay (host : bytes) (port : Z) (key : bytes).
Definition boot_host (a : boot_action) : bytes := match a with Bootstrap h _ _ | AddTcpRelay h _ _ => h end.

Definition bootstrap_node (lone_0x tor_mode : bool) (node : string * Z * string * bool * bool) : list boot_action :=
  let '(host, port, keyhex, relay, tor_ok) := node in
  if tor_mode && negb tor_ok then [] else
  let h := ascii_bytes keyhex in
  if negb (len h =? TOX_PUBLIC_KEY_SIZE * 2) then [] else
  match scan_key lone_0x (Z.to_nat TOX_PUBLIC_KEY_SIZE) (text_block h) with
  | Ok key => Bootstrap (ascii_bytes host) port key :: if relay then [AddTcpRelay (ascii_bytes host) port key] else []
  | _ => []
  end.
Definition bootstrap_all (lone_0x tor_mode : bool) : list boot_action :=
  concat (bootstrap_node lone_0x tor_mode <$> boots).

Section startup.
Context {K : PassKey} {D : KeyDerivation K} {C : ToxCore} {E : XferEnv}.

(** ** Passphrase and keys *)

Definition tt_passphrase_acquire (l : launch) : option bytes :=
  match env_set (env_passphrase l) with
  | Some p => Some p
  | None => if gui_mode l then ui_reply l else tty_reply l
  end.

(** The salt in the head of an encrypted file. *)
Definition file_salt (file : option bytes) : option Salt :=
  match file with
  | None => None
  | Some f =>
      let head := ztake EXTRA f in
      if (len head =? EXTRA) && is_data_encrypted head then get_salt head else None
  end.
(** [fresh] is the random salt of [tox_pass_key_derive]. *)
Definition derive_key (pass : bytes) (fresh : Salt) (file : option bytes) : option Key :=
  key_derive pass (default fresh (file_salt file)).

(** ** The running engine *)

Record TTEngine := mkEngine {
  tox : Tox;
  options : Tox_Options;
  tor_mode : bool;
  pass_key : Key;
  session_key : Key;
  self_avatar : TTAvatar;
  oq : TTOfflineQueue;
  resume_idx : list TTResumeEntry;
  resume_count : nat;
  e2ee : option (list TTSession);
  e2ee_required : list bool;
  files : profile_files;
}.

Inductive start_event :=
| EvShutdown
| EvPassphraseNeeded
| EvTorMode
| EvAvatarSelf (b : bytes)
| EvEnforce (fn : Z)
| EvE2EEState (fn : Z).

(** A refused start leaves every file as it was. *)
Inductive start_result := Refused | Started (en : TTEngine) (evs : list start_event).

(** The round of the loop over restored sessions for friend [fn]. *)
Definition enforce_restored (sessions : list TTSession) (st : list bool * option bytes * list start_event) (fn : Z)
    : list bool * option bytes * list start_event :=
  let '(required, sett, evs) := st in
  if negb (active (default tt_session_init (sessions !! Z.to_nat fn))) then st else
  if default false (required !! Z.to_nat fn) then (required, sett, evs ++ [EvE2EEState fn]) else
  let required := <[Z.to_nat fn := true]> required in
  (required, Some (tt_settings_store_e2ee required sett), evs ++ [EvEnforce fn; EvE2EEState fn]).

(** The encryption layer: sessions, enforcement, settings file and events. *)
Definition restore_e2ee (key : Key) (f : profile_files) : outcome (list TTSession * list bool * option bytes * list start_event) :=
  let required := tt_settings_load_e2ee (f_settings f) in
  let evs := EvEnforce <$> friends_set required in
  '(sessions, _) ← tt_session_store_load (replicate SES_FRIENDS tt_session_init) (Some key) (f_sessions f);
  let '(required, sett, evs) := fold_left (enforce_restored sessions) (seqZ 0 TT_MAX_FRIENDS) (required, f_settings f, evs) in
  Ok (sessions, required, sett, evs).

(** From the arguments to the first round of the loop. *)
Definition tox_thread_main (l : launch) (profile_salt session_salt : Salt) (f : profile_files) : outcome start_result :=
  match proxy_options l (tt_settings_load (f_settings f)) with
  | None => Ok Refused
  | Some (opts, tor) =>
  match tt_passphrase_acquire l with
  | None => Ok Refused
  | Some pass =>
  match derive_key pass profile_salt (f_profile f), derive_key pass session_salt (f_sessions f) with
  | Some pk, Some sk =>
  match load_profile (Some pk) tor (f_profile f) with
  | DecryptFailed => Ok Refused
  | sd =>
      let opts := opts <| savedata := match sd with Savedata b => Some b | _ => None end |> in
      match tox_new opts with
      | None => Ok Refused
      | Some t =>
          let av := avatar_persist_load (f_avatar f) no_avatar in
          q ← tt_oq_load oq_init (Some pk) (f_queue f);
          '(idx, count) ← tt_resume_load (Some pk) (f_resume f);
          let evs := (if tor then [EvTorMode] else []) ++ (if has av then [EvAvatarSelf (ztake (a_size av) (data av))] else []) in
          if e2ee_mode l then
            '(sessions, required, sett, eevs) ← restore_e2ee sk f;
            Ok (Started (mkEngine t opts tor pk sk av q idx count (Some sessions) required (f <| f_settings := sett |>)) (evs ++ eevs))
          else Ok (Started (mkEngine t opts tor pk sk av q idx count None none_required f) evs)
      end
  end
  | _, _ => Ok Refused
  end end end.

(** ** Stopping *)

(** The four files written when the loop ends. *)
Definition tox_thread_shutdown (nonce : nat -> bytes) (en : TTEngine) : profile_files :=
  let f := files en in
  let key := Some (pass_key en) in
  f <| f_profile := Some (save_profile key (nonce 0%nat) (tox_get_savedata (tox en))) |>
    <| f_queue := tt_oq_save (oq en) key (nonce 1%nat) (f_queue f) |>
    <| f_resume := (tt_resume_save (resume_idx en) (resume_count en) key (nonce 2%nat) (f_resume f)).1 |>
    <| f_sessions := match e2ee en with
                     | Some l => tt_session_store_save l (Some (session_key en)) (nonce 3%nat) (f_sessions f)
                     | None => f_sessions f
                     end |>.
End startup.
