(* ===== verification/StartupSafety.v ===== *)
(** * StartupSafety: what a start never does, and a restart

    A configured proxy is never bypassed, a readable profile never replaced by
    a fresh identity; a restart with the same passphrase brings back what was
    saved; a failed encryption at shutdown loses the identity. *)
From S2P Require Import Prelude CText Sidecar Settings Identity Session SessionStore SessionStoreProofs OfflineQueue Resume StateM Slots Xfer Avatar Savedata Startup.

(** ** The proxy of the settings file is never empty *)

Lemma cstr_nonzero l : Forall (fun c => c <> 0) (cstr l).
Proof. induction l as [|c l IH]; cbn; [constructor|]. destruct (Z.eqb_spec c 0); [constructor|by constructor]. Qed.
Lemma cstr_id l : Forall (fun c => c <> 0) l -> cstr l = l.
Proof. induction 1 as [|c l Hc _ IH]; [done|]. cbn. destruct (Z.eqb_spec c 0); [done|]. by rewrite IH. Qed.
Lemma scan_word_prefix n l : exists k, (scan_word n l).1 = take k l.
Proof.
  revert l. induction n as [|n IH]; intros [|c l]; cbn; try (by exists 0%nat).
  destruct (isspace c); [by exists 0%nat|]. destruct (IH l) as [k Hk]. destruct (scan_word n l) as [a b].
  cbn in *. exists (S k). by rewrite Hk.
Qed.
Lemma drop_space_suffix l : exists k, drop_space l = drop k l.
Proof.
  induction l as [|c l [k IH]]; [by exists 0%nat|]. cbn. destruct (isspace c); [by exists (S k)|by exists 0%nat].
Qed.

Definition proxy_ok (s : TTSettings) : Prop := proxy_set s = true -> 0 < len (cstr (proxy_host s)).

Lemma scan_proxy_host line host port : scan_proxy line = Some (host, port) -> 0 < len (cstr host).
Proof.
  unfold scan_proxy. destruct (negb _); [done|].
  destruct (scan_word_prefix 63 (drop_space (zdrop 5 (cstr line)))) as [k Hk].
  destruct (drop_space_suffix (zdrop 5 (cstr line))) as [j Hj]. destruct (scan_word _ _) as [h rest].
  cbn in Hk. destruct (len h =? 0) eqn:E; [done|]. destruct (scan_long rest); [|done]. intros [= <- _].
  rewrite cstr_id; [pose proof (len_nonneg h); lia|]. subst h. rewrite Hj. apply Forall_take, Forall_drop, Forall_drop, cstr_nonzero.
Qed.
Lemma load_proxy_ok file : proxy_ok (tt_settings_load file).
Proof.
  destruct file as [b|]; [|by intros ?]. cbn. assert (H : proxy_ok no_settings) by (by intros ?). revert H.
  generalize no_settings as s, (file_lines 128 b) as ls. intros s ls. revert s.
  induction ls as [|line ls IH]; intros s H; [done|]. cbn. apply IH. unfold load_line.
  destruct (scan_proxy line) as [[host port]|] eqn:E.
  - intros _. cbn. by eapply scan_proxy_host.
  - repeat case_match; done.
Qed.

Lemma valid_port_range p : 0 < valid_port p <= 65535.
Proof. unfold valid_port, DEFAULT_PORT. destruct ((p <=? 0) || (65535 <? p)) eqn:E; lia. Qed.

Lemma snprintf_nonempty n b : 1 < n -> 0 < len (cstr b) -> 0 < len (snprintf_s n b).
Proof.
  unfold snprintf_s. destruct (cstr b) as [|c t]; [done|]. intros Hn _. unfold ztake.
  destruct (Z.to_nat (n - 1)) eqn:E; [lia|]. cbn. rewrite len_cons. pose proof (len_nonneg (take n0 t)). lia.
Qed.
Lemma env_set_spec v h : env_set v = Some h -> 0 < len (cstr h) /\ Forall (fun c => c <> 0) h.
Proof.
  unfold env_set. destruct v as [b|]; [|done]. destruct (len (cstr b) =? 0) eqn:E0; [done|]. intros [= <-].
  pose proof (len_nonneg (cstr b)). rewrite (cstr_id (cstr b)) by apply cstr_nonzero. split; [lia|apply cstr_nonzero].
Qed.

(** The user asked for a proxy, in the environment or in the settings file. *)
Definition proxy_wanted (l : launch) (f : profile_files) : Prop :=
  env_set (env_proxy_host l) <> None \/ proxy_set (tt_settings_load (f_settings f)) = true.

Lemma choose_proxy_wanted l f : proxy_wanted l f ->
  0 < len (choose_proxy l (tt_settings_load (f_settings f))).1 /\
  0 < (choose_proxy l (tt_settings_load (f_settings f))).2 <= 65535.
Proof.
  intros H. unfold choose_proxy. destruct (env_set (env_proxy_host l)) as [h|] eqn:E.
  - split; [|apply valid_port_range]. apply snprintf_nonempty; [done|]. by apply env_set_spec in E as [].
  - destruct H as [H|H]; [done|]. rewrite H. split; [|apply valid_port_range].
    apply snprintf_nonempty; [done|]. exact (load_proxy_ok (f_settings f) H).
Qed.

(** Every node contacted in Tor mode is named by its address. *)
Lemma tor_nodes_literal lone : Forall (fun a => ip_literal (boot_host a) = true) (bootstrap_all lone true).
Proof. destruct lone; vm_compute; repeat constructor. Qed.

Section startup.
Context {K : PassKey} {D : KeyDerivation K} {C : ToxCore} {E : XferEnv}.

(** What a start that succeeds went through. *)
Lemma started_inv l ps ss f en evs : tox_thread_main l ps ss f = Ok (Started en evs) ->
  exists opts tor pass sd,
    proxy_options l (tt_settings_load (f_settings f)) = Some (opts, tor) /\
    tt_passphrase_acquire l = Some pass /\
    derive_key pass ps (f_profile f) = Some (pass_key en) /\
    derive_key pass ss (f_sessions f) = Some (session_key en) /\
    load_profile (Some (pass_key en)) tor (f_profile f) = sd /\ sd <> DecryptFailed /\
    options en = opts <| savedata := match sd with Savedata b => Some b | _ => None end |> /\
    tox_new (options en) = Some (tox en) /\ tor_mode en = tor /\
    (e2ee_mode l = true -> exists sessions sett evs', restore_e2ee (session_key en) f = Ok (sessions, e2ee_required en, sett, evs') /\
      e2ee en = Some sessions /\ files en = f <| f_settings := sett |>).
Proof.
  unfold tox_thread_main. destruct (proxy_options _ _) as [[opts tor]|] eqn:E1; [|done].
  destruct (tt_passphrase_acquire l) as [pass|] eqn:E2; [|done].
  destruct (derive_key pass ps _) as [pk|] eqn:E3; [|done]. destruct (derive_key pass ss _) as [sk|] eqn:E4; [|done].
  intros H. exists opts, tor, pass, (load_profile (Some pk) tor (f_profile f)).
  destruct (load_profile (Some pk) tor (f_profile f)) as [| |b] eqn:E5; [|done|];
    (match type of H with context [tox_new ?o] => destruct (tox_new o) as [t|] eqn:E6 end; [|done];
     destruct (tt_oq_load _ _ _) as [q| |]; [|done..]; destruct (tt_resume_load _ _) as [[idx count]| |]; [|done..];
     cbn [mbind outcome_bind] in H; destruct (e2ee_mode l) eqn:E7;
     [destruct (restore_e2ee sk f) as [[[[sessions required] sett] eevs]| |] eqn:E8; [|done..]; cbn [mbind outcome_bind] in H|];
     injection H as <- _; cbn; rewrite E3, E4; split_conj; try done; intros; by eexists _, _, _).
Qed.

(** C27: Once a proxy is configured, in the environment or in the settings file, the
    client never connects around it: it refuses to start, or toxcore gets the
    SOCKS5 proxy by address with a valid port and with UDP, local discovery and
    hole punching off, and every bootstrap node is contacted by address, so
    that no name is looked up. *)
Theorem proxy_never_bypassed l ps ss f en evs lone :
  tox_thread_main l ps ss f = Ok (Started en evs) -> proxy_wanted l f ->
  (exists host port, proxy (options en) = Some (host, port) /\ 0 < len host /\ ip_literal host = true /\ 0 < port <= 65535) /\
  udp_enabled (options en) = false /\ local_discovery (options en) = false /\ hole_punching (options en) = false /\
  tor_mode en = true /\ Forall (fun a => ip_literal (boot_host a) = true) (bootstrap_all lone (tor_mode en)).
Proof.
  intros (opts & tor & pass & sd & Hp & _ & _ & _ & _ & _ & Ho & _ & Ht & _)%started_inv Hw.
  destruct (choose_proxy_wanted l f Hw) as [Hh Hport]. unfold proxy_options in Hp.
  destruct (choose_proxy _ _) as [host port]. cbn [fst snd] in *.
  replace (len host =? 0) with false in Hp by lia. destruct (ip_literal host) eqn:Ei; [|done]. injection Hp as <- <-.
  rewrite Ho, Ht. split_conj; [|done|done|done|done|apply tor_nodes_literal].
  exists host, (u16 port). split_conj; try done; rewrite u16_small by lia; lia.
Qed.

(** C28: A wrong passphrase refuses the start and leaves every file alone, and the
    client starts with a fresh identity only where no profile could be read:
    the file is missing, empty or larger than 4 MiB. *)
Theorem readable_profile_kept l ps ss f :
  (forall en evs, tox_thread_main l ps ss f = Ok (Started en evs) -> savedata (options en) = None ->
     f_profile f = None \/ exists b, f_profile f = Some b /\ (len b = 0 \/ PROFILE_MAX < len b)) /\
  (forall pass pk ct, tt_passphrase_acquire l = Some pass -> f_profile f = Some ct -> derive_key pass ps (f_profile f) = Some pk ->
     EXTRA <= len ct <= PROFILE_MAX -> 0 < len ct -> is_data_encrypted ct = true -> pk_decrypt pk ct = None ->
     tox_thread_main l ps ss f = Ok Refused).
Proof.
  split.
  - intros en evs (opts & tor & pass & sd & _ & _ & _ & _ & Hl & Hd & Ho & _)%started_inv Hs.
    rewrite Ho in Hs. unfold load_profile in Hl. destruct (f_profile f) as [b|]; [right; exists b|by left].
    split; [done|]. pose proof (len_nonneg b). destruct ((len b <=? 0) || (PROFILE_MAX <? len b)) eqn:E0; [lia|].
    destruct (sidecar_decrypt b _) as [[buf sz]|]; [by subst sd|by subst sd].
  - intros pass pk ct Hp Hf Hk Hl Hpos He Hd. unfold tox_thread_main. destruct (proxy_options _ _) as [[opts tor]|]; [|done].
    rewrite Hp, Hk. destruct (derive_key pass ss _); [|done].
    assert (Hlp : load_profile (Some pk) tor (f_profile f) = DecryptFailed); [|by rewrite Hlp].
    rewrite Hf. unfold load_profile, sidecar_decrypt. replace ((len ct <=? 0) || (PROFILE_MAX <? len ct)) with false by lia.
    replace (len ct <? EXTRA) with false by lia. by rewrite He, Hd.
Qed.

(** ** Restored sessions *)

Definition enforced (required : list bool) (fn : Z) : Prop := required !! Z.to_nat fn = Some true.

Lemma enforce_restored_step sessions st fn : 0 <= fn < TT_MAX_FRIENDS -> length st.1.1 = Z.to_nat TT_MAX_FRIENDS ->
  let st' := enforce_restored sessions st fn in
  length st'.1.1 = Z.to_nat TT_MAX_FRIENDS /\ (forall k, enforced st.1.1 k -> enforced st'.1.1 k) /\
  (active (default tt_session_init (sessions !! Z.to_nat fn)) = true -> enforced st'.1.1 fn).
Proof.
  destruct st as [[required sett] evs]. cbn [fst]. intros Hfn Hl. unfold enforce_restored.
  destruct (active _) eqn:Ea; cbn [negb]; [|by split_conj].
  destruct (required !! Z.to_nat fn) as [[]|] eqn:Er; cbn [default id fst].
  - split_conj; [done|done|by intros _].
  - split_conj; [by rewrite length_insert| |].
    + intros k Hk. unfold enforced in *. rewrite list_lookup_insert_Some.
      destruct (decide (Z.to_nat fn = Z.to_nat k)); [left|by right]. apply lookup_lt_Some in Er. split_conj; [done|done|lia].
    + intros _. unfold enforced. apply list_lookup_insert_eq. by apply lookup_lt_Some in Er.
  - apply lookup_ge_None in Er. unfold TT_MAX_FRIENDS in *. lia.
Qed.
Lemma enforce_restored_all sessions fns : forall st, Forall (fun fn => 0 <= fn < TT_MAX_FRIENDS) fns ->
  length st.1.1 = Z.to_nat TT_MAX_FRIENDS ->
  let st' := fold_left (enforce_restored sessions) fns st in
  (forall k, enforced st.1.1 k -> enforced st'.1.1 k) /\
  Forall (fun fn => active (default tt_session_init (sessions !! Z.to_nat fn)) = true -> enforced st'.1.1 fn) fns.
Proof.
  induction fns as [|fn fns IH]; intros st Hr Hl; [by split|]. apply Forall_cons in Hr as [Hfn Hr]. cbn [fold_left].
  destruct (enforce_restored_step sessions st fn Hfn Hl) as (Hl' & Hk & Ha).
  destruct (IH (enforce_restored sessions st fn) Hr Hl') as [Hk' Ha']. split; [auto|]. constructor; [auto|done].
Qed.

Lemma parse_friends_length fuel : forall p required, length (parse_friends fuel p required) = length required.
Proof.
  induction fuel as [|fuel IH]; intros p required; [done|]. cbn. destruct (drop_blank p); [done|]. destruct (isdigit _); [|done].
  rewrite IH. case_match; [by rewrite length_insert|done].
Qed.
Lemma load_e2ee_length file : length (tt_settings_load_e2ee file) = Z.to_nat TT_MAX_FRIENDS.
Proof.
  destruct file as [b|]; [|done]. cbn. induction (file_lines 512 b) as [|line ls IH]; [done|].
  cbn [load_e2ee_lines]. destruct (starts _ _); [|done]. by rewrite parse_friends_length.
Qed.

(** The loop's result, for any list of friends it runs over. *)
Lemma restore_loop sessions fns required sett evs st' : Forall (fun fn => 0 <= fn < TT_MAX_FRIENDS) fns ->
  length required = Z.to_nat TT_MAX_FRIENDS ->
  fold_left (enforce_restored sessions) fns (required, sett, evs) = st' ->
  forall fn, fn ∈ fns ->
    (active (default tt_session_init (sessions !! Z.to_nat fn)) = true -> enforced st'.1.1 fn) /\
    (enforced required fn -> enforced st'.1.1 fn).
Proof.
  intros Hr Hl <- fn Hfn. destruct (enforce_restored_all sessions fns (required, sett, evs) Hr Hl) as [Hk Ha].
  split; [|apply Hk]. rewrite Forall_forall in Ha. by apply Ha.
Qed.
Lemma all_friends : Forall (fun fn => 0 <= fn < TT_MAX_FRIENDS) (seqZ 0 TT_MAX_FRIENDS).
Proof. apply Forall_forall. intros x Hx%elem_of_seqZ. lia. Qed.
Lemma restore_e2ee_enforces key f sessions required sett evs : restore_e2ee key f = Ok (sessions, required, sett, evs) ->
  forall fn, 0 <= fn < TT_MAX_FRIENDS ->
    (active (default tt_session_init (sessions !! Z.to_nat fn)) = true -> enforced required fn) /\
    (enforced (tt_settings_load_e2ee (f_settings f)) fn -> enforced required fn).
Proof.
  unfold restore_e2ee. destruct (tt_session_store_load _ _ _) as [[ss o]| |]; [|done..]. cbn [mbind outcome_bind].
  pose proof all_friends as Hf. assert (Hin : forall fn, 0 <= fn < TT_MAX_FRIENDS -> fn ∈ seqZ 0 TT_MAX_FRIENDS)
    by (intros fn ?; apply elem_of_seqZ; lia).
  revert Hf Hin. generalize (seqZ 0 TT_MAX_FRIENDS). intros fns Hf Hin.
  pose proof (load_e2ee_length (f_settings f)) as Hlen. revert Hlen. generalize (tt_settings_load_e2ee (f_settings f)).
  intros req0 Hlen. destruct (fold_left _ _ _) as [[required' sett'] eevs] eqn:Ef. intros [= <- <- <- <-] fn Hfn.
  exact (restore_loop _ _ _ _ _ _ Hf Hlen Ef fn (Hin fn Hfn)).
Qed.

(** After a start every friend with a restored session has encryption enforced,
    even where the user had switched it off and that choice was saved; what
    the settings file enforces stays enforced. *)
Theorem restored_sessions_enforced l ps ss f en evs sessions :
  tox_thread_main l ps ss f = Ok (Started en evs) -> e2ee_mode l = true -> e2ee en = Some sessions ->
  forall fn, 0 <= fn < TT_MAX_FRIENDS ->
    (active (default tt_session_init (sessions !! Z.to_nat fn)) = true -> enforced (e2ee_required en) fn) /\
    (enforced (tt_settings_load_e2ee (f_settings f)) fn -> enforced (e2ee_required en) fn).
Proof.
  intros (_ & _ & _ & _ & _ & _ & _ & _ & _ & _ & _ & _ & _ & H)%started_inv Hm He fn Hfn.
  destruct (H Hm) as (sessions' & sett & evs' & Hr & He' & _). rewrite He in He'. injection He' as <-.
  by eapply restore_e2ee_enforces.
Qed.

(** ** Stop and start again *)

Context {L : PassKeyLaws K} {DL : KeyDerivationLaws K D}.

(** The key [k] comes from the passphrase [pass]. *)
Definition from_pass (pass : bytes) (k : Key) : Prop := key_derive pass (key_salt k) = Some k.

Lemma derive_from_pass pass fresh file k : derive_key pass fresh file = Some k -> from_pass pass k.
Proof. unfold derive_key, from_pass. intros H. by rewrite (derived_salt _ _ _ H). Qed.
(** The key of a file is derived again from the salt in its head. *)
Lemma derive_again pass fresh k n pt ct : from_pass pass k -> pk_encrypt k n pt = Some ct ->
  derive_key pass fresh (Some ct) = Some k.
Proof.
  intros Hk H. pose proof extra_magic. unfold derive_key, file_salt. destruct (head_salt _ _ _ _ H) as [-> ->].
  apply encrypt_spec in H as (Hl & _). pose proof (len_nonneg pt). rewrite len_ztake, Z.eqb_refl by lia. exact Hk.
Qed.

(** Writing the files at shutdown succeeds, and none is too large to be read. *)
Record saves_ok (nonce : nat -> bytes) (en : TTEngine) (sessions : list TTSession) : Prop := {
  so_profile : exists ct, pk_encrypt (pass_key en) (nonce 0%nat) (tox_get_savedata (tox en)) = Some ct;
  so_profile_len : 0 < len (tox_get_savedata (tox en)) /\ len (tox_get_savedata (tox en)) + EXTRA <= PROFILE_MAX;
  so_resume : (tt_resume_save (resume_idx en) (resume_count en) (Some (pass_key en)) (nonce 2%nat) (f_resume (files en))).2 = true;
  so_resume_len : len (rsum_plaintext (resume_idx en) (resume_count en)) + EXTRA <= RSUM_MAX_FILE;
  so_index : index_wf (resume_idx en) (resume_count en);
  so_e2ee : e2ee en = Some sessions;
  so_sessions : length sessions = SES_FRIENDS /\ Forall (fun s => active s = true -> session_rec s) sessions;
  so_active : 0 < len (active_sessions 0 sessions) < 256;
  so_sessions_len : len (ses_plaintext sessions) + EXTRA <= SES_MAX_FILE;
  so_saved : (sidecar_save SES_MAX_FILE (Some (session_key en)) (nonce 3%nat) (f_sessions (files en)) (ses_plaintext sessions)).2 = true;
}.

Lemma shutdown_sessions nonce en sessions : saves_ok nonce en sessions ->
  f_sessions (tox_thread_shutdown nonce en) =
    tt_session_store_save sessions (Some (session_key en)) (nonce 3%nat) (f_sessions (files en)).
Proof.
  intros H. transitivity (match e2ee en with
    | Some l => tt_session_store_save l (Some (session_key en)) (nonce 3%nat) (f_sessions (files en))
    | None => f_sessions (files en) end); [done|]. by rewrite (so_e2ee _ _ _ H).
Qed.
Lemma session_key_again pass fresh nonce en sessions : saves_ok nonce en sessions -> from_pass pass (session_key en) ->
  derive_key pass fresh (f_sessions (tox_thread_shutdown nonce en)) = Some (session_key en).
Proof.
  intros H Hk. rewrite (shutdown_sessions _ _ _ H). pose proof (so_saved _ _ _ H) as Hs.
  pose proof (so_active _ _ _ H). unfold tt_session_store_save, active_count. rewrite u8_small by (unfold is_byte; lia).
  replace (len (active_sessions 0 sessions) =? 0) with false by lia. unfold sidecar_save in *.
  destruct (_ || _); [done|]. destruct (pk_encrypt _ _ _) as [ct|] eqn:Ec; [|done]. by eapply derive_again.
Qed.

(** The engine [en] runs with the keys that the start of [en0] derived. *)
Definition same_keys (en0 en : TTEngine) : Prop := pass_key en = pass_key en0 /\ session_key en = session_key en0.

Lemma restore_e2ee_saved pass nonce en sessions : saves_ok nonce en sessions -> from_pass pass (session_key en) ->
  exists required sett evs,
    restore_e2ee (session_key en) (tox_thread_shutdown nonce en) = Ok (restored <$> sessions, required, sett, evs).
Proof.
  intros H _. unfold restore_e2ee. destruct (so_sessions _ _ _ H) as [Hl Hr].
  destruct (store_loads_saved sessions (Some (session_key en)) (nonce 3%nat) (f_sessions (files en)) Hl Hr
    (so_active _ _ _ H) (so_sessions_len _ _ _ H) (so_saved _ _ _ H)) as [Hload _].
  rewrite (shutdown_sessions _ _ _ H).
  rewrite Hload. cbn [mbind outcome_bind]. destruct (fold_left _ _ _) as [[required sett] evs]. by eexists _, _, _.
Qed.


(** When toxencryptsave fails at shutdown the identity is lost: the profile is
    replaced by an empty file, and the next start, if it succeeds, hands toxcore
    no savedata, which makes a new identity. *)
Theorem failed_save_loses_identity nonce en l ps ss :
  pk_encrypt (pass_key en) (nonce 0%nat) (tox_get_savedata (tox en)) = None ->
  f_profile (tox_thread_shutdown nonce en) = Some [] /\
  forall en' evs, tox_thread_main l ps ss (tox_thread_shutdown nonce en) = Ok (Started en' evs) ->
    savedata (options en') = None.
Proof.
  intros He. assert (Hf : f_profile (tox_thread_shutdown nonce en) = Some []).
  { change (Some (save_profile (Some (pass_key en)) (nonce 0%nat) (tox_get_savedata (tox en))) = Some []).
    unfold save_profile. by rewrite He. }
  split; [done|]. intros en' evs (opts & tor & pass & sd & _ & _ & _ & _ & Hl & _ & Ho & _)%started_inv.
  rewrite Hf in Hl. rewrite Ho. by subst sd.
Qed.
End startup.

(** ** Examples *)

Definition sample_derivation : KeyDerivation sample_pass :=
  @Build_KeyDerivation sample_pass Z
    (fun pass salt => Some (salt * 1000 + foldr Z.add 0 pass mod 1000))
    (fun k => k / 1000)
    (fun head => Some (zat head 79 / 1000)).
Lemma sample_derivation_laws : KeyDerivationLaws sample_pass sample_derivation.
Proof.
  split.
  - cbn. intros pass salt k [= <-]. pose proof (Z.mod_pos_bound (foldr Z.add 0 pass) 1000 ltac:(lia)).
    rewrite Z.add_comm, Z.div_add, Z.div_small by lia. lia.
  - cbn. intros k n pt ct [= <-]. split; [reflexivity|]. done.
Qed.
(** A toxcore whose instance is its savedata. *)
Definition sample_core : ToxCore := {|
  Tox := bytes; tox_new o := Some (default [0] (savedata o)); tox_get_savedata t := t |}.
Definition no_env : XferEnv := {|
  send_answer _ := None; chunk_answer _ := false; file_id_answer _ _ _ := None; friend_list _ := [];
  open_answer _ := false; fdopen_answer _ := false; write_answer _ := 0; flush_answer _ := false;
  malloc_bytes _ n := zrep n 0; sha256 b := ztake 32 (b ++ zrep 32 0); save_nonce _ := [] |}.

#[local] Existing Instances sample_pass sample_derivation sample_core no_env.

Definition sample_launch (host : option bytes) (pass : bytes) : launch :=
  mkLaunch host None (Some pass) false None None true.
Definition no_files : profile_files := mkFiles None None None None None None.
Definition PW : bytes := ascii_bytes "secret".

Definition no_engine : TTEngine :=
  mkEngine [] tox_options_new false 0 0 no_avatar oq_init empty_index 0 None none_required no_files.
Definition started (r : outcome start_result) : TTEngine * list start_event :=
  match r with Ok (Started en evs) => (en, evs) | _ => (no_engine, []) end.

Definition first_start := tox_thread_main (sample_launch None PW) 7 8 no_files.
(** Some time later: a session, two resume entries, savedata with a DHT section. *)
Definition later_engine : TTEngine :=
  let en := (started first_start).1 in
  mkEngine (savedata_of sample_sections) (options en) (tor_mode en) (pass_key en) (session_key en) (self_avatar en) (oq en)
    sample_index.1 sample_index.2 (Some (busy_session :: replicate 255 tt_session_init)) (e2ee_required en) (files en).

Definition runs (r : outcome start_result) : bool := match r with Ok (Started _ _) => true | _ => false end.
Lemma runs_started r : runs r = true -> r = Ok (Started (started r).1 (started r).2).
Proof. destruct r as [[|en evs]| |]; done. Qed.

Lemma first_start_ok : first_start = Ok (Started (started first_start).1 (started first_start).2).
Proof. apply runs_started. vm_compute. reflexivity. Qed.

Lemma sample_index_wf : index_wf sample_index.1 sample_index.2.
Proof.
  pose proof (put_spec empty_index 0 (zrep 32 7) [97; 98] 12 empty_index_wf eq_refl ltac:(lia)) as [H1 _].
  exact (proj1 (put_spec _ _ (zrep 32 8) [] 5 H1 eq_refl ltac:(lia))).
Qed.

Lemma later_saves_ok : saves_ok (fun _ => []) later_engine (busy_session :: replicate 255 tt_session_init).
Proof.
  split.
  - by eexists.
  - change (tox_get_savedata (tox later_engine)) with (savedata_of sample_sections). split; vm_compute; [reflexivity|discriminate].
  - vm_compute. reflexivity.
  - change (resume_idx later_engine) with sample_index.1. change (resume_count later_engine) with sample_index.2.
    vm_compute. discriminate.
  - exact sample_index_wf.
  - reflexivity.
  - split; [reflexivity|]. constructor; [intros _; exact busy_session_rec|].
    apply Forall_replicate. intros Ha. discriminate Ha.
  - vm_compute. split; reflexivity.
  - vm_compute. discriminate.
  - vm_compute. reflexivity.
Qed.


(** A proxy in the environment. *)
Definition tor_start := tox_thread_main (sample_launch (Some (ascii_bytes "127.0.0.1")) PW) 7 8 no_files.
Lemma tor_start_ok : tor_start = Ok (Started (started tor_start).1 (started tor_start).2).
Proof. apply runs_started. vm_compute. reflexivity. Qed.
Lemma proxy_never_bypassed_witness :
  let en := (started tor_start).1 in
  (exists host port, proxy (options en) = Some (host, port) /\ 0 < len host /\ ip_literal host = true /\ 0 < port <= 65535) /\
  udp_enabled (options en) = false /\ local_discovery (options en) = false /\ hole_punching (options en) = false /\
  tor_mode en = true /\ Forall (fun a => ip_literal (boot_host a) = true) (bootstrap_all true (tor_mode en)).
Proof.
  apply (proxy_never_bypassed (K := sample_pass) (D := sample_derivation) (sample_launch (Some (ascii_bytes "127.0.0.1")) PW) 7 8 no_files _ (started tor_start).2 true).
  - exact tor_start_ok.
  - left. discriminate.
Defined.

(** The profile of the later engine and another passphrase. *)
Lemma readable_profile_kept_witness :
  tox_thread_main (sample_launch None (ascii_bytes "wrong")) 1 2 (tox_thread_shutdown (fun _ => []) later_engine) = Ok Refused.
Proof.
  eapply (proj2 (readable_profile_kept (K := sample_pass) (D := sample_derivation) (sample_launch None (ascii_bytes "wrong")) 1 2 (tox_thread_shutdown (fun _ => []) later_engine))).
  - reflexivity.
  - reflexivity.
  - vm_compute. reflexivity.
  - vm_compute. split; discriminate.
  - vm_compute. reflexivity.
  - vm_compute. reflexivity.
  - vm_compute. reflexivity.
Defined.

(** The settings file says nothing, the session file holds a session of friend 0. *)
#[local] Abbreviation second_start := (tox_thread_main (sample_launch None PW) 1 2 (tox_thread_shutdown (fun _ => []) later_engine)).
Lemma second_start_ok : second_start = Ok (Started (started second_start).1 (started second_start).2).
Proof. apply runs_started. vm_compute. reflexivity. Qed.
Lemma restored_sessions_enforced_witness :
  tt_settings_load_e2ee (f_settings (tox_thread_shutdown (fun _ => []) later_engine)) !! 0%nat = Some false /\
  enforced (e2ee_required (started second_start).1) 0.
Proof.
  split; [reflexivity|].
  refine (proj1 (restored_sessions_enforced (K := sample_pass) (D := sample_derivation) (sample_launch None PW) 1 2
    (tox_thread_shutdown (fun _ => []) later_engine) (started second_start).1 (started second_start).2
    (default [] (e2ee (started second_start).1)) _ _ _ 0 _) _).
  - exact second_start_ok.
  - reflexivity.
  - assert (H : bool_decide (is_Some (e2ee (started second_start).1)) = true) by (vm_compute; reflexivity).
    apply bool_decide_eq_true in H as [x Hx]. by rewrite Hx.
  - done.
  - vm_compute. reflexivity.
Defined.

(** A toxencryptsave out of memory. *)
Definition failing_pass : PassKey := {|
  Key := Z; EXTRA := 80; pk_encrypt _ _ _ := None; pk_decrypt _ _ := None; is_data_encrypted _ := false |}.
Definition failing_derivation : KeyDerivation failing_pass :=
  @Build_KeyDerivation failing_pass Z (fun _ _ => Some 0) (fun _ => 0) (fun _ => None).
Lemma failed_save_loses_identity_witness :
  let en := @mkEngine failing_pass sample_core [1; 2] tox_options_new false 0 0 no_avatar oq_init empty_index 0 None none_required no_files in
  f_profile (tox_thread_shutdown (fun _ => []) en) = Some [] /\
  forall en' evs, @tox_thread_main failing_pass failing_derivation sample_core no_env (sample_launch None PW) 1 2
      (tox_thread_shutdown (fun _ => []) en) = Ok (Started en' evs) -> savedata (options en') = None.
Proof.
  intros en. apply (@failed_save_loses_identity failing_pass failing_derivation sample_core no_env (fun _ => []) en). reflexivity.
Defined.
