(* ===== verification/Transcript.v ===== *)
(** * Transcript: what the chat window keeps ([ui/ui_tk.c])

    A transcript is one C string of lines, each with a time, an author flag, an
    author and a text; the list preview [last] is kept beside it.  The window
    shows a line when it arrives ([hist_append_live]) and shows all of them
    again when the chat is selected ([hist_render]).  C strings are the
    characters before their NUL; the time of day is an argument. *)
From S2P Require Import Prelude CText Sidecar History.

Definition TT_TRANSCRIPT_MAX : Z := 64 * 1024.
Definition TT_LAST_MAX : Z := 48.
Definition TT_NAME_MAX : Z := 128.
Definition TOX_MAX_MESSAGE_LENGTH : Z := 1372.
(** The separator [\x1f] of the fields, and the newline. *)
Definition US : Z := 31.
Definition NL : Z := 10.

(** ** Appending *)

(** The loop that drops whole lines from the front. *)
Fixpoint drop_lines (fuel : nat) (need : Z) (t : bytes) : bytes :=
  match fuel, t with
  | O, _ | _, [] => t
  | S fuel, _ =>
      if len t + need <? TT_TRANSCRIPT_MAX then t else
      match strchr NL t with
      | None => []
      | Some (_, t) => drop_lines fuel need t
      end
  end.

(** ["%s\x1f%d\x1f%s\x1f%s\n"] with [me ? 1 : 0]. *)
Definition format_line (stamp who : bytes) (me : Z) (text : bytes) : bytes :=
  stamp ++ [US] ++ dec (if me =? 0 then 0 else 1) ++ [US] ++ who ++ [US] ++ text ++ [NL].

Definition transcript_append (stamp who : bytes) (me : Z) (text transcript : bytes) : bytes :=
  let need := len stamp + len who + len text + 8 in
  let t := drop_lines (length transcript) need transcript in
  let cap := TT_TRANSCRIPT_MAX - len t in
  let line := format_line stamp who me text in
  if len line <? cap then t ++ line
  else if 2 <=? cap then t ++ ztake (cap - 2) line ++ [NL]
  else t ++ ztake (cap - 1) line.
(** The preview. *)
Definition last_text (text : bytes) : bytes := snprintf_s TT_LAST_MAX text.

(** ** Showing *)

(** What the widget gets: a grey line, a message with its author (shown as our
    own or not), or a line without fields. *)
Inductive shown :=
| ShownSys (body : bytes)
| ShownMsg (mine : bool) (who stamp body : bytes)
| ShownRaw (line : bytes).

(** The flag byte, to the tag and the system mark. *)
Definition hist_line_classify (fl : Z) : bool * bool := (fl =? 49, (fl =? 50) || (fl =? 51)).

(** One line, cut to [line[4096]]. *)
Definition render_line (l : bytes) : shown :=
  let line := ztake 4095 l in
  match strchr US line with
  | None => ShownRaw line
  | Some (stamp, r) =>
      match strchr US r with
      | None => ShownRaw line
      | Some (flag, r) =>
          match strchr US r with
          | None => ShownRaw line
          | Some (who, body) =>
              let '(mine, sys) := hist_line_classify (zat flag 0) in
              if sys then ShownSys body else ShownMsg mine who stamp body
          end
      end
  end.

(** The lines the loop walks over; the last may lack its newline. *)
Fixpoint hist_lines (t : bytes) : list bytes :=
  match t with
  | [] => []
  | c :: t =>
      if c =? NL then [] :: hist_lines t
      else match hist_lines t with
           | [] => [[c]]
           | l :: ls => (c :: l) :: ls
           end
  end.
Definition hist_render (transcript : bytes) : list shown := render_line <$> hist_lines transcript.

Definition hist_append_live (stamp who : bytes) (me : Z) (text : bytes) : shown :=
  if negb (Z.land me 2 =? 0) then ShownSys text else ShownMsg (negb (me =? 0)) who stamp text.

(** ** Emoticons *)

Definition EMOTICONS : list (bytes * bytes) :=
  prod_map ascii_bytes id <$> [
    (":'(", [240; 159; 152; 162]); (">:(", [240; 159; 152; 160]);
    (":-)", [240; 159; 153; 130]); (":-(", [240; 159; 153; 129]);
    (":-D", [240; 159; 152; 132]); (";-)", [240; 159; 152; 137]);
    (":)", [240; 159; 153; 130]); (":(", [240; 159; 153; 129]);
    (";)", [240; 159; 152; 137]); (":D", [240; 159; 152; 132]);
    (":P", [240; 159; 152; 155]); (";P", [240; 159; 152; 156]);
    (":o", [240; 159; 152; 174]); (":*", [240; 159; 152; 152]);
    ("<3", [240; 159; 146; 154]); (":/", [240; 159; 153; 141]);
    (":|", [240; 159; 152; 144]); ("B)", [240; 159; 152; 142])]%string.

(** The loop over the table: the longest pattern at the head of [buf], the
    earlier one of two equally long. *)
Definition best_emoticon (buf : bytes) : option (bytes * bytes) :=
  fold_left (fun best e =>
      if is_prefix e.1 buf && (len (default [] (fst <$> best)) <? len e.1) then Some e else best)
    EMOTICONS None.

Definition EMOTIFY_OUT : Z := TOX_MAX_MESSAGE_LENGTH * 4 + 8.

(** The loop over [buf]; [skip] characters belong to the last pattern. *)
Fixpoint emotify_loop (skip : nat) (buf out : bytes) : bytes :=
  match buf with
  | [] => out
  | c :: rest =>
      match skip with
      | S skip => emotify_loop skip rest out
      | O =>
          match best_emoticon buf with
          | Some (pat, uni) =>
              if EMOTIFY_OUT <=? len out + len uni then out
              else emotify_loop (length pat - 1) rest (out ++ uni)
          | None => emotify_loop 0 rest (if len out + 1 <? EMOTIFY_OUT then out ++ [c] else out)
          end
      end
  end.
Definition emotify (cap : Z) (buf : bytes) : bytes := snprintf_s cap (emotify_loop 0 buf []).

(** ** On disk

    What [history_save] and the two loaders read and write of a contact or a
    group: its identity in hexadecimal, its transcript and its preview. *)

Record chat := mkChat { hist_key : bytes; transcript : bytes; last : bytes }.
#[export] Instance eta_chat : EtaRecord chat := fun c => mkChat (hist_key c) (transcript c) (last c).

(** [contact_hist_key], [group_hist_key]: [None] while the identity is unknown. *)
Definition chat_hist_key (c : chat) : option bytes := if len (hist_key c) =? 0 then None else Some (hist_key c).

Definition hist_entries (chats : list chat) : list TTHistEntry :=
  omap (fun c => match chat_hist_key c with
                 | Some k => if len (transcript c) =? 0 then None else Some (mkHistEntry (Some k) (Some (transcript c)))
                 | None => None
                 end) chats.

(** The text behind the last newline, and its fourth field. *)
Fixpoint last_line (t : bytes) : bytes :=
  match strchr NL t, t with
  | Some _, _ :: t => last_line t
  | _, _ => t
  end.
Definition field4 (l : bytes) : option bytes :=
  match strchr US l with
  | None => None
  | Some (_, l) => match strchr US l with
                   | None => None
                   | Some (_, l) => snd <$> strchr US l
                   end
  end.

Section disk.
Context {K : PassKey}.

(** [history]: the setting; the file afterwards. *)
Definition history_save (history : bool) (pass_key : option Key) (nonce : bytes) (chats : list chat)
    (old : option bytes) : option bytes * bool :=
  if negb history then (old, false) else
  match hist_entries chats with
  | [] => (old, false)
  | entries => tt_hist_save entries pass_key nonce old
  end.

(** [history_load_contact], [history_load_group]. *)
Definition history_load (pass_key : option Key) (file : option bytes) (c : chat) : outcome chat :=
  match chat_hist_key c with
  | None => Ok c
  | Some k =>
      '(found, buf) ← tt_hist_load pass_key file (Some k) TT_TRANSCRIPT_MAX;
      if negb found then Ok c else
      let t := ztake (TT_TRANSCRIPT_MAX - 1) (cstr buf) in
      let c := c <| transcript := t |> in
      Ok match last_line t with
         | [] => c
         | p => match field4 p with Some body => c <| last := last_text body |> | None => c end
         end
  end.
End disk.
