(* ===== verification/TranscriptLog.v ===== *)
(** * TranscriptLog: the transcript as a bounded log of lines

    What selecting a chat shows is the log of the appended lines, the oldest
    dropped when it is full, but system lines come back as our own messages and
    a text with a newline can forge any line.  Emoticons are replaced by the
    longest match, once. *)
From S2P Require Import Prelude CText Sidecar History Transcript.

(** ** Lines *)

Record entry := mkEntry { e_stamp : bytes; e_who : bytes; e_me : Z; e_text : bytes }.

Definition entry_line (e : entry) : bytes := format_line (e_stamp e) (e_who e) (e_me e) (e_text e).
Definition log (es : list entry) : bytes := concat (entry_line <$> es).
Definition append_entry (t : bytes) (e : entry) : bytes :=
  transcript_append (e_stamp e) (e_who e) (e_me e) (e_text e) t.

(** The fields are C strings without separators; the line fits [line[4096]]. *)
Record entry_ok (e : entry) : Prop := {
  eo_stamp : ~ In NL (e_stamp e) /\ ~ In US (e_stamp e) /\ ~ In 0 (e_stamp e);
  eo_who : ~ In NL (e_who e) /\ ~ In US (e_who e) /\ ~ In 0 (e_who e);
  eo_text : ~ In NL (e_text e) /\ ~ In 0 (e_text e);
  eo_len : len (entry_line e) <= 4096;
}.

(** What a line becomes when the chat is selected again. *)
Definition reshown (e : entry) : shown := ShownMsg (negb (e_me e =? 0)) (e_who e) (e_stamp e) (e_text e).

Lemma flag_digit me : dec (if me =? 0 then 0 else 1) = [if me =? 0 then 48 else 49].
Proof. by destruct (me =? 0). Qed.

(** The line without its newline. *)
Definition entry_body (e : entry) : bytes :=
  e_stamp e ++ US :: (if e_me e =? 0 then 48 else 49) :: US :: e_who e ++ US :: e_text e.
Lemma entry_line_body e : entry_line e = entry_body e ++ [NL].
Proof. unfold entry_line, entry_body, format_line. rewrite flag_digit. by repeat (rewrite <- app_assoc; cbn [app]). Qed.

Lemma in_app_not (x : Z) a b : ~ In x a -> ~ In x b -> ~ In x (a ++ b).
Proof. rewrite in_app_iff. naive_solver. Qed.
Lemma in_cons_not (x c : Z) a : c <> x -> ~ In x a -> ~ In x (c :: a).
Proof. cbn. naive_solver. Qed.

Lemma entry_body_no_nl e : entry_ok e -> ~ In NL (entry_body e).
Proof.
  intros [(? & _) (? & _) [? _] _]. unfold entry_body, NL, US in *.
  repeat (apply in_app_not || apply in_cons_not); try done; by destruct (e_me e =? 0).
Qed.
Lemma entry_line_no_nul e : entry_ok e -> ~ In 0 (entry_line e).
Proof.
  intros [(_ & _ & ?) (_ & _ & ?) [_ ?] _]. rewrite entry_line_body. unfold entry_body, NL, US in *.
  repeat (apply in_app_not || apply in_cons_not); try done; try (by destruct (e_me e =? 0)); by intros [].
Qed.
Lemma entry_line_pos e : 0 < len (entry_line e).
Proof. rewrite entry_line_body, len_app. change (len [NL]) with 1. pose proof (len_nonneg (entry_body e)). lia. Qed.

Lemma hist_lines_line a t : ~ In NL a -> hist_lines (a ++ NL :: t) = a :: hist_lines t.
Proof.
  induction a as [|c a IH]; intros H; [done|]. cbn [app hist_lines]. replace (c =? NL) with false by (cbn in H; lia).
  rewrite IH by (cbn in H; naive_solver). done.
Qed.

Lemma render_entry e : entry_ok e -> render_line (entry_body e) = reshown e.
Proof.
  intros He. pose proof (eo_len e He) as Hl. rewrite entry_line_body, len_app in Hl. change (len [NL]) with 1 in Hl.
  unfold render_line. rewrite ztake_all by lia. unfold entry_body, reshown.
  destruct He as [(_ & ? & _) (_ & ? & _) _ _]. rewrite strchr_app by done.
  change (?f :: US :: ?r) with ([f] ++ US :: r). rewrite (strchr_app US [_]) by (by destruct (e_me e =? 0); intros [|[]]).
  rewrite strchr_app by done. by destruct (e_me e =? 0).
Qed.

Lemma log_cons e es : log (e :: es) = entry_body e ++ NL :: log es.
Proof. unfold log. cbn [fmap list_fmap concat]. by rewrite entry_line_body, <- app_assoc. Qed.
Lemma log_app es1 es2 : log (es1 ++ es2) = log es1 ++ log es2.
Proof. unfold log. by rewrite fmap_app, concat_app. Qed.

Lemma render_log es : Forall entry_ok es -> hist_render (log es) = reshown <$> es.
Proof.
  induction 1 as [|e es He _ IH]; [done|]. unfold hist_render. rewrite log_cons, hist_lines_line by (by apply entry_body_no_nl).
  cbn [fmap list_fmap]. rewrite render_entry by done. f_equal. exact IH.
Qed.

(** ** Dropping *)

Lemma drop_lines_log need es : forall fuel, (length es <= fuel)%nat -> Forall entry_ok es ->
  exists k, drop_lines fuel need (log es) = log (drop k es) /\ (k <= length es)%nat /\
    (drop k es = [] \/ len (log (drop k es)) + need < TT_TRANSCRIPT_MAX) /\
    ((0 < k)%nat -> TT_TRANSCRIPT_MAX <= len (log es) + need).
Proof.
  induction es as [|e es IH]; intros fuel Hf Hes.
  { exists 0%nat. destruct fuel; split_conj; try done; by left || lia. }
  destruct fuel as [|fuel]; [cbn in Hf; lia|]. apply Forall_cons in Hes as [He Hes].
  assert (Hne : log (e :: es) <> []) by (rewrite log_cons; destruct (entry_body e); done).
  unfold drop_lines; fold drop_lines. destruct (log (e :: es)) as [|c l] eqn:E; [done|]. rewrite <- E. clear Hne.
  destruct (len (log (e :: es)) + need <? TT_TRANSCRIPT_MAX) eqn:El.
  - exists 0%nat. split_conj; [done|lia|right; cbn [drop]; lia|lia].
  - assert (Hs : strchr NL (log (e :: es)) = Some (entry_body e, log es))
      by (rewrite log_cons; apply strchr_app; by apply entry_body_no_nl).
    rewrite Hs.
    destruct (IH fuel) as (k & -> & Hk & Hd & _); [cbn in Hf; lia|done|]. exists (S k).
    split_conj; [done|cbn; lia|done|lia].
Qed.

Lemma log_longer es : (length es <= length (log es))%nat.
Proof.
  induction es as [|e es IH]; [done|]. rewrite log_cons, length_app. cbn [length]. lia.
Qed.

Lemma append_log es e : Forall entry_ok es -> entry_ok e ->
  exists k, append_entry (log es) e = log (drop k es ++ [e]) /\ (k <= length es)%nat /\
    len (append_entry (log es) e) < TT_TRANSCRIPT_MAX /\
    ((0 < k)%nat -> TT_TRANSCRIPT_MAX <= len (log (es ++ [e])) + 3).
Proof.
  intros Hes He. unfold append_entry, transcript_append.
  set (need := len (e_stamp e) + len (e_who e) + len (e_text e) + 8).
  assert (Hneed : need = len (entry_line e) + 3).
  { unfold need, entry_line, format_line. rewrite flag_digit, !len_app. change (len [US]) with 1. change (len [NL]) with 1.
    change (len [_]) with 1. lia. }
  destruct (drop_lines_log need es (length (log es))) as (k & -> & Hk & Hd & Hk0); [apply log_longer|done|].
  fold (entry_line e). pose proof (eo_len e He) as Hl. pose proof (entry_line_pos e).
  assert (Hfit : len (log (drop k es)) + len (entry_line e) < TT_TRANSCRIPT_MAX).
  { destruct Hd as [->|Hd]; [|lia]. change (len (log [])) with 0. unfold TT_TRANSCRIPT_MAX. lia. }
  replace (len (entry_line e) <? TT_TRANSCRIPT_MAX - len (log (drop k es))) with true by lia.
  exists k. split_conj; [|done| |].
  - rewrite log_app. unfold log at 3. cbn. by rewrite app_nil_r.
  - rewrite len_app. lia.
  - intros Hk'. specialize (Hk0 Hk'). rewrite log_app, len_app. change (log [e]) with (entry_line e ++ []). rewrite app_nil_r. lia.
Qed.

(** C31: Selecting a chat shows its last lines in the order they were appended, each
    with its author, time and text: all of them while they fit 64 KiB, and
    always the newest.  The transcript never outgrows its array.  Appended as a
    system line or as our own, a line is shown as our own. *)
Theorem transcript_is_log es : Forall entry_ok es ->
  let t := fold_left append_entry es [] in
  exists k, hist_render t = reshown <$> drop k es /\ len t < TT_TRANSCRIPT_MAX /\
    (es <> [] -> k < length es)%nat /\ (len (log es) + 3 < TT_TRANSCRIPT_MAX -> k = 0%nat).
Proof.
  intros Hes t. cut (exists k, t = log (drop k es) /\ len t < TT_TRANSCRIPT_MAX /\ (k <= length es)%nat /\
    (es <> [] -> k < length es)%nat /\ (len (log es) + 3 < TT_TRANSCRIPT_MAX -> k = 0%nat)).
  { intros (k & -> & ? & ? & ? & ?). exists k. split_conj; try done. apply render_log. by apply Forall_drop. }
  unfold t. clear t. induction es as [|e es IH] using rev_ind.
  { exists 0%nat. by split_conj. }
  apply Forall_app in Hes as [Hes [He _]%Forall_cons]. destruct (IH Hes) as (k & Ht & _ & Hk & _ & Hk0).
  rewrite fold_left_app. cbn [fold_left]. rewrite Ht.
  destruct (append_log (drop k es) e) as (j & -> & Hj & Hl & Hj0); [by apply Forall_drop|done|].
  rewrite length_drop in Hj. exists (k + j)%nat. rewrite length_app. cbn [length]. split_conj; [|done|lia|lia|].
  - rewrite drop_app_le, drop_drop by lia. done.
  - rewrite log_app, len_app in Hj0 |- *. intros H. pose proof (len_nonneg (log [e])). rewrite (Hk0 ltac:(lia)) in Hj0 |- *.
    rewrite drop_0 in Hj0. destruct j; [done|]. specialize (Hj0 ltac:(lia)). lia.
Qed.

(** A line looks the same live and later exactly when it is no system line. *)
Lemma reselect_changes_system_lines e : e_me e ∈ [0; 1; 2; 3] ->
  hist_append_live (e_stamp e) (e_who e) (e_me e) (e_text e) = reshown e <-> e_me e = 0 \/ e_me e = 1.
Proof.
  intros H. unfold hist_append_live, reshown. repeat (apply elem_of_cons in H as [->|H]; [cbn; naive_solver|]).
  by apply elem_of_nil in H.
Qed.

(** A friend forges lines of ours: a text with a newline in it, followed by
    the separators of a line, is shown live as one message of the friend, but
    when the chat is selected again as a message of the friend and a message
    of ours, with author, time and text of the friend's choice. *)
Theorem friend_forges_our_lines es e fake :
  Forall entry_ok es -> entry_ok e -> entry_ok fake -> e_me e = 0 -> e_me fake <> 0 ->
  let text := e_text e ++ NL :: entry_body fake in
  len (log es) + len (entry_line e) + len (entry_line fake) + 3 < TT_TRANSCRIPT_MAX ->
  hist_append_live (e_stamp e) (e_who e) 0 text = ShownMsg false (e_who e) (e_stamp e) text /\
  hist_render (transcript_append (e_stamp e) (e_who e) 0 text (log es)) =
    (reshown <$> es) ++ [ShownMsg false (e_who e) (e_stamp e) (e_text e);
                         ShownMsg true (e_who fake) (e_stamp fake) (e_text fake)].
Proof.
  intros Hes He Hf Hme Hmf text Hfit. split; [done|].
  assert (Hline : format_line (e_stamp e) (e_who e) 0 text = log [e; fake]).
  { unfold format_line, text. rewrite !log_cons. change (log []) with (@nil Z). unfold entry_body. rewrite Hme.
    change (dec (if 0 =? 0 then 0 else 1)) with [48]. by repeat (rewrite <- app_assoc; cbn [app]). }
  assert (Hlen : len (log [e; fake]) = len (entry_line e) + len (entry_line fake)).
  { unfold log. cbn [fmap list_fmap concat]. rewrite app_nil_r. apply len_app. }
  set (need := len (e_stamp e) + len (e_who e) + len text + 8).
  assert (Hneed : need = len (log [e; fake]) + 3).
  { unfold need. rewrite <- Hline. unfold format_line. rewrite flag_digit, !len_app. change (len [US]) with 1.
    change (len [NL]) with 1. change (len [_]) with 1. lia. }
  unfold transcript_append. fold need. rewrite Hline.
  destruct (drop_lines_log need es (length (log es))) as (k & -> & Hk & _ & Hk0); [apply log_longer|done|].
  replace k with 0%nat by lia. rewrite drop_0. zif_true.
  rewrite <- log_app, render_log
    by (apply Forall_app; split; [done|apply Forall_cons; split; [done|by apply Forall_singleton]]).
  rewrite fmap_app. f_equal. cbn. unfold reshown. rewrite Hme. by replace (e_me fake =? 0) with false by lia.
Qed.

(** ** Emoticons *)

(** [o] is [b] with every leftmost longest emoticon replaced. *)
Inductive emoji_of : bytes -> bytes -> Prop :=
| emoji_nil : emoji_of [] []
| emoji_char c b o : (forall e, e ∈ EMOTICONS -> is_prefix e.1 (c :: b) = false) -> emoji_of b o -> emoji_of (c :: b) (c :: o)
| emoji_pat e b o : e ∈ EMOTICONS ->
    (forall e', e' ∈ EMOTICONS -> is_prefix e'.1 (e.1 ++ b) = true -> len e'.1 <= len e.1) ->
    emoji_of b o -> emoji_of (e.1 ++ b) (e.2 ++ o).

Lemma is_prefix_spec p l : is_prefix p l = true <-> exists k, l = p ++ k.
Proof.
  revert l. induction p as [|x p IH]; intros l; cbn; [split; [by exists l|done]|].
  destruct l as [|y l]; [split; [done|by intros [k [=]]]|]. rewrite andb_true_iff, IH, Z.eqb_eq. split.
  - intros [-> [k ->]]. by exists k.
  - intros [k [= -> ->]]. split; [done|by exists k].
Qed.

(** Patterns are two or three ASCII characters, emojis four bytes from 128 on,
    and no pattern is listed twice. *)
Lemma emoticons_ok : Forall (fun e => (2 <= length e.1 <= 3)%nat /\ length e.2 = 4%nat /\
  Forall (fun c => 0 < c < 128) e.1 /\ Forall (fun c => 128 <= c) e.2) EMOTICONS.
Proof. apply (bool_decide_unpack _). vm_compute. exact I. Qed.
Lemma emoticons_distinct : NoDup (fst <$> EMOTICONS).
Proof. apply (bool_decide_unpack _). vm_compute. exact I. Qed.
Lemma emoticon_ok e : e ∈ EMOTICONS -> (2 <= length e.1 <= 3)%nat /\ length e.2 = 4%nat /\
  Forall (fun c => 0 < c < 128) e.1 /\ Forall (fun c => 128 <= c) e.2.
Proof. pose proof emoticons_ok as H. rewrite Forall_forall in H. apply H. Qed.

Lemma best_fold buf l : forall b,
  (forall e, b = Some e -> e ∈ EMOTICONS /\ is_prefix e.1 buf = true) -> (forall e, e ∈ l -> e ∈ EMOTICONS) ->
  let r := fold_left (fun best e => if is_prefix e.1 buf && (len (default [] (fst <$> best)) <? len e.1) then Some e else best) l b in
  (forall e, r = Some e -> e ∈ EMOTICONS /\ is_prefix e.1 buf = true) /\
  len (default [] (fst <$> b)) <= len (default [] (fst <$> r)) /\
  forall e, e ∈ l -> is_prefix e.1 buf = true -> len e.1 <= len (default [] (fst <$> r)).
Proof.
  induction l as [|e l IH]; intros b Hb Hl.
  { cbn. split_conj; [done|lia|]. intros e He. by apply elem_of_nil in He. }
  cbn [fold_left].
  set (b' := if is_prefix e.1 buf && (len (default [] (fst <$> b)) <? len e.1) then Some e else b).
  assert (Hb' : (forall e, b' = Some e -> e ∈ EMOTICONS /\ is_prefix e.1 buf = true) /\
    len (default [] (fst <$> b)) <= len (default [] (fst <$> b')) /\
    (is_prefix e.1 buf = true -> len e.1 <= len (default [] (fst <$> b')))).
  { unfold b'. destruct (is_prefix e.1 buf && _) eqn:E.
    - apply andb_true_iff in E as [E1 E2]. split_conj; [|cbn; lia|cbn; lia]. intros e' [= <-]. split; [|done]. apply Hl. by left.
    - split_conj; [done|lia|]. intros E1. rewrite E1 in E. cbn [andb] in E. lia. }
  destruct Hb' as (H1 & H2 & H3).
  destruct (IH b' H1) as (H4 & H5 & H6); [intros e' He'; apply Hl; by right|]. split_conj; [done|lia|].
  intros e' He' Hp. apply elem_of_cons in He' as [->|He']; [specialize (H3 Hp); lia|by apply H6].
Qed.

Lemma best_spec buf : match best_emoticon buf with
  | Some e => e ∈ EMOTICONS /\ is_prefix e.1 buf = true /\
      forall e', e' ∈ EMOTICONS -> is_prefix e'.1 buf = true -> len e'.1 <= len e.1
  | None => forall e, e ∈ EMOTICONS -> is_prefix e.1 buf = false
  end.
Proof.
  unfold best_emoticon.
  destruct (best_fold buf EMOTICONS None) as (H1 & _ & H3); [done|done|].
  destruct (fold_left _ EMOTICONS None) as [e|].
  - destruct (H1 e eq_refl) as [? ?]. split_conj; [done|done|exact H3].
  - intros e He. apply not_true_iff_false. intros Hp. specialize (H3 e He Hp). cbn in H3.
    apply emoticon_ok in He as [? _]. unfold len in H3. cbn in H3. lia.
Qed.

(** The loop follows the relation while its buffer lasts. *)
Lemma emotify_loop_skip n : forall b out, (n <= length b)%nat -> emotify_loop n b out = emotify_loop 0 (drop n b) out.
Proof. induction n as [|n IH]; intros [|c b] out H; cbn in H; try lia; [done|done|]. cbn [emotify_loop drop]. apply IH. lia. Qed.

Lemma emotify_loop_spec : forall n b out, (length b <= n)%nat -> len out + 2 * len b < EMOTIFY_OUT ->
  exists o, emotify_loop 0 b out = out ++ o /\ emoji_of b o /\ len o <= 2 * len b.
Proof.
  induction n as [|n IH]; intros b out Hn Hl; destruct b as [|c b]; try (cbn in Hn; lia).
  1,2: exists []; cbn [emotify_loop]; rewrite app_nil_r; split_conj; [done|constructor|done].
  cbn [emotify_loop]. pose proof (best_spec (c :: b)) as Hb. destruct (best_emoticon (c :: b)) as [[pat uni]|].
  - destruct Hb as (He & Hp & Hmax). cbn [fst] in Hp, Hmax. apply is_prefix_spec in Hp as [k Hk].
    destruct (emoticon_ok _ He) as (Hp1 & Hu & _). cbn [fst snd] in Hp1, Hu.
    assert (Hlk : len (c :: b) = len pat + len k) by (rewrite Hk; apply len_app).
    assert (2 <= len pat) by (unfold len; lia). assert (len uni = 4) by (unfold len; lia). pose proof (len_nonneg k).
    replace (EMOTIFY_OUT <=? len out + len uni) with false by lia.
    assert (Hd : drop (length pat - 1) b = k).
    { destruct pat as [|x pat]; [cbn in Hp1; lia|]. injection Hk as <- ->. cbn [length]. rewrite Nat.sub_succ, Nat.sub_0_r. apply drop_app_length. }
    assert (Hkb : (length k < length (c :: b))%nat) by (unfold len in *; lia).
    rewrite emotify_loop_skip, Hd by (unfold len in *; cbn [length] in *; lia).
    destruct (IH k (out ++ uni)) as (o & -> & Ho & Hlo); [cbn [length] in *; lia|rewrite len_app; lia|].
    exists (uni ++ o). rewrite <- app_assoc. split_conj; [done| |rewrite len_app; lia].
    rewrite Hk. rewrite Hk in Hmax. by apply (emoji_pat (pat, uni)).
  - rewrite len_cons in Hl |- *. pose proof (len_nonneg b). replace (len out + 1 <? EMOTIFY_OUT) with true by lia.
    destruct (IH b (out ++ [c])) as (o & -> & Ho & Hlo); [cbn in Hn; lia|rewrite len_app; change (len [c]) with 1; lia|].
    exists (c :: o). rewrite <- app_assoc. split_conj; [done|by constructor|rewrite len_cons; lia].
Qed.

Lemma emoji_of_unique b o o' : emoji_of b o -> emoji_of b o' -> o = o'.
Proof.
  intros H. revert o'. induction H as [|c b o Hn _ IH|e b o He Hmax _ IH]; intros o' H'.
  - inversion H' as [| |e b' o'' He _ _ Hb]; [done|]. destruct (emoticon_ok e He) as (? & _). destruct (e.1); [cbn in *; lia|done].
  - inversion H' as [|c' b' o'' _ Ho|e b' o'' He _ _ Hb]; subst.
    + f_equal. by apply IH.
    + exfalso. specialize (Hn e He). apply not_true_iff_false in Hn. apply Hn, is_prefix_spec. by exists b'.
  - destruct (emoticon_ok e He) as ([Hl _] & _).
    inversion H' as [Hb|c' b' o'' Hn _ Hb|e' b' o'' He' Hmax' Ho Hb]; subst.
    + exfalso. destruct (e.1); [cbn in Hl; lia|done].
    + exfalso. specialize (Hn e He). apply not_true_iff_false in Hn. apply Hn, is_prefix_spec. by exists b.
    + assert (E1 : is_prefix e.1 (e'.1 ++ b') = true) by (apply is_prefix_spec; by exists b).
      assert (E2 : is_prefix e'.1 (e.1 ++ b) = true) by (apply is_prefix_spec; by exists b').
      pose proof (Hmax' e He E1). pose proof (Hmax e' He' E2).
      assert (Hlen : length e.1 = length e'.1) by (unfold len in *; lia).
      apply app_inj_1 in Hb as [Hp ->]; [|done].
      assert (e = e') as <-.
      { apply list_elem_of_lookup in He as [i Hi], He' as [j Hj].
        assert (i = j) as ->; [|congruence].
        apply (NoDup_lookup _ i j e.1 emoticons_distinct); rewrite list_lookup_fmap; [by rewrite Hi|rewrite Hj; cbn; by rewrite Hp]. }
      f_equal. by apply IH.
Qed.

(** No emoticon is left over or made. *)
Lemma emoji_ascii_prefix p : forall b o, Forall (fun c => 0 < c < 128) p -> emoji_of b o -> is_prefix p o = true -> is_prefix p b = true.
Proof.
  induction p as [|x p IH]; intros b o Hp H Hpre; [done|]. apply Forall_cons in Hp as [Hx Hp].
  inversion H as [|c b' o' _ Ho|e b' o' He _ _]; subst; [done| |].
  - cbn in Hpre |- *. apply andb_true_iff in Hpre as [-> Hpre]. cbn. by apply (IH b' o').
  - exfalso. destruct (emoticon_ok e He) as (_ & Hu & _ & Hb). destruct (e.2) as [|y u]; [done|]. apply Forall_cons in Hb as [Hy _].
    cbn in Hpre. lia.
Qed.

Lemma emoji_high u o : Forall (fun c => 128 <= c) u -> emoji_of o o -> emoji_of (u ++ o) (u ++ o).
Proof.
  intros Hu Ho. induction Hu as [|y u Hy _ IH]; [done|]. cbn [app]. constructor; [|done].
  intros e He. apply not_true_iff_false. intros H. destruct (emoticon_ok e He) as ([? _] & _ & Ha & _).
  destruct (e.1) as [|x p]; [cbn in *; lia|]. apply Forall_cons in Ha as [Ha _]. cbn in H. lia.
Qed.

Lemma emoji_of_idempotent b o : emoji_of b o -> emoji_of o o.
Proof.
  induction 1 as [|c b o Hn H IH|e b o He _ H IH]; [constructor| |].
  - constructor; [|done]. intros e He. specialize (Hn e He). apply not_true_iff_false in Hn. apply not_true_iff_false. intros Hp.
    apply Hn. destruct (emoticon_ok e He) as ([? _] & _ & Ha & _). destruct (e.1) as [|x p]; [cbn in *; lia|].
    apply Forall_cons in Ha as [_ Ha]. cbn in Hp |- *. apply andb_true_iff in Hp as [-> Hp]. cbn. by apply (emoji_ascii_prefix p b o).
  - apply emoji_high; [|done]. by destruct (emoticon_ok e He) as (_ & _ & _ & ?).
Qed.

(** C32: The substitution on send replaces every leftmost longest emoticon and
    nothing else: the result is the only one that does, cut to the buffer; a
    second pass would change nothing. *)
Theorem emotify_exact cap b : len b <= TOX_MAX_MESSAGE_LENGTH ->
  exists o, emotify cap b = snprintf_s cap o /\ emoji_of b o /\ (forall o', emoji_of b o' -> o' = o) /\ emoji_of o o.
Proof.
  intros Hl. unfold TOX_MAX_MESSAGE_LENGTH in Hl. destruct (emotify_loop_spec (length b) b []) as (o & E & Ho & _); [done|..].
  { change (len []) with 0. change EMOTIFY_OUT with 5496. lia. }
  exists o. unfold emotify. rewrite E. split_conj; [done|done| |by eapply emoji_of_idempotent].
  intros o' H'. by eapply emoji_of_unique.
Qed.

(** ** Across restarts *)

Section disk.
Context {K : PassKey} {L : PassKeyLaws K}.

(** A chat with a known identity whose transcript came from lines. *)
Definition logged (c : chat) : Prop :=
  exists es, transcript c = log es /\ Forall entry_ok es /\ es <> [] /\ len (transcript c) < TT_TRANSCRIPT_MAX /\
    hist_key c <> [] /\ ~ In 0 (hist_key c).

Lemma log_no_nul es : Forall entry_ok es -> ~ In 0 (log es).
Proof.
  induction 1 as [|e es He _ IH]; [by intros []|]. unfold log. cbn [fmap list_fmap concat].
  apply in_app_not; [by apply entry_line_no_nul|done].
Qed.

Lemma hist_find_chat chats c : NoDup (hist_key <$> chats) -> Forall logged chats -> c ∈ chats ->
  hist_find (hist_entries chats) (hist_key c) = Some (transcript c).
Proof.
  induction chats as [|d chats IH]; intros Hn Hl Hc; [by apply elem_of_nil in Hc|].
  apply NoDup_cons in Hn as [Hd Hn]. apply Forall_cons in Hl as [(es & Ht & Hes & Hne & Hlt & Hk & Hkz) Hl].
  assert (Hlk : 0 < len (hist_key d)) by (destruct (hist_key d); [done|rewrite len_cons; pose proof (len_nonneg l); lia]).
  assert (Hlt' : 0 < len (transcript d)).
  { rewrite Ht. destruct es as [|e es]; [done|]. rewrite log_cons, len_app, len_cons.
    pose proof (len_nonneg (entry_body e)). pose proof (len_nonneg (log es)). lia. }
  assert (Htz : cstr (transcript d) = transcript d) by (rewrite Ht; apply cstr_no_nul; by apply log_no_nul).
  unfold hist_entries. cbn [omap list_omap]. unfold chat_hist_key. replace (len (hist_key d) =? 0) with false by lia.
  replace (len (transcript d) =? 0) with false by lia. cbn [hist_find]. rewrite Htz, (cstr_no_nul (hist_key d)) by done.
  replace (0 <? len (hist_key d)) with true by lia. replace (0 <? len (transcript d)) with true by lia. rewrite !andb_true_r.
  apply elem_of_cons in Hc as [->|Hc]; [by rewrite cstr_no_nul, bool_decide_true|].
  pose proof Hl as Hl'. rewrite Forall_forall in Hl'. destruct (Hl' c Hc) as (_ & _ & _ & _ & _ & _ & Hz).
  rewrite bool_decide_false; [by apply IH|]. rewrite cstr_no_nul by done. intros E. apply Hd. rewrite E.
  apply list_elem_of_fmap. by exists c.
Qed.

Lemma last_line_log es : Forall entry_ok es -> last_line (log es) = [].
Proof.
  intros H. assert (Hg : forall t, (t = [] \/ exists a, t = a ++ [NL]) -> last_line t = []).
  { induction t as [|c t IH]; intros Ht; [done|]. destruct Ht as [|[a Ha]]; [done|].
    assert (Hs : exists p, strchr NL (c :: t) = Some p).
    { rewrite Ha. clear. induction a as [|x a [p IH]]; [by eexists|]. cbn [app strchr]. destruct (x =? NL); [by eexists|].
      rewrite IH. destruct p. by eexists. }
    destruct Hs as [p Hs]. cbn [last_line]. rewrite Hs. apply IH. destruct a as [|x a]; [injection Ha as _ ->; by left|].
    injection Ha as _ ->. right. by exists a. }
  apply Hg. destruct es as [|e es _] using rev_ind; [by left|]. right. exists (log es ++ entry_body e).
  rewrite log_app. unfold log at 2. cbn. by rewrite app_nil_r, entry_line_body, app_assoc.
Qed.

End disk.

(** ** Examples *)

(** A greeting of a friend, a system line and our answer. *)
Definition sample_lines : list entry :=
  [mkEntry (ascii_bytes "12:00") (ascii_bytes "bob") 0 (ascii_bytes "hi");
   mkEntry (ascii_bytes "12:01") (ascii_bytes "bob") 2 (ascii_bytes "* bob waves");
   mkEntry (ascii_bytes "12:02") (ascii_bytes "you") 1 (ascii_bytes "hello")].

Definition no_byte (x : Z) (l : bytes) : bool := bool_decide (x ∉ l).
Definition entry_okb (e : entry) : bool :=
  forallb (fun f => no_byte NL f && no_byte US f && no_byte 0 f) [e_stamp e; e_who e] &&
  no_byte NL (e_text e) && no_byte 0 (e_text e) && (len (entry_line e) <=? 4096).
Lemma entry_okb_ok es : forallb entry_okb es = true -> Forall entry_ok es.
Proof.
  intros H. apply Forall_forall. intros e He. rewrite forallb_forall in H. apply list_elem_of_In in He. apply H in He.
  unfold entry_okb, no_byte in He. cbn [forallb] in He. rewrite !andb_true_iff, !bool_decide_eq_true, !list_elem_of_In in He.
  destruct He as ((((((? & ?) & ?) & (((? & ?) & ?) & _)) & ?) & ?) & ?). constructor; split_conj; try done. lia.
Qed.

Lemma transcript_is_log_witness :
  let t := fold_left append_entry sample_lines [] in
  exists k, hist_render t = reshown <$> drop k sample_lines /\ len t < TT_TRANSCRIPT_MAX /\
    (sample_lines <> [] -> k < length sample_lines)%nat /\ (len (log sample_lines) + 3 < TT_TRANSCRIPT_MAX -> k = 0%nat).
Proof. apply (transcript_is_log sample_lines). apply entry_okb_ok. vm_compute. reflexivity. Defined.

Lemma friend_forges_our_lines_witness :
  let fake := mkEntry (ascii_bytes "12:00") (ascii_bytes "you") 1 (ascii_bytes "I agree") in
  let e := mkEntry (ascii_bytes "12:03") (ascii_bytes "bob") 0 (ascii_bytes "deal?") in
  hist_render (transcript_append (e_stamp e) (e_who e) 0 (e_text e ++ NL :: entry_body fake) (log sample_lines)) =
    (reshown <$> sample_lines) ++ [ShownMsg false (e_who e) (e_stamp e) (e_text e);
                                   ShownMsg true (e_who fake) (e_stamp fake) (e_text fake)].
Proof.
  intros fake e.
  assert (H : forallb entry_okb [e; fake] = true) by (vm_compute; reflexivity).
  apply entry_okb_ok in H. apply Forall_cons in H as [He [Hf _]%Forall_cons].
  assert (Hs : Forall entry_ok sample_lines) by (apply entry_okb_ok; vm_compute; reflexivity).
  assert (Hfit : len (log sample_lines) + len (entry_line e) + len (entry_line fake) + 3 < TT_TRANSCRIPT_MAX)
    by (vm_compute; reflexivity).
  exact (proj2 (friend_forges_our_lines sample_lines e fake Hs He Hf eq_refl ltac:(discriminate) Hfit)).
Defined.

Lemma emotify_exact_witness :
  exists o, emotify 1373 (ascii_bytes "ok :-) >:( x<3") = snprintf_s 1373 o /\ emoji_of (ascii_bytes "ok :-) >:( x<3") o /\
    (forall o', emoji_of (ascii_bytes "ok :-) >:( x<3") o' -> o' = o) /\ emoji_of o o.
Proof. apply (emotify_exact 1373). vm_compute. discriminate. Defined.

Definition sample_chats : list chat :=
  [mkChat (ascii_bytes "aa") (log sample_lines) []; mkChat (ascii_bytes "bb") (log (take 1 sample_lines)) []].
Lemma sample_chats_logged : Forall logged sample_chats.
Proof.
  apply Forall_forall. intros c Hc.
  repeat (apply elem_of_cons in Hc as [->|Hc]); [..|by apply elem_of_nil in Hc]; eexists; (split_conj; [reflexivity|..]);
    try (apply entry_okb_ok; vm_compute; reflexivity); try discriminate; try (vm_compute; reflexivity); vm_compute; intuition discriminate.
Qed.

