(* ===== verification/TunnelPorts.v ===== *)
(** * TunnelPorts: sets of port ranges ([src/tunnel.h])

    The inline functions of the header.  A [TTPortRangeList] is the list of the
    ranges in use. *)
From S2P Require Import Prelude CText.

Definition TT_TUNNEL_MAX_RANGES : nat := 8.
Definition TT_TUNNEL_MAX_PORTS : Z := 32.

Record TTPortRange := mkRange { start : Z; count : Z }.
Abbreviation TTPortRangeList := (list TTPortRange).

Fixpoint tt_port_list_len (l : TTPortRangeList) : Z :=
  match l with [] => 0 | r :: l => count r + tt_port_list_len l end.

Fixpoint tt_port_list_port (l : TTPortRangeList) (idx : Z) : Z :=
  match l with
  | [] => 0
  | r :: l => if idx <? count r then u16 (start r + idx) else tt_port_list_port l (idx - count r)
  end.

Definition tt_port_list_empty (l : TTPortRangeList) : bool :=
  bool_decide (l = []) || (tt_port_list_len l =? 0).

Definition range_text (r : TTPortRange) : bytes :=
  if 1 <? count r then dec (start r) ++ [45] ++ dec (start r + count r - 1) else dec (start r).

(** The loop of [tt_port_list_to_str]; [out] is the text so far.  The result is
    the string left in the buffer and the return value. *)
Fixpoint to_str_loop (first : bool) (l : TTPortRangeList) (out : bytes) (cap : Z) : bytes * Z :=
  match l with
  | [] => (out, len out)
  | r :: l =>
      if negb first && (cap <=? len out + 1) then (out, len out) else
      let out := if first then out else out ++ [44] in
      let w := len (range_text r) in
      if cap - len out <=? w then (out ++ ztake (cap - len out - 1) (range_text r), len out)
      else to_str_loop false l (out ++ range_text r) cap
  end.

Definition tt_port_list_to_str (l : TTPortRangeList) (cap : Z) : bytes * Z :=
  if cap =? 0 then ([], 0) else to_str_loop true l [] cap.

(** One token of [tt_port_list_parse], as the range it denotes. *)
Definition parse_range (tok : bytes) : option (Z * Z) :=
  let '(lo, hi) := match strchr 45 tok with
                   | Some (a, b) => (atoi a, atoi b)
                   | None => (atoi tok, atoi tok)
                   end in
  if (lo <=? 0) || (hi <? lo) || (65535 <? hi) then None else Some (lo, hi).

(** The token loop: the return value so far and [*out]. *)
Fixpoint parse_loop (toks : list bytes) (out : TTPortRangeList) (total : Z) : bool * TTPortRangeList :=
  match toks with
  | [] => (negb (bool_decide (out = [])), out)
  | tok :: toks =>
      if (TT_TUNNEL_MAX_RANGES <=? length out)%nat then (false, out) else
      match parse_range tok with
      | None => (false, out)
      | Some (lo, hi) =>
          let cnt := hi - lo + 1 in
          let cnt := if TT_TUNNEL_MAX_PORTS <? total + cnt then TT_TUNNEL_MAX_PORTS - total else cnt in
          if cnt =? 0 then (false, out)
          else parse_loop toks (out ++ [mkRange lo cnt]) (total + cnt)
      end
  end.

Definition tt_port_list_parse (s : bytes) : bool * TTPortRangeList :=
  if len (cstr s) =? 0 then (false, [])
  else parse_loop (strtok 44 (snprintf_s 256 s)) [] 0.

(** ** What a list denotes *)

Definition range_ports (r : TTPortRange) : list Z :=
  (fun i => start r + Z.of_nat i) <$> seq 0 (Z.to_nat (count r)).
(** The ports in order, flattened. *)
Definition ports_of (l : TTPortRangeList) : list Z := concat (range_ports <$> l).

Definition range_ok (r : TTPortRange) : Prop :=
  0 < start r /\ 0 < count r /\ start r + count r <= 65536.

Record ports_ok (l : TTPortRangeList) : Prop := {
  po_ranges : (length l <= TT_TUNNEL_MAX_RANGES)%nat;
  po_each : Forall range_ok l;
  po_total : tt_port_list_len l <= TT_TUNNEL_MAX_PORTS }.

Lemma port_list_len_app l k : tt_port_list_len (l ++ k) = tt_port_list_len l + tt_port_list_len k.
Proof. induction l as [|r l IH]; cbn [app tt_port_list_len]; lia. Qed.

Lemma port_list_len_nonneg l : Forall range_ok l -> 0 <= tt_port_list_len l.
Proof. induction 1 as [|r l (_ & ? & _) _ IH]; cbn; lia. Qed.

Lemma ports_of_length l : Forall range_ok l -> len (ports_of l) = tt_port_list_len l.
Proof.
  induction 1 as [|r l (_ & Hc & _) _ IH]; [done|]. unfold ports_of in *. cbn [fmap list_fmap concat tt_port_list_len].
  rewrite len_app, IH. unfold range_ports, len at 1. rewrite length_fmap, length_seq. lia.
Qed.

Lemma port_list_port_lookup l : forall idx,
  Forall range_ok l -> 0 <= idx < tt_port_list_len l ->
  ports_of l !! Z.to_nat idx = Some (tt_port_list_port l idx).
Proof.
  induction l as [|r l IH]; intros idx Hok Hidx; cbn [tt_port_list_len] in Hidx; [lia|].
  apply Forall_cons in Hok as [(Hs & Hc & Hsum) Hok]. unfold ports_of in *. cbn [fmap list_fmap concat tt_port_list_port].
  assert (Hl : length (range_ports r) = Z.to_nat (count r))
    by (unfold range_ports; by rewrite length_fmap, length_seq).
  destruct (Z.ltb_spec idx (count r)).
  - rewrite lookup_app_l by lia. unfold range_ports. rewrite list_lookup_fmap, lookup_seq_lt by lia.
    cbn. f_equal. rewrite u16_small by lia. lia.
  - rewrite lookup_app_r by lia. rewrite Hl.
    replace (Z.to_nat idx - Z.to_nat (count r))%nat with (Z.to_nat (idx - count r)) by lia.
    apply IH; [done|lia].
Qed.

Lemma parse_range_ok tok lo hi : parse_range tok = Some (lo, hi) -> 0 < lo <= hi /\ hi <= 65535.
Proof.
  unfold parse_range. destruct (match strchr 45 tok with Some (a, b) => _ | None => _ end) as [a b].
  destruct (_ || _) eqn:E; [done|]. intros [= <- <-]. bool_to_prop. lia.
Qed.

Lemma parse_loop_ok toks : forall out total,
  ports_ok out -> total = tt_port_list_len out ->
  let '(ok, l) := parse_loop toks out total in
  ports_ok l /\ (ok = true -> l <> []).
Proof.
  induction toks as [|tok toks IH]; intros out total Hok Ht; cbn [parse_loop].
  { split; [done|]. intros H. apply negb_true_iff, bool_decide_eq_false in H. done. }
  destruct (Nat.leb_spec TT_TUNNEL_MAX_RANGES (length out)) as [|Hr]; [done|].
  destruct (parse_range tok) as [[lo hi]|] eqn:E; [|done]. apply parse_range_ok in E.
  pose proof Hok as [H1 H2 H3].
  set (cnt := if TT_TUNNEL_MAX_PORTS <? total + (hi - lo + 1) then _ else _).
  assert (Hc : 0 <= cnt <= hi - lo + 1 /\ total + cnt <= TT_TUNNEL_MAX_PORTS).
  { subst cnt. destruct (Z.ltb_spec TT_TUNNEL_MAX_PORTS (total + (hi - lo + 1))); lia. }
  destruct (Z.eqb_spec cnt 0); [done|]. apply IH.
  - split.
    + rewrite length_app. cbn. lia.
    + apply Forall_app. split; [done|]. repeat constructor; cbn; lia.
    + rewrite port_list_len_app. cbn. lia.
  - rewrite port_list_len_app. cbn. lia.
Qed.

(** ** Round trip *)

Lemma len_dec_port n : 0 <= n <= 65535 -> len (dec n) <= 5.
Proof.
  intros Hn. pose proof (dec_go_length 20 n 5 ltac:(lia)) as H. unfold len, dec.
  change (10 ^ Z.of_nat 5) with 100000 in H. lia.
Qed.

Section range_text.
Variable r : TTPortRange.
Hypothesis Hr : range_ok r.

Lemma range_text_len : 0 < len (range_text r) <= 11.
Proof.
  destruct Hr as (H1 & H2 & H3). pose proof (len_dec_pos (start r)). pose proof (len_dec_port (start r)).
  pose proof (len_dec_pos (start r + count r - 1)). pose proof (len_dec_port (start r + count r - 1)).
  unfold range_text. destruct (1 <? count r); [rewrite !len_app; change (len [45]) with 1|]; lia.
Qed.

Lemma range_text_no_char c : isdigit c = false -> c <> 45 -> ~ In c (range_text r).
Proof.
  intros Hd Hc. unfold range_text. pose proof (dec_no_char (start r) c Hd). pose proof (dec_no_char (start r + count r - 1) c Hd).
  destruct (1 <? count r); [|done]. intros [H1|[H1|H1]%in_app_or]%in_app_or; [done| |done]. by destruct H1 as [H1|[]].
Qed.

Lemma parse_range_text : parse_range (range_text r) = Some (start r, start r + count r - 1).
Proof.
  destruct Hr as (H1 & H2 & H3). unfold parse_range, range_text. destruct (Z.ltb_spec 1 (count r)).
  - cbn [app]. rewrite strchr_app by (by apply dec_no_char). rewrite !atoi_dec by lia.
    by replace ((start r <=? 0) || (start r + count r - 1 <? start r) || (65535 <? start r + count r - 1))
      with false by lia.
  - rewrite strchr_none by (by apply dec_no_char). rewrite !atoi_dec by lia.
    replace (start r + count r - 1) with (start r) by lia.
    by replace ((start r <=? 0) || (start r <? start r) || (65535 <? start r)) with false by lia.
Qed.
End range_text.

(** The texts of the ranges, separated by commas. *)
Fixpoint join (toks : list bytes) : bytes :=
  match toks with
  | [] => []
  | [tok] => tok
  | tok :: toks => tok ++ [44] ++ join toks
  end.

Lemma join_cons tok t toks : join (tok :: t :: toks) = tok ++ [44] ++ join (t :: toks).
Proof. done. Qed.

Lemma split_on_app tok rest : ~ In 44 tok -> split_on 44 (tok ++ 44 :: rest) = tok :: split_on 44 rest.
Proof.
  induction tok as [|c tok IH]; cbn; [done|]. intros H.
  destruct (Z.eqb_spec c 44); [naive_solver|]. rewrite IH by naive_solver. done.
Qed.
Lemma split_on_last tok : ~ In 44 tok -> split_on 44 tok = [tok].
Proof.
  induction tok as [|c tok IH]; cbn; [done|]. intros H.
  destruct (Z.eqb_spec c 44); [naive_solver|]. rewrite IH by naive_solver. done.
Qed.

Lemma split_join toks : forall tok,
  Forall (fun t => ~ In 44 t /\ t <> []) (tok :: toks) -> split_on 44 (join (tok :: toks)) = tok :: toks.
Proof.
  induction toks as [|t toks IH]; intros tok H; apply Forall_cons in H as [[Hc _] H].
  - by apply split_on_last.
  - rewrite join_cons. cbn [app]. rewrite split_on_app by done. by rewrite IH.
Qed.

Lemma strtok_join toks :
  toks <> [] -> Forall (fun t => ~ In 44 t /\ t <> []) toks -> strtok 44 (join toks) = toks.
Proof.
  intros Hne H. unfold strtok. destruct toks as [|tok toks]; [done|]. rewrite split_join by done.
  clear Hne. generalize (tok :: toks) H. clear. intros l H. induction H as [|t l [_ Ht] _ IH]; [done|].
  rewrite filter_cons_True by done. by rewrite IH.
Qed.

Lemma to_str_loop_join l : forall out cap first,
  Forall range_ok l -> (first = false -> out <> []) ->
  len out + 12 * len l < cap ->
  let s := out ++ (if first then [] else match l with [] => [] | _ => [44] end) ++ join (range_text <$> l) in
  to_str_loop first l out cap = (s, len s) /\ len s <= len out + 12 * len l.
Proof.
  induction l as [|r l IH]; intros out cap first Hok Hout Hcap s.
  { subst s. cbn [fmap list_fmap join app]. destruct first; cbn [app]; rewrite app_nil_r;
    (split; [done|change (len (@nil TTPortRange)) with 0; lia]). }
  apply Forall_cons in Hok as [Hr Hok]. pose proof (range_text_len r Hr). rewrite len_cons in *.
  pose proof (len_nonneg l). pose proof (len_nonneg out). cbn [to_str_loop].
  replace (negb first && (cap <=? len out + 1)) with false by (destruct first; cbn; lia).
  set (out' := if first then out else out ++ [44]).
  assert (Ho : len out' <= len out + 1) by (subst out'; destruct first; rewrite ?len_app; change (len [44]) with 1; lia).
  replace (cap - len out' <=? len (range_text r)) with false by lia.
  destruct (IH (out' ++ range_text r) cap false) as [Hloop Hb].
  - done.
  - intros _ Hnil. apply (f_equal len) in Hnil. rewrite len_app in Hnil. change (len []) with 0 in Hnil.
    pose proof (len_nonneg out'). lia.
  - rewrite len_app. lia.
  - assert (Hs : s = (out' ++ range_text r) ++ match l with [] => [] | _ => [44] end ++ join (range_text <$> l)).
    { subst s out'. destruct l as [|r2 l]; cbn [fmap list_fmap]; [cbn [join app]|rewrite join_cons];
        destruct first; rewrite <- ?app_assoc; cbn [app]; rewrite ?app_nil_r; done. }
    rewrite Hs, Hloop. split; [done|]. rewrite (len_app out' (range_text r)) in Hb. lia.
Qed.

Lemma parse_loop_join l : forall out total,
  ports_ok (out ++ l) -> total = tt_port_list_len out ->
  parse_loop (range_text <$> l) out total = (negb (bool_decide (out ++ l = [])), out ++ l).
Proof.
  induction l as [|r l IH]; intros out total Hok Ht; cbn [fmap list_fmap parse_loop]; [by rewrite app_nil_r|].
  pose proof Hok as [H1 H2 H3]. rewrite length_app in H1. cbn [length] in H1.
  apply Forall_app in H2 as [H2 [Hr H2']%Forall_cons]. rewrite port_list_len_app in H3. cbn [tt_port_list_len] in H3.
  pose proof (port_list_len_nonneg l H2').
  rewrite (proj2 (Nat.leb_gt _ _)) by lia. rewrite parse_range_text by done.
  destruct Hr as (Hr1 & Hr2 & Hr3). replace (start r + count r - 1 - start r + 1) with (count r) by lia.
  replace (TT_TUNNEL_MAX_PORTS <? total + count r) with false by lia.
  replace (count r =? 0) with false by lia.
  replace (mkRange (start r) (count r)) with r by (by destruct r).
  replace (out ++ r :: l) with ((out ++ [r]) ++ l) in Hok |- * by (by rewrite <- app_assoc).
  apply IH; [done|]. rewrite port_list_len_app. cbn. lia.
Qed.

Lemma join_no_char c toks : c <> 44 -> Forall (fun t => ~ In c t) toks -> ~ In c (join toks).
Proof.
  intros Hc. induction 1 as [|t toks Ht H IH]; [auto|]. destruct toks as [|t2 toks]; [done|].
  rewrite join_cons. intros [Hi|[Hi|Hi]%in_app_or]%in_app_or; [done| |done]. by destruct Hi as [Hi|[]].
Qed.
Lemma ranges_no_char c l : isdigit c = false -> c <> 45 -> c <> 44 -> ~ In c (join (range_text <$> l)).
Proof.
  intros Hd H1 H2. apply join_no_char; [done|]. apply Forall_fmap, Forall_forall. intros r _. by apply range_text_no_char.
Qed.
(** A buffer of 100 bytes holds the text of any list, whole. *)
Lemma to_str_whole l cap : ports_ok l -> 100 <= cap ->
  tt_port_list_to_str l cap = (join (range_text <$> l), len (join (range_text <$> l))) /\ len (join (range_text <$> l)) <= 96.
Proof.
  intros [H1 H2 H3] Hc. assert (0 <= len l <= 8) as Hlen by (unfold len, TT_TUNNEL_MAX_RANGES in *; lia).
  destruct (to_str_loop_join l [] cap true H2) as [Hs Hb]; [done|change (len []) with 0; lia|].
  cbn [app] in Hs, Hb. change (len []) with 0 in Hb. unfold tt_port_list_to_str. replace (cap =? 0) with false by lia. split; [done|lia].
Qed.
(** The text is read back as the list. *)
Lemma parse_join l : ports_ok l -> tt_port_list_parse (join (range_text <$> l)) = (negb (bool_decide (l = [])), l).
Proof.
  intros Hok. destruct l as [|r l]; [done|]. pose proof Hok as [_ H2 _]. destruct (to_str_whole (r :: l) 100 Hok) as [_ Hb]; [lia|].
  set (toks := range_text <$> r :: l) in *.
  assert (Forall (fun t => ~ In 44 t /\ t <> []) toks) as Htoks.
  { apply Forall_fmap. eapply Forall_impl; [exact H2|]. intros x Hx. cbn. split; [by apply range_text_no_char|].
    intros E. pose proof (range_text_len x Hx). rewrite E in *. change (len []) with 0 in *. lia. }
  assert (~ In 0 (join toks)) as Hnul by (by apply ranges_no_char).
  assert (0 < len (join toks)) as Hpos.
  { apply Forall_cons in H2 as [Hr _]. pose proof (range_text_len r Hr). subst toks. destruct l as [|r2 l]; [cbn; lia|].
    cbn [fmap list_fmap]. rewrite join_cons, len_app. match goal with |- _ < _ + len ?x => pose proof (len_nonneg x) end. lia. }
  unfold tt_port_list_parse. rewrite cstr_no_nul by done. replace (len (join toks) =? 0) with false by lia.
  unfold snprintf_s. rewrite cstr_no_nul, ztake_all by (done || lia).
  rewrite strtok_join by done. by apply (parse_loop_join (r :: l) [] 0).
Qed.

(** A port list survives its text form: whatever list of non-empty ranges
    fits the limits, [tt_port_list_parse] reads back exactly the string that
    [tt_port_list_to_str] writes into a 256-byte buffer, which holds it whole. *)
Theorem port_list_roundtrip l :
  ports_ok l -> l <> [] ->
  let '(s, n) := tt_port_list_to_str l 256 in
  n = len s /\ n < 100 /\ tt_port_list_parse s = (true, l).
Proof.
  intros Hok Hne. destruct (to_str_whole l 256 Hok) as [-> Hb]; [lia|]. split; [done|]. split; [lia|].
  rewrite parse_join by done. by rewrite bool_decide_false.
Qed.

Lemma port_list_roundtrip_witness :
  let l := [mkRange 2300 11; mkRange 80 1] in
  let '(s, n) := tt_port_list_to_str l 256 in
  n = len s /\ n < 100 /\ tt_port_list_parse s = (true, l).
Proof.
  apply (port_list_roundtrip [mkRange 2300 11; mkRange 80 1]); [|done].
  split; [cbv; lia| |done].
  constructor; [|constructor; [|constructor]]; unfold range_ok; cbn; lia.
Defined.

(** Whatever text is parsed, the resulting list fits its limits: at most 8
    ranges, each non-empty and within 1 to 65535, at most 32 ports together, and
    not empty on success; and on such a list the flattened index used on the
    wire names exactly the ports of the list in order, 0 past the end. *)
Theorem port_list_parse_bounds s :
  let '(ok, l) := tt_port_list_parse s in
  ports_ok l /\ (ok = true -> l <> []) /\ len (ports_of l) = tt_port_list_len l /\
  (forall idx, 0 <= idx < tt_port_list_len l ->
     ports_of l !! Z.to_nat idx = Some (tt_port_list_port l idx) /\ 0 < tt_port_list_port l idx < 65536) /\
  forall idx, tt_port_list_len l <= idx -> tt_port_list_port l idx = 0.
Proof.
  assert (H : let '(ok, l) := tt_port_list_parse s in ports_ok l /\ (ok = true -> l <> [])).
  { assert (Hnil : ports_ok []) by (split; [cbv; lia|constructor|done]).
    unfold tt_port_list_parse. destruct (_ =? 0); [done|]. by apply parse_loop_ok. }
  destruct (tt_port_list_parse s) as [ok l]. destruct H as [Hok Hne]. pose proof Hok as [_ H2 _].
  split; [done|]. split; [done|]. split; [by apply ports_of_length|]. split.
  - intros idx Hidx. pose proof (port_list_port_lookup l idx H2 Hidx) as Hl. split; [done|].
    apply list_elem_of_lookup_2 in Hl. unfold ports_of in Hl. apply list_elem_of_In, in_concat in Hl as (ps & Hps & Hp).
    apply list_elem_of_In, list_elem_of_fmap in Hps as (r & -> & Hr).
    rewrite Forall_forall in H2. destruct (H2 r Hr) as (Ha & Hb & Hc).
    apply list_elem_of_In, list_elem_of_fmap in Hp as (i & -> & Hi). apply elem_of_seq in Hi. lia.
  - clear Hne Hok. induction H2 as [|r l (Ha & Hb & Hc) Hl IH]; [done|]. intros idx Hidx.
    cbn [tt_port_list_len tt_port_list_port] in *.
    pose proof (port_list_len_nonneg l Hl).
    replace (idx <? count r) with false by lia. apply IH. lia.
Qed.
