(* ===== verification/Linked.v ===== *)
(** * Linked: singly linked lists of structs

    The UI keeps contacts, groups and members in linked lists that are searched
    from the head, appended to at the tail, changed in place and unlinked.  Such
    a list is a list of records; a pointer into it is the first entry a
    predicate selects. *)
From S2P Require Import Prelude.

Section linked.
Context {A : Type}.
Implicit Types (l : list A) (p q : A -> bool) (f : A -> A).

(** The first entry [p] selects. *)
Fixpoint find_first p l : option A :=
  match l with
  | [] => None
  | a :: l => if p a then Some a else find_first p l
  end.
(** Changed through that pointer. *)
Fixpoint upd_first p f l : list A :=
  match l with
  | [] => []
  | a :: l => if p a then f a :: l else a :: upd_first p f l
  end.
(** Unlinked. *)
Fixpoint del_first p l : list A :=
  match l with
  | [] => []
  | a :: l => if p a then l else a :: del_first p l
  end.
(** Found, or else appended. *)
Definition ensure p (new : A) l : list A := if find_first p l then l else l ++ [new].

Lemma find_first_some p l a : find_first p l = Some a -> a ∈ l /\ p a = true.
Proof.
  induction l as [|b l IH]; [done|]. cbn. destruct (p b) eqn:E; [intros [= <-]; split; [by left|done]|].
  intros H. destruct (IH H). split; [by right|done].
Qed.
Lemma find_first_none p l : find_first p l = None <-> forall a, a ∈ l -> p a = false.
Proof.
  induction l as [|b l IH]; cbn.
  - split; [|done]. intros _ a Ha. by apply elem_of_nil in Ha.
  - destruct (p b) eqn:E.
    + split; [done|]. intros H. rewrite H in E; [done|by left].
    + rewrite IH. split; [intros H a [->|Ha]%elem_of_cons; [done|by apply H]|intros H a Ha; apply H; by right].
Qed.
Lemma find_first_app p l k : find_first p (l ++ k) = match find_first p l with Some a => Some a | None => find_first p k end.
Proof. induction l as [|b l IH]; [done|]. cbn. by destruct (p b). Qed.

Lemma upd_first_none p f l : find_first p l = None -> upd_first p f l = l.
Proof. induction l as [|b l IH]; [done|]. cbn. destruct (p b); [done|]. intros H. by rewrite IH. Qed.

(** What a search finds after an update of another entry, or of the same one. *)
Lemma find_upd_ne p q f l : (forall a, p a = true -> q a = false /\ q (f a) = false) ->
  find_first q (upd_first p f l) = find_first q l.
Proof.
  intros H. induction l as [|b l IH]; [done|]. cbn. destruct (p b) eqn:E; cbn.
  - destruct (H b E) as [-> ->]. done.
  - by rewrite IH.
Qed.
Lemma find_upd_eq p f l : (forall a, p a = true -> p (f a) = true) -> find_first p (upd_first p f l) = f <$> find_first p l.
Proof.
  intros H. induction l as [|b l IH]; [done|]. cbn. destruct (p b) eqn:E; cbn; [by rewrite (H b E)|by rewrite E].
Qed.
Lemma find_del_ne p q l : (forall a, p a = true -> q a = false) -> find_first q (del_first p l) = find_first q l.
Proof.
  intros H. induction l as [|b l IH]; [done|]. cbn. destruct (p b) eqn:E; cbn; [by rewrite (H b E)|by rewrite IH].
Qed.

(** A field no update changes stays the same along the list. *)
Lemma upd_first_fmap {B} (g : A -> B) p f l : (forall a, g (f a) = g a) -> g <$> upd_first p f l = g <$> l.
Proof.
  intros H. induction l as [|b l IH]; [done|]. cbn. destruct (p b); cbn; [by rewrite H|by rewrite IH].
Qed.
Lemma upd_first_forall (P : A -> Prop) p f l : (forall a, P a -> P (f a)) -> Forall P l -> Forall P (upd_first p f l).
Proof.
  intros H. induction 1 as [|b l Hb Hl IH]; [constructor|]. cbn. destruct (p b); constructor; auto.
Qed.
Lemma del_first_sublist p l : sublist (del_first p l) l.
Proof. induction l as [|b l IH]; [constructor|]. cbn. destruct (p b); [by constructor|by apply sublist_skip]. Qed.
Lemma del_first_forall (P : A -> Prop) p l : Forall P l -> Forall P (del_first p l).
Proof. induction 1 as [|b l Hb Hl IH]; [constructor|]. cbn. destruct (p b); [done|by constructor]. Qed.
Lemma ensure_forall (P : A -> Prop) p new l : P new -> Forall P l -> Forall P (ensure p new l).
Proof. intros Hn Hl. unfold ensure. destruct (find_first p l); [done|]. apply Forall_app. split; [done|by apply Forall_singleton]. Qed.
Lemma find_ensure p new l : p new = true -> find_first p (ensure p new l) = Some (default new (find_first p l)).
Proof.
  intros Hn. unfold ensure. destruct (find_first p l) eqn:E; [by rewrite E|]. rewrite find_first_app, E. cbn. by rewrite Hn.
Qed.
Lemma find_ensure_ne p q new l : q new = false -> find_first q (ensure p new l) = find_first q l.
Proof.
  intros Hn. unfold ensure. destruct (find_first p l); [done|]. rewrite find_first_app. cbn. rewrite Hn. by destruct (find_first q l).
Qed.
End linked.
