(* ===== verification/Events.v ===== *)
(** * Events: the types of events and commands ([tox_thread.h])

    The part of [TTEventType] and [TTCommandType] that contacts, groups, chess and
    tunnels use. *)
From S2P Require Import Prelude CText EventQueue.

Inductive TTEventType :=
| TT_EV_TOXID | TT_EV_SELF_CONNECTION | TT_EV_SELF_NAME | TT_EV_SELF_STATUS_MSG | TT_EV_SELF_STATUS
| TT_EV_FRIEND_NAME | TT_EV_FRIEND_MESSAGE | TT_EV_FRIEND_CONNECTION | TT_EV_FRIEND_STATUS_MSG | TT_EV_FRIEND_STATUS
| TT_EV_FRIEND_PUBKEY | TT_EV_FRIEND_LAST_ONLINE | TT_EV_FRIEND_REQUEST | TT_EV_FRIEND_LIST_END
| TT_EV_FILE_OFFER | TT_EV_FILE_RESUMED | TT_EV_FILE_PROGRESS | TT_EV_FILE_DONE | TT_EV_FILE_FAILED | TT_EV_FILE_TX_STARTED
| TT_EV_GROUP_NEW | TT_EV_GROUP_JOINED | TT_EV_GROUP_LEFT | TT_EV_GROUP_MSG | TT_EV_GROUP_PRIV_MSG | TT_EV_GROUP_TOPIC
| TT_EV_GROUP_PEER_JOIN | TT_EV_GROUP_PEER_EXIT | TT_EV_GROUP_PEER_NAME | TT_EV_GROUP_PEER_STATUS | TT_EV_GROUP_PEER_ROLE
| TT_EV_GROUP_INVITE | TT_EV_GROUP_MOD | TT_EV_GROUP_STATE | TT_EV_GROUP_JOIN_FAIL | TT_EV_GROUP_MOD_SELF | TT_EV_GROUP_IGNORE_SELF
| TT_EV_OFFLINE_FLUSHED | TT_EV_FRIEND_TYPING | TT_EV_FRIEND_READ_RECEIPT | TT_EV_MESSAGE_SENT | TT_EV_TOR_MODE
| TT_EV_AV_INCOMING | TT_EV_AV_STATE | TT_EV_AV_ENDED
| TT_EV_E2EE_STATE | TT_EV_E2EE_WARN | TT_EV_E2EE_ENFORCE
| TT_EV_CHESS_INVITE | TT_EV_CHESS_START | TT_EV_CHESS_MOVE | TT_EV_CHESS_END
| TT_EV_TUNNEL_INVITE | TT_EV_TUNNEL_STATE | TT_EV_TUNNEL_REMOVE | TT_EV_TUNNEL_ADD | TT_EV_TUNNEL_ERROR | TT_EV_TUNNEL_E2EE
| TT_EV_SHUTDOWN.

Inductive TTCommandType :=
| TT_CMD_ADD_FRIEND | TT_CMD_ACCEPT_FRIEND | TT_CMD_DELETE_FRIEND | TT_CMD_SEND_MESSAGE | TT_CMD_SET_NAME | TT_CMD_SET_STATUS
| TT_CMD_SEND_FILE | TT_CMD_FILE_ACCEPT | TT_CMD_FILE_REJECT | TT_CMD_FILE_CANCEL | TT_CMD_SET_TYPING | TT_CMD_E2EE_ENFORCE
| TT_CMD_GROUP_CREATE | TT_CMD_GROUP_JOIN | TT_CMD_GROUP_LEAVE | TT_CMD_GROUP_SEND | TT_CMD_GROUP_PRIV_SEND | TT_CMD_GROUP_TOPIC
| TT_CMD_GROUP_INVITE | TT_CMD_GROUP_INVITE_ACC | TT_CMD_GROUP_INVITE_DEC | TT_CMD_GROUP_PASSWORD | TT_CMD_GROUP_PRIVACY
| TT_CMD_GROUP_VOICE | TT_CMD_GROUP_TOPIC_LOCK | TT_CMD_GROUP_PEER_LIMIT | TT_CMD_GROUP_ROLE | TT_CMD_GROUP_KICK
| TT_CMD_GROUP_IGNORE | TT_CMD_GROUP_SYNC
| TT_CMD_CHESS_INVITE | TT_CMD_CHESS_ACCEPT | TT_CMD_CHESS_DECLINE | TT_CMD_CHESS_MOVE | TT_CMD_CHESS_RESIGN
| TT_CMD_TUNNEL_SHARE | TT_CMD_TUNNEL_ACCEPT | TT_CMD_TUNNEL_DECLINE | TT_CMD_TUNNEL_STOP.

Abbreviation event := (TTEvent TTEventType).
Abbreviation command := (TTEvent TTCommandType).

Definition TT_MOD_EV_FAIL_BASE : Z := 100.

(** ** toxcore's enumerations, as its documentation numbers them *)

Definition TOX_CONNECTION_NONE : Z := 0.
Definition TOX_MESSAGE_TYPE_NORMAL : Z := 0.
Definition TOX_MESSAGE_TYPE_ACTION : Z := 1.
Definition TOX_GROUP_ROLE_FOUNDER : Z := 0.
Definition TOX_GROUP_ROLE_MODERATOR : Z := 1.
Definition TOX_GROUP_ROLE_USER : Z := 2.
Definition TOX_GROUP_ROLE_OBSERVER : Z := 3.
Definition TOX_GROUP_MOD_EVENT_KICK : Z := 0.
Definition TOX_GROUP_MOD_EVENT_OBSERVER : Z := 1.
Definition TOX_GROUP_MOD_EVENT_USER : Z := 2.
Definition TOX_GROUP_MOD_EVENT_MODERATOR : Z := 3.
Definition TOX_GROUP_PRIVACY_STATE_PUBLIC : Z := 0.
Definition TOX_GROUP_PRIVACY_STATE_PRIVATE : Z := 1.
Definition TOX_GROUP_VOICE_STATE_ALL : Z := 0.
Definition TOX_GROUP_VOICE_STATE_FOUNDER : Z := 2.
Definition TOX_GROUP_TOPIC_LOCK_ENABLED : Z := 0.
Definition TOX_GROUP_TOPIC_LOCK_DISABLED : Z := 1.
Definition TOX_GROUP_MAX_GROUP_NAME_LENGTH : Z := 48.
Definition TOX_GROUP_MAX_TOPIC_LENGTH : Z := 512.
Definition TOX_GROUP_MAX_MESSAGE_LENGTH : Z := 1372.
Definition TOX_GROUP_MAX_PASSWORD_SIZE : Z := 32.
Definition TOX_GROUP_CHAT_ID_SIZE : Z := 32.
Definition TOX_MAX_NAME_LENGTH : Z := 128.
Definition TOX_MAX_STATUS_MESSAGE_LENGTH : Z := 1007.
Definition TOX_MAX_FILENAME_LENGTH : Z := 255.
