(* ===== verification/UiState.v ===== *)
(** * UiState: what the Tk interface keeps ([ui/ui_tk.c])

    Contacts, groups and their members in linked lists, the selection, the
    commands posted to the tox thread and what the history widget shows.  The
    other widgets only render this state and are left out.  A [char] array that
    is read as a C string is the string it holds; the time of day and the clock
    are arguments; allocation succeeds. *)
From S2P Require Import Prelude CText TunnelPorts Chess Sidecar History Transcript EventQueue Events Linked.

(** ** Data *)

(** The call fields of a [Contact]. *)
Record call := mkCall {
  call_state : Z; call_incoming : bool; call_active : bool; call_muted : bool; call_deaf : bool;
  call_video : bool; call_cam : bool; call_started : Z; call_paused_self : bool; call_ringing : bool }.
(** The transfer fields of a [Contact]. *)
Record transfer := mkTransfer {
  offer_pending : bool; offer_id : Z; offer_size : Z; offer_name : bytes;
  xfer_me : bool; xfer_name : bytes; xfer_running : bool; xfer_run_id : Z }.
(** [c_chat] is [pubkey_hex], [transcript] and [last]. *)
Record Contact := mkContact {
  fn : Z; is_request : bool; c_name : bytes; status_msg : bytes; key_hex : bytes; c_chat : chat;
  last_online : Z; conn : Z; presence : Z; unread : Z; c_xfer : transfer; last_mid : Z; last_read : Z;
  peer_typing : bool; c_call : call; e2ee : bool; e2ee_code : bytes; e2ee_required : bool }.

Record GroupMember := mkMember { pid : Z; m_name : bytes; role : Z; ignored : bool; announce : bool }.
(** [g_chat] is [chat_id_hex], [transcript] and [last]. *)
Record Group := mkGroup {
  gn : Z; g_name : bytes; topic : bytes; g_chat : chat; self_role : Z; self_pid : Z; privacy : Z; voice : Z;
  topic_lock : Z; peer_limit : Z; g_unread : Z; members : list GroupMember }.

Inductive SelKind := TT_SEL_NONE | TT_SEL_REQUEST | TT_SEL_CHAT | TT_SEL_GROUP.
#[export] Instance sel_kind_eq_dec : EqDecision SelKind.
Proof. solve_decision. Defined.

(** The canvas of the board: the colour of each square with the piece and the
    piece's colour, the square marked, and the line below. *)
Record drawing := mkDrawing { d_squares : list (bytes * option (bytes * bytes)); d_sel : option (Z * Z); d_status : bytes }.
(** The chess fields; then the windows [.chess], [.chessinv] and [.chessend]. *)
Record ChessUi := mkChessUi {
  chess_fn : Z; chess_board : TTChess; chess_self : TTColor; chess_started : bool; chess_my_turn : bool;
  chess_sel_rank : Z; chess_sel_file : Z; chess_dragging : bool; chess_invite_open : bool;
  chess_win : option drawing; chess_inv : option bytes; chess_over : option bytes }.

Record TTTunnelUI := mkTunnelUI { tn_id : Z; tn_host : bool; tn_pending : bool; tn_e2ee : bool; tn_peer : Z; endpoint : bytes }.
(** A row of the tunnel panel: its title and the friend below. *)
Record tun_row := mkRow { r_title : bytes; r_with : option bytes; r_stop : Z }.
(** The tunnel fields; then the rows of the panel, the label of the invitation
    and the errors shown. *)
Record TunUi := mkTunUi {
  tun_panel_open : bool; tun_share_open : bool; tun_invite_open : bool; tun_invite_fn : Z;
  tun_invite_udp : TTPortRangeList; tun_invite_tcp : TTPortRangeList; tun_invite_host : bytes; tunnels : list TTTunnelUI;
  tun_rows : list tun_row; tun_inv : option bytes; tun_errors : list bytes }.

(** [window] is the history widget, [posted] the commands so far; [offer_open]
    are the two labels of the file dialog, [invite_open] the label of the
    invitation dialog and the index its buttons carry, when they are open. *)
Record Ui := mkUi {
  contacts : list Contact; groups : list Group; sel_kind : SelKind; sel_fn : Z;
  typing_fn : Z; typing_sent : bool; typing_last : Z; typing_idle_sched : bool;
  self_name : bytes; self_status_msg : bytes; self_presence : Z; self_conn : Z; tor_mode : bool;
  my_toxid : bytes; u_filter : bytes; ready : bool; history : bool; offer_open : option (bytes * bytes); invite_open : option (bytes * Z);
  chess : ChessUi; tun : TunUi; quitting : bool; window : list shown; posted : list command }.

#[export] Instance eta_call : EtaRecord call := fun c =>
  mkCall (call_state c) (call_incoming c) (call_active c) (call_muted c) (call_deaf c) (call_video c) (call_cam c)
    (call_started c) (call_paused_self c) (call_ringing c).
#[export] Instance eta_transfer : EtaRecord transfer := fun x =>
  mkTransfer (offer_pending x) (offer_id x) (offer_size x) (offer_name x) (xfer_me x) (xfer_name x) (xfer_running x) (xfer_run_id x).
#[export] Instance eta_contact : EtaRecord Contact := fun c =>
  mkContact (fn c) (is_request c) (c_name c) (status_msg c) (key_hex c) (c_chat c) (last_online c) (conn c) (presence c)
    (unread c) (c_xfer c) (last_mid c) (last_read c) (peer_typing c) (c_call c) (e2ee c) (e2ee_code c) (e2ee_required c).
#[export] Instance eta_member : EtaRecord GroupMember := fun m =>
  mkMember (pid m) (m_name m) (role m) (ignored m) (announce m).
#[export] Instance eta_group : EtaRecord Group := fun g =>
  mkGroup (gn g) (g_name g) (topic g) (g_chat g) (self_role g) (self_pid g) (privacy g) (voice g) (topic_lock g)
    (peer_limit g) (g_unread g) (members g).
#[export] Instance eta_chess_ui : EtaRecord ChessUi := fun c =>
  mkChessUi (chess_fn c) (chess_board c) (chess_self c) (chess_started c) (chess_my_turn c) (chess_sel_rank c) (chess_sel_file c)
    (chess_dragging c) (chess_invite_open c) (chess_win c) (chess_inv c) (chess_over c).
#[export] Instance eta_tunnel_ui : EtaRecord TTTunnelUI := fun t =>
  mkTunnelUI (tn_id t) (tn_host t) (tn_pending t) (tn_e2ee t) (tn_peer t) (endpoint t).
#[export] Instance eta_tun_ui : EtaRecord TunUi := fun t =>
  mkTunUi (tun_panel_open t) (tun_share_open t) (tun_invite_open t) (tun_invite_fn t) (tun_invite_udp t) (tun_invite_tcp t)
    (tun_invite_host t) (tunnels t) (tun_rows t) (tun_inv t) (tun_errors t).
#[export] Instance eta_ui : EtaRecord Ui := fun u =>
  mkUi (contacts u) (groups u) (sel_kind u) (sel_fn u) (typing_fn u) (typing_sent u) (typing_last u) (typing_idle_sched u)
    (self_name u) (self_status_msg u) (self_presence u) (self_conn u) (tor_mode u) (my_toxid u) (u_filter u) (ready u)
    (history u) (offer_open u) (invite_open u) (chess u) (tun u) (quitting u) (window u) (posted u).

(** What [calloc] gives. *)
Definition no_chat : chat := mkChat [] [] [].
Definition no_call : call := mkCall 0 false false false false false false 0 false false.
Definition no_transfer : transfer := mkTransfer false 0 0 [] false [] false 0.

(** The zeroed chess and tunnel fields: friend 0 stands in for none. *)
Definition no_chess : ChessUi :=
  mkChessUi 0 (mkChess (replicate 64 no_piece) TT_COLOR_WHITE false false false false 0 TT_CHESS_PLAYING TT_COLOR_WHITE)
    TT_COLOR_WHITE false false 0 0 false false None None None.
Definition no_tunnels : TunUi := mkTunUi false false false 0 [] [] [] [] [] None [].

(** [ui_run] before the first event. *)
Definition ui_init (history : bool) : Ui :=
  mkUi [] [] TT_SEL_NONE 0 UINT32_MAX false 0 false [] [] 0 TOX_CONNECTION_NONE false [] [] false history None None no_chess no_tunnels false [] [].

(** [memcpy] of at most [cap - 1] bytes of an event's text and a NUL, read as a C string. *)
Definition copy_text (cap : Z) (str : bytes) : bytes := snprintf_s cap str.

(** [tt_queue_post2 (&ui->tt->in, ...)]. *)
Definition post (ty : TTCommandType) (n : Z) (str : option bytes) (iv iv2 : Z) (ui : Ui) : Ui :=
  ui <| posted := posted ui ++ [tt_queue_post2 ty n str iv iv2] |>.

(** ** Finding *)

Definition by_fn (n : Z) (c : Contact) : bool := negb (is_request c) && (fn c =? n).
Definition contact_by_fn (ui : Ui) (n : Z) : option Contact := find_first (by_fn n) (contacts ui).
Definition request_row (ui : Ui) : option Contact := find_first is_request (contacts ui).
Definition new_contact (n : Z) (request : bool) : Contact :=
  mkContact n request [] [] [] no_chat 0 TOX_CONNECTION_NONE 0 0 no_transfer 0 0 false no_call false [] false.
Definition contact_add (n : Z) (request : bool) (ui : Ui) : Ui :=
  ui <| contacts := contacts ui ++ [new_contact n request] |>.
(** [c = contact_by_fn (ui, n); if (!c) c = contact_add (ui, n, false)]. *)
Definition contact_ensure (n : Z) (ui : Ui) : Ui :=
  ui <| contacts := ensure (by_fn n) (new_contact n false) (contacts ui) |>.
Definition upd_contact (n : Z) (f : Contact -> Contact) (ui : Ui) : Ui :=
  ui <| contacts := upd_first (by_fn n) f (contacts ui) |>.
(** [contact_remove] of the entry [c] that [p] selects first. *)
Definition contact_remove (p : Contact -> bool) (ui : Ui) : Ui :=
  match find_first p (contacts ui) with
  | None => ui
  | Some c =>
      let ui := ui <| contacts := del_first p (contacts ui) |> in
      if offer_pending (c_xfer c) then post TT_CMD_FILE_REJECT 0 None (i32 (offer_id (c_xfer c))) 0 ui else ui
  end.

Definition by_gn (n : Z) (g : Group) : bool := gn g =? n.
Definition group_by_gn (ui : Ui) (n : Z) : option Group := find_first (by_gn n) (groups ui).
Definition new_group (n : Z) : Group := mkGroup n [] [] no_chat TOX_GROUP_ROLE_USER 0 0 0 0 0 0 [].
Definition group_add (g : Group) (ui : Ui) : Ui := ui <| groups := groups ui ++ [g] |>.
Definition upd_group (n : Z) (f : Group -> Group) (ui : Ui) : Ui := ui <| groups := upd_first (by_gn n) f (groups ui) |>.
Definition group_remove (n : Z) (ui : Ui) : Ui := ui <| groups := del_first (by_gn n) (groups ui) |>.

Definition by_pid (n : Z) (m : GroupMember) : bool := pid m =? n.
Definition group_member (g : Group) (n : Z) : option GroupMember := find_first (by_pid n) (members g).
Definition new_member (n : Z) : GroupMember := mkMember n [] TOX_GROUP_ROLE_USER false false.
(** [group_member_upsert] and what is done to the member. *)
Definition group_member_upsert (n : Z) (f : GroupMember -> GroupMember) (g : Group) : Group :=
  g <| members := upd_first (by_pid n) f (ensure (by_pid n) (new_member n) (members g)) |>.
Definition upd_member (n : Z) (f : GroupMember -> GroupMember) (g : Group) : Group :=
  g <| members := upd_first (by_pid n) f (members g) |>.
Definition del_member (n : Z) (g : Group) : Group := g <| members := del_first (by_pid n) (members g) |>.

(** ** The roster and the selection *)

Definition tolower (c : Z) : Z := if (65 <=? c) && (c <=? 90) then c + 32 else c.
Fixpoint prefix_ci (needle hay : bytes) : bool :=
  match needle, hay with
  | [], _ => true
  | x :: needle, y :: hay => (tolower x =? tolower y) && prefix_ci needle hay
  | _ :: _, [] => false
  end.
Fixpoint stristr_loop (hay needle : bytes) : bool :=
  match hay with
  | [] => false
  | _ :: t => prefix_ci needle hay || stristr_loop t needle
  end.
Definition stristr (hay needle : bytes) : bool := (len needle =? 0) || stristr_loop hay needle.

Definition contact_visible (ui : Ui) (c : Contact) : bool :=
  is_request c || (len (u_filter ui) =? 0) || stristr (c_name c) (u_filter ui) || stristr (status_msg c) (u_filter ui).
Definition group_visible (ui : Ui) (g : Group) : bool :=
  (len (u_filter ui) =? 0) || stristr (g_name g) (u_filter ui) || stristr (topic g) (u_filter ui).

(** [have_keep]: a row of the selection is drawn. *)
Definition have_keep (ui : Ui) : bool :=
  match sel_kind ui with
  | TT_SEL_NONE => false
  | TT_SEL_REQUEST => existsb is_request (contacts ui)
  | TT_SEL_CHAT => existsb (fun c => by_fn (sel_fn ui) c && contact_visible ui c) (contacts ui)
  | TT_SEL_GROUP => existsb (fun g => by_gn (sel_fn ui) g && group_visible ui g) (groups ui)
  end.

(** [show_selected] with nothing selected. *)
Definition show_none (ui : Ui) : Ui := ui <| window := [] |>.
(** A selection without a row is given up. *)
Definition roster_render (ui : Ui) : Ui :=
  if have_keep ui then ui else
  match sel_kind ui with
  | TT_SEL_NONE => ui
  | _ => show_none (ui <| sel_kind := TT_SEL_NONE |>)
  end.

Definition show_selected (ui : Ui) : Ui :=
  match sel_kind ui with
  | TT_SEL_NONE => show_none ui
  | TT_SEL_REQUEST => match request_row ui with Some _ => ui | None => show_none ui end
  | TT_SEL_CHAT =>
      match contact_by_fn ui (sel_fn ui) with
      | None => show_none ui
      | Some c =>
          let ui := upd_contact (sel_fn ui) (fun c => c <| unread := 0 |>) ui in
          roster_render (ui <| window := hist_render (transcript (c_chat c)) |>)
      end
  | TT_SEL_GROUP =>
      match group_by_gn ui (sel_fn ui) with
      | None => show_none ui
      | Some g =>
          let ui := upd_group (sel_fn ui) (fun g => g <| g_unread := 0 |>) ui in
          roster_render (ui <| window := hist_render (transcript (g_chat g)) |>)
      end
  end.

Definition chat_selected (ui : Ui) (n : Z) : bool :=
  match sel_kind ui with TT_SEL_CHAT => sel_fn ui =? n | _ => false end.
Definition group_selected (ui : Ui) (n : Z) : bool :=
  match sel_kind ui with TT_SEL_GROUP => sel_fn ui =? n | _ => false end.

(** ** Lines *)

Section lines.
(** The stamp of this minute. *)
Context (stamp : bytes).

(** [chat_append] and [group_append]. *)
Definition chat_append (who : bytes) (me : Z) (text : bytes) (c : chat) : chat :=
  c <| transcript := transcript_append stamp who me text (transcript c) |> <| last := last_text text |>.
Definition append_sys (me : Z) (text : bytes) (c : chat) : chat :=
  chat_append (if me =? 0 then [] else ascii_bytes "you") (2 + me) text c.

Definition live (who : bytes) (me : Z) (text : bytes) (ui : Ui) : Ui :=
  ui <| window := window ui ++ [hist_append_live stamp who me text] |>.
Definition when_ui (b : bool) (f : Ui -> Ui) (ui : Ui) : Ui := if b then f ui else ui.

(** A system line of contact [n], shown at once with flag [fl] when selected. *)
Definition contact_sys (n me fl : Z) (text : bytes) (ui : Ui) : Ui :=
  let ui := upd_contact n (fun c => c <| c_chat := append_sys me text (c_chat c) |>) ui in
  when_ui (chat_selected ui n) (live [] fl text) ui.
Definition group_sys (n : Z) (text : bytes) (ui : Ui) : Ui :=
  let ui := upd_group n (fun g => g <| g_chat := append_sys 0 text (g_chat g) |>) ui in
  when_ui (group_selected ui n) (live [] 2 text) ui.
End lines.

(** The name shown for a nameless contact or member. *)
Definition named (name other : bytes) : bytes := if len name =? 0 then other else name.
