(* ===== verification/UiContacts.v ===== *)
(** * UiContacts: events and commands of one-to-one chats ([ui/ui_tk.c])

    The friend part of [handle_event], and the callbacks of the chat pane:
    selecting, sending, typing, requests, file offers. *)
From S2P Require Import Prelude CText Sidecar History Transcript EventQueue Events Linked UiState.

(** ** Sizes *)

(** [strtoull (l, NULL, 10)]. *)
Definition strtoull10 (l : bytes) : Z :=
  match drop_space l with
  | c :: t =>
      if c =? 45 then u64 (- Z.min (take_digits t 0) (2 ^ 64 - 1))
      else Z.min (take_digits (if c =? 43 then t else c :: t) 0) (2 ^ 64 - 1)
  | [] => 0
  end.

(** ["%.1f"] of [n / d], rounded half to even as glibc does. *)
Definition round_even (n d : Z) : Z :=
  let q := n / d in
  let r := 2 * (n mod d) in
  if r <? d then q else if d <? r then q + 1 else if Z.even q then q else q + 1.
Definition tenths (n d : Z) : bytes := let t := round_even (n * 10) d in dec (t / 10) ++ [46] ++ dec (t mod 10).
(** Up to 2^53, beyond which the conversion to [double] rounds first. *)
Definition fmt_size (n : Z) : bytes :=
  if n <? 1024 then dec n ++ ascii_bytes " B"
  else if 1024 * 1024 <=? n then tenths n (1024 * 1024) ++ ascii_bytes " MiB"
  else tenths n 1024 ++ ascii_bytes " KiB".

(** Quotation marks and the dash, in UTF-8. *)
Definition LQ : bytes := [226; 128; 156].
Definition RQ : bytes := [226; 128; 157].
Definition DASH : bytes := [226; 128; 148].
Definition quoted (name : bytes) : bytes := LQ ++ name ++ RQ.

(** ["%02ld"] *)
Definition dec02 (n : Z) : bytes := if n <? 10 then 48 :: dec n else dec n.

Definition TOXAV_SENDING_A : Z := 4.
Definition TOXAV_SENDING_V : Z := 8.
Definition TOXAV_ACCEPTING_A : Z := 16.

Section contacts.
(** The stamp of this minute, [time (NULL)], and what a history loader makes of
    a chat ([Transcript.history_load]). *)
Context (stamp : bytes) (now : Z) (load : chat -> chat).

Definition xfer_line (n : Z) (mine : bool) (text : bytes) (ui : Ui) : Ui :=
  contact_sys stamp n (Z.b2z mine) (2 + Z.b2z mine) (snprintf_s 512 text) ui.
Definition upd_xfer (f : transfer -> transfer) (c : Contact) : Contact := c <| c_xfer := f (c_xfer c) |>.
Definition upd_call (f : call -> call) (c : Contact) : Contact := c <| c_call := f (c_call c) |>.

(** [if (ui->sel_kind == TT_SEL_CHAT && ui->sel_fn == n) show_selected (ui)] *)
Definition show_if_selected (n : Z) (ui : Ui) : Ui := when_ui (chat_selected ui n) show_selected ui.

Definition nonempty (str : option bytes) : option bytes := match str with Some (c :: t) => Some (c :: t) | _ => None end.

(** ** Friend events *)

Definition on_friend_name (n : Z) (str : option bytes) (ui : Ui) : Ui :=
  let ui := contact_ensure n ui in
  let ui := match nonempty str with
            | Some s => upd_contact n (fun c => c <| c_name := copy_text TT_NAME_MAX s |>) ui
            | None => ui
            end in
  show_if_selected n (roster_render ui).

Definition on_friend_connection (n iv : Z) (ui : Ui) : Ui :=
  let ui := upd_contact n (fun c => c <| conn := iv |>) (contact_ensure n ui) in
  let ui := when_ui (iv =? TOX_CONNECTION_NONE) (upd_contact n (fun c => c <| peer_typing := false |>)) ui in
  show_if_selected n (roster_render ui).

Definition on_friend_status_msg (n : Z) (str : option bytes) (ui : Ui) : Ui :=
  let ui := contact_ensure n ui in
  match str with
  | None => ui
  | Some s =>
      let ui := upd_contact n (fun c => c <| status_msg := copy_text (TOX_MAX_STATUS_MESSAGE_LENGTH + 1) s |>) ui in
      show_if_selected n (roster_render ui)
  end.

(** The line of an action, ["* who text"]; [cap] is the size of its buffer. *)
Definition action_line (cap : Z) (who text : bytes) : bytes := snprintf_s cap (ascii_bytes "* " ++ who ++ [32] ++ text).

Definition on_friend_message (n iv : Z) (str : option bytes) (ui : Ui) : Ui :=
  let ui := contact_ensure n ui in
  match str, contact_by_fn ui n with
  | Some s, Some c =>
      let text := copy_text (TOX_MAX_MESSAGE_LENGTH + 1) s in
      let who := named (c_name c) (ascii_bytes "unknown") in
      let '(me, line) := if iv =? TOX_MESSAGE_TYPE_ACTION
        then (2, action_line (TOX_MAX_MESSAGE_LENGTH + TT_NAME_MAX + 4) who text) else (0, text) in
      let ui := upd_contact n (fun c => c <| peer_typing := false |> <| c_chat := chat_append stamp who me line (c_chat c) |>) ui in
      let ui := if chat_selected ui n then live stamp (if me =? 2 then [] else who) me line ui
                else upd_contact n (fun c => c <| unread := unread c + 1 |>) ui in
      roster_render ui
  | _, _ => ui
  end.

Definition on_message_sent (n iv : Z) (ui : Ui) : Ui :=
  match contact_by_fn ui n with
  | None => ui
  | Some _ => roster_render (upd_contact n (fun c => c <| last_mid := u32 iv |> <| last_read := 0 |>) ui)
  end.
Definition on_read_receipt (n iv : Z) (ui : Ui) : Ui :=
  match contact_by_fn ui n with
  | None => ui
  | Some _ => roster_render (upd_contact n (fun c => c <| last_read := if last_read c <? u32 iv then u32 iv else last_read c |>) ui)
  end.
(** All our messages are confirmed read. *)
Definition contact_all_read (c : Contact) : bool := negb (last_mid c =? 0) && (last_mid c <=? last_read c).

Definition on_offline_flushed (n iv : Z) (ui : Ui) : Ui :=
  match contact_by_fn ui n with
  | None => ui
  | Some _ =>
      let line := snprintf_s 96 (dec iv ++ ascii_bytes " queued message" ++ (if iv =? 1 then [] else ascii_bytes "s") ++
                                 ascii_bytes " delivered") in
      roster_render (contact_sys stamp n 1 3 line ui)
  end.

(** ** Friend requests *)

(** A text of 64 characters is a key, any other a message. *)
Definition on_friend_request (str : option bytes) (ui : Ui) : Ui :=
  let ui := match str with
    | None => ui
    | Some s =>
        if len (cstr s) =? 64 then
          match request_row ui with
          | Some _ => ui
          | None => ui <| contacts := contacts ui ++ [(new_contact 0 true) <| key_hex := snprintf_s 65 s |>] |>
          end
        else match request_row ui with
          | Some _ => ui <| contacts := upd_first is_request (fun r => r <| c_chat := (c_chat r) <| last := copy_text TT_LAST_MAX s |> |>) (contacts ui) |>
          | None => ui
          end
    end in
  roster_render ui.

Definition on_friend_list_end (ui : Ui) : Ui :=
  let ui := ui <| ready := true |> in
  if history ui then
    roster_render (ui <| contacts := (fun c => if is_request c then c else c <| c_chat := load (c_chat c) |>) <$> contacts ui |>)
  else ui.

(** ** Encryption *)

(** The verification code kept: 32 characters, none without a session. *)
Definition code_after (on : bool) (str : option bytes) (old : bytes) : bytes :=
  if on then match str with Some s => if len s =? 32 then cstr s else old | None => old end else [].
Definition on_e2ee_state (n iv : Z) (str : option bytes) (ui : Ui) : Ui :=
  let ui := contact_ensure n ui in
  match contact_by_fn ui n with
  | None => ui
  | Some c =>
      let on := iv =? 1 in
      let was := e2ee c in
      let ui := upd_contact n (fun c => c <| e2ee := on |> <| e2ee_code := code_after on str (e2ee_code c) |>) ui in
      if eqb on was then ui else show_if_selected n (roster_render ui)
  end.
Definition on_e2ee_warn (n : Z) (str : option bytes) (ui : Ui) : Ui :=
  let ui := contact_ensure n ui in
  match str with
  | None => ui
  | Some s => show_if_selected n (upd_contact n (fun c => c <| c_chat := append_sys stamp 1 (cstr s) (c_chat c) |>) ui)
  end.

(** ** Calls *)

Definition on_av_incoming (n iv2 : Z) (ui : Ui) : Ui :=
  let ui := contact_ensure n ui in
  match contact_by_fn ui n with
  | None => ui
  | Some c =>
      let ui := upd_contact n (upd_call (fun k => mkCall 0 true false (call_muted k) (call_deaf k) (negb (iv2 =? 0)) (call_cam k) 0 false false)) ui in
      let line := snprintf_s (TT_NAME_MAX + 32) (ascii_bytes "incoming " ++ ascii_bytes (if iv2 =? 0 then "audio" else "audio+video") ++
                                                 ascii_bytes " call from " ++ named (c_name c) (ascii_bytes "unknown")) in
      roster_render (contact_sys stamp n 1 3 line ui)
  end.

Definition av_state (iv iv2 : Z) (k : call) : call :=
  let k := k <| call_state := iv |> <| call_cam := negb (Z.land iv TOXAV_SENDING_V =? 0) |> in
  let k := if Z.land iv (Z.lor TOXAV_SENDING_A TOXAV_ACCEPTING_A) =? 0 then k
           else k <| call_incoming := false |> <| call_active := true |> <| call_ringing := false |>
                  <| call_started := if call_started k =? 0 then now else call_started k |> in
  if iv2 =? 0 then k else k <| call_paused_self := iv =? 0 |>.
Definition on_av_state (n iv iv2 : Z) (ui : Ui) : Ui :=
  match contact_by_fn ui n with
  | None => ui
  | Some c =>
      let k := av_state iv iv2 (c_call c) in
      let ui := upd_contact n (upd_call (fun _ => k)) ui in
      let ui := when_ui (call_active k && (iv =? 0) && (iv2 =? 0)) (contact_sys stamp n 0 3 (ascii_bytes "peer paused the call")) ui in
      roster_render (show_if_selected n ui)
  end.
Definition on_av_ended (n iv iv2 : Z) (ui : Ui) : Ui :=
  match contact_by_fn ui n with
  | None => ui
  | Some _ =>
      let line := snprintf_s 64 (ascii_bytes "call ended (" ++
        if 0 <? iv2 then ascii_bytes (if iv =? 0 then "finished" else "error") ++ ascii_bytes ") " ++ DASH ++ [32] ++
                         dec (iv2 / 60) ++ [58] ++ dec02 (iv2 mod 60)
        else ascii_bytes (if iv =? 0 then "no connection" else "error") ++ [41]) in
      roster_render (contact_sys stamp n 1 3 line (upd_contact n (upd_call (fun _ => no_call)) ui))
  end.

(** ** Transfers *)

Definition on_file_tx_started (n iv : Z) (str : option bytes) (ui : Ui) : Ui :=
  match contact_by_fn ui n with
  | None => ui
  | Some _ =>
      let s := default [] str in
      let nl := strchr NL (cstr s) in
      let name := match nl with Some (c :: t, _) => copy_text 256 (c :: t) | _ => copy_text 256 s end in
      let size := match nl with Some (_, r) => strtoull10 r | None => 0 end in
      let ui := upd_contact n (upd_xfer (fun x => x <| xfer_me := true |> <| xfer_running := true |> <| xfer_run_id := u32 iv |>
                                                    <| xfer_name := name |>)) ui in
      xfer_line n true (ascii_bytes "sending file " ++ quoted name ++ ascii_bytes " (" ++ fmt_size size ++ [41]) ui
  end.

(** The transfer a line speaks of. *)
Definition xfer_title (c : Contact) : bytes := quoted (named (xfer_name (c_xfer c)) [63]).
Definition on_file_progress (n : Z) (str : option bytes) (ui : Ui) : Ui :=
  match contact_by_fn ui n with
  | None => ui
  | Some c =>
      let '(got, total) := match str with
        | None => ([63], [63])
        | Some s => match strchr 47 (cstr s) with
                    | None => ([63], [63])
                    | Some (a, b) => (fmt_size (strtoull10 (ztake 31 a)), fmt_size (strtoull10 b))
                    end
        end in
      xfer_line n (xfer_me (c_xfer c)) (xfer_title c ++ [32] ++ got ++ ascii_bytes " / " ++ total) ui
  end.
Definition on_file_done (n : Z) (str : option bytes) (ui : Ui) : Ui :=
  match contact_by_fn ui n with
  | None => ui
  | Some c =>
      let ui := xfer_line n (xfer_me (c_xfer c)) (xfer_title c ++ ascii_bytes " complete " ++ DASH ++ [32] ++ cstr (default [] str)) ui in
      upd_contact n (upd_xfer (fun x => x <| xfer_running := false |>)) ui
  end.
Definition on_file_failed (n : Z) (ui : Ui) : Ui :=
  match contact_by_fn ui n with
  | None => ui
  | Some c =>
      let ui := xfer_line n (xfer_me (c_xfer c)) (xfer_title c ++ ascii_bytes " failed") ui in
      upd_contact n (upd_xfer (fun x => x <| xfer_running := false |>)) ui
  end.

(** Who offers, and what: an open dialog gets the new text only. *)
Definition offer_show (n : Z) (name : bytes) (x : transfer) (ui : Ui) : Ui :=
  let offer := ascii_bytes "wants to send you " ++ quoted (offer_name x) ++ ascii_bytes " (" ++ fmt_size (offer_size x) ++ [41] in
  let text := snprintf_s (TOX_MAX_FILENAME_LENGTH + 96) offer in
  match offer_open ui with
  | Some (who, _) => ui <| offer_open := Some (who, text) |>
  | None =>
      let ui := ui <| offer_open := Some (named name (ascii_bytes "A friend"), text) |> in
      roster_render (xfer_line n false offer ui)
  end.
Definition on_file_offer (n iv : Z) (str : option bytes) (ui : Ui) : Ui :=
  match contact_by_fn ui n, str with
  | Some c, Some s =>
      match strchr NL (cstr s) with
      | None => ui
      | Some (name, r) =>
          let name := copy_text (TOX_MAX_FILENAME_LENGTH + 1) name in
          let x := mkTransfer true (u32 iv) (strtoull10 r) name false name true (u32 iv) in
          offer_show n (c_name c) x (upd_contact n (upd_xfer (fun _ => x)) ui)
      end
  | _, _ => ui
  end.
Definition on_file_resumed (n iv : Z) (str : option bytes) (ui : Ui) : Ui :=
  match contact_by_fn ui n, str with
  | Some c, Some s =>
      match strchr NL (cstr s) with
      | None => ui
      | Some (name, _) =>
          let name := copy_text (TOX_MAX_FILENAME_LENGTH + 1) name in
          let ui := upd_contact n (upd_xfer (fun x => x <| offer_name := name |> <| xfer_name := name |> <| xfer_me := false |>
                                                        <| xfer_running := true |> <| xfer_run_id := u32 iv |>)) ui in
          xfer_line n false (ascii_bytes "resuming " ++ quoted name ++ ascii_bytes " from a partial download") ui
      end
  | _, _ => ui
  end.
End contacts.
