(* ===== verification/UiCommands.v ===== *)
(** * UiCommands: what the user does in a chat ([ui/ui_tk.c])

    The callbacks of the chat pane and the roster, the typing indicator, and
    the events that only set a field.  What a widget holds is an argument:
    [None] when its dialog is not open. *)
From S2P Require Import Prelude CText Sidecar History Transcript EventQueue Events Identity Linked UiState UiContacts.

Definition TT_TYPING_TIMEOUT : Z := 5.

(** ** Events that set one field *)

Definition on_toxid (str : option bytes) (ui : Ui) : Ui :=
  match str with Some s => ui <| my_toxid := snprintf_s 100 s |> | None => ui end.
Definition on_self_name (str : option bytes) (ui : Ui) : Ui :=
  match nonempty str with Some s => ui <| self_name := copy_text 128 s |> | None => ui end.
Definition on_self_status_msg (str : option bytes) (ui : Ui) : Ui :=
  match str with Some s => ui <| self_status_msg := copy_text (TOX_MAX_STATUS_MESSAGE_LENGTH + 1) s |> | None => ui end.
Definition on_friend_status (n iv : Z) (ui : Ui) : Ui :=
  roster_render (upd_contact n (fun c => c <| presence := iv |>) (contact_ensure n ui)).
(** The key names the history file of the contact. *)
Definition on_friend_pubkey (n : Z) (str : option bytes) (ui : Ui) : Ui :=
  let ui := contact_ensure n ui in
  match str with
  | Some s => upd_contact n (fun c => c <| c_chat := (c_chat c) <| hist_key := copy_text 65 s |> |>) ui
  | None => ui
  end.
Definition on_last_online (n iv : Z) (ui : Ui) : Ui :=
  show_if_selected n (upd_contact n (fun c => c <| last_online := iv |>) (contact_ensure n ui)).
Definition on_friend_typing (n iv : Z) (ui : Ui) : Ui := upd_contact n (fun c => c <| peer_typing := negb (iv =? 0) |>) ui.
Definition on_e2ee_enforce (n iv : Z) (ui : Ui) : Ui :=
  upd_contact n (fun c => c <| e2ee_required := negb (iv =? 0) |>) (contact_ensure n ui).

(** ** The outgoing typing indicator *)

Definition typing_stop (ui : Ui) : Ui :=
  let ui := if typing_sent ui && negb (typing_fn ui =? UINT32_MAX) then post TT_CMD_SET_TYPING (typing_fn ui) None 0 0 ui else ui in
  ui <| typing_sent := false |> <| typing_fn := UINT32_MAX |>.

Definition typing_tick (now : Z) (ui : Ui) : Ui :=
  let ui := ui <| typing_idle_sched := false |> in
  if negb (typing_sent ui) || (typing_fn ui =? UINT32_MAX) then ui
  else if now - typing_last ui <? TT_TYPING_TIMEOUT - 1 then ui <| typing_idle_sched := true |>
  else typing_stop ui.

Definition typing_keystroke (now n : Z) (ui : Ui) : Ui :=
  let ui := ui <| typing_last := now |> in
  if typing_sent ui && (typing_fn ui =? n) then ui <| typing_idle_sched := true |> else
  let ui := if typing_sent ui then typing_stop ui else ui in
  post TT_CMD_SET_TYPING n None 1 0 ui <| typing_fn := n |> <| typing_sent := true |> <| typing_idle_sched := true |>.

Definition cc_input_key (now : Z) (ui : Ui) : Ui :=
  match sel_kind ui with TT_SEL_CHAT => typing_keystroke now (sel_fn ui) ui | _ => ui end.

(** ** Selecting *)

(** The row the tree view names: [req], [f<n>], [g<n>] or another. *)
Inductive row := RowRequest | RowFriend (n : Z) | RowGroup (n : Z) | RowUnknown.
Definition contact_by_iid (ui : Ui) (r : row) : option Contact :=
  match r with RowRequest => request_row ui | RowFriend n => contact_by_fn ui n | _ => None end.
Definition group_by_iid (ui : Ui) (r : row) : option Group :=
  match r with RowGroup n => group_by_gn ui n | _ => None end.
Definition row_sel (ui : Ui) (r : row) : SelKind * Z :=
  match contact_by_iid ui r, group_by_iid ui r with
  | Some c, _ => if is_request c then (TT_SEL_REQUEST, 0) else (TT_SEL_CHAT, fn c)
  | None, Some g => (TT_SEL_GROUP, gn g)
  | None, None => (TT_SEL_NONE, 0)
  end.
Definition cc_selected (r : row) (ui : Ui) : Ui :=
  let '(kind, n) := row_sel ui r in
  if bool_decide (kind = sel_kind ui) && (n =? sel_fn ui) then ui
  else show_selected (ui <| sel_kind := kind |> <| sel_fn := n |>).
Definition cc_search_changed (q : bytes) (ui : Ui) : Ui := roster_render (ui <| u_filter := snprintf_s 80 q |>).

(** ** Sending *)

Definition ME : bytes := ascii_bytes "/me ".
(** What the input box holds, cut to the buffer and without the newline the
    widget ends it with; [None] when nothing is left.  Then whether it is an
    action, and its body with the emoticons in the rest of the buffer. *)
Definition strip_nl (buf : bytes) : bytes :=
  match rev buf with c :: t => if c =? NL then rev t else buf | [] => buf end.
Definition outgoing (text : bytes) : option (bool * bytes) :=
  let buf := strip_nl (snprintf_s (TOX_MAX_MESSAGE_LENGTH + 1) text) in
  match buf with
  | [] => None
  | _ =>
      let action := is_prefix ME buf && (4 <? len buf) in
      Some (action, if action then emotify (TOX_MAX_MESSAGE_LENGTH + 1 - 4) (zdrop 4 buf)
                    else emotify (TOX_MAX_MESSAGE_LENGTH + 1) buf)
  end.

Section commands.
Context (stamp : bytes) (now : Z).

(** The line of our own message, the same here and in the window. *)
Definition my_line (cap : Z) (action : bool) (body : bytes) : bytes :=
  snprintf_s cap (if action then ascii_bytes "* you " ++ body else body).

Definition send_chat (n : Z) (text : bytes) (ui : Ui) : Ui :=
  match contact_by_fn ui n, outgoing text with
  | Some _, Some (action, body) =>
      let ui := post TT_CMD_SEND_MESSAGE n (Some body) 0 (if action then TOX_MESSAGE_TYPE_ACTION else TOX_MESSAGE_TYPE_NORMAL) ui in
      let ui := if typing_sent ui && (typing_fn ui =? n)
        then post TT_CMD_SET_TYPING n None 0 0 ui <| typing_sent := false |> <| typing_fn := UINT32_MAX |> else ui in
      let who := named (self_name ui) (ascii_bytes "you") in
      let me := if action then 2 else 1 in
      let line := my_line (TOX_MAX_MESSAGE_LENGTH + 8) action body in
      let ui := upd_contact n (fun c => c <| c_chat := chat_append stamp who me line (c_chat c) |>) ui in
      roster_render (live stamp (if action then [] else who) me line ui)
  | _, _ => ui
  end.
Definition send_group (n : Z) (text : bytes) (ui : Ui) : Ui :=
  match group_by_gn ui n, outgoing text with
  | Some _, Some (action, body) =>
      let ui := post TT_CMD_GROUP_SEND n (Some body) 0 (if action then TOX_MESSAGE_TYPE_ACTION else TOX_MESSAGE_TYPE_NORMAL) ui in
      let who := named (self_name ui) (ascii_bytes "you") in
      let me := if action then 2 else 1 in
      let line := my_line (TOX_GROUP_MAX_MESSAGE_LENGTH + TT_NAME_MAX + 4) action body in
      let ui := upd_group n (fun g => g <| g_chat := chat_append stamp who me line (g_chat g) |>) ui in
      roster_render (live stamp (if action then [] else who) me line ui)
  | _, _ => ui
  end.

Definition cc_send (text : bytes) (ui : Ui) : Ui :=
  if negb (ready ui) then ui else
  match sel_kind ui with
  | TT_SEL_NONE => ui
  | TT_SEL_REQUEST =>
      match request_row ui with
      | None => ui
      | Some r =>
          let ui := contact_remove is_request (post TT_CMD_ACCEPT_FRIEND 0 (Some (key_hex r)) 0 0 ui) in
          show_selected (roster_render (ui <| sel_kind := TT_SEL_NONE |>))
      end
  | TT_SEL_GROUP => send_group (sel_fn ui) text ui
  | TT_SEL_CHAT => send_chat (sel_fn ui) text ui
  end.

Definition cc_ignore (ui : Ui) : Ui :=
  match request_row ui with
  | None => ui
  | Some _ => show_selected (roster_render (contact_remove is_request (ui <| sel_kind := TT_SEL_NONE |>)))
  end.

Definition cc_remove (ui : Ui) : Ui :=
  match sel_kind ui with
  | TT_SEL_CHAT =>
      let n := sel_fn ui in
      match contact_by_fn ui n with
      | None => ui
      | Some _ =>
          let ui := contact_remove (by_fn n) (post TT_CMD_DELETE_FRIEND n None 0 0 ui) in
          show_selected (roster_render (ui <| sel_kind := TT_SEL_NONE |> <| sel_fn := 0 |>))
      end
  | _ => ui
  end.

Definition cc_prof_enforce (v : bytes) (ui : Ui) : Ui :=
  match sel_kind ui with
  | TT_SEL_CHAT =>
      let n := sel_fn ui in
      match contact_by_fn ui n with
      | None => ui
      | Some _ =>
          let on := bool_decide (v = [49]) in
          post TT_CMD_E2EE_ENFORCE n None (Z.b2z on) 0 (upd_contact n (fun c => c <| e2ee_required := on |>) ui)
      end
  | _ => ui
  end.

(** ** Files *)

(** The contact whose offer the dialog's buttons answer. *)
Definition offering (c : Contact) : bool := negb (is_request c) && offer_pending (c_xfer c).
Definition close_offer (n : Z) (ui : Ui) : Ui := upd_contact n (upd_xfer (fun x => x <| offer_pending := false |>)) ui.

(** [p] is the path the save dialog gives. *)
Definition cc_file_yes (p : bytes) (ui : Ui) : Ui :=
  match find_first offering (contacts ui) with
  | None => ui <| offer_open := None |>
  | Some c =>
      if len p =? 0 then ui else
      let ui := post TT_CMD_FILE_ACCEPT 0 (Some p) (i32 (offer_id (c_xfer c))) 0 ui in
      let ui := xfer_line stamp (fn c) false (ascii_bytes "incoming file " ++ quoted (offer_name (c_xfer c)) ++ [32] ++ DASH ++
                                              ascii_bytes " saving") ui in
      roster_render (close_offer (fn c) ui <| offer_open := None |>)
  end.
Definition cc_file_no (ui : Ui) : Ui :=
  let ui := match find_first offering (contacts ui) with
    | None => ui
    | Some c =>
        let ui := post TT_CMD_FILE_REJECT 0 None (i32 (offer_id (c_xfer c))) 0 ui in
        let ui := xfer_line stamp (fn c) false (ascii_bytes "declined incoming file " ++ quoted (offer_name (c_xfer c))) ui in
        roster_render (close_offer (fn c) ui)
    end in
  ui <| offer_open := None |>.
Definition cc_file_cancel (ui : Ui) : Ui :=
  match sel_kind ui with
  | TT_SEL_CHAT =>
      match contact_by_fn ui (sel_fn ui) with
      | Some c =>
          if xfer_running (c_xfer c) then
            xfer_line stamp (fn c) (xfer_me (c_xfer c)) (ascii_bytes "cancelling " ++ xfer_title c ++ ascii_bytes "...")
              (post TT_CMD_FILE_CANCEL 0 None (i32 (xfer_run_id (c_xfer c))) 0 ui)
          else ui
      | None => ui
      end
  | _ => ui
  end.
Definition cc_file_open (f : bytes) (ui : Ui) : Ui :=
  match sel_kind ui with
  | TT_SEL_CHAT => if ready ui && negb (len f =? 0) then post TT_CMD_SEND_FILE (sel_fn ui) (Some f) 0 0 ui else ui
  | _ => ui
  end.
End commands.

(** ** Identity *)

(** The same loop as [extract_toxid_hex]: [s] is the memory from the pointer on,
    and looking behind its end is [Oob]. *)
Definition toxid_span (s : bytes) : outcome bytes := extract_toxid_hex s.

(** [cc_add_ok] with the dialog's address and message; [junk] is what the rest
    of [idbuf] holds. *)
Definition cc_add_ok (junk : bytes) (e : option (bytes * bytes)) (ui : Ui) : outcome Ui :=
  match e with
  | None => Ok ui
  | Some (id, msg) =>
      let idbuf := ztake 256 (snprintf_s 256 id ++ [0] ++ junk) in
      match toxid_span idbuf with
      | Oob => Oob
      | Fail => Ok ui
      | Ok p =>
          let hex := take TOXID_HEX p in
          let req := snprintf_s (TOX_ADDRESS_SIZE * 2 + 2 + TOX_MAX_FRIEND_REQUEST_LENGTH)
                       (if len msg =? 0 then hex else hex ++ [NL] ++ msg) in
          Ok (post TT_CMD_ADD_FRIEND 0 (Some req) 0 0 ui)
      end
  end.
(** [cc_search_enter] with the memory of the search text; without an address it
    opens the dialog. *)
Definition cc_search_enter (q : bytes) (ui : Ui) : outcome Ui :=
  match toxid_span q with
  | Oob => Oob
  | Fail => Ok ui
  | Ok p => Ok (roster_render (post TT_CMD_ADD_FRIEND 0 (Some p) 0 0 ui <| u_filter := [] |>))
  end.
Definition cc_name_ok (e : option bytes) (ui : Ui) : Ui :=
  match nonempty e with Some name => post TT_CMD_SET_NAME 0 (Some name) 0 0 ui | None => ui end.
Definition cc_status_set (st : Z) (ui : Ui) : Ui :=
  if (st <? 0) || (2 <? st) then ui else post TT_CMD_SET_STATUS 0 None st 0 ui.
