(* ===== verification/UiGroups.v ===== *)
(** * UiGroups: events and commands of group chats ([ui/ui_tk.c])

    The group part of [handle_event], and the callbacks of the group dialogs.
    What a dialog's widget holds is an argument. *)
From S2P Require Import Prelude CText Sidecar History Transcript EventQueue Events Linked UiState UiContacts.

(** ** Words *)

Definition role_str (r : Z) : bytes :=
  ascii_bytes (if r =? TOX_GROUP_ROLE_FOUNDER then "founder" else if r =? TOX_GROUP_ROLE_MODERATOR then "moderator"
               else if r =? TOX_GROUP_ROLE_USER then "user" else if r =? TOX_GROUP_ROLE_OBSERVER then "observer" else "?").
Definition mod_event_str (ev : Z) : bytes :=
  ascii_bytes (if ev =? TOX_GROUP_MOD_EVENT_KICK then "kicked"
               else if ev =? TOX_GROUP_MOD_EVENT_OBSERVER then "demoted to observer"
               else if ev =? TOX_GROUP_MOD_EVENT_USER then "set to user"
               else if ev =? TOX_GROUP_MOD_EVENT_MODERATOR then "promoted to moderator" else "moderated").
(** The exit types are numbered from 0 as they are listed. *)
Definition exit_type_str (t : Z) : bytes :=
  ascii_bytes (default "left"%string
    (if t <? 0 then None
     else ["left"; "timed out"; "disconnected"; "lost connection"; "was kicked"; "sync error"]%string !! Z.to_nat t)).
Definition join_fail_str (r : Z) : bytes :=
  ascii_bytes (if r =? 0 then "peer limit reached" else if r =? 1 then "wrong password" else "unknown reason").
Definition voice_str (v : Z) : bytes :=
  ascii_bytes (if v =? 1 then "only moderators may speak" else if v =? 2 then "only the founder may speak" else "everyone may speak").

Section groups.
(** The stamp of this minute, the history loader, and whether the members
    dialog [.gm] is open. *)
Context (stamp : bytes) (load : chat -> chat) (gm : bool).

(** [if (!g) break;] *)
Definition with_group (n : Z) (f : Group -> Ui -> Ui) (ui : Ui) : Ui :=
  match group_by_gn ui n with Some g => f g ui | None => ui end.
(** The name an event shows a member by; [other] when there is none. *)
Definition member_name (p : Z) (other : bytes) (g : Group) : bytes :=
  match group_member g p with Some m => named (m_name m) other | None => other end.
(** The line is cut to its buffer. *)
Definition group_line (n cap : Z) (text : bytes) (ui : Ui) : Ui := group_sys stamp n (snprintf_s cap text) ui.

(** ** Coming and going *)

Definition on_group_new (n iv2 : Z) (str : option bytes) (ui : Ui) : Ui :=
  let name := match nonempty str with Some s => copy_text TT_NAME_MAX s | None => [] end in
  let ui := group_add ((new_group n) <| g_name := name |> <| privacy := iv2 |> <| self_role := TOX_GROUP_ROLE_FOUNDER |>) ui in
  roster_render (post TT_CMD_GROUP_SYNC n None 0 0 ui).
Definition on_group_joined (n iv2 : Z) (str : option bytes) (ui : Ui) : Ui :=
  let name := match nonempty str with Some s => copy_text TT_NAME_MAX s | None => [] end in
  let ui := group_add ((new_group n) <| g_name := name |> <| privacy := if iv2 =? 0 then 0 else 1 |>) ui in
  roster_render (post TT_CMD_GROUP_SYNC n None 0 0 ui).

(** The line goes to a transcript that is freed at once. *)
Definition on_group_left (n : Z) (ui : Ui) : Ui :=
  let ui := with_group n (fun _ ui =>
      group_remove n (when_ui (group_selected ui n) (fun ui => ui <| sel_kind := TT_SEL_NONE |>) ui)) ui in
  show_selected (roster_render ui).
Definition on_group_join_fail (n iv : Z) (ui : Ui) : Ui :=
  let ui := with_group n (fun _ ui =>
      let ui := group_line n 96 (ascii_bytes "join failed: " ++ join_fail_str iv) ui in
      group_remove n (when_ui (group_selected ui n) (fun ui => ui <| sel_kind := TT_SEL_NONE |>) ui)) ui in
  show_selected (roster_render ui).

(** ** Messages *)

Definition on_group_msg (n iv iv2 : Z) (str : option bytes) (ui : Ui) : Ui :=
  match str with
  | None => ui
  | Some s =>
      with_group n (fun g ui =>
        let p := u32 iv in
        let ui := upd_group n (group_member_upsert p id) ui in
        let who := member_name p (ascii_bytes "peer") g in
        let text := copy_text (TOX_GROUP_MAX_MESSAGE_LENGTH + 1) s in
        let '(me, line) := if iv2 =? TOX_MESSAGE_TYPE_ACTION
          then (2, action_line (TOX_GROUP_MAX_MESSAGE_LENGTH + TT_NAME_MAX + 4) who text) else (0, text) in
        let ui := upd_group n (fun g => g <| g_chat := chat_append stamp who me line (g_chat g) |>) ui in
        let ui := if group_selected ui n then live stamp (if me =? 2 then [] else who) me line ui
                  else when_ui (me =? 0) (upd_group n (fun g => g <| g_unread := g_unread g + 1 |>)) ui in
        roster_render ui) ui
  end.
Definition on_group_priv_msg (n iv : Z) (str : option bytes) (ui : Ui) : Ui :=
  match str with
  | None => ui
  | Some s =>
      with_group n (fun g ui =>
        let p := u32 iv in
        let ui := upd_group n (group_member_upsert p id) ui in
        let who := member_name p (ascii_bytes "peer") g in
        let text := snprintf_s (TOX_GROUP_MAX_MESSAGE_LENGTH + 64)
                      (ascii_bytes "[private] " ++ ztake TOX_GROUP_MAX_MESSAGE_LENGTH (cstr s)) in
        let ui := upd_group n (fun g => g <| g_chat := chat_append stamp who 0 text (g_chat g) |>) ui in
        let ui := if group_selected ui n then live stamp who 0 text ui
                  else upd_group n (fun g => g <| g_unread := g_unread g + 1 |>) ui in
        roster_render ui) ui
  end.

(** [iv2] is the peer that set the topic, [-1] in a SYNC burst. *)
Definition on_group_topic (n iv2 : Z) (str : option bytes) (ui : Ui) : Ui :=
  with_group n (fun g ui =>
    let ui := match str with
      | Some s => upd_group n (fun g => g <| topic := copy_text (TOX_GROUP_MAX_TOPIC_LENGTH + 1) s |>) ui
      | None => ui
      end in
    let ui := if iv2 =? -1 then ui
      else group_line n (TT_NAME_MAX + 32) (member_name (u32 iv2) (ascii_bytes "peer") g ++ ascii_bytes " set the topic") ui in
    roster_render ui) ui.

(** ** Members *)

(** An open dialog is synced, but its rows stay as they are. *)
Definition on_peer_join (n iv : Z) (ui : Ui) : Ui :=
  with_group n (fun _ ui =>
    let ui := upd_group n (group_member_upsert (u32 iv) (fun m => m <| announce := true |>)) ui in
    when_ui (group_selected ui n && gm) (post TT_CMD_GROUP_SYNC n None 0 0) ui) ui.

Definition on_peer_exit (n iv iv2 : Z) (str : option bytes) (ui : Ui) : Ui :=
  with_group n (fun g ui =>
    let p := u32 iv in
    let other := match nonempty str with Some s => copy_text TT_NAME_MAX s | None => ascii_bytes "A peer" end in
    let ui := group_line n (TT_NAME_MAX + TT_LAST_MAX + 48) (member_name p other g ++ [32] ++ exit_type_str iv2) ui in
    upd_group n (del_member p) ui) ui.

(** The line that was deferred until the name was known. *)
Definition announce_join (n p : Z) (ui : Ui) : Ui :=
  with_group n (fun g ui =>
    match group_member g p with
    | Some m =>
        if announce m then
          let ui := upd_group n (upd_member p (fun m => m <| announce := false |>)) ui in
          group_line n (TT_NAME_MAX + 32) (named (m_name m) (ascii_bytes "A peer") ++ ascii_bytes " joined the group") ui
        else ui
    | None => ui
    end) ui.
Definition on_peer_name (n iv : Z) (str : option bytes) (ui : Ui) : Ui :=
  with_group n (fun _ ui =>
    let p := u32 iv in
    let f m := match str with Some s => m <| m_name := copy_text TT_NAME_MAX s |> | None => m end in
    announce_join n p (upd_group n (group_member_upsert p f) ui)) ui.
Definition on_peer_role (n iv iv2 : Z) (ui : Ui) : Ui :=
  with_group n (fun _ ui =>
    let p := u32 iv in
    announce_join n p (upd_group n (group_member_upsert p (fun m => m <| role := iv2 |>)) ui)) ui.

(** ** Moderation *)

(** A moderation by someone else: [iv2] is the event. *)
Definition on_group_mod (n iv iv2 : Z) (ui : Ui) : Ui :=
  with_group n (fun g ui =>
    let p := u32 iv in
    let ui := group_line n (TT_NAME_MAX + 48) (member_name p (ascii_bytes "A peer") g ++ [32] ++ mod_event_str iv2) ui in
    if iv2 =? TOX_GROUP_MOD_EVENT_KICK then ui else upd_group n (upd_member p (fun m => m <| role := iv2 |>)) ui) ui.

(** The name of who a confirmation is about. *)
Definition confirmed_name (p : Z) (str : option bytes) (g : Group) : bytes :=
  member_name p (match nonempty str with Some s => cstr s | None => ascii_bytes "peer" end) g.

Definition role_of_event (ev : Z) : Z :=
  if ev =? TOX_GROUP_MOD_EVENT_MODERATOR then TOX_GROUP_ROLE_MODERATOR
  else if ev =? TOX_GROUP_MOD_EVENT_USER then TOX_GROUP_ROLE_USER else TOX_GROUP_ROLE_OBSERVER.

Definition on_group_mod_self (n iv iv2 : Z) (str : option bytes) (ui : Ui) : Ui :=
  with_group n (fun g ui =>
    let p := u32 iv in
    let who := confirmed_name p str g in
    if TT_MOD_EV_FAIL_BASE <=? iv2 then
      group_line n (TT_NAME_MAX + 160) (ascii_bytes "could not apply " ++ mod_event_str (iv2 - TT_MOD_EV_FAIL_BASE) ++
        ascii_bytes " to " ++ who ++ ascii_bytes " (permission denied or peer gone)") ui
    else
      let ui := upd_group n (if iv2 =? TOX_GROUP_MOD_EVENT_KICK then del_member p
                             else upd_member p (fun m => m <| role := role_of_event iv2 |>)) ui in
      let ui := when_ui (group_selected ui n && gm) (post TT_CMD_GROUP_SYNC n None 0 0) ui in
      group_line n (TT_NAME_MAX + 160) (ascii_bytes "you " ++ mod_event_str iv2 ++ [32] ++ who) ui) ui.

Definition on_group_ignore_self (n iv iv2 : Z) (str : option bytes) (ui : Ui) : Ui :=
  with_group n (fun g ui =>
    let p := u32 iv in
    let who := confirmed_name p str g in
    let failed := TT_MOD_EV_FAIL_BASE <=? iv2 in
    let ign := negb failed && negb (iv2 =? 0) in
    if failed then
      group_line n (TT_NAME_MAX + 96) (ascii_bytes "could not " ++ ascii_bytes (if ign then "ignore " else "unignore ") ++ who ++
        ascii_bytes " (peer gone)") ui
    else
      let ui := upd_group n (upd_member p (fun m => m <| ignored := ign |>)) ui in
      group_line n (TT_NAME_MAX + 96) (ascii_bytes "you " ++ ascii_bytes (if ign then "ignored " else "unignored ") ++ who) ui) ui.

(** ** Settings

    [iv] says which setting changed: [-1] to [-4] are changes to announce, [-5]
    to [-11] the answers to a SYNC, the rest the privacy state. *)
Definition clamp_voice (v : Z) : Z := if (0 <? v) && (v <=? 2) then v else 0.
Definition limit_of (str : option bytes) : Z := let pl := match str with Some s => atoi (cstr s) | None => 0 end in if 0 <? pl then pl else 0.
Definition on_group_state (n iv iv2 : Z) (str : option bytes) (ui : Ui) : Ui :=
  with_group n (fun g ui =>
    let say text ui := group_line n 96 text ui in
    let upd := upd_group n in
    if iv =? -1 then
      say (ascii_bytes "voice state: " ++ voice_str (clamp_voice iv2)) (upd (fun g => g <| voice := clamp_voice iv2 |>) ui)
    else if iv =? -2 then
      say (ascii_bytes (if iv2 =? 0 then "topic lock disabled" else "topic lock enabled"))
          (upd (fun g => g <| topic_lock := if iv2 =? 0 then 0 else 1 |>) ui)
    else if iv =? -3 then
      say (ascii_bytes "peer limit set to " ++ match str with Some s => cstr s | None => [63] end)
          (upd (fun g => g <| peer_limit := limit_of str |>) ui)
    else if iv =? -7 then upd (fun g => g <| voice := clamp_voice iv2 |>) ui
    else if iv =? -8 then upd (fun g => g <| topic_lock := if iv2 =? 0 then 0 else 1 |>) ui
    else if iv =? -9 then upd (fun g => g <| peer_limit := limit_of str |>) ui
    else if iv =? -10 then upd (fun g => g <| privacy := if iv2 =? 0 then 0 else 1 |>) ui
    else if iv =? -4 then say (ascii_bytes "password changed") ui
    else if iv =? -5 then
      let ui := match str with
        | Some s => when_ui (len s =? TOX_GROUP_CHAT_ID_SIZE * 2)
                      (upd (fun g => g <| g_chat := (g_chat g) <| hist_key := cstr s |> |>)) ui
        | None => ui
        end in
      when_ui (history ui && (len (transcript (g_chat g)) =? 0)) (upd (fun g => g <| g_chat := load (g_chat g) |>)) ui
    else if iv =? -6 then upd (fun g => g <| self_role := iv2 |>) ui
    else if iv =? -11 then upd (fun g => g <| self_pid := u32 iv2 |>) ui
    else say (ascii_bytes (if iv =? 0 then "group is now public" else "group is now private"))
             (upd (fun g => g <| privacy := iv |>) ui)) ui.
End groups.

(** ** Dialogs *)

(** One invitation is shown at a time; its buttons carry the index. *)
Definition invite_label (n : Z) (str : option bytes) (ui : Ui) : bytes :=
  let inv_name := match contact_by_fn ui n with Some c => named (c_name c) (ascii_bytes "A friend") | None => ascii_bytes "A friend" end in
  let gname := named (cstr (default [] str)) (ascii_bytes "an unnamed group") in
  snprintf_s (TT_NAME_MAX + 96) (inv_name ++ ascii_bytes " invites you to join " ++ [226; 128; 156] ++ gname ++ [226; 128; 157]).
Definition on_group_invite (n iv2 : Z) (str : option bytes) (ui : Ui) : Ui :=
  match invite_open ui with Some _ => ui | None => ui <| invite_open := Some (invite_label n str ui, iv2) |> end.
Definition cc_ginv_yes (ui : Ui) : Ui :=
  match invite_open ui with Some (_, i) => post TT_CMD_GROUP_INVITE_ACC 0 None 0 i ui <| invite_open := None |> | None => ui end.
Definition cc_ginv_no (ui : Ui) : Ui :=
  match invite_open ui with Some (_, i) => post TT_CMD_GROUP_INVITE_DEC 0 None 0 i ui <| invite_open := None |> | None => ui end.

(** The payloads of the create and join dialogs. *)
Definition create_payload (name : bytes) (public : bool) : bytes :=
  snprintf_s (TT_NAME_MAX + 16) (name ++ [NL] ++ ascii_bytes (if public then "public" else "private")).
Definition cc_gnew_ok (e : option (bytes * bool)) (ui : Ui) : Ui :=
  match e with
  | Some (name, public) => if len name =? 0 then ui else post TT_CMD_GROUP_CREATE 0 (Some (create_payload name public)) 0 0 ui
  | None => ui
  end.
Definition join_payload (cid pw : bytes) : bytes :=
  snprintf_s (TOX_GROUP_CHAT_ID_SIZE * 2 + 2 + TOX_GROUP_MAX_PASSWORD_SIZE + 1) (if len pw =? 0 then cid else cid ++ [NL] ++ pw).
Definition cc_gjoin_ok (e : option (bytes * bytes)) (ui : Ui) : Ui :=
  match e with
  | Some (cid, pw) =>
      let cidbuf := snprintf_s (TOX_GROUP_CHAT_ID_SIZE * 2 + 1) cid in
      if negb (len cidbuf =? TOX_GROUP_CHAT_ID_SIZE * 2) then ui
      else post TT_CMD_GROUP_JOIN 0 (Some (join_payload cidbuf pw)) 0 0 ui
  | None => ui
  end.

Definition gselected (ui : Ui) : option Group :=
  match sel_kind ui with TT_SEL_GROUP => group_by_gn ui (sel_fn ui) | _ => None end.
Definition with_gselected (f : Group -> Ui -> Ui) (ui : Ui) : Ui :=
  match gselected ui with Some g => f g ui | None => ui end.

(** The friend number behind the last [#] of the picked item. *)
Fixpoint strrchr (c : Z) (l : bytes) : option bytes :=
  match l with
  | [] => None
  | x :: t => match strrchr c t with Some r => Some r | None => if x =? c then Some t else None end
  end.
Definition invite_item (c : Contact) : bytes :=
  snprintf_s (TT_NAME_MAX + 16) (named (c_name c) (ascii_bytes "unknown") ++ ascii_bytes " (#" ++ dec (fn c) ++ [41]).
Definition cc_ginvite_ok (pick : option bytes) (ui : Ui) : Ui :=
  with_gselected (fun g ui =>
    match nonempty pick ≫= strrchr 35 with
    | Some r => post TT_CMD_GROUP_INVITE (gn g) None (i32 (u32 (strtoull10 r))) 0 ui
    | None => ui
    end) ui.
Definition cc_gtopic_ok (e : option bytes) (ui : Ui) : Ui :=
  with_gselected (fun g ui => match e with Some s => post TT_CMD_GROUP_TOPIC (gn g) (Some s) 0 0 ui | None => ui end) ui.

Definition cc_gctl_pw (e : option bytes) (ui : Ui) : Ui :=
  with_gselected (fun g ui => match e with Some s => post TT_CMD_GROUP_PASSWORD (gn g) (Some s) 0 0 ui | None => ui end) ui.
Definition cc_gctl_priv (e : option bool) (ui : Ui) : Ui :=
  with_gselected (fun g ui => match e with Some b => post TT_CMD_GROUP_PRIVACY (gn g) None 0 (Z.b2z b) ui | None => ui end) ui.
(** The voice states all, moderators and founder. *)
Definition cc_gctl_voice (e : option bytes) (ui : Ui) : Ui :=
  with_gselected (fun g ui =>
    match e with
    | Some v => post TT_CMD_GROUP_VOICE (gn g) None 0
                  (if bool_decide (v = ascii_bytes "moderators") then 1 else if bool_decide (v = ascii_bytes "founder") then 2 else 0) ui
    | None => ui
    end) ui.
Definition cc_gctl_tlock (e : option bool) (ui : Ui) : Ui :=
  with_gselected (fun g ui => match e with Some b => post TT_CMD_GROUP_TOPIC_LOCK (gn g) None 0 (Z.b2z b) ui | None => ui end) ui.

(** The combobox of a member, and the two buttons. *)
Definition role_of_value (v : bytes) : option Z :=
  if bool_decide (v = ascii_bytes "observer") then Some TOX_GROUP_ROLE_OBSERVER
  else if bool_decide (v = ascii_bytes "user") then Some TOX_GROUP_ROLE_USER
  else if bool_decide (v = ascii_bytes "moderator") then Some TOX_GROUP_ROLE_MODERATOR else None.
Definition cc_grole (p : Z) (v : bytes) (ui : Ui) : Ui :=
  with_gselected (fun g ui =>
    match role_of_value v with Some r => post TT_CMD_GROUP_ROLE (gn g) None (i32 p) r ui | None => ui end) ui.
Definition cc_gkick (p : Z) (ui : Ui) : Ui :=
  with_gselected (fun g ui => post TT_CMD_GROUP_KICK (gn g) None (i32 p) 0 ui) ui.
Definition cc_gignore (p : Z) (ui : Ui) : Ui :=
  with_gselected (fun g ui =>
    match group_member g p with
    | Some m => if p =? self_pid g then ui else post TT_CMD_GROUP_IGNORE (gn g) None (i32 p) (Z.b2z (negb (ignored m))) ui
    | None => ui
    end) ui.
Definition cc_gleave (ui : Ui) : Ui := with_gselected (fun g ui => post TT_CMD_GROUP_LEAVE (gn g) None 0 0 ui) ui.

(** Which of kick button and role list a member's row has. *)
Definition may_moderate (g : Group) (m : GroupMember) : bool :=
  (self_role g <=? role m) && negb (self_role g =? TOX_GROUP_ROLE_OBSERVER) && negb (role m =? TOX_GROUP_ROLE_FOUNDER) &&
  (self_role g <=? TOX_GROUP_ROLE_MODERATOR).
