(* ===== verification/UiChess.v ===== *)
(** * UiChess: the chess window ([ui/ui_tk.c])

    The chess part of [handle_event] and the commands of the board window.  The
    interface keeps a board of its own, plays both sides' moves on it and posts
    ours.  A window is [None] while it is not open. *)
From S2P Require Import Prelude CText Chess ChessGame Sidecar History Transcript EventQueue Events Linked UiState.

Definition CHESS_CELL : Z := 40.

(** The chess fields are changed together. *)
Definition set_chess (f : ChessUi -> ChessUi) (ui : Ui) : Ui := ui <| chess := f (chess ui) |>.

(** ** Drawing *)

Definition chess_piece_glyph (p : TTPiece) : bytes :=
  let white := is_white (p_color p) in
  let glyph w b := [226; 153; if white then w else b] in
  match p_type p with
  | TT_PIECE_PAWN => glyph 153 159
  | TT_PIECE_ROOK => glyph 150 156
  | TT_PIECE_KNIGHT => glyph 152 158
  | TT_PIECE_BISHOP => glyph 151 157
  | TT_PIECE_QUEEN => glyph 149 155
  | TT_PIECE_KING => glyph 148 154
  | TT_PIECE_NONE => []
  end.
Definition draw_square (b : list TTPiece) (r f : Z) : bytes * option (bytes * bytes) :=
  let p := at_sq b r f in
  (ascii_bytes (if (r + f) mod 2 =? 0 then "#F0D9B5" else "#B58863"),
   match chess_piece_glyph p with
   | [] => None
   | g => Some (g, ascii_bytes (if is_white (p_color p) then "#FFFFFF" else "#000000"))
   end).
(** A dash in UTF-8. *)
Definition dash : bytes := [32; 226; 128; 148; 32].
Definition chess_status (c : ChessUi) : bytes :=
  let turn mine other := if chess_my_turn c then mine else other in
  if negb (chess_started c) then ascii_bytes "Waiting for opponent..." else
  match status (chess_board c) with
  | TT_CHESS_CHECKMATE =>
      ascii_bytes "Checkmate" ++ dash ++ ascii_bytes (if bool_decide (winner (chess_board c) = chess_self c) then "you win!" else "you lose.")
  | TT_CHESS_STALEMATE => ascii_bytes "Stalemate" ++ dash ++ ascii_bytes "draw."
  | TT_CHESS_RESIGNED => ascii_bytes "Game resigned."
  | TT_CHESS_PLAYING =>
      if tt_chess_in_check (board (chess_board c)) (chess_self c)
      then ascii_bytes "Check" ++ dash ++ ascii_bytes (turn "your move." "opponent's move.")%string
      else ascii_bytes (turn "Your move." "Opponent's move.")%string
  end.
Definition draw_all (c : ChessUi) : drawing :=
  mkDrawing ((fun s => draw_square (board (chess_board c)) s.1 s.2) <$> all_squares)
    (if 0 <=? chess_sel_rank c then Some (chess_sel_rank c, chess_sel_file c) else None) (chess_status c).
(** Nothing is drawn without a window. *)
Definition chess_draw_board (c : ChessUi) : ChessUi :=
  if chess_fn c =? UINT32_MAX then c else
  match chess_win c with Some _ => c <| chess_win := Some (draw_all c) |> | None => c end.

Definition drop_selection (c : ChessUi) : ChessUi :=
  c <| chess_sel_rank := -1 |> <| chess_sel_file := -1 |> <| chess_dragging := false |>.
Definition blank : drawing := mkDrawing [] None (ascii_bytes "Chess").
Definition chess_open (n : Z) (self : TTColor) (started : bool) (c : ChessUi) : ChessUi :=
  let c := drop_selection (c <| chess_fn := n |> <| chess_self := self |> <| chess_started := started |>) in
  let c := c <| chess_my_turn := started && bool_decide (to_move (chess_board c) = self) |> in
  chess_draw_board (c <| chess_win := Some blank |>).

(** ** Events *)

Definition on_chess_invite (n : Z) (str : option bytes) : Ui -> Ui := set_chess (fun c =>
  if chess_invite_open c then c else
  let self := if bool_decide (cstr <$> str = Some (ascii_bytes "white")) then TT_COLOR_WHITE else TT_COLOR_BLACK in
  let c := drop_selection (c <| chess_invite_open := true |> <| chess_fn := n |> <| chess_self := self |> <| chess_started := false |>) in
  c <| chess_inv := Some (snprintf_s 128 (ascii_bytes "invites you to a game of chess. You play " ++
                            ascii_bytes (if is_white self then "white" else "black") ++ ascii_bytes ".")) |>).

Definition on_chess_start (n iv : Z) : Ui -> Ui := set_chess (fun c =>
  let self := if iv =? 1 then TT_COLOR_WHITE else TT_COLOR_BLACK in
  let c := drop_selection (c <| chess_board := tt_chess_init |> <| chess_fn := n |> <| chess_self := self |> <| chess_started := true |>) in
  let c := c <| chess_my_turn := bool_decide (to_move (chess_board c) = self) |> in
  let c := if chess_invite_open c then c <| chess_inv := None |> <| chess_invite_open := false |> else c in
  chess_open n self true c).

(** [len] is the event's [str_len]. *)
Definition on_chess_move (n len : Z) (str : option bytes) : Ui -> Ui := set_chess (fun c =>
  match str with
  | None => c
  | Some s =>
      if negb (chess_fn c =? n) || negb (len =? 4) then c else
      match tt_chess_parse_square (c_str2 (zat s 0) (zat s 1)), tt_chess_parse_square (c_str2 (zat s 2) (zat s 3)) with
      | Some (fr, ff), Some (tr, tf) =>
          if bool_decide (to_move (chess_board c) = chess_self c) then c else
          match tt_chess_move (chess_board c) fr ff tr tf with
          | None => c
          | Some b => chess_draw_board (c <| chess_board := b |> <| chess_my_turn := bool_decide (to_move b = chess_self c) |>)
          end
      | _, _ => c
      end
  end).

Definition chess_end_text (iv iv2 : Z) : bytes :=
  if iv =? 0 then ascii_bytes "Checkmate" ++ dash ++ ascii_bytes (if iv2 =? 0 then "you lose." else "you win!")
  else if iv =? 1 then ascii_bytes "Stalemate" ++ dash ++ ascii_bytes "draw."
  else if iv2 =? 0 then ascii_bytes "You resigned." else ascii_bytes "Opponent resigned" ++ dash ++ ascii_bytes "you win!".
(** A second dialog is not made while the first is open. *)
Definition on_chess_end (n iv iv2 : Z) : Ui -> Ui := set_chess (fun c =>
  if negb (chess_fn c =? n) then c else
  let over := match chess_over c with Some o => o | None => chess_end_text iv iv2 end in
  drop_selection (c <| chess_inv := None |> <| chess_invite_open := false |> <| chess_over := Some over |>
                    <| chess_win := None |> <| chess_fn := UINT32_MAX |>)).

(** ** Commands *)

Definition cc_chess_invite (ui : Ui) : Ui :=
  match sel_kind ui with
  | TT_SEL_CHAT => match contact_by_fn ui (sel_fn ui) with Some c => post TT_CMD_CHESS_INVITE (fn c) None 0 0 ui | None => ui end
  | _ => ui
  end.
Definition cc_chess_accept (ui : Ui) : Ui :=
  let n := chess_fn (chess ui) in
  if n =? UINT32_MAX then ui else
  post TT_CMD_CHESS_ACCEPT n None 0 0 (set_chess (fun c => c <| chess_inv := None |> <| chess_invite_open := false |>) ui).
Definition cc_chess_decline (ui : Ui) : Ui :=
  let n := chess_fn (chess ui) in
  if n =? UINT32_MAX then ui else
  post TT_CMD_CHESS_DECLINE n None 0 0
    (set_chess (fun c => c <| chess_inv := None |> <| chess_invite_open := false |> <| chess_fn := UINT32_MAX |>) ui).

(** The square under a pixel: C's division. *)
Definition pixel_square (x y : Z) : option (Z * Z) :=
  let file := Z.quot x CHESS_CELL in
  let rank := 7 - Z.quot y CHESS_CELL in
  if (file <? 0) || (7 <? file) || (rank <? 0) || (7 <? rank) then None else Some (rank, file).
Definition cc_chess_square (x y : Z) : Ui -> Ui := set_chess (fun c =>
  if (chess_fn c =? UINT32_MAX) || negb (chess_started c) then c else
  match pixel_square x y with
  | None => c
  | Some (rank, file) =>
      let p := at_sq (board (chess_board c)) rank file in
      if negb (type_is TT_PIECE_NONE p) && color_is (chess_self c) p
      then chess_draw_board (c <| chess_sel_rank := rank |> <| chess_sel_file := file |> <| chess_dragging := true |>)
      else c <| chess_dragging := false |>
  end).

(** Dropped elsewhere, the selected piece is moved if the move is legal here. *)
Definition cc_chess_drop (x y : Z) (ui : Ui) : Ui :=
  let c := chess ui in
  if (chess_fn c =? UINT32_MAX) || negb (chess_started c) || (chess_sel_rank c <? 0) then ui else
  match pixel_square x y with
  | None => ui
  | Some (rank, file) =>
      if (rank =? chess_sel_rank c) && (file =? chess_sel_file c) then set_chess (fun c => c <| chess_dragging := false |>) ui else
      let from := tt_chess_format_square (chess_sel_rank c) (chess_sel_file c) in
      let to := tt_chess_format_square rank file in
      let c := drop_selection c in
      match tt_chess_parse_square from, tt_chess_parse_square to with
      | Some (fr, ff), Some (tr, tf) =>
          match tt_chess_move (chess_board c) fr ff tr tf with
          | Some b =>
              let c := chess_draw_board (c <| chess_board := b |> <| chess_my_turn := bool_decide (to_move b = chess_self c) |>) in
              post TT_CMD_CHESS_MOVE (chess_fn c) (Some (from ++ to)) 0 0 (ui <| chess := c |>)
          | None => ui <| chess := c |>
          end
      | _, _ => ui <| chess := c |>
      end
  end.

Definition cc_chess_resign (ui : Ui) : Ui :=
  let n := chess_fn (chess ui) in
  if n =? UINT32_MAX then ui else post TT_CMD_CHESS_RESIGN n None 0 0 ui.
(** The game itself goes on. *)
Definition cc_chess_close : Ui -> Ui := set_chess (fun c => drop_selection (c <| chess_win := None |> <| chess_fn := UINT32_MAX |>)).
(** The button of the dialog that tells the end: a script of its own. *)
Definition destroy_chessend : Ui -> Ui := set_chess (fun c => c <| chess_over := None |>).
