(* ===== verification/UiTunnel.v ===== *)
(** * UiTunnel: the tunnel panel and its dialogs ([ui/ui_tk.c])

    The tunnel part of [handle_event] and the commands of the dialogs.  The
    interface mirrors the tunnels of the tox thread from the events it gets.
    What a widget holds and which ports are free are arguments. *)
From S2P Require Import Prelude CText TunnelPorts Sidecar History Transcript EventQueue Events Linked UiState.

Definition set_tun (f : TunUi -> TunUi) (ui : Ui) : Ui := ui <| tun := f (tun ui) |>.

(** ** The panel *)

Definition by_tunnel (id : Z) (t : TTTunnelUI) : bool := tn_id t =? id.
Definition tun_ui_find (id : Z) (l : list TTTunnelUI) : option TTTunnelUI := find_first (by_tunnel id) l.
Definition tun_ui_remove (id : Z) (l : list TTTunnelUI) : list TTTunnelUI := del_first (by_tunnel id) l.

Definition tunnel_title (t : TTTunnelUI) : bytes :=
  ascii_bytes (if tn_host t then "Hosting " else "Joined ") ++ endpoint t ++ (if tn_pending t then ascii_bytes " (pending)" else []) ++
  (if tn_e2ee t then [32; 240; 159; 148; 146] else []).
Definition tunnel_row (ui : Ui) (t : TTTunnelUI) : tun_row :=
  mkRow (tunnel_title t)
    (if tn_peer t =? UINT32_MAX then None
     else Some (ascii_bytes "  with " ++ match contact_by_fn ui (tn_peer t) with
                                          | Some c => named (c_name c) (ascii_bytes "friend")
                                          | None => ascii_bytes "friend"
                                          end))
    (tn_id t).
Definition tun_panel_render (ui : Ui) : Ui := set_tun (fun t => t <| tun_rows := tunnel_row ui <$> tunnels t |>) ui.
Definition render_open (ui : Ui) : Ui := if tun_panel_open (tun ui) then tun_panel_render ui else ui.
Definition cc_tun_panel (ui : Ui) : Ui :=
  if tun_panel_open (tun ui) then ui else tun_panel_render (set_tun (fun t => t <| tun_panel_open := true |>) ui).
Definition cc_tun_panel_close : Ui -> Ui := set_tun (fun t => t <| tun_panel_open := false |> <| tun_rows := [] |>).

(** ** Events *)

(** The three lines of the text; the buffer has 256 characters. *)
Definition invite_fields (str : option bytes) : bytes * option bytes * option bytes :=
  let buf := match str with Some s => snprintf_s 256 s | None => [63] end in
  match strchr 10 buf with
  | None => (buf, None, None)
  | Some (host, rest) => match strchr 10 rest with None => (host, Some rest, None) | Some (p1, p2) => (host, Some p1, Some p2) end
  end.
Definition field_ports (f : option bytes) : TTPortRangeList := match f with Some s => (tt_port_list_parse s).2 | None => [] end.
Definition tun_invite_label (host : bytes) (udp : TTPortRangeList) : bytes :=
  snprintf_s 400 (ascii_bytes "invites you to share " ++ host ++ [58] ++ (tt_port_list_to_str udp 256).1 ++
    ascii_bytes " over a tunnel. Accept to expose it on a local loopback IP (127.0.0.x) you can enter in the game.").
Definition on_tunnel_invite (n : Z) (str : option bytes) : Ui -> Ui := set_tun (fun t =>
  if tun_invite_open t then t else
  let '(host, p1, p2) := invite_fields str in
  t <| tun_invite_open := true |> <| tun_invite_fn := n |> <| tun_invite_host := host |>
    <| tun_invite_udp := field_ports p1 |> <| tun_invite_tcp := field_ports p2 |>
    <| tun_inv := Some (tun_invite_label host (field_ports p1)) |>).

(** A tunnel that is not listed goes to the front. *)
Definition on_tunnel_add (n iv iv2 : Z) (str : option bytes) (ui : Ui) : Ui :=
  let id := u32 iv in
  let ep := snprintf_s 300 (match str with Some s => s | None => [63] end) in
  let host := negb (iv2 =? 0) in
  render_open (set_tun (fun t =>
    match tun_ui_find id (tunnels t) with
    | None => t <| tunnels := mkTunnelUI id host false false n ep :: tunnels t |>
    | Some _ => t <| tunnels := upd_first (by_tunnel id) (fun x => x <| tn_host := host |> <| tn_peer := n |> <| endpoint := ep |>) (tunnels t) |>
    end) ui).
Definition on_tunnel_state (n iv iv2 : Z) (ui : Ui) : Ui :=
  let id := u32 iv in
  render_open (set_tun (fun t =>
    if iv2 =? 2 then t <| tunnels := tun_ui_remove id (tunnels t) |>
    else t <| tunnels := upd_first (by_tunnel id) (fun x => x <| tn_pending := false |> <| tn_peer := n |>) (tunnels t) |>) ui).
Definition on_tunnel_e2ee (iv iv2 : Z) (ui : Ui) : Ui :=
  let id := u32 iv in
  match tun_ui_find id (tunnels (tun ui)) with
  | None => ui
  | Some _ => render_open (set_tun (fun t => t <| tunnels := upd_first (by_tunnel id) (fun x => x <| tn_e2ee := negb (iv2 =? 0) |>) (tunnels t) |>) ui)
  end.
Definition on_tunnel_remove (iv : Z) (ui : Ui) : Ui :=
  render_open (set_tun (fun t => t <| tunnels := tun_ui_remove (u32 iv) (tunnels t) |>) ui).
Definition on_tunnel_error (iv : Z) (str : option bytes) (ui : Ui) : Ui :=
  let ui := on_tunnel_remove iv ui in
  set_tun (fun t => t <| tun_errors := tun_errors t ++ [match str with Some s => cstr s | None => ascii_bytes "Tunnel failed." end] |>) ui.

(** ** Dialogs *)

Definition cc_tun_share_open (ui : Ui) : Ui :=
  match sel_kind ui with
  | TT_SEL_CHAT =>
      match contact_by_fn ui (sel_fn ui) with
      | Some _ => if tun_share_open (tun ui) then ui else set_tun (fun t => t <| tun_share_open := true |>) ui
      | None => ui
      end
  | _ => ui
  end.
Definition share_payload (host port tcp : bytes) : bytes := snprintf_s 300 (host ++ [10] ++ port ++ [10] ++ tcp).
(** The three entries are read one after the other, and the friend selected
    then is asked. *)
Definition cc_tun_share_ok (host port tcp : bytes) (ui : Ui) : Ui :=
  match sel_kind ui with
  | TT_SEL_CHAT =>
      if (len host =? 0) || (len port =? 0) then ui else
      post TT_CMD_TUNNEL_SHARE (sel_fn ui) (Some (share_payload host port tcp)) 0 0 (set_tun (fun t => t <| tun_share_open := false |>) ui)
  | _ => ui
  end.
Definition cc_tun_share_cancel : Ui -> Ui := set_tun (fun t => t <| tun_share_open := false |>).

(** [bindable p]: the loopback UDP port [p] is free; [None]: no socket. *)
Section accept.
Context (bindable : option (Z -> bool)).

(** The loop over [k], from [k] to 19. *)
Fixpoint shift_start (free : Z -> bool) (fuel : nat) (start k : Z) : Z :=
  match fuel with
  | O => start
  | S fuel =>
      if start + k <? 65535 then if free (u16 (start + k)) then u16 (start + k) else shift_start free fuel start (k + 1) else start
  end.
Definition pick_start (s : Z) : Z :=
  match bindable with None => s | Some free => if free s then s else shift_start free 19 s 1 end.
Definition auto_pick (l : TTPortRangeList) : TTPortRangeList := (fun r => mkRange (pick_start (start r)) (count r)) <$> l.

Definition accept_text (udp tcp : TTPortRangeList) : bytes :=
  snprintf_s 256 ((tt_port_list_to_str udp 128).1 ++ [10] ++ (tt_port_list_to_str tcp 128).1).
(** [ov]: the ports the user typed. *)
Definition cc_tun_accept (ov : bytes) (ui : Ui) : Ui :=
  let t := tun ui in
  if tun_invite_fn t =? UINT32_MAX then ui else
  let local := if len ov =? 0 then auto_pick (tun_invite_udp t) else (tt_port_list_parse ov).2 in
  post TT_CMD_TUNNEL_ACCEPT (tun_invite_fn t) (Some (accept_text local (tun_invite_tcp t))) 0 0
    (set_tun (fun t => t <| tun_inv := None |> <| tun_invite_open := false |> <| tun_invite_fn := UINT32_MAX |>) ui).
End accept.
Definition cc_tun_decline (ui : Ui) : Ui :=
  let n := tun_invite_fn (tun ui) in
  if n =? UINT32_MAX then ui else
  post TT_CMD_TUNNEL_DECLINE n None 0 0 (set_tun (fun t => t <| tun_inv := None |> <| tun_invite_open := false |> <| tun_invite_fn := UINT32_MAX |>) ui).
Definition cc_tun_stop (id : Z) : Ui -> Ui := post TT_CMD_TUNNEL_STOP 0 None id 0.
