(* ===== verification/UiLoop.v ===== *)
(** * UiLoop: the event loop of the interface ([ui/ui_tk.c])

    [handle_event] as the code dispatches it, over the events of contacts,
    groups, chess and tunnels; the user's part as steps; a run is any interleaving of both. *)
From S2P Require Import Prelude CText Sidecar History Transcript EventQueue Identity Linked Events UiState UiContacts UiCommands UiGroups UiChess UiTunnel.

(** What a handler reads besides the state. *)
Record env := mkEnv { stamp : bytes; now : Z; load : chat -> chat; gm_open : bool }.

Definition handle_event (v : env) (e : event) (ui : Ui) : Ui :=
  let n := friend_number e in
  let s := ev_str e in
  let i := ival e in
  let j := ival2 e in
  match ev_type e with
  | TT_EV_TOXID => on_toxid s ui
  | TT_EV_SELF_CONNECTION => ui <| self_conn := i |>
  | TT_EV_SELF_NAME => on_self_name s ui
  | TT_EV_SELF_STATUS_MSG => on_self_status_msg s ui
  | TT_EV_SELF_STATUS => ui <| self_presence := i |>
  | TT_EV_TOR_MODE => ui <| tor_mode := true |>
  | TT_EV_FRIEND_NAME => on_friend_name n s ui
  | TT_EV_FRIEND_CONNECTION => on_friend_connection n i ui
  | TT_EV_FRIEND_STATUS => on_friend_status n i ui
  | TT_EV_FRIEND_STATUS_MSG => on_friend_status_msg n s ui
  | TT_EV_FRIEND_PUBKEY => on_friend_pubkey n s ui
  | TT_EV_FRIEND_LAST_ONLINE => on_last_online n i ui
  | TT_EV_FRIEND_MESSAGE => on_friend_message (stamp v) n i s ui
  | TT_EV_FRIEND_TYPING => on_friend_typing n i ui
  | TT_EV_MESSAGE_SENT => on_message_sent n i ui
  | TT_EV_FRIEND_READ_RECEIPT => on_read_receipt n i ui
  | TT_EV_OFFLINE_FLUSHED => on_offline_flushed (stamp v) n i ui
  | TT_EV_AV_INCOMING => on_av_incoming (stamp v) n j ui
  | TT_EV_AV_STATE => on_av_state (stamp v) (now v) n i j ui
  | TT_EV_AV_ENDED => on_av_ended (stamp v) n i j ui
  | TT_EV_E2EE_STATE => on_e2ee_state n i s ui
  | TT_EV_E2EE_WARN => on_e2ee_warn (stamp v) n s ui
  | TT_EV_E2EE_ENFORCE => on_e2ee_enforce n i ui
  | TT_EV_FRIEND_REQUEST => on_friend_request s ui
  | TT_EV_FRIEND_LIST_END => on_friend_list_end (load v) ui
  | TT_EV_FILE_TX_STARTED => on_file_tx_started (stamp v) n i s ui
  | TT_EV_FILE_PROGRESS => on_file_progress (stamp v) n s ui
  | TT_EV_FILE_DONE => on_file_done (stamp v) n s ui
  | TT_EV_FILE_FAILED => on_file_failed (stamp v) n ui
  | TT_EV_FILE_OFFER => on_file_offer (stamp v) n i s ui
  | TT_EV_FILE_RESUMED => on_file_resumed (stamp v) n i s ui
  | TT_EV_GROUP_NEW => on_group_new n j s ui
  | TT_EV_GROUP_JOINED => on_group_joined n j s ui
  | TT_EV_GROUP_LEFT => on_group_left n ui
  | TT_EV_GROUP_MSG => on_group_msg (stamp v) n i j s ui
  | TT_EV_GROUP_PRIV_MSG => on_group_priv_msg (stamp v) n i s ui
  | TT_EV_GROUP_TOPIC => on_group_topic (stamp v) n j s ui
  | TT_EV_GROUP_PEER_JOIN => on_peer_join (gm_open v) n i ui
  | TT_EV_GROUP_PEER_EXIT => on_peer_exit (stamp v) n i j s ui
  | TT_EV_GROUP_PEER_NAME => on_peer_name (stamp v) n i s ui
  | TT_EV_GROUP_PEER_STATUS => ui
  | TT_EV_GROUP_PEER_ROLE => on_peer_role (stamp v) n i j ui
  | TT_EV_GROUP_INVITE => on_group_invite n j s ui
  | TT_EV_GROUP_MOD => on_group_mod (stamp v) n i j ui
  | TT_EV_GROUP_MOD_SELF => on_group_mod_self (stamp v) (gm_open v) n i j s ui
  | TT_EV_GROUP_IGNORE_SELF => on_group_ignore_self (stamp v) n i j s ui
  | TT_EV_GROUP_STATE => on_group_state (stamp v) (load v) n i j s ui
  | TT_EV_GROUP_JOIN_FAIL => on_group_join_fail (stamp v) n i ui
  | TT_EV_CHESS_INVITE => on_chess_invite n s ui
  | TT_EV_CHESS_START => on_chess_start n i ui
  | TT_EV_CHESS_MOVE => on_chess_move n (str_len e) s ui
  | TT_EV_CHESS_END => on_chess_end n i j ui
  | TT_EV_TUNNEL_INVITE => on_tunnel_invite n s ui
  | TT_EV_TUNNEL_ADD => on_tunnel_add n i j s ui
  | TT_EV_TUNNEL_STATE => on_tunnel_state n i j ui
  | TT_EV_TUNNEL_E2EE => on_tunnel_e2ee i j ui
  | TT_EV_TUNNEL_REMOVE => on_tunnel_remove i ui
  | TT_EV_TUNNEL_ERROR => on_tunnel_error i s ui
  | TT_EV_SHUTDOWN => ui <| quitting := true |>
  end.
(** [poll_events]: what is queued, in order, unless the UI is quitting. *)
Definition poll_events (v : env) (es : list event) (ui : Ui) : Ui :=
  if quitting ui then ui else fold_left (fun ui e => handle_event v e ui) es ui.

(** What the user does, and the typing timer. *)
Inductive action :=
| Select (r : row) | Search (q : bytes) | KeyPress | Tick | SendText (text : bytes) | Ignore | Remove | Enforce (v : bytes)
| FileYes (p : bytes) | FileNo | FileCancel | FileOpen (f : bytes)
| InviteYes | InviteNo | NewGroup (name : bytes) (public : bool) | JoinGroup (cid pw : bytes) | InviteFriend (pick : bytes)
| SetTopic (s : bytes) | SetPassword (s : bytes) | SetPrivate (b : bool) | SetVoice (v : bytes) | SetLock (b : bool)
| SetRole (p : Z) (v : bytes) | Kick (p : Z) | IgnorePeer (p : Z) | LeaveGroup
| ChessInvite | ChessAccept | ChessDecline | ChessPress (x y : Z) | ChessDrop (x y : Z) | ChessResign | ChessClose | ChessEndOk
| TunPanel | TunPanelClose | TunShare | TunShareOk (host port tcp : bytes) | TunShareCancel
| TunAccept (bindable : option (Z -> bool)) (ov : bytes) | TunDecline | TunStop (id : Z).
Definition act (v : env) (a : action) (ui : Ui) : Ui :=
  match a with
  | Select r => cc_selected r ui
  | Search q => cc_search_changed q ui
  | KeyPress => cc_input_key (now v) ui
  | Tick => typing_tick (now v) ui
  | SendText text => cc_send (stamp v) text ui
  | Ignore => cc_ignore ui
  | Remove => cc_remove ui
  | Enforce b => cc_prof_enforce b ui
  | FileYes p => cc_file_yes (stamp v) p ui
  | FileNo => cc_file_no (stamp v) ui
  | FileCancel => cc_file_cancel (stamp v) ui
  | FileOpen f => cc_file_open f ui
  | InviteYes => cc_ginv_yes ui
  | InviteNo => cc_ginv_no ui
  | NewGroup name public => cc_gnew_ok (Some (name, public)) ui
  | JoinGroup cid pw => cc_gjoin_ok (Some (cid, pw)) ui
  | InviteFriend pick => cc_ginvite_ok (Some pick) ui
  | SetTopic s => cc_gtopic_ok (Some s) ui
  | SetPassword s => cc_gctl_pw (Some s) ui
  | SetPrivate b => cc_gctl_priv (Some b) ui
  | SetVoice s => cc_gctl_voice (Some s) ui
  | SetLock b => cc_gctl_tlock (Some b) ui
  | SetRole p s => cc_grole p s ui
  | Kick p => cc_gkick p ui
  | IgnorePeer p => cc_gignore p ui
  | LeaveGroup => cc_gleave ui
  | ChessInvite => cc_chess_invite ui
  | ChessAccept => cc_chess_accept ui
  | ChessDecline => cc_chess_decline ui
  | ChessPress x y => cc_chess_square x y ui
  | ChessDrop x y => cc_chess_drop x y ui
  | ChessResign => cc_chess_resign ui
  | ChessClose => cc_chess_close ui
  | ChessEndOk => destroy_chessend ui
  | TunPanel => cc_tun_panel ui
  | TunPanelClose => cc_tun_panel_close ui
  | TunShare => cc_tun_share_open ui
  | TunShareOk host port tcp => cc_tun_share_ok host port tcp ui
  | TunShareCancel => cc_tun_share_cancel ui
  | TunAccept b ov => cc_tun_accept b ov ui
  | TunDecline => cc_tun_decline ui
  | TunStop id => cc_tun_stop id ui
  end.

(** One step of the interface thread, and runs. *)
Inductive step := Event (e : event) | Act (a : action).
Definition ui_step (x : env * step) (ui : Ui) : Ui :=
  match snd x with Event e => handle_event (fst x) e ui | Act a => act (fst x) a ui end.
Definition ui_run (xs : list (env * step)) (ui : Ui) : Ui := fold_left (fun ui x => ui_step x ui) xs ui.

(** The loader of the two history functions; [file] is the history file. *)
Definition loader {K : PassKey} (pass_key : option Key) (file : option bytes) (c : chat) : chat :=
  match history_load pass_key file c with Ok c' => c' | _ => c end.
