(* ===== verification/UiSafety.v ===== *)
(** * UiSafety: what holds in every state of the interface

    Contact numbers are unique, there is one request row at most, a member is
    listed once, every text fits its array, and the selection names an entry
    that is there: whatever events come and whatever the user does. *)
From S2P Require Import Prelude CText Sidecar SampleCrypto History Transcript EventQueue Identity Linked Events UiState UiContacts UiCommands UiGroups UiChess UiTunnel UiLoop.

(** ** Well-formed data *)

(** What identifies a row: [None] the friend request, else the number. *)
Definition key (c : Contact) : option Z := if is_request c then None else Some (fn c).
Record chat_ok (c : chat) : Prop := {
  ck_key : len (hist_key c) < 65; ck_transcript : len (transcript c) < TT_TRANSCRIPT_MAX; ck_last : len (last c) < TT_LAST_MAX }.
Record contact_ok (c : Contact) : Prop := {
  co_name : len (c_name c) < TT_NAME_MAX; co_status : len (status_msg c) < TOX_MAX_STATUS_MESSAGE_LENGTH + 1;
  co_key : len (key_hex c) < 65; co_chat : chat_ok (c_chat c); co_code : len (e2ee_code c) < 33;
  co_offer : len (offer_name (c_xfer c)) < TOX_MAX_FILENAME_LENGTH + 1;
  co_xfer : len (xfer_name (c_xfer c)) < TOX_MAX_FILENAME_LENGTH + 1 }.
Record group_ok (g : Group) : Prop := {
  go_name : len (g_name g) < TT_NAME_MAX; go_topic : len (topic g) < TOX_GROUP_MAX_TOPIC_LENGTH + 1;
  go_chat : chat_ok (g_chat g); go_names : Forall (fun m => len (m_name m) < TT_NAME_MAX) (members g);
  go_unique : NoDup (pid <$> members g) }.

Record data_ok (ui : Ui) : Prop := {
  d_contacts : Forall contact_ok (contacts ui); d_unique : NoDup (key <$> contacts ui);
  d_groups : Forall group_ok (groups ui);
  d_name : len (self_name ui) < 128; d_status : len (self_status_msg ui) < TOX_MAX_STATUS_MESSAGE_LENGTH + 1;
  d_id : len (my_toxid ui) < 100; d_filter : len (u_filter ui) < 80 }.
Definition sel_ok (ui : Ui) : Prop :=
  match sel_kind ui with
  | TT_SEL_NONE => True
  | TT_SEL_REQUEST => None ∈ key <$> contacts ui
  | TT_SEL_CHAT => Some (sel_fn ui) ∈ key <$> contacts ui
  | TT_SEL_GROUP => sel_fn ui ∈ gn <$> groups ui
  end.
Definition ui_ok (ui : Ui) : Prop := data_ok ui /\ sel_ok ui.

(** A history loader keeps the identity and the sizes. *)
Definition load_ok (load : chat -> chat) : Prop := forall c, chat_ok c -> chat_ok (load c).

(** ** Texts *)

Create HintDb ui.
Lemma ztake_bound {A} n (l : list A) : 0 <= n -> len (ztake n l) <= n.
Proof. intros H. unfold len, ztake. rewrite length_take. lia. Qed.
Lemma snprintf_fits cap cap' s : 0 < cap <= cap' -> len (snprintf_s cap s) < cap'.
Proof. intros H. unfold snprintf_s. pose proof (ztake_bound (cap - 1) (cstr s)). lia. Qed.
Lemma strchr_some c l a b : strchr c l = Some (a, b) -> l = a ++ c :: b.
Proof.
  revert a. induction l as [|x l IH]; intros a H; [done|]. cbn in H. destruct (x =? c) eqn:E.
  - bool_to_prop. apply (inj Some), pair_eq in H as [<- <-]. by subst.
  - destruct (strchr c l) as [[a' b']|]; [|done]. apply (inj Some), pair_eq in H as [<- <-].
    cbn. by rewrite <- (IH a').
Qed.
Lemma drop_lines_fits need fuel : forall t, (length t <= fuel)%nat ->
  drop_lines fuel need t = [] \/ len (drop_lines fuel need t) + need < TT_TRANSCRIPT_MAX.
Proof.
  induction fuel as [|fuel IH]; intros [|c t] H; cbn [length] in H; [by left|lia|by left|].
  cbn [drop_lines]. case_goal; [bool_to_prop; by right|]. case_goal; [|by left].
  destruct p as [a b]. apply IH. apply strchr_some in Heqo. apply (f_equal length) in Heqo.
  rewrite length_app in Heqo. cbn [length] in Heqo. lia.
Qed.
Lemma transcript_fits stamp who me text t : len (transcript_append stamp who me text t) < TT_TRANSCRIPT_MAX.
Proof.
  unfold transcript_append. set (need := _ + 8). pose proof (drop_lines_fits need (length t) t (le_n _)) as H.
  set (r := drop_lines _ _ _) in *. assert (len r < TT_TRANSCRIPT_MAX) as Hr.
  { assert (0 <= need) by (unfold need; len_lia). destruct H as [-> | H]; [done|lia]. }
  case_goal; [bool_to_prop; rewrite len_app; lia|]. case_goal; bool_to_prop.
  - rewrite !len_app. pose proof (ztake_bound (TT_TRANSCRIPT_MAX - len r - 2) (format_line stamp who me text)).
    change (len [NL]) with 1. lia.
  - rewrite len_app. pose proof (ztake_bound (TT_TRANSCRIPT_MAX - len r - 1) (format_line stamp who me text)). lia.
Qed.

Lemma append_ok stamp who me text c : chat_ok c -> chat_ok (chat_append stamp who me text c).
Proof. intros []. split; cbn; [done|apply transcript_fits|by apply snprintf_fits]. Qed.
Lemma append_sys_ok stamp me text c : chat_ok c -> chat_ok (append_sys stamp me text c).
Proof. apply append_ok. Qed.
Lemma no_chat_ok : chat_ok no_chat.
Proof. done. Qed.
Lemma hist_key_ok k c : len k < 65 -> chat_ok c -> chat_ok (c <| hist_key := k |>).
Proof. intros Hk []. by split. Qed.
Lemma preview_ok s c : len s < TT_LAST_MAX -> chat_ok c -> chat_ok (c <| last := s |>).
Proof. intros Hk []. by split. Qed.
#[export] Hint Resolve append_ok append_sys_ok no_chat_ok hist_key_ok preview_ok : ui.
#[export] Hint Extern 1 (len (copy_text _ _) < _) => by apply snprintf_fits : ui.
#[export] Hint Extern 1 (len (snprintf_s _ _) < _) => by apply snprintf_fits : ui.

(** ** Entries *)

(** An update that keeps an entry well formed and in its place. *)
Definition keeps (f : Contact -> Contact) : Prop := forall c, contact_ok c -> contact_ok (f c) /\ key (f c) = key c.
Definition gkeeps (f : Group -> Group) : Prop := forall g, group_ok g -> group_ok (f g) /\ gn (f g) = gn g.

Lemma by_fn_key n c : by_fn n c = true <-> key c = Some n.
Proof. unfold by_fn, key. destruct (is_request c); cbn; [done|]. rewrite Z.eqb_eq. split; congruence. Qed.
Lemma request_key c : is_request c = true <-> key c = None.
Proof. unfold key. by destruct (is_request c). Qed.
Lemma new_contact_ok n b : contact_ok (new_contact n b).
Proof. done. Qed.
Lemma new_group_ok n : group_ok (new_group n).
Proof. split; try done. constructor. Qed.

Section preserve.
Implicit Types (ui : Ui) (n : Z).

(** Only these fields count. *)
Lemma data_same ui ui' : contacts ui' = contacts ui -> groups ui' = groups ui -> self_name ui' = self_name ui ->
  self_status_msg ui' = self_status_msg ui -> my_toxid ui' = my_toxid ui -> u_filter ui' = u_filter ui -> data_ok ui -> data_ok ui'.
Proof. intros E1 E2 E3 E4 E5 E6 []. by split; rewrite ?E1, ?E2, ?E3, ?E4, ?E5, ?E6. Qed.
Lemma sel_same ui ui' : sel_kind ui' = sel_kind ui -> sel_fn ui' = sel_fn ui ->
  key <$> contacts ui ⊆ key <$> contacts ui' -> gn <$> groups ui ⊆ gn <$> groups ui' -> sel_ok ui -> sel_ok ui'.
Proof. unfold sel_ok. intros -> -> H1 H2. destruct (sel_kind ui); auto. Qed.

Lemma upd_keys (p : Contact -> bool) f (l : list Contact) : Forall contact_ok l -> keeps f -> key <$> upd_first p f l = key <$> l.
Proof.
  intros Hl Hf. induction Hl as [|c l Hc Hl IH]; [done|]. cbn. destruct (p c); cbn; [by rewrite (proj2 (Hf c Hc))|by rewrite IH].
Qed.
Lemma upd_gns (p : Group -> bool) f (l : list Group) : Forall group_ok l -> gkeeps f -> gn <$> upd_first p f l = gn <$> l.
Proof.
  intros Hl Hf. induction Hl as [|c l Hc Hl IH]; [done|]. cbn. destruct (p c); cbn; [by rewrite (proj2 (Hf c Hc))|by rewrite IH].
Qed.
Lemma upd_all {A} (P : A -> Prop) p f l : (forall a, P a -> P (f a)) -> Forall P l -> Forall P (upd_first p f l).
Proof. apply upd_first_forall. Qed.

Lemma contacts_upd_ok p f ui : keeps f -> ui_ok ui -> ui_ok (ui <| contacts := upd_first p f (contacts ui) |>).
Proof.
  intros Hf [D S]. pose proof (upd_keys p f (contacts ui) (d_contacts _ D) Hf) as E. split.
  - destruct D. split; cbn; try done; [apply upd_all; [apply Hf|done]|by rewrite E].
  - eapply sel_same, S; try done. cbn. by rewrite E.
Qed.
Lemma upd_contact_ok n f ui : keeps f -> ui_ok ui -> ui_ok (upd_contact n f ui).
Proof. apply contacts_upd_ok. Qed.
Lemma upd_group_ok n f ui : gkeeps f -> ui_ok ui -> ui_ok (upd_group n f ui).
Proof.
  intros Hf [D S]. pose proof (upd_gns (by_gn n) f (groups ui) (d_groups _ D) Hf) as E. split.
  - destruct D. split; cbn; try done. apply upd_all; [apply Hf|done].
  - eapply sel_same, S; try done. cbn. by rewrite E.
Qed.

(** A new row is no second one. *)
Lemma contact_new_ok c ui : contact_ok c -> key c ∉ key <$> contacts ui -> ui_ok ui -> ui_ok (ui <| contacts := contacts ui ++ [c] |>).
Proof.
  intros Hc Hk [D S]. split.
  - destruct D. split; cbn; try done; [apply Forall_app; split; [done|by apply Forall_singleton]|].
    rewrite fmap_app. apply NoDup_app. split; [done|]. split; [|apply NoDup_singleton]. intros k Hin H%list_elem_of_singleton. by rewrite H in Hin.
  - eapply sel_same, S; try done. cbn. rewrite fmap_app. intros k Hin. apply elem_of_app. by left.
Qed.
Lemma absent_key (p : Contact -> bool) k l : (forall c, p c = true <-> key c = k) -> find_first p l = None -> k ∉ key <$> l.
Proof.
  intros Hp H [c [-> Hc]]%list_elem_of_fmap. rewrite find_first_none in H. specialize (H c Hc).
  by rewrite (proj2 (Hp c) eq_refl) in H.
Qed.
Lemma contact_ensure_ok n ui : ui_ok ui -> ui_ok (contact_ensure n ui).
Proof.
  intros H. unfold contact_ensure, ensure. destruct (find_first _ _) eqn:E; [by destruct ui|].
  apply contact_new_ok; [apply new_contact_ok| |done]. eapply absent_key; [|done]. intros c. apply by_fn_key.
Qed.
Lemma group_add_ok g ui : group_ok g -> ui_ok ui -> ui_ok (group_add g ui).
Proof.
  intros Hg [D S]. split.
  - destruct D. split; cbn; try done. apply Forall_app; split; [done|by apply Forall_singleton].
  - eapply sel_same, S; try done. cbn. rewrite fmap_app. intros k Hin. apply elem_of_app. by left.
Qed.
Lemma fmap_del {A B} (g : A -> B) p l : sublist (g <$> del_first p l) (g <$> l).
Proof. induction l as [|b l IH]; [constructor|]. cbn. destruct (p b); [by apply sublist_cons|by apply sublist_skip]. Qed.
Lemma contact_remove_data p ui : data_ok ui -> data_ok (contact_remove p ui).
Proof.
  intros D. unfold contact_remove. destruct (find_first _ _); [|done].
  assert (data_ok (ui <| contacts := del_first p (contacts ui) |>)) as D'.
  { pose proof (del_first_sublist p (contacts ui)) as H. destruct D. split; cbn; try done.
    - by eapply del_first_forall.
    - eapply sublist_NoDup; [done|]. apply fmap_del. }
  destruct (offer_pending _); [|done]. by eapply data_same, D'.
Qed.
Lemma group_remove_data n ui : data_ok ui -> data_ok (group_remove n ui).
Proof. intros []. split; cbn; try done. by apply del_first_forall. Qed.

(** The fields that do not count. *)
Lemma same_ok ui ui' : contacts ui' = contacts ui -> groups ui' = groups ui -> self_name ui' = self_name ui ->
  self_status_msg ui' = self_status_msg ui -> my_toxid ui' = my_toxid ui -> u_filter ui' = u_filter ui ->
  sel_kind ui' = sel_kind ui -> sel_fn ui' = sel_fn ui -> ui_ok ui -> ui_ok ui'.
Proof.
  intros E1 E2 E3 E4 E5 E6 E7 E8 [D S]. split; [by eapply data_same, D|].
  eapply sel_same, S; [done|done|by rewrite E1|by rewrite E2].
Qed.
Lemma post_ok ty n s i j ui : ui_ok ui -> ui_ok (post ty n s i j ui).
Proof. by apply same_ok. Qed.
Lemma live_line_ok stamp who me text ui : ui_ok ui -> ui_ok (live stamp who me text ui).
Proof. by apply same_ok. Qed.
Lemma when_ok b f ui : (forall u, ui_ok u -> ui_ok (f u)) -> ui_ok ui -> ui_ok (when_ui b f ui).
Proof. intros Hf H. destruct b; [by apply Hf|done]. Qed.

Lemma in_keys c l k : In c l -> key c = k -> k ∈ key <$> l.
Proof. intros Hin <-. apply list_elem_of_fmap. exists c. split; [done|by apply list_elem_of_In]. Qed.
Lemma keep_sel ui : have_keep ui = true -> sel_ok ui.
Proof.
  unfold have_keep, sel_ok. destruct (sel_kind ui); [done| | |]; intros (x & Hin & H)%existsb_exists; bool_to_prop.
  - by eapply in_keys; [|apply request_key].
  - by eapply in_keys; [|apply by_fn_key].
  - apply list_elem_of_fmap. exists x. unfold by_gn in *. bool_to_prop. split; [done|by apply list_elem_of_In].
Qed.
(** However the selection stood, it is in order after the list is drawn. *)
Lemma roster_data ui : data_ok ui -> ui_ok (roster_render ui).
Proof.
  intros D. unfold roster_render. destruct (have_keep ui) eqn:E; [split; [done|by apply keep_sel]|].
  destruct (sel_kind ui) eqn:K; split; try done; try (by eapply data_same, D). unfold sel_ok. by rewrite K.
Qed.
Lemma roster_ok ui : ui_ok ui -> ui_ok (roster_render ui).
Proof. intros [D _]. by apply roster_data. Qed.
Lemma show_ok ui : ui_ok ui -> ui_ok (show_selected ui).
Proof.
  intros H. unfold show_selected, contact_by_fn, request_row, group_by_gn. destruct (sel_kind ui) eqn:K.
  - by apply same_ok with ui.
  - case_goal; [done|by apply same_ok with ui].
  - case_goal; [|by apply same_ok with ui]. apply roster_ok. eapply same_ok; [..|apply (upd_contact_ok (sel_fn ui) (fun c => c <| unread := 0 |>)), H]; try done.
    intros x Hx. split; [|done]. by destruct Hx.
  - case_goal; [|by apply same_ok with ui]. apply roster_ok. eapply same_ok; [..|apply (upd_group_ok (sel_fn ui) (fun c => c <| g_unread := 0 |>)), H]; try done.
    intros x Hx. split; [|done]. by destruct Hx.
Qed.
Lemma show_data ui : data_ok ui -> sel_kind ui = TT_SEL_NONE -> ui_ok (show_selected (roster_render ui)).
Proof. intros D _. apply show_ok. by apply roster_data. Qed.
End preserve.

(** ** Automation *)

Lemma keeps_chat f : (forall c, chat_ok c -> chat_ok (f c)) -> keeps (fun c => c <| c_chat := f (c_chat c) |>).
Proof. intros Hf c []. split; [|done]. split; try done. by apply Hf. Qed.
Lemma gkeeps_chat f : (forall c, chat_ok c -> chat_ok (f c)) -> gkeeps (fun c => c <| g_chat := f (g_chat c) |>).
Proof. intros Hf c []. split; [|done]. split; try done. by apply Hf. Qed.
Lemma keeps_call f : keeps (upd_call f).
Proof. intros c []. by split. Qed.

(** A record update whose changed fields are bounded. *)
Ltac keeps_solve :=
  intros ? []; (split; [split; cbn; auto with ui; try done; try (apply snprintf_fits; done)|done]).
#[export] Hint Resolve keeps_chat gkeeps_chat keeps_call contact_ensure_ok post_ok live_line_ok when_ok roster_ok show_ok : ui.
#[export] Hint Extern 1 (0 < _ <= _) => done : ui.
#[export] Hint Extern 5 (keeps _) => keeps_solve : ui.
#[export] Hint Extern 5 (gkeeps _) => keeps_solve : ui.
#[export] Hint Extern 2 (ui_ok (upd_contact _ _ _)) => apply upd_contact_ok : ui.
#[export] Hint Extern 2 (ui_ok (upd_group _ _ _)) => apply upd_group_ok : ui.
#[export] Hint Extern 4 (ui_ok (set_field _ ?u)) => apply (same_ok u); [done..|] : ui.

Lemma contact_sys_ok stamp n me fl text ui : ui_ok ui -> ui_ok (contact_sys stamp n me fl text ui).
Proof. unfold contact_sys. auto 8 with ui. Qed.
Lemma group_sys_ok stamp n text ui : ui_ok ui -> ui_ok (group_sys stamp n text ui).
Proof. unfold group_sys. auto 8 with ui. Qed.
#[export] Hint Resolve contact_sys_ok group_sys_ok : ui.
Lemma show_if_ok n ui : ui_ok ui -> ui_ok (show_if_selected n ui).
Proof. unfold show_if_selected. auto with ui. Qed.
Lemma xfer_line_ok stamp n mine text ui : ui_ok ui -> ui_ok (xfer_line stamp n mine text ui).
Proof. unfold xfer_line. auto with ui. Qed.
Lemma group_line_ok stamp n cap text ui : ui_ok ui -> ui_ok (group_line stamp n cap text ui).
Proof. unfold group_line. auto with ui. Qed.
#[export] Hint Resolve show_if_ok xfer_line_ok group_line_ok : ui.

(** ** Every event *)

Ltac ui_auto := intros; cbv zeta; repeat (case_match; cbv zeta in *); auto 20 with ui.

Lemma on_toxid_ok s ui : ui_ok ui -> ui_ok (on_toxid s ui).
Proof. intros [[] S]. unfold on_toxid. destruct s; [|by repeat split]. split; [|done]. split; try done. by apply snprintf_fits. Qed.
Lemma on_self_name_ok s ui : ui_ok ui -> ui_ok (on_self_name s ui).
Proof. intros [[] S]. unfold on_self_name. case_match; [|by repeat split]. split; [|done]. split; try done. by apply snprintf_fits. Qed.
Lemma on_self_status_msg_ok s ui : ui_ok ui -> ui_ok (on_self_status_msg s ui).
Proof. intros [[] S]. unfold on_self_status_msg. case_match; [|by repeat split]. split; [|done]. split; try done. by apply snprintf_fits. Qed.
#[export] Hint Resolve on_toxid_ok on_self_name_ok on_self_status_msg_ok : ui.

Section events.
Context (v : env) (Hload : load_ok (load v)).
Implicit Types (ui : Ui) (e : event).

Lemma on_friend_name_ok n s ui : ui_ok ui -> ui_ok (on_friend_name n s ui).
Proof. unfold on_friend_name. solve [ui_auto]. Qed.
Lemma on_friend_connection_ok n i ui : ui_ok ui -> ui_ok (on_friend_connection n i ui).
Proof. unfold on_friend_connection. solve [ui_auto]. Qed.
Lemma on_friend_status_ok n i ui : ui_ok ui -> ui_ok (on_friend_status n i ui).
Proof. unfold on_friend_status. solve [ui_auto]. Qed.
Lemma on_friend_status_msg_ok n s ui : ui_ok ui -> ui_ok (on_friend_status_msg n s ui).
Proof. unfold on_friend_status_msg. solve [ui_auto]. Qed.
Lemma on_friend_pubkey_ok n s ui : ui_ok ui -> ui_ok (on_friend_pubkey n s ui).
Proof. unfold on_friend_pubkey. solve [ui_auto]. Qed.
Lemma on_last_online_ok n i ui : ui_ok ui -> ui_ok (on_last_online n i ui).
Proof. unfold on_last_online. solve [ui_auto]. Qed.
Lemma on_friend_message_ok st n i s ui : ui_ok ui -> ui_ok (on_friend_message st n i s ui).
Proof. unfold on_friend_message. solve [ui_auto]. Qed.
Lemma on_message_sent_ok n i ui : ui_ok ui -> ui_ok (on_message_sent n i ui).
Proof. unfold on_message_sent. solve [ui_auto]. Qed.
Lemma on_read_receipt_ok n i ui : ui_ok ui -> ui_ok (on_read_receipt n i ui).
Proof. unfold on_read_receipt. solve [ui_auto]. Qed.
Lemma on_offline_flushed_ok st n i ui : ui_ok ui -> ui_ok (on_offline_flushed st n i ui).
Proof. unfold on_offline_flushed. solve [ui_auto]. Qed.
Lemma on_av_incoming_ok st n j ui : ui_ok ui -> ui_ok (on_av_incoming st n j ui).
Proof. unfold on_av_incoming. solve [ui_auto]. Qed.
Lemma on_av_state_ok st nw n i j ui : ui_ok ui -> ui_ok (on_av_state st nw n i j ui).
Proof. unfold on_av_state. solve [ui_auto]. Qed.
Lemma on_av_ended_ok st n i j ui : ui_ok ui -> ui_ok (on_av_ended st n i j ui).
Proof. unfold on_av_ended. solve [ui_auto]. Qed.

Lemma code_fits on s old : len old < 33 -> len (code_after on s old) < 33.
Proof. intros H. unfold code_after. destruct on, s as [s|]; try done. case_goal; [|done]. bool_to_prop. pose proof (cstr_len s). lia. Qed.
Lemma on_e2ee_state_ok n i s ui : ui_ok ui -> ui_ok (on_e2ee_state n i s ui).
Proof.
  intros H. unfold on_e2ee_state. destruct (contact_by_fn _ n) as [c|]; [|by apply contact_ensure_ok]. cbv zeta.
  assert (keeps (fun d => d <| e2ee := i =? 1 |> <| e2ee_code := code_after (i =? 1) s (e2ee_code d) |>)) as K.
  { intros ? []. split; [|done]. split; try done. by apply code_fits. }
  destruct (eqb _ _); auto 8 with ui.
Qed.
Lemma on_e2ee_warn_ok st n s ui : ui_ok ui -> ui_ok (on_e2ee_warn st n s ui).
Proof. unfold on_e2ee_warn. solve [ui_auto]. Qed.
Lemma on_e2ee_enforce_ok n i ui : ui_ok ui -> ui_ok (on_e2ee_enforce n i ui).
Proof. unfold on_e2ee_enforce. solve [ui_auto]. Qed.
Lemma on_friend_typing_ok n i ui : ui_ok ui -> ui_ok (on_friend_typing n i ui).
Proof. unfold on_friend_typing. solve [ui_auto]. Qed.
Lemma on_friend_request_ok s ui : ui_ok ui -> ui_ok (on_friend_request s ui).
Proof.
  intros H. unfold on_friend_request. apply roster_ok. destruct s as [s|]; [|done]. case_goal.
  - destruct (request_row ui) eqn:E; [done|]. apply contact_new_ok; [|by eapply (absent_key is_request); [apply request_key|]|done].
    split; try done. cbn. by apply snprintf_fits.
  - destruct (request_row ui) eqn:E; [|done]. apply contacts_upd_ok; [|done]. auto 8 with ui.
Qed.
Lemma on_friend_list_end_ok ld ui : load_ok ld -> ui_ok ui -> ui_ok (on_friend_list_end ld ui).
Proof.
  intros Hld H. unfold on_friend_list_end. cbv zeta. destruct (history _); [|auto with ui]. apply roster_data. destruct H as [[] _]. split; try done; cbn.
  - apply Forall_fmap. eapply Forall_impl; [done|]. intros c Hc. cbn. destruct (is_request c); [done|]. by apply (keeps_chat ld Hld).
  - rewrite <- list_fmap_compose. erewrite list_fmap_ext; [done|]. intros i c _. cbn. unfold key. destruct (is_request c) eqn:E; cbn; by rewrite ?E.
Qed.
Lemma on_file_tx_started_ok st n i s ui : ui_ok ui -> ui_ok (on_file_tx_started st n i s ui).
Proof. unfold on_file_tx_started. solve [ui_auto]. Qed.
Lemma on_file_progress_ok st n s ui : ui_ok ui -> ui_ok (on_file_progress st n s ui).
Proof. unfold on_file_progress. solve [ui_auto]. Qed.
Lemma on_file_done_ok st n s ui : ui_ok ui -> ui_ok (on_file_done st n s ui).
Proof. unfold on_file_done. solve [ui_auto]. Qed.
Lemma on_file_failed_ok st n ui : ui_ok ui -> ui_ok (on_file_failed st n ui).
Proof. unfold on_file_failed. solve [ui_auto]. Qed.
Lemma on_file_offer_ok st n i s ui : ui_ok ui -> ui_ok (on_file_offer st n i s ui).
Proof. unfold on_file_offer, offer_show. solve [ui_auto]. Qed.
Lemma on_file_resumed_ok st n i s ui : ui_ok ui -> ui_ok (on_file_resumed st n i s ui).
Proof. unfold on_file_resumed. solve [ui_auto]. Qed.
End events.

(** ** Group events *)

Definition mkeeps (f : GroupMember -> GroupMember) : Prop :=
  forall m, len (m_name m) < TT_NAME_MAX -> len (m_name (f m)) < TT_NAME_MAX /\ pid (f m) = pid m.

Lemma upd_pids p f l : (forall m : GroupMember, pid (f m) = pid m) -> pid <$> upd_first p f l = pid <$> l.
Proof. intros H. by apply upd_first_fmap. Qed.
Lemma members_upd_ok p f l : mkeeps f -> Forall (fun m => len (m_name m) < TT_NAME_MAX) l -> NoDup (pid <$> l) ->
  Forall (fun m => len (m_name m) < TT_NAME_MAX) (upd_first p f l) /\ NoDup (pid <$> upd_first p f l).
Proof.
  intros Hf Hl Hd. split; [apply upd_all; [apply Hf|done]|].
  assert (pid <$> upd_first p f l = pid <$> l) as ->; [|done].
  clear Hd. induction Hl as [|m l Hm Hl IH]; [done|]. cbn. destruct (p m); cbn; [by rewrite (proj2 (Hf m Hm))|by rewrite IH].
Qed.
Lemma upd_member_ok p f : mkeeps f -> gkeeps (upd_member p f).
Proof.
  intros Hf g [? ? ? H1 H2]. split; [|done]. destruct (members_upd_ok (by_pid p) f (members g) Hf H1 H2). by split.
Qed.
Lemma upsert_ok p f : mkeeps f -> gkeeps (group_member_upsert p f).
Proof.
  intros Hf g []. split; [|done].
  set (l := ensure (by_pid p) (new_member p) (members g)).
  assert (Forall (fun m => len (m_name m) < TT_NAME_MAX) l) as H1 by (by apply ensure_forall).
  assert (NoDup (pid <$> l)) as H2.
  { unfold l, ensure. destruct (find_first _ _) eqn:E; [done|]. rewrite fmap_app. apply NoDup_app. split; [done|].
    split; [|apply NoDup_singleton]. intros x [m [-> Hm]]%list_elem_of_fmap H%list_elem_of_singleton.
    rewrite find_first_none in E. specialize (E m Hm). unfold by_pid in E. cbn in H. lia. }
  destruct (members_upd_ok (by_pid p) f l Hf H1 H2). by split.
Qed.
Lemma del_member_ok p : gkeeps (del_member p).
Proof.
  intros g []. split; [|done]. split; try done; cbn; [by apply del_first_forall|].
  eapply sublist_NoDup; [done|]. apply fmap_del.
Qed.
Ltac mkeeps_solve := intros m Hm; split; cbn; auto with ui.
#[export] Hint Resolve upd_member_ok upsert_ok del_member_ok : ui.
#[export] Hint Extern 5 (mkeeps _) => mkeeps_solve : ui.

Lemma with_group_ok n f ui : (forall g, group_by_gn ui n = Some g -> group_ok g -> ui_ok (f g ui)) -> ui_ok ui -> ui_ok (with_group n f ui).
Proof.
  intros Hf H. unfold with_group. destruct (group_by_gn ui n) as [g|] eqn:E; [|done]. apply Hf; [done|].
  apply find_first_some in E as [Hin _]. destruct H as [[] _]. by eapply Forall_forall.
Qed.
(** A group that goes leaves no selection behind. *)
Lemma group_gone_ok n ui : ui_ok ui ->
  data_ok (group_remove n (when_ui (group_selected ui n) (fun ui => ui <| sel_kind := TT_SEL_NONE |>) ui)).
Proof. intros [D _]. apply group_remove_data. destruct (group_selected ui n); [|done]. by eapply data_same, D. Qed.

Section group_events.
Implicit Types (ui : Ui).

Lemma on_group_new_ok n j s ui : ui_ok ui -> ui_ok (on_group_new n j s ui).
Proof.
  intros H. unfold on_group_new. cbv zeta. apply roster_ok, post_ok, group_add_ok; [|done].
  split; try done; cbn; [|constructor]. case_match; [by apply snprintf_fits|done].
Qed.
Lemma on_group_joined_ok n j s ui : ui_ok ui -> ui_ok (on_group_joined n j s ui).
Proof.
  intros H. unfold on_group_joined. cbv zeta. apply roster_ok, post_ok, group_add_ok; [|done].
  split; try done; cbn; [|constructor]. case_match; [by apply snprintf_fits|done].
Qed.
Lemma on_group_left_ok n ui : ui_ok ui -> ui_ok (on_group_left n ui).
Proof.
  intros H. unfold on_group_left, with_group. cbv zeta. apply show_ok, roster_data.
  destruct (group_by_gn ui n); [by apply group_gone_ok|apply H].
Qed.
Lemma on_group_join_fail_ok st n i ui : ui_ok ui -> ui_ok (on_group_join_fail st n i ui).
Proof.
  intros H. unfold on_group_join_fail, with_group. cbv zeta. apply show_ok, roster_data.
  destruct (group_by_gn ui n); [|apply H]. apply group_gone_ok. auto with ui.
Qed.
Lemma on_group_msg_ok st n i j s ui : ui_ok ui -> ui_ok (on_group_msg st n i j s ui).
Proof. intros H. unfold on_group_msg. destruct s as [s|]; [|done]. apply with_group_ok; [|done]. solve [ui_auto]. Qed.
Lemma on_group_priv_msg_ok st n i s ui : ui_ok ui -> ui_ok (on_group_priv_msg st n i s ui).
Proof. intros H. unfold on_group_priv_msg. destruct s as [s|]; [|done]. apply with_group_ok; [|done]. solve [ui_auto]. Qed.
Lemma on_group_topic_ok st n j s ui : ui_ok ui -> ui_ok (on_group_topic st n j s ui).
Proof. intros H. unfold on_group_topic. apply with_group_ok; [|done]. solve [ui_auto]. Qed.
Lemma on_peer_join_ok gm n i ui : ui_ok ui -> ui_ok (on_peer_join gm n i ui).
Proof. intros H. unfold on_peer_join. apply with_group_ok; [|done]. solve [ui_auto]. Qed.
Lemma on_peer_exit_ok st n i j s ui : ui_ok ui -> ui_ok (on_peer_exit st n i j s ui).
Proof. intros H. unfold on_peer_exit. apply with_group_ok; [|done]. solve [ui_auto]. Qed.
Lemma announce_join_ok st n p ui : ui_ok ui -> ui_ok (announce_join st n p ui).
Proof. intros H. unfold announce_join. apply with_group_ok; [|done]. solve [ui_auto]. Qed.
Lemma on_peer_name_ok st n i s ui : ui_ok ui -> ui_ok (on_peer_name st n i s ui).
Proof.
  intros H. unfold on_peer_name. apply with_group_ok; [|done]. intros g _ _. cbv zeta. apply announce_join_ok, upd_group_ok; [|done].
  apply upsert_ok. intros m Hm. destruct s; cbn; auto with ui.
Qed.
Lemma on_peer_role_ok st n i j ui : ui_ok ui -> ui_ok (on_peer_role st n i j ui).
Proof. intros H. unfold on_peer_role. apply with_group_ok; [|done]. intros g _ _. cbv zeta. apply announce_join_ok, upd_group_ok; auto with ui. Qed.
Lemma on_group_mod_ok st n i j ui : ui_ok ui -> ui_ok (on_group_mod st n i j ui).
Proof. intros H. unfold on_group_mod. apply with_group_ok; [|done]. solve [ui_auto]. Qed.
Lemma on_group_mod_self_ok st gm n i j s ui : ui_ok ui -> ui_ok (on_group_mod_self st gm n i j s ui).
Proof. intros H. unfold on_group_mod_self. apply with_group_ok; [|done]. solve [ui_auto]. Qed.
Lemma on_group_ignore_self_ok st n i j s ui : ui_ok ui -> ui_ok (on_group_ignore_self st n i j s ui).
Proof. intros H. unfold on_group_ignore_self. apply with_group_ok; [|done]. solve [ui_auto]. Qed.
Lemma on_group_state_ok st ld n i j s ui : load_ok ld -> ui_ok ui -> ui_ok (on_group_state st ld n i j s ui).
Proof.
  intros Hld H. unfold on_group_state. apply with_group_ok; [|done]. intros g _ _. cbv zeta.
  destruct (i =? -1); [auto 8 with ui|]. destruct (i =? -2); [auto 8 with ui|]. destruct (i =? -3); [auto 8 with ui|].
  destruct (i =? -7); [auto 8 with ui|]. destruct (i =? -8); [auto 8 with ui|]. destruct (i =? -9); [auto 8 with ui|].
  destruct (i =? -10); [auto 8 with ui|]. destruct (i =? -4); [auto 8 with ui|].
  destruct (i =? -5); [|destruct (i =? -6); [auto 8 with ui|]; destruct (i =? -11); auto 8 with ui].
  apply when_ok; [auto with ui|]. destruct s as [s|]; [|done]. destruct (len s =? _) eqn:E; [|done]. bool_to_prop. cbn.
  apply upd_group_ok; [|done]. apply (gkeeps_chat (fun c => c <| hist_key := cstr s |>)).
  intros c. apply hist_key_ok. pose proof (cstr_len s). change (TOX_GROUP_CHAT_ID_SIZE * 2) with 64 in E. lia.
Qed.
Lemma on_group_invite_ok n j s ui : ui_ok ui -> ui_ok (on_group_invite n j s ui).
Proof. unfold on_group_invite. solve [ui_auto]. Qed.
End group_events.
#[export] Hint Resolve on_friend_name_ok on_friend_connection_ok on_friend_status_ok on_friend_status_msg_ok on_friend_pubkey_ok
  on_last_online_ok on_friend_message_ok on_message_sent_ok on_read_receipt_ok on_offline_flushed_ok on_av_incoming_ok on_av_state_ok
  on_av_ended_ok on_e2ee_state_ok on_e2ee_warn_ok on_e2ee_enforce_ok on_friend_typing_ok on_friend_request_ok on_friend_list_end_ok
  on_file_tx_started_ok on_file_progress_ok on_file_done_ok on_file_failed_ok on_file_offer_ok on_file_resumed_ok
  on_group_new_ok on_group_joined_ok on_group_left_ok on_group_join_fail_ok on_group_msg_ok on_group_priv_msg_ok on_group_topic_ok
  on_peer_join_ok on_peer_exit_ok on_peer_name_ok on_peer_role_ok on_group_mod_ok on_group_mod_self_ok on_group_ignore_self_ok
  on_group_state_ok on_group_invite_ok : ui.

(** Chess and tunnels are elsewhere. *)
Lemma set_chess_ok f ui : ui_ok ui -> ui_ok (set_chess f ui).
Proof. by apply same_ok. Qed.
Lemma set_tun_ok f ui : ui_ok ui -> ui_ok (set_tun f ui).
Proof. by apply same_ok. Qed.
Lemma render_open_ok ui : ui_ok ui -> ui_ok (render_open ui).
Proof. intros H. unfold render_open, tun_panel_render. destruct (tun_panel_open _); [by apply set_tun_ok|done]. Qed.
#[export] Hint Resolve set_chess_ok set_tun_ok render_open_ok : ui.
Lemma on_tunnel_e2ee_ok i j ui : ui_ok ui -> ui_ok (on_tunnel_e2ee i j ui).
Proof. unfold on_tunnel_e2ee. solve [ui_auto]. Qed.
#[export] Hint Resolve on_tunnel_e2ee_ok : ui.

Lemma event_ok v e ui : load_ok (load v) -> ui_ok ui -> ui_ok (handle_event v e ui).
Proof.
  intros Hl H. unfold handle_event. destruct (ev_type e); cbv zeta; unfold on_chess_invite, on_chess_start, on_chess_move, on_chess_end,
    on_tunnel_invite, on_tunnel_add, on_tunnel_state, on_tunnel_error, on_tunnel_remove; auto with ui.
Qed.

(** ** Every action *)

Section actions.
Implicit Types (ui : Ui).

Lemma row_sel_ok ui r kind n : row_sel ui r = (kind, n) -> data_ok ui -> ui_ok (ui <| sel_kind := kind |> <| sel_fn := n |>).
Proof.
  intros E D. split; [by eapply data_same, D|]. unfold row_sel, contact_by_iid, group_by_iid, request_row, contact_by_fn, group_by_gn in E.
  assert (forall p (c : Contact), find_first p (contacts ui) = Some c -> (kind, n) = (if is_request c then (TT_SEL_REQUEST, 0) else (TT_SEL_CHAT, fn c)) ->
    sel_ok (ui <| sel_kind := kind |> <| sel_fn := n |>)) as Hc.
  { intros p c [Hin _]%find_first_some Hk. unfold sel_ok. cbn. destruct (is_request c) eqn:R; apply pair_eq in Hk as [-> ->];
      apply list_elem_of_fmap; exists c; unfold key; by rewrite R. }
  destruct r as [|m|m|].
  - destruct (find_first _ _) eqn:F; [by eapply Hc|]. by apply pair_eq in E as [<- <-].
  - destruct (find_first _ _) eqn:F; [by eapply Hc|]. by apply pair_eq in E as [<- <-].
  - destruct (find_first _ _) eqn:F; apply pair_eq in E as [<- <-]; [|done]. apply find_first_some in F as [Hin _].
    unfold sel_ok. cbn. apply list_elem_of_fmap. by exists g.
  - by apply pair_eq in E as [<- <-].
Qed.
Lemma cc_selected_ok r ui : ui_ok ui -> ui_ok (cc_selected r ui).
Proof.
  intros H. unfold cc_selected. destruct (row_sel ui r) as [kind n] eqn:E. case_goal; [done|].
  apply show_ok. eapply row_sel_ok; [done|apply H].
Qed.
Lemma cc_search_ok q ui : ui_ok ui -> ui_ok (cc_search_changed q ui).
Proof. intros [[] _]. unfold cc_search_changed. apply roster_data. split; try done. by apply snprintf_fits. Qed.
Lemma typing_stop_ok ui : ui_ok ui -> ui_ok (typing_stop ui).
Proof. unfold typing_stop. solve [ui_auto]. Qed.
Hint Resolve typing_stop_ok : ui.
Lemma typing_tick_ok nw ui : ui_ok ui -> ui_ok (typing_tick nw ui).
Proof. unfold typing_tick. solve [ui_auto]. Qed.
Lemma typing_keystroke_ok nw n ui : ui_ok ui -> ui_ok (typing_keystroke nw n ui).
Proof. unfold typing_keystroke. solve [ui_auto]. Qed.
Hint Resolve typing_keystroke_ok : ui.
Lemma cc_input_key_ok nw ui : ui_ok ui -> ui_ok (cc_input_key nw ui).
Proof. unfold cc_input_key. solve [ui_auto]. Qed.
Lemma send_chat_ok st n text ui : ui_ok ui -> ui_ok (send_chat st n text ui).
Proof. unfold send_chat. solve [ui_auto]. Qed.
Lemma send_group_ok st n text ui : ui_ok ui -> ui_ok (send_group st n text ui).
Proof. unfold send_group. solve [ui_auto]. Qed.
Hint Resolve send_chat_ok send_group_ok : ui.
Lemma post_data ty n s i j ui : data_ok ui -> data_ok (post ty n s i j ui).
Proof. by apply data_same. Qed.
Lemma sel_data k n ui : data_ok ui -> data_ok (ui <| sel_kind := k |> <| sel_fn := n |>).
Proof. by apply data_same. Qed.
Lemma kind_data k ui : data_ok ui -> data_ok (ui <| sel_kind := k |>).
Proof. by apply data_same. Qed.
Hint Resolve post_data sel_data kind_data contact_remove_data : ui.
Lemma cc_send_ok st text ui : ui_ok ui -> ui_ok (cc_send st text ui).
Proof.
  intros H. unfold cc_send. destruct (negb _); [done|]. destruct (sel_kind ui); auto with ui. destruct (request_row ui); [|done].
  destruct H as [D _]. apply show_ok, roster_data. auto with ui.
Qed.
Lemma cc_ignore_ok ui : ui_ok ui -> ui_ok (cc_ignore ui).
Proof. intros H. unfold cc_ignore. destruct (request_row ui); [|done]. destruct H as [D _]. apply show_ok, roster_data. auto with ui. Qed.
Lemma cc_remove_ok ui : ui_ok ui -> ui_ok (cc_remove ui).
Proof.
  intros H. unfold cc_remove. destruct (sel_kind ui); try done. cbv zeta. destruct (contact_by_fn _ _); [|done].
  destruct H as [D _]. apply show_ok, roster_data. auto with ui.
Qed.
Lemma cc_prof_enforce_ok b ui : ui_ok ui -> ui_ok (cc_prof_enforce b ui).
Proof. unfold cc_prof_enforce. solve [ui_auto]. Qed.
Lemma close_offer_ok n ui : ui_ok ui -> ui_ok (close_offer n ui).
Proof. unfold close_offer. solve [ui_auto]. Qed.
Hint Resolve close_offer_ok : ui.
Lemma cc_file_yes_ok st p ui : ui_ok ui -> ui_ok (cc_file_yes st p ui).
Proof. unfold cc_file_yes. solve [ui_auto]. Qed.
Lemma cc_file_no_ok st ui : ui_ok ui -> ui_ok (cc_file_no st ui).
Proof. unfold cc_file_no. solve [ui_auto]. Qed.
Lemma cc_file_cancel_ok st ui : ui_ok ui -> ui_ok (cc_file_cancel st ui).
Proof. unfold cc_file_cancel. solve [ui_auto]. Qed.
Lemma cc_file_open_ok f ui : ui_ok ui -> ui_ok (cc_file_open f ui).
Proof. unfold cc_file_open. solve [ui_auto]. Qed.
Lemma gselected_ok f ui : (forall g, ui_ok (f g ui)) -> ui_ok ui -> ui_ok (with_gselected f ui).
Proof. intros Hf H. unfold with_gselected. by destruct (gselected ui). Qed.
Hint Resolve cc_selected_ok cc_search_ok cc_input_key_ok typing_tick_ok cc_send_ok cc_ignore_ok cc_remove_ok cc_prof_enforce_ok
  cc_file_yes_ok cc_file_no_ok cc_file_cancel_ok cc_file_open_ok gselected_ok : ui.

Lemma act_ok v a ui : ui_ok ui -> ui_ok (act v a ui).
Proof.
  intros H. destruct a; cbn [act]; auto with ui;
    unfold cc_ginv_yes, cc_ginv_no, cc_gnew_ok, cc_gjoin_ok, cc_chess_invite, cc_chess_accept, cc_chess_decline, cc_chess_square, cc_chess_drop,
      cc_chess_resign, cc_chess_close, destroy_chessend, cc_tun_panel, tun_panel_render, cc_tun_panel_close, cc_tun_share_open, cc_tun_share_ok, cc_tun_share_cancel,
      cc_tun_accept, cc_tun_decline, cc_tun_stop; try solve [ui_auto];
    apply gselected_ok; try done; intros g; solve [ui_auto].
Qed.
End actions.

(** ** The invariant *)

Lemma ui_init_ok h : ui_ok (ui_init h).
Proof. split; [|done]. split; try done; constructor. Qed.

(** A loader that reads the history file. *)
Lemma history_load_ok {K : PassKey} pass_key file c c' : chat_ok c -> history_load pass_key file c = Ok c' -> chat_ok c'.
Proof.
  intros [H1 H2 H3] H. unfold history_load in H. destruct (chat_hist_key c); [|by injection H as <-].
  destruct (tt_hist_load _ _ _ _) as [[found buf]| |]; try done. cbn in H. destruct found; cbn in H; [|by injection H as <-].
  apply (f_equal (fun r => match r with Ok x => x | _ => c end)) in H. rewrite <- H.
  set (t := ztake _ _). assert (len t < TT_TRANSCRIPT_MAX) as Ht.
  { unfold t. pose proof (ztake_bound (TT_TRANSCRIPT_MAX - 1) (cstr buf)). unfold TT_TRANSCRIPT_MAX in *. lia. }
  destruct (last_line t); [by split|]. destruct (field4 _); [|by split]. split; try done. cbn. by apply snprintf_fits.
Qed.

Lemma loader_ok {K : PassKey} pass_key file : load_ok (loader pass_key file).
Proof. intros c Hc. unfold loader. destruct (history_load pass_key file c) eqn:E; try done. by eapply history_load_ok. Qed.

(** C34: in every state the interface reaches, whatever events the tox thread
    sends and whatever the user does in between, no two contacts have the same
    number, there is at most one friend request row, no group lists a member
    twice, every name, key, text and transcript fits the array it is kept in,
    and what is selected is in the list. *)
Theorem interface_invariant h xs : Forall (fun x => load_ok (load (fst x))) xs -> ui_ok (ui_run xs (ui_init h)).
Proof.
  intros H. unfold ui_run. cut (forall ui, ui_ok ui -> ui_ok (fold_left (fun ui x => ui_step x ui) xs ui)); [intros C; apply C, ui_init_ok|].
  induction H as [|x xs Hx Hxs IH]; [done|]. intros ui Hui. cbn. apply IH. unfold ui_step.
  destruct (snd x); [by apply event_ok|by apply act_ok].
Qed.

(** ** Witness *)

Definition ui_sample_env : env := mkEnv (ascii_bytes "12:00") 1000 (loader (K := sample_pass) (Some 9) None) true.
Definition sample_text (ty : TTEventType) (n : Z) (s : string) (i j : Z) : env * step :=
  (ui_sample_env, Event (simple_event ty n (Some (ascii_bytes s)) i j)).
Definition sample_run : list (env * step) :=
  [sample_text TT_EV_FRIEND_NAME 3 "ada" 0 0; sample_text TT_EV_FRIEND_NAME 3 "eve" 0 0;
   sample_text TT_EV_FRIEND_REQUEST 0 "hello" 0 0; sample_text TT_EV_GROUP_JOINED 5 "club" 0 0;
   sample_text TT_EV_FRIEND_LIST_END 0 "" 0 0; (ui_sample_env, Act (Select (RowFriend 3))); (ui_sample_env, Act (SendText (ascii_bytes "hi :)")));
   sample_text TT_EV_FRIEND_MESSAGE 3 "hello" 0 0].
Lemma interface_invariant_witness :
  key <$> contacts (ui_run sample_run (ui_init true)) = [Some 3] /\ length (window (ui_run sample_run (ui_init true))) = 2%nat /\
  ui_ok (ui_run sample_run (ui_init true)).
Proof.
  split; [vm_compute; reflexivity|]. split; [vm_compute; reflexivity|].
  apply interface_invariant. repeat (apply Forall_cons; split; [apply loader_ok|]). constructor.
Defined.
