(* ===== verification/UiQuiet.v ===== *)
(** * UiQuiet: what most of the interface leaves alone

    The typing indicator, the chess window and the tunnel panel are three parts
    of the state that only their own events and actions touch, as are the
    commands of each.  [quiet F P]: the part [F] is as it was, and no command of
    the kind [P] was posted. *)
From S2P Require Import Prelude CText Sidecar History Transcript EventQueue Identity Linked Events UiState UiContacts UiCommands UiGroups UiChess UiTunnel UiLoop.

(** The commands of the three parts. *)
Definition chess_cmd (ty : TTCommandType) : bool :=
  match ty with
  | TT_CMD_CHESS_INVITE | TT_CMD_CHESS_ACCEPT | TT_CMD_CHESS_DECLINE | TT_CMD_CHESS_MOVE | TT_CMD_CHESS_RESIGN => true
  | _ => false
  end.
Definition tunnel_cmd (ty : TTCommandType) : bool :=
  match ty with TT_CMD_TUNNEL_SHARE | TT_CMD_TUNNEL_ACCEPT | TT_CMD_TUNNEL_DECLINE | TT_CMD_TUNNEL_STOP => true | _ => false end.
Definition typing_cmd (ty : TTCommandType) : bool := match ty with TT_CMD_SET_TYPING => true | _ => false end.
(** The events and actions of chess and tunnels, and those about typing. *)
Definition panel_event (ty : TTEventType) : bool :=
  match ty with
  | TT_EV_CHESS_INVITE | TT_EV_CHESS_START | TT_EV_CHESS_MOVE | TT_EV_CHESS_END | TT_EV_TUNNEL_INVITE | TT_EV_TUNNEL_ADD
  | TT_EV_TUNNEL_STATE | TT_EV_TUNNEL_E2EE | TT_EV_TUNNEL_REMOVE | TT_EV_TUNNEL_ERROR => true
  | _ => false
  end.
Definition chess_action (a : action) : bool :=
  match a with
  | ChessInvite | ChessAccept | ChessDecline | ChessPress _ _ | ChessDrop _ _ | ChessResign | ChessClose | ChessEndOk => true
  | _ => false
  end.
Definition tunnel_action (a : action) : bool :=
  match a with
  | TunPanel | TunPanelClose | TunShare | TunShareOk _ _ _ | TunShareCancel | TunAccept _ _ | TunDecline | TunStop _ => true
  | _ => false
  end.
Definition typing_action (a : action) : bool := match a with KeyPress | Tick | SendText _ => true | _ => false end.

Definition posted_of (P : TTCommandType -> bool) (ui : Ui) : list command := List.filter (fun e => P (ev_type e)) (posted ui).
Definition quiet {A} (F : Ui -> A) (P : TTCommandType -> bool) (ui u : Ui) : Prop := F u = F ui /\ posted_of P u = posted_of P ui.

Section quiet.
Context {A : Type} (F : Ui -> A) (P : TTCommandType -> bool).
(** [F] looks at the three parts only, [P] at their commands. *)
Context (HF : forall u v, typing_fn v = typing_fn u -> typing_sent v = typing_sent u -> typing_last v = typing_last u ->
  typing_idle_sched v = typing_idle_sched u -> chess v = chess u -> tun v = tun u -> F v = F u).
Context (HP : forall ty, P ty = true -> chess_cmd ty || tunnel_cmd ty || typing_cmd ty = true).
Implicit Types (ui u : Ui).

#[local] Instance quiet_po : PreOrder (quiet F P).
Proof. split; [done|]. intros a b c [H1 H2] [H3 H4]. split; congruence. Qed.

Lemma posted_of_post ty n s i j u : posted_of P (post ty n s i j u) = posted_of P u ++ (if P ty then [tt_queue_post2 ty n s i j] else []).
Proof.
  unfold posted_of, post. change (posted (set_field _ u)) with (posted u ++ [tt_queue_post2 ty n s i j]). rewrite List.filter_app. cbn.
  replace (ev_type (tt_queue_post2 ty n s i j)) with ty by (by destruct s). by destruct (P ty).
Qed.
Lemma q_post ty n s i j ui u : chess_cmd ty || tunnel_cmd ty || typing_cmd ty = false -> quiet F P ui u -> quiet F P ui (post ty n s i j u).
Proof.
  intros Ht H. etrans; [done|]. split; [by apply HF|]. rewrite posted_of_post. destruct (P ty) eqn:E; [|by rewrite app_nil_r].
  apply HP in E. congruence.
Qed.
Lemma q_set ui u v : typing_fn v = typing_fn u -> typing_sent v = typing_sent u -> typing_last v = typing_last u ->
  typing_idle_sched v = typing_idle_sched u -> chess v = chess u -> tun v = tun u -> posted v = posted u -> quiet F P ui u -> quiet F P ui v.
Proof. intros ? ? ? ? ? ? Hp H. etrans; [done|]. split; [by apply HF|]. unfold posted_of. by rewrite Hp. Qed.
Lemma q_roster ui u : quiet F P ui u -> quiet F P ui (roster_render u).
Proof. intros H. unfold roster_render. destruct (have_keep u); [done|]. destruct (sel_kind u); [done|..]; by apply q_set with u. Qed.
Lemma q_show ui u : quiet F P ui u -> quiet F P ui (show_selected u).
Proof.
  intros H. unfold show_selected. destruct (sel_kind u); [by apply q_set with u|..]; case_match; try (by apply q_set with u); try done;
    apply q_roster; by apply q_set with u.
Qed.
Lemma q_when ui u b f : quiet F P ui u -> (forall v, quiet F P ui v -> quiet F P ui (f v)) -> quiet F P ui (when_ui b f u).
Proof. intros H Hf. destruct b; [by apply Hf|done]. Qed.
Lemma q_remove p ui u : quiet F P ui u -> quiet F P ui (contact_remove p u).
Proof.
  intros H. unfold contact_remove. case_match; [|done]. case_match; [|by apply q_set with u]. apply q_post; [done|]. by apply q_set with u.
Qed.
Lemma q_sys stamp n me fl text ui u : quiet F P ui u -> quiet F P ui (contact_sys stamp n me fl text u).
Proof. intros H. unfold contact_sys. apply q_when; [by apply q_set with u|]. intros v Hv. by apply q_set with v. Qed.
Lemma q_group_sys stamp n text ui u : quiet F P ui u -> quiet F P ui (group_sys stamp n text u).
Proof. intros H. unfold group_sys. apply q_when; [by apply q_set with u|]. intros v Hv. by apply q_set with v. Qed.
Lemma q_with n f ui u : quiet F P ui u -> (forall g v, quiet F P ui v -> quiet F P ui (f g v)) -> quiet F P ui (with_group n f u).
Proof. intros H Hf. unfold with_group. case_match; [by apply Hf|done]. Qed.
Lemma q_gselected f ui : (forall g, quiet F P ui (f g ui)) -> quiet F P ui (with_gselected f ui).
Proof. intros Hf. unfold with_gselected. case_match; [by apply Hf|done]. Qed.

Create HintDb quiet.
#[local] Hint Resolve q_post q_roster q_show q_when q_remove q_sys q_group_sys q_with : quiet.
#[local] Hint Extern 1 (_ = false) => reflexivity : quiet.
#[local] Hint Extern 3 (quiet F P _ (upd_contact _ _ ?u)) => apply (q_set _ u); [reflexivity..|] : quiet.
#[local] Hint Extern 3 (quiet F P _ (contact_ensure _ ?u)) => apply (q_set _ u); [reflexivity..|] : quiet.
#[local] Hint Extern 3 (quiet F P _ (upd_group _ _ ?u)) => apply (q_set _ u); [reflexivity..|] : quiet.
#[local] Hint Extern 3 (quiet F P _ (group_add _ ?u)) => apply (q_set _ u); [reflexivity..|] : quiet.
#[local] Hint Extern 3 (quiet F P _ (group_remove _ ?u)) => apply (q_set _ u); [reflexivity..|] : quiet.
#[local] Hint Extern 3 (quiet F P _ (live _ _ _ _ ?u)) => apply (q_set _ u); [reflexivity..|] : quiet.
#[local] Hint Extern 5 (quiet F P _ (set_field _ ?u)) => apply (q_set _ u); [reflexivity..|] : quiet.
#[local] Hint Extern 9 (quiet F P ?u ?u) => reflexivity : quiet.
Ltac q_auto := intros; cbv zeta; repeat (case_match; cbv zeta in *); auto 30 with quiet.

Lemma q_announce stamp n p ui u : quiet F P ui u -> quiet F P ui (announce_join stamp n p u).
Proof. intros H. unfold announce_join, group_line. apply q_with; [done|]. solve [q_auto]. Qed.
#[local] Hint Resolve q_announce : quiet.

Lemma event_quiet v e ui : panel_event (ev_type e) = false -> quiet F P ui (handle_event v e ui).
Proof.
  intros He. unfold handle_event. destruct (ev_type e); try discriminate; clear He; cbv zeta;
  unfold on_toxid, on_self_name, on_self_status_msg, on_friend_name, on_friend_connection, on_friend_status, on_friend_status_msg, on_friend_pubkey,
    on_last_online, on_friend_message, on_friend_typing, on_message_sent, on_read_receipt, on_offline_flushed, on_av_incoming, on_av_state, on_av_ended,
    on_e2ee_state, on_e2ee_warn, on_e2ee_enforce, on_friend_request, on_friend_list_end, on_file_tx_started, on_file_progress, on_file_done,
    on_file_failed, on_file_offer, offer_show, on_file_resumed, on_group_new, on_group_joined, on_group_left, on_group_msg, on_group_priv_msg, on_group_topic,
    on_peer_join, on_peer_exit, on_peer_name, on_peer_role, on_group_invite, on_group_mod, on_group_mod_self, on_group_ignore_self,
    on_group_state, on_group_join_fail, show_if_selected, xfer_line, group_line;
  try solve [q_auto]; try (case_match; [|done]); (apply q_with; [done|]); solve [q_auto].
Qed.
Lemma action_quiet v a ui : chess_action a || tunnel_action a || typing_action a = false -> quiet F P ui (act v a ui).
Proof.
  intros Ha. destruct a; try discriminate; clear Ha; cbn [act];
  unfold cc_selected, cc_search_changed, cc_ignore, cc_remove, cc_prof_enforce, cc_file_yes, cc_file_no, cc_file_cancel, cc_file_open, close_offer, xfer_line,
    cc_ginv_yes, cc_ginv_no, cc_gnew_ok, cc_gjoin_ok; try solve [q_auto]; apply q_gselected; intros g; solve [q_auto].
Qed.
(** Sending elsewhere than to a friend. *)
Lemma send_quiet stamp text ui : sel_kind ui <> TT_SEL_CHAT -> quiet F P ui (cc_send stamp text ui).
Proof. intros Hs. unfold cc_send, send_group. destruct (sel_kind ui); try done; solve [q_auto]. Qed.
End quiet.

(** A part that is neither the indicator nor changed with it. *)
Section typing.
Context {A : Type} (F : Ui -> A) (P : TTCommandType -> bool).
Context (HF : forall u v, chess v = chess u -> tun v = tun u -> F v = F u).
Context (HP : forall ty, P ty = true -> chess_cmd ty || tunnel_cmd ty = true).
Implicit Types (ui u : Ui).

Lemma local_full u v : typing_fn v = typing_fn u -> typing_sent v = typing_sent u -> typing_last v = typing_last u ->
  typing_idle_sched v = typing_idle_sched u -> chess v = chess u -> tun v = tun u -> F v = F u.
Proof. intros _ _ _ _. apply HF. Qed.
Lemma special_full ty : P ty = true -> chess_cmd ty || tunnel_cmd ty || typing_cmd ty = true.
Proof. intros H. by rewrite (HP ty H). Qed.
Lemma quiet_post ty n s i j ui u : chess_cmd ty || tunnel_cmd ty = false -> quiet F P ui u -> quiet F P ui (post ty n s i j u).
Proof.
  intros Ht [H1 H2]. split; [rewrite <- H1; by apply HF|]. rewrite posted_of_post. destruct (P ty) eqn:E; [|by rewrite app_nil_r].
  apply HP in E. congruence.
Qed.
Lemma quiet_set ui u v : chess v = chess u -> tun v = tun u -> posted v = posted u -> quiet F P ui u -> quiet F P ui v.
Proof. intros E1 E2 Ep [H1 H2]. split; [rewrite <- H1; by apply HF|]. unfold posted_of in *. by rewrite Ep. Qed.
Lemma typing_stop_quiet ui u : quiet F P ui u -> quiet F P ui (typing_stop u).
Proof.
  intros H. unfold typing_stop. cbv zeta. case_match; [|by apply (quiet_set ui u)].
  apply (quiet_set ui (post TT_CMD_SET_TYPING (typing_fn u) None 0 0 u)); try done. by apply quiet_post.
Qed.
Lemma send_chat_quiet st n text ui : quiet F P ui (send_chat st n text ui).
Proof.
  unfold send_chat. destruct (contact_by_fn ui n); [|done]. destruct (outgoing text) as [[a body]|]; [|done]. cbv zeta. apply (q_roster _ _ local_full).
  set (u := post _ _ _ _ _ ui). assert (quiet F P ui u) as Hu by (by apply quiet_post).
  destruct (typing_sent u && (typing_fn u =? n)); [|by apply (quiet_set ui u)].
  apply (quiet_set ui (post TT_CMD_SET_TYPING n None 0 0 u)); try done. by apply quiet_post.
Qed.
Lemma action_quiet_typing v a ui : chess_action a || tunnel_action a = false -> quiet F P ui (act v a ui).
Proof.
  intros E. destruct (typing_action a) eqn:Ht; [|apply (action_quiet _ _ local_full special_full); by rewrite E].
  destruct a; try discriminate; clear E Ht; cbn [act].
  - unfold cc_input_key. destruct (sel_kind ui); try done. unfold typing_keystroke. cbv zeta. set (u := ui <| typing_last := now v |>).
    assert (quiet F P ui u) as Hu by (by apply (quiet_set ui ui)). case_match; [by apply (quiet_set ui u)|].
    apply quiet_post; [done|]. set (w := if typing_sent u then typing_stop u else u).
    assert (quiet F P ui w) as Hw by (unfold w; case_match; [by apply typing_stop_quiet|done]). by apply (quiet_set ui w).
  - unfold typing_tick. cbv zeta. assert (quiet F P ui (ui <| typing_idle_sched := false |>)) as Hu by (by apply (quiet_set ui ui)).
    case_match; [done|]. case_match; [by apply (quiet_set ui ui)|by apply typing_stop_quiet].
  - destruct (decide (sel_kind ui = TT_SEL_CHAT)) as [K|K]; [|by apply (send_quiet _ _ local_full special_full)].
    unfold cc_send. rewrite K. destruct (negb (ready ui)); [done|]. apply send_chat_quiet.
Qed.
End typing.
