(* ===== verification/UiTyping.v ===== *)
(** * UiTyping: the outgoing typing indicator

    What the posted commands have told each friend agrees with the two fields
    that remember it, whatever happens in between, and silence ends it. *)
From S2P Require Import Prelude CText Sidecar History Transcript EventQueue Identity Linked Events UiState UiContacts UiCommands UiGroups UiChess UiTunnel UiLoop UiQuiet.

(** What the last command told friend [n]. *)
Definition told (n : Z) (cs : list command) : bool :=
  fold_left (fun b e => match ev_type e with
                        | TT_CMD_SET_TYPING => if friend_number e =? n then negb (ival e =? 0) else b
                        | _ => b
                        end) cs false.

Lemma told_snoc n cs e : told n (cs ++ [e]) =
  match ev_type e with TT_CMD_SET_TYPING => if friend_number e =? n then negb (ival e =? 0) else told n cs | _ => told n cs end.
Proof. unfold told. by rewrite fold_left_app. Qed.
(** Only the commands about typing count. *)
Lemma told_of n ui : told n (posted ui) = told n (posted_of typing_cmd ui).
Proof.
  unfold posted_of. generalize (posted ui) as cs. induction cs as [|e cs IH] using rev_ind; [done|].
  rewrite told_snoc, List.filter_app. cbn. destruct (ev_type e) eqn:E; cbn [typing_cmd]; rewrite ?app_nil_r, ?told_snoc, ?E, ?IH; done.
Qed.

(** Some other thing happened: the indicator is as it was. *)
Definition typing_view (ui : Ui) : Z * bool * Z * bool := (typing_fn ui, typing_sent ui, typing_last ui, typing_idle_sched ui).
Abbreviation same_typing := (quiet typing_view typing_cmd).
Lemma typing_local u v : typing_fn v = typing_fn u -> typing_sent v = typing_sent u -> typing_last v = typing_last u ->
  typing_idle_sched v = typing_idle_sched u -> chess v = chess u -> tun v = tun u -> typing_view v = typing_view u.
Proof. unfold typing_view. congruence. Qed.
Lemma typing_special ty : typing_cmd ty = true -> chess_cmd ty || tunnel_cmd ty || typing_cmd ty = true.
Proof. intros ->. apply orb_true_r. Qed.

(** Neither event nor command of the two panels touches it. *)
Lemma st_post ty n s i j ui u : typing_cmd ty = false -> same_typing ui u -> same_typing ui (post ty n s i j u).
Proof. intros Ht [H1 H2]. split; [done|]. by rewrite posted_of_post, Ht, app_nil_r. Qed.
Lemma st_render ui u : same_typing ui u -> same_typing ui (render_open u).
Proof. intros H. unfold render_open. by case_match. Qed.
Lemma event_typing v e ui : same_typing ui (handle_event v e ui).
Proof.
  destruct (panel_event (ev_type e)) eqn:E; [|by apply (event_quiet _ _ typing_local typing_special)].
  unfold handle_event. destruct (ev_type e); try discriminate; try done; try (by apply st_render).
  unfold on_tunnel_e2ee. case_match; [by apply st_render|done].
Qed.
Lemma action_typing v a ui : typing_action a = false -> same_typing ui (act v a ui).
Proof.
  intros Ht. destruct (chess_action a || tunnel_action a) eqn:E; [|apply (action_quiet _ _ typing_local typing_special); by rewrite E].
  destruct a; try discriminate; clear; cbn [act]; try done;
    unfold cc_chess_invite, cc_chess_accept, cc_chess_decline, cc_chess_drop, cc_chess_resign, cc_tun_panel, cc_tun_share_open,
      cc_tun_share_ok, cc_tun_accept, cc_tun_decline, cc_tun_stop; cbv zeta; repeat case_match; try done; by apply st_post.
Qed.

(** ** The actions that do *)

(** What the fields claim is what was told, and the timer runs. *)
Definition told_ok (ui : Ui) : Prop :=
  forall n, n <> UINT32_MAX -> told n (posted ui) = typing_sent ui && (typing_fn ui =? n).
Definition timer_ok (ui : Ui) : Prop := typing_sent ui = true -> typing_fn ui <> UINT32_MAX -> typing_idle_sched ui = true.
Definition typing_ok (ui : Ui) : Prop := told_ok ui /\ timer_ok ui.
Lemma typing_same ui ui' : same_typing ui ui' -> typing_ok ui -> typing_ok ui'.
Proof.
  intros [E Ep] [H1 H2]. apply pair_eq in E as [[[E1 E2]%pair_eq E3]%pair_eq E4].
  split; [intros n Hn; by rewrite told_of, Ep, <- told_of, E1, E2, H1|unfold timer_ok; by rewrite E1, E2, E4].
Qed.
Lemma told_post_typing m n b ui : told m (posted (post TT_CMD_SET_TYPING n None b 0 ui)) = if n =? m then negb (b =? 0) else told m (posted ui).
Proof. unfold post. change (posted (set_field _ ui)) with (posted ui ++ [tt_queue_post2 TT_CMD_SET_TYPING n None b 0]). by rewrite told_snoc. Qed.

(** Nobody is told any more. *)
Lemma typing_stop_told ui : told_ok ui -> forall n, n <> UINT32_MAX -> told n (posted (typing_stop ui)) = false.
Proof.
  intros H n Hn. specialize (H n Hn). unfold typing_stop. change (posted (set_field _ (set_field _ ?u))) with (posted u).
  destruct (typing_sent ui); cbn [andb] in *; [|done]. destruct (typing_fn ui =? UINT32_MAX) eqn:F; cbn [negb].
  - rewrite H. bool_to_prop. rewrite F. apply Z.eqb_neq. by apply not_eq_sym.
  - rewrite told_post_typing, H. by destruct (typing_fn ui =? n).
Qed.
Lemma typing_stop_typing ui : told_ok ui -> typing_ok (typing_stop ui).
Proof. intros H. split; [|by unfold typing_stop]. intros n Hn. by rewrite typing_stop_told. Qed.
Lemma typing_keystroke_typing nw n ui : typing_ok ui -> typing_ok (typing_keystroke nw n ui).
Proof.
  intros [H _]. unfold typing_keystroke. cbv zeta. set (u := ui <| typing_last := nw |>). assert (told_ok u) as Hu by apply H.
  destruct (typing_sent u && (typing_fn u =? n)) eqn:E; [by split|].
  set (w := if typing_sent u then typing_stop u else u).
  assert (forall m, m <> UINT32_MAX -> told m (posted w) = false) as Hw.
  { intros m Hm. unfold w. destruct (typing_sent u) eqn:F; [by apply typing_stop_told|]. by rewrite Hu, F. }
  split; [|done]. intros m Hm. change (posted (set_field _ (set_field _ (set_field _ ?x)))) with (posted x).
  rewrite told_post_typing, Hw by done. cbn. by destruct (n =? m).
Qed.
Lemma typing_tick_typing nw ui : typing_ok ui -> typing_ok (typing_tick nw ui).
Proof.
  intros [H _]. unfold typing_tick. cbv zeta. set (u := ui <| typing_idle_sched := false |>). assert (told_ok u) as Hu by apply H.
  destruct (negb (typing_sent u) || (typing_fn u =? UINT32_MAX)) eqn:E.
  { split; [done|]. intros Hs Hf. rewrite Hs in E. cbn [negb orb] in E. by bool_to_prop. }
  destruct (nw - typing_last u <? TT_TYPING_TIMEOUT - 1); [split; [done|by intros]|by apply typing_stop_typing].
Qed.
Lemma send_chat_typing st n text ui : typing_ok ui -> typing_ok (send_chat st n text ui).
Proof.
  intros H. unfold send_chat. destruct (contact_by_fn ui n); [|done]. destruct (outgoing text) as [[a body]|]; [|done]. cbv zeta.
  set (m := if a then TOX_MESSAGE_TYPE_ACTION else TOX_MESSAGE_TYPE_NORMAL). set (u := post TT_CMD_SEND_MESSAGE n (Some body) 0 m ui).
  assert (typing_ok u) as Hu by (by eapply typing_same, H; apply st_post).
  set (w := if typing_sent u && (typing_fn u =? n) then _ else u).
  assert (typing_ok w) as Hw.
  { unfold w. destruct (typing_sent u && (typing_fn u =? n)) eqn:E; [|done]. bool_to_prop. split; [|done]. intros k Hk.
    rewrite told_post_typing. change (posted (set_field _ (set_field _ u))) with (posted u). destruct Hu as [Hu _]. rewrite (Hu k Hk).
    change (typing_sent (post _ _ _ _ _ _)) with false. rewrite andb_false_l. rename select (typing_fn u = n) into E. rewrite E. by destruct (n =? k), (typing_sent u). }
  eapply typing_same, Hw. apply (q_roster _ _ typing_local). done.
Qed.
Lemma cc_send_typing st text ui : typing_ok ui -> typing_ok (cc_send st text ui).
Proof.
  intros H. destruct (decide (sel_kind ui = TT_SEL_CHAT)) as [E|E]; [|by eapply typing_same, H; apply (send_quiet _ _ typing_local typing_special)].
  unfold cc_send. rewrite E. destruct (negb _); [done|by apply send_chat_typing].
Qed.
Lemma act_typing v a ui : typing_ok ui -> typing_ok (act v a ui).
Proof.
  intros H. destruct (typing_action a) eqn:E; [|by eapply typing_same, H; apply action_typing].
  destruct a; try discriminate; cbn [act]; [|by apply typing_tick_typing|by apply cc_send_typing].
  unfold cc_input_key. destruct (sel_kind ui); try done; by apply typing_keystroke_typing.
Qed.

(** C35: Whatever happens in between, a friend was last told that we are typing
    exactly if the interface holds so, which is one friend at most; the timer
    runs as long; and a tick of it after four seconds without a key tells that
    friend that we stopped. *)
Theorem typing_told h xs : let ui := ui_run xs (ui_init h) in
  (forall n, n <> UINT32_MAX -> told n (posted ui) = typing_sent ui && (typing_fn ui =? n)) /\
  (typing_sent ui = true -> typing_fn ui <> UINT32_MAX -> typing_idle_sched ui = true) /\
  (forall v n, n <> UINT32_MAX -> TT_TYPING_TIMEOUT - 1 <= now v - typing_last ui -> told n (posted (act v Tick ui)) = false).
Proof.
  assert (typing_ok (ui_run xs (ui_init h))) as H.
  { unfold ui_run. cut (forall ui, typing_ok ui -> typing_ok (fold_left (fun ui x => ui_step x ui) xs ui)); [intros C; by apply C|].
    induction xs as [|x xs IH]; [done|]. intros ui Hui. cbn. apply IH. unfold ui_step.
    destruct (snd x); [by eapply typing_same; [apply event_typing|]|by apply act_typing]. }
  set (ui := ui_run xs (ui_init h)) in *. intros u. unfold u. clear u. destruct H as [H1 H2]. split; [done|]. split; [done|].
  intros v n Hn Hv. cbn [act]. unfold typing_tick. cbv zeta. set (u := ui <| typing_idle_sched := false |>).
  assert (told_ok u) as Hu by apply H1. destruct (negb (typing_sent u) || (typing_fn u =? UINT32_MAX)) eqn:E.
  - rewrite (Hu n Hn). apply orb_true_iff in E as [E|E]; bool_to_prop; [by rewrite E|].
    destruct (typing_sent u); [|done]. rewrite E. rewrite andb_true_l. apply Z.eqb_neq. by apply not_eq_sym.
  - change (typing_last u) with (typing_last ui). zif_false. by apply typing_stop_told.
Qed.

(** ** Witness *)

Definition at_time (t : Z) : env := mkEnv (ascii_bytes "12:00") t (fun c => c) false.
(** A key in the chat of friend 3, another in that of friend 4. *)
Definition sample_typing : list (env * step) :=
  [(at_time 0, Event (simple_event TT_EV_FRIEND_NAME 3 (Some (ascii_bytes "ada")) 0 0));
   (at_time 0, Event (simple_event TT_EV_FRIEND_NAME 4 (Some (ascii_bytes "bob")) 0 0));
   (at_time 1, Act (Select (RowFriend 3))); (at_time 1, Act KeyPress); (at_time 2, Act (Select (RowFriend 4))); (at_time 2, Act KeyPress)].
Lemma typing_told_witness : let ui := ui_run sample_typing (ui_init false) in
  (told 3 (posted ui), told 4 (posted ui)) = (false, true) /\ told 4 (posted (act (at_time 6) Tick ui)) = false.
Proof.
  intros ui. destruct (typing_told false sample_typing) as (H & _ & T). split.
  - rewrite !H by done. vm_compute. reflexivity.
  - apply T; [done|]. vm_compute. discriminate.
Defined.
