(* ===== verification/UiPolicy.v ===== *)
(** * UiPolicy: what the chat pane promises and where it fails ([ui/ui_tk.c]) *)
From S2P Require Import Prelude CText Sidecar History Transcript TranscriptLog EventQueue Identity Linked Events UiState UiContacts UiCommands UiGroups UiLoop UiSafety.

(** ** Finding what was changed *)

Section finding.
Implicit Types (ui : Ui).

Lemma contact_upd n f ui : (forall c, key (f c) = key c) -> contact_by_fn (upd_contact n f ui) n = f <$> contact_by_fn ui n.
Proof.
  intros Hk. unfold contact_by_fn, upd_contact. cbn. apply find_upd_eq. intros c. by rewrite !by_fn_key, Hk.
Qed.
(** A row that is drawn stays drawn. *)
Lemma roster_kept ui : have_keep ui = true -> roster_render ui = ui.
Proof. intros H. unfold roster_render. by rewrite H. Qed.
Lemma keep_chat ui n : sel_kind ui = TT_SEL_CHAT -> sel_fn ui = n ->
  have_keep ui = existsb (fun c => by_fn n c && contact_visible ui c) (contacts ui).
Proof. intros E <-. unfold have_keep. by rewrite E. Qed.
Lemma visible_upd (p q : Contact -> bool) f l : (forall c, q (f c) = q c) -> existsb q (upd_first p f l) = existsb q l.
Proof. intros H. induction l as [|c l IH]; [done|]. cbn. destruct (p c); cbn; [by rewrite H|by rewrite IH]. Qed.
End finding.

(** ** Sending *)

(** No NUL in a literal. *)
Ltac literal H := vm_compute in H; repeat destruct H as [H|H].

Lemma emoji_nonempty b o : emoji_of b o -> b <> [] -> o <> [].
Proof. intros H Hb. inversion H as [|c b' o' Hn Ho|e b' o' He Hm Ho]; subst; [done|done|]. destruct (emoticon_ok e He) as (_ & Hl & _). by destruct (e.2). Qed.
Lemma emoji_no_nul b o : emoji_of b o -> ~ In 0 b -> ~ In 0 o.
Proof.
  induction 1 as [|c b o Hn _ IH|e b o He Hm _ IH]; intros H; [done|cbn in *; naive_solver|].
  destruct (emoticon_ok e He) as (_ & _ & _ & Hu). rewrite in_app_iff in *. intros [Hi|Hi]; [|naive_solver].
  apply list_elem_of_In in Hi. rewrite Forall_forall in Hu. specialize (Hu 0 Hi). lia.
Qed.
Lemma snprintf_all cap s : ~ In 0 s -> len s < cap -> snprintf_s cap s = s.
Proof. intros H0 Hl. unfold snprintf_s. rewrite CText.cstr_no_nul by done. apply ztake_all. lia. Qed.
Lemma emotify_body cap b : b <> [] -> ~ In 0 b -> len b <= TOX_MAX_MESSAGE_LENGTH -> 1 < cap ->
  emotify cap b <> [] /\ ~ In 0 (emotify cap b) /\ len (emotify cap b) < cap.
Proof.
  intros Hb H0 Hl Hc. assert (len b <= 1372) as Hl' by done.
  destruct (emotify_loop_spec (length b) b []) as (o & E & Ho & _); [done|change (len []) with 0; change EMOTIFY_OUT with 5496; lia|].
  unfold emotify. rewrite E. cbn [app]. split_conj.
  - assert (o <> []) as Hne by (by eapply emoji_nonempty). assert (~ In 0 o) as Hz by (by eapply emoji_no_nul).
    unfold snprintf_s. rewrite CText.cstr_no_nul by done. destruct o as [|x o]; [done|]. intros H.
    apply (f_equal len) in H. unfold ztake, len in H. rewrite length_take in H. cbn [length] in H. lia.
  - unfold snprintf_s. intros H. apply (cstr_in o). unfold ztake in H. rewrite <- (take_drop (Z.to_nat (cap - 1)) (cstr o)). apply in_app_iff. by left.
  - apply snprintf_fits. lia.
Qed.
Lemma strip_nl_in buf x : In x (strip_nl buf) -> In x buf.
Proof.
  unfold strip_nl. destruct (rev buf) as [|c t] eqn:E; [done|]. destruct (c =? NL); [|done]. intros H. apply in_rev. rewrite E. right. by apply in_rev in H.
Qed.
Lemma strip_nl_len buf : len (strip_nl buf) <= len buf.
Proof.
  unfold strip_nl. destruct (rev buf) as [|c t] eqn:E; [lia|]. destruct (c =? NL); [|lia].
  apply (f_equal length) in E. rewrite length_rev in E. cbn in E. unfold len. rewrite length_rev. lia.
Qed.
(** A text that goes out is one toxcore takes, and of the buffer's size. *)
Lemma outgoing_ok text a body : outgoing text = Some (a, body) -> body <> [] /\ ~ In 0 body /\ len body <= TOX_MAX_MESSAGE_LENGTH /\
  (a = true -> len body + 4 <= TOX_MAX_MESSAGE_LENGTH).
Proof.
  intros H. unfold outgoing in H. set (buf := strip_nl _) in *.
  assert (~ In 0 buf) as H0.
  { intros Hin%strip_nl_in. apply (cstr_in text). unfold snprintf_s, ztake in Hin. rewrite <- (take_drop (Z.to_nat (TOX_MAX_MESSAGE_LENGTH + 1 - 1)) (cstr text)).
    apply in_app_iff. by left. }
  assert (len buf <= TOX_MAX_MESSAGE_LENGTH) as Hl.
  { pose proof (strip_nl_len (snprintf_s (TOX_MAX_MESSAGE_LENGTH + 1) text)).
    pose proof (snprintf_fits (TOX_MAX_MESSAGE_LENGTH + 1) (TOX_MAX_MESSAGE_LENGTH + 1) text ltac:(done)). unfold buf. lia. }
  assert (buf <> []) as Hne by (intros N; by rewrite N in H).
  assert (Some (is_prefix ME buf && (4 <? len buf), if is_prefix ME buf && (4 <? len buf) then emotify (TOX_MAX_MESSAGE_LENGTH + 1 - 4) (zdrop 4 buf)
    else emotify (TOX_MAX_MESSAGE_LENGTH + 1) buf) = Some (a, body)) as H' by (by destruct buf).
  clear H. apply (inj Some), pair_eq in H' as [Ha Hbody]. change TOX_MAX_MESSAGE_LENGTH with 1372 in *.
  destruct (is_prefix ME buf && (4 <? len buf)) eqn:P; subst a body.
  - bool_to_prop. destruct (emotify_body (1372 + 1 - 4) (zdrop 4 buf)) as (B1 & B2 & B3).
    + intros N. apply (f_equal len) in N. unfold zdrop, len in *. rewrite length_drop in N. cbn in N. lia.
    + intros N. apply H0. unfold zdrop in N. rewrite <- (take_drop (Z.to_nat 4) buf). apply in_app_iff. by right.
    + change TOX_MAX_MESSAGE_LENGTH with 1372. unfold zdrop, len in *. rewrite length_drop. lia.
    + lia.
    + split_conj; [done|done|lia|lia].
  - destruct (emotify_body (1372 + 1) buf) as (B1 & B2 & B3); [done|done|done|lia|]. split_conj; [done|done|lia|done].
Qed.

Lemma keep_upd n f ui : (forall c, c_name (f c) = c_name c /\ status_msg (f c) = status_msg c /\ fn (f c) = fn c /\ is_request (f c) = is_request c) ->
  have_keep (upd_contact n f ui) = have_keep ui.
Proof.
  intros Hf. unfold have_keep, upd_contact. cbn. destruct (sel_kind ui); try done; apply visible_upd; intros c; destruct (Hf c) as (E1 & E2 & E3 & E4).
  - done.
  - unfold by_fn, contact_visible. cbn. by rewrite E1, E2, E3, E4.
Qed.
Lemma keep_same ui ui' : contacts ui' = contacts ui -> groups ui' = groups ui -> sel_kind ui' = sel_kind ui -> sel_fn ui' = sel_fn ui ->
  u_filter ui' = u_filter ui -> have_keep ui' = have_keep ui.
Proof. unfold have_keep, contact_visible, group_visible. by intros -> -> -> -> ->. Qed.

Lemma keep_shown stp who me text n f ui :
  (forall c, c_name (f c) = c_name c /\ status_msg (f c) = status_msg c /\ fn (f c) = fn c /\ is_request (f c) = is_request c) ->
  have_keep (live stp who me text (upd_contact n f ui)) = have_keep ui.
Proof. intros Hf. rewrite <- (keep_upd n f ui Hf). by apply keep_same. Qed.

(** The chat of contact [c] is open and its row drawn. *)
Record chat_open (ui : Ui) (n : Z) (c : Contact) : Prop := {
  op_kind : sel_kind ui = TT_SEL_CHAT; op_fn : sel_fn ui = n; op_contact : contact_by_fn ui n = Some c; op_drawn : have_keep ui = true }.

Lemma shown_in_open stp who me text n c f ui z : chat_open ui n c ->
  (forall d, c_name (f d) = c_name d /\ status_msg (f d) = status_msg d /\ fn (f d) = fn d /\ is_request (f d) = is_request d) ->
  window (roster_render (if chat_selected (upd_contact n f ui) n then live stp who me text (upd_contact n f ui) else z)) =
  window ui ++ [hist_append_live stp who me text].
Proof.
  intros [K F _ D] Hf. assert (chat_selected (upd_contact n f ui) n = true) as ->.
  { unfold chat_selected. cbn. rewrite K, F. apply Z.eqb_refl. }
  by rewrite roster_kept by (by rewrite keep_shown).
Qed.

Definition mtype (action : bool) : Z := if action then TOX_MESSAGE_TYPE_ACTION else TOX_MESSAGE_TYPE_NORMAL.

(** C37: What is typed is what both see.  In an open chat a text that is not
    empty posts one command, whose text toxcore accepts (1 to 1372 bytes), and
    the line added to our window has that text; the event the friend gets for it
    adds a line with the same text, under our name, to an open chat there. *)
Theorem both_windows_agree st text a body ui n c v ui' m c' :
  ready ui = true -> chat_open ui n c -> outgoing text = Some (a, body) ->
  chat_open ui' m c' -> len (c_name c') < TT_NAME_MAX -> ~ In 0 (c_name c') ->
  0 < len body <= TOX_MAX_MESSAGE_LENGTH /\
  (exists stop, posted (cc_send st text ui) = posted ui ++ tt_queue_post2 TT_CMD_SEND_MESSAGE n (Some body) 0 (mtype a) :: stop /\
     Forall (fun e => ev_type e = TT_CMD_SET_TYPING) stop) /\
  window (cc_send st text ui) = window ui ++
    [if a then ShownSys (ascii_bytes "* you " ++ body) else ShownMsg true (named (self_name ui) (ascii_bytes "you")) st body] /\
  window (handle_event v (push_simple TT_EV_FRIEND_MESSAGE m (Some body) (mtype a)) ui') = window ui' ++
    [if a then ShownSys (ascii_bytes "* " ++ named (c_name c') (ascii_bytes "unknown") ++ [32] ++ body)
     else ShownMsg false (named (c_name c') (ascii_bytes "unknown")) (stamp v) body].
Proof.
  intros Hr [K F C D] Ho [K' F' C' D'] Hn0 Hn1. destruct (outgoing_ok _ _ _ Ho) as (Hb & H0 & Hl & Hla).
  assert (0 < len body) as Hp by (destruct body; [done|unfold len; cbn; lia]). split; [done|].
  assert (cc_send st text ui = send_chat st n text ui) as -> by (unfold cc_send; rewrite Hr, K, F; done).
  unfold send_chat. rewrite C, Ho. cbv zeta. fold (mtype a).
  set (u := post TT_CMD_SEND_MESSAGE n (Some body) 0 (mtype a) ui).
  set (w := if typing_sent u && (typing_fn u =? n) then _ else u).
  assert (exists stop, posted w = posted u ++ stop /\ Forall (fun e => ev_type e = TT_CMD_SET_TYPING) stop) as (stop & Ew & Hs).
  { unfold w. case_match; [|exists []; by rewrite app_nil_r]. eexists. split; [done|]. by constructor. }
  assert (have_keep w = true) as Dw by (rewrite <- D; unfold w; by case_match; apply keep_same).
  assert (window w = window ui /\ self_name w = self_name ui) as [Ww Sw] by (unfold w; by case_match).
  rewrite roster_kept by (by rewrite keep_shown).
  split; [exists stop; split; [|done]; change (posted (live _ _ _ _ (upd_contact _ _ w))) with (posted w); rewrite Ew; unfold u;
    cbn [posted post set_field]; by rewrite <- app_assoc|].
  split.
  - change (window (live ?s ?h ?e ?x (upd_contact n ?f w))) with (window w ++ [hist_append_live s h e x]). rewrite Ww, Sw.
    unfold my_line. rewrite snprintf_all; [by destruct a| |].
    + destruct a; [|done]. rewrite in_app_iff. intros [H|H]; [by literal H|done].
    + destruct a; [rewrite len_app; change (len (ascii_bytes "* you ")) with 6; specialize (Hla eq_refl)|]; unfold TOX_MAX_MESSAGE_LENGTH in *; lia.
  - clear w Ew Dw Ww Sw u. assert (push_simple TT_EV_FRIEND_MESSAGE m (Some body) (mtype a) = mkEvent TT_EV_FRIEND_MESSAGE m (Some body) (len body) (mtype a) 0) as -> by (by destruct body).
    unfold handle_event. cbn [ev_type ev_str friend_number ival ival2]. unfold on_friend_message. cbv zeta.
    assert (contact_ensure m ui' = ui') as -> by (unfold contact_ensure, ensure; unfold contact_by_fn in C'; rewrite C'; by destruct ui').
    rewrite C'. set (who := named (c_name c') (ascii_bytes "unknown")).
    assert (copy_text (TOX_MAX_MESSAGE_LENGTH + 1) body = body) as -> by (apply snprintf_all; [done|lia]).
    assert (~ In 0 who /\ len who < TT_NAME_MAX) as [Hw1 Hw2].
    { unfold who, named. destruct (len (c_name c') =? 0); [|done]. split; [by intros H; literal H|done]. }
    assert (action_line (TOX_MAX_MESSAGE_LENGTH + TT_NAME_MAX + 4) who body = ascii_bytes "* " ++ who ++ [32] ++ body) as Ea.
    { unfold action_line. apply snprintf_all.
      - rewrite !in_app_iff. intros [H|[H|[H|H]]]; [by literal H|done|by literal H|done].
      - rewrite !len_app. change (len (ascii_bytes "* ")) with 2. change (len [32]) with 1. lia. }
    assert (chat_open ui' m c') as O by done. destruct a; cbn [mtype].
    + change (TOX_MESSAGE_TYPE_ACTION =? TOX_MESSAGE_TYPE_ACTION) with true. cbv iota. rewrite Ea. by rewrite (shown_in_open _ _ _ _ _ c').
    + change (TOX_MESSAGE_TYPE_NORMAL =? TOX_MESSAGE_TYPE_ACTION) with false. cbv iota. by rewrite (shown_in_open _ _ _ _ _ c').
Qed.

(** ** Friend requests *)

(** What the tox thread sends for a request, as the UI takes it. *)
Definition request_events (pk msg : bytes) (ui : Ui) : Ui :=
  fold_left (fun ui e => on_friend_request (ev_str e) ui) (cb_friend_request pk msg) ui.

Lemma roster_contacts ui : contacts (roster_render ui) = contacts ui.
Proof. unfold roster_render. destruct (have_keep ui); [done|]. by destruct (sel_kind ui). Qed.
Lemma request_row_same ui ui' : contacts ui' = contacts ui -> request_row ui' = request_row ui.
Proof. unfold request_row. by intros ->. Qed.
Lemma request_roster ui : request_row (roster_render ui) = request_row ui.
Proof. apply request_row_same, roster_contacts. Qed.

Lemma hex_text pk : len pk = 32 -> all_bytes pk -> cstr (hex pk) = hex pk /\ len (hex pk) = 64 /\ exists c s, hex pk = c :: s.
Proof.
  intros Hl Hb. rewrite cstr_no_nul by (by apply hex_nonzero). assert (len (hex pk) = 64) as E by (unfold len in *; rewrite hex_length; lia).
  split; [done|]. split; [done|]. destruct (hex pk); [done|by eexists _, _].
Qed.
(** A key without a row makes one; with a row it is dropped. *)
Lemma key_event {X} (ty : X) pk ui : len pk = 32 -> all_bytes pk -> exists r,
  request_row (on_friend_request (ev_str (push_simple ty 0 (Some (hex pk)) 0)) ui) = Some r /\
  match request_row ui with Some r' => r = r' | None => key_hex r = hex pk /\ c_xfer r = no_transfer end.
Proof.
  intros Hl Hb. destruct (hex_text pk Hl Hb) as (E1 & E2 & c & s & E3). unfold push_simple. rewrite E3. cbn [simple_event ev_str]. rewrite <- E3.
  unfold on_friend_request. rewrite request_roster, E1, E2. cbn [Z.eqb Pos.eqb]. destruct (request_row ui) as [r'|] eqn:R.
  - exists r'. done.
  - eexists. unfold request_row in *. cbn [contacts set_field]. rewrite find_first_app, R. cbn. split; [done|]. split; [|done]. cbn. apply snprintf_all; [by apply hex_nonzero|lia].
Qed.
Lemma text_event msg ui r : request_row ui = Some r -> len (cstr msg) <> 64 ->
  request_row (on_friend_request (Some msg) ui) = Some (r <| c_chat := (c_chat r) <| last := copy_text TT_LAST_MAX msg |> |>).
Proof.
  intros R Hm. unfold on_friend_request. rewrite request_roster. replace (len (cstr msg) =? 64) with false by lia. rewrite R.
  unfold request_row in *. cbn [contacts set_field]. rewrite find_upd_eq, R; [done|]. by intros a Ha.
Qed.

Lemma roster_ready ui : ready (roster_render ui) = ready ui.
Proof. unfold roster_render. destruct (have_keep ui); [done|]. by destruct (sel_kind ui). Qed.
Lemma request_ready s ui : ready (on_friend_request s ui) = ready ui.
Proof. unfold on_friend_request. rewrite roster_ready. repeat case_match; done. Qed.
Lemma roster_posted ui : posted (roster_render ui) = posted ui.
Proof. unfold roster_render. destruct (have_keep ui); [done|]. by destruct (sel_kind ui). Qed.
Lemma show_posted ui : posted (show_selected ui) = posted ui.
Proof. unfold show_selected. repeat case_match; rewrite ?roster_posted; done. Qed.

(** Two friend requests are mixed up: while one waits, a second one is not
    listed, but its message replaces that of the first, whose key stays: the user
    reads what the second person wrote and, accepting, befriends the first.  The
    second request is lost. *)
Theorem second_request_mixed_up st text pk1 msg1 pk2 msg2 ui :
  len pk1 = 32 -> all_bytes pk1 -> len pk2 = 32 -> all_bytes pk2 -> request_row ui = None -> ready ui = true ->
  msg2 <> [] -> len (cstr msg1) <> 64 -> len (cstr msg2) <> 64 ->
  let ui1 := request_events pk2 msg2 (request_events pk1 msg1 ui) in
  exists r, request_row ui1 = Some r /\ key_hex r = hex pk1 /\ last (c_chat r) = copy_text TT_LAST_MAX msg2 /\
    let ui2 := cc_send st text (ui1 <| sel_kind := TT_SEL_REQUEST |>) in
    posted ui2 = posted ui1 ++ [tt_queue_post TT_CMD_ACCEPT_FRIEND 0 (Some (hex pk1)) 0] /\ ready ui1 = true.
Proof.
  intros L1 B1 L2 B2 R Hr Hm2 Hl1 Hl2 ui1.
  assert (exists r, request_row (request_events pk1 msg1 ui) = Some r /\ key_hex r = hex pk1 /\ c_xfer r = no_transfer) as (r1 & R1 & K1 & X1).
  { unfold request_events, cb_friend_request. destruct (key_event Identity.TT_EV_FRIEND_REQUEST pk1 ui L1 B1) as (r & H & K). rewrite R in K.
    destruct msg1 as [|x s]; [exists r; split; [exact H|exact K]|]. eexists. split; [apply (text_event (x :: s) _ _ H); done|exact K]. }
  assert (request_row ui1 = Some (r1 <| c_chat := (c_chat r1) <| last := copy_text TT_LAST_MAX msg2 |> |>)) as R2.
  { unfold ui1, request_events at 1, cb_friend_request. destruct (key_event Identity.TT_EV_FRIEND_REQUEST pk2 (request_events pk1 msg1 ui) L2 B2) as (r & H & K).
    rewrite R1 in K. rewrite K in H. destruct msg2 as [|x s]; [done|]. apply (text_event (x :: s) _ _ H); done. }
  assert (ready ui1 = true) as Hrd.
  { rewrite <- Hr. unfold ui1, request_events. rewrite <- fold_left_app. generalize (cb_friend_request pk1 msg1 ++ cb_friend_request pk2 msg2).
    intros es. clear. revert ui. induction es as [|e es IH]; intros ui; [done|]. cbn [fold_left]. rewrite IH. apply request_ready. }
  eexists. split; [exact R2|]. split; [done|]. split; [done|]. cbv zeta. split; [|done].
  unfold cc_send. change (ready (set_field _ ui1)) with (ready ui1). rewrite Hrd. cbn [negb]. change (sel_kind (set_field _ ui1)) with TT_SEL_REQUEST. cbv iota.
  change (request_row (set_field _ ui1)) with (request_row ui1). rewrite R2. cbv zeta. rewrite show_posted, roster_posted.
  set (u := post _ _ _ _ _ _). assert (contact_remove is_request u = u <| contacts := del_first is_request (contacts u) |>) as ->.
  { unfold contact_remove. change (contacts u) with (contacts ui1). unfold request_row in R2. rewrite R2. cbn [c_xfer set_field]. by rewrite X1. }
  change (posted (set_field _ (set_field _ u))) with (posted u). unfold u. cbn [posted post set_field key_hex]. by rewrite K1.
Qed.

(** ** Witnesses *)

Definition some_env : env := mkEnv (ascii_bytes "12:01") 60 (fun c => c) false.
Definition friend_event (n : Z) (name : string) : env * step := (some_env, Event (simple_event TT_EV_FRIEND_NAME n (Some (ascii_bytes name)) 0 0)).
(** Friend 7 of one client, friend 2 of the other, and the chats open. *)
Definition here : Ui :=
  ui_run [friend_event 7 "bob"; (some_env, Event (simple_event TT_EV_FRIEND_LIST_END 0 None 0 0)); (some_env, Act (Select (RowFriend 7)))] (ui_init false).
Definition there : Ui := ui_run [friend_event 2 "ada"; (some_env, Act (Select (RowFriend 2)))] (ui_init false).
Definition with_name (n : Z) (name : string) : Contact := (new_contact n false) <| c_name := ascii_bytes name |>.
Lemma both_windows_agree_witness :
  window (cc_send (ascii_bytes "12:00") (ascii_bytes "hi :)" ++ [10]) here) =
    window here ++ [ShownMsg true (named (self_name here) (ascii_bytes "you")) (ascii_bytes "12:00") (ascii_bytes "hi " ++ [240; 159; 153; 130])] /\
  window (handle_event some_env (push_simple TT_EV_FRIEND_MESSAGE 2 (Some (ascii_bytes "hi " ++ [240; 159; 153; 130])) 0) there) =
    window there ++ [ShownMsg false (ascii_bytes "ada") (ascii_bytes "12:01") (ascii_bytes "hi " ++ [240; 159; 153; 130])].
Proof.
  destruct (both_windows_agree (ascii_bytes "12:00") (ascii_bytes "hi :)" ++ [10]) false (ascii_bytes "hi " ++ [240; 159; 153; 130])
    here 7 (with_name 7 "bob") some_env there 2 (with_name 2 "ada")) as (_ & _ & H1 & H2).
  1, 3: reflexivity. 1, 2: split; reflexivity. reflexivity. intros H; literal H; done.
  split; [exact H1|exact H2].
Defined.
Lemma second_request_mixed_up_witness :
  let ui1 := request_events (repeat 2 32) (ascii_bytes "call me") (request_events (repeat 1 32) (ascii_bytes "hello") here) in
  exists r, request_row ui1 = Some r /\ key_hex r = hex (repeat 1 32) /\ last (c_chat r) = ascii_bytes "call me".
Proof.
  destruct (second_request_mixed_up [] [] (repeat 1 32) (ascii_bytes "hello") (repeat 2 32) (ascii_bytes "call me") here) as (r & H1 & H2 & H3 & _).
  1, 3: reflexivity. 1, 2: repeat constructor; lia. 1, 2: reflexivity. 1: discriminate. 1, 2: vm_compute; discriminate.
  exists r. split; [exact H1|]. split; [exact H2|exact H3].
Defined.
