(* ===== verification/UiMirror.v ===== *)
(** * UiMirror: the board on the screen and the game of the tox thread

    Two boards are kept for one game: the tox thread's and the interface's.  The
    two queues between them and what both sides do are a step relation; the
    boards agree but for the one move that is under way. *)
From stdpp Require Import relations.
From S2P Require Import Prelude CText Chess ChessRules ChessMoves ChessInvariant ChessOutcome ChessGame ChessPair.
From S2P Require Import Sidecar History Transcript EventQueue Identity Linked Events UiState UiContacts UiCommands UiGroups UiChess UiTunnel UiLoop UiQuiet.

(** ** The chess fields under other events and actions *)

Abbreviation same_chess := (quiet chess chess_cmd).
Lemma chess_local u v : typing_fn v = typing_fn u -> typing_sent v = typing_sent u -> typing_last v = typing_last u ->
  typing_idle_sched v = typing_idle_sched u -> chess v = chess u -> tun v = tun u -> chess v = chess u.
Proof. done. Qed.
Lemma chess_special ty : chess_cmd ty = true -> chess_cmd ty || tunnel_cmd ty || typing_cmd ty = true.
Proof. by intros ->. Qed.
Lemma c_post ty n s i j ui u : chess_cmd ty = false -> same_chess ui u -> same_chess ui (post ty n s i j u).
Proof. intros Ht [H1 H2]. split; [done|]. by rewrite posted_of_post, Ht, app_nil_r. Qed.
Lemma c_render ui u : same_chess ui u -> same_chess ui (render_open u).
Proof. intros H. unfold render_open. by case_match. Qed.

Definition chess_event (ty : TTEventType) : bool :=
  match ty with TT_EV_CHESS_INVITE | TT_EV_CHESS_START | TT_EV_CHESS_MOVE | TT_EV_CHESS_END => true | _ => false end.
Lemma event_chess v e ui : chess_event (ev_type e) = false -> same_chess ui (handle_event v e ui).
Proof.
  intros He. destruct (panel_event (ev_type e)) eqn:E; [|by apply (event_quiet _ _ chess_local chess_special)].
  unfold handle_event. destruct (ev_type e); try discriminate; try (by apply c_render).
  - done.
  - unfold on_tunnel_e2ee. case_match; [by apply c_render|done].
Qed.
Lemma chess_part u v : chess v = chess u -> tun v = tun u -> chess v = chess u.
Proof. done. Qed.
Lemma chess_panel ty : chess_cmd ty = true -> chess_cmd ty || tunnel_cmd ty = true.
Proof. by intros ->. Qed.
Lemma action_chess v a ui : chess_action a = false -> same_chess ui (act v a ui).
Proof.
  intros Hc. destruct (tunnel_action a) eqn:E; [|apply (action_quiet_typing _ _ chess_part chess_panel); by rewrite Hc].
  destruct a; try discriminate; clear E Hc; cbn [act]; try done;
    unfold cc_tun_panel, cc_tun_share_open, cc_tun_share_ok, cc_tun_accept, cc_tun_decline, cc_tun_stop; cbv zeta; repeat case_match; try done; by apply c_post.
Qed.

(** ** One game, two boards *)

(** An event of the tox thread's game with friend [n], as the queue carries it. *)
Definition game_event (n : Z) (e : ChessGame.TTEvent) : event :=
  mkEvent (match ChessGame.ev_type e with
           | ChessGame.TT_EV_CHESS_INVITE => TT_EV_CHESS_INVITE
           | ChessGame.TT_EV_CHESS_START => TT_EV_CHESS_START
           | ChessGame.TT_EV_CHESS_MOVE => TT_EV_CHESS_MOVE
           | ChessGame.TT_EV_CHESS_END => TT_EV_CHESS_END
           end) n (ChessGame.ev_str e) (len (default [] (ChessGame.ev_str e))) (ChessGame.ev_ival e) (ChessGame.ev_ival2 e).

Section mirror.
Context (n : Z).

(** The commands about chess, as [handle_cmd] of the tox thread dispatches
    them; [r] is the random word, [ok] whether toxcore takes a packet. *)
Definition engine_cmd (ok : bytes -> bool) (r : Z) (e : command) (s : option TTChessGame) : chess_result :=
  if negb (friend_number e =? n) then chess_idle s else
  match ev_type e with
  | TT_CMD_CHESS_INVITE => handle_cmd_chess_invite ok r s n
  | TT_CMD_CHESS_ACCEPT => handle_cmd_chess_accept ok s n
  | TT_CMD_CHESS_DECLINE => handle_cmd_chess_decline s n
  | TT_CMD_CHESS_MOVE => handle_cmd_chess_move ok s n (ev_str e)
  | TT_CMD_CHESS_RESIGN => handle_cmd_chess_resign ok s n
  | _ => chess_idle s
  end.

(** The tox thread's slot, the interface, the chess events on their way up, and
    how many of the chess commands posted the tox thread has handled. *)
Record mirror := mkMirror { eng : option TTChessGame; scr : Ui; up : list event; handled : nat }.
Definition down (l : mirror) : list command := drop (handled l) (posted_of chess_cmd (scr l)).
Definition tox_step (r : chess_result) (k : nat) (l : mirror) : mirror := mkMirror (slot r) (scr l) (up l ++ (game_event n <$> events r)) k.

(** The user may do anything but start another game. *)
Definition starts_game (a : action) : bool := match a with ChessInvite | ChessAccept | ChessDecline => true | _ => false end.

Inductive mirror_step : mirror -> mirror -> Prop :=
| m_user l v a : starts_game a = false -> mirror_step l (mkMirror (eng l) (act v a (scr l)) (up l) (handled l))
| m_other l v e : chess_event (ev_type e) = false -> mirror_step l (mkMirror (eng l) (handle_event v e (scr l)) (up l) (handled l))
| m_event l v e es : up l = e :: es -> mirror_step l (mkMirror (eng l) (handle_event v e (scr l)) es (handled l))
| m_command l ok r e es : down l = e :: es -> mirror_step l (tox_step (engine_cmd ok r e (eng l)) (S (handled l)) l)
| m_packet l data : mirror_step l (tox_step (chess_receive (eng l) n data) (handled l) l).

(** The game has just started and the interface was told. *)
Definition game_starts (v : env) (g : TTChessGame) (ui : Ui) : mirror :=
  mkMirror (Some g) (fold_left (fun u e => handle_event v (game_event n e) u) (ChessGame.push_simple ChessGame.TT_EV_CHESS_START None 0 (start_ival g)) ui) []
    (length (posted_of chess_cmd ui)).

(** The screen shows this game, as one that is being played. *)
Definition follows (c : ChessUi) : Prop := chess_fn c = n /\ chess_started c = true.
Definition playing (s : option TTChessGame) : option TTChessGame :=
  match s with Some g => if started g then Some g else None | None => None end.

(** ** What holds between the two *)

(** The piece selected is ours, or it is our turn. *)
Definition sel_mine (c : ChessUi) : Prop :=
  0 <= chess_sel_rank c -> color_is (chess_self c) (at_sq (board (chess_board c)) (chess_sel_rank c) (chess_sel_file c)) = true \/
                           to_move (chess_board c) = chess_self c.
Definition resigns (e : command) : Prop := ev_type e = TT_CMD_CHESS_RESIGN.
Definition moves (mv : bytes) (e : command) : Prop := ev_type e = TT_CMD_CHESS_MOVE /\ friend_number e = n /\ ev_str e = Some mv.
(** Playing [mv] on a board. *)
Definition plays (b : TTChess) (mv : bytes) (b' : TTChess) : Prop :=
  len mv = 4 /\ exists fr ff tr tf, parse_move mv = Some (fr, ff, tr, tf) /\ tt_chess_move b fr ff tr tf = Some b'.
Definition move_event (mv : bytes) : event := mkEvent TT_EV_CHESS_MOVE n (Some mv) 4 0 0.

Inductive agree (g : TTChessGame) (c : ChessUi) : list event -> list command -> Prop :=
| ag_same ds : gboard g = chess_board c -> Forall resigns ds -> agree g c [] ds
| ag_ahead ds mv e ds' : Forall resigns ds -> Forall resigns ds' -> moves mv e -> to_move (gboard g) = self_color g ->
    plays (gboard g) mv (chess_board c) -> agree g c [] (ds ++ e :: ds')
| ag_behind mv ds : Forall resigns ds -> to_move (chess_board c) <> self_color g -> plays (chess_board c) mv (gboard g) ->
    agree g c [move_event mv] ds.

Definition ends (e : event) : Prop := ev_type e = TT_EV_CHESS_END.
Record inv (l : mirror) : Prop := {
  in_engine : eng l = None \/ exists g, eng l = Some g /\ (started g = true \/ pending_invite g = true);
  in_up : Forall (fun e => chess_event (ev_type e) = true /\ ev_type e <> TT_EV_CHESS_START /\ friend_number e = n) (up l);
  in_handled : (handled l <= length (posted_of chess_cmd (scr l)))%nat;
  in_down : Forall (fun e => ev_type e = TT_CMD_CHESS_MOVE \/ ev_type e = TT_CMD_CHESS_RESIGN) (down l);
  in_follow : follows (chess (scr l)) -> sel_mine (chess (scr l)) /\
    match playing (eng l) with
    | Some g => chess_self (chess (scr l)) = self_color g /\ agree g (chess (scr l)) (up l) (down l)
    | None => Exists ends (up l)
    end }.

Lemma plays_turn b mv b' : plays b mv b' -> to_move b' = opponent (to_move b).
Proof. intros (_ & fr & ff & tr & tf & _ & H). apply move_shape in H as [_ ->]. apply (apply_move_frame b). Qed.
Lemma plays_no_nul b mv b' : plays b mv b' -> ~ In 0 mv.
Proof.
  intros (Hl & fr & ff & tr & tf & Hp & _). destruct (parse_move_inv _ _ _ _ _ Hl Hp) as (x & y & z & w & -> & _).
  unfold parse_move in Hp. change (ztake 2 [x; y; z; w]) with [x; y] in Hp. change (zdrop 2 [x; y; z; w]) with [z; w] in Hp.
  destruct (tt_chess_parse_square [x; y]) as [[? ?]|] eqn:E1; [|done]. destruct (tt_chess_parse_square [z; w]) as [[? ?]|] eqn:E2; [|done].
  apply parse_square_nonzero in E1, E2. cbn. lia.
Qed.
Lemma opponent_ne c d : c <> d <-> c = opponent d.
Proof. by destruct c, d. Qed.

(** Of the chess fields, these count. *)
Definition core (c : ChessUi) := (chess_fn c, chess_started c, chess_self c, chess_board c).
Lemma agree_core g c c' es ds : core c' = core c -> agree g c es ds -> agree g c' es ds.
Proof.
  intros E. apply pair_eq in E as [_ Eb]. destruct 1.
  - apply ag_same; congruence.
  - eapply ag_ahead; try done. by rewrite Eb.
  - eapply ag_behind; try done; by rewrite Eb.
Qed.
(** The interface changed in nothing that counts. *)
Lemma inv_screen l u : inv l -> core (chess u) = core (chess (scr l)) -> posted_of chess_cmd u = posted_of chess_cmd (scr l) ->
  (sel_mine (chess (scr l)) -> sel_mine (chess u)) -> inv (mkMirror (eng l) u (up l) (handled l)).
Proof.
  intros [H1 H2 Hk H3 H4] E Ep Hs. split; try done; unfold down in *; cbn [scr handled eng up] in *; rewrite ?Ep; [done..|].
  intros Hf. assert (follows (chess (scr l))) as Hf0.
  { apply pair_eq in E as [[[E1 E2]%pair_eq _]%pair_eq _]. unfold follows in *. by rewrite <- E1, <- E2. }
  destruct (H4 Hf0) as [S A]. split; [by apply Hs|]. destruct (playing (eng l)) as [g|]; [|done]. destruct A as [A1 A2].
  split; [|by eapply agree_core]. apply pair_eq in E as [[_ E3]%pair_eq _]. congruence.
Qed.
Lemma inv_quiet l u : inv l -> same_chess (scr l) u -> inv (mkMirror (eng l) u (up l) (handled l)).
Proof. intros H [E Ep]. apply inv_screen; try done; by rewrite E. Qed.

(** *** The user *)

Lemma draw_only c : exists w, chess_draw_board c = c <| chess_win := w |>.
Proof. unfold chess_draw_board. repeat case_match; try (by eexists); exists (chess_win c); by destruct c. Qed.
Lemma press_inv l x y : inv l -> inv (mkMirror (eng l) (cc_chess_square x y (scr l)) (up l) (handled l)).
Proof.
  intros H. apply inv_screen; try done; unfold cc_chess_square, set_chess; cbn [chess set_field]; set (c := chess (scr l));
    destruct (_ || _); try done; destruct (pixel_square x y) as [[r f]|]; try done; destruct (_ && _) eqn:E; try done.
  - destruct (draw_only (c <| chess_sel_rank := r |> <| chess_sel_file := f |> <| chess_dragging := true |>)) as [w ->]. done.
  - destruct (draw_only (c <| chess_sel_rank := r |> <| chess_sel_file := f |> <| chess_dragging := true |>)) as [w ->].
    intros _ _. left. apply andb_true_iff in E as [_ E]. exact E.
Qed.
(** A drop that moves plays and posts the same move. *)
Lemma drop_cases x y ui : let c := chess ui in let ui' := cc_chess_drop x y ui in
  (core (chess ui') = core c /\ posted_of chess_cmd ui' = posted_of chess_cmd ui /\ (sel_mine c -> sel_mine (chess ui'))) \/
  exists mv b, plays (chess_board c) mv b /\ (sel_mine c -> to_move (chess_board c) = chess_self c) /\
    core (chess ui') = core (c <| chess_board := b |>) /\ sel_mine (chess ui') /\
    posted_of chess_cmd ui' = posted_of chess_cmd ui ++ [tt_queue_post2 TT_CMD_CHESS_MOVE (chess_fn c) (Some mv) 0 0].
Proof.
  intros c ui'. unfold ui', cc_chess_drop. fold c. destruct ((chess_fn c =? UINT32_MAX) || negb (chess_started c) || (chess_sel_rank c <? 0)) eqn:G; [by left|].
  destruct (pixel_square x y) as [[r f]|]; [|by left]. destruct ((r =? chess_sel_rank c) && (f =? chess_sel_file c)); [by left|].
  set (from := tt_chess_format_square _ _). set (to := tt_chess_format_square r f). cbv zeta.
  assert (core (drop_selection c) = core c) as D1 by done. assert (sel_mine c -> sel_mine (drop_selection c)) as D2 by (intros _ N; change (0 <= -1) in N; lia).
  destruct (tt_chess_parse_square from) as [[fr ff]|] eqn:P1; [|by left]. destruct (tt_chess_parse_square to) as [[tr tf]|] eqn:P2; [|by left].
  change (chess_board (drop_selection c)) with (chess_board c).
  destruct (tt_chess_move (chess_board c) fr ff tr tf) as [b|] eqn:M; [right|by left].
  exists (from ++ to), b. set (c' := (drop_selection c) <| chess_board := b |> <| chess_my_turn := bool_decide (to_move b = chess_self (drop_selection c)) |>). destruct (draw_only c') as [w ->].
  split; [split; [done|exists fr, ff, tr, tf; split; [|done]]|split; [|split; [done|split; [intros N; change (0 <= -1) in N; lia|]]]].
  - unfold parse_move. change (ztake 2 (from ++ to)) with from. change (zdrop 2 (from ++ to)) with to. by rewrite P1, P2.
  - intros S. apply orb_false_iff in G as [G Hs]. destruct (S ltac:(bool_to_prop; lia)) as [Hc|Hc]; [|done].
    unfold from, tt_chess_format_square in P1. cbn in P1. case_match; [done|]. apply (inj Some), pair_eq in P1 as [E1 E2].
    replace (chess_sel_rank c) with fr in Hc by lia. replace (chess_sel_file c) with ff in Hc by lia.
    unfold tt_chess_move in M. destruct (_ || _) in M; [done|]. cbv zeta in M. destruct (_ || _) eqn:C in M; [done|].
    apply orb_false_iff in C as [_ C]. apply negb_false_iff in C. unfold color_is in *. apply bool_decide_eq_true in C, Hc. congruence.
  - rewrite posted_of_post. done.
Qed.
Lemma user_moves l u mv b : inv l -> let c := chess (scr l) in
  plays (chess_board c) mv b -> (sel_mine c -> to_move (chess_board c) = chess_self c) -> core (chess u) = core (c <| chess_board := b |>) ->
  sel_mine (chess u) -> posted_of chess_cmd u = posted_of chess_cmd (scr l) ++ [tt_queue_post2 TT_CMD_CHESS_MOVE (chess_fn c) (Some mv) 0 0] ->
  inv (mkMirror (eng l) u (up l) (handled l)).
Proof.
  intros [H1 H2 Hk H3 H4] c Hp Ht E Su Ep. pose proof (plays_no_nul _ _ _ Hp) as H0. set (e := tt_queue_post2 _ _ _ _ _) in *.
  assert (down (mkMirror (eng l) u (up l) (handled l)) = down l ++ [e]) as Ed.
  { unfold down. cbn [scr handled]. rewrite Ep. by rewrite drop_app_le. }
  apply pair_eq in E as [[[E1 E2]%pair_eq E3]%pair_eq E4].
  split; try done; [cbn [handled scr]; rewrite Ep, length_app; lia|rewrite Ed; apply Forall_app; split; [done|by repeat constructor; left]|]. cbn [scr eng up]. intros Hf.
  assert (follows c) as Hf0 by (unfold follows in *; by rewrite E1, E2 in Hf). destruct (H4 Hf0) as [S A]. split; [done|].
  destruct (playing (eng l)) as [g|]; [|done]. destruct A as [A1 A2]. split; [by rewrite E3|]. rewrite Ed. fold c in A1, A2.
  specialize (Ht S). pose proof (plays_turn _ _ _ Hp) as Tb. destruct A2 as [ds Eg Hds|ds mv' e' ds' Hds Hds' He' Hm' Hp'|mv' ds Hds Hm' Hp'].
  - apply (ag_ahead _ _ ds mv e []); try done.
    + unfold moves, e. cbn. rewrite CText.cstr_no_nul by done. split; [done|]. by rewrite (proj1 Hf0).
    + rewrite Eg, Ht. done.
    + rewrite Eg, E4. exact Hp.
  - apply plays_turn in Hp'. exfalso. rewrite Hp', Hm', <- A1 in Ht. by destruct (chess_self c).
  - exfalso. congruence.
Qed.
Lemma agree_resign g c es ds e : agree g c es ds -> resigns e -> agree g c es (ds ++ [e]).
Proof.
  intros H He. assert (forall l, Forall resigns l -> Forall resigns (l ++ [e])) as A by (intros l Hl; apply Forall_app; by repeat constructor).
  destruct H; [by apply ag_same; [|apply A]| |by apply ag_behind; [apply A|..]].
  rewrite <- app_assoc. cbn [app]. by eapply ag_ahead; [|apply A|..].
Qed.
Lemma resign_inv l : inv l -> inv (mkMirror (eng l) (cc_chess_resign (scr l)) (up l) (handled l)).
Proof.
  intros H. unfold cc_chess_resign. destruct (chess_fn (chess (scr l)) =? UINT32_MAX); [by destruct l|].
  destruct H as [H1 H2 Hk H3 H4]. set (u := post _ _ _ _ _ _).
  assert (down (mkMirror (eng l) u (up l) (handled l)) = down l ++ [tt_queue_post2 TT_CMD_CHESS_RESIGN (chess_fn (chess (scr l))) None 0 0]) as Ed.
  { unfold down. cbn [scr handled]. unfold u. rewrite posted_of_post. by rewrite drop_app_le. }
  split; try done.
  - cbn [handled scr]. unfold u. rewrite posted_of_post, length_app. lia.
  - rewrite Ed. apply Forall_app. split; [done|]. constructor; [by right|constructor].
  - rewrite Ed. intros Hf. destruct (H4 Hf) as [S A]. split; [done|]. cbn [eng up]. destruct (playing (eng l)); [|done].
    destruct A as [A1 A2]. split; [done|]. by apply agree_resign.
Qed.
Lemma user_inv l v a : n <> UINT32_MAX -> starts_game a = false -> inv l -> inv (mkMirror (eng l) (act v a (scr l)) (up l) (handled l)).
Proof.
  intros Hn Ha H. destruct (chess_action a) eqn:E; [|by apply inv_quiet, action_chess].
  destruct a; try discriminate; cbn [act].
  - by apply press_inv.
  - destruct (drop_cases x y (scr l)) as [(E1 & E2 & E3)|(mv & b & P & Ht & E1 & S & Ep)]; [by apply inv_screen|by eapply user_moves].
  - by apply resign_inv.
  - destruct H as [H1 H2 Hk H3 H4]. split; try done. intros [F _]. done.
  - by apply inv_screen.
Qed.

(** *** Events delivered *)

Lemma on_move_cases k len s c ui : chess ui = c -> let c' := chess (on_chess_move k len s ui) in
  c' = c \/ exists b w t, c' = c <| chess_board := b |> <| chess_my_turn := t |> <| chess_win := w |> /\
    to_move (chess_board c) <> chess_self c /\ to_move b = opponent (to_move (chess_board c)).
Proof.
  intros <-. unfold on_chess_move, set_chess. cbn [chess set_field]. set (c := chess ui). destruct s as [s|]; [|by left].
  destruct (_ || _); [by left|]. destruct (tt_chess_parse_square _) as [[fr ff]|]; [|by left]. destruct (tt_chess_parse_square _) as [[tr tf]|]; [|by left].
  case_bool_decide as T; [by left|]. destruct (tt_chess_move _ _ _ _ _) as [b|] eqn:M; [right|by left].
  destruct (draw_only (c <| chess_board := b |> <| chess_my_turn := bool_decide (to_move b = chess_self c) |>)) as [w ->].
  eexists b, w, _. split; [done|]. split; [done|]. apply move_shape in M as [_ ->]. apply (apply_move_frame (chess_board c)).
Qed.
Lemma on_move_plays mv b c ui : chess ui = c -> chess_fn c = n -> to_move (chess_board c) <> chess_self c -> plays (chess_board c) mv b ->
  core (chess (on_chess_move n 4 (Some mv) ui)) = core (c <| chess_board := b |>).
Proof.
  intros <- Hn Ht (Hl & fr & ff & tr & tf & Hp & Hm). destruct (parse_move_inv _ _ _ _ _ Hl Hp) as (x & y & z & w & -> & E1 & E2).
  unfold on_chess_move, set_chess. cbn [chess set_field]. rewrite Hn, Z.eqb_refl. cbn [negb orb Z.eqb Pos.eqb].
  change (zat [x; y; z; w] 0) with x. change (zat [x; y; z; w] 1) with y. change (zat [x; y; z; w] 2) with z. change (zat [x; y; z; w] 3) with w.
  rewrite E1, E2, bool_decide_false, Hm by done. match goal with |- core (chess_draw_board ?d) = _ => destruct (draw_only d) as [v ->] end. done.
Qed.
(** What a delivered event leaves to show. *)
Lemma deliver_inv l v e es : n <> UINT32_MAX -> up l = e :: es -> inv l -> inv (mkMirror (eng l) (handle_event v e (scr l)) es (handled l)).
Proof.
  intros Hn Hu [H1 H2 Hk H3 H4]. rewrite Hu in *. apply Forall_cons in H2 as [(He & Hs & Hen) H2]. set (c := chess (scr l)) in *.
  assert (posted_of chess_cmd (handle_event v e (scr l)) = posted_of chess_cmd (scr l)) as Ep.
  { unfold handle_event. destruct (ev_type e); try discriminate; done. }
  assert (down (mkMirror (eng l) (handle_event v e (scr l)) es (handled l)) = down l) as Ed by (unfold down; cbn [scr handled]; by rewrite Ep).
  split; try done; [cbn [scr handled]; by rewrite Ep|by rewrite Ed|]. rewrite Ed. cbn [scr eng up]. intros Hf.
  unfold handle_event in *. destruct (ev_type e) eqn:Et; try discriminate; try done.
  - (* INVITE *) unfold on_chess_invite, set_chess in *. cbn [chess set_field] in *. fold c in Hf |- *. destruct (chess_invite_open c); [|by destruct Hf].
    destruct (H4 Hf) as [S A]. split; [done|]. destruct (playing (eng l)) as [g|].
    + destruct A as [_ A]. inversion A; subst. done.
    + inversion A as [? ? A'|? ? A']; subst; [|done]. unfold ends in A'. congruence.
  - (* MOVE *) destruct (on_move_cases (friend_number e) (str_len e) (ev_str e) c (scr l) eq_refl) as [E|(b & w & t & E & T & Tb)].
    + rewrite E in *. destruct (H4 Hf) as [S A]. split; [done|]. destruct (playing (eng l)) as [g|].
      * destruct A as [A1 A]. exfalso. inversion A as [| |mv ds Hds T P E1]; subst. pose proof (on_move_plays mv (gboard g) c (scr l) eq_refl (proj1 Hf)) as M.
        cbn [move_event friend_number str_len ev_str] in E. rewrite A1 in M. specialize (M T P). rewrite E in M. apply (f_equal snd) in M. cbn in M.
        apply plays_turn in P. rewrite <- M in P. by destruct (to_move (chess_board c)).
      * inversion A as [? ? A'|? ? A']; subst; [|done]. unfold ends in A'. congruence.
    + rewrite E in *. destruct (H4 Hf) as [S A]. split; [intros _; right; cbn; rewrite Tb; by apply opponent_ne in T as ->; destruct (chess_self c)|].
      destruct (playing (eng l)) as [g|].
      * destruct A as [A1 A]. split; [done|]. inversion A as [| |mv ds Hds T' P E1]; subst.
        pose proof (on_move_plays mv (gboard g) c (scr l) eq_refl (proj1 Hf)) as M. rewrite A1 in M. specialize (M T' P).
        cbn [move_event friend_number str_len ev_str] in E. rewrite E in M. apply (f_equal snd) in M. cbn in M. apply ag_same; [by rewrite <- M|done].
      * inversion A as [? ? A'|? ? A']; subst; [|done]. unfold ends in A'. congruence.
  - (* END *) unfold on_chess_end, set_chess in *. cbn [chess set_field] in *. fold c in Hf |- *. rewrite Hen in *.
    destruct (chess_fn c =? n) eqn:F; cbn [negb] in *; [by destruct Hf|]. bool_to_prop. by destruct Hf.
Qed.

(** *** The tox thread *)

Definition engine_ok (s : option TTChessGame) : Prop := s = None \/ exists g, s = Some g /\ (started g = true \/ pending_invite g = true).
(** What the tox thread makes of a command or a packet: nothing, the end of the
    game with a last event, or a move, [own] or the friend's. *)
Inductive engine_result (own : bool) (s : option TTChessGame) : chess_result -> Prop :=
| er_idle ps : engine_result own s (mkResult s [] ps)
| er_invited g ps : own = false -> s = None -> pending_invite g = true -> started g = false ->
    engine_result own s (mkResult (Some g) (ChessGame.push_simple ChessGame.TT_EV_CHESS_INVITE None 0 0) ps)
| er_over g es i w ps : s = Some g -> started g = true -> Forall (fun e => ChessGame.ev_type e = ChessGame.TT_EV_CHESS_MOVE) es ->
    engine_result own s (mkResult None (es ++ [ChessGame.mkEvent ChessGame.TT_EV_CHESS_END None i w]) ps)
| er_own g mv b ps : own = true -> s = Some g -> started g = true -> to_move (gboard g) = self_color g -> plays (gboard g) mv b ->
    engine_result own s (mkResult (Some (g <| gboard := b |>)) [] ps)
| er_theirs g mv b ps : own = false -> s = Some g -> started g = true -> to_move (gboard g) <> self_color g -> plays (gboard g) mv b ->
    engine_result own s (mkResult (Some (g <| gboard := b |>)) [ChessGame.mkEvent ChessGame.TT_EV_CHESS_MOVE (Some mv) 0 0] ps).

Lemma end_if_over_cases g : end_if_over g = (Some g, []) \/ exists i w, end_if_over g = (None, [ChessGame.mkEvent ChessGame.TT_EV_CHESS_END None i w]).
Proof. unfold end_if_over. destruct (status (gboard g)); [by left|right|right|by left]; by eexists _, _. Qed.

Lemma c_str2_parse a b r : tt_chess_parse_square (c_str2 a b) = Some r -> c_str2 a b = [a; b].
Proof. unfold c_str2. by repeat case_match. Qed.
Lemma packet_result s data : engine_ok s -> engine_result false s (chess_receive s n data).
Proof.
  intros Hs. unfold chess_receive. destruct (chess_dispatch data) as [[ty pl]| |]; [|apply er_idle..]. unfold chess_rx.
  destruct (TT_MAX_FRIENDS <=? n); [apply er_idle|]. destruct pl as [|pkt t]; [apply er_idle|]. set (d := pkt :: t).
  destruct (ty =? TT_GAME_PACKET_INVITE).
  - destruct (_ || _); [apply er_idle|]. cbv zeta. destruct (_ && _); [apply er_idle|]. destruct s as [g|]; [apply er_idle|]. by apply er_invited.
  - destruct (negb (ty =? TT_GAME_PACKET_DATA)); [apply er_idle|]. destruct s as [g|]; [|apply er_idle].
    destruct Hs as [|(g' & [= <-] & Hg)]; [done|]. destruct (pkt =? TT_CHESS_PKT_ACCEPT) eqn:EA.
    + replace (negb (len d =? 1) || pending_invite g || started g) with true by (destruct Hg as [-> | ->]; by rewrite ?orb_true_r). apply er_idle.
    + destruct (pkt =? TT_CHESS_PKT_MOVE) eqn:EM.
      * destruct (negb (len d =? 5) || negb (started g)) eqn:G; [apply er_idle|]. apply orb_false_iff in G as [Gl Gs]. apply negb_false_iff in Gl, Gs.
        destruct (tt_chess_parse_square _) as [[fr ff]|] eqn:P1; [|apply er_idle]. destruct (tt_chess_parse_square _) as [[tr tf]|] eqn:P2 in |- *; [|apply er_idle].
        case_bool_decide as T; [apply er_idle|]. destruct (tt_chess_move (gboard g) fr ff tr tf) as [b|] eqn:M; [|apply er_idle].
        assert (exists x y z w, t = [x; y; z; w]) as (x & y & z & w & ->).
        { apply Z.eqb_eq in Gl. unfold d, len in Gl. cbn [length] in Gl. destruct t as [|x [|y [|z [|w [|? ?]]]]]; cbn [length] in Gl; try lia. by exists x, y, z, w. }
        change (c_str2 (zat d 1) (zat d 2)) with (c_str2 x y) in P1. change (c_str2 (zat d 3) (zat d 4)) with (c_str2 z w) in P2.
        change (ChessGame.push_simple ChessGame.TT_EV_CHESS_MOVE (Some (zsub 1 4 d)) 4 0) with [ChessGame.mkEvent ChessGame.TT_EV_CHESS_MOVE (Some [x; y; z; w]) 0 0].
        assert (plays (gboard g) [x; y; z; w] b) as P.
        { split; [done|]. exists fr, ff, tr, tf. split; [|done]. unfold parse_move. change (ztake 2 [x; y; z; w]) with [x; y]. change (zdrop 2 [x; y; z; w]) with [z; w].
          rewrite <- (c_str2_parse _ _ _ P1), P1. by rewrite <- (c_str2_parse _ _ _ P2), P2. }
        destruct (end_if_over_cases (g <| gboard := b |>)) as [->|(i & w' & ->)]; [by apply er_theirs|]. by eapply er_over; [| |apply Forall_singleton].
      * destruct (pkt =? TT_CHESS_PKT_RESIGN); [|apply er_idle]. destruct (negb (len d =? 1) || negb (started g)) eqn:G; [apply er_idle|].
        apply orb_false_iff in G as [_ Gs]. apply negb_false_iff in Gs. by eapply (er_over _ _ g []).
Qed.
Lemma command_result ok r e s : ev_type e = TT_CMD_CHESS_MOVE \/ ev_type e = TT_CMD_CHESS_RESIGN -> engine_result true s (engine_cmd ok r e s).
Proof.
  intros He. unfold engine_cmd. destruct (negb _); [apply er_idle|]. destruct He as [-> | ->].
  - unfold handle_cmd_chess_move. destruct (TT_MAX_FRIENDS <=? n); [apply er_idle|]. destruct s as [g|]; [|apply er_idle].
    destruct (ev_str e) as [mv|]; [|apply er_idle]. destruct (negb (started g) || negb (len mv =? 4)) eqn:G; [apply er_idle|].
    apply orb_false_iff in G as [Gs Gl]. apply negb_false_iff in Gl, Gs.
    destruct (tt_chess_parse_square (ztake 2 mv)) as [[fr ff]|] eqn:P1; [|apply er_idle]. destruct (tt_chess_parse_square (zdrop 2 mv)) as [[tr tf]|] eqn:P2; [|apply er_idle].
    case_bool_decide as T; cbn [negb]; [|apply er_idle]. destruct (tt_chess_move (gboard g) fr ff tr tf) as [b|] eqn:M; [|apply er_idle].
    assert (plays (gboard g) mv b) as P.
    { split; [by apply Z.eqb_eq|]. exists fr, ff, tr, tf. split; [|done]. unfold parse_move. by rewrite P1, P2. }
    destruct (chess_send _ _ _ _) as [pkt|]; [|by eapply (er_over _ _ g [])].
    destruct (end_if_over_cases (g <| gboard := b |>)) as [->|(i & w' & ->)]; [by eapply er_own|by eapply (er_over _ _ g [])].
  - unfold handle_cmd_chess_resign. destruct (TT_MAX_FRIENDS <=? n); [apply er_idle|]. destruct s as [g|]; [|apply er_idle].
    destruct (started g) eqn:Gs; cbn [negb]; [|apply er_idle]. by eapply (er_over _ _ g []).
Qed.
(** A move that waits is played when its turn comes. *)
Lemma own_move_played ok r e g mv b : n < TT_MAX_FRIENDS -> moves mv e -> started g = true -> to_move (gboard g) = self_color g -> plays (gboard g) mv b ->
  slot (engine_cmd ok r e (Some g)) <> Some g /\ forall g', slot (engine_cmd ok r e (Some g)) = Some g' -> gboard g' = b /\ self_color g' = self_color g.
Proof.
  intros Hn (Et & Ef & Es) Gs T (Hl & fr & ff & tr & tf & Hp & Hm). unfold engine_cmd. rewrite Ef, Z.eqb_refl, Et. cbn [negb].
  unfold handle_cmd_chess_move. rewrite (proj2 (Z.leb_gt _ _)) by done. rewrite Es, Gs, Hl. cbn [negb orb Z.eqb Pos.eqb].
  unfold parse_move in Hp. destruct (tt_chess_parse_square (ztake 2 mv)) as [[? ?]|]; [|done]. destruct (tt_chess_parse_square (zdrop 2 mv)) as [[? ?]|]; [|done].
  apply (inj Some) in Hp. apply pair_eq in Hp as [[[-> ->]%pair_eq ->]%pair_eq ->]. rewrite bool_decide_true by done. cbn [negb]. rewrite Hm.
  destruct (chess_send _ _ _ _); [|done]. destruct (end_if_over_cases (g <| gboard := b |>)) as [->|(i & w' & ->)]; [|done].
  assert (gboard g <> b) as Hne.
  { intros E. apply move_shape in Hm as [_ Eb]. pose proof (apply_move_frame (gboard g) (at_sq (board (gboard g)) fr ff) (at_sq (board (gboard g)) tr tf) fr ff tr tf) as (_ & F & _).
    rewrite <- Eb, <- E in F. by destruct (to_move (gboard g)). }
  cbn [slot]. split; [|by intros g' [= <-]]. intros E. apply (f_equal (option_map gboard)) in E. cbn in E. congruence.
Qed.
Lemma result_ok own s r : engine_ok s -> engine_result own s r -> engine_ok (slot r).
Proof.
  intros Hs [ps|g ps _ _ Hg _|g es i w ps _ _ _|g mv b ps _ _ Hg _ _|g mv b ps _ _ Hg _ _]; cbn [slot]; try done.
  - right. exists g. split; [done|by right].
  - by left.
  - right. eexists. split; [done|by left].
  - right. eexists. split; [done|by left].
Qed.
Lemma result_events own s r : engine_result own s r ->
  Forall (fun e => chess_event (ev_type e) = true /\ ev_type e <> TT_EV_CHESS_START /\ friend_number e = n) (game_event n <$> events r).
Proof.
  intros [ps|g ps _ _ _ _|g es i w ps _ _ H|g mv b ps _ _ _ _ _|g mv b ps _ _ _ _ _]; cbn [events]; try (by repeat constructor).
  rewrite fmap_app. apply Forall_app. split; [|by repeat constructor]. apply Forall_fmap. eapply Forall_impl; [exact H|]. intros e He. unfold compose, game_event. cbn. by rewrite He.
Qed.
(** The game is over: the interface is going to hear of it. *)
Lemma result_over own s r : engine_result own s r -> playing (slot r) = None ->
  playing s = None \/ Exists ends (game_event n <$> events r).
Proof.
  intros [ps|g ps _ E _ _|g es i w ps _ _ H|g mv b ps _ _ Hg _ _|g mv b ps _ _ Hg _ _]; cbn [slot events playing].
  - by left.
  - intros _. rewrite E. by left.
  - intros _. right. rewrite fmap_app. apply Exists_app. right. by left.
  - cbn [started set_field]. by rewrite Hg.
  - cbn [started set_field]. by rewrite Hg.
Qed.
Lemma packet_inv l data : inv l -> inv (tox_step (chess_receive (eng l) n data) (handled l) l).
Proof.
  intros [H1 H2 Hk H3 H4]. pose proof (packet_result (eng l) data H1) as R. set (r := chess_receive _ _ _) in *.
  assert (down (tox_step r (handled l) l) = down l) as Ed by done.
  split; [by eapply result_ok|apply Forall_app; split; [done|by eapply result_events]|done|done|]. rewrite Ed. cbn [scr eng up tox_step]. intros Hf.
  destruct (H4 Hf) as [S A]. split; [done|].
  destruct R as [ps|g ps _ E Hg Hs|g es i w ps E Hs H|g mv b ps E|g mv b ps _ E Hs T P]; cbn [slot events].
  - rewrite app_nil_r. exact A.
  - rewrite E in A. cbn [playing] in A |- *. rewrite Hs. apply Exists_app. by left.
  - cbn [playing]. apply Exists_app. right. rewrite fmap_app. apply Exists_app. right. by left.
  - done.
  - rewrite E in A. cbn [playing started set_field] in A |- *. rewrite Hs in A |- *. destruct A as [A1 A2]. split; [done|].
    destruct A2 as [ds Eb Hds|ds mv' e' ds' _ _ _ T' _|mv' ds _ T' P'].
    + assert (game_event n <$> [ChessGame.mkEvent ChessGame.TT_EV_CHESS_MOVE (Some mv) 0 0] = [move_event mv]) as ->.
      { unfold move_event, game_event. cbn [fmap list_fmap ChessGame.ev_type ChessGame.ev_str ev_ival ev_ival2 default]. unfold id. by rewrite (proj1 P). }
      apply ag_behind; [done|rewrite <- Eb; exact T|rewrite <- Eb; exact P].
    + done.
    + apply plays_turn in P'. exfalso. apply T. rewrite P'. apply opponent_ne in T' as ->. by destruct (self_color g).
Qed.
Lemma resign_result ok r e g : resigns e -> engine_cmd ok r e (Some g) = chess_idle (Some g) \/ slot (engine_cmd ok r e (Some g)) = None.
Proof.
  intros He. unfold engine_cmd. destruct (negb _); [by left|]. rewrite He. unfold handle_cmd_chess_resign. destruct (TT_MAX_FRIENDS <=? n); [by left|].
  destruct (started g); [by right|by left].
Qed.
Lemma command_inv l ok r e es : n < TT_MAX_FRIENDS -> down l = e :: es -> inv l -> inv (tox_step (engine_cmd ok r e (eng l)) (S (handled l)) l).
Proof.
  intros Hn Hd [H1 H2 Hk H3 H4]. rewrite Hd in *. apply Forall_cons in H3 as [He H3]. pose proof (command_result ok r e (eng l) He) as R.
  set (x := engine_cmd ok r e (eng l)) in *.
  assert (drop (S (handled l)) (posted_of chess_cmd (scr l)) = es) as Ed.
  { unfold down in Hd. replace (S (handled l)) with (handled l + 1)%nat by lia. by rewrite <- drop_drop, Hd. }
  assert (down (tox_step x (S (handled l)) l) = es) as Ed' by done.
  split; [by eapply result_ok|apply Forall_app; split; [done|by eapply result_events]| |by rewrite Ed'|].
  { cbn [handled scr tox_step]. apply (f_equal length) in Hd. unfold down in Hd. rewrite length_drop in Hd. cbn [length] in Hd. lia. }
  rewrite Ed'. cbn [scr eng up tox_step]. intros Hf. destruct (H4 Hf) as [S A]. split; [done|].
  destruct (playing (slot x)) as [g'|] eqn:Ep.
  2: { apply Exists_app. destruct (result_over _ _ _ R Ep) as [E|E]; [rewrite E in A; by left|by right]. }
  destruct (playing (eng l)) as [g|] eqn:Eg.
  - assert (eng l = Some g /\ started g = true) as [Es Hs].
    { unfold playing in Eg. destruct (eng l) as [g0|]; [|done]. destruct (started g0) eqn:G; [|done]. by injection Eg as ->. }
    destruct A as [A1 A2]. rewrite Es in R.
    assert (slot x = Some g' /\ started g' = true) as [Ex Hs'].
    { unfold playing in Ep. destruct (slot x) as [g0|]; [|done]. destruct (started g0) eqn:G; [|done]. by injection Ep as ->. }
    assert (resigns e -> agree g (chess (scr l)) (up l) es ->
      chess_self (chess (scr l)) = self_color g' /\ agree g' (chess (scr l)) (up l ++ (game_event n <$> events x)) es) as Idle.
    { intros Hr H. unfold x in *. rewrite Es in *. destruct (resign_result ok r e g Hr) as [E|E]; [|by rewrite E in Ex]. rewrite E in *.
      apply (inj Some) in Ex as <-. cbn [events chess_idle fmap list_fmap]. rewrite app_nil_r. by split. }
    inversion A2 as [ds Eb Hds E1 E2|ds mv e' ds' Hds Hds' Hm T P E1 E2|mv ds Hds T P E1 E2].
    + subst ds. apply Forall_cons in Hds as [Hr Hds]. rewrite <- E1 in Idle. apply Idle; [done|]. by apply ag_same.
    + destruct ds as [|e0 ds].
      * cbn [app] in E2. injection E2 as -> ->. unfold x in *. rewrite Es in *. destruct (own_move_played ok r e g mv (chess_board (chess (scr l))) Hn Hm Hs T P) as [Hne Hpl].
        destruct (Hpl g' Ex) as [Hb Hc]. split; [congruence|]. assert (events (engine_cmd ok r e (Some g)) = []) as ->.
        { inversion R as [ps E3|? ? ? E3|? ? ? ? ? ? ? ? E3|? ? ? ? ? ? ? ? ? E3|? ? ? ? E3]; try done. by rewrite <- E3 in Ex. }
        cbn [fmap list_fmap app]. by apply ag_same.
      * cbn [app] in E2. injection E2 as -> E2. apply Forall_cons in Hds as [Hr Hds]. rewrite <- E1, <- E2 in Idle. rewrite <- E2. apply Idle; [done|]. by eapply ag_ahead.
    + subst ds. apply Forall_cons in Hds as [Hr Hds]. rewrite <- E1 in Idle. apply Idle; [done|]. by apply ag_behind.
  - exfalso. destruct R as [ps|g ps D|g es' i w ps E Hs H|g mv b ps _ E Hs|g mv b ps D]; cbn [slot] in Ep; try done; [by rewrite Eg in Ep|].
    rewrite E in Eg. cbn [playing] in Eg. by rewrite Hs in Eg.
Qed.

Lemma step_inv l l' : 0 <= n < TT_MAX_FRIENDS -> mirror_step l l' -> inv l -> inv l'.
Proof.
  intros Hn. assert (n <> UINT32_MAX) as Hm by (unfold TT_MAX_FRIENDS, UINT32_MAX in *; lia). destruct 1 as [l v a Ha|l v e He|l v e es Hu|l ok r e es Hd|l data]; intros H.
  - by apply user_inv.
  - apply inv_quiet; [done|]. by apply event_chess.
  - by apply deliver_inv.
  - eapply command_inv; [lia|done..].
  - by apply packet_inv.
Qed.
Lemma start_shown k i ui : core (chess (on_chess_start k i ui)) = (k, true, if i =? 1 then TT_COLOR_WHITE else TT_COLOR_BLACK, tt_chess_init) /\
  chess_sel_rank (chess (on_chess_start k i ui)) = -1.
Proof.
  unfold on_chess_start, set_chess, chess_open. cbn [chess set_field]. match goal with |- context [chess_draw_board ?d] => destruct (draw_only d) as [w ->] end.
  match goal with |- context [if chess_invite_open ?d then _ else _] => by destruct (chess_invite_open d) end.
Qed.
Lemma start_inv v g ui : started g = true -> gboard g = tt_chess_init -> inv (game_starts v g ui).
Proof.
  intros Hs Hb. unfold game_starts. cbn [ChessGame.push_simple fold_left]. set (u := handle_event _ _ _).
  assert (posted_of chess_cmd u = posted_of chess_cmd ui) as Ep by done.
  assert (down (mkMirror (Some g) u [] (length (posted_of chess_cmd ui))) = []) as Ed by (unfold down; cbn [scr handled]; rewrite Ep; apply drop_all).
  split; try done.
  - right. exists g. split; [done|by left].
  - by rewrite Ed.
  - rewrite Ed. cbn [scr eng up playing]. rewrite Hs. intros _. unfold u, handle_event. cbn [ev_type game_event ChessGame.ev_type ival ChessGame.ev_ival friend_number].
    destruct (start_shown n (start_ival g) ui) as [E1 E2]. apply pair_eq in E1 as [[_ E3]%pair_eq E4].
    split; [intros N; rewrite E2 in N; lia|]. split; [rewrite E3; unfold start_ival, is_white; by destruct (self_color g)|].
    apply ag_same; [by rewrite E4|done].
Qed.

(** C15: The board on the screen is the tox thread's.  From the start of a game,
    whatever the user does in the window and elsewhere, whatever packets the
    friend sends and however events and commands are delivered: while the window
    shows the game and the tox thread has it, the colours agree, and the boards
    are the same or differ by the one move under way, the user's as a command or
    the friend's as an event, which the other side is going to play.  When the
    tox thread's game is over, the event that says so is under way. *)
Theorem board_mirrored v g ui l : 0 <= n < TT_MAX_FRIENDS -> started g = true -> gboard g = tt_chess_init ->
  rtc mirror_step (game_starts v g ui) l -> follows (chess (scr l)) ->
  match playing (eng l) with
  | Some g' => chess_self (chess (scr l)) = self_color g' /\
      ((up l = [] /\ chess_board (chess (scr l)) = gboard g') \/
       (up l = [] /\ to_move (gboard g') = self_color g' /\ exists mv e, e ∈ down l /\ moves mv e /\ plays (gboard g') mv (chess_board (chess (scr l)))) \/
       (exists mv, up l = [move_event mv] /\ to_move (gboard g') = self_color g' /\ plays (chess_board (chess (scr l))) mv (gboard g')))
  | None => exists e, e ∈ up l /\ ev_type e = TT_EV_CHESS_END
  end.
Proof.
  intros Hn Hs Hb Hr Hf. assert (inv l) as [_ _ _ _ H].
  { eapply (rtc_ind_r inv); [by apply start_inv| |exact Hr]. intros x y _ Hxy Hx. by eapply step_inv. }
  destruct (H Hf) as [_ A]. destruct (playing (eng l)) as [g'|].
  - destruct A as [A1 A2]. split; [done|]. destruct A2 as [ds Eb Hds|ds mv e ds' Hds Hds' Hm T P|mv ds Hds T P].
    + by left.
    + right. left. split; [done|]. split; [done|]. exists mv, e. split; [|done]. apply elem_of_app. right. by left.
    + right. right. exists mv. split; [done|]. split; [|done]. apply plays_turn in P. rewrite P. apply opponent_ne in T as ->. by destruct (self_color g').
  - apply Exists_exists in A as (e & He & E). by exists e.
Qed.
End mirror.

(** An invitation to chess from anyone else takes the window away from the game
    that is being played: its moves are shown no more and none can be made, and
    answering the invitation does not bring the window back. *)
Theorem invitation_takes_window n m str x y mv ui : follows n (chess ui) -> m <> n -> chess_invite_open (chess ui) = false ->
  let ui' := on_chess_invite m str ui in
  chess_board (chess ui') = chess_board (chess ui) /\ chess_win (chess ui') = chess_win (chess ui) /\
  chess (on_chess_move n 4 mv ui') = chess ui' /\ cc_chess_drop x y ui' = ui' /\ ~ follows n (chess (cc_chess_decline ui')).
Proof.
  intros [F S] Hm Ho ui'. unfold ui', on_chess_invite, set_chess. cbn [chess set_field]. rewrite Ho. split; [done|]. split; [done|]. split; [|split].
  - unfold on_chess_move, set_chess. cbn. destruct mv; [|done]. by replace (m =? n) with false by lia.
  - unfold cc_chess_drop. cbn. by rewrite orb_true_r.
  - unfold cc_chess_decline. cbn. case_match; intros [_ N]; done.
Qed.

(** ** Witness *)

Definition chess_env : env := mkEnv [] 0 (fun c => c) false.
Definition white_game : TTChessGame := mkGame tt_chess_init 7 TT_COLOR_WHITE false true.
Definition user_does (a : action) (l : mirror) : mirror := mkMirror (eng l) (act chess_env a (scr l)) (up l) (handled l).
Definition white_start : mirror := game_starts 3 chess_env white_game (ui_init false).
(** White's first move, e2 to e4. *)
Definition first_press : mirror := user_does (ChessPress 180 260) white_start.
Definition first_move : mirror := user_does (ChessDrop 180 180) first_press.
Lemma board_mirrored_witness :
  follows 3 (chess (scr first_move)) /\ rtc (mirror_step 3) white_start first_move /\
  chess_self (chess (scr first_move)) = TT_COLOR_WHITE /\ ev_str <$> down first_move = [Some (ascii_bytes "e2e4")].
Proof.
  assert (follows 3 (chess (scr first_move))) as F by (split; vm_compute; reflexivity).
  assert (rtc (mirror_step 3) white_start first_move) as R.
  { exact (rtc_l _ _ _ _ (m_user 3 white_start chess_env (ChessPress 180 260) eq_refl)
      (rtc_l _ _ _ _ (m_user 3 first_press chess_env (ChessDrop 180 180) eq_refl) (rtc_refl _ first_move))). }
  pose proof (board_mirrored 3 chess_env white_game (ui_init false) first_move (conj (Z.lt_le_incl 0 3 eq_refl) eq_refl) eq_refl eq_refl R F) as H.
  split; [exact F|]. split; [exact R|]. split; [exact (proj1 H)|]. vm_compute. reflexivity.
Defined.
