(* ===== verification/Groups.v ===== *)
(** * Groups: group chats in the tox thread ([tox_thread.c])

    The callbacks toxcore's group chats call, the commands of the UI, the SYNC
    burst and the burst that restores groups at the start.  toxcore is a class:
    its state, what its queries answer and what its calls do to it.  A handler
    takes the state of the thread to the next. *)
From S2P Require Import Prelude CText Slots EventQueue Identity Linked Events.

Definition TT_MAX_GROUP_INVITES : nat := 8.
Definition TT_GROUP_INVITE_DATA_MAX : Z := 512.

(** ** toxcore *)

(** The calls that change something. *)
Inductive group_call :=
| GNew (privacy : Z) (name self : bytes)
| GJoin (cid : bytes) (pass : option bytes) (self : bytes)
| GLeave (gn : Z)
| GSend (gn mtype : Z) (msg : bytes)
| GPrivSend (gn pid : Z) (msg : bytes)
| GTopic (gn : Z) (topic : bytes)
| GInvite (gn fn : Z)
| GInviteAccept (fn : Z) (data self : bytes)
| GPassword (gn : Z) (pass : option bytes)
| GPrivacy (gn st : Z)
| GVoice (gn st : Z)
| GTopicLock (gn st : Z)
| GPeerLimit (gn n : Z)
| GRole (gn pid role : Z)
| GKick (gn pid : Z)
| GIgnore (gn pid : Z) (b : bool).

(** A query that fails is [None] where the code asks for the error, and some
    number where it does not.  [tox_call] gives the group number of a call
    that makes one, 0 of another, and [None] of one that fails. *)
Class ToxGroups := {
  Core : Type;
  q_self_name : Core -> bytes;
  q_list : Core -> list Z;
  q_connected : Core -> Z -> option bool;
  q_name : Core -> Z -> option bytes;
  q_topic : Core -> Z -> option bytes;
  q_chat_id : Core -> Z -> option bytes;
  q_self_role : Core -> Z -> Z;
  q_self_pid : Core -> Z -> option Z;
  q_voice : Core -> Z -> Z;
  q_topic_lock : Core -> Z -> Z;
  q_peer_limit : Core -> Z -> Z;
  q_privacy : Core -> Z -> Z;
  q_peer_name : Core -> Z -> Z -> option bytes;
  q_peer_role : Core -> Z -> Z -> Z;
  (** The size a failing size query gives. *)
  q_bad_size : Core -> Z;
  tox_call : Core -> group_call -> option Z * Core;
  tox_iterate : Core -> Core
}.

Record TTGroupInvite := mkInvite { i_fn : Z; i_data : bytes; i_name : bytes }.

Section groups.
Context {T : ToxGroups}.

(** [g_out] is the event queue to the UI, [g_calls] the calls made so far; a
    slot of [ginvites] is [None] when it is not [used]. *)
Record TTGroups := mkGroups { core : Core; ginvites : list (option TTGroupInvite); g_out : list event; g_calls : list group_call }.
#[export] Instance eta_groups : EtaRecord TTGroups := fun t => mkGroups (core t) (ginvites t) (g_out t) (g_calls t).
Definition groups_start (c : Core) : TTGroups := mkGroups c (replicate TT_MAX_GROUP_INVITES None) [] [].

Definition group_push (ty : TTEventType) (gn : Z) (s : option bytes) (iv iv2 : Z) (t : TTGroups) : TTGroups :=
  t <| g_out := g_out t ++ [simple_event ty gn s iv iv2] |>.
Definition call (c : group_call) (t : TTGroups) : option Z * TTGroups :=
  let '(r, k) := tox_call (core t) c in (r, t <| core := k |> <| g_calls := g_calls t ++ [c] |>).
Definition call_ (c : group_call) (t : TTGroups) : TTGroups := snd (call c t).

(** A size query and a text query into a zeroed buffer of [cap] characters. *)
Definition buffer (cap : Z) (bad : Z) (q : option bytes) : bytes :=
  match q with Some s => ztake cap s | None => replicate (Z.to_nat (Z.min cap bad)) 0 end.
Definition peer_name (t : TTGroups) (gn pid : Z) : bytes :=
  buffer TOX_MAX_NAME_LENGTH (q_bad_size (core t)) (q_peer_name (core t) gn pid).
Definition name_text (t : TTGroups) (gn : Z) : bytes :=
  buffer TOX_GROUP_MAX_GROUP_NAME_LENGTH (q_bad_size (core t)) (q_name (core t) gn).
Definition topic_text (t : TTGroups) (gn : Z) : bytes :=
  buffer TOX_GROUP_MAX_TOPIC_LENGTH (q_bad_size (core t)) (q_topic (core t) gn).
(** Our name, ["_"] without one. *)
Definition self_nick (t : TTGroups) : bytes :=
  match ztake TOX_MAX_NAME_LENGTH (q_self_name (core t)) with [] => [95] | s => s end.

(** ** Callbacks *)

Definition cb_group_message (gn pid mtype : Z) (message : bytes) : TTGroups -> TTGroups :=
  group_push TT_EV_GROUP_MSG gn (Some message) (i32 pid) mtype.
Definition cb_group_private_message (gn pid mtype : Z) (message : bytes) : TTGroups -> TTGroups :=
  group_push TT_EV_GROUP_PRIV_MSG gn (Some message) (i32 pid) mtype.
Definition cb_group_topic (gn pid : Z) (topic : bytes) : TTGroups -> TTGroups :=
  group_push TT_EV_GROUP_TOPIC gn (Some topic) 0 (i32 pid).
Definition cb_group_peer_join (gn pid : Z) (t : TTGroups) : TTGroups :=
  let nm := peer_name t gn pid in
  let t := group_push TT_EV_GROUP_PEER_JOIN gn None (i32 pid) 0 t in
  let t := if len nm =? 0 then t else group_push TT_EV_GROUP_PEER_NAME gn (Some nm) (i32 pid) 0 t in
  group_push TT_EV_GROUP_PEER_ROLE gn None (i32 pid) (q_peer_role (core t) gn pid) t.
Definition cb_group_peer_exit (gn pid exit_type : Z) (name : bytes) : TTGroups -> TTGroups :=
  group_push TT_EV_GROUP_PEER_EXIT gn (Some name) (i32 pid) exit_type.
Definition cb_group_peer_name (gn pid : Z) (name : bytes) : TTGroups -> TTGroups :=
  group_push TT_EV_GROUP_PEER_NAME gn (Some name) (i32 pid) 0.
Definition cb_group_peer_status (gn pid status : Z) : TTGroups -> TTGroups :=
  group_push TT_EV_GROUP_PEER_STATUS gn None (i32 pid) status.
(** Kicked ourselves, the group is left. *)
Definition cb_group_moderation (gn source target mod_type : Z) (t : TTGroups) : TTGroups :=
  let self := bool_decide (q_self_pid (core t) gn = Some target) in
  let t := if (mod_type =? TOX_GROUP_MOD_EVENT_KICK) && self then call_ (GLeave gn) t else t in
  group_push TT_EV_GROUP_MOD gn None (i32 target) mod_type t.
Definition cb_group_privacy_state (gn st : Z) : TTGroups -> TTGroups := group_push TT_EV_GROUP_STATE gn None st (-1).
Definition cb_group_voice_state (gn st : Z) : TTGroups -> TTGroups := group_push TT_EV_GROUP_STATE gn None (-1) st.
Definition cb_group_topic_lock (gn st : Z) : TTGroups -> TTGroups := group_push TT_EV_GROUP_STATE gn None (-2) st.
Definition cb_group_peer_limit (gn n : Z) : TTGroups -> TTGroups := group_push TT_EV_GROUP_STATE gn (Some (dec n)) (-3) (i32 n).
Definition cb_group_password (gn : Z) : TTGroups -> TTGroups := group_push TT_EV_GROUP_STATE gn None (-4) 0.
Definition cb_group_join_fail (gn fail_type : Z) (t : TTGroups) : TTGroups :=
  call_ (GLeave gn) (group_push TT_EV_GROUP_JOIN_FAIL gn None fail_type 0 t).
Definition cb_group_self_join (gn : Z) (t : TTGroups) : TTGroups :=
  group_push TT_EV_GROUP_JOINED gn (Some (name_text t gn)) 0 0 t.

(** The first free slot, or else slot 0. *)
Definition cb_group_invite (fn : Z) (invite_data group_name : bytes) (t : TTGroups) : TTGroups :=
  if (len invite_data =? 0) || (TT_GROUP_INVITE_DATA_MAX <? len invite_data) then t else
  let idx := default 0%nat (free_slot 0 (ginvites t)) in
  let name := ztake TOX_GROUP_MAX_GROUP_NAME_LENGTH group_name in
  let t := t <| ginvites := <[idx := Some (mkInvite fn invite_data (cstr name))]> (ginvites t) |> in
  group_push TT_EV_GROUP_INVITE fn (Some name) 0 (Z.of_nat idx) t.

(** ** Commands *)

Definition handle_cmd_group_create (s : option bytes) (t : TTGroups) : TTGroups :=
  match s with
  | None => t
  | Some s =>
      match strchr 10 s with
      | None => t
      | Some (gname, priv) =>
          if (len gname =? 0) || (TOX_GROUP_MAX_GROUP_NAME_LENGTH <? len gname) then t else
          let public := bool_decide (priv = ascii_bytes "public") in
          let '(r, t) := call (GNew (if public then TOX_GROUP_PRIVACY_STATE_PUBLIC else TOX_GROUP_PRIVACY_STATE_PRIVATE)
                                    gname (self_nick t)) t in
          match r with
          | Some gn => group_push TT_EV_GROUP_NEW gn (Some gname) 0 (if public then 0 else 1) t
          | None => t
          end
      end
  end.

(** [lone_0x]: see [Identity.hex_input]. *)
Definition handle_cmd_group_join (lone_0x : bool) (s : bytes) (pw : option bytes) (t : TTGroups) : TTGroups :=
  if negb (len s =? TOX_GROUP_CHAT_ID_SIZE * 2) then t else
  match scan_key lone_0x (Z.to_nat TOX_GROUP_CHAT_ID_SIZE) s with
  | Ok cid => call_ (GJoin cid (match pw with Some [] => None | _ => pw end) (self_nick t)) t
  | _ => t
  end.
(** The case of [handle_cmd]. *)
Definition cmd_group_join (lone_0x : bool) (s : option bytes) (t : TTGroups) : TTGroups :=
  match s with
  | None => t
  | Some s =>
      let '(cid, pw) := match strchr 10 s with Some (a, b) => (a, Some b) | None => (s, None) end in
      if negb (len cid =? TOX_GROUP_CHAT_ID_SIZE * 2) then t else handle_cmd_group_join lone_0x cid pw t
  end.

Definition handle_cmd_group_send (gn : Z) (msg : option bytes) (mtype : Z) (t : TTGroups) : TTGroups :=
  match msg with Some (c :: m) => call_ (GSend gn mtype (ztake TOX_GROUP_MAX_MESSAGE_LENGTH (c :: m))) t | _ => t end.
Definition handle_cmd_group_priv_send (gn pid : Z) (msg : option bytes) (t : TTGroups) : TTGroups :=
  match msg with Some (c :: m) => call_ (GPrivSend gn pid (ztake TOX_GROUP_MAX_MESSAGE_LENGTH (c :: m))) t | _ => t end.
(** What was set is echoed. *)
Definition handle_cmd_group_topic (gn : Z) (topic : option bytes) (t : TTGroups) : TTGroups :=
  match topic with
  | None => t
  | Some s =>
      let '(r, t) := call (GTopic gn (ztake TOX_GROUP_MAX_TOPIC_LENGTH s)) t in
      match r with Some _ => group_push TT_EV_GROUP_TOPIC gn (Some (topic_text t gn)) 0 (-1) t | None => t end
  end.

Definition invite_at (t : TTGroups) (idx : Z) : option TTGroupInvite :=
  if (idx <? 0) || (Z.of_nat TT_MAX_GROUP_INVITES <=? idx) then None else mjoin (ginvites t !! Z.to_nat idx).
Definition handle_cmd_group_invite_accept (idx : Z) (t : TTGroups) : TTGroups :=
  match invite_at t idx with
  | None => t
  | Some gi =>
      let '(r, t) := call (GInviteAccept (i_fn gi) (i_data gi) (self_nick t)) t in
      let t := match r with Some gn => group_push TT_EV_GROUP_JOINED gn (Some (i_name gi)) 0 0 t | None => t end in
      t <| ginvites := <[Z.to_nat idx := None]> (ginvites t) |>
  end.
Definition handle_cmd_group_invite_decline (idx : Z) (t : TTGroups) : TTGroups :=
  match invite_at t idx with
  | None => t
  | Some _ => t <| ginvites := <[Z.to_nat idx := None]> (ginvites t) |>
  end.

Definition cmd_group_leave (gn : Z) (t : TTGroups) : TTGroups :=
  let '(r, t) := call (GLeave gn) t in
  match r with Some _ => group_push TT_EV_GROUP_LEFT gn None 0 0 t | None => t end.

(** The event of a role that was set. *)
Definition selfev (role : Z) : Z :=
  if role =? TOX_GROUP_ROLE_FOUNDER then TOX_GROUP_MOD_EVENT_KICK + TT_MOD_EV_FAIL_BASE
  else if role =? TOX_GROUP_ROLE_MODERATOR then TOX_GROUP_MOD_EVENT_MODERATOR
  else if role =? TOX_GROUP_ROLE_USER then TOX_GROUP_MOD_EVENT_USER else TOX_GROUP_MOD_EVENT_OBSERVER.
Definition cmd_group_role (gn iv role : Z) (t : TTGroups) : TTGroups :=
  if (role <? TOX_GROUP_ROLE_FOUNDER) || (TOX_GROUP_ROLE_OBSERVER <? role) then t else
  let '(r, t) := call (GRole gn (u32 iv) role) t in
  match r with
  | Some _ => group_push TT_EV_GROUP_MOD_SELF gn (Some (peer_name t gn (u32 iv))) iv (selfev role) t
  | None => group_push TT_EV_GROUP_MOD_SELF gn None iv (TT_MOD_EV_FAIL_BASE + selfev role) t
  end.
Definition cmd_group_kick (gn iv : Z) (t : TTGroups) : TTGroups :=
  let nm := peer_name t gn (u32 iv) in
  let '(r, t) := call (GKick gn (u32 iv)) t in
  match r with
  | Some _ => group_push TT_EV_GROUP_MOD_SELF gn (Some nm) iv TOX_GROUP_MOD_EVENT_KICK t
  | None => group_push TT_EV_GROUP_MOD_SELF gn None iv (TT_MOD_EV_FAIL_BASE + TOX_GROUP_MOD_EVENT_KICK) t
  end.
Definition cmd_group_ignore (gn iv iv2 : Z) (t : TTGroups) : TTGroups :=
  let '(r, t) := call (GIgnore gn (u32 iv) (negb (iv2 =? 0))) t in
  match r with
  | Some _ => group_push TT_EV_GROUP_IGNORE_SELF gn (Some (peer_name t gn (u32 iv))) iv (if iv2 =? 0 then 0 else 1) t
  | None => group_push TT_EV_GROUP_IGNORE_SELF gn None iv (TT_MOD_EV_FAIL_BASE + 1) t
  end.

(** ** The SYNC burst *)

(** The peers from [pid] on, up to the first one without a name; [None] when
    [fuel] does not reach it. *)
Fixpoint sync_peers (fuel : nat) (gn pid : Z) (t : TTGroups) : option TTGroups :=
  match fuel with
  | O => None
  | S fuel =>
      match q_peer_name (core t) gn pid with
      | None | Some [] => Some t
      | Some _ =>
          let t := group_push TT_EV_GROUP_PEER_NAME gn (Some (peer_name t gn pid)) (i32 pid) 0 t in
          let t := group_push TT_EV_GROUP_PEER_ROLE gn None (i32 pid) (q_peer_role (core t) gn pid) t in
          sync_peers fuel gn (u32 (pid + 1)) t
      end
  end.
(** What follows the peers. *)
Definition sync_state (gn : Z) (t : TTGroups) : TTGroups :=
  let c := core t in
  let t := match q_chat_id c gn with Some cid => group_push TT_EV_GROUP_STATE gn (Some (hex cid)) (-5) 0 t | None => t end in
  let t := group_push TT_EV_GROUP_STATE gn None (-6) (q_self_role c gn) t in
  let t := match q_self_pid c gn with Some p => group_push TT_EV_GROUP_STATE gn None (-11) (i32 p) t | None => t end in
  let t := group_push TT_EV_GROUP_STATE gn None (-7) (q_voice c gn) t in
  let t := group_push TT_EV_GROUP_STATE gn None (-8) (q_topic_lock c gn) t in
  let t := group_push TT_EV_GROUP_STATE gn (Some (snprintf_s 8 (dec (q_peer_limit c gn)))) (-9) 0 t in
  let t := group_push TT_EV_GROUP_STATE gn None (-10) (q_privacy c gn) t in
  group_push TT_EV_GROUP_TOPIC gn (Some (topic_text t gn)) 0 (-1) t.
Definition cmd_group_sync (fuel : nat) (gn : Z) (t : TTGroups) : option TTGroups := sync_state gn <$> sync_peers fuel gn 0 t.

(** The group cases of [handle_cmd]. *)
Definition handle_cmd (fuel : nat) (lone_0x : bool) (ev : command) (t : TTGroups) : option TTGroups :=
  let gn := friend_number ev in
  let str := ev_str ev in
  match ev_type ev with
  | TT_CMD_GROUP_CREATE => Some (handle_cmd_group_create str t)
  | TT_CMD_GROUP_JOIN => Some (cmd_group_join lone_0x str t)
  | TT_CMD_GROUP_LEAVE => Some (cmd_group_leave gn t)
  | TT_CMD_GROUP_SEND => Some (handle_cmd_group_send gn str (ival2 ev) t)
  | TT_CMD_GROUP_PRIV_SEND => Some (handle_cmd_group_priv_send gn (u32 (ival ev)) str t)
  | TT_CMD_GROUP_TOPIC => Some (handle_cmd_group_topic gn str t)
  | TT_CMD_GROUP_INVITE => Some (call_ (GInvite gn (u32 (ival ev))) t)
  | TT_CMD_GROUP_INVITE_ACC => Some (handle_cmd_group_invite_accept (ival2 ev) t)
  | TT_CMD_GROUP_INVITE_DEC => Some (handle_cmd_group_invite_decline (ival2 ev) t)
  | TT_CMD_GROUP_PASSWORD =>
      Some (call_ (GPassword gn (match str with
                                 | Some (c :: p) => Some (ztake TOX_GROUP_MAX_PASSWORD_SIZE (c :: p))
                                 | _ => None
                                 end)) t)
  | TT_CMD_GROUP_PRIVACY =>
      Some (call_ (GPrivacy gn (if ival2 ev =? 0 then TOX_GROUP_PRIVACY_STATE_PUBLIC else TOX_GROUP_PRIVACY_STATE_PRIVATE)) t)
  | TT_CMD_GROUP_VOICE =>
      Some (if (ival2 ev <? TOX_GROUP_VOICE_STATE_ALL) || (TOX_GROUP_VOICE_STATE_FOUNDER <? ival2 ev) then t
            else call_ (GVoice gn (ival2 ev)) t)
  | TT_CMD_GROUP_TOPIC_LOCK =>
      Some (call_ (GTopicLock gn (if ival2 ev =? 0 then TOX_GROUP_TOPIC_LOCK_DISABLED else TOX_GROUP_TOPIC_LOCK_ENABLED)) t)
  | TT_CMD_GROUP_PEER_LIMIT => Some (call_ (GPeerLimit gn (if 0 <? ival2 ev then u16 (ival2 ev) else 0)) t)
  | TT_CMD_GROUP_ROLE => Some (cmd_group_role gn (ival ev) (ival2 ev) t)
  | TT_CMD_GROUP_KICK => Some (cmd_group_kick gn (ival ev) t)
  | TT_CMD_GROUP_IGNORE => Some (cmd_group_ignore gn (ival ev) (ival2 ev) t)
  | TT_CMD_GROUP_SYNC => cmd_group_sync fuel gn t
  | _ => Some t
  end.

(** ** Restoring *)

Definition sweep_dead (t : TTGroups) : TTGroups :=
  match q_list (core t) with
  | [] => t
  | l =>
      let t := fold_left (fun t gn => match q_connected (core t) gn with Some false => call_ (GLeave gn) t | _ => t end) l t in
      t <| core := tox_iterate (core t) |>
  end.
Definition restore_group (gn : Z) (t : TTGroups) : TTGroups :=
  match q_name (core t) gn with
  | None => t
  | Some _ =>
      let t := group_push TT_EV_GROUP_JOINED gn (Some (name_text t gn)) 0 (q_privacy (core t) gn) t in
      let tp := topic_text t gn in
      if 0 <? len tp then group_push TT_EV_GROUP_TOPIC gn (Some tp) 0 (-1) t else t
  end.
Definition emit_initial_group_list (t : TTGroups) : TTGroups :=
  let t := sweep_dead t in
  fold_left (fun t gn => restore_group gn t) (q_list (core t)) t.
End groups.
