(* ===== verification/GroupSync.v ===== *)
(** * GroupSync: the UI's picture of a group

    The two ends of a group put together: what a SYNC command makes the tox
    thread send, and what the UI makes of it. *)
From S2P Require Import Prelude CText Sidecar History Transcript EventQueue Identity Linked Events UiState UiContacts UiCommands UiGroups UiLoop Groups.

(** ** The group an event finds *)

Section ui_side.
Implicit Types (ui : Ui) (g : Group).

Lemma group_upd n f ui : (forall g, gn (f g) = gn g) -> group_by_gn (upd_group n f ui) n = f <$> group_by_gn ui n.
Proof. intros Hf. unfold group_by_gn, upd_group. cbn. apply find_upd_eq. intros g. unfold by_gn. by rewrite Hf. Qed.
Lemma groups_same ui ui' n : groups ui' = groups ui -> group_by_gn ui' n = group_by_gn ui n.
Proof. unfold group_by_gn. by intros ->. Qed.
Lemma roster_groups ui : groups (roster_render ui) = groups ui.
Proof. unfold roster_render. destruct (have_keep ui); [done|]. by destruct (sel_kind ui). Qed.
Lemma group_roster ui n : group_by_gn (roster_render ui) n = group_by_gn ui n.
Proof. apply groups_same, roster_groups. Qed.
Lemma group_when b f ui n : group_by_gn (when_ui b f ui) n = group_by_gn (if b then f ui else ui) n.
Proof. by destruct b. Qed.
Lemma group_sys_upd st n text ui : group_by_gn (group_sys st n text ui) n = (fun g => g <| g_chat := append_sys st 0 text (g_chat g) |>) <$> group_by_gn ui n.
Proof.
  unfold group_sys. cbv zeta. rewrite <- group_upd by done. destruct (group_selected _ n); [|done]. by apply groups_same.
Qed.
Lemma with_group_some n f ui g : group_by_gn ui n = Some g -> with_group n f ui = f g ui.
Proof. intros H. unfold with_group. by rewrite H. Qed.

(** ** Members *)

Lemma by_pid_eq p m : by_pid p m = true <-> pid m = p.
Proof. unfold by_pid. lia. Qed.
Lemma member_upd p q f g : (forall m, pid (f m) = pid m) ->
  group_member (upd_member p f g) q = if q =? p then f <$> group_member g p else group_member g q.
Proof.
  intros Hf. unfold group_member, upd_member. cbn. destruct (q =? p) eqn:E; bool_to_prop.
  - subst. apply find_upd_eq. intros m. unfold by_pid. by rewrite Hf.
  - apply find_upd_ne. intros m. unfold by_pid. rewrite Hf. lia.
Qed.
Lemma member_upsert p q f g : (forall m, pid (f m) = pid m) ->
  group_member (group_member_upsert p f g) q =
  if q =? p then Some (f (default (new_member p) (group_member g p))) else group_member g q.
Proof.
  intros Hf. unfold group_member, group_member_upsert. cbn. destruct (q =? p) eqn:E; bool_to_prop.
  - subst. rewrite find_upd_eq by (intros m; unfold by_pid; by rewrite Hf). rewrite find_ensure; [done|]. unfold by_pid. cbn. lia.
  - rewrite find_upd_ne by (intros m; unfold by_pid; rewrite Hf; lia). apply find_ensure_ne. unfold by_pid. cbn. lia.
Qed.
End ui_side.

(** What the members dialog shows of a member. *)
Definition shown_member (g : Group) (p : Z) : option (bytes * Z * bool) :=
  (fun m => (m_name m, role m, ignored m)) <$> group_member g p.
(** Everything about a group but its transcript and its members. *)
Definition settings (g : Group) : bytes * bytes * bytes * Z * Z * (Z * Z * Z * Z) :=
  (g_name g, topic g, hist_key (g_chat g), self_role g, self_pid g, (privacy g, voice g, topic_lock g, peer_limit g)).

Lemma announce_join_view st n p ui g : group_by_gn ui n = Some g -> exists g', group_by_gn (announce_join st n p ui) n = Some g' /\
  settings g' = settings g /\ forall q, shown_member g' q = shown_member g q.
Proof.
  intros H. unfold announce_join. rewrite (with_group_some _ _ _ _ H). destruct (group_member g p) as [m|] eqn:E; [|by exists g].
  destruct (announce m); [|by exists g]. cbv zeta. unfold group_line. rewrite group_sys_upd, group_upd, H by done. cbn [fmap option_fmap option_map].
  eexists. split; [done|]. split; [done|]. intros q. unfold shown_member.
  change (group_member (set_field _ ?x) q) with (group_member x q). rewrite member_upd by done. destruct (q =? p) eqn:Q; [|done].
  bool_to_prop. subst. by rewrite E.
Qed.

(** ** The events of the burst *)

Lemma u32_i32 p : 0 <= p < 2 ^ 32 -> u32 (i32 p) = p.
Proof. intros H. unfold u32, i32. rewrite Zminus_mod_idemp_l. replace (p + 2 ^ 31 - 2 ^ 31) with p by lia. by apply Z.mod_small. Qed.

Section events.
Context (v : env).
Implicit Types (ui : Ui) (g : Group).

(** The two events of peer [p]. *)
Definition peer_events (n p : Z) (nm : bytes) (r : Z) : list event :=
  [simple_event TT_EV_GROUP_PEER_NAME n (Some nm) (i32 p) 0; simple_event TT_EV_GROUP_PEER_ROLE n None (i32 p) r].
Definition run_events (es : list event) ui : Ui := fold_left (fun ui e => handle_event v e ui) es ui.

Lemma upsert_view n p f ui g : (forall m, pid (f m) = pid m) -> group_by_gn ui n = Some g ->
  exists g', group_by_gn (announce_join (stamp v) n p (upd_group n (group_member_upsert p f) ui)) n = Some g' /\
  settings g' = settings g /\ forall q, shown_member g' q =
    if q =? p then (fun m => Some (m_name m, role m, ignored m)) (f (default (new_member p) (group_member g p))) else shown_member g q.
Proof.
  intros Hf H. destruct (announce_join_view (stamp v) n p (upd_group n (group_member_upsert p f) ui) (group_member_upsert p f g)) as (g' & H1 & H2 & H3).
  { rewrite group_upd by done. by rewrite H. }
  exists g'. split; [done|]. split; [by rewrite H2|]. intros q. rewrite H3. unfold shown_member. rewrite member_upsert by done. by destruct (q =? p).
Qed.
Lemma peer_events_view n p nm r ui g : 0 <= p < 2 ^ 32 -> nm <> [] -> group_by_gn ui n = Some g ->
  exists g', group_by_gn (run_events (peer_events n p nm r) ui) n = Some g' /\ settings g' = settings g /\
  forall q, shown_member g' q = if q =? p then Some (copy_text TT_NAME_MAX nm, r, default false (ignored <$> group_member g p)) else shown_member g q.
Proof.
  intros Hp Hn H. unfold run_events, peer_events. cbn [fold_left].
  destruct nm as [|c nm]; [done|]. cbn [simple_event]. unfold handle_event at 2. cbn [ev_type ev_str friend_number ival ival2].
  unfold on_peer_name. rewrite (with_group_some _ _ _ _ H), u32_i32 by done. cbv zeta.
  destruct (upsert_view n p (fun m => m <| m_name := copy_text TT_NAME_MAX (c :: nm) |>) ui g) as (g1 & H1 & S1 & M1); [done|done|].
  unfold handle_event. cbn [ev_type ev_str friend_number ival ival2]. unfold on_peer_role.
  rewrite (with_group_some _ _ _ _ H1), u32_i32 by done. cbv zeta.
  edestruct (upsert_view n p (fun m => m <| role := r |>)) as (g2 & H2 & S2 & M2); [|exact H1|]; [done|].
  exists g2. split; [done|]. split; [by rewrite S2|]. intros q. rewrite M2, M1. destruct (q =? p) eqn:Q; [|done].
  pose proof (M1 p) as M. rewrite Z.eqb_refl in M. unfold shown_member in M. destruct (group_member g1 p) as [m|]; [|done]. cbn in M |- *.
  apply (inj Some), pair_eq in M as [[-> _]%pair_eq ->]. by destruct (group_member g p).
Qed.

(** The settings. *)
Definition state_event (n : Z) (s : option bytes) (i j : Z) : event := simple_event TT_EV_GROUP_STATE n s i j.
Lemma state_view n s i j ui g : existsb (Z.eqb i) [-6; -7; -8; -9; -10; -11] = true -> group_by_gn ui n = Some g ->
  group_by_gn (handle_event v (state_event n s i j) ui) n = Some
    (if i =? -6 then g <| self_role := j |> else if i =? -7 then g <| voice := clamp_voice j |>
     else if i =? -8 then g <| topic_lock := if j =? 0 then 0 else 1 |>
     else if i =? -9 then g <| peer_limit := limit_of (nonempty s) |>
     else if i =? -10 then g <| privacy := if j =? 0 then 0 else 1 |> else g <| self_pid := u32 j |>).
Proof.
  intros Hi H. apply existsb_exists in Hi as (i' & Hi & E). apply Z.eqb_eq in E. subst i'. apply list_elem_of_In in Hi. unfold state_event, simple_event.
  assert (forall e, ev_type e = TT_EV_GROUP_STATE -> friend_number e = n -> ival e = i -> ival2 e = j -> ev_str e = nonempty s ->
    group_by_gn (handle_event v e ui) n = Some
    (if i =? -6 then g <| self_role := j |> else if i =? -7 then g <| voice := clamp_voice j |>
     else if i =? -8 then g <| topic_lock := if j =? 0 then 0 else 1 |>
     else if i =? -9 then g <| peer_limit := limit_of (nonempty s) |>
     else if i =? -10 then g <| privacy := if j =? 0 then 0 else 1 |> else g <| self_pid := u32 j |>)) as C.
  { intros e E1 E2 E3 E4 E5. unfold handle_event. rewrite E1, E2, E3, E4, E5. unfold on_group_state. rewrite (with_group_some _ _ _ _ H). cbv zeta.
    repeat (apply elem_of_cons in Hi as [->|Hi]; [cbn [Z.eqb Pos.eqb]; by rewrite group_upd, H|]). by apply elem_of_nil in Hi. }
  destruct s as [[|c s]|]; by apply C.
Qed.
Lemma chat_id_view n h ui g : len h = 64 -> ~ In 0 h -> (forall c, hist_key (load v c) = hist_key c) -> group_by_gn ui n = Some g ->
  exists g', group_by_gn (handle_event v (state_event n (Some h) (-5) 0) ui) n = Some g' /\
    settings g' = settings (g <| g_chat := (g_chat g) <| hist_key := h |> |>) /\ members g' = members g.
Proof.
  intros Hl H0 Hld H. unfold state_event.
  replace (simple_event TT_EV_GROUP_STATE n (Some h) (-5) 0) with (mkEvent TT_EV_GROUP_STATE n (Some h) (len h) (-5) 0) by (by destruct h).
  unfold handle_event. cbn [ev_type ev_str friend_number ival ival2]. unfold on_group_state. rewrite (with_group_some _ _ _ _ H). cbv zeta.
  change (len h =? TOX_GROUP_CHAT_ID_SIZE * 2) with (len h =? 64). rewrite Hl. cbn [Z.eqb Pos.eqb when_ui].
  rewrite group_when. rewrite cstr_no_nul by done. case_match.
  - rewrite !group_upd, H by done. eexists. split; [done|]. split; [|done]. unfold settings. cbn. by rewrite Hld.
  - rewrite group_upd, H by done. by eexists.
Qed.
Lemma topic_view n tp ui g : group_by_gn ui n = Some g ->
  group_by_gn (handle_event v (simple_event TT_EV_GROUP_TOPIC n (Some tp) 0 (-1)) ui) n =
  Some (match tp with [] => g | _ => g <| topic := copy_text (TOX_GROUP_MAX_TOPIC_LENGTH + 1) tp |> end).
Proof.
  intros H. destruct tp as [|c tp]; cbn [simple_event]; unfold handle_event; cbn [ev_type ev_str friend_number ival ival2]; unfold on_group_topic;
    rewrite (with_group_some _ _ _ _ H); cbv zeta; cbn [Z.eqb Pos.eqb]; rewrite group_roster; [done|]. by rewrite group_upd, H.
Qed.
End events.

(** ** What the tox thread sends *)

Section sync.
Context {T : ToxGroups}.
Implicit Types (t : TTGroups) (ui : Ui) (g : Group).

Definition push_all (es : list event) t : TTGroups := t <| g_out := g_out t ++ es |>.
Definition named_peer t (n p : Z) : list event := peer_events n p (peer_name t n p) (q_peer_role (core t) n p).
Definition peer_list t (n : Z) (pids : list Z) : list event := concat (named_peer t n <$> pids).

Lemma push_push es es' t : push_all es' (push_all es t) = push_all (es ++ es') t.
Proof. unfold push_all. cbn. by rewrite <- app_assoc. Qed.
Lemma push_nil t : push_all [] t = t.
Proof. destruct t. unfold push_all. cbn. by rewrite app_nil_r. Qed.
Lemma group_push_all ty n s i j t : group_push ty n s i j t = push_all [simple_event ty n s i j] t.
Proof. done. Qed.

(** The loop ends at the first number without a name. *)
Lemma sync_peers_out n : forall k fuel p t, (k < fuel)%nat -> 0 <= p -> p + Z.of_nat k < 2 ^ 32 ->
  (forall i, p <= i < p + Z.of_nat k -> exists c s, q_peer_name (core t) n i = Some (c :: s)) ->
  default [] (q_peer_name (core t) n (p + Z.of_nat k)) = [] ->
  sync_peers fuel n p t = Some (push_all (peer_list t n (seqZ p (Z.of_nat k))) t).
Proof.
  induction k as [|k IH]; intros fuel p t Hf Hp Hb Hn Hg; destruct fuel as [|fuel]; try lia; cbn [sync_peers].
  - rewrite Z.add_0_r in Hg. change (seqZ p (Z.of_nat 0)) with (@nil Z). change (peer_list t n []) with (@nil event). rewrite push_nil.
    destruct (q_peer_name (core t) n p) as [[|c s]|]; done.
  - destruct (Hn p) as (c & s & E); [lia|]. rewrite E. rewrite !group_push_all, push_push.
    replace (u32 (p + 1)) with (p + 1) by (unfold u32; rewrite Z.mod_small by lia; done).
    rewrite IH; try lia.
    + rewrite push_push. f_equal. rewrite (seqZ_cons p) by lia. replace (Z.pred (Z.of_nat (S k))) with (Z.of_nat k) by lia.
      unfold peer_list. cbn [fmap list_fmap concat]. done.
    + intros i Hi. apply Hn. lia.
    + cbn [core push_all set_field]. change (core (push_all _ t)) with (core t). by replace (p + 1 + Z.of_nat k) with (p + Z.of_nat (S k)) by lia.
Qed.

(** What toxcore documents of a group we are in: [k] peers with names from 0 on,
    an identity of 32 bytes, our number, a topic. *)
Record in_group (c : Core) (n : Z) (k : nat) (nm : Z -> bytes) (cid : bytes) (sp : Z) (tp : bytes) : Prop := {
  ig_peers : forall p, 0 <= p < Z.of_nat k -> q_peer_name c n p = Some (nm p) /\ 0 < len (nm p) <= TOX_MAX_NAME_LENGTH;
  ig_gap : default [] (q_peer_name c n (Z.of_nat k)) = []; ig_number : Z.of_nat k < 2 ^ 32;
  ig_id : q_chat_id c n = Some cid; ig_id_len : len cid = TOX_GROUP_CHAT_ID_SIZE; ig_id_bytes : all_bytes cid;
  ig_self : q_self_pid c n = Some sp; ig_self_range : 0 <= sp < 2 ^ 32;
  ig_topic : q_topic c n = Some tp; ig_topic_len : len tp <= TOX_GROUP_MAX_TOPIC_LENGTH;
  ig_voice : 0 <= q_voice c n <= 2; ig_limit : 0 <= q_peer_limit c n < 2 ^ 16 }.

Lemma limit_text l : 0 <= l < 2 ^ 16 -> limit_of (nonempty (Some (snprintf_s 8 (dec l)))) = l.
Proof.
  intros H. assert (len (dec l) <= 7) as Hl.
  { unfold dec. transitivity 5; [|done]. pose proof (dec_go_length 20 l 5%nat). unfold len. lia. }
  unfold snprintf_s. rewrite cstr_no_nul by (by apply dec_no_char). rewrite ztake_all by lia.
  destruct (dec_nonempty l) as (c & s & E & _). unfold limit_of. rewrite E. cbn [nonempty]. rewrite <- E.
  rewrite cstr_no_nul by (by apply dec_no_char). rewrite atoi_dec by lia. destruct (0 <? l) eqn:L; [done|lia].
Qed.

Lemma in_rangeP p q k : reflect (p <= q < p + k) ((p <=? q) && (q <? p + k)).
Proof. destruct (p <=? q) eqn:A, (q <? p + k) eqn:B; cbn; constructor; bool_to_prop; lia. Qed.
(** The peers of the burst, from [p] on. *)
Lemma peers_view v t n nm : forall k p ui g, 0 <= p -> p + Z.of_nat k < 2 ^ 32 -> group_by_gn ui n = Some g ->
  (forall i, p <= i < p + Z.of_nat k -> q_peer_name (core t) n i = Some (nm i) /\ 0 < len (nm i) <= TOX_MAX_NAME_LENGTH) ->
  exists g', group_by_gn (run_events v (peer_list t n (seqZ p (Z.of_nat k))) ui) n = Some g' /\ settings g' = settings g /\
  forall q, shown_member g' q = if (p <=? q) && (q <? p + Z.of_nat k)
    then Some (copy_text TT_NAME_MAX (nm q), q_peer_role (core t) n q, default false (snd <$> shown_member g q)) else shown_member g q.
Proof.
  induction k as [|k IH]; intros p ui g Hp Hb Hg Hn.
  - exists g. split; [done|]. split; [done|]. intros q. by destruct (in_rangeP p q (Z.of_nat 0)) as [?|?]; [lia|].
  - rewrite (seqZ_cons p) by lia. replace (Z.pred (Z.of_nat (S k))) with (Z.of_nat k) by lia.
    destruct (Hn p) as [E Hl]; [lia|].
    assert (peer_name t n p = nm p) as En by (unfold peer_name, buffer; rewrite E; apply ztake_all; lia).
    unfold peer_list. cbn [fmap list_fmap concat]. unfold run_events. rewrite fold_left_app. unfold named_peer at 2. rewrite En.
    destruct (peer_events_view v n p (nm p) (q_peer_role (core t) n p) ui g) as (g1 & H1 & S1 & M1); [lia|intros N; rewrite N in Hl; change (len []) with 0 in Hl; lia|done|].
    destruct (IH (Z.succ p) _ g1 ltac:(lia) ltac:(lia) H1) as (g2 & H2 & S2 & M2); [intros i Hi; apply Hn; lia|].
    exists g2. split; [exact H2|]. split; [by rewrite S2|]. intros q. rewrite M2, M1. destruct (q =? p) eqn:Q.
    + bool_to_prop. subst q. destruct (in_rangeP (Z.succ p) p (Z.of_nat k)); [lia|]. destruct (in_rangeP p p (Z.of_nat (S k))); [|lia].
      unfold shown_member. by destruct (group_member g p).
    + bool_to_prop. destruct (in_rangeP (Z.succ p) q (Z.of_nat k)), (in_rangeP p q (Z.of_nat (S k))); try lia; done.
Qed.

(** C36: A SYNC makes the UI's picture of a group what toxcore knows of it: the
    peers below the first number without a name are listed with their names
    and roles, the identity, our own role and number, the voice state, the peer
    limit and the privacy are toxcore's; who is ignored stays.  But the topic
    lock comes out inverted, a topic that was cleared is kept, and a member from
    the first gap on is neither added nor removed.  The loop ends at that gap. *)
Theorem sync_mirrors v fuel lone t n k nm cid sp tp ui g :
  in_group (core t) n k nm cid sp tp -> (k < fuel)%nat -> group_by_gn ui n = Some g -> quitting ui = false ->
  (forall c, hist_key (load v c) = hist_key c) ->
  exists t' es g', handle_cmd fuel lone (tt_queue_post TT_CMD_GROUP_SYNC n None 0) t = Some t' /\ g_out t' = g_out t ++ es /\
    group_by_gn (poll_events v es ui) n = Some g' /\
    (forall p, 0 <= p < Z.of_nat k -> shown_member g' p =
       Some (copy_text TT_NAME_MAX (nm p), q_peer_role (core t) n p, default false (snd <$> shown_member g p))) /\
    (forall p, Z.of_nat k <= p -> shown_member g' p = shown_member g p) /\
    settings g' = (g_name g, match tp with [] => topic g | _ => copy_text (TOX_GROUP_MAX_TOPIC_LENGTH + 1) tp end, hex cid,
                   q_self_role (core t) n, sp,
                   (if q_privacy (core t) n =? 0 then 0 else 1, q_voice (core t) n,
                    if q_topic_lock (core t) n =? TOX_GROUP_TOPIC_LOCK_ENABLED then 0 else 1, q_peer_limit (core t) n)).
Proof.
  intros [Hpeers Hgap Hk Hid Hidl Hidb Hself Hsr Htopic Htl Hvoice Hlimit] Hf Hg Hq Hld. set (c := core t) in *.
  set (tail := [state_event n (Some (hex cid)) (-5) 0; state_event n None (-6) (q_self_role c n); state_event n None (-11) (i32 sp);
    state_event n None (-7) (q_voice c n); state_event n None (-8) (q_topic_lock c n);
    state_event n (Some (snprintf_s 8 (dec (q_peer_limit c n)))) (-9) 0; state_event n None (-10) (q_privacy c n);
    simple_event TT_EV_GROUP_TOPIC n (Some tp) 0 (-1)]).
  exists (push_all (peer_list t n (seqZ 0 (Z.of_nat k)) ++ tail) t), (peer_list t n (seqZ 0 (Z.of_nat k)) ++ tail).
  destruct (peers_view v t n nm k 0 ui g) as (g0 & H0 & S0 & M0); [lia|lia|done|apply Hpeers|]. set (u0 := run_events _ _ _) in *.
  destruct (chat_id_view v n (hex cid) u0 g0) as (g1 & H1 & S1 & M1); [|by apply hex_nonzero|done|done|].
  { unfold len in *. rewrite hex_length. change TOX_GROUP_CHAT_ID_SIZE with 32 in Hidl. lia. }
  pose proof (state_view v n None (-6) (q_self_role c n) _ _ eq_refl H1) as H2.
  pose proof (state_view v n None (-11) (i32 sp) _ _ eq_refl H2) as H3.
  pose proof (state_view v n None (-7) (q_voice c n) _ _ eq_refl H3) as H4.
  pose proof (state_view v n None (-8) (q_topic_lock c n) _ _ eq_refl H4) as H5.
  pose proof (state_view v n (Some (snprintf_s 8 (dec (q_peer_limit c n)))) (-9) 0 _ _ eq_refl H5) as H6.
  pose proof (state_view v n None (-10) (q_privacy c n) _ _ eq_refl H6) as H7.
  pose proof (topic_view v n tp _ _ H7) as H8. cbn [Z.eqb Pos.eqb] in H8.
  eexists. split; [|split; [done|split]].
  - cbn [handle_cmd tt_queue_post tt_queue_post2 ev_type friend_number]. unfold cmd_group_sync.
    rewrite (sync_peers_out n k fuel 0 t Hf); [|lia|lia| |done].
    2: { intros i Hi. destruct (Hpeers i Hi) as [E Hl]. destruct (nm i) as [|x s] eqn:N; [change (len []) with 0 in Hl; lia|]. exists x, s. exact E. }
    cbn [fmap option_fmap option_map]. f_equal. unfold sync_state. change (core (push_all _ t)) with c. rewrite Hid, Hself.
    rewrite !group_push_all, !push_push.
    assert (forall es, topic_text (push_all es t) n = tp) as Et.
    { intros es. unfold topic_text, buffer. change (core (push_all es t)) with c. rewrite Htopic. by apply ztake_all. }
    by rewrite Et.
  - unfold poll_events. rewrite Hq, fold_left_app. exact H8.
  - clear H1 H2 H3 H4 H5 H6 H7 H8. unfold shown_member, group_member in M0 |- *.
    assert (forall p, find_first (by_pid p) (members g1) = find_first (by_pid p) (members g0)) as Mp by (intros p; by rewrite M1).
    split; [|split].
    + intros p Hp. specialize (M0 p). destruct (in_rangeP 0 p (Z.of_nat k)); [|lia]. etrans; [|exact M0]. rewrite <- Mp. by destruct tp.
    + intros p Hp. specialize (M0 p). destruct (in_rangeP 0 p (Z.of_nat k)); [lia|]. etrans; [|exact M0]. rewrite <- Mp. by destruct tp.
    + rewrite u32_i32, (limit_text _ Hlimit) by done. unfold settings in *. cbn in S1.
      repeat match goal with H : (_, _) = (_, _) |- _ => apply pair_eq in H as [? ?] end.
      replace (clamp_voice (q_voice c n)) with (q_voice c n) by (unfold clamp_voice; case_match; [done|bool_to_prop; lia]).
      change TOX_GROUP_TOPIC_LOCK_ENABLED with 0. destruct tp; cbn; congruence.
Qed.
End sync.

(** ** A small toxcore *)

(** Two peers, every call succeeds. *)
Definition sample_groups : ToxGroups :=
  @Build_ToxGroups unit (fun _ => ascii_bytes "me") (fun _ => []) (fun _ _ => Some true) (fun _ _ => Some (ascii_bytes "club"))
    (fun _ _ => Some (ascii_bytes "news")) (fun _ _ => Some (replicate 32 7)) (fun _ _ => 2) (fun _ _ => Some 1) (fun _ _ => 0) (fun _ _ => 0)
    (fun _ _ => 100) (fun _ _ => 0)
    (fun _ _ p => if p =? 0 then Some (ascii_bytes "ann") else if p =? 1 then Some (ascii_bytes "bob") else None)
    (fun _ _ p => p) (fun _ => 0) (fun _ _ => (Some 5, tt)) (fun _ => tt).
(** The UI with one bare group, and what a handler reads. *)
Definition sample_ui : Ui := group_add (new_group 5) (ui_init false).
Definition sample_env : env := mkEnv [] 0 id false.

Lemma sync_mirrors_witness : exists (t' : @TTGroups sample_groups) es g',
  handle_cmd 3 false (tt_queue_post TT_CMD_GROUP_SYNC 5 None 0) (@groups_start sample_groups (tt : @Core sample_groups)) = Some t' /\ g_out t' = es /\
  group_by_gn (poll_events sample_env es sample_ui) 5 = Some g' /\ shown_member g' 1 = Some (ascii_bytes "bob", 1, false).
Proof.
  destruct (sync_mirrors (T := sample_groups) sample_env 3 false (groups_start (tt : @Core sample_groups)) 5 2 (fun p => if p =? 0 then ascii_bytes "ann" else ascii_bytes "bob")
    (replicate 32 7) 1 (ascii_bytes "news") sample_ui (new_group 5)) as (t' & es & g' & H1 & H2 & H3 & H4 & _).
  - split; try done.
    + intros p Hp. assert (p = 0 \/ p = 1) as [->| ->] by lia; done.
    + unfold all_bytes. by repeat constructor.
  - lia.
  - done.
  - done.
  - done.
  - exists t', es, g'. split; [exact H1|]. split; [exact H2|]. split; [exact H3|]. by rewrite H4 by lia.
Defined.
