(* ===== verification/GroupPolicy.v ===== *)
(** * GroupPolicy: the dialogs and events of a group, end to end

    The UI and the tox thread of one client, or of two, with toxcore between:
    what a dialog's button makes toxcore do, and where the two sides part. *)
From S2P Require Import Prelude CText Slots Sidecar History Transcript EventQueue Identity Linked Events UiState UiContacts UiCommands UiGroups UiLoop Groups GroupSync.

(** ** Invitations *)

Section policy.
Context {T : ToxGroups}.
Implicit Types (t : TTGroups) (ui : Ui) (l : list TTGroupInvite).

Definition valid_invite (i : TTGroupInvite) : Prop := 0 < len (i_data i) <= TT_GROUP_INVITE_DATA_MAX.
(** The invitations [l] arrive. *)
Definition receive l t : TTGroups := fold_left (fun t i => cb_group_invite (i_fn i) (i_data i) (i_name i) t) l t.
Definition sent_name (i : TTGroupInvite) : bytes := ztake TOX_GROUP_MAX_GROUP_NAME_LENGTH (i_name i).
Definition kept (i : TTGroupInvite) : TTGroupInvite := mkInvite (i_fn i) (i_data i) (cstr (sent_name i)).
Definition invite_event (k : Z) (i : TTGroupInvite) : event := simple_event TT_EV_GROUP_INVITE (i_fn i) (Some (sent_name i)) 0 k.

Lemma free_slot_prefix {A} (l : list A) n : forall k, free_slot k ((Some <$> l) ++ replicate n None) = match n with O => None | S _ => Some (k + length l)%nat end.
Proof.
  induction l as [|a l IH]; intros k; cbn.
  - destruct n; [done|]. cbn. by rewrite Nat.add_0_r.
  - rewrite IH. destruct n; [done|]. f_equal. lia.
Qed.
Lemma invite_stored i t : valid_invite i -> let k := default 0%nat (free_slot 0 (ginvites t)) in
  cb_group_invite (i_fn i) (i_data i) (i_name i) t =
  t <| ginvites := <[k := Some (kept i)]> (ginvites t) |> <| g_out := g_out t ++ [invite_event (Z.of_nat k) i] |>.
Proof. intros [H1 H2]. unfold cb_group_invite. replace ((len (i_data i) =? 0) || (TT_GROUP_INVITE_DATA_MAX <? len (i_data i))) with false by lia. done. Qed.

(** The table after [i :: l] arrived: in order while there is room, then the
    last one in slot 0. *)
Lemma receive_table c i l : Forall valid_invite (i :: l) ->
  let t := receive (i :: l) (groups_start c) in
  core t = c /\ g_calls t = [] /\
  (exists es, g_out t = invite_event 0 i :: es /\ Forall (fun e => ev_type e = TT_EV_GROUP_INVITE) es) /\
  if bool_decide (length (i :: l) <= TT_MAX_GROUP_INVITES)%nat
  then ginvites t = (Some <$> (kept <$> i :: l)) ++ replicate (TT_MAX_GROUP_INVITES - length (i :: l)) None
  else exists r, ginvites t = Some (kept (List.last l i)) :: r /\ free_slot 1 r = None.
Proof.
  induction l as [|j l IH] using rev_ind; intros Hv.
  - apply Forall_inv in Hv. cbn [receive fold_left]. rewrite invite_stored by done. cbv zeta. split_conj; [done|done|exists []; by split|]. unfold TT_MAX_GROUP_INVITES. by rewrite bool_decide_true by (cbn; lia).
  - rewrite app_comm_cons in *. apply Forall_app in Hv as [Hv Hj%Forall_inv]. specialize (IH Hv). cbv zeta in IH.
    unfold receive in *. rewrite fold_left_app. set (t := fold_left _ (i :: l) _) in *. cbn [fold_left]. rewrite invite_stored by done. cbv zeta.
    destruct IH as (Hc & Hk & (es & Ho & He) & Ht). split_conj; [done|done| |].
    { exists (es ++ [invite_event (Z.of_nat (default 0%nat (free_slot 0 (ginvites t)))) j]). cbn [g_out set_field]. rewrite Ho. split; [done|].
      apply Forall_app. split; [done|]. constructor; [|constructor]. unfold invite_event. by destruct (sent_name j). }
    rewrite List.last_last, length_app. cbn [length ginvites set_field] in *. unfold TT_MAX_GROUP_INVITES in *.
    case_bool_decide as H1; [case_bool_decide as H2|].
    + rewrite Ht, free_slot_prefix, length_fmap. cbn [length default].
      destruct (8 - S (length l))%nat as [|n] eqn:En; [lia|]. cbn [default id Nat.add].
      rewrite fmap_app, fmap_app, <- app_assoc.
      rewrite insert_app_r_alt by (rewrite !length_fmap; cbn; lia). rewrite !length_fmap. cbn [length]. rewrite Nat.sub_diag. by replace (8 - S (length l + 1))%nat with n by lia.
    + assert (length l = 7)%nat as E by lia. rewrite Ht, E. cbn [Nat.sub replicate]. rewrite app_nil_r.
      pose proof (free_slot_prefix (kept <$> i :: l) 0 0) as F. cbn [replicate] in F. rewrite app_nil_r in F. rewrite F. cbn.
      eexists. split; [done|]. pose proof (free_slot_prefix (kept <$> l) 0 1) as F'. cbn [replicate] in F'. by rewrite app_nil_r in F'.
    + rewrite bool_decide_false by lia. destruct Ht as (r & -> & F). cbn [free_slot]. rewrite F. cbn. by exists r.
Qed.

Lemma invites_ignored v es ui : invite_open ui <> None -> Forall (fun e => ev_type e = TT_EV_GROUP_INVITE) es ->
  fold_left (fun ui e => handle_event v e ui) es ui = ui.
Proof.
  intros Ho. induction 1 as [|e es He _ IH]; [done|]. cbn [fold_left].
  assert (handle_event v e ui = ui) as ->; [|done]. unfold handle_event. rewrite He. unfold on_group_invite. by destruct (invite_open ui).
Qed.

(** C38: Invitations that arrive together: the dialog shows the first, with its
    friend and group, and the others are never shown.  Accepting joins with what
    that invitation carried, as long as no more than the table's eight arrived;
    after that the table's slot 0, which the dialog's buttons name, holds the
    newest invitation: the user accepts one that was never shown. *)
Theorem invitation_accepted v fuel lone c i l ui :
  Forall valid_invite (i :: l) -> invite_open ui = None -> quitting ui = false ->
  let t := receive (i :: l) (groups_start c) in
  let ui1 := poll_events v (g_out t) ui in
  let k := if bool_decide (length (i :: l) <= 8)%nat then i else List.last l i in
  invite_open ui1 = Some (invite_label (i_fn i) (Some (sent_name i)) ui, 0) /\
  exists e t', posted (cc_ginv_yes ui1) = posted ui ++ [e] /\ invite_open (cc_ginv_yes ui1) = None /\
    handle_cmd fuel lone e t = Some t' /\ g_calls t' = [GInviteAccept (i_fn k) (i_data k) (self_nick t)] /\ invite_at t' 0 = None.
Proof.
  intros Hv Ho Hq t ui1 k. destruct (receive_table c i l Hv) as (Hc & Hk & (es & He & Hes) & Ht). fold t in Hc, Hk, He, Ht.
  assert (ui1 = ui <| invite_open := Some (invite_label (i_fn i) (Some (sent_name i)) ui, 0) |>) as ->.
  { unfold ui1, poll_events. rewrite Hq, He. cbn [fold_left].
    assert (handle_event v (invite_event 0 i) ui = ui <| invite_open := Some (invite_label (i_fn i) (Some (sent_name i)) ui, 0) |>) as ->.
    { unfold invite_event. destruct (sent_name i); unfold handle_event; cbn [simple_event ev_type ev_str friend_number ival2]; unfold on_group_invite; by rewrite Ho. }
    by apply invites_ignored. }
  assert (exists r, ginvites t = Some (kept k) :: r) as (r & Hr).
  { unfold k. unfold TT_MAX_GROUP_INVITES in *. case_bool_decide; [rewrite Ht; by eexists|]. destruct Ht as (r & Hr & _). by exists r. }
  split; [done|]. eexists _, _. split; [done|]. split; [done|]. split; [done|].
  clearbody t k. assert (invite_at t 0 = Some (kept k)) as Ha by (unfold invite_at; by rewrite Hr).
  unfold handle_cmd_group_invite_accept. cbn [ival2 tt_queue_post2]. rewrite Ha. unfold call. cbn [i_fn i_data kept].
  destruct (tox_call (core t) (GInviteAccept (i_fn k) (i_data k) (self_nick t))) as [[gn|] c']; (split; [cbn; by rewrite Hk|]); unfold invite_at; cbn [ginvites set_field group_push]; by rewrite Hr.
Qed.

(** ** Leaving *)

(** A group event leaves the selection's flag alone. *)
Lemma roster_quitting ui : quitting (roster_render ui) = quitting ui.
Proof. unfold roster_render. destruct (have_keep ui); [done|]. by destruct (sel_kind ui). Qed.
Lemma joined_view v n s ui : exists g, groups (handle_event v (simple_event TT_EV_GROUP_JOINED n s 0 0) ui) = groups ui ++ [g] /\ gn g = n /\
  quitting (handle_event v (simple_event TT_EV_GROUP_JOINED n s 0 0) ui) = quitting ui.
Proof.
  assert (forall e, ev_type e = TT_EV_GROUP_JOINED -> friend_number e = n -> exists g,
    groups (handle_event v e ui) = groups ui ++ [g] /\ gn g = n /\ quitting (handle_event v e ui) = quitting ui) as H.
  { intros e E <-. unfold handle_event. rewrite E. unfold on_group_joined. cbv zeta. rewrite roster_groups, roster_quitting. by eexists. }
  destruct s as [[|c s]|]; by apply H.
Qed.
Lemma show_groups_gn ui : gn <$> groups (show_selected ui) = gn <$> groups ui.
Proof. unfold show_selected. repeat case_match; rewrite ?roster_groups; try done. cbn. by apply upd_first_fmap. Qed.
Lemma left_view v n ui g : group_by_gn ui n = Some g ->
  gn <$> groups (handle_event v (simple_event TT_EV_GROUP_LEFT n None 0 0) ui) = gn <$> del_first (by_gn n) (groups ui).
Proof.
  intros H. cbn [simple_event]. unfold handle_event. cbn [ev_type friend_number]. unfold on_group_left. rewrite show_groups_gn, roster_groups.
  rewrite (with_group_some _ _ _ _ H). unfold when_ui. by destruct (group_selected ui n).
Qed.

(** How many of the UI's groups have number [n]. *)
Definition copies (n : Z) ui : nat := count_occ Z.eq_dec (gn <$> groups ui) n.
Lemma copies_del n (l : list Group) : find_first (by_gn n) l <> None ->
  S (count_occ Z.eq_dec (gn <$> del_first (by_gn n) l) n) = count_occ Z.eq_dec (gn <$> l) n.
Proof.
  induction l as [|g l IH]; [done|]. csimpl. unfold by_gn at 1 3. destruct (gn g =? n) eqn:E; bool_to_prop; csimpl; destruct (Z.eq_dec (gn g) n); done.
Qed.

(** A group that was joined by an invitation is listed twice: accepting
    announces it, and so does toxcore's callback, and the UI adds a group each
    time.  Leaving it removes one of the two; the other stays in the list, a
    group the engine no longer has. *)
Theorem left_group_stays v fuel lone t i gi n c ui :
  invite_at t i = Some gi -> tox_call (core t) (GInviteAccept (i_fn gi) (i_data gi) (self_nick t)) = (Some n, c) ->
  (forall c, exists r c', tox_call c (GLeave n) = (Some r, c')) -> quitting ui = false ->
  exists t1 es t3 es', handle_cmd fuel lone (tt_queue_post2 TT_CMD_GROUP_INVITE_ACC 0 None 0 i) t = Some t1 /\
    let t2 := cb_group_self_join n t1 in
    g_out t2 = g_out t ++ es /\ copies n (poll_events v es ui) = S (S (copies n ui)) /\
    handle_cmd fuel lone (tt_queue_post TT_CMD_GROUP_LEAVE n None 0) t2 = Some t3 /\ g_out t3 = g_out t2 ++ es' /\
    copies n (poll_events v es' (poll_events v es ui)) = S (copies n ui).
Proof.
  intros Hi Hc Hl Hq.
  set (t1 := t <| core := c |> <| g_calls := g_calls t ++ [GInviteAccept (i_fn gi) (i_data gi) (self_nick t)] |>
    <| g_out := g_out t ++ [simple_event TT_EV_GROUP_JOINED n (Some (i_name gi)) 0 0] |> <| ginvites := <[Z.to_nat i := None]> (ginvites t) |>).
  set (j1 := simple_event TT_EV_GROUP_JOINED n (Some (i_name gi)) 0 0). set (j2 := simple_event TT_EV_GROUP_JOINED n (Some (name_text t1 n)) 0 0).
  destruct (Hl c) as (r & c' & El).
  exists t1, [j1; j2], ((cb_group_self_join n t1) <| core := c' |> <| g_calls := g_calls t1 ++ [GLeave n] |>
    <| g_out := g_out (cb_group_self_join n t1) ++ [simple_event TT_EV_GROUP_LEFT n None 0 0] |>), [simple_event TT_EV_GROUP_LEFT n None 0 0].
  assert (copies n (poll_events v [j1; j2] ui) = S (S (copies n ui)) /\ quitting (poll_events v [j1; j2] ui) = false) as [C Q].
  { unfold poll_events. rewrite Hq. cbn [fold_left]. destruct (joined_view v n (Some (i_name gi)) ui) as (g1 & G1 & <- & Q1). fold j1 in G1, Q1.
    destruct (joined_view v (gn g1) (Some (name_text t1 (gn g1))) (handle_event v j1 ui)) as (g2 & G2 & N2 & Q2). fold j2 in G2, Q2.
    split; [|congruence]. unfold copies. rewrite G2, G1, !fmap_app, !count_occ_app. cbn. rewrite N2. destruct (Z.eq_dec _ _); [lia|done]. }
  split; [|split; [|split; [exact C|split; [|split; [done|]]]]].
  - cbn [handle_cmd tt_queue_post2 ev_type ival2]. unfold handle_cmd_group_invite_accept. rewrite Hi. unfold call. by rewrite Hc.
  - cbn [g_out cb_group_self_join group_push set_field]. unfold t1 at 1. cbn [g_out set_field]. by rewrite <- app_assoc.
  - cbn [handle_cmd tt_queue_post tt_queue_post2 ev_type friend_number]. unfold cmd_group_leave, call. change (core (cb_group_self_join n t1)) with c. by rewrite El.
  - unfold poll_events at 1. rewrite Q. cbn [fold_left]. set (u := poll_events v [j1; j2] ui) in *.
    assert (group_by_gn u n <> None) as Hg.
    { intros N. unfold copies in C. destruct (count_occ Z.eq_dec (gn <$> groups u) n) eqn:E; [done|]. assert (In n (gn <$> groups u)) as Hin by (apply (count_occ_In Z.eq_dec); lia).
      apply list_elem_of_In, list_elem_of_fmap in Hin as (g & -> & Hg). pose proof (proj1 (find_first_none _ _) N g Hg) as F. unfold by_gn in F. lia. }
    destruct (group_by_gn u n) as [g|] eqn:G; [|done]. unfold copies. rewrite (left_view v n u g G).
    assert (find_first (by_gn n) (groups u) <> None) as F by (unfold group_by_gn in G; by rewrite G).
    pose proof (copies_del n (groups u) F). unfold copies in C. lia.
Qed.

(** ** Making and joining *)

(** The command a dialog posts, and what the tox thread calls for it. *)
Definition posts (f : Ui -> Ui) ui (e : command) : Prop := posted (f ui) = posted ui ++ [e].
Definition calls fuel lone t (e : command) (cs : list group_call) : Prop := exists t', handle_cmd fuel lone e t = Some t' /\ g_calls t' = g_calls t ++ cs.

Lemma snprintf_short cap s : ~ In 0 s -> len s < cap -> snprintf_s cap s = s.
Proof. intros H0 Hl. unfold snprintf_s. rewrite cstr_no_nul by done. apply ztake_all. lia. Qed.
Lemma privacy_text (public : bool) : let w := ascii_bytes (if public then "public" else "private") in
  ~ In 0 w /\ len w <= 7 /\ bool_decide (w = ascii_bytes "public") = public.
Proof. destruct public; (split; [intros H; vm_compute in H; lia|done]). Qed.
(** Cut to a buffer, the text before the first [c] is whole or there is no [c]. *)
Lemma strchr_cut c a b n : ~ In c a -> strchr c (ztake n (a ++ c :: b)) = None \/ exists b', strchr c (ztake n (a ++ c :: b)) = Some (a, b').
Proof.
  intros Ha. unfold ztake. destruct (decide (Z.to_nat n <= length a)%nat).
  - left. rewrite take_app_le by done. apply strchr_none. intros H. apply Ha. rewrite <- (take_drop (Z.to_nat n) a). apply in_app_iff. by left.
  - right. rewrite take_app_ge by lia. destruct (Z.to_nat n - length a)%nat as [|m] eqn:E; [lia|]. cbn [take]. eexists. by apply strchr_app.
Qed.
Lemma payload_text cap s : cstr (snprintf_s cap s) = snprintf_s cap s.
Proof.
  apply cstr_no_nul. intros H. apply (cstr_in s). unfold snprintf_s, ztake in H. rewrite <- (take_drop (Z.to_nat (cap - 1)) (cstr s)). apply in_app_iff. by left.
Qed.
Lemma create_parsed (name : bytes) (public : bool) : ~ In 0 name -> ~ In NL name ->
  let s := create_payload name public in
  (len name <= 48 -> strchr 10 s = Some (name, ascii_bytes (if public then "public" else "private"))) /\
  (strchr 10 s = None \/ exists w, strchr 10 s = Some (name, w)).
Proof.
  intros H0 Hnl s. destruct (privacy_text public) as (W0 & Wl & _). set (w := ascii_bytes _) in *.
  assert (~ In 0 (name ++ [NL] ++ w)) as H1 by (rewrite !in_app_iff; intros [H|[[H|[]]|H]]; [done|by vm_compute in H|done]).
  assert (strchr 10 (name ++ [NL] ++ w) = Some (name, w)) as E by (by apply strchr_app). split.
  - intros Hl. unfold s, create_payload. fold w. rewrite snprintf_short; [done|done|]. rewrite !len_app. change (len [NL]) with 1. unfold TT_NAME_MAX. lia.
  - unfold s, create_payload, snprintf_s. fold w. rewrite cstr_no_nul by done. by apply strchr_cut.
Qed.

(** C39: The dialogs of a new group and of one to join reach toxcore as they were
    filled in.  A name of 1 to 48 bytes makes a group of that name and privacy,
    under our own name; a longer one does nothing.  The 64 digits of an identity
    and a password of at most 32 bytes join with exactly those, an empty password
    as none. *)
Theorem group_dialogs_reach_toxcore fuel lone name public cid pw t ui :
  name <> [] -> ~ In 0 name -> ~ In NL name -> len cid = TOX_GROUP_CHAT_ID_SIZE -> all_bytes cid -> ~ In 0 pw -> len pw <= TOX_GROUP_MAX_PASSWORD_SIZE ->
  (exists e, posts (cc_gnew_ok (Some (name, public))) ui e /\
     calls fuel lone t e (if len name <=? 48 then [GNew (if public then TOX_GROUP_PRIVACY_STATE_PUBLIC else TOX_GROUP_PRIVACY_STATE_PRIVATE) name (self_nick t)] else [])) /\
  (exists e, posts (cc_gjoin_ok (Some (hex cid, pw))) ui e /\
     calls fuel lone t e [GJoin cid (match pw with [] => None | _ => Some pw end) (self_nick t)]).
Proof.
  intros Hne H0 Hnl Hcl Hcb Hp0 Hpl. split.
  - assert (0 < len name) as Hl by (destruct name; [done|unfold len; cbn; lia]). eexists. split.
    + unfold posts, cc_gnew_ok. by replace (len name =? 0) with false by lia.
    + unfold calls. cbn [handle_cmd tt_queue_post2 ev_type ev_str]. unfold create_payload at 1. rewrite payload_text. fold (create_payload name public).
      unfold handle_cmd_group_create. destruct (create_parsed name public H0 Hnl) as [Hs Hw]. destruct (len name <=? 48) eqn:L; bool_to_prop.
      * rewrite Hs by done. change TOX_GROUP_MAX_GROUP_NAME_LENGTH with 48. replace ((len name =? 0) || (48 <? len name)) with false by lia.
        destruct (privacy_text public) as (_ & _ & ->). cbv zeta. unfold call. destruct (tox_call _ _) as [[gn|] c]; by eexists.
      * exists t. rewrite app_nil_r. split; [|done]. destruct Hw as [->|[w ->]]; [done|]. change TOX_GROUP_MAX_GROUP_NAME_LENGTH with 48.
        by replace ((len name =? 0) || (48 <? len name)) with true by lia.
  - assert (~ In 0 (hex cid)) as Hh by (by apply hex_nonzero).
    assert (len (hex cid) = 64) as Hhl by (unfold len in *; rewrite hex_length; change TOX_GROUP_CHAT_ID_SIZE with 32 in Hcl; lia).
    assert (~ In 10 (hex cid)) as Hhn.
    { intros H. pose proof (hex_xdigits cid Hcb) as F. rewrite Forall_forall in F. apply list_elem_of_In, F in H. done. }
    eexists. split.
    + unfold posts, cc_gjoin_ok. rewrite snprintf_short by (done || (change TOX_GROUP_CHAT_ID_SIZE with 32; lia)). rewrite Hhl. reflexivity.
    + unfold calls. cbn [handle_cmd tt_queue_post2 ev_type ev_str]. unfold join_payload. rewrite payload_text. fold (join_payload (hex cid) pw).
      assert (join_payload (hex cid) pw = if len pw =? 0 then hex cid else hex cid ++ NL :: pw) as ->.
      { unfold join_payload. apply (snprintf_short _ (if len pw =? 0 then hex cid else hex cid ++ [NL] ++ pw)).
        - destruct (len pw =? 0); [done|]. rewrite !in_app_iff. by intros [H|[[H|[]]|H]].
        - change (TOX_GROUP_CHAT_ID_SIZE * 2 + 2 + TOX_GROUP_MAX_PASSWORD_SIZE + 1) with 99. change TOX_GROUP_MAX_PASSWORD_SIZE with 32 in Hpl.
          destruct (len pw =? 0); rewrite ?len_app; change (len [NL]) with 1; lia. }
      assert (handle_cmd_group_join lone (hex cid) (match pw with [] => None | _ => Some pw end) t =
        call_ (GJoin cid (match pw with [] => None | _ => Some pw end) (self_nick t)) t) as Hj.
      { unfold handle_cmd_group_join. rewrite Hhl. cbn [negb Z.eqb]. change (Z.to_nat TOX_GROUP_CHAT_ID_SIZE) with 32%nat.
        assert (length cid = 32%nat) as <- by (unfold len in Hcl; change TOX_GROUP_CHAT_ID_SIZE with 32 in Hcl; lia).
        rewrite <- (app_nil_r (hex cid)), scan_key_hex by done. by destruct pw. }
      exists (call_ (GJoin cid (match pw with [] => None | _ => Some pw end) (self_nick t)) t). split.
      * rewrite <- Hj. unfold cmd_group_join. destruct pw as [|x pw].
        -- change (len [] =? 0) with true. cbv iota. rewrite (strchr_none 10) by done. by rewrite Hhl.
        -- replace (len (x :: pw) =? 0) with false by (by symmetry; apply Z.eqb_neq; unfold len; cbn [length]; lia). change NL with 10. rewrite strchr_app by done. by rewrite Hhl.
      * unfold call_, call. by destruct (tox_call _ _).
Qed.

(** ** Roles *)

(** A role is a moderator's, a user's or an observer's. *)
Lemma mod_self_view v n p r s ui g m : 1 <= r <= 3 -> group_by_gn ui n = Some g -> group_member g (u32 p) = Some m ->
  exists g', group_by_gn (handle_event v (simple_event TT_EV_GROUP_MOD_SELF n s p (selfev r)) ui) n = Some g' /\
    role <$> group_member g' (u32 p) = Some r.
Proof.
  intros Hr Hg Hm. assert (selfev r = 4 - r /\ role_of_event (4 - r) = r) as [-> Er] by (assert (r = 1 \/ r = 2 \/ r = 3) as [->|[->| ->]] by lia; done).
  assert (forall e, ev_type e = TT_EV_GROUP_MOD_SELF -> friend_number e = n -> ival e = p -> ival2 e = 4 - r -> exists g',
    group_by_gn (handle_event v e ui) n = Some g' /\ role <$> group_member g' (u32 p) = Some r) as H; [|by destruct s as [[|c s]|]; apply H].
  intros e E1 E2 E3 E4. unfold handle_event. rewrite E1, E2, E3, E4. unfold on_group_mod_self. rewrite (with_group_some _ _ _ _ Hg). cbv zeta.
  replace (TT_MOD_EV_FAIL_BASE <=? 4 - r) with false by (unfold TT_MOD_EV_FAIL_BASE; lia).
  replace (4 - r =? TOX_GROUP_MOD_EVENT_KICK) with false by (unfold TOX_GROUP_MOD_EVENT_KICK; lia).
  unfold group_line. rewrite group_sys_upd.
  match goal with |- context [when_ui ?b ?f ?u] => assert (group_by_gn (when_ui b f u) n = group_by_gn u n) as -> by (by destruct b) end.
  rewrite group_upd, Hg by done. cbn [fmap option_fmap option_map]. eexists. split; [done|].
  change (group_member (set_field _ ?x) (u32 p)) with (group_member x (u32 p)). rewrite member_upd, Z.eqb_refl, Hm by done. cbn. by rewrite Er.
Qed.
Lemma mod_view v n p r ui g m : 1 <= r <= 3 -> group_by_gn ui n = Some g -> group_member g (u32 p) = Some m ->
  exists g', group_by_gn (handle_event v (simple_event TT_EV_GROUP_MOD n None p r) ui) n = Some g' /\ role <$> group_member g' (u32 p) = Some r.
Proof.
  intros Hr Hg Hm. cbn [simple_event]. unfold handle_event. cbn [ev_type friend_number ival ival2]. unfold on_group_mod. rewrite (with_group_some _ _ _ _ Hg). cbv zeta.
  replace (r =? TOX_GROUP_MOD_EVENT_KICK) with false by (unfold TOX_GROUP_MOD_EVENT_KICK; lia).
  rewrite group_upd by done. unfold group_line. rewrite group_sys_upd, Hg. cbn [fmap option_fmap option_map]. eexists. split; [done|].
  rewrite member_upd, Z.eqb_refl by done. change (group_member (set_field _ g) (u32 p)) with (group_member g (u32 p)). by rewrite Hm.
Qed.

(** A change of a member's role is shown wrongly by everyone but the one who
    made it.  Where moderator A sets peer [p] to role [r], A's own list shows [r],
    but another client, told of the same change by toxcore (whose event numbers
    run the other way), stores the event's number as the role: a new moderator is
    shown as an observer and a new observer as a moderator. *)
Theorem roles_mixed_up v w fuel lone t t' n p r i ui ui' g m g' m' k c :
  0 <= p < 2 ^ 31 -> 1 <= r <= 3 -> tox_call (core t) (GRole n p r) = (Some i, c) ->
  group_by_gn ui n = Some g -> group_member g p = Some m -> quitting ui = false ->
  group_by_gn ui' n = Some g' -> group_member g' p = Some m' -> quitting ui' = false ->
  (exists t1 es h, handle_cmd fuel lone (tt_queue_post2 TT_CMD_GROUP_ROLE n None p r) t = Some t1 /\ g_out t1 = g_out t ++ es /\
     group_by_gn (poll_events v es ui) n = Some h /\ role <$> group_member h p = Some r) /\
  (exists es h, g_out (cb_group_moderation n k p (selfev r) t') = g_out t' ++ es /\
     group_by_gn (poll_events w es ui') n = Some h /\ role <$> group_member h p = Some (4 - r)).
Proof.
  intros Hp Hr Hc Hg Hm Hq Hg' Hm' Hq'.
  assert (u32 p = p) as Eu by (unfold u32; apply Z.mod_small; lia). assert (i32 p = p) as Ei by (unfold i32; rewrite Z.mod_small; lia).
  assert (selfev r = 4 - r) as Es by (assert (r = 1 \/ r = 2 \/ r = 3) as [->|[->| ->]] by lia; done). split.
  - set (t1 := t <| core := c |> <| g_calls := g_calls t ++ [GRole n p r] |>). rewrite <- Eu in Hm.
    destruct (mod_self_view v n p r (Some (peer_name t1 n p)) ui g m Hr Hg Hm) as (h & H1 & H2).
    eexists _, [simple_event TT_EV_GROUP_MOD_SELF n (Some (peer_name t1 n p)) p (selfev r)], h. split; [|split; [|split]].
    + cbn [handle_cmd tt_queue_post2 ev_type friend_number ival ival2]. unfold cmd_group_role, TOX_GROUP_ROLE_FOUNDER, TOX_GROUP_ROLE_OBSERVER.
      replace ((r <? 0) || (3 <? r)) with false by lia. unfold call. rewrite Eu, Hc. reflexivity.
    + reflexivity.
    + unfold poll_events. rewrite Hq. exact H1.
    + by rewrite Eu in H2.
  - rewrite <- Eu in Hm'. destruct (mod_view w n p (4 - r) ui' g' m' ltac:(lia) Hg' Hm') as (h & H1 & H2).
    exists [simple_event TT_EV_GROUP_MOD n None p (4 - r)], h. split; [|split].
    + unfold cb_group_moderation. rewrite Es, Ei. unfold TOX_GROUP_MOD_EVENT_KICK. by replace (4 - r =? 0) with false by lia.
    + unfold poll_events. rewrite Hq'. exact H1.
    + by rewrite Eu in H2.
Qed.

End policy.

(** ** Witnesses *)

Definition start : @TTGroups sample_groups := groups_start (tt : @Core sample_groups).
(** Nine invitations of friends 1 to 9. *)
Definition nine : list TTGroupInvite := (fun n => mkInvite n [n] (ascii_bytes "club")) <$> seqZ 1 9.
Lemma invitation_accepted_witness :
  let t := receive nine start in
  let ui1 := poll_events sample_env (g_out t) (ui_init false) in
  invite_open ui1 = Some (invite_label 1 (Some (ascii_bytes "club")) (ui_init false), 0) /\
  exists e t', posted (cc_ginv_yes ui1) = [e] /\ handle_cmd 1 false e t = Some t' /\ g_calls t' = [GInviteAccept 9 [9] (ascii_bytes "me")].
Proof.
  destruct (invitation_accepted (T := sample_groups) sample_env 1 false tt (mkInvite 1 [1] (ascii_bytes "club")) (tail nine) (ui_init false)) as [H1 (e & t' & H2 & _ & H3 & H4 & _)].
  - repeat constructor; done.
  - done.
  - done.
  - split; [exact H1|]. exists e, t'. split; [exact H2|]. split; [exact H3|exact H4].
Defined.
Lemma left_group_stays_witness :
  let t := receive [mkInvite 1 [1] (ascii_bytes "club")] start in
  exists t1, handle_cmd 1 false (tt_queue_post2 TT_CMD_GROUP_INVITE_ACC 0 None 0 0) t = Some t1 /\
    exists es es', copies 5 (poll_events sample_env es' (poll_events sample_env es (ui_init false))) = 1%nat.
Proof.
  destruct (left_group_stays (T := sample_groups) sample_env 1 false (receive [mkInvite 1 [1] (ascii_bytes "club")] start) 0 (mkInvite 1 [1] (ascii_bytes "club"))
    5 tt (ui_init false)) as (t1 & es & t3 & es' & H1 & _ & _ & _ & _ & H2).
  - reflexivity.
  - reflexivity.
  - intros c. by exists 5, tt.
  - reflexivity.
  - exists t1. split; [exact H1|]. exists es, es'. exact H2.
Defined.
Lemma group_dialogs_reach_toxcore_witness :
  (exists e, posts (cc_gnew_ok (Some (ascii_bytes "club", true))) sample_ui e /\ calls 1 false start e [GNew 0 (ascii_bytes "club") (ascii_bytes "me")]) /\
  (exists e, posts (cc_gjoin_ok (Some (hex (replicate 32 7), ascii_bytes "pw"))) sample_ui e /\
     calls 1 false start e [GJoin (replicate 32 7) (Some (ascii_bytes "pw")) (ascii_bytes "me")]).
Proof.
  destruct (group_dialogs_reach_toxcore (T := sample_groups) 1 false (ascii_bytes "club") true (replicate 32 7) (ascii_bytes "pw") start sample_ui) as [H1 H2].
  - discriminate.
  - intros H. vm_compute in H. lia.
  - intros H. vm_compute in H. lia.
  - reflexivity.
  - repeat constructor; lia.
  - intros H. vm_compute in H. lia.
  - vm_compute. discriminate.
  - split; [exact H1|exact H2].
Defined.
(** The group with a member 4. *)
Definition with_four : Ui := upd_group 5 (group_member_upsert 4 id) sample_ui.
Lemma roles_mixed_up_witness :
  (exists es h, group_by_gn (poll_events sample_env es with_four) 5 = Some h /\ role <$> group_member h 4 = Some TOX_GROUP_ROLE_MODERATOR) /\
  (exists es h, g_out (cb_group_moderation 5 1 4 TOX_GROUP_MOD_EVENT_MODERATOR start) = es /\
     group_by_gn (poll_events sample_env es with_four) 5 = Some h /\ role <$> group_member h 4 = Some TOX_GROUP_ROLE_OBSERVER).
Proof.
  destruct (roles_mixed_up (T := sample_groups) sample_env sample_env 1 false start start 5 4 TOX_GROUP_ROLE_MODERATOR 5 with_four with_four
    (group_member_upsert 4 id (new_group 5)) (new_member 4) (group_member_upsert 4 id (new_group 5)) (new_member 4) 1 tt) as [(t1 & es & h & _ & _ & H1 & H2) (es' & h' & H3 & H4 & H5)].
  1, 2: done. all: try reflexivity.
  split; [exists es, h; done|]. exists es', h'. split; [exact H3|]. split; [exact H4|exact H5].
Defined.
