(* ===== verification/Profiles.v ===== *)
(** * Profiles: the profile picker ([ui/profiles.c])

    A profile is a file [<name>.tox] of the working directory with its six
    sidecars.  The picker lists, creates, renames and deletes profiles; its
    dialogs and listbox are seen through the commands they run.  A directory
    is a map from file names to contents, [readdir] gives its names in an order
    of its own; the file operations succeed. *)
From stdpp Require Import gmap.
From S2P Require Import Prelude CText.

Definition TOX : bytes := ascii_bytes ".tox".
Definition TMP : bytes := ascii_bytes ".tmp".
Definition NEW : bytes := ascii_bytes ".new".

(** ** Strings *)

Definition isalnum (c : Z) : bool := isdigit c || ((65 <=? c) && (c <=? 90)) || ((97 <=? c) && (c <=? 122)).
Definition name_char (c : Z) : bool := isalnum c || (c =? 46) || (c =? 95) || (c =? 45).
(** The loops that fill [clean[256]]. *)
Definition sanitize (name : bytes) : bytes := ztake 255 (filter (fun c => name_char c = true) name).

(** ** The sort *)

(** The inner loop: [j] is one more than in the code, the slot to fill. *)
Fixpoint sift (j : nat) (key : bytes) (out : list bytes) : list bytes :=
  match j with
  | O => <[0%nat := key]> out
  | S j' =>
      let x := default [] (out !! j') in
      if 0 <? strcmp x key then sift j' key (<[S j' := x]> out) else <[S j' := key]> out
  end.
Definition sort_step (out : list bytes) (i : nat) : list bytes := sift i (default [] (out !! i)) out.
Definition insertion_sort (out : list bytes) : list bytes := fold_left sort_step (seq 1 (length out - 1)) out.

(** ** Listing *)

Class Directory := { readdir : gmap bytes bytes -> list bytes }.
Class DirectoryLaws (R : Directory) : Prop := {
  readdir_all d : readdir d ≡ₚ (map_to_list d).*1;
}.

(** The name in front of [.tox], when the entry is a profile. *)
Definition profile_name (entry : bytes) : option bytes :=
  if (len entry <=? 4) || negb (bytes_eqb (zdrop (len entry - 4) entry) TOX) then None else
  if strstr TMP entry || strstr NEW entry then None
  else Some (ztake (len entry - 4) entry).

Definition suffixes : list bytes := ascii_bytes <$> [""; ".oq"; ".tt"; ".ses"; ".hist"; ".ava"; ".rsum"]%string.

Record Picker := mkPicker {
  profiles : list bytes;
  sel : Z;
  result : option bytes;
  pk_done : bool;
  new_open : bool;
  rename_open : bool;
  delete_open : bool;
  dir : gmap bytes bytes;
}.
#[export] Instance eta_picker : EtaRecord Picker := fun p =>
  mkPicker (profiles p) (sel p) (result p) (pk_done p) (new_open p) (rename_open p) (delete_open p) (dir p).

Section picker.
Context {R : Directory}.

Definition list_profiles (d : gmap bytes bytes) : list bytes := insertion_sort (omap profile_name (readdir d)).

Definition pk_refresh (p : Picker) : Picker := p <| profiles := list_profiles (dir p) |> <| sel := -1 |>.

(** The selected profile. *)
Definition selected (p : Picker) : option bytes :=
  if (sel p <? 0) || (len (profiles p) <=? sel p) then None else profiles p !! Z.to_nat (sel p).

(** ** Commands *)

Definition pk_open (p : Picker) : Picker :=
  match selected p with
  | None => p
  | Some name => p <| result := Some (name ++ TOX) |> <| pk_done := true |>
  end.
Definition pk_cancel (p : Picker) : Picker := p <| pk_done := true |>.
(** [r] is what the listbox answers to [curselection]. *)
Definition pk_select (r : bytes) (p : Picker) : Picker :=
  p <| sel := match r with [] => -1 | _ => atoi r end |>.

Definition pk_new_open (p : Picker) : Picker := p <| new_open := true |>.
Definition pk_new_cancel (p : Picker) : Picker := p <| new_open := false |>.
Definition pk_new_ok (name : bytes) (p : Picker) : Picker :=
  if negb (new_open p) then p else
  let clean := sanitize (cstr name) in
  if len clean =? 0 then p else
  if bool_decide (is_Some (dir p !! (clean ++ TOX))) then p
  else p <| result := Some (clean ++ TOX) |> <| pk_done := true |>.

Definition pk_rename_open (p : Picker) : Picker :=
  if rename_open p then p else
  match selected p with None => p | Some _ => p <| rename_open := true |> end.
Definition pk_rename_cancel (p : Picker) : Picker := p <| rename_open := false |>.
(** [rename]: the file under its new name, whatever had that name is gone. *)
Definition tt_rename (o n : bytes) (d : gmap bytes bytes) : gmap bytes bytes :=
  match d !! o with Some b => <[n := b]> (delete o d) | None => d end.
Definition rename_files (oldpath newpath : bytes) (d : gmap bytes bytes) : gmap bytes bytes :=
  fold_left (fun d suf => tt_rename (oldpath ++ suf) (newpath ++ suf) d) suffixes d.
Definition pk_rename_ok (name : bytes) (p : Picker) : Picker :=
  if negb (rename_open p) then p else
  match selected p with
  | None => p
  | Some old =>
      let clean := sanitize (cstr name) in
      if len clean =? 0 then p else
      if bytes_eqb (old ++ TOX) (clean ++ TOX) then p <| rename_open := false |> else
      if bool_decide (is_Some (dir p !! (clean ++ TOX))) then p
      else pk_refresh (p <| rename_open := false |> <| dir := rename_files (old ++ TOX) (clean ++ TOX) (dir p) |>)
  end.

Definition pk_delete_open (p : Picker) : Picker :=
  if delete_open p then p else
  match selected p with None => p | Some _ => p <| delete_open := true |> end.
Definition pk_delete_cancel (p : Picker) : Picker := p <| delete_open := false |>.
Definition delete_files (path : bytes) (d : gmap bytes bytes) : gmap bytes bytes :=
  fold_left (fun d suf => delete (path ++ suf) d) suffixes d.
Definition pk_delete_ok (p : Picker) : Picker :=
  if negb (delete_open p) then p else
  match selected p with
  | None => p
  | Some name => pk_refresh (p <| delete_open := false |> <| dir := delete_files (name ++ TOX) (dir p) |>)
  end.

(** The picker when its window opens: an empty list opens the New dialog. *)
Definition tt_profile_picker (d : gmap bytes bytes) : Picker :=
  let p := pk_refresh (mkPicker [] 0 None false false false false d) in
  if len (profiles p) =? 0 then pk_new_open p else p.
End picker.
