(* ===== verification/ProfilesSafety.v ===== *)
(** * ProfilesSafety: the profile list, and what the dialogs do to the files

    The list is the sorted list of the profiles whatever order the directory
    has; rename and delete touch exactly the seven files of a profile, but the
    profile is the one selected when the dialog is confirmed. *)
From stdpp Require Import gmap sorting.
From S2P Require Import Prelude CText Profiles.

(** ** [strcmp] is an order *)

Lemma strcmp_refl a : strcmp a a = 0.
Proof. induction a as [|x a IH]; [done|]. cbn. by rewrite Z.eqb_refl. Qed.
Lemma strcmp_eq a : forall b, strcmp a b = 0 -> a = b.
Proof.
  induction a as [|x a IH]; intros [|y b]; cbn; try done. destruct (Z.eqb_spec x y) as [->|]; [|lia].
  intros H. by rewrite (IH _ H).
Qed.
Lemma strcmp_antisym a : forall b, 0 < strcmp a b <-> strcmp b a < 0.
Proof.
  induction a as [|x a IH]; intros [|y b]; cbn; try lia. rewrite (Z.eqb_sym y x). destruct (Z.eqb_spec x y); [apply IH|lia].
Qed.
Lemma strcmp_trans a : forall b c, strcmp a b <= 0 -> strcmp b c <= 0 -> strcmp a c <= 0.
Proof.
  induction a as [|x a IH]; intros [|y b] [|z c]; cbn; try lia.
  destruct (Z.eqb_spec x y) as [->|], (Z.eqb_spec y z) as [->|]; try (destruct (Z.eqb_spec x z)); try destruct (Z.eqb_spec y z); try lia.
  apply IH.
Qed.

Definition name_le (a b : bytes) : Prop := strcmp a b <= 0.
#[export] Instance name_le_trans : Transitive name_le.
Proof. intros a b c. apply strcmp_trans. Qed.
#[export] Instance name_le_antisym : AntiSymm (=) name_le.
Proof.
  intros a b Hab Hba. apply strcmp_eq. unfold name_le in *. destruct (Z.eq_dec (strcmp a b) 0) as [|Hn]; [done|].
  assert (H : strcmp a b < 0) by lia. apply strcmp_antisym in H. lia.
Qed.
Lemma name_le_total a b : name_le a b \/ name_le b a.
Proof. unfold name_le. destruct (Z_le_gt_dec (strcmp a b) 0) as [|H]; [by left|right]. assert (0 < strcmp a b) as ?%strcmp_antisym by lia. lia. Qed.

(** ** The sort *)

Lemma sorted_app l k : StronglySorted name_le (l ++ k) <->
  StronglySorted name_le l /\ StronglySorted name_le k /\ forall a b, a ∈ l -> b ∈ k -> name_le a b.
Proof. rewrite StronglySorted_app. split; intros (H1 & H2 & H3); split_conj; done. Qed.

(** The inner loop inserts the key into the sorted part in front of it. *)
Lemma sift_spec key pre : forall x suf, StronglySorted name_le pre ->
  exists a b, pre = a ++ b /\ sift (length pre) key (pre ++ x :: suf) = a ++ key :: b ++ suf /\
    StronglySorted name_le (a ++ key :: b).
Proof.
  induction pre as [|y pre IH] using rev_ind; intros x suf Hs.
  { exists [], []. cbn. split_conj; [done|done|repeat constructor]. }
  rewrite length_app, Nat.add_1_r. cbn [sift].
  rewrite <- app_assoc, lookup_app_r, Nat.sub_diag by lia. cbn [app lookup list_lookup default id].
  assert (Hi : forall z, <[S (length pre) := z]> (pre ++ y :: x :: suf) = pre ++ y :: z :: suf).
  { intros z. rewrite insert_app_r_alt by lia. by replace (S (length pre) - length pre)%nat with 1%nat by lia. }
  destruct (0 <? strcmp y key) eqn:E.
  - rewrite Hi. apply sorted_app in Hs as (H1 & _ & H3). destruct (IH y (y :: suf) H1) as (a & b & -> & -> & Hs').
    exists a, (b ++ [y]). split_conj; [by rewrite app_assoc|by rewrite <- (app_assoc b)|].
    change (key :: b ++ [y]) with ((key :: b) ++ [y]). rewrite app_assoc. apply sorted_app. split_conj; [done|repeat constructor|].
    intros c d Hc Hd%list_elem_of_singleton. subst d. rewrite elem_of_app, elem_of_cons in Hc.
    assert (Hy : y ∈ [y]) by (by left).
    destruct Hc as [Hc|[->|Hc]]; [apply H3; [apply elem_of_app; by left|done]| |apply H3; [apply elem_of_app; by right|done]].
    unfold name_le. apply Z.ltb_lt, strcmp_antisym in E. lia.
  - rewrite Hi. exists (pre ++ [y]), []. split_conj; [by rewrite app_nil_r|by rewrite <- app_assoc|].
    apply sorted_app. split_conj; [done|repeat constructor|].
    intros c d Hc Hd%list_elem_of_singleton. subst d. apply Z.ltb_ge in E.
    apply elem_of_app in Hc as [Hc|Hc%list_elem_of_singleton]; [|by subst c].
    apply sorted_app in Hs as (_ & _ & H3). trans y; [apply H3; [done|by left]|done].
Qed.

Lemma insertion_sort_prefix l : forall n, (n <= length l)%nat ->
  exists pre, fold_left sort_step (seq 1 (n - 1)) l = pre ++ drop n l /\ pre ≡ₚ take n l /\ StronglySorted name_le pre.
Proof.
  induction n as [|n IH]; intros Hn.
  { exists []. rewrite drop_0. split_conj; [done|done|constructor]. }
  destruct n as [|n].
  { destruct l as [|x l]; [cbn in Hn; lia|]. exists [x]. cbn. rewrite take_0, drop_0. split_conj; [done|done|repeat constructor]. }
  destruct IH as (pre & Hf & Hp & Hs); [lia|].
  replace (S (S n) - 1)%nat with (S n - 1 + 1)%nat by lia. rewrite seq_app, fold_left_app, Hf. cbn [seq fold_left].
  assert (Hl : length pre = S n) by (rewrite Hp, length_take; lia).
  destruct (lookup_lt_is_Some_2 l (S n)) as [x Hx]; [lia|]. rewrite (drop_S l x (S n)) by done.
  unfold sort_step. replace (1 + (S n - 1))%nat with (S n) by lia.
  rewrite lookup_app_r, Hl, Nat.sub_diag by lia. cbn [lookup list_lookup default id].
  destruct (sift_spec x pre x (drop (S (S n)) l) Hs) as (a & b & Hab & E & Hs'). rewrite Hl in E. rewrite E. exists (a ++ x :: b).
  split_conj; [by rewrite <- app_assoc| |done].
  rewrite (take_S_r l (S n) x) by done. rewrite <- Hp, Hab, <- Permutation_middle, <- app_assoc.
  symmetry. rewrite app_assoc. apply Permutation_app_comm.
Qed.

Lemma insertion_sort_spec l : insertion_sort l ≡ₚ l /\ StronglySorted name_le (insertion_sort l).
Proof.
  destruct (insertion_sort_prefix l (length l)) as (pre & Hf & Hp & Hs); [done|].
  rewrite drop_all, app_nil_r in Hf. rewrite firstn_all in Hp. unfold insertion_sort. rewrite Hf. by split.
Qed.
Lemma insertion_sort_perm l k : l ≡ₚ k -> insertion_sort l = insertion_sort k.
Proof.
  intros H. destruct (insertion_sort_spec l) as [H1 H2], (insertion_sort_spec k) as [H3 H4].
  apply (StronglySorted_unique name_le); [done|done|]. by rewrite H1, H3.
Qed.

(** ** The list *)

(** An entry the picker takes for a temporary file. *)
Definition hidden (entry : bytes) : Prop := strstr TMP entry = true \/ strstr NEW entry = true.

Lemma profile_name_spec e x : profile_name e = Some x <-> e = x ++ TOX /\ x <> [] /\ ~ hidden e.
Proof.
  unfold profile_name, hidden. pose proof (len_nonneg e). split.
  - destruct (_ || _) eqn:E1; [done|]. destruct (strstr TMP e || strstr NEW e) eqn:E2; [done|]. intros [= <-].
    apply orb_false_iff in E1 as [E1 E3%negb_false_iff%bytes_eqb_eq]. apply orb_false_iff in E2 as [-> ->].
    split_conj; [by rewrite <- E3, ztake_zdrop| |by intros [|]].
    intros Hn. apply (f_equal len) in Hn. rewrite len_ztake in Hn by lia. change (len []) with 0 in Hn. lia.
  - intros (-> & Hx & Hh). assert (0 < len x) by (destruct x; [done|rewrite len_cons; pose proof (len_nonneg x); lia]).
    assert (El : len (x ++ TOX) - 4 = len x) by (rewrite len_app; change (len TOX) with 4; lia).
    rewrite El, zdrop_app, ztake_app, bytes_eqb_refl by done. replace (len (x ++ TOX) <=? 4) with false by lia. cbn [negb orb].
    destruct (strstr TMP _ || strstr NEW _) eqn:E; [|done]. exfalso. apply Hh. by apply orb_true_iff in E.
Qed.

Section list.
Context {R : Directory} {L : DirectoryLaws R}.

Lemma elem_of_readdir d e : e ∈ readdir d <-> is_Some (d !! e).
Proof.
  rewrite readdir_all, list_elem_of_fmap. split.
  - intros ([k b] & -> & H). apply elem_of_map_to_list in H. by exists b.
  - intros [b H]. exists (e, b). split; [done|]. by apply elem_of_map_to_list.
Qed.

Definition is_profile (d : gmap bytes bytes) (x : bytes) : Prop := is_Some (d !! (x ++ TOX)) /\ x <> [] /\ ~ hidden (x ++ TOX).

Lemma elem_of_profiles d x : x ∈ list_profiles d <-> is_profile d x.
Proof.
  unfold list_profiles, is_profile. rewrite (proj1 (insertion_sort_spec _)), list_elem_of_omap. split.
  - intros (e & He & Hx). apply profile_name_spec in Hx as (-> & ? & ?). by apply elem_of_readdir in He.
  - intros (Hd & Hx & Hh). exists (x ++ TOX). split; [by apply elem_of_readdir|]. by apply profile_name_spec.
Qed.

Lemma profiles_nodup d : NoDup (list_profiles d).
Proof.
  unfold list_profiles. rewrite (proj1 (insertion_sort_spec _)).
  assert (H : NoDup (readdir d)) by (rewrite readdir_all; apply NoDup_fst_map_to_list).
  induction H as [|e l He Hl IH]; [constructor|]. cbn. destruct (profile_name e) as [x|] eqn:E; [|done].
  constructor; [|done]. rewrite list_elem_of_omap. intros (e' & He' & Hx).
  apply profile_name_spec in E as (-> & _), Hx as (-> & _). done.
Qed.

(** C30: The picker lists exactly the profiles of the directory, each once, in
    ascending order of [strcmp]; the list does not depend on the order in which
    the directory is read, since no other list has these properties. *)
Theorem profile_list_exact d :
  StronglySorted name_le (list_profiles d) /\ NoDup (list_profiles d) /\
  (forall x, x ∈ list_profiles d <-> is_profile d x) /\
  forall l, StronglySorted name_le l -> NoDup l -> (forall x, x ∈ l <-> is_profile d x) -> l = list_profiles d.
Proof.
  pose proof (proj2 (insertion_sort_spec (omap profile_name (readdir d)))) as Hs. split_conj; [done|apply profiles_nodup|apply elem_of_profiles|].
  intros l Hl Hn Hx. apply (StronglySorted_unique name_le); [done|done|].
  apply NoDup_Permutation; [done|apply profiles_nodup|]. intros x. by rewrite Hx, elem_of_profiles.
Qed.
End list.

(** ** The seven files of a profile *)

(** What the engine keeps of a profile: the savedata, the offline queue, the
    settings, the sessions, the transcripts, the avatar and the resume index. *)
Definition sidecars : list bytes := ascii_bytes <$> [""; ".oq"; ".tt"; ".ses"; ".hist"; ".ava"; ".rsum"]%string.
Definition files_of (x : bytes) : list bytes := (fun suf => (x ++ TOX) ++ suf) <$> sidecars.

Lemma suffixes_sidecars : suffixes = sidecars.
Proof. reflexivity. Qed.

Lemma suffix_inj x y s1 s2 : s1 ∈ suffixes -> s2 ∈ suffixes -> (x ++ TOX) ++ s1 = (y ++ TOX) ++ s2 -> x = y /\ s1 = s2.
Proof.
  intros H1 H2 H. apply (f_equal (@rev Z)) in H. rewrite !rev_app_distr in H.
  unfold suffixes in *. cbn [fmap list_fmap] in H1, H2.
  repeat (apply elem_of_cons in H1 as [->|H1]; [|]); [..|by apply elem_of_nil in H1];
  (repeat (apply elem_of_cons in H2 as [->|H2]; [|]); [..|by apply elem_of_nil in H2]);
  cbn in H; try discriminate H; injection H as H; apply (f_equal (@rev Z)) in H; by rewrite !rev_involutive in H.
Qed.
Lemma suffixes_nodup : NoDup suffixes.
Proof. apply (bool_decide_unpack _). vm_compute. exact I. Qed.

Lemma delete_fold (path : bytes) (l : list bytes) : forall (d : gmap bytes bytes) k,
  fold_left (fun d suf => delete (path ++ suf) d) l d !! k = if decide (k ∈ (fun suf => path ++ suf) <$> l) then None else d !! k.
Proof.
  induction l as [|s l IH]; intros d k; [done|]. cbn [fold_left fmap list_fmap]. rewrite IH.
  destruct (decide (k = path ++ s)) as [->|Hne].
  - rewrite lookup_delete_eq. rewrite (decide_True (P := _ ∈ _ :: _)) by (by left). by case_decide.
  - rewrite lookup_delete_ne by done. apply decide_ext. rewrite elem_of_cons. naive_solver.
Qed.

Section rename.
Context (o n : bytes).
Implicit Types (d : gmap bytes bytes) (l : list bytes).

Lemma rename_other l : forall d k, (forall s, s ∈ l -> k <> o ++ s /\ k <> n ++ s) ->
  fold_left (fun d suf => tt_rename (o ++ suf) (n ++ suf) d) l d !! k = d !! k.
Proof.
  induction l as [|s l IH]; intros d k H; [done|]. cbn [fold_left]. rewrite IH by (intros s' ?; apply H; by right).
  unfold tt_rename. destruct (H s) as [H1 H2]; [by left|]. destruct (d !! (o ++ s)); [|done].
  by rewrite lookup_insert_ne, lookup_delete_ne.
Qed.

Context (Hne : forall s1 s2, s1 ∈ suffixes -> s2 ∈ suffixes -> o ++ s1 <> n ++ s2).

Lemma rename_moves l : forall d s, (forall x, x ∈ l -> x ∈ suffixes) -> NoDup l -> s ∈ l ->
  let d' := fold_left (fun d suf => tt_rename (o ++ suf) (n ++ suf) d) l d in
  d' !! (o ++ s) = None /\ d' !! (n ++ s) = match d !! (o ++ s) with Some b => Some b | None => d !! (n ++ s) end.
Proof.
  induction l as [|x l IH]; intros d s Hsub Hn Hs; [by apply elem_of_nil in Hs|]. apply NoDup_cons in Hn as [Hx Hn].
  assert (Hxs : x ∈ suffixes) by (apply Hsub; by left).
  assert (Hls : forall y, y ∈ l -> y ∈ suffixes) by (intros y ?; apply Hsub; by right).
  assert (Hdiff : forall y z, y ∈ suffixes -> z ∈ suffixes -> n ++ y <> o ++ z) by (intros y z ?? E; symmetry in E; by apply Hne in E).
  cbn [fold_left]. apply elem_of_cons in Hs as [->|Hsl]; cbv zeta.
  - assert (Hl : forall y, y ∈ l -> y <> x) by (by intros y Hy ->). rewrite !rename_other.
    + unfold tt_rename. destruct (d !! (o ++ x)) eqn:E; [|by rewrite E].
      rewrite lookup_insert_eq, lookup_insert_ne by auto. split; [apply lookup_delete_eq|done].
    + intros s Hs. split; [auto|]. intros E%app_inv_head. by apply (Hl s).
    + intros s Hs. split; [|auto]. intros E%app_inv_head. by apply (Hl s).
  - assert (Hxs' : x <> s) by (by intros ->).
    destruct (IH (tt_rename (o ++ x) (n ++ x) d) s Hls Hn Hsl) as [H1 H2]. split; [done|].
    cbv zeta in H2. rewrite H2. unfold tt_rename. destruct (d !! (o ++ x)); [|done].
    assert (o ++ x <> o ++ s) by (by intros E%app_inv_head). assert (n ++ x <> n ++ s) by (by intros E%app_inv_head).
    rewrite !lookup_insert_ne, !lookup_delete_ne by auto. done.
Qed.
End rename.

Lemma elem_of_files x k : k ∈ files_of x <-> exists suf, suf ∈ suffixes /\ k = (x ++ TOX) ++ suf.
Proof. unfold files_of. rewrite <- suffixes_sidecars, list_elem_of_fmap. naive_solver. Qed.
Lemma profile_file x : x ++ TOX ∈ files_of x.
Proof. apply elem_of_files. exists []. split; [by left|by rewrite app_nil_r]. Qed.
Lemma rename_disjoint x y : x <> y -> forall s1 s2, s1 ∈ suffixes -> s2 ∈ suffixes -> (x ++ TOX) ++ s1 <> (y ++ TOX) ++ s2.
Proof. intros Hne s1 s2 H1 H2 E. by apply suffix_inj in E as [? _]. Qed.

Section dialogs.
Context {R : Directory} {L : DirectoryLaws R}.

(** Confirming the delete dialog removes exactly the seven files of the selected
    profile, changes no other file, and takes the profile off the list. *)
Theorem delete_exact p x :
  delete_open p = true -> selected p = Some x ->
  let p' := pk_delete_ok p in
  (forall k, dir p' !! k = if decide (k ∈ files_of x) then None else dir p !! k) /\
  x ∉ profiles p' /\ (forall y, y <> x -> y ∈ profiles p' <-> is_profile (dir p) y) /\ sel p' = -1.
Proof.
  intros Ho Hs p'. unfold p', pk_delete_ok. rewrite Ho, Hs. cbn [negb].
  assert (Hd : forall k, delete_files (x ++ TOX) (dir p) !! k = if decide (k ∈ files_of x) then None else dir p !! k)
    by (unfold files_of; rewrite <- suffixes_sidecars; apply delete_fold).
  change (dir (pk_refresh ?q)) with (dir q). split_conj; [exact Hd| | |done].
  - change (profiles (pk_refresh ?q)) with (list_profiles (dir q)). rewrite elem_of_profiles. intros ([b Hb] & _).
    change (dir (p <| delete_open := false |> <| dir := ?d |>)) with d in Hb. rewrite Hd, decide_True in Hb by apply profile_file. done.
  - intros y Hy. change (profiles (pk_refresh ?q)) with (list_profiles (dir q)). rewrite elem_of_profiles. unfold is_profile.
    change (dir (p <| delete_open := false |> <| dir := ?d |>)) with d. rewrite Hd, decide_False; [done|].
    intros (suf & Hsuf & E)%elem_of_files. rewrite <- (app_nil_r (y ++ TOX)) in E.
    apply suffix_inj in E as [? _]; [done|by left|done].
Qed.

(** Confirming the rename dialog with a free name moves each of the profile's
    seven files that exists to the new name and touches no other profile's
    files; a sidecar that lay under the new name and has no counterpart stays,
    so the renamed profile inherits it. *)
Theorem rename_exact p x name :
  rename_open p = true -> selected p = Some x ->
  let y := sanitize (cstr name) in
  y <> [] -> y <> x -> dir p !! (y ++ TOX) = None ->
  let p' := pk_rename_ok name p in
  (forall suf, suf ∈ sidecars ->
     dir p' !! ((x ++ TOX) ++ suf) = None /\
     dir p' !! ((y ++ TOX) ++ suf) =
       match dir p !! ((x ++ TOX) ++ suf) with Some b => Some b | None => dir p !! ((y ++ TOX) ++ suf) end) /\
  (forall k, k ∉ files_of x -> k ∉ files_of y -> dir p' !! k = dir p !! k).
Proof.
  intros Ho Hs y Hy Hne Hfree p'. unfold p', pk_rename_ok. rewrite Ho, Hs. cbn [negb]. fold y.
  assert (0 < len y) by (destruct y; [done|rewrite len_cons; pose proof (len_nonneg y); lia]).
  replace (len y =? 0) with false by lia.
  replace (bytes_eqb (x ++ TOX) (y ++ TOX)) with false
    by (symmetry; apply not_true_iff_false; intros E%bytes_eqb_eq%app_inv_tail; congruence).
  rewrite bool_decide_false by (rewrite Hfree; by intros [? ?]). change (dir (pk_refresh ?q)) with (dir q).
  change (dir (p <| rename_open := false |> <| dir := ?d |>)) with d. rewrite <- suffixes_sidecars. unfold rename_files. split.
  - intros suf Hsuf. apply rename_moves; [by apply rename_disjoint|done|apply suffixes_nodup|done].
  - intros k Hx Hky. apply rename_other. intros s Hsuf. split; intros ->; [apply Hx|apply Hky]; apply elem_of_files; by exists s.
Qed.

(** Confirming the new-profile dialog changes no file, and what it returns is a
    free name of letters, digits, dots, underscores and hyphens, at most 255
    characters before the suffix; a name that is taken or has none of these
    characters leaves the dialog open. *)
Theorem new_profile_fresh p name :
  new_open p = true -> result p = None -> pk_done p = false ->
  let p' := pk_new_ok name p in
  dir p' = dir p /\
  ((p' = p /\ (sanitize (cstr name) = [] \/ is_Some (dir p !! (sanitize (cstr name) ++ TOX)))) \/
   exists clean, result p' = Some (clean ++ TOX) /\ pk_done p' = true /\ dir p !! (clean ++ TOX) = None /\
     0 < len clean <= 255 /\ Forall (fun c => name_char c = true) clean).
Proof.
  intros Ho Hr Hd p'. unfold p', pk_new_ok. rewrite Ho. cbn [negb]. set (clean := sanitize (cstr name)).
  destruct (len clean =? 0) eqn:E; [split; [done|left]; split; [done|left; apply len_0_nil; lia]|].
  case_bool_decide as Hx; [split; [done|left]; split; [done|by right]|].
  split; [done|]. right. exists clean. split_conj; [done|done| | | |].
  - by apply eq_None_not_Some.
  - pose proof (len_nonneg clean). lia.
  - unfold clean, sanitize, ztake, len. rewrite length_take. lia.
  - unfold clean, sanitize, ztake. apply Forall_take, Forall_forall. intros c Hc. by apply list_elem_of_filter in Hc as [? _].
Qed.

(** The dialogs do not remember whom they ask about: after opening the delete
    dialog for one profile, selecting another and confirming, the other
    profile's files are gone and the first profile's are untouched. *)
Theorem delete_hits_selection p r1 r2 x1 x2 :
  delete_open p = false -> selected (pk_select r1 p) = Some x1 -> selected (pk_select r2 p) = Some x2 -> x1 <> x2 ->
  let p' := pk_delete_ok (pk_select r2 (pk_delete_open (pk_select r1 p))) in
  (forall k, k ∈ files_of x1 -> dir p' !! k = dir p !! k) /\ (forall k, k ∈ files_of x2 -> dir p' !! k = None).
Proof.
  intros Ho H1 H2 Hne p'. set (p1 := pk_select r2 (pk_delete_open (pk_select r1 p))).
  assert (Hp1 : delete_open p1 = true /\ selected p1 = Some x2 /\ dir p1 = dir p).
  { unfold p1, pk_delete_open. change (delete_open (pk_select r1 p)) with (delete_open p). by rewrite Ho, H1. }
  destruct Hp1 as (Hd & Hs & Hdir).
  assert (Hk : forall k, dir p' !! k = if decide (k ∈ files_of x2) then None else dir p !! k).
  { intros k. unfold p'. fold p1. unfold pk_delete_ok. rewrite Hd, Hs, <- Hdir. unfold files_of. rewrite <- suffixes_sidecars. apply delete_fold. }
  split; intros k Hin; rewrite Hk; [|by rewrite decide_True].
  rewrite decide_False; [done|]. intros (s2 & Hs2 & E)%elem_of_files. apply elem_of_files in Hin as (s1 & Hs1 & ->).
  by apply suffix_inj in E as [? _].
Qed.
End dialogs.

(** A profile called [a.new] can be created, but is never listed. *)
Lemma new_profile_hidden :
  sanitize (ascii_bytes "a.new") = ascii_bytes "a.new" /\ profile_name (ascii_bytes "a.new" ++ TOX) = None.
Proof. split; reflexivity. Qed.

(** ** Examples *)

Definition sample_directory : Directory := {| readdir d := (map_to_list d).*1 |}.
Lemma sample_directory_laws : DirectoryLaws sample_directory.
Proof. by split. Qed.
#[local] Existing Instance sample_directory.

(** Two profiles, the first with a queue, and a stale sidecar of a third. *)
Definition sample_dir : gmap bytes bytes :=
  list_to_map [(ascii_bytes "bob.tox", [1]); (ascii_bytes "al.tox", [2]); (ascii_bytes "al.tox.oq", [3]); (ascii_bytes "zed.tox.ses", [4])].
Definition sample_picker : Picker := tt_profile_picker sample_dir.

Lemma sample_list : profiles sample_picker = [ascii_bytes "al"; ascii_bytes "bob"].
Proof. vm_compute. reflexivity. Qed.

Lemma delete_exact_witness :
  let p := pk_delete_open (pk_select [48] sample_picker) in
  selected p = Some (ascii_bytes "al") /\
  dir (pk_delete_ok p) !! ascii_bytes "al.tox.oq" = None.
Proof.
  intros p. split; [vm_compute; reflexivity|].
  rewrite (proj1 (delete_exact (L := sample_directory_laws) p (ascii_bytes "al") eq_refl eq_refl)). vm_compute. reflexivity.
Defined.

Lemma rename_exact_witness :
  let p := pk_rename_open (pk_select [48] sample_picker) in
  let p' := pk_rename_ok (ascii_bytes "zed") p in
  dir p' !! ((ascii_bytes "al" ++ TOX) ++ ascii_bytes ".oq") = None /\
  dir p' !! ((ascii_bytes "zed" ++ TOX) ++ ascii_bytes ".oq") = dir p !! ((ascii_bytes "al" ++ TOX) ++ ascii_bytes ".oq").
Proof.
  intros p p'.
  apply (proj1 (rename_exact p (ascii_bytes "al") (ascii_bytes "zed") eq_refl eq_refl ltac:(discriminate) ltac:(discriminate) eq_refl)).
  right. left.
Defined.

Lemma new_profile_fresh_witness :
  let p := pk_new_open sample_picker in
  dir (pk_new_ok (ascii_bytes "al/x") p) = dir p.
Proof. intros p. apply (new_profile_fresh p (ascii_bytes "al/x")); reflexivity. Defined.

Lemma delete_hits_selection_witness :
  let p' := pk_delete_ok (pk_select [49] (pk_delete_open (pk_select [48] sample_picker))) in
  (forall k, k ∈ files_of (ascii_bytes "al") -> dir p' !! k = dir sample_picker !! k) /\
  (forall k, k ∈ files_of (ascii_bytes "bob") -> dir p' !! k = None).
Proof. apply delete_hits_selection; [reflexivity|vm_compute; reflexivity|vm_compute; reflexivity|discriminate]. Defined.

Lemma profile_list_exact_witness :
  NoDup (list_profiles sample_dir) /\
  forall l, StronglySorted name_le l -> NoDup l -> (forall x, x ∈ l <-> is_profile sample_dir x) -> l = list_profiles sample_dir.
Proof. split; apply (profile_list_exact (L := sample_directory_laws) sample_dir). Defined.
