(* ===== verification/TunnelLink.v ===== *)
(** * TunnelLink: what the tunnel stands on ([tunnel.c], [tox_thread.c])

    Custom packets to a friend, the tunnel's own E2EE sessions over them, and
    sockets.  The state is a record threaded by the state monad: the sessions
    ([None] when E2EE is off), the random generator, a counter of environment
    calls and the trace of what was done.  What toxcore and the sockets answer
    are oracles of the class [TunnelEnv], indexed by the call's number. *)
From S2P Require Import Prelude StateM Crypto Frame Session.

Definition TOX_MAX_CUSTOM_PACKET_SIZE : Z := 1373.
Definition TT_TUNNEL_PACKET_ID : Z := 200.
Definition TT_TUNNEL_VERSION : Z := 1.
Definition TT_TUNNEL_HEADER : Z := 3.
Definition TT_TUNNEL_MAX_DATAGRAM : Z := TOX_MAX_CUSTOM_PACKET_SIZE - TT_TUNNEL_HEADER.
Definition TT_TUNNEL_TCP_PACKET_ID : Z := 162.
Definition TT_TUNNEL_TCP_VERSION : Z := 1.
Definition TT_TUNNEL_TCP_HEADER : Z := 6.
Definition TT_TUNNEL_TCP_MAX_PAYLOAD : Z := TOX_MAX_CUSTOM_PACKET_SIZE - TT_TUNNEL_TCP_HEADER.
Definition TT_TUNNEL_SIG_PACKET_ID : Z := 163.
Definition TT_TUNNEL_SIG_VERSION : Z := 1.
Definition TT_TUNNEL_SIG_HEADER : Z := 3.
Definition TT_TUNNEL_E2EE_SIG_PACKET_ID : Z := 164.
Definition TT_TUNNEL_E2EE_TCP_PACKET_ID : Z := 165.
Definition TT_TUNNEL_E2EE_UDP_PACKET_ID : Z := 201.
Definition TT_TUNNEL_E2EE_VERSION : Z := 1.
Definition TT_TUNNEL_E2EE_ROUTING_HDR : Z := 2.
Definition TT_TUNNEL_E2EE_FRAME_MAX : Z := TOX_MAX_CUSTOM_PACKET_SIZE - TT_TUNNEL_E2EE_ROUTING_HDR.
Definition TT_TUNNEL_E2EE_DATA_MAX : Z := TT_TUNNEL_E2EE_FRAME_MAX - TT_FRAME_HEAD_MAX - TT_MAC16.
Definition TT_TUNNEL_E2EE_MAX_DATAGRAM : Z := TT_TUNNEL_E2EE_DATA_MAX - TT_TUNNEL_HEADER.
Definition TT_TUNNEL_E2EE_TCP_MAX_PAYLOAD : Z := TT_TUNNEL_E2EE_DATA_MAX - TT_TUNNEL_TCP_HEADER.

(** ** The environment *)

(** Answers of [tox_friend_send_lossless_packet] and [.._lossy_packet]. *)
Inductive tox_answer := AnsOk | AnsSendq | AnsNotConnected | AnsOther.

Inductive recv_result := RecvData (b : bytes) | RecvEof | RecvAgain | RecvError.
Inductive connect_result := ConnectOk | ConnectInProgress | ConnectFailed.

Class TunnelEnv := {
  packet_answer : nat -> tox_answer;
  sock_recv : nat -> Z -> Z -> recv_result;   (** call, socket, capacity *)
  sock_new : nat -> option Z;                 (** [tt_socket] *)
  sock_connect : nat -> Z -> connect_result;
  sock_error : nat -> Z -> option bool;       (** [SO_ERROR]: [None] when it cannot be read, else no error *)
  sock_accept : nat -> Z -> option Z;
  resolve : bytes -> Z -> option bytes;       (** host, port: the address *)
  bind_local : nat -> Z -> Z -> option Z;     (** loopback octet, port *)
  friend_env : Z -> TTE2EEEnv;                (** [e2ee_env] *)
  friend_by_pk : bytes -> option Z;           (** [tox_friend_by_public_key] *)
}.

(** [recv] never returns more than asked for, nor an empty chunk. *)
Class TunnelEnvLaws (E : TunnelEnv) : Prop :=
  sock_recv_len k fd cap b : 0 < cap -> sock_recv k fd cap = RecvData b -> 0 < len b <= cap.

Inductive net_event :=
| Packet (lossy : bool) (fn : Z) (b : bytes) (a : tox_answer)
| SockRead (fd : Z) (b : bytes)
| SockSend (fd : Z) (b : bytes)
| SockSendto (fd : Z) (addr b : bytes)
| SockClose (fd : Z).

Section link.
Context {P : Prims} {E : TunnelEnv}.

Record link := mkLink {
  tun_e2ee : option (list TTSession);
  lrng : Rng;
  calls : nat;
  trace : list net_event;
}.
#[export] Instance eta_link : EtaRecord link := fun l => mkLink (tun_e2ee l) (lrng l) (calls l) (trace l).

Definition event (e : net_event) : M link unit := modify (fun l => l <| trace := trace l ++ [e] |>).
(** Number the next environment call. *)
Definition tick_call : M link nat := fun l => (calls l, l <| calls := S (calls l) |>).
Definition ask {A} (f : nat -> A) : M link A := let* k := tick_call in pure (f k).

Definition send_packet (lossy : bool) (fn : Z) (pkt : bytes) : M link tox_answer :=
  let* a := ask packet_answer in
  do* event (Packet lossy fn pkt a) in
  pure a.

Definition tt_close (fd : Z) : M link unit := event (SockClose fd).

Definition e2ee_on : M link bool := get (fun l => bool_decide (is_Some (tun_e2ee l))).
Definition session_of (l : link) (fn : Z) : TTSession :=
  match tun_e2ee l with
  | Some ss => default tt_session_init (ss !! Z.to_nat fn)
  | None => tt_session_init
  end.
Definition set_session (fn : Z) (s : TTSession) (rng : Rng) (l : link) : link :=
  l <| tun_e2ee := (fun ss => <[Z.to_nat fn := s]> ss) <$> tun_e2ee l |> <| lrng := rng |>.
(** A session operation on the tunnel session of [fn]. *)
Definition on_session {A} (fn : Z) (op : TTSession -> Rng -> A * TTSession * Rng) : M link A := fun l =>
  let '(a, s, rng) := op (session_of l fn) (lrng l) in (a, set_session fn s rng l).

(** ** Frames over custom packets ([tox_thread.c]) *)

Inductive frame_kind := KindHandshake | KindUdp | KindTcp.

Definition kind_id (k : frame_kind) : Z :=
  match k with
  | KindHandshake => TT_TUNNEL_E2EE_SIG_PACKET_ID
  | KindUdp => TT_TUNNEL_E2EE_UDP_PACKET_ID
  | KindTcp => TT_TUNNEL_E2EE_TCP_PACKET_ID
  end.

(** True when toxcore took the frame (return value 0). *)
Definition tt_tunnel_e2ee_send (fn : Z) (kind : frame_kind) (frame : bytes) : M link bool :=
  if TT_TUNNEL_E2EE_FRAME_MAX <? len frame then pure false else
  let* a := send_packet (match kind with KindUdp => true | _ => false end) fn
              ([kind_id kind; TT_TUNNEL_E2EE_VERSION] ++ frame) in
  pure (match a with AnsOk => true | _ => false end).

Definition tt_tunnel_e2ee_start (fn now : Z) : M link unit :=
  let* on := e2ee_on in
  if negb on then pure tt else
  match peer_pk (friend_env fn) with
  | None => pure tt
  | Some _ =>
      let* r := on_session fn (fun s rng => tt_session_start s (friend_env fn) now TT_FRAME_MAX rng) in
      match r with
      | Bytes (_ :: _ as out) => do* tt_tunnel_e2ee_send fn KindHandshake out in pure tt
      | _ => pure tt
      end
  end.

Definition tick_friend (now : Z) (fn : nat) : M link unit :=
  let fn := Z.of_nat fn in
  match peer_pk (friend_env fn) with
  | None => pure tt
  | Some _ =>
      let* r := on_session fn (fun s rng => tt_session_tick s (friend_env fn) now TT_FRAME_MAX rng) in
      match r with
      | Bytes (_ :: _ as out) => do* tt_tunnel_e2ee_send fn KindHandshake out in pure tt
      | _ => pure tt
      end
  end.

Definition tt_tunnel_e2ee_tick (now : Z) : M link unit :=
  let* on := e2ee_on in
  if negb on then pure tt
  else do_each (tick_friend now) (List.seq 0 (Z.to_nat TT_MAX_FRIENDS)).

(** The plaintext, [Bytes []] for a consumed frame, or the refusal. *)
Definition tt_tunnel_e2ee_rx (fn : Z) (frame : bytes) (pt_cap : Z) (lossy : bool) (now : Z) : M link ret :=
  let* on := e2ee_on in
  if negb on || (TT_MAX_FRIENDS <=? fn) then pure (Status TT_E2EE_NO_SESSION) else
  match peer_pk (friend_env fn) with
  | None => pure (Status TT_E2EE_NOKEY)
  | Some _ =>
      let* rh := on_session fn (fun s rng =>
        let '(r, h, s, rng) := tt_session_feed s (friend_env fn) frame pt_cap rng in ((r, h), s, rng)) in
      let '(r, handshaked) := rh in
      if handshaked then
        let* due := get (fun l => reply_due (session_of l fn)) in
        match r with
        | Bytes [] =>
            if due then
              let* rr := on_session fn (fun s rng => tt_session_reply s (friend_env fn) TT_FRAME_MAX rng) in
              match rr with
              | Bytes (_ :: _ as out) =>
                  do* tt_tunnel_e2ee_send fn KindHandshake out in pure (Bytes [])
              | _ => pure (Bytes [])
              end
            else pure (Bytes [])
        | _ => pure (Bytes [])
        end
      else
        match r with
        | Status e =>
            let* s := get (fun l => session_of l fn) in
            if negb lossy && bool_decide (e = TT_E2EE_DECODE_FAIL \/ e = TT_E2EE_REPLAY) && active s
            then do* tt_tunnel_e2ee_start fn now in pure r
            else pure r
        | _ => pure r
        end
  end.

(** ** Re-key carriers ([tunnel.c]) *)

(** The bounded loop of [tunnel_carrier_retry] and [tcp_send_ex]; false when a
    carrier was refused. *)
Fixpoint carrier_loop (n : nat) (fn : Z) : M link bool :=
  match n with
  | O => pure true
  | S n =>
      let* s := get (fun l => session_of l fn) in
      if negb (tt_session_carrier_pending s) && negb (tt_session_rekey_pending s) then pure true else
      let* r := on_session fn (fun s rng => tt_session_carrier s TT_FRAME_MAX rng) in
      match r with
      | Bytes (_ :: _ as c) =>
          let* ok := tt_tunnel_e2ee_send fn KindTcp c in
          if ok then
            do* on_session fn (fun s rng => (tt, tt_session_carrier_done s, rng)) in
            carrier_loop n fn
          else pure false
      | _ => pure true
      end
  end.

Definition tunnel_carrier_retry (fn : Z) : M link bool :=
  let* on := e2ee_on in
  if negb on || (TT_MAX_FRIENDS <=? fn) then pure false else
  let* s := get (fun l => session_of l fn) in
  if negb (active s) then pure false else
  do* carrier_loop 2 fn in
  get (fun l => tt_session_carrier_pending (session_of l fn)).

(** ** Datagrams *)

Definition udp_packet (port_idx : Z) (data : bytes) : bytes :=
  [TT_TUNNEL_PACKET_ID; TT_TUNNEL_VERSION; u8 port_idx] ++ data.

Definition tunnel_send (fn port_idx : Z) (data : bytes) : M link unit :=
  if TT_TUNNEL_MAX_DATAGRAM <? len data then pure tt else
  let* on := e2ee_on in
  if on then
    if TT_TUNNEL_E2EE_MAX_DATAGRAM <? len data then pure tt else
    let* s := get (fun l => session_of l fn) in
    if negb (active s) then pure tt else
    let* parked := tunnel_carrier_retry fn in
    if parked then pure tt else
    let* r := on_session fn (fun s rng => tt_session_send_lossy s (udp_packet port_idx data) TT_FRAME_MAX rng) in
    match r with
    | Bytes (_ :: _ as frame) => do* tt_tunnel_e2ee_send fn KindUdp frame in pure tt
    | _ => pure tt
    end
  else do* send_packet true fn (udp_packet port_idx data) in pure tt.

(** ** TCP frames *)

Inductive send_status := TT_SEND_OK | TT_SENDQ | TT_SEND_FATAL.

Definition tcp_packet (port_idx connid opcode : Z) (payload : bytes) : bytes :=
  [TT_TUNNEL_TCP_PACKET_ID; TT_TUNNEL_TCP_VERSION; u8 port_idx;
   u8 (Z.shiftr connid 8); u8 (Z.land connid 255); opcode] ++ payload.

Definition tcp_send_ex (fn port_idx connid opcode : Z) (payload : bytes) : M link send_status :=
  if TT_TUNNEL_TCP_MAX_PAYLOAD <? len payload then pure TT_SEND_FATAL else
  let* on := e2ee_on in
  if on then
    if TT_TUNNEL_E2EE_TCP_MAX_PAYLOAD <? len payload then pure TT_SEND_FATAL else
    let* s := get (fun l => session_of l fn) in
    if negb (active s) then pure TT_SEND_OK else
    let* ok := carrier_loop 2 fn in
    if negb ok then pure TT_SENDQ else
    let* parked := get (fun l => tt_session_carrier_pending (session_of l fn)) in
    if parked then pure TT_SENDQ else
    let* r := on_session fn (fun s rng =>
      tt_session_send_lossy s (tcp_packet port_idx connid opcode payload) TT_FRAME_MAX rng) in
    match r with
    | Bytes [] => pure TT_SEND_OK
    | Status e => pure (if decide (e = TT_E2EE_CARRIER) then TT_SENDQ else TT_SEND_FATAL)
    | Bytes frame =>
        let* ok := tt_tunnel_e2ee_send fn KindTcp frame in
        pure (if ok then TT_SEND_OK else TT_SENDQ)
    end
  else
    let* a := send_packet false fn (tcp_packet port_idx connid opcode payload) in
    pure (match a with AnsOk => TT_SEND_OK | AnsSendq => TT_SENDQ | _ => TT_SEND_FATAL end).

Definition tcp_send (fn port_idx connid opcode : Z) (payload : bytes) : M link unit :=
  do* tcp_send_ex fn port_idx connid opcode payload in pure tt.
End link.
