(* ===== verification/TunnelConn.v ===== *)
(** * TunnelConn: one forwarded TCP connection ([src/tunnel.c])

    The connection record and the functions on it: buffering, the sender's
    window of unacknowledged DATA frames, the receiver's batched credit, the
    drain of the local socket.  Pointers to a connection become the record taken
    and returned; allocation succeeds. *)
From S2P Require Import Prelude StateM Crypto Frame Session TunnelLink.

Definition TT_TCP_OPEN : Z := 1.
Definition TT_TCP_OPEN_ACK : Z := 2.
Definition TT_TCP_OPEN_FAIL : Z := 3.
Definition TT_TCP_DATA : Z := 4.
Definition TT_TCP_FIN : Z := 5.
Definition TT_TCP_ACK : Z := 6.
Definition TT_TUNNEL_TCP_WINDOW : Z := 16.
Definition TT_TUNNEL_ACK_BATCH : Z := 4.
Definition TT_TUNNEL_PEND_MAX : Z := 131072.

Record TTTunnelConn := mkConn {
  c_used : bool;
  c_fn : Z;
  c_port : Z;
  connid : Z;
  c_sock : Z;         (** -1 = none *)
  connecting : bool;
  peer_gone : bool;
  unacked : Z;
  c_ack_due : Z;
  pend : bytes;
  outbuf : bytes;
}.
#[export] Instance eta_conn : EtaRecord TTTunnelConn := fun c =>
  mkConn (c_used c) (c_fn c) (c_port c) (connid c) (c_sock c) (connecting c) (peer_gone c)
    (unacked c) (c_ack_due c) (pend c) (outbuf c).

(** A slot of the zeroed array, with the socket [tunnel_alloc] sets. *)
Definition free_conn : TTTunnelConn := mkConn false 0 0 0 (-1) false false 0 0 [] [].

Section conn.
Context {P : Prims} {E : TunnelEnv}.

Definition conn_free (c : TTTunnelConn) : M link TTTunnelConn :=
  do* when (0 <=? c_sock c) (tt_close (c_sock c)) in
  pure (c <| pend := [] |> <| outbuf := [] |> <| c_used := false |> <| c_sock := -1 |>
          <| connecting := false |> <| peer_gone := false |> <| unacked := 0 |> <| c_ack_due := 0 |>).

Definition conn_pend (c : TTTunnelConn) (data : bytes) : TTTunnelConn :=
  if TT_TUNNEL_PEND_MAX <? len (pend c) + len data then c else c <| pend := pend c ++ data |>.

Definition conn_send (c : TTTunnelConn) (opcode : Z) (payload : bytes) : M link unit :=
  tcp_send (c_fn c) (c_port c) (connid c) opcode payload.

Definition conn_read_max : M link Z :=
  let* on := e2ee_on in
  pure (if on then TT_TUNNEL_E2EE_TCP_MAX_PAYLOAD else TT_TUNNEL_TCP_MAX_PAYLOAD).

Definition conn_out_add (c : TTTunnelConn) (data : bytes) : option TTTunnelConn :=
  if TT_TUNNEL_PEND_MAX <? len (outbuf c) + len data then None
  else Some (c <| outbuf := outbuf c ++ data |>).

Inductive flush_status := FlushEmpty | FlushCongested | FlushFatal.

(** Each round raises [unacked], which stops the loop at the window: 17 rounds
    are enough. *)
Definition FLUSH_FUEL : nat := 17.

Fixpoint flush_loop (fuel : nat) (max_read : Z) (c : TTTunnelConn) : M link (flush_status * TTTunnelConn) :=
  match fuel with
  | O => pure (FlushCongested, c)
  | S fuel =>
      if negb (0 <? len (outbuf c)) || negb (unacked c <? TT_TUNNEL_TCP_WINDOW)
      then pure (if len (outbuf c) =? 0 then FlushEmpty else FlushCongested, c) else
      let chunk := if len (outbuf c) <? max_read then len (outbuf c) else max_read in
      let* rc := tcp_send_ex (c_fn c) (c_port c) (connid c) TT_TCP_DATA (ztake chunk (outbuf c)) in
      match rc with
      | TT_SENDQ => pure (FlushCongested, c)
      | TT_SEND_FATAL => pure (FlushFatal, c)
      | TT_SEND_OK =>
          flush_loop fuel max_read
            (c <| unacked := u16 (unacked c + 1) |> <| outbuf := zdrop chunk (outbuf c) |>)
      end
  end.

Definition conn_flush_out (c : TTTunnelConn) : M link (flush_status * TTTunnelConn) :=
  let* max_read := conn_read_max in flush_loop FLUSH_FUEL max_read c.

(** The read loop of [conn_drain_out]; false when the connection must go.  Each
    read is followed by at least one frame or ends the loop: 17 reads are
    enough. *)
Fixpoint drain_loop (fuel : nat) (c : TTTunnelConn) : M link (bool * TTTunnelConn) :=
  match fuel with
  | O => pure (true, c)
  | S fuel =>
      let* max_read := conn_read_max in
      let* r := ask (fun k => sock_recv k (c_sock c) max_read) in
      match r with
      | RecvData b =>
          do* event (SockRead (c_sock c) b) in
          match conn_out_add c b with
          | None => pure (false, c)
          | Some c =>
              let* fc := conn_flush_out c in
              match fc.1 with
              | FlushFatal => pure (false, fc.2)
              | FlushCongested => pure (true, fc.2)
              | FlushEmpty => drain_loop fuel fc.2
              end
          end
      | RecvEof => pure (false, c)
      | RecvAgain => pure (true, c)
      | RecvError => pure (false, c)
      end
  end.

Definition conn_drain_out (c : TTTunnelConn) : M link (bool * TTTunnelConn) :=
  let* fc := conn_flush_out c in
  match fc.1 with
  | FlushFatal => pure (false, fc.2)
  | FlushCongested => pure (true, fc.2)
  | FlushEmpty => drain_loop FLUSH_FUEL fc.2
  end.

Definition conn_return_credit (c : TTTunnelConn) : M link TTTunnelConn :=
  let due := u16 (c_ack_due c + 1) in
  if (TT_TUNNEL_ACK_BATCH <=? due) || (TT_TUNNEL_TCP_WINDOW <=? due) then
    do* conn_send c TT_TCP_ACK [u8 (Z.shiftr due 8); u8 (Z.land due 255)] in
    pure (c <| c_ack_due := 0 |>)
  else pure (c <| c_ack_due := due |>).

(** [payload] is an array of [uint8_t]. *)
Definition conn_take_credit (c : TTTunnelConn) (payload : bytes) : M link TTTunnelConn :=
  let n := if 2 <=? len payload then rd16 (u8 (zat payload 0)) (u8 (zat payload 1)) else 1 in
  let c := c <| unacked := if unacked c <=? n then 0 else u16 (unacked c - n) |> in
  if peer_gone c && (unacked c =? 0) then conn_free c else pure c.

Definition conn_mark_peer_gone (c : TTTunnelConn) : M link TTTunnelConn :=
  if unacked c =? 0 then conn_free c else
  let c := c <| peer_gone := true |> in
  if 0 <=? c_sock c then
    do* tt_close (c_sock c) in pure (c <| c_sock := -1 |>)
  else pure c.
End conn.
