(* ===== verification/Tunnel.v ===== *)
(** * Tunnel: port tunnels between friends ([src/tunnel.c], [tunnel.h])

    The tunnel list, its life cycle (share, invite, accept, decline, stop), the
    allowlist, UDP and TCP forwarding and the poll.  A [struct TTTunnel *] is the
    number of its slot in [t->tunnels]; an allocated tunnel has [used] set, so the
    field is not kept.  [peer] and [peer_set] are one list of options. *)
From S2P Require Import Prelude StateM Slots CText Crypto Frame Session TunnelPorts TunnelLink TunnelConn.

Definition TT_TUNNEL_ALLOW_MAX : nat := 64.
Definition TT_TUNNEL_PENDING_TIMEOUT : Z := 60.
Definition TT_TUNNEL_MAX_CONNS : nat := 64.
Definition TT_TUNNEL_MAX_TUNNELS : nat := 16.
Definition TT_TUN_SIG_INVITE : Z := 1.
Definition TT_TUN_SIG_ACCEPT : Z := 2.
Definition TT_TUN_SIG_DECLINE : Z := 3.
Definition TOX_PUBLIC_KEY_SIZE : Z := 32.

Record TTTunnelAllow := mkAllow { al_used : bool; al_pk : bytes; al_fn : Z }.
Record TTTunnelSock := mkSock { s_used : bool; s_fn : Z; s_port : Z; s_sock : Z; s_srv : bytes }.
#[export] Instance eta_allow : EtaRecord TTTunnelAllow := fun a => mkAllow (al_used a) (al_pk a) (al_fn a).
#[export] Instance eta_sock : EtaRecord TTTunnelSock := fun s =>
  mkSock (s_used s) (s_fn s) (s_port s) (s_sock s) (s_srv s).

Record TTTunnel := mkTunnel {
  t_id : Z;
  t_host : bool;
  t_pending : bool;
  t_pending_since : Z;
  t_e2ee_active : bool;
  t_peer_fn : Z;
  t_peer_pk : bytes;
  server_host : bytes;
  t_udp : TTPortRangeList;
  t_tcp : TTPortRangeList;
  allow : list TTTunnelAllow;
  socks : list TTTunnelSock;
  conns : list TTTunnelConn;
  local_ip : Z;
  listen_sock : list Z;
  tcp_listen_sock : list Z;
  udp_local : TTPortRangeList;
  tcp_local : TTPortRangeList;
  t_peer : list (option bytes);
  next_connid : Z;
}.
#[export] Instance eta_tunnel : EtaRecord TTTunnel := fun t =>
  mkTunnel (t_id t) (t_host t) (t_pending t) (t_pending_since t) (t_e2ee_active t) (t_peer_fn t)
    (t_peer_pk t) (server_host t) (t_udp t) (t_tcp t) (allow t) (socks t) (conns t) (local_ip t)
    (listen_sock t) (tcp_listen_sock t) (udp_local t) (tcp_local t) (t_peer t) (next_connid t).

Definition no_sock : TTTunnelSock := mkSock false 0 0 (-1) [].
Definition N_SOCKS : Z := TT_MAX_FRIENDS * TT_TUNNEL_MAX_PORTS.

(** What [tunnel_alloc] writes. *)
Definition new_tunnel (host : bool) (id : Z) : TTTunnel :=
  mkTunnel id host false 0 false UINT32_MAX (zrep 32 0) [] [] []
    (replicate TT_TUNNEL_ALLOW_MAX (mkAllow false (zrep 32 0) 0))
    (zrep N_SOCKS no_sock) (replicate TT_TUNNEL_MAX_CONNS free_conn) 0
    (zrep TT_TUNNEL_MAX_PORTS (-1)) (zrep TT_TUNNEL_MAX_PORTS (-1)) [] []
    (zrep TT_TUNNEL_MAX_PORTS None) 0.

Inductive tunnel_ui :=
| TuInvite (fn : Z) (host udp tcp : bytes)
| TuState (fn id state : Z)
| TuRemove (id : Z)
| TuAdd (fn id : Z) (host : bool) (endpoint udp tcp : bytes)
| TuBindError (id : Z)
| TuNeverAccepted (id : Z)
| TuE2ee (id : Z) (live : bool).

(** ** Keys ([hex_to_pk]) *)

Definition hexval (c : Z) : Z :=
  if (48 <=? c) && (c <=? 57) then c - 48
  else if (97 <=? c) && (c <=? 102) then c - 97 + 10
  else if (65 <=? c) && (c <=? 70) then c - 65 + 10
  else -1.

Fixpoint hex_bytes (l : bytes) : option bytes :=
  match l with
  | a :: b :: l =>
      if (hexval a <? 0) || (hexval b <? 0) then None
      else match hex_bytes l with
           | Some pk => Some (Z.lor (Z.shiftl (hexval a) 4) (hexval b) :: pk)
           | None => None
           end
  | _ => Some []
  end.

Definition hex_to_pk (hex : bytes) : option bytes :=
  if negb (len (cstr hex) =? TOX_PUBLIC_KEY_SIZE * 2) then None else hex_bytes (cstr hex).

(** ** Signals *)

Definition range_list_bytes (l : TTPortRangeList) : bytes :=
  be16 (len l) ++ concat ((fun r => be16 (start r) ++ be16 (count r)) <$> l).

Definition invite_payload (tn : TTTunnel) : bytes :=
  ztake 200 (server_host tn) ++ [0] ++ range_list_bytes (t_udp tn) ++ range_list_bytes (t_tcp tn).

Definition accept_payload (udp tcp : TTPortRangeList) : bytes :=
  range_list_bytes udp ++ range_list_bytes tcp.

(** Read byte [p] of the payload. *)
Definition sig_at (payload : bytes) (p : Z) : outcome Z :=
  if (p <? 0) || (len payload <=? p) then Oob else Ok (zat payload p).
Definition sig_u16 (payload : bytes) (p : Z) : outcome Z :=
  a ← sig_at payload p; b ← sig_at payload (p + 1); Ok (u16 (rd16 a b)).

Fixpoint sig_ranges (n : nat) (payload : bytes) (p : Z) : outcome (TTPortRangeList * Z) :=
  match n with
  | O => Ok ([], p)
  | S n =>
      if len payload <? p + 4 then Fail else
      st ← sig_u16 payload p;
      ct ← sig_u16 payload (p + 2);
      '(l, p) ← sig_ranges n payload (p + 4);
      Ok (mkRange st ct :: l, p)
  end.

Definition sig_range_list (payload : bytes) (p : Z) : outcome (TTPortRangeList * Z) :=
  n ← sig_u16 payload p;
  sig_ranges (Nat.min (Z.to_nat n) TT_TUNNEL_MAX_RANGES) payload (p + 2).

(** [strnlen] *)
Definition strnlen (l : bytes) (n : Z) : Z := len (cstr (ztake n l)).

Definition parse_invite (payload : bytes) : outcome (bytes * TTPortRangeList * TTPortRangeList) :=
  let plen := len payload in
  if plen <? 3 then Fail else
  let hl := strnlen payload (plen - 2) in
  if hl =? plen - 2 then Fail else
  let host := ztake (if hl <? 255 then hl else 255) payload in
  '(udp, p) ← sig_range_list payload (hl + 1);
  if plen <? p + 2 then Fail else
  '(tcp, _) ← sig_range_list payload p;
  Ok (host, udp, tcp).

Section tunnel.
Context {P : Prims} {E : TunnelEnv}.

Record tunnels := mkTunnels {
  slots : list (option TTTunnel);
  tunnel_seq : Z;
  lk : link;
  tui : list tunnel_ui;
}.
#[export] Instance eta_tunnels : EtaRecord tunnels := fun t => mkTunnels (slots t) (tunnel_seq t) (lk t) (tui t).

Definition lift {A} (m : M link A) : M tunnels A := fun t =>
  let '(a, l) := m (lk t) in (a, t <| lk := l |>).
Definition push_ui (e : tunnel_ui) : M tunnels unit := modify (fun t => t <| tui := tui t ++ [e] |>).

(** ** The tunnel list *)

Definition slot_of (t : tunnels) (i : nat) : option TTTunnel := default None (slots t !! i).
Definition set_slot (i : nat) (tn : option TTTunnel) : M tunnels unit :=
  modify (fun t => t <| slots := <[i := tn]> (slots t) |>).

Definition tunnel_find (id : Z) : M tunnels (option (nat * TTTunnel)) :=
  get (fun t => find_slot (fun tn => t_id tn =? id) 0 (slots t)).
Definition tunnel_by_peer (fn : Z) (host : bool) : M tunnels (option (nat * TTTunnel)) :=
  get (fun t => find_slot (fun tn => Bool.eqb (t_host tn) host && (t_peer_fn tn =? fn)) 0 (slots t)).

(** The slot and the fresh tunnel, already stored. *)
Definition tunnel_alloc (host : bool) : M tunnels (option (nat * TTTunnel)) := fun t =>
  match free_slot 0 (slots t) with
  | None => (None, t)
  | Some i =>
      let id := u32 (tunnel_seq t + 1) in
      let tn := new_tunnel host id in
      (Some (i, tn), t <| slots := <[i := Some tn]> (slots t) |>
                       <| tunnel_seq := if id =? 0 then 1 else id |>)
  end.

Definition close_all (fds : list Z) : M link unit :=
  do_each (fun fd => when (0 <=? fd) (tt_close fd)) fds.

(** A client's connections are not closed. *)
Definition tunnel_free (i : nat) (tn : TTTunnel) : M tunnels unit :=
  do* lift (if t_host tn then
    do* close_all ((fun s => if s_used s then s_sock s else -1) <$> socks tn) in
    close_all ((fun c => if c_used c then c_sock c else -1) <$> conns tn)
  else
    close_all (concat (zip_with (fun a b => [a; b]) (listen_sock tn) (tcp_listen_sock tn)))) in
  set_slot i None.

Definition tunnel_resolve (tn : TTTunnel) : TTTunnel :=
  if negb (t_peer_fn tn =? UINT32_MAX) then tn else
  match friend_by_pk (t_peer_pk tn) with
  | Some fn => tn <| t_peer_fn := fn |>
  | None => tn
  end.

(** ** Signalling *)

Definition sig_send (fn opcode : Z) (payload : bytes) : M link unit :=
  if 270 <? len payload then pure tt else
  do* send_packet false fn ([TT_TUNNEL_SIG_PACKET_ID; TT_TUNNEL_SIG_VERSION; opcode] ++ payload) in
  pure tt.
Definition sig_invite (fn : Z) (tn : TTTunnel) : M link unit :=
  sig_send fn TT_TUN_SIG_INVITE (invite_payload tn).
Definition sig_accept (fn : Z) (udp tcp : TTPortRangeList) : M link unit :=
  sig_send fn TT_TUN_SIG_ACCEPT (accept_payload udp tcp).

Definition ports_text (l : TTPortRangeList) : bytes := (tt_port_list_to_str l 256).1.

(** [None]: a read outside the packet. *)
Definition tunnel_sig_rx (fn : Z) (data : bytes) : M tunnels (option unit) :=
  if len data <? TT_TUNNEL_SIG_HEADER then pure (Some tt) else
  if negb (zat data 0 =? TT_TUNNEL_SIG_PACKET_ID) || negb (zat data 1 =? TT_TUNNEL_SIG_VERSION)
  then pure (Some tt) else
  let opcode := zat data 2 in
  let payload := zdrop TT_TUNNEL_SIG_HEADER data in
  if opcode =? TT_TUN_SIG_INVITE then
    match parse_invite payload with
    | Oob => pure None
    | Fail => pure (Some tt)
    | Ok (host, udp, tcp) =>
        let* old := tunnel_by_peer fn false in
        match old with
        | Some _ => pure (Some tt)
        | None =>
            let* new := tunnel_alloc false in
            match new with
            | None => pure (Some tt)
            | Some (i, tn) =>
                let tn := tn <| t_pending := true |> <| t_peer_fn := fn |> <| server_host := host |>
                             <| t_udp := udp |> <| t_tcp := tcp |> in
                do* set_slot i (Some tn) in
                do* push_ui (TuInvite fn host (ports_text udp) (ports_text tcp)) in
                pure (Some tt)
            end
        end
    end
  else if opcode =? TT_TUN_SIG_ACCEPT then
    if len payload <? 8 then pure (Some tt) else
    let* tn := tunnel_by_peer fn true in
    match tn with
    | Some (i, tn) =>
        if negb (t_pending tn) then pure (Some tt) else
        do* set_slot i (Some (tn <| t_pending := false |>)) in
        do* push_ui (TuState fn (t_id tn) 1) in
        pure (Some tt)
    | None => pure (Some tt)
    end
  else if opcode =? TT_TUN_SIG_DECLINE then
    let* tn := tunnel_by_peer fn true in
    match tn with
    | Some (i, tn) =>
        if negb (t_pending tn) then pure (Some tt) else
        do* push_ui (TuState fn (t_id tn) 2) in
        do* tunnel_free i tn in
        pure (Some tt)
    | None => pure (Some tt)
    end
  else pure (Some tt).

(** ** Local sockets ([bind_client_local]) *)

(** Bind ports [i..] of the list on octet [ip]: the sockets bound so far, and
    whether all were. *)
Fixpoint bind_ports (n : nat) (i : Z) (ip : Z) (l : TTPortRangeList) : M link (list Z * bool) :=
  match n with
  | O => pure ([], true)
  | S n =>
      let* fd := ask (fun k => bind_local k ip (tt_port_list_port l i)) in
      match fd with
      | None => pure ([], false)
      | Some fd =>
          let* rest := bind_ports n (i + 1) ip l in
          pure (fd :: rest.1, rest.2)
      end
  end.

Definition octet_used (slots : list (option TTTunnel)) (ip : Z) : bool :=
  existsb (fun o => match o with
                    | Some o => negb (t_host o) && (local_ip o =? ip)
                    | None => false
                    end) slots.

(** Octets [ip..254].  A failed attempt leaves its closed sockets in the arrays. *)
Fixpoint bind_octets (n : nat) (ip : Z) (slots : list (option TTTunnel)) (tn : TTTunnel)
    : M link (bool * TTTunnel) :=
  match n with
  | O => pure (false, tn)
  | S n =>
      if octet_used slots ip then bind_octets n (ip + 1) slots tn else
      let* u := bind_ports (Z.to_nat (tt_port_list_len (udp_local tn))) 0 ip (udp_local tn) in
      let tn := tn <| listen_sock := overwrite u.1 (listen_sock tn) |> in
      if negb u.2 then do* close_all u.1 in bind_octets n (ip + 1) slots tn else
      let* c := bind_ports (Z.to_nat (tt_port_list_len (tcp_local tn))) 0 ip (tcp_local tn) in
      let tn := tn <| tcp_listen_sock := overwrite c.1 (tcp_listen_sock tn) |> in
      if negb c.2 then do* close_all c.1 in do* close_all u.1 in bind_octets n (ip + 1) slots tn
      else pure (true, tn <| local_ip := ip |>)
  end.

Definition bind_client_local (tn : TTTunnel) : M tunnels (bool * TTTunnel) :=
  let* sl := get slots in lift (bind_octets 253 2 sl tn).

(** ** Starting and stopping *)

Definition c_str256 (s : bytes) : bytes := snprintf_s 256 s.

Definition tt_tunnel_start_host (host : bytes) (udp tcp : TTPortRangeList) : M tunnels Z :=
  let* new := tunnel_alloc true in
  match new with
  | None => pure 0
  | Some (i, tn) =>
      do* set_slot i (Some (tn <| server_host := c_str256 host |> <| t_udp := udp |> <| t_tcp := tcp |>)) in
      pure (t_id tn)
  end.

Definition tt_tunnel_start_client (udp tcp : TTPortRangeList) (host_pk_hex : bytes) : M tunnels Z :=
  let* new := tunnel_alloc false in
  match new with
  | None => pure 0
  | Some (i, tn) =>
      let tn := tn <| next_connid := 1 |> in
      match hex_to_pk host_pk_hex with
      | None => do* tunnel_free i tn in pure 0
      | Some pk =>
          let tn := tn <| t_peer_pk := pk |> <| udp_local := udp |> <| tcp_local := tcp |> in
          let* b := bind_client_local tn in
          if b.1 then do* set_slot i (Some b.2) in pure (t_id tn)
          else do* tunnel_free i b.2 in pure 0
      end
  end.

Definition tt_tunnel_stop (id : Z) : M tunnels unit :=
  let* tn := tunnel_find id in
  match tn with
  | None => pure tt
  | Some (i, tn) => do* push_ui (TuRemove id) in tunnel_free i tn
  end.

Definition free_if_used (i : nat) : M tunnels unit :=
  let* tn := get (fun t => slot_of t i) in
  match tn with Some tn => tunnel_free i tn | None => pure tt end.
Definition tt_tunnel_stop_all : M tunnels unit :=
  do_each free_if_used (List.seq 0 TT_TUNNEL_MAX_TUNNELS).

Definition tt_tunnel_active (t : tunnels) : bool :=
  existsb (fun o => match o with Some _ => true | None => false end) (slots t).

(** ** The allowlist *)

(** The first free entry takes [a]; false when there is none. *)
Fixpoint allow_put (a : TTTunnelAllow) (l : list TTTunnelAllow) : list TTTunnelAllow * bool :=
  match l with
  | [] => ([], false)
  | x :: l => if al_used x then let '(l, ok) := allow_put a l in (x :: l, ok) else (a :: l, true)
  end.

Definition allow_has (pk : bytes) (a : TTTunnelAllow) : bool := al_used a && bytes_eqb (al_pk a) pk.

Definition allow_tunnel (tn : TTTunnel) (pk : bytes) : TTTunnel * bool :=
  if existsb (allow_has pk) (allow tn) then (tn, true) else
  let '(l, ok) := allow_put (mkAllow true pk (default UINT32_MAX (friend_by_pk pk))) (allow tn) in
  (tn <| allow := l |>, ok).

Definition tt_tunnel_allow (id : Z) (pk_hex : bytes) : M tunnels bool :=
  let* f := tunnel_find id in
  match f with
  | None => pure false
  | Some (i, tn) =>
      if negb (t_host tn) then pure false else
      match hex_to_pk pk_hex with
      | None => pure false
      | Some pk =>
          let '(tn, ok) := allow_tunnel tn pk in
          do* set_slot i (Some tn) in pure ok
      end
  end.

Definition allow_in_slot (pk_hex : bytes) (i : nat) : M tunnels unit :=
  let* o := get (fun t => slot_of t i) in
  match o with
  | Some tn => if t_host tn then do* tt_tunnel_allow (t_id tn) pk_hex in pure tt else pure tt
  | None => pure tt
  end.
Definition tt_tunnel_allow_all (pk_hex : bytes) : M tunnels unit :=
  do_each (allow_in_slot pk_hex) (List.seq 0 TT_TUNNEL_MAX_TUNNELS).

(** The first entry with that key, and the list without it. *)
Fixpoint allow_drop (pk : bytes) (l : list TTTunnelAllow) : option (TTTunnelAllow * list TTTunnelAllow) :=
  match l with
  | [] => None
  | a :: l =>
      if allow_has pk a then Some (a, a <| al_used := false |> :: l)
      else match allow_drop pk l with
           | Some (x, l) => Some (x, a :: l)
           | None => None
           end
  end.

Definition sock_at (tn : TTTunnel) (i : Z) : TTTunnelSock := default no_sock (socks tn !! Z.to_nat i).

(** The socket entry closed is number [a->fn], not the friend's own. *)
Definition deny_tunnel (tn : TTTunnel) (pk : bytes) : M link (TTTunnel * bool) :=
  match allow_drop pk (allow tn) with
  | None => pure (tn, false)
  | Some (a, l) =>
      let tn := tn <| allow := l |> in
      if negb (al_fn a =? UINT32_MAX) && (al_fn a <? TT_MAX_FRIENDS) then
        let s := sock_at tn (al_fn a) in
        do* when (s_used s && (0 <=? s_sock s)) (tt_close (s_sock s)) in
        pure (tn <| socks := <[Z.to_nat (al_fn a) := s <| s_used := false |> <| s_sock := -1 |>]> (socks tn) |>, true)
      else pure (tn, true)
  end.

Definition tt_tunnel_deny (id : Z) (pk_hex : bytes) : M tunnels bool :=
  let* f := tunnel_find id in
  match f with
  | None => pure false
  | Some (i, tn) =>
      if negb (t_host tn) then pure false else
      match hex_to_pk pk_hex with
      | None => pure false
      | Some pk =>
          let* r := lift (deny_tunnel tn pk) in
          do* set_slot i (Some r.1) in pure r.2
      end
  end.

(** ** UDP forwarding *)

Definition sock_index (fn port_idx : Z) : Z := fn * TT_TUNNEL_MAX_PORTS + port_idx.

Definition host_sock (tn : TTTunnel) (fn port_idx : Z) : M link (TTTunnel * option Z) :=
  if (TT_MAX_FRIENDS <=? fn) || (tt_port_list_len (t_udp tn) <=? port_idx) then pure (tn, None) else
  let s := sock_at tn (sock_index fn port_idx) in
  if s_used s then pure (tn, if s_sock s <? 0 then None else Some (s_sock s)) else
  let* fd := ask sock_new in
  match fd with
  | None => pure (tn, None)
  | Some fd =>
      match resolve (server_host tn) (tt_port_list_port (t_udp tn) port_idx) with
      | None => do* tt_close fd in pure (tn, None)
      | Some srv =>
          pure (tn <| socks := <[Z.to_nat (sock_index fn port_idx) := mkSock true fn port_idx fd srv]> (socks tn) |>,
                Some fd)
      end
  end.

Definition host_forward (tn : TTTunnel) (fn port_idx : Z) (data : bytes) : M link TTTunnel :=
  if TT_MAX_FRIENDS <=? fn then pure tn else
  if negb (existsb (fun a => al_used a && (al_fn a =? fn)) (allow tn)) then pure tn else
  let* r := host_sock tn fn port_idx in
  match r.2 with
  | None => pure r.1
  | Some fd =>
      do* event (SockSendto fd (s_srv (sock_at r.1 (sock_index fn port_idx))) data) in
      pure r.1
  end.

Definition fd_at (l : list Z) (i : Z) : Z := default (-1) (l !! Z.to_nat i).

Definition rx_slot (fn port_idx : Z) (payload : bytes) (i : nat) : M tunnels unit :=
  let* o := get (fun t => slot_of t i) in
  match o with
  | None => pure tt
  | Some tn =>
      if t_pending tn then pure tt else
      if t_host tn then
        let* tn := lift (host_forward tn fn port_idx payload) in set_slot i (Some tn)
      else if (fn =? t_peer_fn tn) && (port_idx <? tt_port_list_len (udp_local tn)) &&
              (0 <=? fd_at (listen_sock tn) port_idx) then
        match default None (t_peer tn !! Z.to_nat port_idx) with
        | Some addr => lift (event (SockSendto (fd_at (listen_sock tn) port_idx) addr payload))
        | None => pure tt
        end
      else pure tt
  end.

Definition tt_tunnel_rx (fn : Z) (data : bytes) : M tunnels unit :=
  if len data <? TT_TUNNEL_HEADER then pure tt else
  if negb (zat data 0 =? TT_TUNNEL_PACKET_ID) || negb (zat data 1 =? TT_TUNNEL_VERSION) then pure tt else
  do_each (rx_slot fn (zat data 2) (zdrop TT_TUNNEL_HEADER data)) (List.seq 0 TT_TUNNEL_MAX_TUNNELS).

(** ** TCP forwarding *)

Fixpoint conn_index (p : TTTunnelConn -> bool) (i : nat) (l : list TTTunnelConn) : option nat :=
  match l with
  | [] => None
  | c :: l => if p c then Some i else conn_index p (S i) l
  end.
Definition conn_at (tn : TTTunnel) (i : nat) : TTTunnelConn := default free_conn (conns tn !! i).
Definition conn_set (tn : TTTunnel) (i : nat) (c : TTTunnelConn) : TTTunnel :=
  tn <| conns := <[i := c]> (conns tn) |>.

Definition conn_find (tn : TTTunnel) (fn id : Z) : option nat :=
  conn_index (fun c => c_used c && (c_fn c =? fn) && (connid c =? id)) 0 (conns tn).
(** The free slot and what is left in it by [conn_alloc]. *)
Definition conn_alloc (tn : TTTunnel) : option (nat * TTTunnelConn) :=
  match conn_index (fun c => negb (c_used c)) 0 (conns tn) with
  | None => None
  | Some i => Some (i, (conn_at tn i) <| c_used := true |> <| c_sock := -1 |> <| connecting := false |>
                         <| peer_gone := false |> <| unacked := 0 |> <| c_ack_due := 0 |>)
  end.

Definition host_open_conn (tn : TTTunnel) (fn port_idx id : Z) : M link TTTunnel :=
  match conn_find tn fn id with
  | Some _ => pure tn
  | None =>
      match conn_alloc tn with
      | None => do* tcp_send fn port_idx id TT_TCP_OPEN_FAIL [] in pure tn
      | Some (i, c) =>
          let c := c <| c_fn := fn |> <| c_port := port_idx |> <| connid := id |> in
          let fail (c : TTTunnelConn) :=
            let* c := conn_free c in
            do* tcp_send fn port_idx id TT_TCP_OPEN_FAIL [] in
            pure (conn_set tn i c) in
          let* fd := ask sock_new in
          match fd with
          | None => fail c
          | Some fd =>
              let c := c <| c_sock := fd |> in
              let addr := if tt_port_list_len (t_tcp tn) <=? port_idx then None
                          else resolve (server_host tn) (tt_port_list_port (t_tcp tn) port_idx) in
              match addr with
              | None => fail c
              | Some _ =>
                  let* rc := ask (fun k => sock_connect k fd) in
                  match rc with
                  | ConnectOk =>
                      do* tcp_send fn port_idx id TT_TCP_OPEN_ACK [] in pure (conn_set tn i c)
                  | ConnectInProgress => pure (conn_set tn i (c <| connecting := true |>))
                  | ConnectFailed => fail c
                  end
              end
          end
      end
  end.

(** ** Polling *)

Definition poll_sock (s : TTTunnelSock) : M link unit :=
  if negb (s_used s) || (s_sock s <? 0) then pure tt else
  let* r := ask (fun k => sock_recv k (s_sock s) TT_TUNNEL_MAX_DATAGRAM) in
  match r with
  | RecvData b => tunnel_send (s_fn s) (s_port s) b
  | _ => pure tt
  end.

(** Drain an open connection; on failure FIN and free. *)
Definition drain_or_fin (c : TTTunnelConn) : M link TTTunnelConn :=
  let* r := conn_drain_out c in
  if r.1 then pure r.2 else do* conn_send r.2 TT_TCP_FIN [] in conn_free r.2.

Definition poll_host_conn (c : TTTunnelConn) : M link TTTunnelConn :=
  if negb (c_used c) then pure c else
  let drain (c : TTTunnelConn) :=
    if c_used c && (0 <=? c_sock c) then drain_or_fin c else pure c in
  if connecting c then
    let* err := ask (fun k => sock_error k (c_sock c)) in
    match err with
    | None => drain c
    | Some true =>
        let c := c <| connecting := false |> in
        do* conn_send c TT_TCP_OPEN_ACK [] in
        do* when (0 <? len (pend c)) (event (SockSend (c_sock c) (pend c))) in
        drain (c <| pend := [] |>)
    | Some false =>
        let* c := conn_free c in
        do* conn_send c TT_TCP_OPEN_FAIL [] in pure c
    end
  else drain c.

Definition retry_conn (c : TTTunnelConn) : M link TTTunnelConn :=
  if c_used c && (0 <=? c_sock c) && (0 <? len (outbuf c)) then drain_or_fin c else pure c.

Definition tunnel_poll_host (tn : TTTunnel) : M link TTTunnel :=
  do* do_each poll_sock (socks tn) in
  let* cs := map_m poll_host_conn (conns tn) in
  let* on := e2ee_on in
  let* cs := (if on then map_m retry_conn cs else pure cs) in
  pure (tn <| conns := cs |>).

(** One local UDP port of a client: the sender of the first datagram is kept. *)
Definition poll_listen (tn : TTTunnel) (from : nat -> bytes) (i : nat) : M link TTTunnel :=
  let fd := fd_at (listen_sock tn) (Z.of_nat i) in
  if fd <? 0 then pure tn else
  let* kr := ask (fun k => (k, sock_recv k fd TT_TUNNEL_MAX_DATAGRAM)) in
  match kr.2 with
  | RecvData b =>
      let tn := match default None (t_peer tn !! i) with
                | Some _ => tn
                | None => tn <| t_peer := <[i := Some (from kr.1)]> (t_peer tn) |>
                end in
      do* tunnel_send (t_peer_fn tn) (Z.of_nat i) b in pure tn
  | _ => pure tn
  end.

Fixpoint poll_listens (n : nat) (from : nat -> bytes) (i : nat) (tn : TTTunnel) : M link TTTunnel :=
  match n with
  | O => pure tn
  | S n => let* tn := poll_listen tn from i in poll_listens n from (S i) tn
  end.

(** The accept loop of one port: every round takes a slot, or ends it. *)
Fixpoint accept_loop (fuel : nat) (fd : Z) (port_idx : Z) (tn : TTTunnel) : M link TTTunnel :=
  match fuel with
  | O => pure tn
  | S fuel =>
      let* new := ask (fun k => sock_accept k fd) in
      match new with
      | None => pure tn
      | Some new =>
          match conn_alloc tn with
          | None => do* tt_close new in pure tn
          | Some (i, c) =>
              let id := next_connid tn in
              let c := c <| c_fn := t_peer_fn tn |> <| c_port := port_idx |> <| connid := id |> <| c_sock := new |> in
              let next := u16 (id + 1) in
              do* conn_send c TT_TCP_OPEN [] in
              accept_loop fuel fd port_idx
                ((conn_set tn i c) <| next_connid := if next =? 0 then 1 else next |>)
          end
      end
  end.

Fixpoint accept_ports (n : nat) (i : Z) (tn : TTTunnel) : M link TTTunnel :=
  match n with
  | O => pure tn
  | S n =>
      let fd := fd_at (tcp_listen_sock tn) i in
      let* tn := (if fd <? 0 then pure tn else accept_loop (S TT_TUNNEL_MAX_CONNS) fd i tn) in
      accept_ports n (i + 1) tn
  end.

Definition poll_client_conn (c : TTTunnelConn) : M link TTTunnelConn :=
  if negb (c_used c) || (c_sock c <? 0) then pure c else drain_or_fin c.

(** [from] names the address [recvfrom] reports at a call. *)
Definition tunnel_poll_client (from : nat -> bytes) (tn : TTTunnel) : M link TTTunnel :=
  let* tn := (if t_peer_fn tn =? UINT32_MAX then pure tn
              else poll_listens (Z.to_nat (tt_port_list_len (udp_local tn))) from 0 tn) in
  let* tn := accept_ports (Z.to_nat (tt_port_list_len (tcp_local tn))) 0 tn in
  let* cs := map_m poll_client_conn (conns tn) in
  let* cs := map_m retry_conn cs in
  pure (tn <| conns := cs |>).

(** The E2EE part of the poll: start the handshake, report a change. *)
Definition poll_e2ee (tn : TTTunnel) (now : Z) : M tunnels TTTunnel :=
  let* on := lift e2ee_on in
  if negb on || (t_peer_fn tn =? UINT32_MAX) then pure tn else
  let* ts := get (fun t => session_of (lk t) (t_peer_fn tn)) in
  do* (if negb (active ts) && negb (init_pending ts) && negb (reply_due ts)
       then lift (tt_tunnel_e2ee_start (t_peer_fn tn) now) else pure tt) in
  let* live := get (fun t => active (session_of (lk t) (t_peer_fn tn))) in
  if Bool.eqb live (t_e2ee_active tn) then pure tn else
  do* push_ui (TuE2ee (t_id tn) live) in pure (tn <| t_e2ee_active := live |>).

Definition poll_slot (from : nat -> bytes) (now : Z) (i : nat) : M tunnels unit :=
  let* o := get (fun t => slot_of t i) in
  match o with
  | None => pure tt
  | Some tn =>
      if t_pending tn && t_host tn && negb (t_pending_since tn =? 0) &&
         (TT_TUNNEL_PENDING_TIMEOUT <=? now - t_pending_since tn)
      then do* push_ui (TuNeverAccepted (t_id tn)) in tunnel_free i tn else
      if t_pending tn then pure tt else
      let* tn := poll_e2ee (tunnel_resolve tn) now in
      let* tn := lift (if t_host tn then tunnel_poll_host tn else tunnel_poll_client from tn) in
      do* lift (if negb (t_peer_fn tn =? UINT32_MAX)
                then do* tunnel_carrier_retry (t_peer_fn tn) in pure tt else pure tt) in
      set_slot i (Some tn)
  end.

Definition tt_tunnel_poll (from : nat -> bytes) (now : Z) : M tunnels unit :=
  do_each (poll_slot from now) (List.seq 0 TT_TUNNEL_MAX_TUNNELS).

(** ** Receiving TCP frames *)

(** Run [f] on the connection ([fn], [id]), if there is one. *)
Definition with_conn (tn : TTTunnel) (fn id : Z) (f : TTTunnelConn -> M link TTTunnelConn) : M link TTTunnel :=
  match conn_find tn fn id with
  | None => pure tn
  | Some i => let* c := f (conn_at tn i) in pure (conn_set tn i c)
  end.

Definition rx_data_host (payload : bytes) (c : TTTunnelConn) : M link TTTunnelConn :=
  let c' := if connecting c then conn_pend c payload else c in
  do* when (negb (connecting c) && (0 <=? c_sock c)) (event (SockSend (c_sock c) payload)) in
  conn_return_credit c'.

Definition rx_data_client (payload : bytes) (c : TTTunnelConn) : M link TTTunnelConn :=
  if 0 <=? c_sock c then
    do* event (SockSend (c_sock c) payload) in conn_return_credit c
  else pure c.

Definition tunnel_tcp_rx_host (tn : TTTunnel) (fn port_idx id opcode : Z) (payload : bytes) : M link TTTunnel :=
  if opcode =? TT_TCP_OPEN then host_open_conn tn fn port_idx id
  else if opcode =? TT_TCP_DATA then with_conn tn fn id (rx_data_host payload)
  else if opcode =? TT_TCP_ACK then with_conn tn fn id (fun c => conn_take_credit c payload)
  else if opcode =? TT_TCP_FIN then with_conn tn fn id conn_mark_peer_gone
  else pure tn.

Definition tunnel_tcp_rx_client (tn : TTTunnel) (fn port_idx id opcode : Z) (payload : bytes) : M link TTTunnel :=
  if tt_port_list_len (tcp_local tn) <=? port_idx then pure tn
  else if opcode =? TT_TCP_OPEN_FAIL then with_conn tn fn id conn_free
  else if opcode =? TT_TCP_DATA then with_conn tn fn id (rx_data_client payload)
  else if opcode =? TT_TCP_ACK then with_conn tn fn id (fun c => conn_take_credit c payload)
  else if opcode =? TT_TCP_FIN then with_conn tn fn id conn_mark_peer_gone
  else pure tn.

Definition rx_tcp_slot (fn port_idx id opcode : Z) (payload : bytes) (i : nat) : M tunnels unit :=
  let* o := get (fun t => slot_of t i) in
  match o with
  | None => pure tt
  | Some tn =>
      if t_pending tn then pure tt else
      if t_host tn then
        let* tn := lift (tunnel_tcp_rx_host tn fn port_idx id opcode payload) in set_slot i (Some tn)
      else if fn =? t_peer_fn tn then
        let* tn := lift (tunnel_tcp_rx_client tn fn port_idx id opcode payload) in set_slot i (Some tn)
      else pure tt
  end.

Definition tt_tunnel_rx_tcp (fn : Z) (data : bytes) : M tunnels (option unit) :=
  if len data <? 1 then pure (Some tt) else
  if zat data 0 =? TT_TUNNEL_SIG_PACKET_ID then tunnel_sig_rx fn data else
  if negb (zat data 0 =? TT_TUNNEL_TCP_PACKET_ID) || (len data <? TT_TUNNEL_TCP_HEADER) ||
     negb (zat data 1 =? TT_TUNNEL_TCP_VERSION) then pure (Some tt) else
  do* do_each (rx_tcp_slot fn (zat data 2) (rd16 (zat data 3) (zat data 4)) (zat data 5)
               (zdrop TT_TUNNEL_TCP_HEADER data)) (List.seq 0 TT_TUNNEL_MAX_TUNNELS) in
  pure (Some tt).

(** ** Packets from toxcore ([tox_thread.c]) *)

(** The tunnel part of [cb_friend_lossless_packet]. *)
Definition tunnel_lossless (fn : Z) (data : bytes) (now : Z) : M tunnels (option unit) :=
  if len data <? 1 then pure (Some tt) else
  let id := zat data 0 in
  if (id =? TT_TUNNEL_E2EE_SIG_PACKET_ID) || (id =? TT_TUNNEL_E2EE_TCP_PACKET_ID) then
    if (len data <? 2) || negb (zat data 1 =? TT_TUNNEL_E2EE_VERSION) then pure (Some tt) else
    let* r := lift (tt_tunnel_e2ee_rx fn (zdrop 2 data) TT_FRAME_DATA_MAX false now) in
    match r with
    | Bytes (_ :: _ as pt) => tt_tunnel_rx_tcp fn pt
    | _ => pure (Some tt)
    end
  else if (id =? TT_TUNNEL_TCP_PACKET_ID) || (id =? TT_TUNNEL_SIG_PACKET_ID)
  then tt_tunnel_rx_tcp fn data
  else pure (Some tt).

Definition cb_friend_lossy_packet (fn : Z) (data : bytes) (now : Z) : M tunnels unit :=
  if (2 <=? len data) && (zat data 0 =? TT_TUNNEL_E2EE_UDP_PACKET_ID) &&
     (zat data 1 =? TT_TUNNEL_E2EE_VERSION) then
    let* r := lift (tt_tunnel_e2ee_rx fn (zdrop 2 data) TT_FRAME_DATA_MAX true now) in
    match r with
    | Bytes (_ :: _ as pt) => tt_tunnel_rx fn pt
    | _ => pure tt
    end
  else tt_tunnel_rx fn data.

(** ** Share, accept, decline *)

Definition tt_tunnel_share (fn : Z) (host : bytes) (udp tcp : TTPortRangeList) (now : Z) : M tunnels Z :=
  if TT_MAX_FRIENDS <=? fn then pure 0 else
  let* new := tunnel_alloc true in
  match new with
  | None => pure 0
  | Some (i, tn) =>
      let tn := tn <| t_pending := true |> <| t_pending_since := now |> <| t_peer_fn := fn |>
                   <| server_host := c_str256 host |> <| t_udp := udp |> <| t_tcp := tcp |> in
      let tn := match peer_pk (friend_env fn) with
                | Some pk => tn <| allow := (allow_put (mkAllow true pk fn) (allow tn)).1 |>
                | None => tn
                end in
      do* set_slot i (Some tn) in
      do* lift (sig_invite fn tn) in
      do* push_ui (TuAdd fn (t_id tn) true host (ports_text udp) (ports_text tcp)) in
      pure (t_id tn)
  end.

Definition tt_tunnel_accept (fn : Z) (udp tcp : TTPortRangeList) : M tunnels Z :=
  let* f := tunnel_by_peer fn false in
  match f with
  | None => pure 0
  | Some (i, tn) =>
      if negb (t_pending tn) then pure 0 else
      let tn := tn <| next_connid := 1 |> <| udp_local := udp |> <| tcp_local := tcp |> in
      let* b := bind_client_local tn in
      if negb b.1 then do* push_ui (TuBindError (t_id tn)) in do* tunnel_free i b.2 in pure 0 else
      let tn := (b.2) <| t_pending := false |> in
      do* set_slot i (Some tn) in
      do* lift (sig_accept fn udp tcp) in
      do* push_ui (TuAdd fn (t_id tn) false (dec (local_ip tn)) (ports_text udp) (ports_text tcp)) in
      pure (t_id tn)
  end.

Definition tt_tunnel_decline (fn : Z) : M tunnels unit :=
  let* f := tunnel_by_peer fn false in
  match f with
  | None => pure tt
  | Some (i, tn) =>
      if negb (t_pending tn) then pure tt else
      do* lift (sig_send fn TT_TUN_SIG_DECLINE []) in tunnel_free i tn
  end.

(** [TT_CMD_TUNNEL_SHARE]: "<host> NL <udp> NL <tcp>"; parse failures are
    ignored, the list parsed so far is used. *)
Definition cmd_tunnel_share (fn : Z) (text : bytes) (now : Z) : M tunnels unit :=
  match strchr 10 (snprintf_s 256 text) with
  | None => pure tt
  | Some (host, rest) =>
      match strchr 10 rest with
      | None => pure tt
      | Some (p1, p2) =>
          do* tt_tunnel_share fn host (tt_port_list_parse p1).2 (tt_port_list_parse p2).2 now in pure tt
      end
  end.
(** [TT_CMD_TUNNEL_ACCEPT]: "<udp> NL <tcp>" *)
Definition cmd_tunnel_accept (fn : Z) (text : bytes) : M tunnels unit :=
  match strchr 10 (snprintf_s 256 text) with
  | None => pure tt
  | Some (p1, p2) =>
      do* tt_tunnel_accept fn (tt_port_list_parse p1).2 (tt_port_list_parse p2).2 in pure tt
  end.
(** [TT_CMD_TUNNEL_ALLOW]: id 0 means every host tunnel. *)
Definition cmd_tunnel_allow (id : Z) (pk_hex : bytes) : M tunnels unit :=
  if id =? 0 then tt_tunnel_allow_all pk_hex
  else do* tt_tunnel_allow id pk_hex in pure tt.
End tunnel.
