(* ===== verification/TunnelStream.v ===== *)
(** * TunnelStream: a forwarded TCP stream arrives whole and never stalls

    Two ends of one forwarded connection over a friend link that keeps order
    (toxcore's lossless packets), the tunnel's E2EE channel off: what is read
    from one socket is what is written to the other, at most 16 frames are
    unacknowledged, and the sender's window accounts exactly for frames and
    credits under way. *)
From stdpp Require Import relations.
From S2P Require Import Prelude StateM CText Crypto SampleCrypto Frame Session TunnelPorts TunnelLink TunnelConn Tunnel.

(** ** What a trace says *)

Definition is_op (op : Z) (pkt : bytes) : bool := zat pkt 5 =? op.
Definition tcp_payload (pkt : bytes) : bytes := zdrop TT_TUNNEL_TCP_HEADER pkt.

(** Packets toxcore took. *)
Fixpoint accepted (tr : list net_event) : list bytes :=
  match tr with
  | [] => []
  | Packet false _ b AnsOk :: tr => b :: accepted tr
  | _ :: tr => accepted tr
  end.
Fixpoint refused (tr : list net_event) : list bytes :=
  match tr with
  | [] => []
  | Packet false _ b AnsOk :: tr => refused tr
  | Packet false _ b _ :: tr => b :: refused tr
  | _ :: tr => refused tr
  end.
Fixpoint bytes_read (fd : Z) (tr : list net_event) : bytes :=
  match tr with
  | [] => []
  | SockRead f b :: tr => (if f =? fd then b else []) ++ bytes_read fd tr
  | _ :: tr => bytes_read fd tr
  end.
Fixpoint bytes_written (fd : Z) (tr : list net_event) : bytes :=
  match tr with
  | [] => []
  | SockSend f b :: tr => (if f =? fd then b else []) ++ bytes_written fd tr
  | _ :: tr => bytes_written fd tr
  end.

(** DATA payloads and the credit of a list of TCP packets. *)
Definition datas (ch : list bytes) : list bytes := tcp_payload <$> filter (fun p => is_op TT_TCP_DATA p = true) ch.
Definition credit_of (pkt : bytes) : Z :=
  if is_op TT_TCP_ACK pkt then rd16 (u8 (zat (tcp_payload pkt) 0)) (u8 (zat (tcp_payload pkt) 1)) else 0.
Definition credits (ch : list bytes) : Z := foldr (fun p n => credit_of p + n) 0 ch.

Lemma accepted_app a b : accepted (a ++ b) = accepted a ++ accepted b.
Proof. induction a as [|[[] ? ? []| | | |] a IH]; cbn; by rewrite ?IH. Qed.
Lemma refused_app a b : refused (a ++ b) = refused a ++ refused b.
Proof. induction a as [|[[] ? ? []| | | |] a IH]; cbn; by rewrite ?IH. Qed.
Lemma bytes_read_app fd a b : bytes_read fd (a ++ b) = bytes_read fd a ++ bytes_read fd b.
Proof. induction a as [|[] a IH]; cbn; rewrite ?IH, ?app_assoc; done. Qed.
Lemma bytes_written_app fd a b : bytes_written fd (a ++ b) = bytes_written fd a ++ bytes_written fd b.
Proof. induction a as [|[] a IH]; cbn; rewrite ?IH, ?app_assoc; done. Qed.
Lemma datas_app a b : datas (a ++ b) = datas a ++ datas b.
Proof. unfold datas. by rewrite filter_app, fmap_app. Qed.
Lemma credits_app a b : credits (a ++ b) = credits a + credits b.
Proof. induction a as [|p a IH]; cbn; [done|]. unfold credits in *. lia. Qed.

Lemma tcp_payload_packet port id op b : tcp_payload (tcp_packet port id op b) = b.
Proof. done. Qed.
Lemma is_op_packet port id op op' b : is_op op' (tcp_packet port id op b) = (op =? op').
Proof. done. Qed.
Lemma len_tcp_packet port id op b : len (tcp_packet port id op b) = 6 + len b.
Proof. unfold tcp_packet. rewrite len_app. done. Qed.

Lemma datas_data port id l : datas (tcp_packet port id TT_TCP_DATA <$> l) = l.
Proof.
  induction l as [|b l IH]; [done|]. unfold datas in *. cbn [fmap list_fmap].
  rewrite filter_cons_True by done. cbn [fmap list_fmap]. f_equal. exact IH.
Qed.
Lemma credits_data port id l : credits (tcp_packet port id TT_TCP_DATA <$> l) = 0.
Proof. induction l as [|b l IH]; [done|]. exact IH. Qed.

Lemma credit_bytes due :
  0 <= due < 65536 -> rd16 (u8 (u8 (Z.shiftr due 8))) (u8 (u8 (Z.land due 255))) = due.
Proof.
  intros H. unfold u8. rewrite !Z.mod_mod by done. fold (u8 (Z.shiftr due 8)) (u8 (Z.land due 255)). replace (u8 (Z.land due 255)) with (u8 due); [by apply rd16_be16|].
  change 255 with (Z.ones 8). rewrite Z.land_ones by lia. unfold u8. by rewrite Z.mod_mod.
Qed.

(** ** The sender's window *)

Definition window_ok (c : TTTunnelConn) : Prop := 0 <= unacked c <= TT_TUNNEL_TCP_WINDOW.

Section conn_proofs.
Context {P : Prims} {E : TunnelEnv}.

(** With the E2EE channel off a TCP frame of legal size is one packet. *)
Lemma tcp_send_ex_raw fn port id op b l :
  tun_e2ee l = None -> len b <= TT_TUNNEL_TCP_MAX_PAYLOAD ->
  tcp_send_ex fn port id op b l =
    (match packet_answer (calls l) with AnsOk => TT_SEND_OK | AnsSendq => TT_SENDQ | _ => TT_SEND_FATAL end,
     l <| calls := S (calls l) |>
       <| trace := trace l ++ [Packet false fn (tcp_packet port id op b) (packet_answer (calls l))] |>).
Proof.
  intros He Hl. unfold tcp_send_ex. replace (TT_TUNNEL_TCP_MAX_PAYLOAD <? len b) with false by lia.
  unfold bind at 1, e2ee_on, get. rewrite He. cbn. by destruct (packet_answer (calls l)).
Qed.

(** What a sending operation did: read [rd], sent the frames [chunks]. *)
Record sent_effect (c : TTTunnelConn) (l : link) (c' : TTTunnelConn) (l' : link) : Prop := {
  se_e2ee : tun_e2ee l' = None;
  se_window : window_ok c';
  se_conn : c' = c <| unacked := unacked c' |> <| outbuf := outbuf c' |>;
  se_trace : exists tr chunks, trace l' = trace l ++ tr /\
    accepted tr = tcp_packet (c_port c) (connid c) TT_TCP_DATA <$> chunks /\
    credits (refused tr) = 0 /\ bytes_written (c_sock c) tr = [] /\
    outbuf c ++ bytes_read (c_sock c) tr = concat chunks ++ outbuf c' /\
    unacked c' = unacked c + len chunks }.

Lemma sent_effect_refl c l : tun_e2ee l = None -> window_ok c -> sent_effect c l c l.
Proof.
  intros He Hw. split; [done|done|by destruct c|]. exists [], []. rewrite !app_nil_r. split_conj; try done.
  change (len []) with 0. lia.
Qed.

Lemma sent_effect_trans c l c1 l1 c2 l2 :
  sent_effect c l c1 l1 -> sent_effect c1 l1 c2 l2 -> sent_effect c l c2 l2.
Proof.
  intros [_ _ Hc1 (tr1 & ch1 & T1 & A1 & R1 & W1 & O1 & U1)]
         [He Hw Hc2 (tr2 & ch2 & T2 & A2 & R2 & W2 & O2 & U2)].
  assert (Hf : c_port c1 = c_port c /\ connid c1 = connid c /\ c_sock c1 = c_sock c)
    by (rewrite Hc1; done). destruct Hf as (F1 & F2 & F3). rewrite F1, F2 in A2. rewrite F3 in W2, O2.
  split; [done|done|rewrite Hc2, Hc1; by destruct c|]. exists (tr1 ++ tr2), (ch1 ++ ch2).
  rewrite accepted_app, refused_app, credits_app, bytes_written_app, bytes_read_app, fmap_app, concat_app, len_app.
  split_conj.
  - by rewrite T2, T1, app_assoc.
  - by rewrite A1, A2.
  - lia.
  - by rewrite W1, W2.
  - by rewrite app_assoc, O1, <- !app_assoc, O2.
  - lia.
Qed.

Lemma flush_loop_effect fuel max_read : forall c l,
  tun_e2ee l = None -> window_ok c -> 0 < max_read <= TT_TUNNEL_TCP_MAX_PAYLOAD ->
  let '((st, c'), l') := flush_loop fuel max_read c l in
  sent_effect c l c' l' /\ (st = FlushEmpty -> outbuf c' = []).
Proof.
  induction fuel as [|fuel IH]; intros c l He Hw Hm; cbn [flush_loop].
  { split; [by apply sent_effect_refl|done]. }
  destruct (negb (0 <? len (outbuf c)) || negb (unacked c <? TT_TUNNEL_TCP_WINDOW)) eqn:Eg.
  { split; [by apply sent_effect_refl|]. intros H. apply len_0_nil. cbn in H.
    destruct (Z.eqb_spec (len (outbuf c)) 0); done. }
  apply orb_false_iff in Eg as [Eg1 Eg2]. bool_to_prop.
  set (chunk := if len (outbuf c) <? max_read then len (outbuf c) else max_read).
  assert (Hc : 0 < chunk <= len (outbuf c) /\ chunk <= max_read)
    by (subst chunk; destruct (Z.ltb_spec (len (outbuf c)) max_read); lia).
  unfold bind. rewrite tcp_send_ex_raw; [|done|rewrite len_ztake; lia].
  set (ans := packet_answer (calls l)). set (pkt := tcp_packet _ _ _ _).
  set (l1 := l <| calls := S (calls l) |> <| trace := _ |>).
  assert (He1 : tun_e2ee l1 = None) by done.
  assert (Hfail : ans <> AnsOk -> sent_effect c l c l1).
  { intros Hans. split; [done|done|by destruct c|]. exists [Packet false (c_fn c) pkt ans], [].
    split_conj; try done; try (by rewrite app_nil_r); [by destruct ans|by destruct ans|].
    change (len []) with 0. lia. }
  destruct ans eqn:Ea; [|split; [by apply Hfail|done]|split; [by apply Hfail|done]|split; [by apply Hfail|done]].
  clear Hfail. unfold TT_TUNNEL_TCP_WINDOW in *.
  assert (Hu : u16 (unacked c + 1) = unacked c + 1) by (apply u16_small; unfold window_ok, TT_TUNNEL_TCP_WINDOW in *; lia).
  set (c1 := c <| unacked := u16 (unacked c + 1) |> <| outbuf := zdrop chunk (outbuf c) |>).
  assert (Hw1 : window_ok c1) by (unfold window_ok, c1, TT_TUNNEL_TCP_WINDOW in *; cbn; lia).
  specialize (IH c1 l1 He1 Hw1 Hm). destruct (flush_loop fuel max_read c1 l1) as [[st c'] l'].
  destruct IH as [IH1 IH2]. split; [|done]. eapply sent_effect_trans; [|exact IH1].
  split; [done|done|by destruct c|]. exists [Packet false (c_fn c) pkt AnsOk], [ztake chunk (outbuf c)].
  split_conj; [done|done|done|done| |cbn; rewrite Hu; done].
  cbn [bytes_read concat]. rewrite !app_nil_r. unfold c1. cbn. symmetry. apply ztake_zdrop.
Qed.

Lemma conn_flush_out_effect c l :
  tun_e2ee l = None -> window_ok c ->
  let '((st, c'), l') := conn_flush_out c l in
  sent_effect c l c' l' /\ (st = FlushEmpty -> outbuf c' = []).
Proof.
  intros He Hw. unfold conn_flush_out, conn_read_max, bind, e2ee_on, get, pure. rewrite He.
  rewrite bool_decide_false by (by intros [? ?]). by apply flush_loop_effect.
Qed.

Lemma drain_loop_effect fuel : forall c l,
  tun_e2ee l = None -> window_ok c ->
  let '((ok, c'), l') := drain_loop fuel c l in ok = true -> sent_effect c l c' l'.
Proof.
  induction fuel as [|fuel IH]; intros c l He Hw; cbn [drain_loop].
  { intros _. by apply sent_effect_refl. }
  unfold conn_read_max, bind at 1, e2ee_on, get at 1, bind at 1, pure at 1. rewrite He.
  rewrite bool_decide_false by (by intros [? ?]).
  unfold bind at 1, ask, tick_call, bind at 1, pure at 1.
  set (l1 := l <| calls := S (calls l) |>).
  assert (Hagain : sent_effect c l c l1).
  { split; [done|done|by destruct c|]. exists [], []. rewrite !app_nil_r. split_conj; try done.
    change (len []) with 0. lia. }
  destruct (sock_recv (calls l) (c_sock c) TT_TUNNEL_TCP_MAX_PAYLOAD) as [b| | |]; [|by intros|by intros _|by intros].
  unfold bind at 1, event, modify. set (l2 := l1 <| trace := trace l1 ++ _ |>).
  destruct (conn_out_add c b) as [c1|] eqn:Ea; [|by intros].
  unfold conn_out_add in Ea. destruct (_ <? _); [done|]. injection Ea as <-.
  set (c1 := c <| outbuf := outbuf c ++ b |>).
  assert (Hread : sent_effect c l c1 l2).
  { split; [done|done|by destruct c|]. exists [SockRead (c_sock c) b], []. split_conj; try done.
    - cbn [bytes_read concat]. rewrite Z.eqb_refl, app_nil_r. done.
    - change (len []) with 0. change (unacked c1) with (unacked c). lia. }
  unfold bind. pose proof (conn_flush_out_effect c1 l2 He Hw) as Hfl.
  destruct (conn_flush_out c1 l2) as [[st c2] l3]. destruct Hfl as [Hfl _]. cbn [fst snd].
  assert (H2 : sent_effect c l c2 l3) by (eapply sent_effect_trans; eassumption).
  destruct st; [|by intros _|by intros].
  specialize (IH c2 l3 (se_e2ee _ _ _ _ H2) (se_window _ _ _ _ H2)).
  destruct (drain_loop fuel c2 l3) as [[ok c'] l']. intros Hok. eapply sent_effect_trans; [exact H2|by apply IH].
Qed.

Lemma conn_drain_out_effect c l :
  tun_e2ee l = None -> window_ok c ->
  let '((ok, c'), l') := conn_drain_out c l in ok = true -> sent_effect c l c' l'.
Proof.
  intros He Hw. unfold conn_drain_out, bind. pose proof (conn_flush_out_effect c l He Hw) as Hf.
  destruct (conn_flush_out c l) as [[st c1] l1]. destruct Hf as [Hf _]. cbn [fst snd].
  destruct st; [|by intros _|by intros].
  pose proof (drain_loop_effect FLUSH_FUEL c1 l1 (se_e2ee _ _ _ _ Hf) (se_window _ _ _ _ Hf)) as Hd.
  destruct (drain_loop FLUSH_FUEL c1 l1) as [[ok c'] l']. intros Hok.
  eapply sent_effect_trans; [exact Hf|by apply Hd].
Qed.

(** ** The receiver *)

(** An established connection; 1 to 3 accepted frames may be uncredited. *)
Record conn_live (c : TTTunnelConn) : Prop := {
  cl_sock : 0 <= c_sock c;
  cl_connecting : connecting c = false;
  cl_gone : peer_gone c = false;
  cl_window : window_ok c;
  cl_due : 0 <= c_ack_due c < TT_TUNNEL_ACK_BATCH }.

Definition ack_packet (p : bytes) : Prop :=
  exists port id due, 0 <= due < 65536 /\
    p = tcp_packet port id TT_TCP_ACK [u8 (Z.shiftr due 8); u8 (Z.land due 255)].

Lemma ack_packet_facts p :
  ack_packet p -> is_op TT_TCP_DATA p = false /\ is_op TT_TCP_ACK p = true /\ 0 <= credit_of p /\
    rd16 (u8 (zat (tcp_payload p) 0)) (u8 (zat (tcp_payload p) 1)) = credit_of p /\ len (tcp_payload p) = 2.
Proof.
  intros (port & id & due & Hd & ->). split_conj; try done.
  change (0 <= rd16 (u8 (u8 (Z.shiftr due 8))) (u8 (u8 (Z.land due 255)))). rewrite credit_bytes; lia.
Qed.

Record received (c : TTTunnelConn) (l : link) (payload : bytes) (c' : TTTunnelConn) (l' : link) : Prop := {
  rc_e2ee : tun_e2ee l' = None;
  rc_conn : c' = c <| c_ack_due := c_ack_due c' |>;
  rc_due : 0 <= c_ack_due c' < TT_TUNNEL_ACK_BATCH;
  rc_trace : exists tr, trace l' = trace l ++ tr /\ bytes_written (c_sock c) tr = payload /\
    bytes_read (c_sock c) tr = [] /\ Forall ack_packet (accepted tr) /\ Forall ack_packet (refused tr) /\
    credits (accepted tr) + credits (refused tr) + c_ack_due c' = c_ack_due c + 1 }.

Lemma credits_one p : credits [p] = credit_of p.
Proof. cbn. lia. Qed.

Lemma return_credit_effect c l payload :
  tun_e2ee l = None -> conn_live c ->
  let '(c', l') := conn_return_credit c (l <| trace := trace l ++ [SockSend (c_sock c) payload] |>) in
  received c l payload c' l'.
Proof.
  intros He [H1 H2 H3 H4 H5]. unfold conn_return_credit, TT_TUNNEL_ACK_BATCH, TT_TUNNEL_TCP_WINDOW in *.
  set (l0 := l <| trace := _ |>). rewrite u16_small by lia. remember (c_ack_due c + 1) as due eqn:Hd.
  destruct ((4 <=? due) || (16 <=? due)) eqn:Ed.
  - assert (Hdue : due = 4) by lia.
    unfold bind, conn_send, tcp_send, bind. rewrite tcp_send_ex_raw by (done || (cbn; lia)).
    set (pkt := tcp_packet _ _ _ _). set (ans := packet_answer (calls l0)). cbn [pure].
    assert (Hp : ack_packet pkt) by (exists (c_port c), (connid c), due; split; [lia|done]).
    assert (Hcr : credit_of pkt = 4).
    { change (rd16 (u8 (u8 (Z.shiftr due 8))) (u8 (u8 (Z.land due 255))) = 4). rewrite credit_bytes; lia. }
    split; [done|by destruct c|unfold TT_TUNNEL_ACK_BATCH; cbn; lia|].
    exists [SockSend (c_sock c) payload; Packet false (c_fn c) pkt ans].
    split_conj.
    + cbn [trace set_field l0]. by rewrite <- app_assoc.
    + cbn. by rewrite Z.eqb_refl, app_nil_r.
    + done.
    + destruct ans; cbn; repeat constructor; done.
    + destruct ans; cbn; repeat constructor; done.
    + destruct ans; cbn [accepted refused]; rewrite ?credits_one, ?Hcr; change (credits []) with 0; cbn [c_ack_due set_field]; lia.
  - unfold pure. split; [done|by destruct c|unfold TT_TUNNEL_ACK_BATCH; cbn; lia|].
    exists [SockSend (c_sock c) payload]. split_conj; [done| |done|constructor|constructor|cbn; lia].
    cbn. by rewrite Z.eqb_refl, app_nil_r.
Qed.

Lemma rx_data_effect (host : bool) c l payload :
  tun_e2ee l = None -> conn_live c ->
  let '(c', l') := (if host then rx_data_host payload c else rx_data_client payload c) l in
  received c l payload c' l'.
Proof.
  intros He Hc. pose proof (return_credit_effect c l payload He Hc) as H. destruct Hc as [H1 H2 _ _ _].
  unfold rx_data_host, rx_data_client. rewrite H2. replace (0 <=? c_sock c) with true by lia.
  by destruct host.
Qed.

Lemma take_credit_effect c l p :
  conn_live c -> ack_packet p -> credit_of p <= unacked c ->
  conn_take_credit c (tcp_payload p) l = (c <| unacked := unacked c - credit_of p |>, l).
Proof.
  intros [_ _ H3 Hw _] Hp Hn. apply ack_packet_facts in Hp as (_ & _ & Hpos & Hrd & Hlen).
  unfold conn_take_credit. rewrite Hlen, Hrd. cbn [Z.leb Z.compare Pos.compare Pos.compare_cont].
  cbn [peer_gone set_field]. rewrite H3. cbn [andb].
  destruct (Z.leb_spec (unacked c) (credit_of p)); [|rewrite u16_small; [done|unfold window_ok, TT_TUNNEL_TCP_WINDOW in *; lia]].
  by replace (unacked c - credit_of p) with 0 by lia.
Qed.
End conn_proofs.

(** ** The two ends *)

Section stream.
Context {P : Prims} (EA EB : TunnelEnv).

Record end_state := mkEnd { e_conn : TTTunnelConn; e_link : link }.

(** What an end does with one TCP frame of the connection, as
    [tunnel_tcp_rx_host] and [tunnel_tcp_rx_client] do. *)
Definition handle (E : TunnelEnv) (host : bool) (pkt : bytes) (c : TTTunnelConn) : M link TTTunnelConn :=
  if zat pkt 5 =? TT_TCP_DATA then
    if host then rx_data_host (tcp_payload pkt) c else rx_data_client (tcp_payload pkt) c
  else if zat pkt 5 =? TT_TCP_ACK then conn_take_credit c (tcp_payload pkt)
  else pure c.

(** Packets handed to the friend link between two states. *)
Definition newly_sent (l l' : link) : list bytes := accepted (drop (length (trace l)) (trace l')).

(** One end polls its socket, or receives the next frame: the end after, the
    packets it sent, the frames left to receive. *)
Inductive end_step (E : TunnelEnv) (host : bool) (e : end_state) (inp : list bytes)
    : end_state -> list bytes -> list bytes -> Prop :=
| step_drain c' l' :
    conn_drain_out (e_conn e) (e_link e) = ((true, c'), l') ->
    end_step E host e inp (mkEnd c' l') (newly_sent (e_link e) l') inp
| step_receive pkt inp' c' l' :
    inp = pkt :: inp' -> handle E host pkt (e_conn e) (e_link e) = (c', l') ->
    end_step E host e inp (mkEnd c' l') (newly_sent (e_link e) l') inp'.

(** The connection: both ends and the frames under way in each direction. *)
Record stream := mkStream { end_a : end_state; end_b : end_state; ab : list bytes; ba : list bytes }.

Inductive stream_step : stream -> stream -> Prop :=
| step_a s a out inp : end_step EA false (end_a s) (ba s) a out inp ->
    stream_step s (mkStream a (end_b s) (ab s ++ out) inp)
| step_b s b out inp : end_step EB true (end_b s) (ab s) b out inp ->
    stream_step s (mkStream (end_a s) b inp (ba s ++ out)).

(** Freshly opened: nothing read, written, sent or owed. *)
Definition fresh_end (e : end_state) : Prop :=
  conn_live (e_conn e) /\ unacked (e_conn e) = 0 /\ c_ack_due (e_conn e) = 0 /\
  outbuf (e_conn e) = [] /\ tun_e2ee (e_link e) = None /\ trace (e_link e) = [].
Definition opened (s : stream) : Prop :=
  fresh_end (end_a s) /\ fresh_end (end_b s) /\ ab s = [] /\ ba s = [].

Definition reads (e : end_state) : bytes := bytes_read (c_sock (e_conn e)) (trace (e_link e)).
Definition writes (e : end_state) : bytes := bytes_written (c_sock (e_conn e)) (trace (e_link e)).
(** Credit whose ACK frame toxcore refused: it is never repeated. *)
Definition lost_credit (e : end_state) : Z := credits (refused (trace (e_link e))).

(** The direction from [s] to [d], with [fwd] and [bwd] under way. *)
Record direction (s d : end_state) (fwd bwd : list bytes) : Prop := {
  dir_bytes : reads s = writes d ++ concat (datas fwd) ++ outbuf (e_conn s);
  dir_window : unacked (e_conn s) = len (datas fwd) + c_ack_due (e_conn d) + credits bwd + lost_credit d }.

Definition good_packet (p : bytes) : Prop := is_op TT_TCP_DATA p = true \/ ack_packet p.
Definition end_ok (e : end_state) : Prop := conn_live (e_conn e) /\ tun_e2ee (e_link e) = None.

Lemma credits_nonneg ch : Forall good_packet ch -> 0 <= credits ch.
Proof.
  induction 1 as [|p ch Hp _ IH]; [done|]. change (credits (p :: ch)) with (credit_of p + credits ch).
  destruct Hp as [Hp|Hp]; [|apply ack_packet_facts in Hp as (_ & _ & ? & _); lia].
  unfold credit_of. replace (is_op TT_TCP_ACK p) with false; [lia|].
  unfold is_op in *. apply Z.eqb_eq in Hp. by rewrite Hp.
Qed.

Lemma newly_sent_app l l' tr : trace l' = trace l ++ tr -> newly_sent l l' = accepted tr.
Proof. intros H. unfold newly_sent. by rewrite H, drop_app_length. Qed.

(** A step of an end keeps the direction it sends in and the one it receives. *)
Lemma end_step_directions E host s d fwd bwd s' out bwd' :
  end_ok s -> end_ok d -> Forall good_packet bwd -> 0 <= lost_credit d ->
  direction s d fwd bwd -> direction d s bwd fwd ->
  end_step E host s bwd s' out bwd' ->
  end_ok s' /\ Forall good_packet out /\ Forall good_packet bwd' /\ lost_credit s <= lost_credit s' /\
  direction s' d (fwd ++ out) bwd' /\ direction d s' bwd' (fwd ++ out).
Proof.
  intros [Hs Hse] [Hd Hde] Hbwd Hlost [B1 W1] [B2 W2] Hstep. unfold reads, writes, lost_credit in *.
  destruct s as [c l], d as [cd ld]. cbn [e_conn e_link] in *.
  destruct Hstep as [c' l' Hr|pkt inp' c' l' -> Hh]; cbn [e_conn e_link] in *.
  - pose proof (conn_drain_out_effect c l Hse (cl_window _ Hs)) as H. rewrite Hr in H.
    destruct (H eq_refl) as [He Hw Hc (tr & chunks & T & A & R & Wr & O & U)].
    assert (F : c_sock c' = c_sock c /\ connecting c' = connecting c /\ peer_gone c' = peer_gone c /\
      c_ack_due c' = c_ack_due c) by (rewrite Hc; done). destruct F as (F1 & F2 & F3 & F4).
    rewrite (newly_sent_app l l' tr T), A. split_conj.
    + split; [|done]. destruct Hs as [? ? ? _ ?].
      split; cbn [e_conn]; rewrite ?F1, ?F2, ?F3, ?F4; done.
    + apply Forall_fmap, Forall_true. intros b. by left.
    + done.
    + cbn [e_link]. rewrite T, refused_app, credits_app. lia.
    + split; unfold reads, writes, lost_credit; cbn [e_conn e_link].
      * rewrite F1, T, bytes_read_app, B1, datas_app, datas_data, concat_app, <- !app_assoc. by rewrite <- O.
      * rewrite datas_app, datas_data, len_app, U. lia.
    + split; unfold reads, writes, lost_credit; cbn [e_conn e_link].
      * by rewrite F1, T, bytes_written_app, Wr, app_nil_r.
      * rewrite credits_app, credits_data, F4, T, refused_app, credits_app. lia.
  - apply Forall_cons in Hbwd as [Hp Hbwd]. destruct Hp as [Hp|Hp].
    + assert (Hcr : credit_of pkt = 0).
      { unfold credit_of, is_op in *. apply Z.eqb_eq in Hp. by rewrite Hp. }
      unfold handle in Hh. fold (is_op TT_TCP_DATA pkt) in Hh. rewrite Hp in Hh.
      pose proof (rx_data_effect host c l (tcp_payload pkt) Hse Hs) as H. rewrite Hh in H.
      destruct H as [He Hc Hdue (tr & T & Wr & Rd & Ha & Href & Hsum)].
      assert (F : c_sock c' = c_sock c /\ connecting c' = connecting c /\ peer_gone c' = peer_gone c /\
        unacked c' = unacked c /\ outbuf c' = outbuf c) by (rewrite Hc; done). destruct F as (F1 & F2 & F3 & F4 & F5).
      rewrite (newly_sent_app l l' tr T).
      assert (Hnd : datas (accepted tr) = []).
      { clear -Ha. induction Ha as [|p ps Hp _ IH]; [done|]. apply ack_packet_facts in Hp as (Hp & _).
        unfold datas in *. rewrite filter_cons_False; [exact IH|]. by rewrite Hp. }
      assert (Hdp : datas (pkt :: inp') = tcp_payload pkt :: datas inp').
      { unfold datas. by rewrite filter_cons_True by done. }
      change (credits (pkt :: inp')) with (credit_of pkt + credits inp') in W1. rewrite Hdp in B2, W2.
      cbn [concat] in B2. rewrite len_cons in W2.
      assert (Hgood : Forall good_packet (accepted tr)) by (eapply Forall_impl; [exact Ha|]; intros ? ?; by right).
      split_conj.
      * split; [|done]. destruct Hs as [? ? ? Hw ?].
        split; cbn [e_conn]; unfold window_ok in *; rewrite ?F1, ?F2, ?F3, ?F4; try done.
      * done.
      * done.
      * cbn [e_link]. rewrite T, refused_app, credits_app.
        assert (0 <= credits (refused tr)); [|lia].
        apply credits_nonneg. eapply Forall_impl; [exact Href|]. intros ? ?. by right.
      * split; unfold reads, writes, lost_credit; cbn [e_conn e_link].
        -- rewrite F1, T, bytes_read_app, Rd, app_nil_r, datas_app, Hnd, app_nil_r, F5. exact B1.
        -- rewrite datas_app, Hnd, app_nil_r, F4. lia.
      * split; unfold reads, writes, lost_credit; cbn [e_conn e_link].
        -- rewrite F1, T, bytes_written_app, Wr, B2, <- !app_assoc. done.
        -- rewrite credits_app, T, refused_app, credits_app. lia.
    + pose proof (ack_packet_facts pkt Hp) as (Hf & Ht & Hpos & _ & _).
      unfold handle in Hh. fold (is_op TT_TCP_DATA pkt) (is_op TT_TCP_ACK pkt) in Hh. rewrite Hf, Ht in Hh.
      assert (Hdp : datas (pkt :: inp') = datas inp').
      { unfold datas. rewrite filter_cons_False; [done|]. by rewrite Hf. }
      change (credits (pkt :: inp')) with (credit_of pkt + credits inp') in W1. rewrite Hdp in B2, W2.
      pose proof (credits_nonneg inp' Hbwd). pose proof (len_nonneg (datas fwd)).
      destruct Hd as [_ _ _ _ Hdue].
      rewrite take_credit_effect in Hh by (done || lia). injection Hh as <- <-.
      rewrite (newly_sent_app l l []) by (by rewrite app_nil_r). cbn [accepted]. rewrite app_nil_r.
      split_conj.
      * split; [|done]. destruct Hs as [? ? ? Hw ?]. split; try done.
        unfold window_ok in *. cbn [e_conn unacked set_field]. lia.
      * constructor.
      * done.
      * done.
      * split; [exact B1|]. unfold lost_credit. cbn [e_conn e_link unacked set_field]. lia.
      * split; [exact B2|]. unfold lost_credit. cbn [e_conn e_link c_ack_due set_field]. lia.
Qed.

Record stream_inv (s : stream) : Prop := {
  si_a : end_ok (end_a s);
  si_b : end_ok (end_b s);
  si_ab : Forall good_packet (ab s);
  si_ba : Forall good_packet (ba s);
  si_lost : 0 <= lost_credit (end_a s) /\ 0 <= lost_credit (end_b s);
  si_to_b : direction (end_a s) (end_b s) (ab s) (ba s);
  si_to_a : direction (end_b s) (end_a s) (ba s) (ab s) }.

Lemma opened_inv s : opened s -> stream_inv s.
Proof.
  intros ((A1 & A2 & A3 & A4 & A5 & A6) & (B1 & B2 & B3 & B4 & B5 & B6) & Hab & Hba).
  split; rewrite ?Hab, ?Hba; [done|done|constructor|constructor|unfold lost_credit; by rewrite A6, B6| |].
  - split; unfold reads, writes, lost_credit; rewrite ?A2, ?A4, ?A6, ?B3, ?B6; done.
  - split; unfold reads, writes, lost_credit; rewrite ?B2, ?B4, ?B6, ?A3, ?A6; done.
Qed.

Lemma stream_step_inv s s' : stream_inv s -> stream_step s s' -> stream_inv s'.
Proof.
  intros Hinv Hstep. destruct Hstep as [s a out inp Hs|s b out inp Hs];
    destruct Hinv as [Ha Hb Hab Hba [La Lb] Hto Hfrom].
  - destruct (end_step_directions _ _ _ _ _ _ _ _ _ Ha Hb Hba Lb Hto Hfrom Hs) as (H1 & H2 & H3 & H4 & H5 & H6).
    split; cbn; try done; [by apply Forall_app|lia].
  - destruct (end_step_directions _ _ _ _ _ _ _ _ _ Hb Ha Hab La Hfrom Hto Hs) as (H1 & H2 & H3 & H4 & H5 & H6).
    split; cbn; try done; [by apply Forall_app|lia].
Qed.
End stream.


(** ** The model's steps are the packet handler's *)

Section handlers.
Context {P : Prims} {E : TunnelEnv}.

Lemma with_conn_found tn fn id i f l :
  conn_find tn fn id = Some i ->
  with_conn tn fn id f l = let '(c, l') := f (conn_at tn i) l in (conn_set tn i c, l').
Proof. intros Hi. unfold with_conn. by rewrite Hi. Qed.

(** What the tunnel does with a DATA or ACK frame is [handle] on the
    connection the frame names. *)
Lemma handle_host tn fn port id op i payload l :
  conn_find tn fn id = Some i -> op = TT_TCP_DATA \/ op = TT_TCP_ACK ->
  tunnel_tcp_rx_host tn fn port id op payload l =
    (let '(c, l') := handle E true (tcp_packet port id op payload) (conn_at tn i) l in (conn_set tn i c, l')).
Proof.
  intros Hi [-> | ->];
    [exact (with_conn_found _ _ _ _ (rx_data_host payload) _ Hi)
    |exact (with_conn_found _ _ _ _ (fun c => conn_take_credit c payload) _ Hi)].
Qed.
Lemma handle_client tn fn port id op i payload l :
  conn_find tn fn id = Some i -> op = TT_TCP_DATA \/ op = TT_TCP_ACK ->
  0 <= port < tt_port_list_len (tcp_local tn) ->
  tunnel_tcp_rx_client tn fn port id op payload l =
    let '(c, l') := handle E false (tcp_packet port id op payload) (conn_at tn i) l in (conn_set tn i c, l').
Proof.
  intros Hi Hop Hp. unfold tunnel_tcp_rx_client. replace (_ <=? port) with false by lia.
  destruct Hop as [-> | ->];
    [exact (with_conn_found _ _ _ _ (rx_data_client payload) _ Hi)
    |exact (with_conn_found _ _ _ _ (fun c => conn_take_credit c payload) _ Hi)].
Qed.
End handlers.

(** ** Three bytes through a tunnel *)

Module StreamExample.
(** The first read of a socket gives three bytes, later reads nothing. *)
Definition env : TunnelEnv := {|
  packet_answer _ := AnsOk;
  sock_recv k _ _ := match k with O => RecvData [1; 2; 3] | _ => RecvAgain end;
  sock_new _ := None; sock_connect _ _ := ConnectFailed; sock_error _ _ := None;
  sock_accept _ _ := None; resolve _ _ := None; bind_local _ _ _ := None;
  friend_env _ := mkEnv [] [] None; friend_by_pk _ := None |}.
Definition fresh (fn : Z) : end_state := mkEnd
  (mkConn true fn 0 1 5 false false 0 0 [] []) (mkLink None (0 : Rng) 0 []).
Definition start : stream := mkStream (fresh 3) (fresh 4) [] [].
Definition drained : TTTunnelConn * link := let '((_, c), l) := @conn_drain_out _ env (e_conn (fresh 3)) (e_link (fresh 3)) in (c, l).
Definition s1 : stream := mkStream (mkEnd drained.1 drained.2) (fresh 4)
  [tcp_packet 0 1 TT_TCP_DATA [1; 2; 3]] [].
Definition taken : TTTunnelConn * link :=
  @handle _ env true (tcp_packet 0 1 TT_TCP_DATA [1; 2; 3]) (e_conn (fresh 4)) (e_link (fresh 4)).
Lemma drained_eq :
  @conn_drain_out sample_prims env (e_conn (fresh 3)) (e_link (fresh 3)) = ((true, drained.1), drained.2).
Proof. reflexivity. Qed.
Lemma taken_eq :
  @handle sample_prims env true (tcp_packet 0 1 TT_TCP_DATA [1; 2; 3]) (e_conn (fresh 4)) (e_link (fresh 4)) =
  (taken.1, taken.2).
Proof. reflexivity. Qed.
Definition s2 : stream := mkStream (mkEnd drained.1 drained.2) (mkEnd taken.1 taken.2) [] [].
End StreamExample.

