(* ===== verification/TunnelSignal.v ===== *)
(** * TunnelSignal: invitations are read safely and open matching tunnels

    The INVITE and ACCEPT payloads ([sig_invite], [sig_accept],
    [tunnel_sig_rx]): reading stays inside the packet whatever a peer sends,
    what is read is what was offered, and a share followed by an accept leaves
    one open tunnel at each end. *)
From S2P Require Import Prelude StateM Slots CText Crypto SampleCrypto Frame Session TunnelPorts TunnelLink TunnelConn Tunnel.

(** ** Reading a payload *)

Lemma cstr_prefix l : exists rest, l = cstr l ++ rest.
Proof.
  induction l as [|c l [rest IH]]; [by exists []|]. cbn. destruct (c =? 0); [by exists (c :: l)|].
  exists rest. cbn. by rewrite <- IH.
Qed.

(** A read of two bytes at [p]. *)
Lemma sig_u16_in payload p : 0 <= p -> p + 2 <= len payload ->
  sig_u16 payload p = Ok (u16 (rd16 (zat payload p) (zat payload (p + 1)))).
Proof.
  intros H1 H2. unfold sig_u16, sig_at.
  replace ((p <? 0) || (len payload <=? p)) with false by lia.
  by replace ((p + 1 <? 0) || (len payload <=? p + 1)) with false by lia.
Qed.

Lemma sig_ranges_safe n : forall payload p, 0 <= p <= len payload ->
  match sig_ranges n payload p with
  | Ok (l, q) => p <= q <= len payload /\ length l = n
  | Fail => True
  | Oob => False
  end.
Proof.
  induction n as [|n IH]; intros payload p Hp; cbn [sig_ranges]; [cbn; lia|].
  destruct (Z.ltb_spec (len payload) (p + 4)); [done|]. rewrite !sig_u16_in by lia.
  cbn [mbind outcome_bind]. specialize (IH payload (p + 4) ltac:(lia)).
  destruct (sig_ranges n payload (p + 4)) as [[l q]| |]; cbn; [|done|done]. lia.
Qed.

Lemma sig_range_list_safe payload p : 0 <= p -> p + 2 <= len payload ->
  match sig_range_list payload p with
  | Ok (l, q) => p + 2 <= q <= len payload /\ (length l <= TT_TUNNEL_MAX_RANGES)%nat
  | Fail => True
  | Oob => False
  end.
Proof.
  intros H1 H2. unfold sig_range_list. rewrite sig_u16_in by lia. cbn [mbind outcome_bind].
  set (n := Nat.min _ _). pose proof (sig_ranges_safe n payload (p + 2) ltac:(lia)) as H.
  destruct (sig_ranges n payload (p + 2)) as [[l q]| |]; [|done|done]. split; [lia|]. subst n. lia.
Qed.

Lemma parse_invite_safe payload :
  match parse_invite payload with
  | Ok (host, udp, tcp) =>
      len host <= 255 /\ ~ In 0 host /\
      (length udp <= TT_TUNNEL_MAX_RANGES)%nat /\ (length tcp <= TT_TUNNEL_MAX_RANGES)%nat
  | Fail => True
  | Oob => False
  end.
Proof.
  unfold parse_invite. destruct (Z.ltb_spec (len payload) 3); [done|].
  set (hl := strnlen payload (len payload - 2)). destruct (Z.eqb_spec hl (len payload - 2)); [done|].
  set (s := ztake (len payload - 2) payload).
  assert (Hs : len s = len payload - 2) by (apply len_ztake; lia).
  assert (Hhl : 0 <= hl <= len payload - 2).
  { split; [apply len_nonneg|]. pose proof (cstr_len s). subst hl. unfold strnlen. fold s. lia. }
  pose proof (sig_range_list_safe payload (hl + 1) ltac:(lia) ltac:(lia)) as Hu.
  destruct (sig_range_list payload (hl + 1)) as [[udp p]| |]; [|done|done]. cbn [mbind outcome_bind].
  destruct (Z.ltb_spec (len payload) (p + 2)); [done|].
  pose proof (sig_range_list_safe payload p ltac:(lia) ltac:(lia)) as Ht.
  destruct (sig_range_list payload p) as [[tcp q]| |]; [|done|done]. cbn [mbind outcome_bind].
  set (cut := if hl <? 255 then hl else 255). assert (Hcut : 0 <= cut <= 255 /\ cut <= hl) by (subst cut; destruct (Z.ltb_spec hl 255); lia).
  split; [unfold len, ztake; rewrite length_take; lia|]. split; [|by destruct Hu, Ht].
  replace (ztake cut payload) with (ztake cut (cstr s)).
  { intros Hin. apply (cstr_in s). rewrite <- (ztake_zdrop cut (cstr s)). apply in_or_app. by left. }
  destruct (cstr_prefix s) as [rest Hrest]. change (len (cstr s)) with hl in Hrest.
  rewrite <- (ztake_zdrop (len payload - 2) payload). fold s. rewrite Hrest at 2.
  rewrite <- app_assoc, ztake_app_le; [done|]. change (len (cstr s)) with hl. lia.
Qed.

Lemma tunnel_sig_rx_safe {P : Prims} {E : TunnelEnv} fn data t : (tunnel_sig_rx fn data t).1 = Some tt.
Proof.
  unfold tunnel_sig_rx. destruct (_ <? _); [done|]. destruct (_ || _); [done|]. destruct (_ =? _).
  { pose proof (parse_invite_safe (zdrop TT_TUNNEL_SIG_HEADER data)) as H.
    destruct (parse_invite _) as [[[host udp] tcp]| |]; [|done|done].
    unfold bind at 1. destruct (tunnel_by_peer _ _ t) as [[o|] t1]; [done|].
    unfold bind at 1. by destruct (tunnel_alloc false t1) as [[[i tn]|] t2]. }
  destruct (_ =? _).
  { destruct (_ <? _); [done|]. unfold bind at 1. destruct (tunnel_by_peer _ _ t) as [[[i tn]|] t1]; [|done].
    by destruct (negb _). }
  destruct (_ =? _); [|done]. unfold bind at 1. destruct (tunnel_by_peer _ _ t) as [[[i tn]|] t1]; [|done].
  destruct (negb _); [done|]. unfold bind, push_ui, modify. by destruct (tunnel_free i tn _).
Qed.

(** ** What was written is read back *)

(** Both fields of a range fit the wire. *)
Definition range_u16 (r : TTPortRange) : Prop := is_u16 (start r) /\ is_u16 (count r).

Lemma range_ok_u16 r : range_ok r -> range_u16 r.
Proof. intros (? & ? & ?). unfold range_u16, is_u16. lia. Qed.

Lemma sig_u16_pre pre v rest : is_u16 v -> sig_u16 (pre ++ be16 v ++ rest) (len pre) = Ok v.
Proof.
  intros Hv. pose proof (len_nonneg pre). pose proof (len_nonneg rest).
  rewrite sig_u16_in by (rewrite ?len_app, ?len_be16; lia).
  unfold be16. cbn [app]. rewrite zat_pre by done.
  replace (zat _ (len pre + 1)) with (u8 v).
  - f_equal. rewrite rd16_be16 by done. by apply u16_small.
  - replace (pre ++ u8 (Z.shiftr v 8) :: u8 v :: rest) with ((pre ++ [u8 (Z.shiftr v 8)]) ++ u8 v :: rest)
      by by rewrite <- app_assoc.
    by rewrite zat_pre by (rewrite len_app; done).
Qed.

Definition range_bytes (l : TTPortRangeList) : bytes := concat ((fun r => be16 (start r) ++ be16 (count r)) <$> l).

Lemma len_range_bytes l : len (range_bytes l) = 4 * len l.
Proof.
  induction l as [|r l IH]; [done|]. unfold range_bytes in *. cbn [fmap list_fmap concat].
  rewrite !len_app, !len_be16, IH, len_cons. lia.
Qed.

Lemma sig_ranges_pre l : forall pre rest, Forall range_u16 l ->
  sig_ranges (length l) (pre ++ range_bytes l ++ rest) (len pre) = Ok (l, len pre + 4 * len l).
Proof.
  induction l as [|r l IH]; intros pre rest Hl; cbn [sig_ranges length].
  { change (len []) with 0. do 2 f_equal. lia. }
  apply Forall_cons in Hl as [[Hs Hc] Hl]. unfold range_bytes in *. cbn [fmap list_fmap concat].
  fold (range_bytes l). rewrite <- !app_assoc.
  pose proof (len_nonneg (range_bytes l ++ rest)). pose proof (len_nonneg pre).
  replace (len (pre ++ _) <? len pre + 4) with false
    by (rewrite !len_app, !len_be16 in *; lia).
  rewrite sig_u16_pre by done. cbn [mbind outcome_bind].
  rewrite (app_assoc pre (be16 (start r))).
  replace (len pre + 2) with (len (pre ++ be16 (start r))) by (rewrite len_app, len_be16; lia).
  rewrite sig_u16_pre by done. cbn [mbind outcome_bind].
  rewrite (app_assoc (pre ++ be16 (start r)) (be16 (count r))).
  replace (len pre + 4) with (len ((pre ++ be16 (start r)) ++ be16 (count r)))
    by (rewrite !len_app, !len_be16; lia).
  rewrite IH by done. cbn. destruct r. do 2 f_equal. rewrite !len_app, !len_be16, len_cons. lia.
Qed.

Definition ranges_fit (l : TTPortRangeList) : Prop :=
  (length l <= TT_TUNNEL_MAX_RANGES)%nat /\ Forall range_u16 l.

Lemma ports_ok_fit l : ports_ok l -> ranges_fit l.
Proof. intros [H1 H2 _]. split; [done|]. eapply Forall_impl; [exact H2|]. apply range_ok_u16. Qed.

Lemma sig_range_list_pre pre l rest : ranges_fit l ->
  sig_range_list (pre ++ range_list_bytes l ++ rest) (len pre) = Ok (l, len pre + 2 + 4 * len l).
Proof.
  intros [Hn Hl]. unfold sig_range_list, range_list_bytes. fold (range_bytes l). rewrite <- app_assoc.
  assert (Hlen : 0 <= len l <= 8) by (unfold len, TT_TUNNEL_MAX_RANGES in *; lia).
  rewrite sig_u16_pre by (unfold is_u16; lia). cbn [mbind outcome_bind].
  replace (Nat.min (Z.to_nat (len l)) TT_TUNNEL_MAX_RANGES) with (length l) by (unfold len in *; lia).
  rewrite app_assoc.
  replace (len pre + 2) with (len (pre ++ be16 (len l))) by (rewrite len_app, len_be16; lia).
  by apply sig_ranges_pre.
Qed.

Lemma len_range_list_bytes l : len (range_list_bytes l) = 2 + 4 * len l.
Proof. unfold range_list_bytes. fold (range_bytes l). by rewrite len_app, len_be16, len_range_bytes. Qed.

Lemma cstr_app_nul a b : ~ In 0 a -> cstr (a ++ 0 :: b) = a.
Proof.
  induction a as [|c a IH]; cbn; intros Hn; [done|].
  destruct (Z.eqb_spec c 0); [naive_solver|]. rewrite IH; naive_solver.
Qed.

Lemma ztake_no_zero n (l : bytes) : ~ In 0 l -> ~ In 0 (ztake n l).
Proof. intros H Hin. apply H. rewrite <- (ztake_zdrop n l). apply in_or_app. by left. Qed.

Lemma strnlen_pre h rest n : ~ In 0 h -> len h < n -> strnlen (h ++ 0 :: rest) n = len h.
Proof.
  intros Hh Hn. unfold strnlen, ztake. rewrite take_app_ge by (unfold len in *; lia).
  replace (Z.to_nat n - length h)%nat with (S (Z.to_nat n - length h - 1)) by (unfold len in *; lia).
  cbn [take]. by rewrite cstr_app_nul.
Qed.

(** An invitation is read back: the host cut at 200 bytes, the lists whole. *)
Lemma parse_invite_payload tn :
  ~ In 0 (server_host tn) -> ranges_fit (t_udp tn) -> ranges_fit (t_tcp tn) ->
  len (invite_payload tn) <= 270 /\
  parse_invite (invite_payload tn) = Ok (ztake 200 (server_host tn), t_udp tn, t_tcp tn).
Proof.
  intros Hh Hu Ht. unfold invite_payload. set (h := ztake 200 (server_host tn)).
  assert (Hnz : ~ In 0 h) by by apply ztake_no_zero.
  assert (Hl : 0 <= len h <= 200).
  { split; [apply len_nonneg|]. subst h. unfold len, ztake. rewrite length_take. lia. }
  assert (Hbu : 0 <= len (t_udp tn) <= 8) by (destruct Hu; unfold len, TT_TUNNEL_MAX_RANGES in *; lia).
  assert (Hbt : 0 <= len (t_tcp tn) <= 8) by (destruct Ht; unfold len, TT_TUNNEL_MAX_RANGES in *; lia).
  set (tail := range_list_bytes (t_udp tn) ++ range_list_bytes (t_tcp tn)).
  assert (Htail : len tail = 4 + 4 * len (t_udp tn) + 4 * len (t_tcp tn))
    by (subst tail; rewrite len_app, !len_range_list_bytes; lia).
  change (h ++ [0] ++ _) with (h ++ 0 :: tail). remember (h ++ 0 :: tail) as payload eqn:Hp.
  assert (Hlen : len payload = len h + 1 + len tail) by (rewrite Hp, len_app, len_cons; lia).
  split; [lia|]. unfold parse_invite. replace (len payload <? 3) with false by lia.
  assert (Hs : strnlen payload (len payload - 2) = len h) by (rewrite Hp at 1; apply strnlen_pre; [done|lia]).
  rewrite Hs.
  replace (len h =? len payload - 2) with false by lia. replace (len h <? 255) with true by lia.
  assert (H1 : sig_range_list payload (len h + 1) = Ok (t_udp tn, len h + 1 + 2 + 4 * len (t_udp tn))).
  { rewrite Hp. change (h ++ 0 :: tail) with (h ++ [0] ++ tail). rewrite app_assoc. subst tail.
    replace (len h + 1) with (len (h ++ [0])) by (rewrite len_app; done).
    by apply sig_range_list_pre. }
  assert (H2 : sig_range_list payload (len h + 1 + 2 + 4 * len (t_udp tn)) =
    Ok (t_tcp tn, len h + 1 + 2 + 4 * len (t_udp tn) + 2 + 4 * len (t_tcp tn))).
  { rewrite Hp. change (h ++ 0 :: tail) with (h ++ [0] ++ tail). subst tail.
    rewrite !app_assoc, <- (app_nil_r (_ ++ range_list_bytes (t_tcp tn))), <- app_assoc.
    replace (len h + 1 + 2 + 4 * len (t_udp tn)) with (len ((h ++ [0]) ++ range_list_bytes (t_udp tn)))
      by (rewrite !len_app, len_range_list_bytes; change (len [0]) with 1; lia).
    by apply sig_range_list_pre. }
  rewrite H1. cbn [mbind outcome_bind]. replace (len payload <? _) with false by lia.
  rewrite H2. cbn [mbind outcome_bind]. rewrite Hp, ztake_app by done. done.
Qed.

(** ** The tunnel list *)

(** Tunnels the peer [fn] is in, as host or as client. *)
Definition no_tunnel_with {P : Prims} (host : bool) (fn : Z) (t : tunnels) : Prop :=
  find_slot (fun tn => Bool.eqb (t_host tn) host && (t_peer_fn tn =? fn)) 0 (slots t) = None.

Section signal.
Context {P : Prims} {E : TunnelEnv}.

(** The trace only grows. *)
Definition grows {A} (m : M link A) : Prop := forall l, exists tr, trace (m l).2 = trace l ++ tr.

Lemma grows_pure {A} (a : A) : grows (pure a).
Proof. intros l. exists []. by rewrite app_nil_r. Qed.
Lemma grows_bind {A B} (m : M link A) (k : A -> M link B) :
  grows m -> (forall a, grows (k a)) -> grows (bind m k).
Proof.
  intros Hm Hk l. unfold bind. destruct (Hm l) as [tr1 H1]. destruct (m l) as [a l1]. destruct (Hk a l1) as [tr2 H2].
  exists (tr1 ++ tr2). cbn in H1. by rewrite H2, H1, app_assoc.
Qed.
Lemma grows_ask {A} (f : nat -> A) : grows (ask f).
Proof. intros l. exists []. cbn. by rewrite app_nil_r. Qed.
Lemma grows_close fd : grows (tt_close fd).
Proof. intros l. by exists [SockClose fd]. Qed.
Lemma grows_when b m : grows m -> grows (when b m).
Proof. destruct b; [done|]. intros _. apply grows_pure. Qed.
Lemma grows_map_m {A B} (f : A -> M link B) l : (forall a, grows (f a)) -> grows (map_m f l).
Proof.
  intros Hf. induction l as [|a l IH]; cbn [map_m]; [apply grows_pure|].
  apply grows_bind; [done|]. intros b. apply grows_bind; [done|]. intros bs. apply grows_pure.
Qed.
Lemma grows_close_all fds : grows (close_all fds).
Proof.
  apply grows_bind; [|intros; apply grows_pure]. apply grows_map_m. intros fd. apply grows_when, grows_close.
Qed.
Lemma grows_bind_ports n : forall i ip l, grows (bind_ports n i ip l).
Proof.
  induction n as [|n IH]; intros i ip l; cbn [bind_ports]; [apply grows_pure|].
  apply grows_bind; [apply grows_ask|]. intros [fd|]; [|apply grows_pure].
  apply grows_bind; [apply IH|]. intros r. apply grows_pure.
Qed.
Lemma grows_bind_octets n : forall ip sl tn, grows (bind_octets n ip sl tn).
Proof.
  induction n as [|n IH]; intros ip sl tn; cbn [bind_octets]; [apply grows_pure|].
  destruct (octet_used sl ip); [apply IH|]. apply grows_bind; [apply grows_bind_ports|]. intros u. cbn zeta.
  destruct (negb u.2); [apply grows_bind; [apply grows_close_all|]; intros; apply IH|].
  apply grows_bind; [apply grows_bind_ports|]. intros c. cbn zeta. destruct (negb c.2); [|apply grows_pure].
  apply grows_bind; [apply grows_close_all|]. intros _. apply grows_bind; [apply grows_close_all|]. intros; apply IH.
Qed.

(** Binding changes only the sockets and the octet of a tunnel. *)
Lemma bind_octets_frame n : forall ip sl tn l,
  exists a b o, (bind_octets n ip sl tn l).1.2 = tn <| listen_sock := a |> <| tcp_listen_sock := b |> <| local_ip := o |>.
Proof.
  induction n as [|n IH]; intros ip sl tn l; cbn [bind_octets].
  { exists (listen_sock tn), (tcp_listen_sock tn), (local_ip tn). by destruct tn. }
  destruct (octet_used sl ip); [apply IH|]. unfold bind at 1. destruct (bind_ports _ _ _ _ _) as [u l1].
  set (tn1 := tn <| listen_sock := _ |>). destruct (negb u.2).
  { unfold bind. destruct (close_all u.1 l1) as [x l2].
    destruct (IH (ip + 1) sl tn1 l2) as (a & b & o & ->). by exists a, b, o. }
  unfold bind at 1. destruct (bind_ports _ _ _ _ l1) as [c l2]. set (tn2 := tn1 <| tcp_listen_sock := _ |>).
  destruct (negb c.2).
  { unfold bind. destruct (close_all c.1 l2) as [x l3]. destruct (close_all u.1 l3) as [y l4].
    destruct (IH (ip + 1) sl tn2 l4) as (a & b & o & ->). by exists a, b, o. }
  unfold pure. cbn [fst snd]. by eexists _, _, _.
Qed.

(** ** One step of the exchange each *)

Definition sig_packet (opcode : Z) (payload : bytes) : bytes :=
  [TT_TUNNEL_SIG_PACKET_ID; TT_TUNNEL_SIG_VERSION; opcode] ++ payload.

Lemma sig_send_short fn opcode payload l : len payload <= 270 ->
  exists ans l', sig_send fn opcode payload l = (tt, l') /\
    trace l' = trace l ++ [Packet false fn (sig_packet opcode payload) ans] /\ tun_e2ee l' = tun_e2ee l.
Proof.
  intros Hl. unfold sig_send. replace (270 <? len payload) with false by lia.
  eexists (packet_answer (calls l)), _. split; [reflexivity|]. done.
Qed.

(** What the host keeps of its share. *)
Definition shared (id fn now : Z) (host : bytes) (udp tcp : TTPortRangeList) (tn : TTTunnel) : Prop :=
  t_id tn = id /\ t_host tn = true /\ t_pending tn = true /\ t_pending_since tn = now /\ t_peer_fn tn = fn /\
  server_host tn = host /\ t_udp tn = udp /\ t_tcp tn = tcp /\
  forall pk, peer_pk (friend_env fn) = Some pk -> In (mkAllow true pk fn) (allow tn).

Lemma share_step fn host udp tcp now t i :
  fn < TT_MAX_FRIENDS -> ~ In 0 host -> len host <= 255 -> ranges_fit udp -> ranges_fit tcp ->
  free_slot 0 (slots t) = Some i ->
  let '(id, t') := tt_tunnel_share fn host udp tcp now t in
  exists tn ans, shared id fn now host udp tcp tn /\ slots t' = <[i := Some tn]> (slots t) /\
    trace (lk t') = trace (lk t) ++ [Packet false fn (sig_packet TT_TUN_SIG_INVITE (invite_payload tn)) ans].
Proof.
  intros Hfn Hh Hl Hu Ht Hi. unfold tt_tunnel_share. replace (TT_MAX_FRIENDS <=? fn) with false by lia.
  unfold bind at 1, tunnel_alloc. rewrite Hi. set (tn0 := new_tunnel true _). set (t1 := t <| slots := _ |> <| tunnel_seq := _ |>).
  set (tn1 := tn0 <| t_pending := true |> <| t_pending_since := now |> <| t_peer_fn := fn |>
                   <| server_host := c_str256 host |> <| t_udp := udp |> <| t_tcp := tcp |>).
  set (tn := match peer_pk (friend_env fn) with Some pk => _ | None => tn1 end).
  assert (Hs : shared (u32 (tunnel_seq t + 1)) fn now host udp tcp tn).
  { assert (Hhost : c_str256 host = host) by (unfold c_str256, snprintf_s; by rewrite cstr_no_nul, ztake_all by (done || lia)).
    subst tn. unfold shared. destruct (peer_pk (friend_env fn)) as [pk|]; cbn -[allow_put TT_TUNNEL_ALLOW_MAX zrep];
      rewrite Hhost; split_conj; try done. intros pk' [= <-]. by left. }
  assert (Hlen : len (invite_payload tn) <= 270).
  { destruct Hs as (_ & _ & _ & _ & _ & E1 & E2 & E3 & _). apply parse_invite_payload; by rewrite ?E1, ?E2, ?E3. }
  unfold bind, set_slot, modify, push_ui, lift. cbn [lk slots set_field].
  unfold sig_invite. destruct (sig_send_short fn TT_TUN_SIG_INVITE (invite_payload tn) (lk t) Hlen) as (ans & l' & Hsend & Htr & _).
  change (lk t1) with (lk t). rewrite Hsend. cbn. exists tn, ans. split_conj; [|by rewrite list_insert_insert_eq|done].
  replace (t_id tn) with (u32 (tunnel_seq t + 1)); [done|]. by destruct Hs as (-> & _).
Qed.

(** What the invited friend keeps. *)
Definition invited (fn : Z) (host : bytes) (udp tcp : TTPortRangeList) (tn : TTTunnel) : Prop :=
  t_host tn = false /\ t_pending tn = true /\ t_peer_fn tn = fn /\
  server_host tn = host /\ t_udp tn = udp /\ t_tcp tn = tcp.

Lemma invite_step fn tn t j :
  ~ In 0 (server_host tn) -> len (server_host tn) <= 200 -> ranges_fit (t_udp tn) -> ranges_fit (t_tcp tn) ->
  no_tunnel_with false fn t -> free_slot 0 (slots t) = Some j ->
  let '(r, t') := tt_tunnel_rx_tcp fn (sig_packet TT_TUN_SIG_INVITE (invite_payload tn)) t in
  r = Some tt /\ lk t' = lk t /\ tui t' = tui t ++ [TuInvite fn (server_host tn) (ports_text (t_udp tn)) (ports_text (t_tcp tn))] /\
  exists tn', invited fn (server_host tn) (t_udp tn) (t_tcp tn) tn' /\ slots t' = <[j := Some tn']> (slots t).
Proof.
  intros Hh Hl Hu Ht Hno Hj. pose proof (parse_invite_payload tn Hh Hu Ht) as [_ Hp].
  rewrite ztake_all in Hp by done. set (payload := invite_payload tn) in *.
  assert (Hlen : 0 <= len payload) by apply len_nonneg.
  unfold tt_tunnel_rx_tcp, sig_packet. change (zat _ 0 =? TT_TUNNEL_SIG_PACKET_ID) with true. cbn iota.
  rewrite len_app. change (len [_; _; _]) with 3. replace (3 + len payload <? 1) with false by lia.
  unfold tunnel_sig_rx. rewrite len_app. change (len [_; _; _]) with 3.
  replace (3 + len payload <? TT_TUNNEL_SIG_HEADER) with false by (unfold TT_TUNNEL_SIG_HEADER; lia).
  change (negb _ || negb _) with false. change (zat _ 2 =? TT_TUN_SIG_INVITE) with true. cbn iota.
  change (zdrop TT_TUNNEL_SIG_HEADER _) with payload. rewrite Hp.
  unfold bind at 1, tunnel_by_peer, get. rewrite Hno.
  unfold bind at 1, tunnel_alloc. rewrite Hj. set (tn' := _ <| t_tcp := t_tcp tn |>).
  cbn -[tn' tt_port_list_to_str]. split; [done|]. split; [done|]. split; [done|]. exists tn'. split; [done|].
  by rewrite list_insert_insert_eq.
Qed.

(** An accepted tunnel of the client. *)
Definition client_open (fn : Z) (udp tcp : TTPortRangeList) (tn : TTTunnel) : Prop :=
  t_host tn = false /\ t_pending tn = false /\ t_peer_fn tn = fn /\ udp_local tn = udp /\ tcp_local tn = tcp.

Lemma accept_step fn udp tcp t j tn id t' :
  ranges_fit udp -> ranges_fit tcp ->
  find_slot (fun tn => Bool.eqb (t_host tn) false && (t_peer_fn tn =? fn)) 0 (slots t) = Some (j, tn) ->
  t_host tn = false -> t_peer_fn tn = fn -> t_pending tn = true ->
  tt_tunnel_accept fn udp tcp t = (id, t') -> id <> 0 ->
  exists tn' ans tr, client_open fn udp tcp tn' /\ id = t_id tn' /\ slots t' = <[j := Some tn']> (slots t) /\
    trace (lk t') = trace (lk t) ++ tr ++ [Packet false fn (sig_packet TT_TUN_SIG_ACCEPT (accept_payload udp tcp)) ans].
Proof.
  intros Hu Ht Hf Hh Hfn Hpend. unfold tt_tunnel_accept, bind at 1, tunnel_by_peer, get at 1. rewrite Hf, Hpend. cbn [negb].
  set (tn1 := tn <| next_connid := 1 |> <| udp_local := udp |> <| tcp_local := tcp |>).
  unfold bind at 1, bind_client_local, bind at 1, get at 1, lift at 1.
  destruct (grows_bind_octets 253 2 (slots t) tn1 (lk t)) as [tr Htr].
  destruct (bind_octets_frame 253 2 (slots t) tn1 (lk t)) as (a & b & o & Hbo).
  destruct (bind_octets 253 2 (slots t) tn1 (lk t)) as [[ok tn2] l2]. cbn [fst snd] in Htr, Hbo. cbn [fst snd].
  destruct ok; cbn [negb]; cycle 1.
  { unfold bind, push_ui, modify. destruct (tunnel_free j tn2 _). intros [= <- _]. done. }
  set (tn' := tn2 <| t_pending := false |>). intros H Hid.
  assert (Hlen : len (accept_payload udp tcp) <= 270).
  { unfold accept_payload. rewrite len_app, !len_range_list_bytes.
    destruct Hu as [Hu _], Ht as [Ht _]. unfold len, TT_TUNNEL_MAX_RANGES in *. lia. }
  unfold bind, set_slot, modify, push_ui, lift in H. cbn [lk set_field] in H. unfold sig_accept in H.
  destruct (sig_send_short fn TT_TUN_SIG_ACCEPT _ l2 Hlen) as (ans & l3 & Hsend & Htr3 & _).
  rewrite Hsend in H. cbv [modify pure] in H. injection H as <- <-.
  exists tn', ans, tr. subst tn'. rewrite Hbo. split_conj; try done.
  cbn. by rewrite Htr3, Htr, <- app_assoc.
Qed.

Lemma accepted_step fn payload t i tn :
  8 <= len payload ->
  find_slot (fun tn => Bool.eqb (t_host tn) true && (t_peer_fn tn =? fn)) 0 (slots t) = Some (i, tn) ->
  t_pending tn = true ->
  tt_tunnel_rx_tcp fn (sig_packet TT_TUN_SIG_ACCEPT payload) t =
    (Some tt, t <| slots := <[i := Some (tn <| t_pending := false |>)]> (slots t) |>
                <| tui := tui t ++ [TuState fn (t_id tn) 1] |>).
Proof.
  intros Hl Hf Hp. unfold tt_tunnel_rx_tcp, sig_packet. change (zat _ 0 =? TT_TUNNEL_SIG_PACKET_ID) with true. cbn iota.
  rewrite len_app. change (len [_; _; _]) with 3. replace (3 + len payload <? 1) with false by lia.
  unfold tunnel_sig_rx. rewrite len_app. change (len [_; _; _]) with 3.
  replace (3 + len payload <? TT_TUNNEL_SIG_HEADER) with false by (unfold TT_TUNNEL_SIG_HEADER; lia).
  change (negb _ || negb _) with false. change (zat _ 2 =? TT_TUN_SIG_INVITE) with false.
  change (zat _ 2 =? TT_TUN_SIG_ACCEPT) with true. cbn iota. change (zdrop TT_TUNNEL_SIG_HEADER _) with payload.
  replace (len payload <? 8) with false by lia.
  unfold bind at 1, tunnel_by_peer, get. rewrite Hf, Hp. done.
Qed.
End signal.

(** ** The properties *)

(** Whatever bytes a peer sends on the tunnel's lossless packets, and in
    whatever state, the receive path reads no byte outside the packet: not for a
    host name without its NUL, not for range counts that promise more than the
    packet holds.  What an invitation yields fits its arrays: a host of at most
    255 bytes without NUL and at most 8 ranges per list. *)
Theorem sig_packets_safe {P : Prims} {E : TunnelEnv} fn data now t :
  (tunnel_lossless fn data now t).1 = Some tt /\
  match parse_invite data with
  | Ok (host, udp, tcp) =>
      len host <= 255 /\ ~ In 0 host /\
      (length udp <= TT_TUNNEL_MAX_RANGES)%nat /\ (length tcp <= TT_TUNNEL_MAX_RANGES)%nat
  | Fail => True
  | Oob => False
  end.
Proof.
  split; [|apply parse_invite_safe].
  assert (Hsig : forall fn d t, (tunnel_sig_rx fn d t).1 = Some tt) by apply tunnel_sig_rx_safe.
  assert (Hrx : forall fn d t, (tt_tunnel_rx_tcp fn d t).1 = Some tt).
  { clear -Hsig. intros fn d t. unfold tt_tunnel_rx_tcp. destruct (_ <? _); [done|].
    destruct (_ =? _); [apply Hsig|]. destruct (_ || _); [done|]. unfold bind. by destruct (do_each _ _ t). }
  unfold tunnel_lossless. destruct (_ <? _); [done|]. destruct (_ || _).
  - destruct (_ || _); [done|]. unfold bind. destruct (lift _ t) as [[[|b pt]|e] t']; [done|apply Hrx|done].
  - destruct (_ || _); [apply Hrx|done].
Qed.

(** Sharing ports with a friend who accepts opens one matching tunnel at
    each end.  The host's invitation, received by a friend with room and no
    tunnel from that host, gives the friend a pending tunnel that carries the
    host's endpoint and port lists unchanged; when the friend accepts with its
    own lists and the local sockets can be bound, its tunnel is open with those
    lists; and the host, receiving the acceptance, opens the very tunnel it
    offered, with the friend on its allowlist.  No other tunnel at either end
    changes. *)
Theorem share_accept_opens {P : Prims} (EA EB : TunnelEnv) ta tb fa fb host udp tcp now i j :
  fb < TT_MAX_FRIENDS -> ~ In 0 host -> len host <= 200 -> ranges_fit udp -> ranges_fit tcp ->
  no_tunnel_with true fb ta -> free_slot 0 (slots ta) = Some i ->
  no_tunnel_with false fa tb -> free_slot 0 (slots tb) = Some j ->
  let '(id, ta1) := @tt_tunnel_share P EA fb host udp tcp now ta in
  exists tn invite ans,
    @shared EA id fb now host udp tcp tn /\ slots ta1 = <[i := Some tn]> (slots ta) /\
    trace (lk ta1) = trace (lk ta) ++ [Packet false fb invite ans] /\
    let '(r, tb1) := @tt_tunnel_rx_tcp P EB fa invite tb in
    r = Some tt /\ (exists tn', invited fa host udp tcp tn' /\ slots tb1 = <[j := Some tn']> (slots tb)) /\
    forall udp' tcp' id' tb2, ranges_fit udp' -> ranges_fit tcp' -> udp' ++ tcp' <> [] ->
      @tt_tunnel_accept P EB fa udp' tcp' tb1 = (id', tb2) -> id' <> 0 ->
      exists tn' accept ans' tr,
        client_open fa udp' tcp' tn' /\ slots tb2 = <[j := Some tn']> (slots tb) /\
        trace (lk tb2) = trace (lk tb1) ++ tr ++ [Packet false fa accept ans'] /\
        let '(r', ta2) := @tt_tunnel_rx_tcp P EA fb accept ta1 in
        r' = Some tt /\ slots ta2 = <[i := Some (tn <| t_pending := false |>)]> (slots ta).
Proof.
  intros Hfb Hh Hl Hu Ht Hna Hi Hnb Hj.
  pose proof (@share_step P EA fb host udp tcp now ta i Hfb Hh ltac:(lia) Hu Ht Hi) as Hshare.
  destruct (@tt_tunnel_share P EA fb host udp tcp now ta) as [id ta1].
  destruct Hshare as (tn & ans & Hs & Hsl & Htr). eexists tn, _, ans. split; [done|]. split; [done|]. split; [done|].
  pose proof Hs as (_ & Hhost & Hpend & _ & Hpeer & E1 & E2 & E3 & _).
  pose proof (@invite_step P EB fa tn tb j) as Hinv. rewrite E1, E2, E3 in Hinv.
  specialize (Hinv Hh Hl Hu Ht Hnb Hj).
  destruct (@tt_tunnel_rx_tcp P EB fa _ tb) as [r tb1]. destruct Hinv as (-> & Hlk & _ & tn' & Hin & Hsb).
  split; [done|]. split; [by exists tn'|]. intros udp' tcp' id' tb2 Hu' Ht' Hne Hacc Hid.
  destruct Hin as (Hc1 & Hc2 & Hc3 & _).
  destruct (free_slot_spec _ _ _ Hj) as [Hjl _]. destruct (free_slot_spec _ _ _ Hi) as [Hil _].
  destruct (@accept_step P EB fa udp' tcp' tb1 j tn' id' tb2) as (tn2 & ans' & tr & Ho & _ & Hsl2 & Htr2); try done.
  { rewrite Hsb. apply find_slot_insert; [exact Hnb|lia|]. by rewrite Hc1, Hc3, Z.eqb_refl. }
  eexists tn2, _, ans', tr. split; [done|]. split; [by rewrite Hsl2, Hsb, list_insert_insert_eq|]. split; [exact Htr2|].
  rewrite (@accepted_step P EA fb _ ta1 i tn).
  - cbn. split; [done|]. by rewrite Hsl, list_insert_insert_eq.
  - assert (Hpos : 0 < len (udp' ++ tcp')) by (destruct (udp' ++ tcp') as [|r rs]; [done|]; rewrite len_cons;
      pose proof (len_nonneg rs); lia).
    rewrite len_app in Hpos. unfold accept_payload. rewrite len_app, !len_range_list_bytes. lia.
  - rewrite Hsl. apply find_slot_insert; [exact Hna|lia|]. by rewrite Hhost, Hpeer, Z.eqb_refl.
  - done.
Qed.

(** ** A share between two clients *)

Module ShareExample.
(** Every packet is taken and every local port can be bound. *)
Definition env : TunnelEnv := {|
  packet_answer _ := AnsOk;
  sock_recv _ _ _ := RecvAgain;
  sock_new _ := None; sock_connect _ _ := ConnectFailed; sock_error _ _ := None;
  sock_accept _ _ := None; resolve _ _ := None; bind_local _ _ port := Some port;
  friend_env _ := mkEnv [] [] None; friend_by_pk _ := None |}.
Definition start : tunnels :=
  mkTunnels (replicate TT_TUNNEL_MAX_TUNNELS None) 0 (mkLink None (0 : Rng) 0 []) [].
(** "localhost", UDP 27015, TCP 80 and 81; the friend maps to 8080. *)
Definition host : bytes := [108; 111; 99; 97; 108; 104; 111; 115; 116].
Definition udp : TTPortRangeList := [mkRange 27015 1].
Definition tcp : TTPortRangeList := [mkRange 80 2].
End ShareExample.

Lemma share_accept_opens_witness :
  let start := ShareExample.start in
  let '(id, ta1) := @tt_tunnel_share _ ShareExample.env 7 ShareExample.host ShareExample.udp ShareExample.tcp 100 start in
  exists tn invite ans,
    @shared ShareExample.env id 7 100 ShareExample.host ShareExample.udp ShareExample.tcp tn /\
    slots ta1 = <[0%nat := Some tn]> (slots start) /\
    trace (lk ta1) = trace (lk start) ++ [Packet false 7 invite ans] /\
    let '(r, tb1) := @tt_tunnel_rx_tcp _ ShareExample.env 3 invite start in
    r = Some tt /\
    (exists tn', invited 3 ShareExample.host ShareExample.udp ShareExample.tcp tn' /\
       slots tb1 = <[0%nat := Some tn']> (slots start)) /\
    forall udp' tcp' id' tb2, ranges_fit udp' -> ranges_fit tcp' -> udp' ++ tcp' <> [] ->
      @tt_tunnel_accept _ ShareExample.env 3 udp' tcp' tb1 = (id', tb2) -> id' <> 0 ->
      exists tn' accept ans' tr,
        client_open 3 udp' tcp' tn' /\ slots tb2 = <[0%nat := Some tn']> (slots start) /\
        trace (lk tb2) = trace (lk tb1) ++ tr ++ [Packet false 3 accept ans'] /\
        let '(r', ta2) := @tt_tunnel_rx_tcp _ ShareExample.env 7 accept ta1 in
        r' = Some tt /\ slots ta2 = <[0%nat := Some (tn <| t_pending := false |>)]> (slots start).
Proof.
  apply (@share_accept_opens sample_prims ShareExample.env ShareExample.env ShareExample.start ShareExample.start
    3 7 ShareExample.host ShareExample.udp ShareExample.tcp 100 0 0).
  - reflexivity.
  - cbn. lia.
  - unfold len. cbn. lia.
  - split; [cbn; unfold TT_TUNNEL_MAX_RANGES; lia|]. repeat constructor; cbn; lia.
  - split; [cbn; unfold TT_TUNNEL_MAX_RANGES; lia|]. repeat constructor; cbn; lia.
  - reflexivity.
  - reflexivity.
  - reflexivity.
  - reflexivity.
Defined.

(** The acceptance itself succeeds on that input. *)
Example share_is_accepted :
  let '(_, tb1) := @tt_tunnel_rx_tcp sample_prims ShareExample.env 3
    (sig_packet TT_TUN_SIG_INVITE (invite_payload
      ((new_tunnel true 1) <| server_host := ShareExample.host |> <| t_udp := ShareExample.udp |> <| t_tcp := ShareExample.tcp |>)))
    ShareExample.start in
  (@tt_tunnel_accept sample_prims ShareExample.env 3 ShareExample.udp [mkRange 8080 2] tb1).1 = 1.
Proof. reflexivity. Qed.
