(* ===== verification/TunnelSafety.v ===== *)
(** * TunnelSafety: the tunnel state stays inside its arrays

    An invariant of every reachable tunnel list: array sizes, port lists within
    their limits, the window and the buffers of every connection bounded, freed
    connection slots clean.  Operations are computations that [keeps] it. *)
From stdpp Require Import relations.
From S2P Require Import Prelude StateM Slots CText Crypto SampleCrypto Frame Session TunnelPorts TunnelLink TunnelConn Tunnel TunnelSignal.

(** ** Connections *)

Record conn_bounds (c : TTTunnelConn) : Prop := {
  cb_unacked : 0 <= unacked c <= TT_TUNNEL_TCP_WINDOW;
  cb_due : 0 <= c_ack_due c < TT_TUNNEL_ACK_BATCH;
  cb_pend : len (pend c) <= TT_TUNNEL_PEND_MAX;
  cb_out : len (outbuf c) <= TT_TUNNEL_PEND_MAX }.

(** Nothing is left for the next connection in the slot. *)
Definition conn_clean (c : TTTunnelConn) : Prop :=
  unacked c = 0 /\ c_ack_due c = 0 /\ pend c = [] /\ outbuf c = [] /\ peer_gone c = false.

Definition conn_inuse (c : TTTunnelConn) : Prop := c_used c = true /\ conn_bounds c.
Definition conn_ok (c : TTTunnelConn) : Prop := conn_inuse c \/ c_used c = false /\ conn_clean c.

Lemma clean_bounds c : conn_clean c -> conn_bounds c.
Proof. intros (H1 & H2 & H3 & H4 & _). split; rewrite ?H1, ?H2, ?H3, ?H4; cbv; done. Qed.
Lemma conn_ok_live c : conn_ok c -> c_used c = true -> conn_inuse c.
Proof. intros [?|[? _]] ?; [done|congruence]. Qed.
Lemma live_ok c : conn_inuse c -> conn_ok c.
Proof. by left. Qed.
#[export] Hint Resolve live_ok : keeps.

Section conns.
Context {P : Prims} {E : TunnelEnv}.
Abbreviation yields := (keeps (fun _ : link => True)).

Lemma conn_free_ok c : yields conn_ok (conn_free c).
Proof. apply keeps_seq; [auto with keeps|]. intros _. apply keeps_pure. right. by destruct c. Qed.

Lemma conn_send_any c op b : yields (fun _ => True) (conn_send c op b).
Proof. apply keeps_any. Qed.

Lemma conn_pend_live c data : conn_inuse c -> conn_inuse (conn_pend c data).
Proof.
  intros [Hu [H1 H2 H3 H4]]. unfold conn_pend. destruct (Z.ltb_spec TT_TUNNEL_PEND_MAX (len (pend c) + len data)); [done|].
  split; [done|]. split; cbn; try done. rewrite len_app. lia.
Qed.
Lemma conn_out_add_live c data c' : conn_inuse c -> conn_out_add c data = Some c' -> conn_inuse c'.
Proof.
  intros [Hu [H1 H2 H3 H4]]. unfold conn_out_add. destruct (Z.ltb_spec TT_TUNNEL_PEND_MAX (len (outbuf c) + len data)); [done|].
  intros [= <-]. split; [done|]. split; cbn; try done. rewrite len_app. lia.
Qed.

Lemma sent_chunk_live c n :
  conn_inuse c -> unacked c < TT_TUNNEL_TCP_WINDOW ->
  conn_inuse (c <| unacked := u16 (unacked c + 1) |> <| outbuf := zdrop n (outbuf c) |>).
Proof.
  intros [Hu [H1 H2 H3 H4]] Hw. unfold TT_TUNNEL_TCP_WINDOW in *. split; [done|]. split; cbn; try done.
  - rewrite u16_small; unfold TT_TUNNEL_TCP_WINDOW; lia.
  - unfold len, zdrop in *. rewrite length_drop. lia.
Qed.

Lemma flush_loop_live fuel m : forall c, conn_inuse c -> yields (fun r => conn_inuse r.2) (flush_loop fuel m c).
Proof.
  induction fuel as [|fuel IH]; intros c Hc; cbn [flush_loop]; [by apply keeps_pure|].
  destruct (negb _ || _) eqn:Eg; [by apply keeps_pure|]. apply orb_false_iff in Eg as [_ Eg]. bool_to_prop.
  apply keeps_seq; [apply keeps_any|]. intros [| |]; try by apply keeps_pure. apply IH. by apply sent_chunk_live.
Qed.
Lemma conn_flush_out_live c : conn_inuse c -> yields (fun r => conn_inuse r.2) (conn_flush_out c).
Proof. intros Hc. apply keeps_seq; [apply keeps_any|]. intros m. by apply flush_loop_live. Qed.

Lemma drain_loop_live fuel : forall c, conn_inuse c -> yields (fun r => conn_inuse r.2) (drain_loop fuel c).
Proof.
  induction fuel as [|fuel IH]; intros c Hc; cbn [drain_loop]; [by apply keeps_pure|].
  apply keeps_seq; [apply keeps_any|]. intros m. apply keeps_seq; [apply keeps_any|].
  intros [b| | |]; try by apply keeps_pure. apply keeps_seq; [apply keeps_any|]. intros _.
  destruct (conn_out_add c b) as [c1|] eqn:Ea; [|by apply keeps_pure].
  eapply keeps_bind; [apply conn_flush_out_live; by eapply conn_out_add_live|].
  intros [[| |] c2] H2; cbn [fst snd] in *; [by apply IH|by apply keeps_pure|by apply keeps_pure].
Qed.
Lemma conn_drain_out_live c : conn_inuse c -> yields (fun r => conn_inuse r.2) (conn_drain_out c).
Proof.
  intros Hc. eapply keeps_bind; [by apply conn_flush_out_live|].
  intros [[| |] c2] H2; cbn [fst snd] in *; [by apply drain_loop_live|by apply keeps_pure|by apply keeps_pure].
Qed.
Lemma drain_or_fin_ok c : conn_inuse c -> yields conn_ok (drain_or_fin c).
Proof.
  intros Hc. eapply keeps_bind; [by apply conn_drain_out_live|]. intros [ok c1] H1. cbn [fst snd] in *.
  destruct ok; [apply keeps_pure; by left|]. apply keeps_seq; [apply keeps_any|]. intros _. apply conn_free_ok.
Qed.

Lemma return_credit_ok c : conn_inuse c -> yields conn_ok (conn_return_credit c).
Proof.
  intros [Hu [H1 H2 H3 H4]]. unfold conn_return_credit. unfold TT_TUNNEL_ACK_BATCH, TT_TUNNEL_TCP_WINDOW in *.
  rewrite u16_small by lia. destruct (_ || _) eqn:Ed.
  - apply keeps_seq; [apply keeps_any|]. intros _. apply keeps_pure. left. split; [done|]. split; cbn; done.
  - apply keeps_pure. left. split; [done|]. split; cbn; try done. unfold TT_TUNNEL_ACK_BATCH. lia.
Qed.
Lemma take_credit_ok payload c : conn_inuse c -> yields conn_ok (conn_take_credit c payload).
Proof.
  intros [Hu [H1 H2 H3 H4]]. unfold conn_take_credit.
  set (n := if 2 <=? len payload then _ else 1).
  assert (Hn : 0 <= n).
  { subst n. destruct (2 <=? len payload); [|done]. pose proof (u8_byte (zat payload 0)). pose proof (u8_byte (zat payload 1)) as Hb.
    rewrite rd16_val by done. unfold is_byte in *. lia. }
  set (c1 := c <| unacked := _ |>).
  assert (Hc1 : conn_inuse c1).
  { split; [done|]. unfold TT_TUNNEL_TCP_WINDOW in *. split; cbn; try done. unfold TT_TUNNEL_TCP_WINDOW.
    destruct (Z.leb_spec (unacked c) n); [lia|]. rewrite u16_small; lia. }
  destruct (_ && _); [apply conn_free_ok|apply keeps_pure; by left].
Qed.
Lemma mark_peer_gone_ok c : conn_inuse c -> yields conn_ok (conn_mark_peer_gone c).
Proof.
  intros [Hu [H1 H2 H3 H4]]. unfold conn_mark_peer_gone. destruct (_ =? 0); [apply conn_free_ok|].
  assert (conn_inuse (c <| peer_gone := true |>)) by by split.
  destruct (_ <=? _); [|apply keeps_pure; by left].
  apply keeps_seq; [apply keeps_any|]. intros _. apply keeps_pure. left. by split.
Qed.
Lemma rx_data_host_ok payload c : conn_inuse c -> yields conn_ok (rx_data_host payload c).
Proof.
  intros Hc. unfold rx_data_host. apply keeps_seq; [apply keeps_any|]. intros _. apply return_credit_ok.
  destruct (connecting c); [by apply conn_pend_live|done].
Qed.
Lemma rx_data_client_ok payload c : conn_inuse c -> yields conn_ok (rx_data_client payload c).
Proof.
  intros Hc. unfold rx_data_client. destruct (_ <=? _); [|apply keeps_pure; by left].
  apply keeps_seq; [apply keeps_any|]. intros _. by apply return_credit_ok.
Qed.

Lemma poll_host_conn_ok c : conn_ok c -> yields conn_ok (poll_host_conn c).
Proof.
  intros Hc. unfold poll_host_conn. destruct (negb (c_used c)) eqn:Hu; [by apply keeps_pure|]. apply negb_false_iff in Hu.
  apply conn_ok_live in Hc; [|done].
  assert (Hd : forall c, conn_inuse c -> yields conn_ok (if c_used c && (0 <=? c_sock c) then drain_or_fin c else pure c)).
  { intros c1 H1. destruct (_ && _); [by apply drain_or_fin_ok|apply keeps_pure; by left]. }
  destruct (connecting c); [|by apply (Hd c)]. apply keeps_seq; [apply keeps_any|].
  pose proof Hc as [_ [H1 H2 H3 H4]].
  intros [[|]|].
  - apply keeps_seq; [apply keeps_any|]. intros _. apply keeps_seq; [apply keeps_any|]. intros _.
    apply Hd. split; [done|]. split; cbn; done.
  - eapply keeps_bind; [apply conn_free_ok|]. intros c1 Hc1. apply keeps_seq; [apply keeps_any|]. intros _. by apply keeps_pure.
  - by apply Hd.
Qed.
Lemma retry_conn_ok c : conn_ok c -> yields conn_ok (retry_conn c).
Proof.
  intros Hc. unfold retry_conn. destruct (c_used c) eqn:Hu; cbn [andb]; [|by apply keeps_pure].
  destruct (_ && _); [|by apply keeps_pure]. apply drain_or_fin_ok. by apply conn_ok_live.
Qed.
Lemma poll_client_conn_ok c : conn_ok c -> yields conn_ok (poll_client_conn c).
Proof.
  intros Hc. unfold poll_client_conn. destruct (c_used c) eqn:Hu; cbn [negb orb]; [|by apply keeps_pure].
  destruct (_ <? _); [by apply keeps_pure|]. apply drain_or_fin_ok. by apply conn_ok_live.
Qed.
End conns.

(** ** Tunnels *)

Record tunnel_ok (tn : TTTunnel) : Prop := {
  to_conns : length (conns tn) = TT_TUNNEL_MAX_CONNS;
  to_each : Forall conn_ok (conns tn);
  to_allow : length (allow tn) = TT_TUNNEL_ALLOW_MAX;
  to_socks : len (socks tn) = N_SOCKS;
  to_listen : len (listen_sock tn) = TT_TUNNEL_MAX_PORTS;
  to_tcp_listen : len (tcp_listen_sock tn) = TT_TUNNEL_MAX_PORTS;
  to_peer : len (t_peer tn) = TT_TUNNEL_MAX_PORTS;
  to_udp_local : ports_ok (udp_local tn);
  to_tcp_local : ports_ok (tcp_local tn);
  to_host : t_host tn = true -> ports_ok (t_udp tn) /\ ports_ok (t_tcp tn);
  to_ranges : (length (t_udp tn) <= TT_TUNNEL_MAX_RANGES)%nat /\ (length (t_tcp tn) <= TT_TUNNEL_MAX_RANGES)%nat;
  to_name : len (server_host tn) <= 255 }.

Definition slot_ok (o : option TTTunnel) : Prop := match o with Some tn => tunnel_ok tn | None => True end.
Definition tunnels_ok {P : Prims} (t : tunnels) : Prop :=
  length (slots t) = TT_TUNNEL_MAX_TUNNELS /\ Forall slot_ok (slots t).

Lemma ports_ok_nil : ports_ok [].
Proof. split; [cbn; unfold TT_TUNNEL_MAX_RANGES; lia|constructor|done]. Qed.
Lemma port_list_parse_ok s : ports_ok (tt_port_list_parse s).2.
Proof.
  unfold tt_port_list_parse. destruct (_ =? 0); [apply ports_ok_nil|].
  pose proof (parse_loop_ok (strtok 44 (snprintf_s 256 s)) [] 0 ports_ok_nil eq_refl) as H.
  by destruct (parse_loop _ [] 0) as [ok l], H.
Qed.

Lemma new_tunnel_ok host id : tunnel_ok (new_tunnel host id).
Proof.
  split; unfold new_tunnel; cbn [conns allow socks listen_sock tcp_listen_sock t_peer udp_local tcp_local t_udp t_tcp server_host length].
  - apply length_replicate.
  - apply Forall_replicate. right. split; [done|]. split_conj; done.
  - apply length_replicate.
  - by apply len_zrep.
  - by apply len_zrep.
  - by apply len_zrep.
  - by apply len_zrep.
  - apply ports_ok_nil.
  - apply ports_ok_nil.
  - split; apply ports_ok_nil.
  - unfold TT_TUNNEL_MAX_RANGES. lia.
  - done.
Qed.

(** The fields an update leaves alone. *)
Lemma conn_set_ok tn i c : tunnel_ok tn -> conn_ok c -> tunnel_ok (conn_set tn i c).
Proof.
  intros [] Hc. split; cbn; try done; [by rewrite length_insert|]. by apply Forall_insert.
Qed.
Lemma set_conns_ok tn cs :
  tunnel_ok tn -> length cs = length (conns tn) -> Forall conn_ok cs -> tunnel_ok (tn <| conns := cs |>).
Proof. intros [] Hl Hc. split; cbn; try done. by rewrite Hl. Qed.
Lemma set_sock_ok tn i s : tunnel_ok tn -> tunnel_ok (tn <| socks := <[i := s]> (socks tn) |>).
Proof. intros []. split; cbn; try done. unfold len in *. by rewrite length_insert. Qed.
Lemma conn_at_ok tn i : tunnel_ok tn -> conn_ok (conn_at tn i).
Proof.
  intros H. unfold conn_at. destruct (conns tn !! i) as [c|] eqn:Hl; cbn.
  - eapply Forall_lookup_1; [by apply to_each|done].
  - right. split; [done|]. split_conj; done.
Qed.

Lemma conn_index_used p l k i : conn_index p k l = Some i -> (k <= i)%nat /\ exists c, l !! (i - k)%nat = Some c /\ p c = true.
Proof.
  revert k. induction l as [|c l IH]; intros k H; cbn in H; [done|]. destruct (p c) eqn:Hp.
  - injection H as <-. split; [lia|]. exists c. by rewrite Nat.sub_diag.
  - apply IH in H as [H1 (d & H2 & H3)]. split; [lia|]. exists d.
    by replace (i - k)%nat with (S (i - S k)) by lia.
Qed.
Lemma conn_find_live tn fn id i : tunnel_ok tn -> conn_find tn fn id = Some i -> conn_inuse (conn_at tn i).
Proof.
  intros Hok H. apply conn_ok_live; [by apply conn_at_ok|]. unfold conn_find in H.
  apply conn_index_used in H as [_ (c & H1 & H2)]. rewrite Nat.sub_0_r in H1. unfold conn_at. rewrite H1. cbn.
  by destruct (c_used c).
Qed.
(** A slot taken by [conn_alloc] is live and clean. *)
Lemma conn_alloc_live tn i c : tunnel_ok tn -> conn_alloc tn = Some (i, c) -> conn_inuse c.
Proof.
  intros Hok H. unfold conn_alloc in H. destruct (conn_index _ 0 (conns tn)) as [j|] eqn:Hj; [|done].
  injection H as <- <-. split; [done|]. pose proof (conn_at_ok tn j Hok) as Hc. apply conn_index_used in Hj as [_ (c & H1 & H2)].
  rewrite Nat.sub_0_r in H1. unfold conn_at in *. rewrite H1 in *. cbn [default id] in *. apply negb_true_iff in H2.
  destruct Hc as [[Hu _]|[_ (E1 & E2 & E3 & E4 & _)]]; [congruence|]. split; cbn; rewrite ?E3, ?E4; cbv; done.
Qed.

(** Changing what says who and where of a connection. *)
Lemma conn_inuse_route c c' :
  conn_inuse c -> c_used c' = c_used c -> unacked c' = unacked c -> c_ack_due c' = c_ack_due c ->
  pend c' = pend c -> outbuf c' = outbuf c -> conn_inuse c'.
Proof. intros [Hu [H1 H2 H3 H4]] E1 E2 E3 E4 E5. split; [congruence|]. split; congruence || (rewrite ?E2, ?E3, ?E4, ?E5; done). Qed.

Section tunnel_ops.
Context {P : Prims} {E : TunnelEnv}.
Abbreviation yields := (keeps (fun _ : link => True)).

Lemma host_open_conn_ok tn fn port id : tunnel_ok tn -> yields tunnel_ok (host_open_conn tn fn port id).
Proof.
  intros Hok. unfold host_open_conn. destruct (conn_find tn fn id); [by apply keeps_pure|].
  destruct (conn_alloc tn) as [[i c]|] eqn:Ha; [|apply keeps_seq; [apply keeps_any|]; intros; by apply keeps_pure].
  apply conn_alloc_live in Ha; [|done].
  set (c1 := c <| c_fn := fn |> <| c_port := port |> <| connid := id |>).
  assert (Hc1 : conn_inuse c1) by by eapply conn_inuse_route.
  assert (Hfail : forall c, yields tunnel_ok (let* c := conn_free c in
    do* tcp_send fn port id TT_TCP_OPEN_FAIL [] in pure (conn_set tn i c))).
  { intros c'. eapply keeps_bind; [apply conn_free_ok|]. intros c2 H2. apply keeps_seq; [apply keeps_any|].
    intros _. apply keeps_pure. by apply conn_set_ok. }
  apply keeps_seq; [apply keeps_any|]. intros [fd|]; [|apply Hfail].
  assert (Hc2 : conn_inuse (c1 <| c_sock := fd |>)) by by eapply conn_inuse_route.
  cbn zeta. destruct (if _ <=? _ then _ else _); [|apply Hfail].
  apply keeps_seq; [apply keeps_any|]. intros [| |]; [| |apply Hfail].
  - apply keeps_seq; [apply keeps_any|]. intros _. apply keeps_pure. apply conn_set_ok; [done|by left].
  - apply keeps_pure. apply conn_set_ok; [done|]. left. by eapply conn_inuse_route.
Qed.

Lemma poll_conns_ok tn (f : TTTunnelConn -> M link TTTunnelConn) cs :
  tunnel_ok tn -> length cs = length (conns tn) -> Forall conn_ok cs -> (forall c, conn_ok c -> yields conn_ok (f c)) ->
  yields (fun cs' => Forall conn_ok cs' /\ length cs' = length (conns tn)) (map_m f cs).
Proof.
  intros Hok Hl Hcs Hf. eapply keeps_impl; [apply (keeps_map_m _ conn_ok conn_ok f cs Hf Hcs)|].
  intros cs' [H1 H2]. by rewrite H2.
Qed.

Lemma tunnel_poll_host_ok tn : tunnel_ok tn -> yields tunnel_ok (tunnel_poll_host tn).
Proof.
  intros Hok. unfold tunnel_poll_host. apply keeps_seq; [apply keeps_any|]. intros _.
  eapply keeps_bind; [apply (poll_conns_ok tn); [done|done|by apply to_each|apply poll_host_conn_ok]|].
  intros cs [H1 H2]. apply keeps_seq; [apply keeps_any|]. intros on.
  eapply (keeps_bind _ (fun cs => Forall conn_ok cs /\ length cs = length (conns tn))).
  - destruct on; [apply (poll_conns_ok tn); [done|done|done|apply retry_conn_ok]|by apply keeps_pure].
  - intros cs' [H3 H4]. apply keeps_pure. by apply set_conns_ok.
Qed.

Lemma poll_listen_ok tn from i : tunnel_ok tn -> yields tunnel_ok (poll_listen tn from i).
Proof.
  intros Hok. unfold poll_listen. destruct (_ <? 0); [by apply keeps_pure|]. apply keeps_seq; [apply keeps_any|].
  intros [k r]. cbn [fst snd]. destruct r; try by apply keeps_pure. apply keeps_seq; [apply keeps_any|].
  intros _. apply keeps_pure. destruct (default None _); [done|]. destruct Hok. split; cbn; try done.
  unfold len in *. by rewrite length_insert.
Qed.
Lemma poll_listens_ok n : forall from i tn, tunnel_ok tn -> yields tunnel_ok (poll_listens n from i tn).
Proof.
  induction n as [|n IH]; intros from i tn Hok; cbn [poll_listens]; [by apply keeps_pure|].
  eapply keeps_bind; [by apply poll_listen_ok|]. intros tn1 H1. by apply IH.
Qed.
Lemma accept_loop_ok n : forall fd i tn, tunnel_ok tn -> yields tunnel_ok (accept_loop n fd i tn).
Proof.
  induction n as [|n IH]; intros fd i tn Hok; cbn [accept_loop]; [by apply keeps_pure|].
  apply keeps_seq; [apply keeps_any|]. intros [new|]; [|by apply keeps_pure].
  destruct (conn_alloc tn) as [[j c]|] eqn:Ha; [|apply keeps_seq; [apply keeps_any|]; intros; by apply keeps_pure].
  apply conn_alloc_live in Ha; [|done]. apply keeps_seq; [apply keeps_any|]. intros _. apply IH.
  match goal with |- tunnel_ok (?tn' <| next_connid := _ |>) => assert (H : tunnel_ok tn') end.
  { apply conn_set_ok; [done|]. left. by eapply conn_inuse_route. }
  by destruct H.
Qed.
Lemma accept_ports_ok n : forall i tn, tunnel_ok tn -> yields tunnel_ok (accept_ports n i tn).
Proof.
  induction n as [|n IH]; intros i tn Hok; cbn [accept_ports]; [by apply keeps_pure|].
  eapply (keeps_bind _ tunnel_ok); [destruct (_ <? 0); [by apply keeps_pure|by apply accept_loop_ok]|].
  intros tn1 H1. by apply IH.
Qed.
Lemma tunnel_poll_client_ok from tn : tunnel_ok tn -> yields tunnel_ok (tunnel_poll_client from tn).
Proof.
  intros Hok. unfold tunnel_poll_client.
  eapply (keeps_bind _ tunnel_ok); [destruct (_ =? _); [by apply keeps_pure|by apply poll_listens_ok]|].
  intros tn1 H1. eapply keeps_bind; [by apply accept_ports_ok|]. intros tn2 H2.
  eapply keeps_bind; [apply (poll_conns_ok tn2); [done|done|by apply to_each|apply poll_client_conn_ok]|].
  intros cs [H3 H4]. eapply keeps_bind; [apply (poll_conns_ok tn2); [done|done|done|apply retry_conn_ok]|].
  intros cs' [H5 H6]. apply keeps_pure. by apply set_conns_ok.
Qed.

Lemma with_conn_ok tn fn id f :
  tunnel_ok tn -> (forall c, conn_inuse c -> yields conn_ok (f c)) -> yields tunnel_ok (with_conn tn fn id f).
Proof.
  intros Hok Hf. unfold with_conn. destruct (conn_find tn fn id) as [i|] eqn:Hi; [|by apply keeps_pure].
  eapply keeps_bind; [by apply Hf, (conn_find_live tn fn id)|]. intros c Hc. apply keeps_pure. by apply conn_set_ok.
Qed.
Lemma tunnel_tcp_rx_host_ok tn fn port id op payload :
  tunnel_ok tn -> yields tunnel_ok (tunnel_tcp_rx_host tn fn port id op payload).
Proof.
  intros Hok. unfold tunnel_tcp_rx_host. destruct (_ =? _); [by apply host_open_conn_ok|].
  destruct (_ =? _); [apply with_conn_ok; [done|apply rx_data_host_ok]|].
  destruct (_ =? _); [apply with_conn_ok; [done|apply take_credit_ok]|].
  destruct (_ =? _); [apply with_conn_ok; [done|apply mark_peer_gone_ok]|by apply keeps_pure].
Qed.
Lemma tunnel_tcp_rx_client_ok tn fn port id op payload :
  tunnel_ok tn -> yields tunnel_ok (tunnel_tcp_rx_client tn fn port id op payload).
Proof.
  intros Hok. unfold tunnel_tcp_rx_client. destruct (_ <=? _); [by apply keeps_pure|].
  destruct (_ =? _); [apply with_conn_ok; [done|intros; apply conn_free_ok]|].
  destruct (_ =? _); [apply with_conn_ok; [done|apply rx_data_client_ok]|].
  destruct (_ =? _); [apply with_conn_ok; [done|apply take_credit_ok]|].
  destruct (_ =? _); [apply with_conn_ok; [done|apply mark_peer_gone_ok]|by apply keeps_pure].
Qed.
Lemma host_forward_ok tn fn port data : tunnel_ok tn -> yields tunnel_ok (host_forward tn fn port data).
Proof.
  intros Hok. unfold host_forward. destruct (_ <=? _); [by apply keeps_pure|]. destruct (negb _); [by apply keeps_pure|].
  eapply (keeps_bind _ (fun r => tunnel_ok r.1)).
  - unfold host_sock. destruct (_ || _); [by apply keeps_pure|]. destruct (s_used _); [by apply keeps_pure|].
    apply keeps_seq; [apply keeps_any|]. intros [fd|]; [|by apply keeps_pure].
    destruct (resolve _ _); [|apply keeps_seq; [apply keeps_any|]; intros; by apply keeps_pure].
    apply keeps_pure. by apply set_sock_ok.
  - intros [tn1 [fd|]] H1; cbn [fst snd] in *; [|by apply keeps_pure].
    apply keeps_seq; [apply keeps_any|]. intros _. by apply keeps_pure.
Qed.

(** Binding fills at most as many sockets as the lists have ports. *)
Lemma bind_ports_short n : forall i ip l, yields (fun r => (length r.1 <= n)%nat) (bind_ports n i ip l).
Proof.
  induction n as [|n IH]; intros i ip l; cbn [bind_ports]; [apply keeps_pure; cbn; lia|].
  apply keeps_seq; [apply keeps_any|]. intros [fd|]; [|apply keeps_pure; cbn; lia].
  eapply keeps_bind; [apply IH|]. intros r Hr. apply keeps_pure. cbn [fst length] in *. lia.
Qed.
Lemma bound_short {A} (r : list A) l : ports_ok l -> (length r <= Z.to_nat (tt_port_list_len l))%nat -> len r <= TT_TUNNEL_MAX_PORTS.
Proof. intros [_ He Ht] H. pose proof (port_list_len_nonneg l He). unfold len. lia. Qed.

Lemma bind_octets_ok n : forall ip sl tn, tunnel_ok tn -> yields (fun r => tunnel_ok r.2) (bind_octets n ip sl tn).
Proof.
  induction n as [|n IH]; intros ip sl tn Hok; cbn [bind_octets]; [by apply keeps_pure|].
  destruct (octet_used sl ip); [by apply IH|].
  eapply keeps_bind; [apply bind_ports_short|]. intros u Hu. cbn zeta.
  set (tn1 := tn <| listen_sock := _ |>).
  assert (H1 : tunnel_ok tn1).
  { pose proof (bound_short _ _ (to_udp_local _ Hok) Hu). destruct Hok. split; cbn; try done.
    rewrite len_overwrite; [done|lia]. }
  destruct (negb u.2); [apply keeps_seq; [apply keeps_any|]; intros; by apply IH|].
  eapply keeps_bind; [apply bind_ports_short|]. intros c Hc.
  set (tn2 := tn1 <| tcp_listen_sock := _ |>).
  assert (H2 : tunnel_ok tn2).
  { pose proof (bound_short _ _ (to_tcp_local _ H1) Hc). destruct H1. split; cbn; try done.
    rewrite len_overwrite; [done|]. cbn in *. lia. }
  destruct (negb c.2).
  { apply keeps_seq; [apply keeps_any|]. intros _. apply keeps_seq; [apply keeps_any|]. intros _. by apply IH. }
  apply keeps_pure. cbn [snd]. by destruct H2.
Qed.
End tunnel_ops.

(** ** The tunnel list *)

Section list_ops.
Context {P : Prims} {E : TunnelEnv}.
Abbreviation yields := (keeps (fun _ : link => True)).
(** Keeps the tunnel list well formed. *)
Abbreviation safe := (keeps tunnels_ok).
Abbreviation any := (fun _ => True).
Definition found_ok (o : option (nat * TTTunnel)) : Prop := match o with Some (_, tn) => tunnel_ok tn | None => True end.

Lemma lift_kept {A} (J : A -> Prop) (m : M link A) : yields J m -> safe J (lift m).
Proof. intros Hm t Ht. unfold lift. destruct (Hm (lk t) I) as [Ha _]. by destruct (m (lk t)). Qed.
Lemma lift_any {A} (m : M link A) : safe any (lift m).
Proof. apply lift_kept, keeps_any. Qed.
Lemma push_ui_kept e : safe any (push_ui e).
Proof. by apply keeps_modify. Qed.
Lemma set_slot_kept i o : slot_ok o -> safe any (set_slot i o).
Proof.
  intros Ho. apply keeps_modify. intros t [H1 H2]. split; cbn; [by rewrite length_insert|by apply Forall_insert].
Qed.
Lemma slot_kept i : safe slot_ok (get (fun t => slot_of t i)).
Proof.
  apply keeps_get. intros t [_ Ht]. unfold slot_of. destruct (slots t !! i) as [o|] eqn:Hl; [|done].
  by apply (Forall_lookup_1 _ _ _ _ Ht Hl).
Qed.
Lemma find_slot_ok p l k : Forall slot_ok l -> found_ok (find_slot p k l).
Proof.
  intros Hl. revert k. induction Hl as [|o l Ho _ IH]; intros k; cbn; [done|].
  destruct o as [tn|]; [|apply IH]. destruct (p tn); [done|apply IH].
Qed.
Lemma tunnel_find_kept id : safe found_ok (tunnel_find id).
Proof. apply keeps_get. intros t [_ Ht]. by apply find_slot_ok. Qed.
Lemma tunnel_by_peer_kept fn host : safe found_ok (tunnel_by_peer fn host).
Proof. apply keeps_get. intros t [_ Ht]. by apply find_slot_ok. Qed.
Lemma tunnel_alloc_kept host : safe found_ok (tunnel_alloc host).
Proof.
  intros t [H1 H2]. unfold tunnel_alloc. destruct (free_slot 0 (slots t)) as [i|]; [|done].
  split; [apply new_tunnel_ok|]. split; cbn; [by rewrite length_insert|].
  apply Forall_insert; [done|]. apply new_tunnel_ok.
Qed.
Lemma tunnel_free_kept i tn : safe any (tunnel_free i tn).
Proof. apply keeps_seq; [apply lift_any|]. intros _. by apply set_slot_kept. Qed.

(** What [tunnel_sig_rx] stores for an invitation. *)
Lemma invited_ok tn fn host udp tcp :
  tunnel_ok tn -> t_host tn = false -> len host <= 255 ->
  (length udp <= TT_TUNNEL_MAX_RANGES)%nat -> (length tcp <= TT_TUNNEL_MAX_RANGES)%nat ->
  tunnel_ok (tn <| t_pending := true |> <| t_peer_fn := fn |> <| server_host := host |> <| t_udp := udp |> <| t_tcp := tcp |>).
Proof. intros [] Hh Hl Hu Ht. split; cbn; try done. by rewrite Hh. Qed.
Lemma hosted_ok tn host udp tcp :
  tunnel_ok tn -> ports_ok udp -> ports_ok tcp ->
  tunnel_ok (tn <| server_host := c_str256 host |> <| t_udp := udp |> <| t_tcp := tcp |>).
Proof.
  intros [] Hu Ht. split; cbn; try done; [by destruct Hu, Ht|]. unfold c_str256, snprintf_s, len, ztake. rewrite length_take. lia.
Qed.
Lemma local_ports_ok tn udp tcp :
  tunnel_ok tn -> ports_ok udp -> ports_ok tcp -> tunnel_ok (tn <| udp_local := udp |> <| tcp_local := tcp |>).
Proof. intros [] Hu Ht. by split. Qed.
(** Updates of fields the invariant does not mention. *)
Lemma same_arrays_ok tn tn' :
  tunnel_ok tn -> conns tn' = conns tn -> length (allow tn') = length (allow tn) -> socks tn' = socks tn ->
  listen_sock tn' = listen_sock tn -> tcp_listen_sock tn' = tcp_listen_sock tn -> t_peer tn' = t_peer tn ->
  udp_local tn' = udp_local tn -> tcp_local tn' = tcp_local tn -> t_host tn' = t_host tn ->
  t_udp tn' = t_udp tn -> t_tcp tn' = t_tcp tn -> server_host tn' = server_host tn -> tunnel_ok tn'.
Proof. intros [] E1 E2 E3 E4 E5 E6 E7 E8 E9 E10 E11 E12. split; rewrite ?E1, ?E2, ?E3, ?E4, ?E5, ?E6, ?E7, ?E8, ?E9, ?E10, ?E11, ?E12; done. Qed.

Lemma tunnel_alloc_role host :
  safe (fun o => found_ok o /\ match o with Some (_, tn) => t_host tn = host | None => True end) (tunnel_alloc host).
Proof.
  intros t Ht. destruct (tunnel_alloc_kept host t Ht) as [H1 H2]. split; [split; [done|]|done].
  unfold tunnel_alloc. by destruct (free_slot 0 (slots t)).
Qed.

Lemma tunnel_sig_rx_kept fn data : safe any (tunnel_sig_rx fn data).
Proof.
  unfold tunnel_sig_rx. destruct (_ <? _); [by apply keeps_pure|]. destruct (_ || _); [by apply keeps_pure|].
  destruct (_ =? _).
  { destruct (parse_invite _) as [[[host udp] tcp]| |] eqn:Hp; [|by apply keeps_pure|by apply keeps_pure].
    pose proof (parse_invite_safe (zdrop TT_TUNNEL_SIG_HEADER data)) as Hs. rewrite Hp in Hs. destruct Hs as (H1 & _ & H2 & H3).
    apply keeps_seq; [eapply keeps_impl; [apply tunnel_by_peer_kept|done]|]. intros [?|]; [by apply keeps_pure|].
    eapply keeps_bind; [apply tunnel_alloc_role|]. intros [[i tn]|] [Hok Hrole]; [|by apply keeps_pure].
    apply keeps_seq; [apply set_slot_kept; by apply invited_ok|]. intros _.
    apply keeps_seq; [apply push_ui_kept|]. intros _. by apply keeps_pure. }
  destruct (_ =? _).
  { destruct (_ <? _); [by apply keeps_pure|]. eapply keeps_bind; [apply tunnel_by_peer_kept|].
    intros [[i tn]|] Hok; [|by apply keeps_pure]. destruct (negb _); [by apply keeps_pure|].
    apply keeps_seq; [apply set_slot_kept; by eapply same_arrays_ok|]. intros _.
    apply keeps_seq; [apply push_ui_kept|]. intros _. by apply keeps_pure. }
  destruct (_ =? _); [|by apply keeps_pure]. eapply keeps_bind; [apply tunnel_by_peer_kept|].
  intros [[i tn]|] Hok; [|by apply keeps_pure]. destruct (negb _); [by apply keeps_pure|].
  apply keeps_seq; [apply push_ui_kept|]. intros _. apply keeps_seq; [apply tunnel_free_kept|]. intros _. by apply keeps_pure.
Qed.

Lemma bind_client_local_kept tn : tunnel_ok tn -> safe (fun r => tunnel_ok r.2) (bind_client_local tn).
Proof. intros Hok. apply keeps_seq; [by apply keeps_get|]. intros sl. apply lift_kept. by apply bind_octets_ok. Qed.

Lemma tt_tunnel_start_host_kept host udp tcp : ports_ok udp -> ports_ok tcp -> safe any (tt_tunnel_start_host host udp tcp).
Proof.
  intros Hu Ht. eapply keeps_bind; [apply tunnel_alloc_kept|]. intros [[i tn]|] Hok; [|by apply keeps_pure].
  apply keeps_seq; [apply set_slot_kept; by apply hosted_ok|]. intros _. by apply keeps_pure.
Qed.
Lemma tt_tunnel_start_client_kept udp tcp pk : ports_ok udp -> ports_ok tcp -> safe any (tt_tunnel_start_client udp tcp pk).
Proof.
  intros Hu Ht. eapply keeps_bind; [apply tunnel_alloc_kept|]. intros [[i tn]|] Hok; [|by apply keeps_pure].
  destruct (hex_to_pk pk); [|apply keeps_seq; [apply tunnel_free_kept|]; intros; by apply keeps_pure].
  eapply keeps_bind; [apply bind_client_local_kept, local_ports_ok; [by eapply same_arrays_ok|done|done]|].
  intros [ok tn1] H1. cbn [fst snd] in *. destruct ok.
  - apply keeps_seq; [by apply set_slot_kept|]. intros _. by apply keeps_pure.
  - apply keeps_seq; [apply tunnel_free_kept|]. intros _. by apply keeps_pure.
Qed.

Lemma allow_put_length a l : length (allow_put a l).1 = length l.
Proof. induction l as [|x l IH]; cbn; [done|]. destruct (al_used x); [|done]. destruct (allow_put a l). cbn in *. by rewrite IH. Qed.
Lemma allow_drop_length pk l a l' : allow_drop pk l = Some (a, l') -> length l' = length l.
Proof.
  revert l'. induction l as [|x l IH]; intros l' H; cbn in H; [done|]. destruct (allow_has pk x); [by injection H as <- <-|].
  destruct (allow_drop pk l) as [[y l1]|]; [|done]. injection H as <- <-. cbn. by rewrite (IH l1).
Qed.
Lemma allow_tunnel_ok tn pk : tunnel_ok tn -> tunnel_ok (allow_tunnel tn pk).1.
Proof.
  intros Hok. unfold allow_tunnel. destruct (existsb _ _); [done|].
  pose proof (allow_put_length (mkAllow true pk (default UINT32_MAX (friend_by_pk pk))) (allow tn)) as Hl.
  destruct (allow_put _ _) as [l ok]. cbn in *. by eapply same_arrays_ok.
Qed.
Lemma tt_tunnel_allow_kept id pk : safe any (tt_tunnel_allow id pk).
Proof.
  eapply keeps_bind; [apply tunnel_find_kept|]. intros [[i tn]|] Hok; [|by apply keeps_pure].
  destruct (negb _); [by apply keeps_pure|]. destruct (hex_to_pk pk) as [k|]; [|by apply keeps_pure].
  pose proof (allow_tunnel_ok tn k Hok) as H1. destruct (allow_tunnel tn k) as [tn1 ok].
  apply keeps_seq; [by apply set_slot_kept|]. intros _. by apply keeps_pure.
Qed.
Lemma allow_all_kept pk : safe any (tt_tunnel_allow_all pk).
Proof.
  apply keeps_each. intros i. eapply keeps_bind; [apply slot_kept|]. intros [tn|] Hok; [|by apply keeps_pure].
  destruct (t_host tn); [|by apply keeps_pure]. apply keeps_seq; [apply tt_tunnel_allow_kept|]. intros _. by apply keeps_pure.
Qed.
Lemma tt_tunnel_deny_kept id pk : safe any (tt_tunnel_deny id pk).
Proof.
  eapply keeps_bind; [apply tunnel_find_kept|]. intros [[i tn]|] Hok; [|by apply keeps_pure].
  destruct (negb _); [by apply keeps_pure|]. destruct (hex_to_pk pk) as [k|]; [|by apply keeps_pure].
  eapply (keeps_bind _ (fun r => tunnel_ok r.1)).
  - apply lift_kept. unfold deny_tunnel. destruct (allow_drop k (allow tn)) as [[a l]|] eqn:Hd; [|by apply keeps_pure].
    apply allow_drop_length in Hd. assert (H1 : tunnel_ok (tn <| allow := l |>)) by by eapply same_arrays_ok.
    cbn zeta. destruct (_ && _); [|by apply keeps_pure].
    apply keeps_seq; [apply keeps_any|]. intros _. apply keeps_pure. by apply set_sock_ok.
  - intros [tn1 ok] H1. cbn [fst snd] in *. apply keeps_seq; [by apply set_slot_kept|]. intros _. by apply keeps_pure.
Qed.

Lemma tt_tunnel_stop_kept id : safe any (tt_tunnel_stop id).
Proof.
  eapply keeps_bind; [apply tunnel_find_kept|]. intros [[i tn]|] Hok; [|by apply keeps_pure].
  apply keeps_seq; [apply push_ui_kept|]. intros _. apply tunnel_free_kept.
Qed.
Lemma tt_tunnel_stop_all_kept : safe any tt_tunnel_stop_all.
Proof.
  apply keeps_each. intros i. eapply keeps_bind; [apply slot_kept|]. intros [tn|] Hok; [apply tunnel_free_kept|by apply keeps_pure].
Qed.

Lemma tt_tunnel_share_kept fn host udp tcp now : ports_ok udp -> ports_ok tcp -> safe any (tt_tunnel_share fn host udp tcp now).
Proof.
  intros Hu Ht. unfold tt_tunnel_share. destruct (_ <=? _); [by apply keeps_pure|].
  eapply keeps_bind; [apply tunnel_alloc_kept|]. intros [[i tn]|] Hok; [|by apply keeps_pure].
  apply keeps_seq; [apply set_slot_kept|]; cycle 1.
  { intros _. apply keeps_seq; [apply lift_any|]. intros _. apply keeps_seq; [apply push_ui_kept|]. intros _. by apply keeps_pure. }
  assert (H1 : tunnel_ok (tn <| t_pending := true |> <| t_pending_since := now |> <| t_peer_fn := fn |>
    <| server_host := c_str256 host |> <| t_udp := udp |> <| t_tcp := tcp |>))
    by (apply hosted_ok; [by eapply same_arrays_ok|done|done]).
  cbn [slot_ok]. destruct (peer_pk (friend_env fn)) as [pk|]; [|done].
  eapply same_arrays_ok; [exact H1|..]; try done. cbn -[allow_put]. apply allow_put_length.
Qed.
Lemma tt_tunnel_accept_kept fn udp tcp : ports_ok udp -> ports_ok tcp -> safe any (tt_tunnel_accept fn udp tcp).
Proof.
  intros Hu Ht. eapply keeps_bind; [apply tunnel_by_peer_kept|]. intros [[i tn]|] Hok; [|by apply keeps_pure].
  destruct (negb _); [by apply keeps_pure|].
  eapply keeps_bind; [apply bind_client_local_kept, local_ports_ok; [by eapply same_arrays_ok|done|done]|].
  intros [ok tn1] H1. cbn [fst snd] in *. destruct ok; cbn [negb].
  - apply keeps_seq; [apply set_slot_kept; by eapply same_arrays_ok|]. intros _.
    apply keeps_seq; [apply lift_any|]. intros _. apply keeps_seq; [apply push_ui_kept|]. intros _. by apply keeps_pure.
  - apply keeps_seq; [apply push_ui_kept|]. intros _. apply keeps_seq; [apply tunnel_free_kept|]. intros _. by apply keeps_pure.
Qed.
Lemma tt_tunnel_decline_kept fn : safe any (tt_tunnel_decline fn).
Proof.
  eapply keeps_bind; [apply tunnel_by_peer_kept|]. intros [[i tn]|] Hok; [|by apply keeps_pure].
  destruct (negb _); [by apply keeps_pure|]. apply keeps_seq; [apply lift_any|]. intros _. apply tunnel_free_kept.
Qed.

(** ** Packets and the poll *)

Lemma tt_tunnel_rx_kept fn data : safe any (tt_tunnel_rx fn data).
Proof.
  unfold tt_tunnel_rx. destruct (_ <? _); [by apply keeps_pure|]. destruct (_ || _); [by apply keeps_pure|].
  apply keeps_each. intros i. eapply keeps_bind; [apply slot_kept|]. intros [tn|] Hok; [|by apply keeps_pure].
  destruct (t_pending tn); [by apply keeps_pure|]. destruct (t_host tn).
  - eapply keeps_bind; [apply lift_kept; by apply host_forward_ok|]. intros tn1 H1. by apply set_slot_kept.
  - destruct (_ && _); [|by apply keeps_pure]. destruct (default None _); [apply lift_any|by apply keeps_pure].
Qed.
Lemma tt_tunnel_rx_tcp_kept fn data : safe any (tt_tunnel_rx_tcp fn data).
Proof.
  unfold tt_tunnel_rx_tcp. destruct (_ <? _); [by apply keeps_pure|]. destruct (_ =? _); [apply tunnel_sig_rx_kept|].
  destruct (_ || _); [by apply keeps_pure|]. apply keeps_seq; [|intros; by apply keeps_pure].
  apply keeps_each. intros i. eapply keeps_bind; [apply slot_kept|]. intros [tn|] Hok; [|by apply keeps_pure].
  destruct (t_pending tn); [by apply keeps_pure|]. destruct (t_host tn).
  - eapply keeps_bind; [apply lift_kept; by apply tunnel_tcp_rx_host_ok|]. intros tn1 H1. by apply set_slot_kept.
  - destruct (_ =? _); [|by apply keeps_pure].
    eapply keeps_bind; [apply lift_kept; by apply tunnel_tcp_rx_client_ok|]. intros tn1 H1. by apply set_slot_kept.
Qed.
Lemma tunnel_lossless_kept fn data now : safe any (tunnel_lossless fn data now).
Proof.
  unfold tunnel_lossless. destruct (_ <? _); [by apply keeps_pure|]. destruct (_ || _).
  - destruct (_ || _); [by apply keeps_pure|]. apply keeps_seq; [apply lift_any|].
    intros [[|b pt]|e]; [by apply keeps_pure|apply tt_tunnel_rx_tcp_kept|by apply keeps_pure].
  - destruct (_ || _); [apply tt_tunnel_rx_tcp_kept|by apply keeps_pure].
Qed.
Lemma cb_friend_lossy_packet_kept fn data now : safe any (cb_friend_lossy_packet fn data now).
Proof.
  unfold cb_friend_lossy_packet. destruct (_ && _); [|apply tt_tunnel_rx_kept].
  apply keeps_seq; [apply lift_any|]. intros [[|b pt]|e]; [by apply keeps_pure|apply tt_tunnel_rx_kept|by apply keeps_pure].
Qed.

Lemma tunnel_resolve_ok tn : tunnel_ok tn -> tunnel_ok (tunnel_resolve tn).
Proof.
  intros Hok. unfold tunnel_resolve. destruct (negb _); [done|]. destruct (friend_by_pk _); [|done]. by eapply same_arrays_ok.
Qed.
Lemma poll_e2ee_ok tn now : tunnel_ok tn -> safe tunnel_ok (poll_e2ee tn now).
Proof.
  intros Hok. unfold poll_e2ee. apply keeps_seq; [apply lift_any|]. intros on. destruct (_ || _); [by apply keeps_pure|].
  apply keeps_seq; [by apply keeps_get|]. intros ts.
  apply keeps_seq; [destruct (_ && _); [apply lift_any|by apply keeps_pure]|]. intros _.
  apply keeps_seq; [by apply keeps_get|]. intros live. destruct (Bool.eqb _ _); [by apply keeps_pure|].
  apply keeps_seq; [apply push_ui_kept|]. intros _. apply keeps_pure. by eapply same_arrays_ok.
Qed.
Lemma tt_tunnel_poll_kept from now : safe any (tt_tunnel_poll from now).
Proof.
  apply keeps_each. intros i. eapply keeps_bind; [apply slot_kept|]. intros [tn|] Hok; [|by apply keeps_pure].
  destruct (_ && _); [apply keeps_seq; [apply push_ui_kept|]; intros; apply tunnel_free_kept|].
  destruct (t_pending tn); [by apply keeps_pure|].
  eapply keeps_bind; [apply poll_e2ee_ok, tunnel_resolve_ok; done|]. intros tn1 H1.
  eapply (keeps_bind _ tunnel_ok).
  - apply lift_kept. destruct (t_host tn1); [by apply tunnel_poll_host_ok|by apply tunnel_poll_client_ok].
  - intros tn2 H2. apply keeps_seq; [apply lift_any|]. intros _. by apply set_slot_kept.
Qed.

(** ** Reachability *)

(** Everything that happens to the tunnel list: the interface's commands, the
    packets of any peer, the poll. *)
Inductive tunnel_step : tunnels -> tunnels -> Prop :=
| on_share t fn text now : tunnel_step t (cmd_tunnel_share fn text now t).2
| on_accept t fn text : tunnel_step t (cmd_tunnel_accept fn text t).2
| on_decline t fn : tunnel_step t (tt_tunnel_decline fn t).2
| on_stop t id : tunnel_step t (tt_tunnel_stop id t).2
| on_stop_all t : tunnel_step t (tt_tunnel_stop_all t).2
| on_allow t id pk : tunnel_step t (cmd_tunnel_allow id pk t).2
| on_deny t id pk : tunnel_step t (tt_tunnel_deny id pk t).2
| on_start_host t host udp tcp :
    tunnel_step t (tt_tunnel_start_host host (tt_port_list_parse udp).2 (tt_port_list_parse tcp).2 t).2
| on_start_client t udp tcp pk :
    tunnel_step t (tt_tunnel_start_client (tt_port_list_parse udp).2 (tt_port_list_parse tcp).2 pk t).2
| on_lossless t fn data now : tunnel_step t (tunnel_lossless fn data now t).2
| on_lossy t fn data now : tunnel_step t (cb_friend_lossy_packet fn data now t).2
| on_e2ee_tick t now : tunnel_step t (lift (tt_tunnel_e2ee_tick now) t).2
| on_poll t from now : tunnel_step t (tt_tunnel_poll from now t).2.

Lemma tunnel_step_ok t t' : tunnels_ok t -> tunnel_step t t' -> tunnels_ok t'.
Proof.
  intros Ht Hs.
  assert (H : forall {A} (m : M tunnels A), safe any m -> tunnels_ok (m t).2) by (intros A m Hm; by apply Hm).
  destruct Hs; apply H.
  - unfold cmd_tunnel_share. destruct (strchr _ _) as [[a b]|]; [|by apply keeps_pure].
    destruct (strchr _ _) as [[c d]|]; [|by apply keeps_pure].
    apply keeps_seq; [apply tt_tunnel_share_kept; apply port_list_parse_ok|]. intros; by apply keeps_pure.
  - unfold cmd_tunnel_accept. destruct (strchr _ _) as [[a b]|]; [|by apply keeps_pure].
    apply keeps_seq; [apply tt_tunnel_accept_kept; apply port_list_parse_ok|]. intros; by apply keeps_pure.
  - apply tt_tunnel_decline_kept.
  - apply tt_tunnel_stop_kept.
  - apply tt_tunnel_stop_all_kept.
  - unfold cmd_tunnel_allow. destruct (_ =? _); [apply allow_all_kept|].
    apply keeps_seq; [apply tt_tunnel_allow_kept|]. intros; by apply keeps_pure.
  - apply tt_tunnel_deny_kept.
  - apply tt_tunnel_start_host_kept; apply port_list_parse_ok.
  - apply tt_tunnel_start_client_kept; apply port_list_parse_ok.
  - apply tunnel_lossless_kept.
  - apply cb_friend_lossy_packet_kept.
  - apply lift_any.
  - apply tt_tunnel_poll_kept.
Qed.
End list_ops.

(** C12: The tunnel state stays inside its arrays.  Whatever commands, packets
    of any peer and polls happen, in any order, from an empty list: there are 16
    slots; every tunnel keeps its 64 connections, 64 allowlist entries, 8192
    server sockets and 32 listeners of each kind, and every port number its own
    lists give indexes those arrays; every connection has at most 16
    unacknowledged frames, fewer than 4 uncredited ones and at most 128 KiB
    in each buffer; a freed connection leaves nothing to the next one in its
    slot. *)
Theorem tunnel_state_bounded {P : Prims} {E : TunnelEnv} t0 t :
  slots t0 = replicate TT_TUNNEL_MAX_TUNNELS None -> rtc tunnel_step t0 t ->
  length (slots t) = 16%nat /\
  forall i tn, slot_of t i = Some tn ->
    length (conns tn) = 64%nat /\ length (allow tn) = 64%nat /\ len (socks tn) = 8192 /\
    (forall k, k < tt_port_list_len (udp_local tn) -> k < len (listen_sock tn) /\ k < len (t_peer tn)) /\
    (forall k, k < tt_port_list_len (tcp_local tn) -> k < len (tcp_listen_sock tn)) /\
    (t_host tn = true -> forall fn k, 0 <= fn < TT_MAX_FRIENDS -> 0 <= k < tt_port_list_len (t_udp tn) ->
       0 <= sock_index fn k < len (socks tn)) /\
    forall c, In c (conns tn) ->
      0 <= unacked c <= 16 /\ 0 <= c_ack_due c < 4 /\ len (pend c) <= 131072 /\ len (outbuf c) <= 131072 /\
      (c_used c = false -> unacked c = 0 /\ c_ack_due c = 0 /\ pend c = [] /\ outbuf c = [] /\ peer_gone c = false).
Proof.
  intros H0 Hrtc. assert (Hok : tunnels_ok t).
  { assert (Ht0 : tunnels_ok t0) by (split; rewrite H0; [apply length_replicate|by apply Forall_replicate]).
    clear H0. induction Hrtc as [|t1 t2 t3 Hs _ IH]; [done|]. apply IH. by eapply tunnel_step_ok. }
  destruct Hok as [Hlen Hall]. split; [done|]. intros i tn Hi.
  assert (Htn : tunnel_ok tn).
  { unfold slot_of in Hi. destruct (slots t !! i) as [o|] eqn:Hl; [|done]. cbn in Hi. subst o.
    exact (Forall_lookup_1 _ _ _ _ Hall Hl). }
  destruct Htn as [H1 H2 H3 H4 H5 H6 H7 [_ _ H8] [_ _ H9] H10 _ _]. unfold TT_TUNNEL_MAX_PORTS in *.
  split_conj; try done; try (intros; split; lia); try (intros; lia).
  - intros Hh fn k Hfn Hk. destruct (H10 Hh) as [[_ _ Hp] _]. rewrite H4. unfold N_SOCKS, sock_index, TT_TUNNEL_MAX_PORTS, TT_MAX_FRIENDS in *. lia.
  - intros c Hc. rewrite Forall_forall in H2. specialize (H2 c (proj2 (list_elem_of_In _ _) Hc)).
    assert (Hb : conn_bounds c) by (destruct H2 as [[_ Hb]|[_ Hb]]; [done|by apply clean_bounds]).
    destruct Hb as [B1 B2 B3 B4]. unfold TT_TUNNEL_TCP_WINDOW, TT_TUNNEL_ACK_BATCH, TT_TUNNEL_PEND_MAX in *.
    split_conj; try lia. intros Hu. destruct H2 as [[Hu' _]|[_ Hclean]]; [congruence|exact Hclean].
Qed.

(** After a share, a stray packet and a poll. *)
Definition stray_start : tunnels := ShareExample.start.
Definition stray_share : tunnels :=
  (@cmd_tunnel_share sample_prims ShareExample.env 7 [104; 10; 56; 48; 10; 56; 49] 100 stray_start).2.
Definition stray_packet : tunnels :=
  (@tunnel_lossless sample_prims ShareExample.env 7 [163; 1; 2; 0; 0; 0; 0; 0; 0; 0; 0] 100 stray_share).2.
Definition stray_poll : tunnels :=
  (@tt_tunnel_poll sample_prims ShareExample.env (fun _ => []) 101 stray_packet).2.

Lemma tunnel_state_bounded_witness :
  bool_decide (is_Some (slot_of stray_poll 0)) = true /\
  length (slots stray_poll) = 16%nat /\
  forall i tn, slot_of stray_poll i = Some tn ->
    length (conns tn) = 64%nat /\ length (allow tn) = 64%nat /\ len (socks tn) = 8192 /\
    (forall k, k < tt_port_list_len (udp_local tn) -> k < len (listen_sock tn) /\ k < len (t_peer tn)) /\
    (forall k, k < tt_port_list_len (tcp_local tn) -> k < len (tcp_listen_sock tn)) /\
    (t_host tn = true -> forall fn k, 0 <= fn < TT_MAX_FRIENDS -> 0 <= k < tt_port_list_len (t_udp tn) ->
       0 <= sock_index fn k < len (socks tn)) /\
    forall c, In c (conns tn) ->
      0 <= unacked c <= 16 /\ 0 <= c_ack_due c < 4 /\ len (pend c) <= 131072 /\ len (outbuf c) <= 131072 /\
      (c_used c = false -> unacked c = 0 /\ c_ack_due c = 0 /\ pend c = [] /\ outbuf c = [] /\ peer_gone c = false).
Proof.
  split; [vm_compute; reflexivity|].
  apply (@tunnel_state_bounded sample_prims ShareExample.env stray_start stray_poll eq_refl).
  apply (rtc_l _ _ stray_share); [unfold stray_share; apply on_share|].
  apply (rtc_l _ _ stray_packet); [unfold stray_packet; apply on_lossless|].
  apply (rtc_l _ _ stray_poll); [unfold stray_poll; apply on_poll|apply rtc_refl].
Defined.
