(* ===== verification/TunnelLoops.v ===== *)
(** * TunnelLoops: the tunnel's loops end

    The fuel of the model is never what stops a loop: flushing ends at the
    window, draining a socket at the window too, accepting at the connection
    table, and giving more rounds changes nothing. *)
From S2P Require Import Prelude StateM Crypto SampleCrypto Frame Session TunnelPorts TunnelLink TunnelConn Tunnel.

(** Equal continuations on what [m] can return. *)
Lemma bind_ext {S A B} (Q : A -> Prop) (m : M S A) (k k' : A -> M S B) s :
  Q (m s).1 -> (forall a s, Q a -> k a s = k' a s) -> bind m k s = bind m k' s.
Proof. intros HQ Hk. unfold bind. destruct (m s) as [a s']. by apply Hk. Qed.

Section loops.
Context {P : Prims} {E : TunnelEnv}.

(** Rounds left before the window closes. *)
Definition room (c : TTTunnelConn) : nat := Z.to_nat (TT_TUNNEL_TCP_WINDOW - unacked c).

Lemma flush_loop_fuel m : forall n k c l,
  0 <= unacked c <= TT_TUNNEL_TCP_WINDOW -> (room c < n)%nat -> (room c < k)%nat ->
  flush_loop n m c l = flush_loop k m c l.
Proof.
  induction n as [|n IH]; intros k c l Hw Hn Hk; [lia|]. destruct k as [|k]; [lia|]. cbn [flush_loop].
  destruct (negb _ || _) eqn:Eg; [done|]. apply orb_false_iff in Eg as [_ Eg]. bool_to_prop.
  apply (bind_ext (fun _ => True)); [done|]. intros [| |] l1 _; [|done|done].
  unfold room, TT_TUNNEL_TCP_WINDOW in *.
  apply IH; cbn; rewrite u16_small; lia.
Qed.

(** A flush never lowers the window count, and emptying a non-empty buffer
    raises it. *)
Lemma flush_loop_raises m : forall n c l,
  0 <= unacked c <= TT_TUNNEL_TCP_WINDOW ->
  let '((st, c'), _) := flush_loop n m c l in
  unacked c <= unacked c' <= TT_TUNNEL_TCP_WINDOW /\ c_sock c' = c_sock c /\
  (st = FlushEmpty -> 0 < len (outbuf c) -> unacked c < unacked c').
Proof.
  induction n as [|n IH]; intros c l Hw; cbn [flush_loop]; [cbv beta iota delta [pure]; split_conj; done || lia|].
  destruct (negb _ || _) eqn:Eg.
  { cbn [pure]. split_conj; try done; try lia. destruct (Z.eqb_spec (len (outbuf c)) 0); [lia|done]. }
  apply orb_false_iff in Eg as [_ Eg]. bool_to_prop. unfold bind. destruct (tcp_send_ex _ _ _ _ _ l) as [[| |] l1].
  - set (c1 := c <| unacked := _ |> <| outbuf := _ |>).
    assert (Hu : unacked c1 = unacked c + 1).
    { subst c1. cbn. apply u16_small. unfold TT_TUNNEL_TCP_WINDOW in *. lia. }
    specialize (IH c1 l1 ltac:(lia)). destruct (flush_loop n m c1 l1) as [[st c'] l'].
    destruct IH as (H1 & H2 & _). change (c_sock c1) with (c_sock c) in H2. clearbody c1. split_conj; [lia|lia|done|intros; lia].
  - cbv beta iota delta [pure]. split_conj; done || lia.
  - cbv beta iota delta [pure]. split_conj; done || lia.
Qed.

Context {EL : TunnelEnvLaws E}.

Lemma drain_loop_fuel : forall n k c l,
  0 <= unacked c <= TT_TUNNEL_TCP_WINDOW -> (room c < n)%nat -> (room c < k)%nat ->
  drain_loop n c l = drain_loop k c l.
Proof.
  induction n as [|n IH]; intros k c l Hw Hn Hk; [lia|]. destruct k as [|k]; [lia|]. cbn [drain_loop].
  apply (bind_ext (fun m => 0 < m)).
  { unfold conn_read_max, bind, e2ee_on, get, pure. cbn. by destruct (bool_decide _). }
  intros m l1 Hm. apply (bind_ext (fun r => match r with RecvData b => 0 < len b | _ => True end)).
  { cbn. destruct (sock_recv (calls l1) (c_sock c) m) as [b| | |] eqn:Hr; [|done|done|done].
    by apply (sock_recv_len _ _ _ _ Hm) in Hr as [? _]. }
  intros [b| | |] l2 Hb; [|done|done|done]. apply (bind_ext (fun _ => True)); [done|]. intros _ l3 _.
  unfold conn_out_add. destruct (_ <? _); [done|]. set (c1 := c <| outbuf := outbuf c ++ b |>).
  assert (Hlen : 0 < len (outbuf c1)) by (change (outbuf c1) with (outbuf c ++ b); rewrite len_app; pose proof (len_nonneg (outbuf c)); lia).
  apply (bind_ext (fun fc => 0 <= unacked fc.2 <= TT_TUNNEL_TCP_WINDOW /\
    (fc.1 = FlushEmpty -> unacked c < unacked fc.2))).
  - unfold conn_flush_out, bind. destruct (conn_read_max l3) as [m1 l4].
    pose proof (flush_loop_raises m1 FLUSH_FUEL c1 l4 Hw) as H.
    destruct (flush_loop FLUSH_FUEL m1 c1 l4) as [[st c2] l5]. destruct H as (H1 & _ & H2).
    change (unacked c1) with (unacked c) in *. clearbody c1. cbn [fst snd]. split; [lia|]. intros Hst. by apply H2.
  - intros [st c2] l4 [H1 H2]. cbn [fst snd] in *. destruct st; [|done|done]. specialize (H2 eq_refl).
    unfold room in *. apply IH; lia.
Qed.

(** Free slots of the connection table. *)
Definition unused (cs : list TTTunnelConn) : nat := length (filter (fun c => c_used c = false) cs).

Lemma conn_alloc_takes tn i c fn port id fd :
  conn_alloc tn = Some (i, c) ->
  let c' := c <| c_fn := fn |> <| c_port := port |> <| connid := id |> <| c_sock := fd |> in
  S (unused (<[i := c']> (conns tn))) = unused (conns tn).
Proof.
  unfold conn_alloc. destruct (conn_index _ 0 (conns tn)) as [j|] eqn:Hj; [|done]. intros [= <- <-]. cbn zeta.
  set (c' := _ <| c_sock := fd |>). assert (Hu : c_used c' = true) by done. clearbody c'. clear -Hj Hu.
  replace j with (j - 0)%nat by lia. revert Hj. generalize 0%nat as k. induction (conns tn) as [|d cs IH]; intros k Hj; cbn in Hj; [done|].
  unfold unused in *. destruct (c_used d) eqn:Hd; cbn [negb] in Hj.
  - pose proof (IH (S k) Hj) as H. assert (Hk : (S k <= j)%nat).
    { clear -Hj. revert Hj. generalize (S k) as q. induction cs as [|x cs IH]; intros q Hj; cbn in Hj; [done|].
      destruct (negb (c_used x)); [injection Hj; lia|]. apply IH in Hj. lia. }
    replace (j - k)%nat with (S (j - S k)) by lia. cbn [insert list_insert].
    rewrite !filter_cons_False by congruence. exact H.
  - injection Hj as <-. rewrite Nat.sub_diag. cbn [insert list_insert].
    rewrite filter_cons_False by congruence. rewrite filter_cons_True by done. done.
Qed.

Lemma accept_loop_fuel fd port : forall n k tn l,
  (unused (conns tn) < n)%nat -> (unused (conns tn) < k)%nat ->
  accept_loop n fd port tn l = accept_loop k fd port tn l.
Proof.
  induction n as [|n IH]; intros k tn l Hn Hk; [lia|]. destruct k as [|k]; [lia|]. cbn [accept_loop].
  apply (bind_ext (fun _ => True)); [done|]. intros [new|] l1 _; [|done].
  destruct (conn_alloc tn) as [[i c]|] eqn:Ha; [|done].
  apply (bind_ext (fun _ => True)); [done|]. intros _ l2 _.
  pose proof (conn_alloc_takes tn i c (t_peer_fn tn) port (next_connid tn) new Ha) as H. cbn zeta in H.
  apply IH; cbn [conns set_field conn_set]; unfold conn_set in *; cbn in *; lia.
Qed.
End loops.

(** The tunnel's loops end, and the rounds the model gives them are
    enough.  Flushing a connection's buffer needs at most 17 rounds, reading
    from its socket at most 17 reads, accepting on a port at most 65: with more
    rounds each loop gives the same result from any state in which the window
    holds.  (A socket that always has data, a peer that never acknowledges and a
    queue of waiting connections are no exception.) *)
Theorem tunnel_loops_end {P : Prims} {E : TunnelEnv} {EL : TunnelEnvLaws E} n k c tn l fd port max :
  0 <= unacked c <= TT_TUNNEL_TCP_WINDOW -> length (conns tn) = TT_TUNNEL_MAX_CONNS ->
  (FLUSH_FUEL <= n)%nat -> (S TT_TUNNEL_MAX_CONNS <= k)%nat ->
  flush_loop n max c l = flush_loop FLUSH_FUEL max c l /\
  drain_loop n c l = drain_loop FLUSH_FUEL c l /\
  accept_loop k fd port tn l = accept_loop (S TT_TUNNEL_MAX_CONNS) fd port tn l.
Proof.
  intros Hw Hc Hn Hk.
  assert (Hroom : (room c < FLUSH_FUEL)%nat) by (unfold room, FLUSH_FUEL, TT_TUNNEL_TCP_WINDOW in *; lia).
  assert (Hun : (unused (conns tn) <= TT_TUNNEL_MAX_CONNS)%nat) by (unfold unused; rewrite <- Hc; apply length_filter).
  split; [apply flush_loop_fuel; lia|]. split; [apply drain_loop_fuel; lia|]. apply accept_loop_fuel; lia.
Qed.

Module LoopExample.
(** A socket that always has more, and always another connection waiting. *)
Definition env : TunnelEnv := {|
  packet_answer _ := AnsOk;
  sock_recv _ _ cap := if 0 <? cap then RecvData [7] else RecvAgain;
  sock_new _ := None; sock_connect _ _ := ConnectFailed; sock_error _ _ := None;
  sock_accept k _ := Some (Z.of_nat k); resolve _ _ := None; bind_local _ _ _ := None;
  friend_env _ := mkEnv [] [] None; friend_by_pk _ := None |}.
#[export] Instance env_laws : TunnelEnvLaws env.
Proof. intros k fd cap b Hc H. cbn in H. destruct (Z.ltb_spec 0 cap); [|done]. injection H as <-. unfold len. cbn. lia. Qed.
Definition conn : TTTunnelConn := mkConn true 3 0 1 5 false false 0 0 [] [].
Definition start : link := mkLink None (0 : Rng) 0 [].
End LoopExample.

Lemma tunnel_loops_end_witness :
  let E := LoopExample.env in
  flush_loop 100 1367 LoopExample.conn LoopExample.start = flush_loop FLUSH_FUEL 1367 LoopExample.conn LoopExample.start /\
  drain_loop 100 LoopExample.conn LoopExample.start = drain_loop FLUSH_FUEL LoopExample.conn LoopExample.start /\
  accept_loop 100 9 0 (new_tunnel false 1) LoopExample.start =
    accept_loop (S TT_TUNNEL_MAX_CONNS) 9 0 (new_tunnel false 1) LoopExample.start.
Proof.
  apply (@tunnel_loops_end sample_prims LoopExample.env LoopExample.env_laws 100 100).
  - cbn. unfold TT_TUNNEL_TCP_WINDOW. lia.
  - reflexivity.
  - unfold FLUSH_FUEL. lia.
  - unfold TT_TUNNEL_MAX_CONNS. lia.
Defined.

(** The busy socket is read 16 times, then the window is full. *)
Example busy_socket_stops : unacked (drain_loop (E := LoopExample.env) 100 LoopExample.conn LoopExample.start).1.2 = 16.
Proof. vm_compute. reflexivity. Qed.
