(* ===== verification/TunnelPolicy.v ===== *)
(** * TunnelPolicy: who may use a host's tunnels

    What the allowlist keeps out ([tt_tunnel_rx], [host_forward]), what it does
    not ([host_open_conn]), and what taking a friend off it leaves behind
    ([tt_tunnel_deny]). *)
From S2P Require Import Prelude StateM Crypto SampleCrypto Frame Session TunnelPorts TunnelLink TunnelConn Tunnel TunnelSignal TunnelSafety.

(** [fn] has no business with this tunnel: it is not open, or hosts without
    [fn] on its list, or is a client of somebody else. *)
Definition stranger (fn : Z) (tn : TTTunnel) : Prop :=
  t_pending tn = true \/
  (t_host tn = true /\ forall a, In a (allow tn) -> al_used a = true -> al_fn a <> fn) \/
  (t_host tn = false /\ t_peer_fn tn <> fn).

Section policy.
Context {P : Prims} {E : TunnelEnv}.

Lemma not_allowed fn l :
  (forall a, In a l -> al_used a = true -> al_fn a <> fn) -> existsb (fun a => al_used a && (al_fn a =? fn)) l = false.
Proof.
  intros H. apply Bool.not_true_iff_false. intros Hex. apply existsb_exists in Hex as (a & Ha & Hb).
  apply andb_true_iff in Hb as [Hu Hf]. apply Z.eqb_eq in Hf. by apply (H a).
Qed.

Lemma set_slot_same i tn t : slot_of t i = Some tn -> set_slot i (Some tn) t = (tt, t).
Proof.
  intros Hi. unfold slot_of in Hi. destruct (slots t !! i) as [o|] eqn:Hl; [|done]. cbn in Hi. subst o.
  unfold set_slot, modify. rewrite list_insert_id by done. by destruct t.
Qed.

Lemma host_forward_stranger tn fn port payload t :
  (forall a, In a (allow tn) -> al_used a = true -> al_fn a <> fn) ->
  lift (host_forward tn fn port payload) t = (tn, t).
Proof.
  intros Ha. unfold lift, host_forward. rewrite not_allowed by done. cbn [negb].
  destruct (TT_MAX_FRIENDS <=? fn); cbv beta iota delta [pure]; by destruct t.
Qed.

Lemma rx_slot_stranger fn port payload i t :
  (forall tn, slot_of t i = Some tn -> stranger fn tn) -> rx_slot fn port payload i t = (tt, t).
Proof.
  intros Hs. unfold rx_slot, bind at 1, get. destruct (slot_of t i) as [tn|] eqn:Hi; [|done].
  destruct (Hs tn eq_refl) as [Hp|[[Hh Ha]|[Hh Hp]]].
  - by rewrite Hp.
  - destruct (t_pending tn); [done|]. rewrite Hh. unfold bind. rewrite host_forward_stranger by done.
    by apply set_slot_same.
  - destruct (t_pending tn); [done|]. rewrite Hh. by replace (fn =? t_peer_fn tn) with false by lia.
Qed.

Lemma do_each_idle {A B} (f : A -> M tunnels B) l t b : (forall a, f a t = (b, t)) -> do_each f l t = (tt, t).
Proof.
  intros Hf. unfold do_each, bind. cut ((map_m f l t).2 = t).
  { destruct (map_m f l t) as [bs s]. cbn. by intros ->. }
  induction l as [|a l IH]; [done|]. cbn [map_m]. unfold bind. rewrite Hf. by destruct (map_m f l t).
Qed.

(** The connection placed in a slot that was free is the one found. *)
Lemma conn_find_alloc tn fn id j c c' :
  conn_find tn fn id = None -> conn_alloc tn = Some (j, c) ->
  c_used c' = true -> c_fn c' = fn -> connid c' = id ->
  conn_find (conn_set tn j c') fn id = Some j /\ conn_at (conn_set tn j c') j = c'.
Proof.
  unfold conn_find, conn_alloc, conn_set, conn_at. intros Hn Ha Hu Hf Hi.
  destruct (conn_index (fun c => negb (c_used c)) 0 (conns tn)) as [k|] eqn:Hk; [|done]. injection Ha as -> _. cbn [conns set_field].
  set (p := fun c => c_used c && (c_fn c =? fn) && (connid c =? id)) in *.
  assert (Hp : p c' = true) by (subst p; cbn; rewrite Hu, Hf, Hi, !Z.eqb_refl; done). clearbody p.
  assert (Hj : (j < length (conns tn))%nat).
  { apply conn_index_used in Hk as [_ (d & Hl & _)]. rewrite Nat.sub_0_r in Hl. by eapply lookup_lt_Some. }
  split; [|by rewrite list_lookup_insert_eq].
  clear -Hn Hj Hp. revert Hn Hj. replace j with (0 + j)%nat at 3 by done. generalize 0%nat as q. revert j.
  induction (conns tn) as [|d l IH]; intros j q Hn Hj; cbn in Hj; [lia|]. cbn [conn_index] in Hn.
  destruct (p d) eqn:Hd; [done|]. destruct j as [|j]; cbn [insert list_insert conn_index].
  - by rewrite Hp, Nat.add_0_r.
  - rewrite Hd. replace (q + S j)%nat with (S q + j)%nat by lia. apply IH; [done|lia].
Qed.
End policy.

(** C13: The allowlist keeps strangers out of the UDP tunnels but not out of
    the TCP ones.  A datagram packet of a friend whom no host tunnel allows (and
    who hosts none of ours) changes nothing at all.  The OPEN frame of that same
    friend, on an open host tunnel with a free connection slot, connects to the
    host's server: afterwards the friend's connection is in the table, with the
    socket to the server. *)
Theorem allowlist_guards_udp_only {P : Prims} {E : TunnelEnv} t fn :
  (forall i tn, slot_of t i = Some tn -> stranger fn tn) ->
  (forall data, tt_tunnel_rx fn data t = (tt, t)) /\
  forall tn port id payload j c fd addr,
    conn_find tn fn id = None -> conn_alloc tn = Some (j, c) -> port < tt_port_list_len (t_tcp tn) ->
    sock_new (calls (lk t)) = Some fd -> resolve (server_host tn) (tt_port_list_port (t_tcp tn) port) = Some addr ->
    sock_connect (S (calls (lk t))) fd = ConnectOk ->
    let '(tn', _) := tunnel_tcp_rx_host tn fn port id TT_TCP_OPEN payload (lk t) in
    conn_find tn' fn id = Some j /\ c_sock (conn_at tn' j) = fd.
Proof.
  intros Hs. split.
  - intros data. unfold tt_tunnel_rx. destruct (_ <? _); [done|]. destruct (_ || _); [done|].
    apply (do_each_idle _ _ _ tt). intros i. apply rx_slot_stranger. apply Hs.
  - intros tn port id payload j c fd addr Hf Ha Hport Hnew Hres Hconn.
    unfold tunnel_tcp_rx_host. cbn [Z.eqb TT_TCP_OPEN Pos.eqb]. unfold host_open_conn. rewrite Hf, Ha.
    set (c1 := c <| c_fn := fn |> <| c_port := port |> <| connid := id |>).
    unfold bind at 1, ask at 1, tick_call, bind at 1, pure at 1. rewrite Hnew. cbn zeta.
    replace (tt_port_list_len (t_tcp tn) <=? port) with false by lia. rewrite Hres.
    unfold bind at 1, ask at 1, tick_call, bind at 1, pure at 1. cbn [calls set_field]. rewrite Hconn.
    unfold bind. destruct (tcp_send fn port id TT_TCP_OPEN_ACK [] _) as [u l']. cbn [pure].
    set (c2 := c1 <| c_sock := fd |>).
    assert (Hu : c_used c2 = true).
    { unfold conn_alloc in Ha. destruct (conn_index _ _ _); [|done]. by injection Ha as _ <-. }
    destruct (conn_find_alloc tn fn id j c c2 Hf Ha Hu eq_refl eq_refl) as [H1 H2].
    split; [exact H1|]. by rewrite H2.
Qed.

Module StrangerExample.
(** Sockets 9, addresses resolve, connections succeed. *)
Definition env : TunnelEnv := {|
  packet_answer _ := AnsOk;
  sock_recv _ _ _ := RecvAgain;
  sock_new _ := Some 9; sock_connect _ _ := ConnectOk; sock_error _ _ := None;
  sock_accept _ _ := None; resolve _ _ := Some [127; 0; 0; 1]; bind_local _ _ _ := None;
  friend_env _ := mkEnv [] [] (Some (zrep 32 5)); friend_by_pk _ := None |}.
(** A host tunnel that allows friend 7 only. *)
Definition tunnel : TTTunnel :=
  (new_tunnel true 1) <| server_host := [104] |> <| t_tcp := [mkRange 22 1] |>
    <| allow := [mkAllow true (zrep 32 5) 7] |>.
Definition state : tunnels := mkTunnels [Some tunnel] 1 (mkLink None (0 : Rng) 0 []) [].
End StrangerExample.

Lemma allowlist_guards_udp_only_witness :
  let t := StrangerExample.state in let tn := StrangerExample.tunnel in
  @tt_tunnel_rx _ StrangerExample.env 9 [200; 1; 0; 42] t = (tt, t) /\
  let '(tn', _) := @tunnel_tcp_rx_host _ StrangerExample.env tn 9 0 77 TT_TCP_OPEN [] (lk t) in
  conn_find tn' 9 77 = Some 0%nat /\ c_sock (conn_at tn' 0) = 9.
Proof.
  destruct (@allowlist_guards_udp_only sample_prims StrangerExample.env StrangerExample.state 9) as [H1 H2].
  - intros i tn Hi. destruct i as [|i]; [|by destruct i]. injection Hi as <-. right. left. split; [done|].
    intros a [<-|[]] _. done.
  - split; [apply H1|].
    apply (H2 StrangerExample.tunnel 0 77 [] 0%nat ((free_conn) <| c_used := true |>) 9 [127; 0; 0; 1]); reflexivity.
Defined.

(** Taking a friend off the allowlist closes the wrong socket.
    [tt_tunnel_deny] closes entry number [fn] of the socket table instead of
    the friend's 32 entries from number 32 * fn on.  So every open server socket
    of a denied friend (except entry 0 of friend 0) stays as it was, and
    datagrams of the server go on being relayed to it; and the entry that is
    closed belongs to friend [fn / 32], who may still be allowed. *)
Theorem deny_closes_wrong_socket {P : Prims} tn pk l a rest :
  len (socks tn) = N_SOCKS -> allow_drop pk (allow tn) = Some (a, rest) -> 0 <= al_fn a < TT_MAX_FRIENDS ->
  let fn := al_fn a in
  let '((tn', ok), _) := deny_tunnel tn pk l in
  ok = true /\
  (forall k, 0 <= k < TT_TUNNEL_MAX_PORTS -> 0 < sock_index fn k ->
     sock_at tn' (sock_index fn k) = sock_at tn (sock_index fn k)) /\
  s_used (sock_at tn' fn) = false /\ fn = sock_index (fn / 32) (fn mod 32).
Proof.
  intros Hlen Hd Hfn. cbn zeta. unfold deny_tunnel. rewrite Hd. unfold UINT32_MAX, TT_MAX_FRIENDS in *.
  replace (negb (al_fn a =? 4294967295) && (al_fn a <? 256)) with true by lia.
  unfold bind. destruct (when _ _ l) as [u l']. cbn [pure]. set (s' := _ <| s_sock := -1 |>).
  unfold sock_at. cbn [socks set_field]. unfold sock_index, TT_TUNNEL_MAX_PORTS. split; [done|]. split.
  - intros k Hk Hpos. by rewrite list_lookup_insert_ne by lia.
  - split; [|pose proof (Z.div_mod (al_fn a) 32); lia].
    rewrite list_lookup_insert_eq; [done|]. unfold len, N_SOCKS, TT_MAX_FRIENDS, TT_TUNNEL_MAX_PORTS in Hlen. lia.
Qed.

Module DenyExample.
Definition key : bytes := zrep 32 5.
(** Friend 40 is allowed and has a socket (13) for port 0; friend 1 has a socket
    (14) for port 8, entry 40 of the table. *)
Definition tunnel : TTTunnel :=
  (new_tunnel true 1) <| allow := [mkAllow true key 40] |>
    <| socks := <[1280%nat := mkSock true 40 0 13 []]> (<[40%nat := mkSock true 1 8 14 []]> (zrep N_SOCKS no_sock)) |>.
Definition start : link := mkLink None (0 : Rng) 0 [].
End DenyExample.

Lemma deny_closes_wrong_socket_witness :
  (deny_tunnel DenyExample.tunnel DenyExample.key DenyExample.start).1.2 = true /\
  let '((tn', ok), _) := deny_tunnel DenyExample.tunnel DenyExample.key DenyExample.start in
  ok = true /\
  (forall k, 0 <= k < TT_TUNNEL_MAX_PORTS -> 0 < sock_index 40 k ->
     sock_at tn' (sock_index 40 k) = sock_at DenyExample.tunnel (sock_index 40 k)) /\
  s_used (sock_at tn' 40) = false /\ 40 = sock_index (40 / 32) (40 mod 32).
Proof.
  split; [reflexivity|].
  apply (deny_closes_wrong_socket DenyExample.tunnel DenyExample.key DenyExample.start
    (mkAllow true DenyExample.key 40) [mkAllow false DenyExample.key 40]).
  - unfold DenyExample.tunnel. cbn [socks set_field]. unfold len. rewrite !length_insert. change (len (zrep N_SOCKS no_sock) = N_SOCKS). by apply len_zrep.
  - reflexivity.
  - cbv. done.
Defined.
