(* ===== verification/UiShare.v ===== *)
(** * UiShare: sharing ports, from one user to the other

    The dialogs and the tunnel panel together with the tunnels of the tox
    thread: what the panel lists, and what becomes of the text that is typed. *)
From S2P Require Import Prelude CText StateM Slots Crypto Session SampleCrypto TunnelPorts TunnelLink TunnelConn Tunnel TunnelSignal.
From S2P Require Import Sidecar History Transcript EventQueue Identity Linked Events UiState UiContacts UiCommands UiGroups UiChess UiTunnel UiLoop UiQuiet.

(** ** The events *)

(** The events of the tox thread's tunnels, as the queue carries them. *)
Definition tun_event (e : tunnel_ui) : event :=
  match e with
  | TuInvite n host udp tcp => let s := host ++ [10] ++ udp ++ [10] ++ tcp in mkEvent TT_EV_TUNNEL_INVITE n (Some s) (len s) 0 0
  | TuState n id st => mkEvent TT_EV_TUNNEL_STATE n None 0 (i32 id) st
  | TuRemove id => mkEvent TT_EV_TUNNEL_REMOVE 0 None 0 (i32 id) 0
  | TuAdd n id host ep udp tcp =>
      let s := (if host then ep else ascii_bytes "127.0.0." ++ ep) ++ ascii_bytes " udp " ++ udp ++ ascii_bytes " tcp " ++ tcp in
      mkEvent TT_EV_TUNNEL_ADD n (Some (snprintf_s 300 s)) 0 (i32 id) (if host then 1 else 0)
  | TuBindError id =>
      mkEvent TT_EV_TUNNEL_ERROR 0 (Some (ascii_bytes "Could not bind local ports for the tunnel (no free loopback IP / ports).")) 0 (i32 id) 0
  | TuNeverAccepted id => mkEvent TT_EV_TUNNEL_ERROR 0 (Some (ascii_bytes "The friend never accepted the tunnel invite.")) 0 (i32 id) 0
  | TuE2ee id live => mkEvent TT_EV_TUNNEL_E2EE 0 None 0 (i32 id) (if live then 1 else 0)
  end.

(** ** The panel *)

(** What the panel and the invitation hold. *)
Record tun_ok (t : TunUi) : Prop := {
  to_ids : NoDup (tn_id <$> tunnels t);
  to_texts : Forall (fun x => len (endpoint x) < 300) (tunnels t);
  to_rows : (fun r => (r_title r, r_stop r)) <$> tun_rows t =
    if tun_panel_open t then (fun x => (tunnel_title x, tn_id x)) <$> tunnels t else [];
  to_host : len (tun_invite_host t) < 256;
  to_udp : ports_ok (tun_invite_udp t);
  to_tcp : ports_ok (tun_invite_tcp t);
  to_dialog : tun_invite_open t = true -> tun_inv t <> None }.

Lemma parse_ports_ok s : ports_ok (tt_port_list_parse s).2.
Proof. pose proof (port_list_parse_bounds s) as H. destruct (tt_port_list_parse s). apply H. Qed.
Lemma field_ports_ok f : ports_ok (field_ports f).
Proof. destruct f; [apply parse_ports_ok|]. split; [cbv; lia|constructor|done]. Qed.

Lemma render_ok ui : (tun_panel_open (tun ui) = false -> tun_rows (tun ui) = []) -> NoDup (tn_id <$> tunnels (tun ui)) ->
  Forall (fun x => len (endpoint x) < 300) (tunnels (tun ui)) -> len (tun_invite_host (tun ui)) < 256 -> ports_ok (tun_invite_udp (tun ui)) ->
  ports_ok (tun_invite_tcp (tun ui)) -> (tun_invite_open (tun ui) = true -> tun_inv (tun ui) <> None) -> tun_ok (tun (render_open ui)).
Proof.
  intros. unfold render_open. destruct (tun_panel_open (tun ui)) eqn:E; split; try done.
  - cbn. rewrite E, <- list_fmap_compose. by apply list_fmap_ext.
  - rewrite E. by rewrite H.
Qed.
(** A change of the list that keeps it in order. *)
Lemma list_ok f ui : tun_ok (tun ui) ->
  (forall l, NoDup (tn_id <$> l) -> NoDup (tn_id <$> f l)) -> (forall l, Forall (fun x => len (endpoint x) < 300) l -> Forall (fun x => len (endpoint x) < 300) (f l)) ->
  tun_ok (tun (render_open (set_tun (fun t => t <| tunnels := f (tunnels t) |>) ui))).
Proof.
  intros [H1 H2 H3 H4 H5 H6 H7] Hn Hl. apply render_ok; cbn; try done; [|by apply Hn|by apply Hl].
  intros E. rewrite E in H3. by destruct (tun_rows (tun ui)).
Qed.
Lemma upd_ids p f (l : list TTTunnelUI) : (forall x, tn_id (f x) = tn_id x) -> NoDup (tn_id <$> l) -> NoDup (tn_id <$> upd_first p f l).
Proof. intros Hf. by rewrite (upd_first_fmap tn_id). Qed.
Lemma del_ids p (l : list TTTunnelUI) : NoDup (tn_id <$> l) -> NoDup (tn_id <$> del_first p l).
Proof. intros H. eapply sublist_NoDup; [exact H|]. apply fmap_sublist, del_first_sublist. Qed.

Lemma tun_local u v : typing_fn v = typing_fn u -> typing_sent v = typing_sent u -> typing_last v = typing_last u ->
  typing_idle_sched v = typing_idle_sched u -> chess v = chess u -> tun v = tun u -> tun v = tun u.
Proof. done. Qed.
Lemma tunnel_special ty : tunnel_cmd ty = true -> chess_cmd ty || tunnel_cmd ty || typing_cmd ty = true.
Proof. intros ->. by rewrite orb_true_r. Qed.

Lemma invite_fields_host str : len (invite_fields str).1.1 < 256.
Proof.
  unfold invite_fields. set (buf := match str with Some s => _ | None => _ end). assert (len buf < 256) as H.
  { unfold buf. destruct str; [|done]. unfold snprintf_s, ztake, len. rewrite length_take. lia. }
  destruct (strchr 10 buf) as [[a b]|] eqn:E; [|done].
  assert (len a <= len buf) as Ha.
  { clear H. revert a b E. induction buf as [|x l IH]; intros a b E; [done|]. cbn in E. destruct (x =? 10).
    - apply (inj Some), pair_eq in E as [<- _]. rewrite len_cons. pose proof (len_nonneg l). change (len []) with 0. lia.
    - destruct (strchr 10 l) as [[a' b']|]; [|done]. apply (inj Some), pair_eq in E as [<- _]. rewrite !len_cons. specialize (IH a' b' eq_refl). lia. }
  destruct (strchr 10 b) as [[? ?]|]; cbn; lia.
Qed.
Lemma event_tun v e ui : tun_ok (tun ui) -> tun_ok (tun (handle_event v e ui)).
Proof.
  intros H. destruct (panel_event (ev_type e)) eqn:E.
  2: { destruct (event_quiet tun tunnel_cmd tun_local tunnel_special v e ui E) as [-> _]. done. }
  unfold handle_event. destruct (ev_type e); try discriminate; try done; clear E.
  - unfold on_tunnel_invite, set_tun. cbn. destruct (tun_invite_open (tun ui)); [done|]. pose proof (invite_fields_host (ev_str e)) as Hh.
    destruct (invite_fields (ev_str e)) as [[host p1] p2]. destruct H. split; try done; apply field_ports_ok.
  - unfold on_tunnel_state. destruct (ival2 e =? 2); apply list_ok; try done; intros l Hl;
      [by apply del_ids|by apply del_first_forall|by apply upd_ids|by apply upd_first_forall].
  - unfold on_tunnel_remove. apply list_ok; [done|intros l; apply del_ids|intros l; apply del_first_forall].
  - unfold on_tunnel_add. cbv zeta. set (ep := snprintf_s 300 _). assert (len ep < 300) as Hep.
    { unfold ep, snprintf_s, ztake, len. rewrite length_take. lia. }
    set (new := mkTunnelUI _ _ _ _ _ ep). set (g := fun x : TTTunnelUI => _).
    set (f := fun l => match tun_ui_find (u32 (ival e)) l with None => new :: l | Some _ => upd_first (by_tunnel (u32 (ival e))) g l end).
    match goal with |- context [set_tun ?h ui] => assert (set_tun h ui = set_tun (fun t => t <| tunnels := f (tunnels t) |>) ui) as -> end.
    { unfold set_tun, f. by destruct (tun_ui_find _ _). }
    apply list_ok; [done| |]; intros l Hl; unfold f; destruct (tun_ui_find (u32 (ival e)) l) eqn:F;
      [by apply upd_ids| |by apply upd_first_forall|by constructor].
    cbn. apply NoDup_cons. split; [|done]. intros (x & Ex & Hx)%list_elem_of_fmap. unfold tun_ui_find in F. rewrite find_first_none in F.
    specialize (F x Hx). unfold by_tunnel in F. lia.
  - unfold on_tunnel_error, on_tunnel_remove. unfold set_tun at 1. cbn [tun set_field].
    match goal with |- tun_ok (set_field _ (tun ?u)) => assert (tun_ok (tun u)) as [] by (apply list_ok; [done|intros l; apply del_ids|intros l; apply del_first_forall]) end.
    by split.
  - unfold on_tunnel_e2ee. destruct (tun_ui_find _ _); [|done]. by apply list_ok; [done|intros l; apply upd_ids|intros l; apply upd_first_forall].
Qed.
Lemma tun_part u v : chess v = chess u -> tun v = tun u -> tun v = tun u.
Proof. done. Qed.
Lemma tunnel_panel ty : tunnel_cmd ty = true -> chess_cmd ty || tunnel_cmd ty = true.
Proof. intros ->. apply orb_true_r. Qed.
Lemma chess_tun v a ui : chess_action a = true -> tun (act v a ui) = tun ui.
Proof.
  intros E. destruct a; try discriminate; clear E; cbn [act]; try done;
    unfold cc_chess_invite, cc_chess_accept, cc_chess_decline, cc_chess_drop, cc_chess_resign; cbv zeta; by repeat case_match.
Qed.
Lemma action_tun v a ui : tun_ok (tun ui) -> tun_ok (tun (act v a ui)).
Proof.
  intros H. destruct (chess_action a) eqn:E; [by rewrite chess_tun|].
  destruct (tunnel_action a) eqn:E2; [clear E|]; cycle 1.
  { assert (chess_action a || tunnel_action a = false) as E3 by (by rewrite E, E2). destruct (action_quiet_typing tun tunnel_cmd tun_part tunnel_panel v a ui E3) as [-> _]. done. }
  destruct a; try discriminate; clear E2; cbn [act].
  - unfold cc_tun_panel. destruct (tun_panel_open (tun ui)); [done|]. destruct H. split; try done. cbn. rewrite <- list_fmap_compose. by apply list_fmap_ext.
  - by destruct H.
  - unfold cc_tun_share_open. repeat case_match; try done. by destruct H.
  - unfold cc_tun_share_ok. repeat case_match; try done. by destruct H.
  - by destruct H.
  - unfold cc_tun_accept. cbv zeta. case_match; [done|]. by destruct H.
  - unfold cc_tun_decline. cbv zeta. case_match; [done|]. by destruct H.
  - done.
Qed.
Lemma run_tun xs : forall ui, tun_ok (tun ui) -> tun_ok (tun (ui_run xs ui)).
Proof.
  induction xs as [|[v [e|a]] xs IH]; intros ui H; [done|..]; apply IH; [by apply event_tun|by apply action_tun].
Qed.


(** ** From one user to the other *)

(** The commands of the panel as [handle_cmd] of the tox thread dispatches
    them. *)
Definition tunnel_cmd_step {P : Prims} {E : TunnelEnv} (e : command) (now : Z) : M Tunnel.tunnels unit :=
  match ev_type e, ev_str e with
  | TT_CMD_TUNNEL_SHARE, Some s => cmd_tunnel_share (friend_number e) s now
  | TT_CMD_TUNNEL_ACCEPT, Some s => cmd_tunnel_accept (friend_number e) s
  | TT_CMD_TUNNEL_DECLINE, _ => tt_tunnel_decline (friend_number e)
  | TT_CMD_TUNNEL_STOP, _ => tt_tunnel_stop (u32 (ival e))
  | _, _ => pure tt
  end.

(** A text of lines that its buffer holds. *)
Definition plain (s : bytes) : Prop := ~ In 0 s /\ ~ In 10 s.
Lemma snprintf_whole cap s : ~ In 0 s -> len s < cap -> snprintf_s cap s = s.
Proof. intros H L. unfold snprintf_s. by rewrite cstr_no_nul, ztake_all by (done || lia). Qed.
Lemma lines_no_nul a b c : plain a -> plain b -> ~ In 0 c -> ~ In 0 (a ++ [10] ++ b ++ [10] ++ c).
Proof. intros [Ha _] [Hb _] Hc. rewrite !in_app_iff. cbn. intuition lia. Qed.
Lemma cmd_share_lines {P : Prims} {E : TunnelEnv} n a b c now : plain a -> plain b -> ~ In 0 c -> len a + len b + len c <= 253 ->
  cmd_tunnel_share n (a ++ [10] ++ b ++ [10] ++ c) now = bind (tt_tunnel_share n a (tt_port_list_parse b).2 (tt_port_list_parse c).2 now) (fun _ => pure tt).
Proof.
  intros Ha Hb Hc L. unfold cmd_tunnel_share. rewrite snprintf_whole; [|by apply lines_no_nul|rewrite !len_app; change (len [10]) with 1; lia].
  cbn [app]. destruct Ha as [_ Ha], Hb as [_ Hb]. by rewrite !strchr_app.
Qed.
Lemma invite_lines a b c : plain a -> plain b -> ~ In 0 c -> len a + len b + len c <= 253 ->
  invite_fields (Some (a ++ [10] ++ b ++ [10] ++ c)) = (a, Some b, Some c).
Proof.
  intros Ha Hb Hc L. unfold invite_fields. rewrite snprintf_whole; [|by apply lines_no_nul|rewrite !len_app; change (len [10]) with 1; lia].
  cbn [app]. destruct Ha as [_ Ha], Hb as [_ Hb]. by rewrite !strchr_app.
Qed.
Lemma ports_plain l : plain (join (range_text <$> l)).
Proof. split; by apply ranges_no_char. Qed.

Lemma bind_pure {S A} (m : M S A) t : (bind m (fun _ => pure tt) t).2 = (m t).2.
Proof. unfold bind. by destruct (m t). Qed.

(** The host's side: the dialog asks for what was typed. *)
Definition typed (s : bytes) : TTPortRangeList := (tt_port_list_parse s).2.
Lemma share_posts {P : Prims} {E : TunnelEnv} v host port tcp ui now : sel_kind ui = TT_SEL_CHAT -> host <> [] -> port <> [] ->
  plain host -> plain port -> ~ In 0 tcp -> len host + len port + len tcp <= 253 ->
  exists e, posted (act v (TunShareOk host port tcp) ui) = posted ui ++ [e] /\
    forall t, (tunnel_cmd_step e now t).2 = (tt_tunnel_share (sel_fn ui) host (typed port) (typed tcp) now t).2.
Proof.
  intros K Hh Hp Ph Pp Pt L. cbn [act]. unfold cc_tun_share_ok. rewrite K.
  replace (len host =? 0) with false by (destruct host; [done|]; rewrite len_cons; pose proof (len_nonneg host); lia).
  replace (len port =? 0) with false by (destruct port; [done|]; rewrite len_cons; pose proof (len_nonneg port); lia). cbn [orb].
  eexists. split; [done|]. unfold tunnel_cmd_step, tt_queue_post2. cbn [ev_type ev_str friend_number].
  assert (~ In 0 (host ++ [10] ++ port ++ [10] ++ tcp)) as N by (by apply lines_no_nul).
  unfold share_payload. rewrite snprintf_whole by (done || rewrite !len_app; change (len [10]) with 1; lia).
  rewrite cstr_no_nul by done. intros t. rewrite cmd_share_lines by done. apply bind_pure.
Qed.
(** The friend's side: the dialog names what was offered, and confirmed as it
    is it asks for the ports that were offered. *)
Definition free_locally (b : option (Z -> bool)) (p : Z) : Prop := match b with Some free => free p = true | None => True end.
Lemma auto_pick_free b l : Forall (fun r => free_locally b (start r)) l -> auto_pick b l = l.
Proof.
  induction 1 as [|[s c] l H _ IH]; [done|]. unfold auto_pick in *. cbn [fmap list_fmap start count] in *. rewrite IH. f_equal. unfold pick_start, free_locally in *.
  destruct b as [free|]; [|done]. by rewrite H.
Qed.
Lemma invite_shown v n host udp tcp ui : tun_invite_open (tun ui) = false -> plain host -> len host <= 61 -> ports_ok udp -> ports_ok tcp ->
  let t := tun (handle_event v (tun_event (TuInvite n host (ports_text udp) (ports_text tcp))) ui) in
  tun_invite_open t = true /\ tun_invite_fn t = n /\ tun_invite_host t = host /\ tun_invite_udp t = udp /\ tun_invite_tcp t = tcp.
Proof.
  intros O Ph L Hu Ht. unfold ports_text. destruct (to_str_whole udp 256 Hu) as [-> Lu]; [lia|]. destruct (to_str_whole tcp 256 Ht) as [-> Lt]; [lia|].
  unfold handle_event, tun_event. cbn [ev_type friend_number ev_str fst]. unfold on_tunnel_invite, set_tun. cbn [tun set_field]. rewrite O.
  rewrite invite_lines; [|done|apply ports_plain|apply ports_plain|lia]. unfold field_ports. rewrite !parse_join by done. by split_and!.
Qed.
Lemma accept_posts {P : Prims} {E : TunnelEnv} v b ui now : let t := tun ui in tun_invite_fn t <> UINT32_MAX -> ports_ok (tun_invite_udp t) -> ports_ok (tun_invite_tcp t) ->
  Forall (fun r => free_locally b (start r)) (tun_invite_udp t) ->
  exists e, posted (act v (TunAccept b []) ui) = posted ui ++ [e] /\
    forall s, (tunnel_cmd_step e now s).2 = (tt_tunnel_accept (tun_invite_fn t) (tun_invite_udp t) (tun_invite_tcp t) s).2.
Proof.
  intros t Hn Hu Ht Hf. cbn [act]. unfold cc_tun_accept. fold t. rewrite (proj2 (Z.eqb_neq _ _)) by done. cbv zeta.
  eexists. split; [done|]. unfold tunnel_cmd_step, tt_queue_post2. cbn [ev_type ev_str friend_number]. change (len [] =? 0) with true. cbn iota.
  rewrite auto_pick_free by done. unfold accept_text. destruct (to_str_whole _ 128 Hu) as [-> Lu]; [lia|]. destruct (to_str_whole _ 128 Ht) as [-> Lt]; [lia|].
  cbn [fst]. set (a := join (range_text <$> tun_invite_udp t)) in *. set (c := join (range_text <$> tun_invite_tcp t)) in *. assert (plain a /\ plain c) as [[A1 A2] [C1 C2]] by (split; apply ports_plain).
  assert (~ In 0 (a ++ [10] ++ c)) as N by (rewrite !in_app_iff; cbn; intuition lia).
  assert (len (a ++ [10] ++ c) < 256) as Ln by (rewrite !len_app; change (len [10]) with 1; lia).
  rewrite (snprintf_whole 256) by done. rewrite cstr_no_nul by done. unfold cmd_tunnel_accept. rewrite snprintf_whole by done.
  cbn [app]. rewrite strchr_app by done. unfold a, c. rewrite !parse_join by done. intros s. apply bind_pure.
Qed.

Lemma app_bytes_pos (a b : TTPortRangeList) : a ++ b <> [] -> 8 <= len (accept_payload a b).
Proof.
  intros Hne. assert (0 < len (a ++ b)) as H.
  { destruct (a ++ b) as [|r rs]; [done|]. rewrite len_cons. pose proof (len_nonneg rs). lia. }
  rewrite len_app in H. unfold accept_payload. rewrite len_app, !len_range_list_bytes. lia.
Qed.


(** ** Witness *)

Definition share_env : env := mkEnv [] 0 (fun c => c) false.
(** The user has friend 7 selected and offers UDP 27015 and TCP 80 and 81. *)
Definition sharing_user : Ui := (ui_init false) <| sel_kind := TT_SEL_CHAT |> <| sel_fn := 7 |>.
Definition port_text : bytes := ascii_bytes "27015".
Definition tcp_text : bytes := ascii_bytes "80-81".
